(* ===== verification/_CoqProject ===== *)
-Q . S2P
Prelude.v
Spinlock.v
Mmu.v
Kalloc.v
Console.v
Kbd.v
CString.v
SkipList.v
SkipListRep.v
SkipListInsert.v
SkipListInit.v
SkipListDelete.v
RunQueue.v
Proc.v
ProcBase.v
ProcSched.v
ProcSleep.v
ProcLife.v
ProcProps.v
ProcSmp.v
Grep.v
Pipe.v
Sleeplock.v
Block.v
Bio.v
Log.v
LogCrash.v
Fs.v
FsTx.v
FsAlloc.v
FsFile.v
FsRw.v
FsInode.v
FsDir.v
FsPath.v
FsTerm.v
FsProps.v
FsDemo.v
Vm.v
VmPt.v
VmMap.v
VmKern.v
VmUser.v
VmCopy.v
VmProps.v
VmDemo.v
Syscall.v
File.v
Sysfile.v
FileProps.v
FileWrite.v
FileDemo.v
Sh.v
ShLex.v
ShGrammar.v
ShParse.v
Umalloc.v
UmallocProps.v
Ide.v
IdeProps.v
Exec.v
ExecSpace.v
ExecLoad.v
ExecStack.v
ExecProps.v
ExecDemo.v
Trap.v
TrapProps.v
Mkfs.v
MkfsImage.v
MkfsAppend.v
MkfsFiles.v
MkfsMain.v
MkfsProps.v
