(* ===== verification/Prelude.v ===== *)
(** * Verification of an xv6 kernel with a skip-list scheduler

    The program is xv6 for the x86 in which the round-robin scheduler has been
    replaced by one that runs the process with the earliest virtual deadline,
    kept in a skip list (BFS, [bfs.h]).  This library
    models the kernel, the disk image builder and the larger user programs as
    Rocq functions translated from the C source under [src/], and proves what
    makes them correct.

    ** How the program is modelled

    A routine is a function in the state monad [M] of this file over the state
    of its component, a [Record]; its result is [Ok] or one of [Panic] (the C
    routine calls [panic], or a host program exits with an error), [Fault] (a
    null or dangling pointer, an element that was never written), [Spin] (it
    waits for something no code of this run will change) and [NoFuel].
    Integers are [Z] with the conversions [u32], [i32] and [u8] written where
    the C code truncates.  Memory is typed by the component: words of pages
    for the allocator and the page tables, bytes for disk blocks, strings and
    user memory, objects for the skip list.  A part of a state is reached
    with [zoom].  Pointers into a table are indices; null is [None] or 0.

    Where a routine switches contexts it is split there, into the part before
    and the part behind; steps of several processes, processors or devices are
    interleaved by a step relation, and the theorems are invariants of every
    reachable state ([rtc_invariant]).  Hardware and code that is not in the
    repository enters as arguments, with what the code relies on as laws of a
    class ([AtaLaws] for the drive, [KEnv] for what the process code calls,
    [PageAlloc] for the clients of the page allocator, which [Kalloc]
    implements).

    ** The parts, and the files that model them

    - Prelude: machine integers, results, the monad and its notations, shared
      lemmas and tactics.
    - [Spinlock] ([spinlock.c], [struct cpu]): [acquire], [release],
      [holding], [pushcli], [popcli] on one processor; module [Smp] interleaves
      the atomic actions of any number of processors.
    - [Mmu] ([mmu.h], [memlayout.h], [param.h]): address arithmetic.
    - [Kalloc] ([kalloc.c]): the free list threaded through the free pages.
    - [Console] ([console.c]) and [Kbd] ([kbd.c], [kbd.h]): formatted output,
      the line editor, the translation of scan codes.
    - [CString] ([string.c], the strings of [ulib.c]).
    - [SkipList] (the queue in [proc.c]) at pointer level; [SkipListRep],
      [SkipListInsert], [SkipListInit], [SkipListDelete] relate it to towers of
      cells, and [RunQueue] to a sorted list.
    - [Proc] (the rest of [proc.c], [switchuvm] of [vm.c]): table, creation,
      exit and wait, sleep and wakeup, scheduler; [ProcBase], [ProcSched],
      [ProcSleep], [ProcLife] carry its invariant, [ProcProps] the theorems;
      [ProcSmp] takes [sleep], [wakeup], [kill] and [yield] apart into steps and
      interleaves them on several processors.
    - [Trap] ([trap.c], [sysproc.c], the dispatch in [syscall.c]) and
      [TrapProps]: interrupts, the clock and the quantum, the process calls.
    - [Pipe] ([pipe.c]), [Sleeplock] ([sleeplock.c]): machines of readers and
      writers, and of lock holders.
    - [Block], [Bio] ([bio.c] over [memide.c]), [Log] ([log.c]), [LogCrash]:
      blocks, the buffer cache, the redo log and crashes.
    - [Ide] ([ide.c]) and [IdeProps]: the driver of the real disk.
    - [Fs] ([fs.c]); [FsTx] the view inside a transaction, [FsAlloc] the
      bitmap, [FsFile] and [FsRw] the content of a file, [FsInode] the inode on
      disk, [FsDir] directories, [FsPath] paths, [FsTerm] termination,
      [FsProps] the theorems, [FsDemo] an example disk.
    - [Vm] ([vm.c]); [VmPt], [VmMap], [VmKern], [VmUser], [VmCopy] what the
      routines do to an address space, [VmProps] and [VmDemo].
    - [Syscall] (arguments in [syscall.c]), [File] ([file.c], [pipealloc]),
      [Sysfile] ([sysfile.c]); [FileProps] the reference counts, [FileWrite]
      writes and crashes, [FileDemo].
    - [Exec] ([exec.c]); [ExecSpace], [ExecLoad], [ExecStack], [ExecProps],
      [ExecDemo].
    - [Mkfs] ([mkfs.c]); [MkfsImage] the image under construction,
      [MkfsAppend] and [MkfsFiles] its files, [MkfsMain] the run, [MkfsProps].
    - User programs: [Grep] ([grep.c]), the parser of the shell [Sh] ([sh.c])
      with [ShLex], [ShGrammar], [ShParse], and the allocator [Umalloc]
      ([umalloc.c]) with [UmallocProps].

    ** What the theorems show

    - Scheduling.  The pointer-level skip list does what insertion into and
      removal from a list sorted by deadline do; the scheduler runs a runnable
      process with the earliest deadline, table and queue agree, a process
      keeps the processor for exactly its quantum, no wakeup is lost in any
      interleaving, and [exit] leaves a zombie, wakes exactly whom it should and
      changes no other process.  The limits are theorems
      too: when a removal misses its entry, and that the insertion number 417
      draws a level the list does not have.
    - Locks and pipes.  Mutual exclusion of both kinds of locks, pipes deliver
      bytes in order, sleepers have a reason to sleep.
    - Memory.  The allocator is the list of its free pages; page tables map
      what they should, as the processor walks them; copying, growing and
      shrinking user memory lose no page; arguments of system calls are
      fetched from user memory only; [exec] replaces the process or leaves it.
    - Disk.  The cache shows the current content; a commit is atomic under
      crashes, also during recovery; the driver behaves as a disk that serves
      the requests one after the other, with a drive that may report errors.
    - Files.  A file is an array of bytes, a directory a table, a path leads
      where the tree on disk says; a write is durable and all-or-nothing per
      transaction; reference counts match the descriptors.  The image that
      [mkfs] builds is a file system in order that holds the files given.
    - Programs and console.  [grep] decides its patterns, the shell parses
      exactly its grammar, [malloc] keeps blocks apart, typing a text on a US
      keyboard brings it to the console, and the console edits and echoes it.

    ** Bounds and fuel

    Loops that are not structural have fuel; every theorem about such a loop
    shows that the fuel it gets is enough, and [FsTerm] shows it for the file
    system in every state.  The fuel is: for strings, names, patterns and
    system call strings the length of the array; for [readi] and [writei] one
    more than the [MAXFILE] blocks of a file; for directories the number of
    entries the size allows; for the skip list one more than the objects of the
    heap; for [malloc] and [free] twice the headers that fit below the break,
    and four more; for page
    loops the number of pages of the range; for the shell four units for each
    character and eight more; for [iappend] one more than the bytes to append.
    The tables and sizes are those of [param.h] (64 processes, 50 inodes, 30
    buffers, a log of 30 blocks, an image of 2000 blocks).

    ** Not modelled

    - Concurrency inside the file system: the log, the cache and the inode
      layer run one process at a time, and a caller that would sleep waits
      for good ([Spin]).  Pipes, locks, the driver, the scheduler and the
      descriptors are interleaved.
    - Device registers ([lapic.c], [ioapic.c], [picirq.c], [uart.c],
      [kshutdown.c]), and the firmware tables of [mp.c]:
      the meaning of these accesses is in the devices, not in the source.
    - Assembly and boot ([bootasm.S], [bootmain.c], [entry.S],
      [entryother.S], [swtch.S], [trapasm.S], [initcode.S], [usys.S],
      [x86.h]), the segment and interrupt descriptor tables ([seginit],
      [tvinit]), and the order of the calls in [main.c].
    - Running the commands of the shell ([runcmd] and [main] of [sh.c]), the
      user library's [printf], the small user programs and the tests
      ([usertests.c], [forktest.c], [stressfs.c]): they are sequences of
      system calls, which are modelled in the kernel.
    - [skiplist.c] and [skip_list.py], which are not part of the kernel.
    - Names of locks and the saved call stacks, which only serve debugging. *)

From stdpp Require Export base list gmap strings sets numbers fin_maps relations.
From Stdlib Require Export ZArith Lia Sorted.

#[global] Open Scope Z_scope.
#[export] Set Default Goal Selector "!".

(** ** Machine integers

    [int] and [uint] are 32 bits wide on the target (gcc -m32).  Values are
    kept as [Z]; [u32] and [i32] are the conversions to [uint] and to [int]
    (two's complement, which is what gcc implements for signed overflow in
    shifts and for [>>] of negative values). *)
Definition u32 (z : Z) : Z := z mod 2 ^ 32.

Definition i32 (z : Z) : Z := (z + 2 ^ 31) mod 2 ^ 32 - 2 ^ 31.

Definition u8 (z : Z) : Z := z mod 2 ^ 8.

Definition i32_range (z : Z) : Prop := - 2 ^ 31 <= z < 2 ^ 31.

Definition u32_range (z : Z) : Prop := 0 <= z < 2 ^ 32.

Lemma u32_bound z : 0 <= u32 z < 2 ^ 32.
Proof. unfold u32. apply Z.mod_pos_bound. lia. Qed.

Lemma i32_bound z : - 2 ^ 31 <= i32 z < 2 ^ 31.
Proof.
  unfold i32. pose proof (Z.mod_pos_bound (z + 2 ^ 31) (2 ^ 32)). lia.
Qed.

Lemma u32_small z : u32_range z -> u32 z = z.
Proof. unfold u32_range, u32. intros. by apply Z.mod_small. Qed.

Lemma i32_small z : i32_range z -> i32 z = z.
Proof.
  unfold i32_range, i32. intros. rewrite Z.mod_small; lia.
Qed.

Lemma u32_u32 z : u32 (u32 z) = u32 z.
Proof. apply u32_small, u32_bound. Qed.

Lemma i32_u32 z : i32 (u32 z) = i32 z.
Proof.
  unfold i32, u32. f_equal.
  by rewrite Z.add_mod_idemp_l by lia.
Qed.

Lemma u32_add_l a b : u32 (u32 a + b) = u32 (a + b).
Proof. unfold u32. by rewrite Z.add_mod_idemp_l by lia. Qed.

Lemma u32_add_r a b : u32 (a + u32 b) = u32 (a + b).
Proof. unfold u32. by rewrite Z.add_mod_idemp_r by lia. Qed.

Lemma u32_sub_l a b : u32 (u32 a - b) = u32 (a - b).
Proof. unfold u32. by rewrite Zminus_mod_idemp_l. Qed.

Lemma u32_sub_r a b : u32 (a - u32 b) = u32 (a - b).
Proof. unfold u32. by rewrite Zminus_mod_idemp_r. Qed.

(** ** Results

    A kernel routine either returns, stops the machine in [panic] with a
    message, dereferences a pointer that designates no live object of the
    expected type ([Fault]: a null or dangling pointer, an array slot that was
    never written), or spins on something no code of this CPU will change
    ([Spin]).  [NoFuel] is what a loop modelled with fuel answers when the
    fuel is used up; every theorem about such a loop shows it is not the
    answer. *)
Inductive result (A : Type) : Type :=
| Ok (a : A)
| Panic (msg : string)
| Fault
| Spin
| NoFuel.
Arguments Ok {A} a.
Arguments Panic {A} msg.
Arguments Fault {A}.
Arguments Spin {A}.
Arguments NoFuel {A}.

Definition rbind {A B : Type} (c : result A) (k : A -> result B) : result B :=
  match c with
  | Ok a => k a
  | Panic m => Panic m
  | Fault => Fault
  | Spin => Spin
  | NoFuel => NoFuel
  end.

(** Stateful routines thread a state of type [S]. *)
Definition M (S A : Type) : Type := S -> result (A * S).

Definition ret {S A : Type} (a : A) : M S A := fun s => Ok (a, s).

Definition bind {S A B : Type} (c : M S A) (k : A -> M S B) : M S B :=
  fun s => rbind (c s) (fun '(a, s') => k a s').

Definition get {S : Type} : M S S := fun s => Ok (s, s).

Definition gets {S A : Type} (f : S -> A) : M S A := fun s => Ok (f s, s).

Definition modify {S : Type} (f : S -> S) : M S unit := fun s => Ok (tt, f s).

Definition panic {S A : Type} (m : string) : M S A := fun _ => Panic m.

Definition fault {S A : Type} : M S A := fun _ => Fault.

Definition nofuel {S A : Type} : M S A := fun _ => NoFuel.

(** A routine that leaves the state alone. *)
Definition lift {S A : Type} (r : result A) : M S A := fun s => rbind r (fun a => Ok (a, s)).

Definition when {S : Type} (b : bool) (c : M S unit) : M S unit :=
  if b then c else ret tt.

(** Running a routine of a component on the part of a larger state that the
    component owns. *)
Definition zoom {S T A : Type} (g : S -> T) (p : T -> S -> S) (c : M T A) : M S A :=
  fun s => rbind (c (g s)) (fun '(a, t) => Ok (a, p t s)).

(** The state after a run, the initial one when the run does not end well. *)
Definition after {S A : Type} (c : M S A) (s : S) : S :=
  match c s with Ok (_, s') => s' | _ => s end.

Lemma after_Ok {S A} (c : M S A) s a s' : c s = Ok (a, s') -> after c s = s'.
Proof. unfold after. by intros ->. Qed.

Declare Scope kernel_scope.
Delimit Scope kernel_scope with K.

Notation "'let*' x ':=' c 'in' k" := (bind c (fun x => k))
  (at level 10, x pattern, c at level 100, k at level 200) : kernel_scope.
Notation "c ;;; k" := (bind c (fun _ => k))
  (at level 100, k at level 200, right associativity) : kernel_scope.
Notation "'let?' x ':=' c 'in' k" := (rbind c (fun x => k))
  (at level 10, x pattern, c at level 100, k at level 200) : kernel_scope.

#[global] Open Scope kernel_scope.

(** One lemma per way of looking at a bind, instead of unfolding it. *)
Lemma bind_Ok {S A B : Type} (c : M S A) (k : A -> M S B) s a s' :
  c s = Ok (a, s') -> bind c k s = k a s'.
Proof. intros E. unfold bind. by rewrite E. Qed.

Lemma seq_Ok {S A B : Type} (c : M S A) (k : M S B) s a s' :
  c s = Ok (a, s') -> (c ;;; k) s = k s'.
Proof. apply bind_Ok. Qed.

Lemma lift_Ok {S A : Type} (r : result A) (s : S) a : r = Ok a -> lift r s = Ok (a, s).
Proof. by intros ->. Qed.

Lemma bind_inv {S A B : Type} (c : M S A) (k : A -> M S B) s b s'' :
  bind c k s = Ok (b, s'') -> exists a s', c s = Ok (a, s') /\ k a s' = Ok (b, s'').
Proof.
  unfold bind. destruct (c s) as [[a s']| | | |]; simpl; intros E; try done. eauto.
Qed.

Lemma rbind_inv {A B : Type} (c : result A) (k : A -> result B) b :
  rbind c k = Ok b -> exists a, c = Ok a /\ k a = Ok b.
Proof. destruct c; simpl; intros; try done. eauto. Qed.

Lemma zoom_Ok {S T A : Type} (g : S -> T) (p : T -> S -> S) (c : M T A) s a t :
  c (g s) = Ok (a, t) -> zoom g p c s = Ok (a, p t s).
Proof. intros E. unfold zoom. by rewrite E. Qed.

(** Decompose a successful run into the runs of its parts. *)
Ltac inv_ok H :=
  lazymatch type of H with
  | bind _ _ _ = Ok _ =>
      let a := fresh "a" in let s := fresh "s" in
      let H1 := fresh "Hrun" in let H2 := fresh "Hrun" in
      apply bind_inv in H; destruct H as (a & s & H1 & H2);
      inv_ok H1; inv_ok H2
  | ret _ _ = Ok _ => unfold ret in H; simplify_eq H; intros; subst
  | get _ = Ok _ => unfold get in H; simplify_eq H; intros; subst
  | gets _ _ = Ok _ => unfold gets in H; simplify_eq H; intros; subst
  | modify _ _ = Ok _ => unfold modify in H; simplify_eq H; intros; subst
  | _ => idtac
  end.

(** Run one step of a computation whose outcome is a hypothesis or computes. *)
Ltac step :=
  first
    [ erewrite bind_Ok by eassumption
    | erewrite bind_Ok by reflexivity ]; cbn beta iota.

(** [lia] for a boolean comparison, either way round. *)
Ltac blia :=
  first
    [ lia
    | apply Z.ltb_lt; lia | apply Z.ltb_ge; lia | apply Z.leb_le; lia | apply Z.leb_gt; lia
    | apply Z.eqb_eq; lia | apply Z.eqb_neq; lia
    | symmetry; first
        [ apply Z.ltb_lt; lia | apply Z.ltb_ge; lia | apply Z.leb_le; lia | apply Z.leb_gt; lia
        | apply Z.eqb_eq; lia | apply Z.eqb_neq; lia ] ].

Create HintDb kernel.

(** Rule induction for invariants of step relations. *)
Lemma rtc_invariant {A : Type} (R : A -> A -> Prop) (P : A -> Prop) x y :
  (forall a b, P a -> R a b -> P b) -> P x -> rtc R x y -> P y.
Proof. intros Hs Hx Hr. revert Hx. induction Hr; eauto. Qed.
