(* ===== verification/Spinlock.v ===== *)
(** * Spin locks and the per-CPU interrupt state

    Models [spinlock.c] and the part of [proc.c] ([mycpu], [cpuid]) and of
    [mp.c]'s [cpus] table that it uses.  [hw] is what the code running on one
    processor sees: the table of CPUs, the processor's own local APIC id and
    its EFLAGS register.  The debugging fields of a lock ([name], [pcs]) are
    left out.  Module [Smp] is the many-processor view: the atomic actions of
    [acquire] and [release] interleaved over any number of CPUs. *)

From S2P Require Import Prelude.

(** mmu.h *)
Definition FL_IF : Z := 0x200.

(** The fields of [struct cpu] that the modelled code reads or writes. *)
Record cpu := Cpu {
  apicid : Z;
  ncli : Z;
  intena : Z;
  cproc : option nat      (* index in ptable.proc of the running process *)
}.

Record hw := Hw {
  cpus : list cpu;        (* the first ncpu entries of cpus[] *)
  lapic_id : Z;           (* what lapicid() answers on this processor *)
  eflags : Z
}.

(** [lcpu] is the index in [cpus] of the holder, [None] for a null pointer. *)
Record spinlock := Spinlock { locked : Z; lcpu : option nat }.

Definition set_eflags (e : Z) (h : hw) : hw := Hw (cpus h) (lapic_id h) e.

Definition set_cpu (i : nat) (c : cpu) (h : hw) : hw :=
  Hw (<[i := c]> (cpus h)) (lapic_id h) (eflags h).

Definition with_ncli (n : Z) (c : cpu) : cpu := Cpu (apicid c) n (intena c) (cproc c).

Definition with_intena (n : Z) (c : cpu) : cpu := Cpu (apicid c) (ncli c) n (cproc c).

Definition with_cproc (p : option nat) (c : cpu) : cpu := Cpu (apicid c) (ncli c) (intena c) p.

(** ** Instructions *)
Definition readeflags : M hw Z := gets eflags.

Definition cli : M hw unit := modify (fun h => set_eflags (Z.land (eflags h) (Z.lnot FL_IF)) h).

Definition sti : M hw unit := modify (fun h => set_eflags (Z.lor (eflags h) FL_IF) h).

Definition interruptible (e : Z) : bool := negb (Z.land e FL_IF =? 0).

(** ** proc.c: mycpu, cpuid *)

(** The loop [for (i = 0; i < ncpu; ++i) if (cpus[i].apicid == apicid)]. *)
Fixpoint find_cpu (id : Z) (i : nat) (l : list cpu) : option nat :=
  match l with
  | [] => None
  | c :: l' => if apicid c =? id then Some i else find_cpu id (S i) l'
  end.

(** A pointer into [cpus] is the index of the element. *)
Definition mycpu : M hw nat :=
  let* e := readeflags in
  if interruptible e then panic "mycpu called with interrupts enabled"
  else
    let* h := get in
    match find_cpu (lapic_id h) 0 (cpus h) with
    | Some i => ret i
    | None => panic "unknown apicid"
    end.

Definition cpuid : M hw nat := mycpu.

(** [mycpu()->field], the two halves of an access through the pointer. *)
Definition load_cpu (i : nat) : M hw cpu :=
  let* h := get in
  match cpus h !! i with Some c => ret c | None => fault end.

Definition store_cpu (i : nat) (c : cpu) : M hw unit := modify (set_cpu i c).

(** ** spinlock.c *)
Definition pushcli : M hw unit :=
  let* e := readeflags in
  cli ;;;
  let* i := mycpu in
  let* c := load_cpu i in
  when (ncli c =? 0) (store_cpu i (with_intena (Z.land e FL_IF) c)) ;;;
  let* i := mycpu in
  let* c := load_cpu i in
  store_cpu i (with_ncli (i32 (ncli c + 1)) c).

Definition popcli : M hw unit :=
  let* e := readeflags in
  if interruptible e then panic "popcli - interruptible"
  else
    let* i := mycpu in
    let* c := load_cpu i in
    let n := i32 (ncli c - 1) in
    store_cpu i (with_ncli n c) ;;;
    if n <? 0 then panic "popcli"
    else
      let* i := mycpu in
      let* c := load_cpu i in
      when ((ncli c =? 0) && negb (intena c =? 0)) sti.

Definition initlock (lk : spinlock) : spinlock := Spinlock 0 None.

(** The operations on a lock run on the pair of the processor and the lock. *)
Abbreviation ML := (M (hw * spinlock)).

Definition on_hw {A} (c : M hw A) : ML A := zoom fst (fun h p => (h, snd p)) c.

Definition holding : ML bool :=
  on_hw pushcli ;;;
  let* lk := gets snd in
  let* i := on_hw mycpu in
  let r := negb (locked lk =? 0) && bool_decide (lcpu lk = Some i) in
  on_hw popcli ;;;
  ret r.

(** [while (xchg(&lk->locked, 1) != 0);].  The first exchange that finds 0
    ends the loop.  While another CPU holds the lock the exchange changes
    nothing and the loop spins: no action of this CPU ends it. *)
Definition xchg_loop : ML unit :=
  let* lk := gets snd in
  if locked lk =? 0 then modify (fun p => (fst p, Spinlock 1 (lcpu (snd p))))
  else fun _ => Spin.

Definition acquire : ML unit :=
  on_hw pushcli ;;;
  let* h := holding in
  if h then panic "acquire"
  else
    xchg_loop ;;;
    let* i := on_hw mycpu in
    modify (fun p => (fst p, Spinlock (locked (snd p)) (Some i))).

Definition release : ML unit :=
  let* h := holding in
  if negb h then panic "release"
  else
    modify (fun p => (fst p, Spinlock (locked (snd p)) None)) ;;;
    modify (fun p => (fst p, Spinlock 0 (lcpu (snd p)))) ;;;
    on_hw popcli.

(** ** The running CPU

    [this_cpu h i c]: the processor described by [h] is [cpus[i]], whose
    entry is [c].  [hw_ok] adds what the kernel maintains: the nesting depth
    is non-negative and below the overflow of [ncli], and while it is positive
    interrupts are off. *)
Definition this_cpu (h : hw) (i : nat) (c : cpu) : Prop :=
  find_cpu (lapic_id h) 0 (cpus h) = Some i /\ cpus h !! i = Some c.

Definition hw_ok (h : hw) (i : nat) (c : cpu) : Prop :=
  this_cpu h i c /\ 0 <= ncli c < 2 ^ 30 /\
  (0 < ncli c -> interruptible (eflags h) = false).

Definition eflags_off (e : Z) : Z := Z.land e (Z.lnot FL_IF).

(** The state after [pushcli] and after [popcli], in closed form. *)
Definition pushed (i : nat) (c : cpu) (h : hw) : hw :=
  set_cpu i (with_ncli (ncli c + 1)
    (if ncli c =? 0 then with_intena (Z.land (eflags h) FL_IF) c else c))
    (set_eflags (eflags_off (eflags h)) h).

Definition popped (i : nat) (c : cpu) (h : hw) : hw :=
  let h' := set_cpu i (with_ncli (ncli c - 1) c) h in
  if (ncli c =? 1) && negb (intena c =? 0)
  then set_eflags (Z.lor (eflags h) FL_IF) h' else h'.

Lemma eflags_off_not_interruptible e : interruptible (eflags_off e) = false.
Proof.
  unfold interruptible, eflags_off.
  rewrite <- Z.land_assoc, (Z.land_comm (Z.lnot FL_IF)), Z.land_lnot_diag, Z.land_0_r.
  done.
Qed.

Lemma eflags_off_id e : interruptible e = false -> eflags_off e = e.
Proof.
  unfold interruptible, eflags_off. rewrite negb_false_iff, Z.eqb_eq.
  intros H. apply Z.bits_inj'. intros n Hn.
  rewrite Z.land_spec, Z.lnot_spec by done.
  apply (f_equal (fun z => Z.testbit z n)) in H.
  rewrite Z.land_spec, Z.bits_0 in H.
  destruct (Z.testbit e n), (Z.testbit FL_IF n); naive_solver.
Qed.

Lemma FL_IF_bit n : 0 <= n -> Z.testbit FL_IF n = (n =? 9).
Proof. intros. change FL_IF with (2 ^ 9). rewrite Z.pow2_bits_eqb by lia. lia. Qed.

Lemma eflags_on_off e :
  interruptible e = true -> Z.lor (eflags_off e) FL_IF = e.
Proof.
  unfold interruptible, eflags_off. rewrite negb_true_iff, Z.eqb_neq.
  intros H. apply Z.bits_inj'. intros n Hn.
  rewrite Z.lor_spec, Z.land_spec, Z.lnot_spec, FL_IF_bit by done.
  destruct (Z.eqb_spec n 9) as [->|]; [|by destruct (Z.testbit e n)].
  destruct (Z.testbit e 9) eqn:E; [done|]. exfalso. apply H.
  apply Z.bits_inj'. intros m Hm. rewrite Z.land_spec, FL_IF_bit, Z.bits_0 by done.
  destruct (Z.eqb_spec m 9) as [->|]; [by rewrite E|by destruct (Z.testbit e m)].
Qed.

Lemma find_cpu_lookup id l j i :
  find_cpu id j l = Some i -> exists c, l !! (i - j)%nat = Some c /\ apicid c = id /\ (j <= i)%nat.
Proof.
  revert j. induction l as [|c l IH]; intros j; simpl; [done|].
  destruct (Z.eqb_spec (apicid c) id).
  - intros [= <-]. exists c. rewrite Nat.sub_diag. eauto.
  - intros Hf. destruct (IH _ Hf) as (c' & Hl & ? & ?).
    exists c'. replace (i - j)%nat with (S (i - S j)) by lia. eauto with lia.
Qed.

Lemma find_cpu_insert id l j k i c c' :
  l !! k = Some c -> apicid c' = apicid c ->
  find_cpu id j l = Some i -> find_cpu id j (<[k := c']> l) = Some i.
Proof.
  revert j k. induction l as [|d l IH]; intros j k; simpl; [done|].
  destruct k as [|k]; simpl.
  - intros [= ->] ->. done.
  - intros Hk He. destruct (apicid d =? id); [done|]. eauto.
Qed.

Lemma this_cpu_set h i c c' :
  this_cpu h i c -> apicid c' = apicid c -> this_cpu (set_cpu i c' h) i c'.
Proof.
  intros [Hf Hl] Ha. split; simpl.
  - by eapply find_cpu_insert.
  - apply list_lookup_insert_eq. by eapply lookup_lt_Some.
Qed.

Lemma this_cpu_eflags h i c e : this_cpu h i c -> this_cpu (set_eflags e h) i c.
Proof. done. Qed.

Lemma mycpu_ok h i c :
  this_cpu h i c -> interruptible (eflags h) = false -> mycpu h = Ok (i, h).
Proof.
  intros [Hf _] He. unfold mycpu, bind, readeflags, gets, get. simpl.
  by rewrite He, Hf.
Qed.

Lemma load_cpu_ok h i c : this_cpu h i c -> load_cpu i h = Ok (c, h).
Proof. intros [_ Hl]. unfold load_cpu, bind, get. simpl. by rewrite Hl. Qed.

#[export] Hint Resolve this_cpu_set this_cpu_eflags : kernel.
#[export] Hint Resolve mycpu_ok load_cpu_ok eflags_off_not_interruptible : kernel.

Lemma set_cpu_set_cpu i c c' h : set_cpu i c (set_cpu i c' h) = set_cpu i c h.
Proof. unfold set_cpu; simpl. by rewrite list_insert_insert_eq. Qed.

Lemma set_cpu_id i c h : cpus h !! i = Some c -> set_cpu i c h = h.
Proof. intros H. unfold set_cpu. rewrite list_insert_id by done. by destruct h. Qed.

Lemma pushcli_ok h i c :
  hw_ok h i c -> pushcli h = Ok (tt, pushed i c h).
Proof.
  intros (Ht & Hn & Hi). unfold pushcli. step. step.
  set (h1 := set_eflags _ h).
  assert (Ht1 : this_cpu h1 i c) by done.
  erewrite bind_Ok by (eapply mycpu_ok; [done|apply eflags_off_not_interruptible]).
  erewrite bind_Ok by eauto using load_cpu_ok.
  set (c1 := if ncli c =? 0 then with_intena (Z.land (eflags h) FL_IF) c else c).
  assert (Hw : when (ncli c =? 0) (store_cpu i (with_intena (Z.land (eflags h) FL_IF) c)) h1
               = Ok (tt, set_cpu i c1 h1)).
  { subst c1. destruct (ncli c =? 0); [done|].
    unfold when, ret. rewrite set_cpu_id; [done|apply Ht1]. }
  erewrite bind_Ok by exact Hw.
  assert (Ht2 : this_cpu (set_cpu i c1 h1) i c1).
  { eapply this_cpu_set; [done|]. subst c1. by destruct (ncli c =? 0). }
  erewrite bind_Ok by (eapply mycpu_ok; [done|apply eflags_off_not_interruptible]).
  erewrite bind_Ok by eauto using load_cpu_ok.
  unfold store_cpu, modify. rewrite set_cpu_set_cpu.
  assert (Hc : ncli c1 = ncli c) by (subst c1; by destruct (ncli c =? 0)).
  rewrite Hc, i32_small by (unfold i32_range; lia). done.
Qed.

Lemma popcli_ok h i c :
  hw_ok h i c -> 1 <= ncli c -> popcli h = Ok (tt, popped i c h).
Proof.
  intros (Ht & Hn & Hi) H1. unfold popcli. step. rewrite Hi by lia.
  erewrite bind_Ok by (eapply mycpu_ok; eauto with lia).
  erewrite bind_Ok by eauto using load_cpu_ok.
  rewrite i32_small by (unfold i32_range; lia).
  set (c1 := with_ncli (ncli c - 1) c).
  step. replace (ncli c - 1 <? 0) with false by lia.
  assert (Ht2 : this_cpu (set_cpu i c1 h) i c1) by (eapply this_cpu_set; eauto).
  erewrite bind_Ok by (eapply mycpu_ok; [done|]; simpl; auto with lia).
  erewrite bind_Ok by eauto using load_cpu_ok.
  unfold popped. fold c1. replace (ncli c =? 1) with (ncli c1 =? 0) by (simpl; lia).
  change (intena c1) with (intena c).
  destruct ((ncli c1 =? 0) && negb (intena c =? 0)); done.
Qed.

(** What a matched [pushcli]/[popcli] pair leaves: everything as it was,
    except that at depth 0 the saved interrupt flag [intena] is refreshed. *)
Definition restored (i : nat) (c : cpu) (h : hw) : hw :=
  if ncli c =? 0 then set_cpu i (with_intena (Z.land (eflags h) FL_IF) c) h else h.

Definition pushed_cpu (c : cpu) (e : Z) : cpu :=
  with_ncli (ncli c + 1) (if ncli c =? 0 then with_intena (Z.land e FL_IF) c else c).

Lemma pushed_hw_ok h i c :
  hw_ok h i c -> ncli c < 2 ^ 30 - 1 -> hw_ok (pushed i c h) i (pushed_cpu c (eflags h)).
Proof.
  intros (Ht & Hn & Hi) Hlt. split; [|split].
  - eapply this_cpu_set; [by apply this_cpu_eflags|]. simpl. by destruct (ncli c =? 0).
  - simpl. lia.
  - intros _. simpl. apply eflags_off_not_interruptible.
Qed.

Lemma popped_pushed h i c :
  hw_ok h i c ->
  popped i (pushed_cpu c (eflags h)) (pushed i c h) = restored i c h.
Proof.
  intros ([Hf Hl] & Hn & Hi). unfold popped, pushed, restored, pushed_cpu.
  rewrite set_cpu_set_cpu. simpl.
  destruct (Z.eqb_spec (ncli c) 0) as [E|E].
  - replace (ncli c + 1 =? 1) with true by lia. simpl.
    replace (ncli c + 1 - 1) with (ncli c) by lia.
    change (negb (Z.land (eflags h) FL_IF =? 0)) with (interruptible (eflags h)).
    destruct (interruptible (eflags h)) eqn:Hb; unfold set_cpu, set_eflags; simpl.
    + by rewrite eflags_on_off.
    + by rewrite eflags_off_id.
  - replace (ncli c + 1 =? 1) with false by lia. simpl.
    rewrite eflags_off_id by (apply Hi; lia).
    replace (ncli c + 1 - 1) with (ncli c) by lia.
    destruct h as [cs l e], c as [ap n it pr]. unfold set_cpu, set_eflags, with_ncli; simpl in *.
    by rewrite list_insert_id.
Qed.

Lemma on_hw_Ok {A} (c : M hw A) h lk a h' :
  c h = Ok (a, h') -> on_hw c (h, lk) = Ok (a, (h', lk)).
Proof. intros E. unfold on_hw, zoom; simpl. by rewrite E. Qed.

Lemma restored_nested h i c : 1 <= ncli c -> restored i c h = h.
Proof. intros. unfold restored. by replace (ncli c =? 0) with false by lia. Qed.

(** Whether CPU [i] is the holder recorded in [lk]. *)
Definition held_by (lk : spinlock) (i : nat) : bool :=
  negb (locked lk =? 0) && bool_decide (lcpu lk = Some i).

Lemma holding_ok h i c lk :
  hw_ok h i c -> ncli c < 2 ^ 30 - 1 ->
  holding (h, lk) = Ok (held_by lk i, (restored i c h, lk)).
Proof.
  intros Hok Hlt. pose proof (pushed_hw_ok _ _ _ Hok Hlt) as Hok'.
  unfold holding. erewrite bind_Ok by (apply on_hw_Ok, pushcli_ok, Hok).
  step.
  erewrite bind_Ok.
  2: { apply on_hw_Ok. eapply mycpu_ok; [apply Hok'|]. apply Hok'. simpl. destruct Hok; lia. }
  erewrite bind_Ok.
  2: { apply on_hw_Ok. eapply popcli_ok; [done|]. simpl. destruct Hok; lia. }
  by rewrite popped_pushed.
Qed.

Lemma acquire_free_ok h i c lk :
  hw_ok h i c -> ncli c < 2 ^ 30 - 2 -> locked lk = 0 ->
  acquire (h, lk) = Ok (tt, (pushed i c h, Spinlock 1 (Some i))).
Proof.
  intros Hok Hlt Hfree. pose proof (pushed_hw_ok _ _ _ Hok ltac:(lia)) as Hok'.
  assert (0 <= ncli c) by (destruct Hok; lia).
  unfold acquire. erewrite bind_Ok by (apply on_hw_Ok, pushcli_ok, Hok).
  erewrite bind_Ok by (eapply holding_ok; [done|simpl; lia]).
  unfold held_by. rewrite Hfree. simpl.
  rewrite restored_nested by (simpl; lia).
  unfold xchg_loop. erewrite bind_Ok.
  2: { unfold bind, gets. simpl. rewrite Hfree. reflexivity. }
  erewrite bind_Ok.
  2: { apply on_hw_Ok. eapply mycpu_ok; [apply Hok'|]. apply Hok'. simpl. lia. }
  done.
Qed.

Lemma release_held_ok h i c lk :
  hw_ok h i c -> 1 <= ncli c < 2 ^ 30 - 1 -> held_by lk i = true ->
  release (h, lk) = Ok (tt, (popped i c h, Spinlock 0 None)).
Proof.
  intros Hok Hlt Hheld. unfold release.
  erewrite bind_Ok by (apply holding_ok; [done|lia]).
  rewrite Hheld. simpl. rewrite restored_nested by lia.
  step. step. apply on_hw_Ok. apply popcli_ok; [done|lia].
Qed.

Lemma acquire_held_ok h i c lk :
  hw_ok h i c -> ncli c < 2 ^ 30 - 2 -> locked lk <> 0 ->
  acquire (h, lk) = if bool_decide (lcpu lk = Some i) then Panic "acquire" else Spin.
Proof.
  intros Hok Hlt Hl. pose proof (pushed_hw_ok _ _ _ Hok ltac:(lia)) as Hok'.
  assert (0 <= ncli c) by (destruct Hok; lia).
  unfold acquire. erewrite bind_Ok by (apply on_hw_Ok, pushcli_ok, Hok).
  erewrite bind_Ok by (eapply holding_ok; [done|simpl; lia]).
  unfold held_by. replace (locked lk =? 0) with false by lia. simpl.
  case_bool_decide; [done|].
  unfold xchg_loop, bind, gets. simpl. by destruct (Z.eqb_spec (locked lk) 0).
Qed.

Lemma release_not_held_ok h i c lk :
  hw_ok h i c -> ncli c < 2 ^ 30 - 1 -> held_by lk i = false ->
  release (h, lk) = Panic "release".
Proof.
  intros Hok Hlt Hheld. unfold release.
  erewrite bind_Ok by (apply holding_ok; [done|lia]).
  by rewrite Hheld.
Qed.

(** ** Any number of CPUs

    The atomic actions of [acquire] and [release] on one lock, interleaved.
    [pc] is how far a CPU has come: [Out] holds no lock; [Spinning] is in the
    [xchg] loop, past the [holding] check; [Locked] has exchanged but not yet
    written [lk->cpu]; [Critical] is between [acquire] and [release];
    [Cleared] has passed [release]'s check and written [lk->cpu = 0]. *)
Module Smp.

Inductive pc := Out | Spinning | Locked | Critical | Cleared.

#[global] Instance pc_eq_dec : EqDecision pc.
Proof. solve_decision. Defined.

Record state := State { lk : spinlock; pcs : list pc }.

Definition goto (s : state) (i : nat) (p : pc) (l : spinlock) : state :=
  State l (<[i := p]> (pcs s)).

Inductive step (s : state) : state -> Prop :=
| step_enter i :               (* acquire: pushcli, if(holding(lk)) panic *)
    pcs s !! i = Some Out -> held_by (lk s) i = false ->
    step s (goto s i Spinning (lk s))
| step_xchg_fail i :           (* xchg(&lk->locked, 1) != 0 *)
    pcs s !! i = Some Spinning -> locked (lk s) <> 0 ->
    step s (goto s i Spinning (Spinlock 1 (lcpu (lk s))))
| step_xchg_ok i :             (* xchg(&lk->locked, 1) == 0 *)
    pcs s !! i = Some Spinning -> locked (lk s) = 0 ->
    step s (goto s i Locked (Spinlock 1 (lcpu (lk s))))
| step_set_cpu i :             (* lk->cpu = mycpu() *)
    pcs s !! i = Some Locked ->
    step s (goto s i Critical (Spinlock (locked (lk s)) (Some i)))
| step_clear_cpu i :           (* release: if(!holding(lk)) panic; lk->cpu = 0 *)
    held_by (lk s) i = true -> pcs s !! i = Some Critical ->
    step s (goto s i Cleared (Spinlock (locked (lk s)) None))
| step_unlock i :              (* movl $0, lk->locked *)
    pcs s !! i = Some Cleared ->
    step s (goto s i Out (Spinlock 0 (lcpu (lk s)))).

Definition init (n : nat) : state := State (initlock (Spinlock 0 None)) (replicate n Out).

(** A CPU owns the lock word from its successful exchange to its reset. *)
Definition owner_pc (p : pc) : bool :=
  match p with Locked | Critical | Cleared => true | Out | Spinning => false end.

Definition no_owner (s : state) (except : option nat) : Prop :=
  forall j q, pcs s !! j = Some q -> Some j <> except -> owner_pc q = false.

(** Either nobody owns the word, which is 0, or exactly one CPU does, and the
    [cpu] field names that CPU exactly while it is in its critical section. *)
Inductive inv (s : state) : Prop :=
| inv_free : locked (lk s) = 0 -> lcpu (lk s) = None -> no_owner s None -> inv s
| inv_owned i p :
    locked (lk s) <> 0 -> pcs s !! i = Some p -> owner_pc p = true ->
    lcpu (lk s) = (if decide (p = Critical) then Some i else None) ->
    no_owner s (Some i) -> inv s.

Lemma goto_self s i p q : pcs s !! i = Some q -> <[i := p]> (pcs s) !! i = Some p.
Proof. intros H. apply list_lookup_insert_eq. by eapply lookup_lt_Some. Qed.

Lemma no_owner_goto s i p l o :
  no_owner s o -> owner_pc p = false \/ o = Some i -> no_owner (goto s i p l) o.
Proof.
  intros Hn Hp j q Hq Hj. simpl in Hq.
  apply list_lookup_insert_Some in Hq as [(<- & <- & _)|[_ Hq]]; [|by eapply Hn].
  destruct Hp as [| ->]; done.
Qed.

Lemma init_inv n : inv (init n).
Proof.
  apply inv_free; [done..|]. intros j q Hq _. by apply lookup_replicate in Hq as [-> _].
Qed.

(** The CPU that acts is the owner, when it is at an owner's program point. *)
Lemma inv_acting s i p :
  inv s -> pcs s !! i = Some p -> owner_pc p = true ->
  locked (lk s) <> 0 /\ no_owner s (Some i) /\
  lcpu (lk s) = (if decide (p = Critical) then Some i else None).
Proof.
  intros [_ _ Hn|k q Hl Hk Hq Hc Hn] Hi Hp.
  - by rewrite (Hn _ _ Hi) in Hp.
  - destruct (decide (i = k)) as [->|Hne]; [naive_solver|].
    rewrite (Hn _ _ Hi) in Hp; naive_solver.
Qed.

(** A CPU outside moves without changing the word. *)
Lemma inv_outside s i p q l :
  inv s -> pcs s !! i = Some p -> owner_pc p = false -> owner_pc q = false ->
  (locked l = 0 <-> locked (lk s) = 0) -> lcpu l = lcpu (lk s) -> inv (goto s i q l).
Proof.
  intros [Hl Hc Hn|k r Hl Hk Hr Hc Hn] Hi Hp Hq Hw Hlc.
  - apply inv_free; simpl; [tauto|congruence|]. apply no_owner_goto; auto.
  - assert (i <> k) by congruence.
    apply (inv_owned _ k r); simpl; [tauto| |done|congruence|apply no_owner_goto; auto].
    by rewrite list_lookup_insert_ne.
Qed.

Lemma step_inv s s' : inv s -> step s s' -> inv s'.
Proof.
  intros Hinv [i Hp Hh|i Hp Hl|i Hp Hl|i Hp|i Hh Hp|i Hp].
  - by apply (inv_outside s i Out).
  - apply (inv_outside s i Spinning); [done..| |done]. simpl. lia.
  - destruct Hinv as [_ Hc Hn|k r Hne]; [|done].
    apply (inv_owned _ i Locked); simpl; [done|by eapply goto_self|done|done|].
    apply no_owner_goto; [|by right]. intros j q Hq _. by eapply Hn.
  - destruct (inv_acting _ _ _ Hinv Hp eq_refl) as (Hl & Hn & _).
    apply (inv_owned _ i Critical); simpl; [done|by eapply goto_self|done|done|].
    apply no_owner_goto; auto.
  - destruct (inv_acting _ _ _ Hinv Hp eq_refl) as (Hl & Hn & _).
    apply (inv_owned _ i Cleared); simpl; [done|by eapply goto_self|done|done|].
    apply no_owner_goto; auto.
  - destruct (inv_acting _ _ _ Hinv Hp eq_refl) as (Hl & Hn & Hc).
    apply inv_free; simpl; [done|done|]. intros j q Hq _. simpl in Hq.
    apply list_lookup_insert_Some in Hq as [(<- & <- & _)|[Hj Hq]]; [done|].
    eapply Hn; [done|congruence].
Qed.

Lemma reachable_inv n s : rtc step (init n) s -> inv s.
Proof. apply rtc_invariant; [exact step_inv|apply init_inv]. Qed.

(** C5: in every interleaving of any number of CPUs running
    [acquire] and [release] on one lock, at most one CPU is in its critical
    section, and [release]'s ownership check passes for exactly that CPU. *)
Theorem spinlock_mutual_exclusion n s i j :
  rtc step (init n) s ->
  pcs s !! i = Some Critical -> pcs s !! j = Some Critical ->
  i = j /\ held_by (lk s) i = true /\ (forall k, held_by (lk s) k = true -> k = i).
Proof.
  intros Hr Hi Hj. apply reachable_inv in Hr.
  destruct (inv_acting _ _ _ Hr Hi eq_refl) as (Hl & Hn & Hc).
  rewrite decide_True in Hc by done. unfold held_by. rewrite Hc.
  replace (locked (lk s) =? 0) with false by lia. simpl.
  split_and!.
  - destruct (decide (i = j)) as [|Hne]; [done|].
    specialize (Hn j Critical Hj ltac:(congruence)). done.
  - by apply bool_decide_true.
  - intros k Hk. apply bool_decide_eq_true in Hk. congruence.
Qed.

(** Two CPUs compete; CPU 1 wins the exchange and enters. *)
Definition contended : state :=
  State (Spinlock 1 (Some 1%nat)) [Spinning; Critical].

Lemma spinlock_mutual_exclusion_witness :
  rtc step (init 2) contended /\ pcs contended !! 1%nat = Some Critical /\
  held_by (lk contended) 1 = true.
Proof.
  assert (H : rtc step (init 2) contended).
  { eapply rtc_l; [apply (step_enter _ 0%nat); reflexivity|].
    eapply rtc_l; [apply (step_enter _ 1%nat); reflexivity|].
    eapply rtc_l; [apply (step_xchg_ok _ 1%nat); reflexivity|].
    eapply rtc_l; [apply (step_xchg_fail _ 0%nat); [reflexivity|discriminate]|].
    eapply rtc_l; [apply (step_set_cpu _ 1%nat); reflexivity|].
    apply rtc_refl. }
  split; [exact H|]. split; [reflexivity|].
  destruct (spinlock_mutual_exclusion 2 contended 1 1 H eq_refl eq_refl) as (_ & Hh & _).
  exact Hh.
Defined.

End Smp.

(** ** Properties *)

(** [pushcli] and [popcli] are matched: after a pair the
    interrupt flag and the nesting depth are what they were (so interrupts
    that were off stay off), nested pairs change nothing at all, and between
    the two interrupts are off. *)
Theorem pushcli_popcli_matched h i c :
  hw_ok h i c -> ncli c < 2 ^ 30 - 1 ->
  exists h1 h2 c2,
    pushcli h = Ok (tt, h1) /\ interruptible (eflags h1) = false /\
    popcli h1 = Ok (tt, h2) /\ eflags h2 = eflags h /\
    this_cpu h2 i c2 /\ ncli c2 = ncli c /\ (1 <= ncli c -> h2 = h).
Proof.
  intros Hok Hlt. pose proof (pushed_hw_ok _ _ _ Hok Hlt) as Hok'.
  exists (pushed i c h), (restored i c h).
  exists (if ncli c =? 0 then with_intena (Z.land (eflags h) FL_IF) c else c).
  split_and!.
  - by apply pushcli_ok.
  - apply eflags_off_not_interruptible.
  - rewrite <- popped_pushed by done. apply popcli_ok; [done|]. simpl. destruct Hok; lia.
  - unfold restored. by destruct (ncli c =? 0).
  - unfold restored. destruct Hok as [Ht _]. destruct (ncli c =? 0); [|done].
    by eapply this_cpu_set.
  - by destruct (ncli c =? 0).
  - apply restored_nested.
Qed.

(** A one-processor machine with interrupts on and no lock held. *)
Definition boot_hw : hw := Hw [Cpu 0 0 0 None] 0 FL_IF.

Lemma boot_hw_ok : hw_ok boot_hw 0 (Cpu 0 0 0 None).
Proof. split; [done|]. simpl. lia. Qed.

Lemma pushcli_popcli_matched_witness :
  exists h1 h2, pushcli boot_hw = Ok (tt, h1) /\ popcli h1 = Ok (tt, h2) /\
    eflags h2 = FL_IF.
Proof.
  destruct (pushcli_popcli_matched boot_hw 0 (Cpu 0 0 0 None) boot_hw_ok eq_refl)
    as (h1 & h2 & c2 & H1 & _ & H2 & H3 & _).
  exists h1, h2. auto.
Defined.

(** [acquire] of a free lock takes it for this CPU with
    interrupts off, and the matching [release] frees it and restores the
    interrupt flag and depth; [acquire] of a lock this CPU holds panics, of a
    lock another CPU holds spins; [release] of a lock this CPU does not hold
    panics. *)
Theorem acquire_release_outcomes h i c l :
  hw_ok h i c -> ncli c < 2 ^ 30 - 2 ->
  (locked l = 0 ->
     exists h1, acquire (h, l) = Ok (tt, (h1, Spinlock 1 (Some i))) /\
       interruptible (eflags h1) = false /\
       release (h1, Spinlock 1 (Some i)) = Ok (tt, (restored i c h, Spinlock 0 None))) /\
  (locked l <> 0 ->
     acquire (h, l) = if bool_decide (lcpu l = Some i) then Panic "acquire" else Spin) /\
  (held_by l i = false -> release (h, l) = Panic "release").
Proof.
  intros Hok Hlt. pose proof (pushed_hw_ok _ _ _ Hok ltac:(lia)) as Hok'.
  split_and!.
  - intros Hf. exists (pushed i c h). split_and!.
    + by eapply acquire_free_ok.
    + apply eflags_off_not_interruptible.
    + rewrite <- popped_pushed by done. apply release_held_ok; [done| |].
      * simpl. destruct Hok; lia.
      * unfold held_by. simpl. by apply bool_decide_true.
  - by eapply acquire_held_ok.
  - eapply release_not_held_ok; [done|lia].
Qed.

Lemma acquire_release_outcomes_witness :
  exists h1, acquire (boot_hw, Spinlock 0 None) = Ok (tt, (h1, Spinlock 1 (Some 0%nat))) /\
    release (h1, Spinlock 1 (Some 0%nat)) =
      Ok (tt, (restored 0 (Cpu 0 0 0 None) boot_hw, Spinlock 0 None)).
Proof.
  destruct (acquire_release_outcomes boot_hw 0 (Cpu 0 0 0 None) (Spinlock 0 None)
              boot_hw_ok eq_refl) as [H _].
  destruct (H eq_refl) as (h1 & H1 & _ & H2). exists h1. split; assumption.
Defined.
