(* ===== verification/Mmu.v ===== *)
(** * Address arithmetic

    The constants and macros of [param.h], [mmu.h] and [memlayout.h] that the
    other files use, on 32-bit addresses kept as [Z]. *)

From S2P Require Import Prelude.

Definition NPROC : nat := 64.
Definition KSTACKSIZE : Z := 4096.
Definition NOFILE : nat := 16.

Definition PGSIZE : Z := 4096.
Definition NPDENTRIES : Z := 1024.
Definition NPTENTRIES : Z := 1024.
Definition PTXSHIFT : Z := 12.
Definition PDXSHIFT : Z := 22.

Definition KERNBASE : Z := 0x80000000.
Definition EXTMEM : Z := 0x100000.
Definition PHYSTOP : Z := 0xE000000.
Definition DEVSPACE : Z := 0xFE000000.

Definition PTE_P : Z := 0x001.
Definition PTE_W : Z := 0x002.
Definition PTE_U : Z := 0x004.
Definition PTE_PS : Z := 0x080.

Definition PDX (va : Z) : Z := Z.land (Z.shiftr (u32 va) PDXSHIFT) 0x3FF.
Definition PTX (va : Z) : Z := Z.land (Z.shiftr (u32 va) PTXSHIFT) 0x3FF.
Definition PGADDR (d t o : Z) : Z :=
  u32 (Z.lor (Z.lor (Z.shiftl d PDXSHIFT) (Z.shiftl t PTXSHIFT)) o).

Definition PGROUNDUP (sz : Z) : Z := Z.land (u32 (sz + PGSIZE - 1)) (Z.lnot (PGSIZE - 1)).
Definition PGROUNDDOWN (a : Z) : Z := Z.land (u32 a) (Z.lnot (PGSIZE - 1)).

Definition PTE_ADDR (pte : Z) : Z := Z.land pte (Z.lnot 0xFFF).
Definition PTE_FLAGS (pte : Z) : Z := Z.land pte 0xFFF.

(** [V2P] and [P2V] are functions that panic outside their domain. *)
Definition V2P (a : Z) : result Z :=
  if a <? KERNBASE then Panic "V2P on address < KERNBASE" else Ok (u32 (a - KERNBASE)).

Definition P2V (a : Z) : result Z :=
  if KERNBASE <? a then Panic "P2V on address > KERNBASE" else Ok (u32 (a + KERNBASE)).

(** [lia] after unfolding the address constants. *)
Ltac mmu_lia :=
  unfold u32_range, i32_range, PGSIZE, KERNBASE, PHYSTOP, DEVSPACE, EXTMEM in *; lia.

(** The same with the defining equations of divisions and remainders. *)
Ltac mmu_mod :=
  unfold u32_range, i32_range, PGSIZE, KERNBASE, PHYSTOP, DEVSPACE, EXTMEM in *;
  Z.to_euclidean_division_equations; lia.

Lemma land_lnot_ones a n : 0 <= n -> Z.land a (Z.lnot (2 ^ n - 1)) = a / 2 ^ n * 2 ^ n.
Proof.
  intros Hn. replace (2 ^ n - 1) with (Z.ones n) by (rewrite Z.ones_equiv; lia).
  rewrite <- Z.ldiff_land, Z.ldiff_ones_r by done.
  rewrite Z.shiftl_mul_pow2, Z.shiftr_div_pow2 by done. done.
Qed.

Lemma PGROUNDDOWN_eq a : u32_range a -> PGROUNDDOWN a = a / PGSIZE * PGSIZE.
Proof.
  intros H. unfold PGROUNDDOWN. rewrite u32_small by done.
  apply (land_lnot_ones a 12). lia.
Qed.

Lemma PGROUNDUP_eq a :
  0 <= a < 2 ^ 32 - PGSIZE + 1 -> PGROUNDUP a = (a + PGSIZE - 1) / PGSIZE * PGSIZE.
Proof.
  intros H. unfold PGROUNDUP, PGSIZE in *.
  rewrite u32_small by (unfold u32_range; lia).
  apply (land_lnot_ones _ 12). lia.
Qed.

Lemma PGROUNDUP_bounds a :
  0 <= a < 2 ^ 32 - PGSIZE + 1 ->
  a <= PGROUNDUP a < a + PGSIZE /\ PGROUNDUP a mod PGSIZE = 0.
Proof.
  intros H. rewrite PGROUNDUP_eq by done. unfold PGSIZE in *.
  pose proof (Z.div_mod (a + 4096 - 1) 4096).
  pose proof (Z.mod_pos_bound (a + 4096 - 1) 4096).
  split; [lia|]. by rewrite Z.mod_mul.
Qed.

Lemma PTE_split pte : 0 <= pte -> Z.lor (PTE_ADDR pte) (PTE_FLAGS pte) = pte.
Proof.
  intros H. unfold PTE_ADDR, PTE_FLAGS. apply Z.bits_inj'. intros n Hn.
  rewrite Z.lor_spec, !Z.land_spec, Z.lnot_spec by done.
  by destruct (Z.testbit pte n), (Z.testbit 0xFFF n).
Qed.
