(* ===== verification/Kalloc.v ===== *)
(** * The physical page allocator

    Models [kalloc.c].  Memory is the map [pages] from the kernel address of a
    page to its 1024 words; the free list is the real one, threaded through
    the first word of each free page ([struct run]).  [kend] stands for the
    linker symbol [end].  Class [PageAlloc] is what the allocator promises to
    its clients; the instance at the end of the file discharges it. *)

From S2P Require Import Prelude Spinlock Mmu.

(** ** The interface

    [pa_rep k l]: in state [k] the free pages are [l], the next one to be
    handed out first.  [pa_hw] is the processor the operations run on: they take and
    release a lock, so the processor is only preserved up to [hw_sim]. *)

Definition cpu_sim (c c' : cpu) : Prop :=
  apicid c' = apicid c /\ ncli c' = ncli c /\ cproc c' = cproc c /\
  (0 < ncli c -> intena c' = intena c).

(** Equal but for the saved interrupt flag of CPUs at depth 0, which the next
    [pushcli] overwrites before anything reads it. *)
Definition hw_sim (h h' : hw) : Prop :=
  lapic_id h' = lapic_id h /\ eflags h' = eflags h /\ Forall2 cpu_sim (cpus h) (cpus h').

#[export] Instance cpu_sim_equiv : Equivalence cpu_sim.
Proof.
  split.
  - intros c. by split_and!.
  - intros c d (? & Hn & ? & Hi). rewrite <- Hn in Hi. split_and!; naive_solver.
  - intros c d e (? & Hn & ? & Hi) (? & Hn' & ? & Hi'). rewrite Hn in Hi'.
    split_and!; try congruence. intros. rewrite Hi', Hi; auto.
Qed.

#[export] Instance hw_sim_equiv : Equivalence hw_sim.
Proof.
  split.
  - intros h. by split_and!.
  - intros h k (? & ? & ?). split_and!; [done..|]. by symmetry.
  - intros h k l (? & ? & ?) (? & ? & ?). split_and!; [congruence..|]. by etransitivity.
Qed.

Class PageAlloc (K : Type) := {
  pa_alloc : M K Z;
  pa_free : Z -> M K unit;
  pa_rep : K -> list Z -> Prop;
  pa_hw : K -> hw;
  pa_valid : Z -> Prop
}.

Class PageAllocLaws (K : Type) `{PageAlloc K} : Prop := {
  pa_alloc_some (k : K) a l :
    pa_rep k (a :: l) ->
    exists k', pa_alloc k = Ok (a, k') /\ pa_rep k' l /\ hw_sim (pa_hw k) (pa_hw k');
  pa_alloc_none (k : K) :
    pa_rep k [] ->
    exists k', pa_alloc k = Ok (0, k') /\ pa_rep k' [] /\ hw_sim (pa_hw k) (pa_hw k');
  pa_free_ok (k : K) a l :
    pa_rep k l -> pa_valid a -> a ∉ l ->
    exists k', pa_free a k = Ok (tt, k') /\ pa_rep k' (a :: l) /\ hw_sim (pa_hw k) (pa_hw k');
  pa_rep_nodup (k : K) l : pa_rep k l -> NoDup l;
  pa_rep_valid (k : K) l : pa_rep k l -> Forall pa_valid l;
  pa_valid_nonnull a : pa_valid a -> a <> 0
}.

(** ** kalloc.c *)

Record kst := Kst {
  khw : hw;
  klock : spinlock;
  use_lock : Z;
  freelist : Z;                    (* 0 is the null pointer *)
  pages : gmap Z (list Z)
}.

(** The word [stosl] stores when [memset] is called with the byte [c]. *)
Definition memset_word (c : Z) : Z :=
  let c := Z.land c 0xFF in
  Z.lor (Z.lor (Z.lor (Z.shiftl c 24) (Z.shiftl c 16)) (Z.shiftl c 8)) c.

Definition PAGE_WORDS : nat := 1024.

Definition page_fill (c : Z) : list Z := replicate PAGE_WORDS (memset_word c).

(** [r->next] is the first word of the page. *)
Definition load_next (r : Z) : M kst Z := fun s =>
  match pages s !! r with
  | Some (w :: _) => Ok (w, s)
  | _ => Fault
  end.

Definition store_next (r n : Z) : M kst unit := fun s =>
  match pages s !! r with
  | Some (_ :: ws) => Ok (tt, Kst (khw s) (klock s) (use_lock s) (freelist s) (<[r := n :: ws]> (pages s)))
  | _ => Fault
  end.

Definition set_freelist (r : Z) : M kst unit :=
  modify (fun s => Kst (khw s) (klock s) (use_lock s) r (pages s)).

Definition set_page (a : Z) (ws : list Z) : M kst unit :=
  modify (fun s => Kst (khw s) (klock s) (use_lock s) (freelist s) (<[a := ws]> (pages s))).

Definition set_use_lock (u : Z) : M kst unit :=
  modify (fun s => Kst (khw s) (klock s) u (freelist s) (pages s)).

Definition on_lock {A} (c : M (hw * spinlock) A) : M kst A :=
  zoom (fun s => (khw s, klock s))
       (fun p s => Kst (fst p) (snd p) (use_lock s) (freelist s) (pages s)) c.

Section kalloc.

(** The linker symbol [end], the first address after the kernel image. *)
Variable kend : Z.

Definition kfree (v : Z) : M kst unit :=
  if negb (u32 v mod PGSIZE =? 0) || (v <? kend) then panic "kfree"
  else
    let* pa := (fun s => rbind (V2P v) (fun p => Ok (p, s))) in
    if PHYSTOP <=? pa then panic "kfree"
    else
      set_page v (page_fill 1) ;;;
      let* u := gets use_lock in
      when (negb (u =? 0)) (on_lock acquire) ;;;
      let* fl := gets freelist in
      store_next v fl ;;;
      set_freelist v ;;;
      let* u := gets use_lock in
      when (negb (u =? 0)) (on_lock release).

Definition kalloc : M kst Z :=
  let* u := gets use_lock in
  when (negb (u =? 0)) (on_lock acquire) ;;;
  let* r := gets freelist in
  (if negb (r =? 0) then let* n := load_next r in set_freelist n else ret tt) ;;;
  let* u := gets use_lock in
  when (negb (u =? 0)) (on_lock release) ;;;
  ret r.

(** [for(; p + PGSIZE <= vend; p += PGSIZE) kfree(p);] *)
Fixpoint freerange_loop (fuel : nat) (p vend : Z) : M kst unit :=
  match fuel with
  | O => nofuel
  | S n =>
      if u32 (p + PGSIZE) <=? vend
      then kfree p ;;; freerange_loop n (u32 (p + PGSIZE)) vend
      else ret tt
  end.

(** One iteration per page of the range and one more to leave the loop. *)
Definition freerange (vstart vend : Z) : M kst unit :=
  if vend <? vstart then panic "freerange"
  else freerange_loop (S (Z.to_nat ((vend - vstart) / PGSIZE))) (PGROUNDUP vstart) vend.

Definition kinit1 (vstart vend : Z) : M kst unit :=
  modify (fun s => Kst (khw s) (initlock (klock s)) (use_lock s) (freelist s) (pages s)) ;;;
  set_use_lock 0 ;;;
  freerange vstart vend.

Definition kinit2 (vstart vend : Z) : M kst unit :=
  freerange vstart vend ;;;
  set_use_lock 1.

(** ** The free list in memory *)

(** A page that [kfree] accepts. *)
Definition page_ok (v : Z) : Prop :=
  v mod PGSIZE = 0 /\ kend <= v /\ KERNBASE <= v < KERNBASE + PHYSTOP.

Definition free_page (n : Z) : list Z := n :: replicate (PAGE_WORDS - 1) (memset_word 1).

(** Following [next] from [r] visits the pages [l], each holding its link and
    otherwise the fill pattern of [kfree]. *)
Fixpoint free_chain (pg : gmap Z (list Z)) (r : Z) (l : list Z) : Prop :=
  match l with
  | [] => r = 0
  | a :: l' => r = a /\ exists n, pg !! a = Some (free_page n) /\ free_chain pg n l'
  end.

Record kmem_rep (s : kst) (l : list Z) : Prop := {
  kr_chain : free_chain (pages s) (freelist s) l;
  kr_nodup : NoDup l;
  kr_pages : Forall page_ok l;
  kr_lock : locked (klock s) = 0;
  kr_hw : exists i c, hw_ok (khw s) i c /\ ncli c < 2 ^ 30 - 2
}.

Lemma free_chain_insert pg r l a ws :
  free_chain pg r l -> a ∉ l -> free_chain (<[a := ws]> pg) r l.
Proof.
  revert r. induction l as [|b l IH]; intros r; simpl; [done|].
  intros (-> & n & Hb & Hc) Ha. apply not_elem_of_cons in Ha as [Hne Ha].
  split; [done|]. exists n. rewrite lookup_insert_ne by done. eauto.
Qed.

Lemma page_ok_pos v : page_ok v -> 0 < v < 2 ^ 32.
Proof. unfold page_ok, KERNBASE, PHYSTOP. lia. Qed.

End kalloc.

(** Taking and dropping the lock around a critical section on [kmem]. *)
Lemma restored_sim h i c : hw_ok h i c -> hw_sim h (restored i c h).
Proof.
  intros ([Hf Hl] & Hn & Hi). unfold restored.
  destruct (Z.eqb_spec (ncli c) 0) as [E|E]; [|reflexivity].
  split_and!; [done..|]. simpl.
  apply Forall2_same_length_lookup_2; [by rewrite length_insert|].
  intros j x y Hx Hy. apply list_lookup_insert_Some in Hy as [(<- & <- & _)|[Hne Hy]].
  - rewrite Hl in Hx. simplify_eq. split_and!; [done..|]. simpl. lia.
  - rewrite Hx in Hy. simplify_eq. reflexivity.
Qed.

Lemma hw_ok_sim h h' i c :
  hw_sim h h' -> hw_ok h i c -> exists c', hw_ok h' i c' /\ cpu_sim c c'.
Proof.
  intros (Hl & He & Hf) ([Hfind Hlk] & Hn & Hi).
  destruct (Forall2_lookup_l _ _ _ _ _ Hf Hlk) as (c' & Hc' & Hs).
  exists c'. split; [|done]. destruct Hs as (Ha & Hn' & Hp & Hint).
  split; [split; [|done]|].
  - rewrite Hl, <- Hfind. clear -Hf. generalize 0%nat.
    induction Hf as [|a b l k [Hab _] _ IH]; intros m; simpl; [done|].
    by rewrite Hab, IH.
  - rewrite Hn', He. auto.
Qed.

Lemma on_lock_Ok {A} (c : M (hw * spinlock) A) s a h l :
  c (khw s, klock s) = Ok (a, (h, l)) ->
  on_lock c s = Ok (a, Kst h l (use_lock s) (freelist s) (pages s)).
Proof. intros E. unfold on_lock, zoom. by rewrite E. Qed.

Lemma lock_section s i c :
  locked (klock s) = 0 -> hw_ok (khw s) i c -> ncli c < 2 ^ 30 - 2 ->
  exists h1 l1 h2 l2,
    when (negb (use_lock s =? 0)) (on_lock acquire) s =
      Ok (tt, Kst h1 l1 (use_lock s) (freelist s) (pages s)) /\
    (forall fl pg,
       when (negb (use_lock s =? 0)) (on_lock release) (Kst h1 l1 (use_lock s) fl pg) =
       Ok (tt, Kst h2 l2 (use_lock s) fl pg)) /\
    locked l2 = 0 /\ hw_sim (khw s) h2.
Proof.
  intros Hl Hok Hlt. destruct (Z.eqb_spec (use_lock s) 0) as [E|E].
  { exists (khw s), (klock s), (khw s), (klock s). simpl.
    split_and!; [by destruct s|done|done|reflexivity]. }
  exists (pushed i c (khw s)), (Spinlock 1 (Some i)), (restored i c (khw s)), (Spinlock 0 None).
  pose proof (pushed_hw_ok _ _ _ Hok ltac:(lia)) as Hok'.
  split_and!.
  - unfold when; simpl. apply on_lock_Ok. by eapply acquire_free_ok.
  - intros fl pg. unfold when; simpl. rewrite (on_lock_Ok _ _ tt (restored i c (khw s)) (Spinlock 0 None)); [done|]. simpl.
    rewrite <- popped_pushed by done. apply release_held_ok; [done| |].
    + simpl. destruct Hok; lia.
    + unfold held_by. simpl. by apply bool_decide_true.
  - done.
  - by apply restored_sim.
Qed.

Lemma kmem_rep_sim kend s l h lk' fl pg l' :
  kmem_rep kend s l -> hw_sim (khw s) h -> locked lk' = 0 ->
  free_chain pg fl l' -> NoDup l' -> Forall (page_ok kend) l' ->
  kmem_rep kend (Kst h lk' (use_lock s) fl pg) l'.
Proof.
  intros [_ _ _ _ (i & c & Hok & Hlt)] Hsim Hl Hc Hn Hp. split; try done. simpl.
  destruct (hw_ok_sim _ _ _ _ Hsim Hok) as (c' & Hok' & _ & Hn' & _).
  exists i, c'. split; [done|]. lia.
Qed.

Section kalloc_proofs.

Context (kend : Z).

Lemma kalloc_some_ok s a l :
  kmem_rep kend s (a :: l) ->
  exists s', kalloc s = Ok (a, s') /\ kmem_rep kend s' l /\ hw_sim (khw s) (khw s') /\
    pages s' = pages s /\ exists n, pages s !! a = Some (free_page n).
Proof.
  intros Hrep. pose proof Hrep as [Hc Hn Hp Hl (i & c & Hok & Hlt)].
  destruct (lock_section s i c Hl Hok Hlt) as (h1 & l1 & h2 & l2 & Hacq & Hrel & Hl2 & Hsim).
  simpl in Hc. destruct Hc as (Hfl & n & Hpg & Hc).
  assert (Ha : a <> 0).
  { apply Forall_cons in Hp as [Hp _]. apply page_ok_pos in Hp. lia. }
  exists (Kst h2 l2 (use_lock s) n (pages s)). split_and!; [|..|done|by exists n].
  - unfold kalloc. step. rewrite (bind_Ok _ _ _ _ _ Hacq). step.
    simpl. rewrite Hfl. replace (a =? 0) with false by lia. simpl.
    erewrite bind_Ok.
    2: { erewrite bind_Ok; [reflexivity|]. unfold load_next; simpl. by rewrite Hpg. }
    step. simpl. by rewrite (bind_Ok _ _ _ _ _ (Hrel n (pages s))).
  - eapply kmem_rep_sim; [done|done|done|done| |].
    + by apply NoDup_cons in Hn as [_ Hn].
    + by apply Forall_cons in Hp as [_ Hp].
  - done.
Qed.

Lemma kalloc_none_ok s :
  kmem_rep kend s [] ->
  exists s', kalloc s = Ok (0, s') /\ kmem_rep kend s' [] /\ hw_sim (khw s) (khw s') /\ pages s' = pages s.
Proof.
  intros Hrep. pose proof Hrep as [Hc Hn Hp Hl (i & c & Hok & Hlt)].
  destruct (lock_section s i c Hl Hok Hlt) as (h1 & l1 & h2 & l2 & Hacq & Hrel & Hl2 & Hsim).
  simpl in Hc. exists (Kst h2 l2 (use_lock s) 0 (pages s)). split_and!; [|by eapply kmem_rep_sim|done|done].
  unfold kalloc. step. rewrite (bind_Ok _ _ _ _ _ Hacq). step. simpl.
  rewrite Hc. simpl. step. step. simpl. by rewrite (bind_Ok _ _ _ _ _ (Hrel 0 (pages s))).
Qed.

Lemma kfree_frame s v l :
  kmem_rep kend s l -> page_ok kend v -> v ∉ l ->
  exists s', kfree kend v s = Ok (tt, s') /\ kmem_rep kend s' (v :: l) /\
    hw_sim (khw s) (khw s') /\ forall a, a <> v -> pages s' !! a = pages s !! a.
Proof.
  intros Hrep Hv Hnot. pose proof Hrep as [Hc Hn Hp Hl (i & c & Hok & Hlt)].
  set (s1 := Kst (khw s) (klock s) (use_lock s) (freelist s) (<[v := page_fill 1]> (pages s))).
  destruct (lock_section s1 i c Hl Hok Hlt) as (h1 & l1 & h2 & l2 & Hacq & Hrel & Hl2 & Hsim).
  set (pg2 := <[v := free_page (freelist s)]> (<[v := page_fill 1]> (pages s))).
  exists (Kst h2 l2 (use_lock s) v pg2). split_and!; [| |done|].
  - pose proof (page_ok_pos _ _ Hv) as Hpos. destruct Hv as (Hal & Hend & Hkb & Hst).
    unfold kfree. rewrite u32_small by (unfold u32_range; lia).
    rewrite Hal. replace (v <? kend) with false by lia. simpl.
    unfold V2P. replace (v <? KERNBASE) with false by lia.
    erewrite bind_Ok by reflexivity.
    rewrite u32_small by (unfold u32_range, KERNBASE, PHYSTOP in *; lia).
    replace (PHYSTOP <=? v - KERNBASE) with false by lia.
    erewrite bind_Ok by reflexivity. fold s1. step.
    change (use_lock s) with (use_lock s1).
    rewrite (bind_Ok _ _ _ _ _ Hacq). step. simpl.
    erewrite bind_Ok.
    2: { unfold store_next; simpl. rewrite lookup_insert_eq. reflexivity. }
    step. step. simpl. apply Hrel.
  - eapply kmem_rep_sim; [done|done|done| |by apply NoDup_cons|by apply Forall_cons].
    simpl. split; [done|]. exists (freelist s). split; [apply lookup_insert_eq|].
    by repeat apply free_chain_insert.
  - intros a Ha. unfold pg2. simpl. by rewrite !lookup_insert_ne.
Qed.

Lemma kfree_ok s v l :
  kmem_rep kend s l -> page_ok kend v -> v ∉ l ->
  exists s', kfree kend v s = Ok (tt, s') /\ kmem_rep kend s' (v :: l) /\
    hw_sim (khw s) (khw s').
Proof. intros Hrep Hv Hn. destruct (kfree_frame s v l Hrep Hv Hn) as (s' & ? & ? & ? & _). eauto. Qed.

Lemma kfree_panic s v :
  (u32 v mod PGSIZE <> 0 \/ v < kend \/ KERNBASE + PHYSTOP <= v) -> u32_range v ->
  kfree kend v s = Panic "kfree" \/ v < KERNBASE /\ exists m, kfree kend v s = Panic m.
Proof.
  intros Hbad Hr. unfold kfree.
  destruct ((negb (u32 v mod PGSIZE =? 0)) || (v <? kend)) eqn:E; [by left|].
  unfold V2P, bind. destruct (Z.ltb_spec v KERNBASE) as [Hlt|Hge]; simpl.
  { right. split; [done|]. by eexists. }
  left. rewrite u32_small by (unfold u32_range, KERNBASE in *; lia).
  replace (PHYSTOP <=? v - KERNBASE) with true; [done|]. lia.
Qed.

#[export] Instance kalloc_page_alloc : PageAlloc kst := {|
  pa_alloc := kalloc;
  pa_free := kfree kend;
  pa_rep := kmem_rep kend;
  pa_hw := khw;
  pa_valid := page_ok kend
|}.

#[export] Instance kalloc_page_alloc_laws : PageAllocLaws kst.
Proof.
  split; simpl.
  - intros k a l H. destruct (kalloc_some_ok _ _ _ H) as (k' & ? & ? & ? & _). eauto.
  - intros k H. destruct (kalloc_none_ok _ H) as (k' & ? & ? & ? & _). eauto.
  - intros. by apply kfree_ok.
  - by intros k l [].
  - by intros k l [].
  - intros a Ha. apply page_ok_pos in Ha. lia.
Qed.

(** ** Filling the free list *)

(** The [n] pages from [p] on, in address order. *)
Fixpoint page_range (p : Z) (n : nat) : list Z :=
  match n with O => [] | S n' => p :: page_range (p + PGSIZE) n' end.

Lemma page_range_length p n : length (page_range p n) = n.
Proof. revert p. induction n as [|n IH]; intros p; simpl; auto. Qed.

Lemma page_range_snoc p n :
  page_range p (S n) = page_range p n ++ [p + PGSIZE * Z.of_nat n].
Proof.
  revert p. induction n as [|n IH]; intros p; [simpl; do 2 f_equal; lia|].
  change (page_range p (S (S n))) with (p :: page_range (p + PGSIZE) (S n)).
  rewrite IH. simpl. do 3 f_equal. lia.
Qed.

Lemma page_range_ge p n q : q ∈ page_range p n -> p <= q.
Proof.
  revert p. induction n as [|n IH]; intros p; simpl.
  - intros H. by apply elem_of_nil in H.
  - intros [-> | H]%elem_of_cons; [lia|]. apply IH in H. unfold PGSIZE in *. lia.
Qed.

Lemma page_range_elem p n q :
  q ∈ page_range p n <->
  (q - p) mod PGSIZE = 0 /\ p <= q /\ q < p + PGSIZE * Z.of_nat n.
Proof.
  revert p. induction n as [|n IH]; intros p; simpl page_range.
  - rewrite elem_of_nil. split; [done|]. lia.
  - rewrite elem_of_cons, IH. unfold PGSIZE. split.
    + intros [-> | (? & ? & ?)]; [rewrite Z.sub_diag; split_and!; [done|lia..]|].
      split_and!; mmu_mod.
    + intros (? & ? & ?). destruct (decide (q = p)) as [|]; [by left|right].
      split_and!; mmu_mod.
Qed.

Lemma freerange_loop_ok n fuel p vend s l :
  kmem_rep kend s l -> (n < fuel)%nat ->
  p + PGSIZE * Z.of_nat n <= vend < p + PGSIZE * (Z.of_nat n + 1) ->
  p mod PGSIZE = 0 -> kend <= p -> KERNBASE <= p -> vend <= KERNBASE + PHYSTOP ->
  (forall q, q ∈ l -> q < p \/ vend <= q) ->
  exists s', freerange_loop kend fuel p vend s = Ok (tt, s') /\
    kmem_rep kend s' (rev (page_range p n) ++ l) /\ hw_sim (khw s) (khw s').
Proof.
  revert fuel p s l. induction n as [|n IH]; intros [|fuel] p s l Hrep Hf Hn Hal Hend Hkb Htop Hl;
    try lia; simpl.
  - exists s. rewrite u32_small by mmu_lia.
    replace (p + PGSIZE <=? vend) with false by mmu_lia. split_and!; [done..|reflexivity].
  - rewrite u32_small by mmu_lia.
    replace (p + PGSIZE <=? vend) with true by mmu_lia.
    destruct (kfree_ok s p l Hrep) as (s1 & H1 & Hrep1 & Hsim1).
    { unfold page_ok. split; [done|mmu_lia]. }
    { intros Hin. apply Hl in Hin. mmu_lia. }
    destruct (IH fuel (p + PGSIZE) s1 (p :: l) Hrep1) as (s2 & H2 & Hrep2 & Hsim2);
      [lia|mmu_lia| |mmu_lia|mmu_lia|mmu_lia| |].
    { rewrite Z.add_mod, Hal by (unfold PGSIZE; lia). done. }
    { intros q [-> | Hq]%elem_of_cons; [mmu_lia|].
      apply Hl in Hq. mmu_lia. }
    exists s2. rewrite (bind_Ok _ _ _ _ _ H1). split_and!; [done| |by etransitivity].
    by rewrite <- app_assoc.
Qed.

Lemma freerange_ok vstart vend s l :
  kmem_rep kend s l -> kend <= vstart -> KERNBASE <= vstart <= vend ->
  vend <= KERNBASE + PHYSTOP -> PGROUNDUP vstart <= vend ->
  (forall q, q ∈ l -> q < vstart \/ vend <= q) ->
  exists s', freerange kend vstart vend s = Ok (tt, s') /\ hw_sim (khw s) (khw s') /\
    kmem_rep kend s'
      (rev (page_range (PGROUNDUP vstart)
                       (Z.to_nat ((vend - PGROUNDUP vstart) / PGSIZE))) ++ l).
Proof.
  intros Hrep Hend Hkb Htop Hru Hl.
  destruct (PGROUNDUP_bounds vstart) as [Hb Hal];
    [unfold KERNBASE, PHYSTOP, PGSIZE in *; lia|].
  set (p := PGROUNDUP vstart) in *. set (n := Z.to_nat ((vend - p) / PGSIZE)).
  assert (Hn : Z.of_nat n = (vend - p) / PGSIZE).
  { subst n. rewrite Z2Nat.id; [done|]. apply Z.div_pos; unfold PGSIZE; lia. }
  pose proof (Z.div_mod (vend - p) PGSIZE ltac:(done)).
  pose proof (Z.mod_pos_bound (vend - p) PGSIZE ltac:(done)).
  destruct (freerange_loop_ok n (S (Z.to_nat ((vend - vstart) / PGSIZE))) p vend s l Hrep)
    as (s' & Hs & Hrep' & Hsim); try lia.
  - assert ((vend - p) / PGSIZE <= (vend - vstart) / PGSIZE) by (apply Z.div_le_mono; [done|lia]).
    lia.
  - intros q Hq. apply Hl in Hq as [?|?]; [left|right]; lia.
  - exists s'. unfold freerange. replace (vend <? vstart) with false by lia. eauto.
Qed.

Lemma kinit1_ok vstart vend h lk u pg i c :
  hw_ok h i c -> ncli c < 2 ^ 30 - 2 -> kend <= vstart -> KERNBASE <= vstart <= vend ->
  vend <= KERNBASE + PHYSTOP -> PGROUNDUP vstart <= vend ->
  exists s', kinit1 kend vstart vend (Kst h lk u 0 pg) = Ok (tt, s') /\ hw_sim h (khw s') /\
    kmem_rep kend s'
      (rev (page_range (PGROUNDUP vstart) (Z.to_nat ((vend - PGROUNDUP vstart) / PGSIZE)))).
Proof.
  intros Hok Hlt Hend Hkb Htop Hru. unfold kinit1. step. simpl. step. simpl.
  destruct (freerange_ok vstart vend (Kst h (initlock lk) 0 0 pg) []) as (s' & H & Hsim & Hrep);
    try done.
  - split; simpl; [done|apply NoDup_nil_2|done|done|]. eauto.
  - intros q Hq. by apply elem_of_nil in Hq.
  - exists s'. rewrite app_nil_r in Hrep. eauto.
Qed.

End kalloc_proofs.

(** ** Properties *)

Section properties.

Context (kend : Z).

(** C6: on the free list in memory the allocator implements a stack of
    pages.  [kalloc] pops the first page, which is not null, lies in the
    physical range and holds the fill pattern behind its link; it answers null
    exactly when no page is left; [kfree] of an allocated page pushes it, and
    the next [kalloc] returns it.  Locks and interrupt state end as they
    began. *)
Theorem kmem_refines_free_list s l :
  kmem_rep kend s l ->
  (match l with
   | [] => exists s', kalloc s = Ok (0, s') /\ kmem_rep kend s' []
   | a :: l' => exists s', kalloc s = Ok (a, s') /\ kmem_rep kend s' l' /\
       hw_sim (khw s) (khw s') /\ a <> 0 /\ a ∉ l' /\
       exists n, pages s' !! a = Some (free_page n)
   end) /\
  (forall v, page_ok kend v -> v ∉ l ->
     exists s1 s2, kfree kend v s = Ok (tt, s1) /\ kmem_rep kend s1 (v :: l) /\
       hw_sim (khw s) (khw s1) /\ kalloc s1 = Ok (v, s2) /\ kmem_rep kend s2 l).
Proof.
  intros Hrep. split.
  - destruct l as [|a l'].
    + destruct (kalloc_none_ok kend s Hrep) as (s' & ? & ? & _). eauto.
    + destruct (kalloc_some_ok kend s a l' Hrep) as (s' & ? & Hrep' & ? & Hpg & n & Hn).
      destruct Hrep as [_ Hnd Hok _ _]. apply NoDup_cons in Hnd as [Hnd _].
      apply Forall_cons in Hok as [Hok _]. apply page_ok_pos in Hok.
      exists s'. rewrite Hpg. split_and!; try done; [lia|]. eauto.
  - intros v Hv Hn. destruct (kfree_ok kend s v l Hrep Hv Hn) as (s1 & H1 & Hrep1 & Hs).
    destruct (kalloc_some_ok kend s1 v l Hrep1) as (s2 & H2 & Hrep2 & _). eauto 10.
Qed.

(** [kfree] stops the machine exactly on the pointers that are
    not page aligned, lie below [end] or lie beyond physical memory; every
    other pointer to an allocated page is accepted. *)
Theorem kfree_rejects_bad_pages s l v :
  kmem_rep kend s l -> v ∉ l -> u32_range v -> KERNBASE <= kend ->
  kfree kend v s = Panic "kfree" <->
  (v mod PGSIZE <> 0 \/ v < kend \/ KERNBASE + PHYSTOP <= v).
Proof.
  intros Hrep Hnot Hv Hkb. split; intros Hp.
  - destruct (decide (page_ok kend v)) as [Hok|Hbad]; [|unfold page_ok in Hbad; lia].
    destruct (kfree_ok kend s v l Hrep Hok Hnot) as (s' & H & _). congruence.
  - destruct (kfree_panic kend s v) as [H|[Hlt [m Hm]]]; [by rewrite u32_small|done|done|].
    rewrite Hm. unfold kfree in Hm. replace (v <? kend) with true in Hm by lia.
    rewrite orb_true_r in Hm. by inversion Hm.
Qed.

(** The two-phase initialisation hands the allocator exactly the
    whole pages of the two ranges: [kinit1] on [vstart, vmid) at boot, then
    [kinit2] on [vmid, vend), which also turns locking on. *)
Theorem kinit_collects_all_pages vstart vmid vend h lk u pg i c :
  hw_ok h i c -> ncli c < 2 ^ 30 - 2 -> kend <= vstart ->
  KERNBASE <= vstart <= vmid -> vmid mod PGSIZE = 0 -> vmid <= vend <= KERNBASE + PHYSTOP ->
  exists s1 s2 l,
    kinit1 kend vstart vmid (Kst h lk u 0 pg) = Ok (tt, s1) /\
    kinit2 kend vmid vend s1 = Ok (tt, s2) /\ use_lock s2 = 1 /\ kmem_rep kend s2 l /\
    (forall q, q ∈ l <-> q mod PGSIZE = 0 /\ vstart <= q /\ q + PGSIZE <= vend).
Proof.
  intros Hok Hlt Hend Hkb Hal Htop.
  destruct (PGROUNDUP_bounds vstart) as [Hb Hbal]; [mmu_lia|].
  assert (PGROUNDUP vstart <= vmid) by mmu_mod.
  destruct (kinit1_ok kend vstart vmid h lk u pg i c) as (s1 & H1 & _ & Hrep1); try done; [mmu_lia..|].
  assert (Hru : PGROUNDUP vmid = vmid) by (rewrite PGROUNDUP_eq by mmu_lia; mmu_mod).
  set (l1 := rev _) in Hrep1.
  assert (Hl1 : forall q, q ∈ l1 <-> q mod PGSIZE = 0 /\ vstart <= q /\ q + PGSIZE <= vmid).
  { intros q. unfold l1. rewrite list_elem_of_In, <- in_rev, <- list_elem_of_In, page_range_elem.
    rewrite Z2Nat.id by mmu_mod. mmu_mod. }
  destruct (freerange_ok kend vmid vend s1 l1 Hrep1) as (s2 & H2 & _ & Hrep2);
    [mmu_lia..| |]; [intros q Hq%Hl1; mmu_lia|].
  rewrite Hru in Hrep2. set (l2 := rev _) in Hrep2.
  exists s1, (Kst (khw s2) (klock s2) 1 (freelist s2) (pages s2)), (l2 ++ l1).
  split_and!; [done| |done|by destruct Hrep2; split|].
  - unfold kinit2. by rewrite (bind_Ok _ _ _ _ _ H2).
  - intros q. rewrite elem_of_app, Hl1. unfold l2.
    rewrite list_elem_of_In, <- in_rev, <- list_elem_of_In, page_range_elem.
    rewrite Z2Nat.id by mmu_mod. mmu_mod.
Qed.

End properties.

(** ** Witnesses *)

(** A machine whose kernel image ends at [demo_end], with six free pages. *)
Definition demo_end : Z := KERNBASE + EXTMEM + 0x8000.

Definition demo_k0 : kst := Kst boot_hw (Spinlock 0 None) 0 0 ∅.

Definition demo_k : kst :=
  match kinit1 demo_end demo_end (demo_end + 6 * PGSIZE) demo_k0 with
  | Ok (_, s) => s
  | _ => demo_k0
  end.

Definition demo_pages (n : nat) : list Z := rev (page_range demo_end n).

Lemma demo_pages_length n : length (demo_pages n) = n.
Proof. unfold demo_pages. by rewrite length_rev, page_range_length. Qed.

Lemma demo_pages_S n : demo_pages (S n) = (demo_end + PGSIZE * Z.of_nat n) :: demo_pages n.
Proof. unfold demo_pages. by rewrite page_range_snoc, rev_app_distr. Qed.

Lemma demo_k_rep : kmem_rep demo_end demo_k (demo_pages 6).
Proof.
  destruct (kinit1_ok demo_end demo_end (demo_end + 6 * PGSIZE) boot_hw (Spinlock 0 None) 0 ∅
              0 (Cpu 0 0 0 None) boot_hw_ok) as (s' & H & _ & Hrep);
    [vm_compute; intuition discriminate..|].
  unfold demo_k, demo_k0. rewrite H. exact Hrep.
Qed.

Lemma kmem_refines_free_list_witness :
  exists s', kalloc demo_k = Ok (demo_end + 5 * PGSIZE, s') /\
    kmem_rep demo_end s' (demo_pages 5).
Proof.
  destruct (kmem_refines_free_list demo_end demo_k (demo_pages 6) demo_k_rep) as [H _].
  destruct H as (s' & H1 & H2 & _). exists s'. split; [exact H1|exact H2].
Defined.

Lemma kfree_rejects_bad_pages_witness :
  kfree demo_end (demo_end + 8) demo_k = Panic "kfree".
Proof.
  apply (kfree_rejects_bad_pages demo_end demo_k (demo_pages 6) (demo_end + 8) demo_k_rep).
  - apply (bool_decide_unpack _). vm_compute. done.
  - vm_compute. split; [discriminate|reflexivity].
  - vm_compute. discriminate.
  - left. vm_compute. discriminate.
Defined.

Lemma kinit_collects_all_pages_witness :
  exists s1 s2 l,
    kinit1 demo_end (demo_end + 5) (demo_end + 2 * PGSIZE) demo_k0 = Ok (tt, s1) /\
    kinit2 demo_end (demo_end + 2 * PGSIZE) (demo_end + 4 * PGSIZE) s1 = Ok (tt, s2) /\
    kmem_rep demo_end s2 l.
Proof.
  destruct (kinit_collects_all_pages demo_end (demo_end + 5) (demo_end + 2 * PGSIZE)
              (demo_end + 4 * PGSIZE) boot_hw (Spinlock 0 None) 0 ∅ 0 (Cpu 0 0 0 None) boot_hw_ok)
    as (s1 & s2 & l & H1 & H2 & _ & H3 & _); [vm_compute; intuition discriminate..|].
  exists s1, s2, l. auto.
Defined.
