(* ===== verification/Console.v ===== *)
(** * The console

    Models [console.c]: formatted output ([printint], [cprintf]) and the line
    editor between the keyboard interrupt and [read] ([consoleintr],
    [consoleread], [consolewrite]), with the text screen and the serial line
    they write to ([consputc], [cgaputc]).  Characters are their codes; a C
    string is the list of its codes without the final 0.  The cursor registers
    of the screen are a number, what the serial port is sent is a list. *)

From S2P Require Import Prelude.

(** Codes of a string literal, and character constants. *)
Definition codes (s : string) : list Z :=
  map (fun a => Z.of_N (Ascii.N_of_ascii a)) (String.list_ascii_of_string s).

Definition NL : Z := 10.
Definition CR : Z := 13.
Definition DEL : Z := 0x7f.
Definition BACKSPACE : Z := 0x100.

(** [#define C(x) ((x)-'@')] *)
Definition ctrl (x : Z) : Z := x - 64.

Definition CTRL_P : Z := ctrl 80.
Definition CTRL_U : Z := ctrl 85.
Definition CTRL_H : Z := ctrl 72.
Definition CTRL_D : Z := ctrl 68.

(** ** Formatted output *)

Definition digit_chars : list Z := codes "0123456789abcdef".

(** Size of the local array [buf] of [printint]. *)
Definition PRINTBUF : nat := 16.

(** [do { buf[i++] = digits[x % base]; } while ((x /= base) != 0);].
    Writing past the array or reading past the digit table is a fault. *)
Fixpoint printint_loop (fuel : nat) (x base : Z) (buf : list Z) : result (list Z) :=
  match fuel with
  | O => NoFuel
  | S n =>
      match digit_chars !! Z.to_nat (x mod base) with
      | None => Fault
      | Some d =>
          if decide (PRINTBUF <= length buf)%nat then Fault
          else
            let buf := buf ++ [d] in
            let x := x / base in
            if x =? 0 then Ok buf else printint_loop n x base buf
      end
  end.

(** The characters [printint] sends to [consputc], first one first.  A 32-bit
    number has at most 32 digits in any base, hence the fuel. *)
Definition printint (xx base : Z) (sign : bool) : result (list Z) :=
  let neg := sign && (xx <? 0) in
  let x := if neg then u32 (- xx) else u32 xx in
  let? buf := printint_loop 32 x base [] in
  if neg then
    if decide (PRINTBUF <= length buf)%nat then Fault else Ok (rev (buf ++ [45]))
  else Ok (rev buf).

(** A variadic argument: an int, or a pointer to a string, possibly null. *)
Inductive carg := AInt (z : Z) | AStr (s : option (list Z)).

(** The loop of [cprintf].  Reading an argument that was not passed, or an
    argument of the other kind, has no defined meaning. *)
Fixpoint cprintf_loop (fmt : list Z) (args : list carg) : result (list Z) :=
  match fmt with
  | [] => Ok []
  | c :: fmt' =>
      if negb (c =? 37) then
        let? out := cprintf_loop fmt' args in Ok (c :: out)
      else
        match fmt' with
        | [] => Ok []
        | c :: fmt' =>
            if c =? 100 then                       (* %d *)
              match args with
              | AInt z :: args =>
                  let? p := printint (i32 z) 10 true in
                  let? out := cprintf_loop fmt' args in Ok (p ++ out)
              | _ => Fault
              end
            else if (c =? 120) || (c =? 112) then  (* %x %p *)
              match args with
              | AInt z :: args =>
                  let? p := printint (i32 z) 16 false in
                  let? out := cprintf_loop fmt' args in Ok (p ++ out)
              | _ => Fault
              end
            else if c =? 115 then                  (* %s *)
              match args with
              | AStr s :: args =>
                  let s := match s with Some s => s | None => codes "(null)" end in
                  let? out := cprintf_loop fmt' args in Ok (s ++ out)
              | _ => Fault
              end
            else if c =? 37 then
              let? out := cprintf_loop fmt' args in Ok (37 :: out)
            else
              let? out := cprintf_loop fmt' args in Ok (37 :: c :: out)
        end
  end.

(** [fmt] is [None] for a null pointer. *)
Definition cprintf (fmt : option (list Z)) (args : list carg) : result (list Z) :=
  match fmt with
  | None => Panic "null fmt"
  | Some fmt => cprintf_loop fmt args
  end.

Example cprintf_example :
  cprintf (Some (codes "%d|%x %s%%")) [AInt (-42); AInt 255; AStr None] =
  Ok (codes "-42|ff (null)%").
Proof. reflexivity. Qed.

(** ** Line input *)

Definition INPUT_BUF : Z := 128.

Record input := Input {
  ibuf : list Z;
  ir : Z;    (* read index *)
  iw : Z;    (* write index *)
  ie : Z     (* edit index *)
}.

(** State of the console: the input ring, what was sent to [uartputc], the
    screen memory [crt] with the cursor position of the controller, [panicked],
    and how many times [wakeup(&input.r)] ran. *)
Record cstate := Cstate {
  inp : input;
  uart : list Z;
  crt : list Z;
  cursor : Z;
  panicked : bool;
  wakes : nat
}.

Definition set_inp (i : input) (s : cstate) : cstate := Cstate i (uart s) (crt s) (cursor s) (panicked s) (wakes s).
Definition set_screen (t : list Z) (pos : Z) (s : cstate) : cstate := Cstate (inp s) (uart s) t pos (panicked s) (wakes s).

Definition ring_get (b : list Z) (i : Z) : Z := nth (Z.to_nat (i mod INPUT_BUF)) b 0.

Definition ring_set (b : list Z) (i v : Z) : list Z := <[Z.to_nat (i mod INPUT_BUF) := v]> b.

Definition uartputc (c : Z) (s : cstate) : cstate :=
  Cstate (inp s) (uart s ++ [c]) (crt s) (cursor s) (panicked s) (wakes s).

(** [crt[pos] = v] *)
Definition crt_put (t : list Z) (pos v : Z) : result (list Z) :=
  if decide (0 <= pos < Z.of_nat (length t)) then Ok (<[Z.to_nat pos := v]> t) else Fault.

(** The [memmove] and the [memset] that scroll the screen up, the cursor at
    [pos] afterwards. *)
Definition scroll (t : list Z) (pos : Z) : list Z :=
  let t := take (23 * 80) (drop 80 t) ++ drop (23 * 80) t in
  take (Z.to_nat pos) t ++ replicate (Z.to_nat (24 * 80 - pos)) 0 ++ drop (24 * 80) t.

Definition cgaputc (c : Z) (s : cstate) : result cstate :=
  let pos := cursor s in
  let? (t, pos) :=
    if c =? NL then Ok (crt s, pos + (80 - pos mod 80))
    else if c =? BACKSPACE then Ok (crt s, if 0 <? pos then pos - 1 else pos)
    else let? t := crt_put (crt s) pos (Z.lor (Z.land c 0xff) 0x0700) in Ok (t, pos + 1) in
  if (pos <? 0) || (25 * 80 <? pos) then Panic "pos under/overflow"
  else
    let (t, pos) := if 24 <=? pos / 80 then (scroll t (pos - 80), pos - 80) else (t, pos) in
    let? t := crt_put t pos (Z.lor 32 0x0700) in
    Ok (set_screen t (pos mod 2 ^ 16) s).

Definition consputc (c : Z) (s : cstate) : result cstate :=
  if panicked s then Spin
  else
    cgaputc c
      (if c =? BACKSPACE then uartputc 8 (uartputc 32 (uartputc 8 s)) else uartputc c s).

Definition set_e (e : Z) (s : cstate) : cstate := set_inp (Input (ibuf (inp s)) (ir (inp s)) (iw (inp s)) e) s.

(** [while(input.e != input.w && input.buf[(input.e-1) % INPUT_BUF] != '\n')] *)
Fixpoint kill_line (fuel : nat) (s : cstate) : result cstate :=
  match fuel with
  | O => NoFuel
  | S n =>
      let i := inp s in
      if negb (ie i =? iw i) && negb (ring_get (ibuf i) (u32 (ie i - 1)) =? NL)
      then let? s := consputc BACKSPACE (set_e (u32 (ie i - 1)) s) in kill_line n s
      else Ok s
  end.

(** [input.w = input.e; wakeup(&input.r);] *)
Definition commit_line (s : cstate) : cstate :=
  let i := inp s in Cstate (Input (ibuf i) (ir i) (ie i) (ie i)) (uart s) (crt s) (cursor s) (panicked s) (S (wakes s)).

(** One iteration of [consoleintr]'s loop: the character [c >= 0] just read.
    The boolean is [doprocdump]. *)
Definition consoleintr_char (c : Z) (doprocdump : bool) (s : cstate) : result (bool * cstate) :=
  let i := inp s in
  if c =? CTRL_P then Ok (true, s)
  else if c =? CTRL_U then
    let? s := kill_line (S (Z.to_nat INPUT_BUF)) s in Ok (doprocdump, s)
  else if (c =? CTRL_H) || (c =? DEL) then
    if negb (ie i =? iw i)
    then let? s := consputc BACKSPACE (set_e (u32 (ie i - 1)) s) in Ok (doprocdump, s)
    else Ok (doprocdump, s)
  else if negb (c =? 0) && (u32 (ie i - ir i) <? INPUT_BUF) then
    let c := if c =? CR then NL else c in
    let e := u32 (ie i + 1) in
    let? s1 := consputc c (set_inp (Input (ring_set (ibuf i) (ie i) (u8 c)) (ir i) (iw i) e) s) in
    if (c =? NL) || (c =? CTRL_D) || (e =? u32 (ir i + INPUT_BUF))
    then Ok (doprocdump, commit_line s1)
    else Ok (doprocdump, s1)
  else Ok (doprocdump, s).

(** [cs] is what [getc] answers before its first negative answer. *)
Fixpoint consoleintr (cs : list Z) (doprocdump : bool) (s : cstate) : result (bool * cstate) :=
  match cs with
  | [] => Ok (doprocdump, s)
  | c :: cs' =>
      let? (d, s') := consoleintr_char c doprocdump s in consoleintr cs' d s'
  end.

(** [consoleread] up to where it sleeps.  [CDone dst n]: it returned
    [target - n] with the bytes [dst] written.  [CKilled]: it returned -1.
    [CSleep dst n]: it sleeps in the inner loop with [n] bytes still wanted
    and is resumed there when [wakeup(&input.r)] runs. *)
Inductive cread := CDone (dst : list Z) (n : Z) | CKilled | CSleep (dst : list Z) (n : Z).

Fixpoint consoleread_loop (fuel : nat) (killed : bool) (dst : list Z) (n target : Z)
    (i : input) : result (cread * input) :=
  match fuel with
  | O => NoFuel
  | S f =>
      if negb (0 <? n) then Ok (CDone dst n, i)
      else if ir i =? iw i then
        if killed then Ok (CKilled, i) else Ok (CSleep dst n, i)
      else
        let c := ring_get (ibuf i) (ir i) in
        let r := u32 (ir i + 1) in
        if c =? CTRL_D then
          if n <? target
          then Ok (CDone dst n, Input (ibuf i) (u32 (r - 1)) (iw i) (ie i))
          else Ok (CDone dst n, Input (ibuf i) r (iw i) (ie i))
        else
          let i := Input (ibuf i) r (iw i) (ie i) in
          if c =? NL then Ok (CDone (dst ++ [c]) (n - 1), i)
          else consoleread_loop f killed (dst ++ [c]) (n - 1) target i
  end.

(** At most [INPUT_BUF] bytes can be taken before the ring is empty. *)
Definition consoleread (killed : bool) (n : Z) (i : input) : result (cread * input) :=
  consoleread_loop (S (S (Z.to_nat INPUT_BUF))) killed [] n (u32 n) i.

Fixpoint consolewrite (buf : list Z) (s : cstate) : result (Z * cstate) :=
  match buf with
  | [] => Ok (0, s)
  | c :: buf' =>
      let? s := consputc (Z.land c 0xff) s in
      let? (n, s) := consolewrite buf' s in Ok (n + 1, s)
  end.

(** ** Reading numbers back *)

Definition digit_val (c : Z) : Z := if c <=? 57 then c - 48 else c - 87.

Definition read_num (base : Z) (l : list Z) : Z :=
  fold_left (fun acc c => acc * base + digit_val c) l 0.

(** The reader that goes with [printint]: an optional sign, then digits. *)
Definition read_int (base : Z) (l : list Z) : Z :=
  match l with
  | c :: l' => if c =? 45 then - read_num base l' else read_num base l
  | [] => 0
  end.

Lemma digit_chars_ok d :
  0 <= d < 16 ->
  exists c, digit_chars !! Z.to_nat d = Some c /\ digit_val c = d /\ c <> 45.
Proof.
  intros H. assert (Hd : d ∈ seqZ 0 16) by (apply elem_of_seqZ; lia).
  clear H. revert d Hd. apply Forall_forall. vm_compute.
  repeat (apply Forall_cons; split; [by eexists|]). done.
Qed.

Lemma read_num_snoc base l c : read_num base (l ++ [c]) = read_num base l * base + digit_val c.
Proof. unfold read_num. by rewrite fold_left_app. Qed.

Lemma printint_loop_ok base k : 10 <= base <= 16 ->
  forall fuel x buf, (k < fuel)%nat -> (length buf + k < PRINTBUF)%nat ->
  0 <= x < base ^ (Z.of_nat k + 1) ->
  exists ds, printint_loop fuel x base buf = Ok (buf ++ ds) /\
    read_num base (rev ds) = x /\ (length ds <= S k)%nat /\
    (exists c ds', rev ds = c :: ds' /\ c <> 45).
Proof.
  intros Hb. induction k as [|k IH]; intros [|fuel] x buf Hf Hl Hx; try lia.
  all: simpl; destruct (digit_chars_ok (x mod base)) as (c & -> & Hv & Hc);
    [pose proof (Z.mod_pos_bound x base); lia|]; rewrite decide_False by lia.
  - rewrite Z.div_small by (rewrite Z.pow_1_r in Hx; lia). simpl.
    exists [c]. simpl. split_and!; [done| |lia|eauto].
    unfold read_num; simpl. rewrite Hv, Z.mod_small; [lia|]. rewrite Z.pow_1_r in Hx. lia.
  - destruct (Z.eqb_spec (x / base) 0) as [E|E].
    + exists [c]. simpl. split_and!; [done| |lia|eauto].
      unfold read_num; simpl. rewrite Hv. pose proof (Z.div_mod x base). lia.
    + destruct (IH fuel (x / base) (buf ++ [c])) as (ds & Hr & Hn & Hlen & c0 & ds' & Hrev & Hc0).
      { lia. } { rewrite length_app; simpl. lia. }
      { split; [apply Z.div_pos; lia|]. apply Z.div_lt_upper_bound; [lia|].
        rewrite <- Z.pow_succ_r by lia. replace (Z.succ (Z.of_nat k + 1)) with (Z.of_nat (S k) + 1) by lia. lia. }
      exists (c :: ds). rewrite Hr, <- app_assoc. simpl rev. split_and!; [done| |simpl; lia|].
      * rewrite read_num_snoc, Hn, Hv. pose proof (Z.div_mod x base). lia.
      * exists c0, (ds' ++ [c]). by rewrite Hrev.
Qed.

Lemma printint_ok xx base sign :
  i32_range xx -> base = 10 \/ base = 16 ->
  exists out, printint xx base sign = Ok out /\
    read_int base out = (if sign then xx else u32 xx) /\ (length out <= 11)%nat.
Proof.
  intros Hr Hb. unfold printint. set (neg := sign && (xx <? 0)).
  set (x := if neg then u32 (- xx) else u32 xx).
  destruct (printint_loop_ok base 9 ltac:(lia) 32 x []) as (ds & -> & Hn & Hlen & c & ds' & Hrev & Hc).
  - lia.
  - simpl. unfold PRINTBUF. lia.
  - assert (0 <= x < 2 ^ 32) by (subst x; destruct neg; apply u32_bound).
    destruct Hb as [-> | ->]; simpl; lia.
  - simpl. unfold i32_range in Hr. destruct neg eqn:En.
    + apply andb_true_iff in En as [-> En]. rewrite decide_False by (unfold PRINTBUF; lia).
      eexists. split; [done|]. rewrite rev_app_distr. simpl. rewrite Hn.
      split; [|rewrite length_rev; lia]. subst x. rewrite u32_small by (unfold u32_range; lia). lia.
    + eexists. split; [done|]. rewrite length_rev. split; [|lia].
      rewrite Hrev. simpl. replace (c =? 45) with false by lia. rewrite <- Hrev, Hn. subst x.
      destruct sign; [|done]. apply u32_small. unfold u32_range. subst neg; simpl in En. lia.
Qed.

(** For every 32-bit argument in the bases [cprintf] uses,
    [printint] stays within its 16-byte buffer and prints a numeral that reads
    back to the number: the signed value with [sign], the unsigned one
    without. *)
Theorem printint_reads_back xx base sign :
  i32_range xx -> base = 10 \/ base = 16 ->
  exists out, printint xx base sign = Ok out /\
    read_int base out = (if sign then xx else u32 xx) /\ (length out <= 11)%nat.
Proof. apply printint_ok. Qed.

Lemma printint_reads_back_witness :
  exists out, printint (- 2 ^ 31) 10 true = Ok out /\ read_int 10 out = - 2 ^ 31.
Proof.
  destruct (printint_reads_back (- 2 ^ 31) 10 true) as (out & H1 & H2 & _).
  - split; [lia|reflexivity].
  - left. reflexivity.
  - exists out. split; assumption.
Defined.

(** The decimal numeral [%d] prints. *)
Definition dec (z : Z) : list Z :=
  match printint (i32 z) 10 true with Ok o => o | _ => [] end.

Lemma printint_dec z : printint (i32 z) 10 true = Ok (dec z).
Proof.
  unfold dec. destruct (printint_ok (i32 z) 10 true) as (o & -> & _); [apply i32_bound|by left|done].
Qed.

(** [cprintf] on literal text and on [%d], for formats given as a literal. *)
Lemma cprintf_text c fmt args out :
  (c =? 37) = false -> cprintf_loop fmt args = Ok out -> cprintf_loop (c :: fmt) args = Ok (c :: out).
Proof. intros Hc E. simpl. by rewrite Hc, E. Qed.

Lemma cprintf_d fmt z args out :
  cprintf_loop fmt args = Ok out ->
  cprintf_loop (37 :: 100 :: fmt) (AInt z :: args) = Ok (dec z ++ out).
Proof. intros E. cbn -[printint]. by rewrite printint_dec, E. Qed.

(** ** The line editor as a pair of queues

    [com] are the bytes a reader may take, [ed] the line being edited. *)
Definition ed_char (c : Z) (q : list Z * list Z) : list Z * list Z :=
  let '(com, ed) := q in
  if c =? CTRL_P then q
  else if c =? CTRL_U then (com, [])
  else if (c =? CTRL_H) || (c =? DEL) then (com, removelast ed)
  else if negb (c =? 0) && (Z.of_nat (length com + length ed) <? INPUT_BUF) then
    let c := if c =? CR then NL else c in
    if (c =? NL) || (c =? CTRL_D) || (Z.of_nat (length com + length ed) + 1 =? INPUT_BUF)
    then (com ++ ed ++ [c], []) else (com, ed ++ [c])
  else q.

(** What the serial line is sent for it: the character as it is stored, or
    backspace, space, backspace for each one that is taken out. *)
Definition rubout : list Z := [8; 32; 8].

Definition ed_echo (c : Z) (q : list Z * list Z) : list Z :=
  let '(com, ed) := q in
  if c =? CTRL_P then []
  else if c =? CTRL_U then mjoin (replicate (length ed) rubout)
  else if (c =? CTRL_H) || (c =? DEL) then (if ed then [] else rubout)
  else if negb (c =? 0) && (Z.of_nat (length com + length ed) <? INPUT_BUF) then [if c =? CR then NL else c]
  else [].

Fixpoint ed_echos (cs : list Z) (q : list Z * list Z) : list Z :=
  match cs with [] => [] | c :: cs => ed_echo c q ++ ed_echos cs (ed_char c q) end.

(** Taking up to [n] bytes: a read stops after a newline, and at a ^D, which
    it consumes only if it is the first thing it meets.  [None] for the rest
    of a read that has to wait. *)
Fixpoint line_read (n : nat) (first : bool) (com : list Z) : list Z * bool * list Z :=
  match n with
  | O => ([], true, com)
  | S n' =>
      match com with
      | [] => ([], false, [])
      | c :: com' =>
          if c =? CTRL_D then ([], true, if first then com' else com)
          else if c =? NL then ([c], true, com')
          else let '(d, fin, rest) := line_read n' false com' in (c :: d, fin, rest)
      end
  end.

Record input_rep (i : input) (com ed : list Z) : Prop := {
  ip_len : length (ibuf i) = 128%nat;
  ip_r : u32_range (ir i);
  ip_w : iw i = u32 (ir i + Z.of_nat (length com));
  ip_e : ie i = u32 (ir i + Z.of_nat (length com + length ed));
  ip_cap : (length com + length ed <= 128)%nat;
  ip_data : forall k b, (com ++ ed) !! k = Some b -> ring_get (ibuf i) (ir i + Z.of_nat k) = b;
  ip_nonl : NL ∉ ed
}.

(** The screen: 25 lines of 80 characters and what else the memory holds, the
    cursor within the lines; no processor has panicked. *)
Record screen_ok (s : cstate) : Prop := {
  sc_crt : (25 * 80 <= length (crt s))%nat;
  sc_cursor : 0 <= cursor s < 25 * 80;
  sc_up : panicked s = false
}.

Lemma crt_put_ok t pos v : 0 <= pos < Z.of_nat (length t) -> crt_put t pos v = Ok (<[Z.to_nat pos := v]> t).
Proof. intros H. unfold crt_put. by rewrite decide_True. Qed.

Lemma scroll_length t pos : (24 * 80 <= length t)%nat -> 0 <= pos <= 24 * 80 -> length (scroll t pos) = length t.
Proof.
  intros Ht Hp. unfold scroll. rewrite !length_app, length_replicate, length_take, length_drop, length_app, length_take, !length_drop. lia.
Qed.

(** The screen takes every character and the cursor stays on it. *)
Lemma cgaputc_ok c s : screen_ok s ->
  exists t pos, cgaputc c s = Ok (set_screen t pos s) /\ length t = length (crt s) /\ 0 <= pos < 25 * 80.
Proof.
  intros [Hl Hc _]. unfold cgaputc. set (pos := cursor s) in *.
  assert (exists t1 pos1, (if c =? NL then Ok (crt s, pos + (80 - pos mod 80)) else if c =? BACKSPACE then Ok (crt s, if 0 <? pos then pos - 1 else pos)
    else let? t := crt_put (crt s) pos (Z.lor (Z.land c 255) 1792) in Ok (t, pos + 1)) = Ok (t1, pos1) /\ length t1 = length (crt s) /\ 0 <= pos1 <= 25 * 80)
    as (t1 & pos1 & -> & Hl1 & Hp1).
  { destruct (c =? NL); [|destruct (c =? BACKSPACE)].
    - eexists _, _. split; [done|]. split; [done|]. Z.to_euclidean_division_equations. lia.
    - eexists _, _. split; [done|]. split; [done|]. destruct (Z.ltb_spec 0 pos); lia.
    - rewrite crt_put_ok by lia. eexists _, _. split; [done|]. rewrite length_insert. split; [done|lia]. }
  cbn [rbind]. replace ((pos1 <? 0) || (25 * 80 <? pos1)) with false by lia.
  destruct (Z.leb_spec 24 (pos1 / 80)) as [Hs|Hs].
  - assert (24 * 80 <= pos1) by (Z.to_euclidean_division_equations; lia). pose proof (scroll_length t1 (pos1 - 80) ltac:(lia) ltac:(lia)) as Hsl.
    rewrite crt_put_ok by (rewrite Hsl; lia). eexists _, _. split; [done|]. rewrite length_insert, Hsl, Z.mod_small by lia. split; [done|lia].
  - assert (pos1 < 24 * 80) by (Z.to_euclidean_division_equations; lia).
    rewrite crt_put_ok by lia. eexists _, _. split; [done|]. rewrite length_insert, Z.mod_small by lia. split; [done|lia].
Qed.

(** What one call of [consputc] sends. *)
Definition sent (c : Z) : list Z := if c =? BACKSPACE then rubout else [c].

Lemma consputc_ok c s : screen_ok s ->
  exists s', consputc c s = Ok s' /\ screen_ok s' /\ inp s' = inp s /\ uart s' = uart s ++ sent c.
Proof.
  intros Hs. unfold consputc, sent. rewrite (sc_up _ Hs). destruct (c =? BACKSPACE).
  - destruct (cgaputc_ok c (uartputc 8 (uartputc 32 (uartputc 8 s)))) as (t & pos & -> & Hl & Hp); [by destruct Hs|].
    eexists. split; [done|]. split; [destruct Hs; constructor; simpl in *; done || lia|]. split; [done|]. simpl. by rewrite <- !app_assoc.
  - destruct (cgaputc_ok c (uartputc c s)) as (t & pos & -> & Hl & Hp); [by destruct Hs|].
    eexists. split; [done|]. split; [destruct Hs; constructor; simpl in *; done || lia|]. done.
Qed.

Lemma screen_set_inp i s : screen_ok s -> screen_ok (set_inp i s).
Proof. by intros []. Qed.

Lemma u32_mod_ring x : u32 x mod INPUT_BUF = x mod INPUT_BUF.
Proof.
  unfold u32, INPUT_BUF. rewrite <- Znumtheory.Zmod_div_mod; [done|lia|lia|].
  by exists (2 ^ 25).
Qed.

Lemma ring_get_u32 b x : ring_get b (u32 x) = ring_get b x.
Proof. unfold ring_get. by rewrite u32_mod_ring. Qed.

Lemma ring_set_u32 b x v : ring_set b (u32 x) v = ring_set b x v.
Proof. unfold ring_set. by rewrite u32_mod_ring. Qed.

Lemma ring_get_set b i j v :
  length b = 128%nat ->
  ring_get (ring_set b i v) j =
  if j mod INPUT_BUF =? i mod INPUT_BUF then v else ring_get b j.
Proof.
  intros Hl. unfold ring_get, ring_set.
  pose proof (Z.mod_pos_bound i INPUT_BUF ltac:(done)).
  pose proof (Z.mod_pos_bound j INPUT_BUF ltac:(done)). unfold INPUT_BUF in *.
  rewrite !nth_lookup. destruct (Z.eqb_spec (j mod 128) (i mod 128)) as [E|E].
  - rewrite E, list_lookup_insert_eq by lia. done.
  - rewrite list_lookup_insert_ne by lia. done.
Qed.

Lemma u32_near a m n :
  0 <= m < 2 ^ 31 -> 0 <= n < 2 ^ 31 -> (u32 (a + m) =? u32 (a + n)) = (m =? n).
Proof.
  intros Hm Hn. destruct (Z.eqb_spec m n) as [-> |Hne]; [by rewrite Z.eqb_refl|].
  apply Z.eqb_neq. intros E. apply Hne.
  apply (f_equal (fun z => u32 (z - a))) in E. rewrite !u32_sub_l in E.
  replace (a + m - a) with m in E by lia. replace (a + n - a) with n in E by lia.
  rewrite !u32_small in E by (unfold u32_range; lia). done.
Qed.

Lemma ring_distinct r k n :
  0 <= k < n -> n < 128 -> ((r + k) mod INPUT_BUF =? (r + n) mod INPUT_BUF) = false.
Proof.
  intros H Hn. apply Z.eqb_neq. unfold INPUT_BUF. intros E.
  Z.to_euclidean_division_equations. lia.
Qed.

Lemma input_rep_empty_ed i com ed :
  input_rep i com ed -> (ie i =? iw i) = bool_decide (ed = []).
Proof.
  intros [_ _ Hw He Hc _ _]. rewrite Hw, He, u32_near by lia.
  destruct ed as [|x ed];
    [rewrite bool_decide_true by done; apply Z.eqb_eq
    |rewrite bool_decide_false by done; apply Z.eqb_neq]; simpl length; lia.
Qed.

Lemma input_rep_pop_ed i com ed c :
  input_rep i com (ed ++ [c]) ->
  input_rep (Input (ibuf i) (ir i) (iw i) (u32 (ie i - 1))) com ed /\
  ring_get (ibuf i) (u32 (ie i - 1)) = c.
Proof.
  intros [Hl Hr Hw He Hc Hd Hn]. rewrite length_app in He, Hc; simpl in He, Hc.
  assert (He' : u32 (ie i - 1) = u32 (ir i + Z.of_nat (length com + length ed))).
  { rewrite He, u32_sub_l. f_equal. lia. }
  split.
  - split; simpl; try done; [lia| |].
    + intros k b Hk. apply Hd. rewrite app_assoc. by apply lookup_app_l_Some.
    + intros Hin. apply Hn. apply elem_of_app. by left.
  - rewrite He', ring_get_u32, <- length_app. apply Hd.
    rewrite app_assoc. apply list_lookup_middle. done.
Qed.

Lemma input_rep_push i com ed c :
  input_rep i com ed -> (length com + length ed < 128)%nat ->
  let i' := Input (ring_set (ibuf i) (ie i) c) (ir i) (iw i) (u32 (ie i + 1)) in
  (c <> NL -> input_rep i' com (ed ++ [c])) /\
  input_rep (Input (ibuf i') (ir i) (ie i') (ie i')) (com ++ ed ++ [c]) [].
Proof.
  intros [Hl Hr Hw He Hc Hd Hn] Hlt i'.
  assert (He' : ie i' = u32 (ir i + Z.of_nat (length com + length (ed ++ [c])))).
  { unfold i'; simpl. rewrite He, u32_add_l, length_app; simpl. f_equal. lia. }
  assert (Hdat : forall k b, (com ++ ed ++ [c]) !! k = Some b ->
                   ring_get (ibuf i') (ir i + Z.of_nat k) = b).
  { intros k b Hk. unfold i'; simpl. rewrite He, ring_set_u32, ring_get_set by done.
    rewrite app_assoc in Hk. apply lookup_snoc_Some in Hk as [[Hk Hb]|[-> ->]].
    - rewrite <- length_app in Hlt |- *. rewrite ring_distinct by lia. by apply Hd.
    - by rewrite length_app, Z.eqb_refl. }
  assert (Hlen : length (ibuf i') = 128%nat) by (unfold i', ring_set; simpl; by rewrite length_insert).
  split.
  - intros Hcn. split; try done; simpl.
    + rewrite length_app; simpl. lia.
    + rewrite elem_of_app, list_elem_of_singleton. naive_solver.
  - split; simpl; try done; rewrite ?app_nil_r; rewrite ?length_app in *; simpl in *;
      try done; try lia; try (rewrite He'; f_equal; lia); try set_solver.
Qed.

Lemma kill_line_ok ed : forall fuel s com,
  input_rep (inp s) com ed -> screen_ok s -> (length ed < fuel)%nat ->
  exists s', kill_line fuel s = Ok s' /\ input_rep (inp s') com [] /\ screen_ok s' /\
    uart s' = uart s ++ mjoin (replicate (length ed) rubout).
Proof.
  induction ed as [|c ed IH] using rev_ind; intros [|fuel] s com Hrep Hs Hf;
    try (simpl in Hf; lia); simpl; rewrite (input_rep_empty_ed _ _ _ Hrep).
  - rewrite bool_decide_true by done. simpl. exists s. by rewrite app_nil_r.
  - rewrite bool_decide_false by (by destruct ed). simpl.
    destruct (input_rep_pop_ed _ _ _ _ Hrep) as [Hrep' ->].
    assert (c <> NL).
    { intros ->. destruct Hrep as [_ _ _ _ _ _ Hn]. apply Hn. set_solver. }
    replace (c =? NL) with false by lia. simpl.
    rewrite length_app in Hf |- *; simpl in Hf |- *.
    destruct (consputc_ok BACKSPACE (set_e (u32 (ie (inp s) - 1)) s)) as (s1 & -> & Hs1 & Hi1 & Hu1); [by apply screen_set_inp|].
    destruct (IH fuel s1 com) as (s' & Hk & Hr & Hs' & Ho); [by rewrite Hi1|done|lia|].
    exists s'. split_and!; [exact Hk|done|done|]. by rewrite Ho, Hu1, Nat.add_comm, <- app_assoc.
Qed.

Lemma consoleintr_char_ok c d s com ed :
  input_rep (inp s) com ed -> screen_ok s -> 0 <= c < 256 ->
  exists d' s', consoleintr_char c d s = Ok (d', s') /\
    input_rep (inp s') (fst (ed_char c (com, ed))) (snd (ed_char c (com, ed))) /\ screen_ok s' /\
    uart s' = uart s ++ ed_echo c (com, ed).
Proof.
  intros Hrep Hs Hc. unfold consoleintr_char, ed_char, ed_echo. cbv zeta.
  assert (Hnone : exists d' s', Ok (d, s) = Ok (d', s') /\ input_rep (inp s') com ed /\ screen_ok s' /\ uart s' = uart s ++ [])
    by (exists d, s; by rewrite app_nil_r).
  destruct (c =? CTRL_P); [exists true, s; by rewrite app_nil_r|].
  destruct (c =? CTRL_U).
  { assert (length ed <= 128)%nat by (destruct Hrep; lia).
    destruct (kill_line_ok ed (S (Z.to_nat INPUT_BUF)) s com Hrep Hs) as (s' & -> & Hr); [unfold INPUT_BUF; lia|]. simpl. eauto. }
  destruct ((c =? CTRL_H) || (c =? DEL)).
  { rewrite (input_rep_empty_ed _ _ _ Hrep). destruct ed as [|x ed _] using rev_ind; [by rewrite bool_decide_true by done|].
    rewrite bool_decide_false by (by destruct ed). cbn [negb fst snd]. rewrite removelast_last.
    destruct (input_rep_pop_ed _ _ _ _ Hrep) as [Hrep' _].
    destruct (consputc_ok BACKSPACE (set_e (u32 (ie (inp s) - 1)) s)) as (s1 & -> & Hs1 & Hi1 & Hu1); [by apply screen_set_inp|].
    exists d, s1. rewrite Hi1, Hu1. by destruct ed. }
  pose proof Hrep as [_ Hr _ He Hcap _ _].
  replace (u32 (ie (inp s) - ir (inp s))) with (Z.of_nat (length com + length ed)).
  2: { rewrite He, u32_sub_l, Z.add_simpl_l. symmetry. apply u32_small. unfold u32_range. lia. }
  destruct (c =? 0); [done|]. cbn [negb andb].
  destruct (Z.ltb_spec (Z.of_nat (length com + length ed)) INPUT_BUF) as [Hlt|]; [|done].
  set (c' := if c =? CR then NL else c).
  assert (Hb : 0 <= c' < 256) by (subst c'; unfold NL; destruct (c =? CR); lia).
  assert (Hc' : u8 c' = c') by (by apply Z.mod_small). rewrite Hc'.
  destruct (input_rep_push _ _ _ c' Hrep ltac:(unfold INPUT_BUF in *; lia)) as [Hp1 Hp2].
  replace (u32 (ie (inp s) + 1) =? u32 (ir (inp s) + INPUT_BUF))
    with (Z.of_nat (length com + length ed) + 1 =? INPUT_BUF).
  2: { rewrite He, u32_add_l, <- Z.add_assoc, u32_near by (unfold INPUT_BUF; lia). done. }
  destruct (consputc_ok c' (set_inp (Input (ring_set (ibuf (inp s)) (ie (inp s)) c') (ir (inp s)) (iw (inp s)) (u32 (ie (inp s) + 1))) s))
    as (s1 & -> & Hs1 & Hi1 & Hu1); [by apply screen_set_inp|]. cbn [rbind].
  unfold sent in Hu1. replace (c' =? BACKSPACE) with false in Hu1 by (unfold BACKSPACE; lia).
  assert (Hcommit : screen_ok (commit_line s1) /\ uart (commit_line s1) = uart s ++ [c'] /\ input_rep (inp (commit_line s1)) (com ++ ed ++ [c']) []).
  { split; [by destruct Hs1|]. split; [done|]. simpl. by rewrite Hi1. }
  destruct Hcommit as (Hk1 & Hk2 & Hk3).
  destruct (Z.eqb_spec c' NL) as [|Hnl]; cbn [orb]; [by eauto 6|].
  destruct ((c' =? CTRL_D) || _); cbn [fst snd]; [by eauto 6|]. exists d, s1. rewrite Hi1. by auto.
Qed.

Lemma consoleintr_ok cs : forall d s com ed,
  input_rep (inp s) com ed -> screen_ok s -> Forall (fun c => 0 <= c < 256) cs ->
  exists d' s', consoleintr cs d s = Ok (d', s') /\
    let q := fold_left (fun q c => ed_char c q) cs (com, ed) in
    input_rep (inp s') (fst q) (snd q) /\ screen_ok s' /\ uart s' = uart s ++ ed_echos cs (com, ed).
Proof.
  induction cs as [|c cs IH]; intros d s com ed Hrep Hs Hc; cbn -[ed_char ed_echo]; [exists d, s; by rewrite app_nil_r|].
  apply Forall_cons in Hc as [Hc Hcs].
  destruct (consoleintr_char_ok c d s com ed Hrep Hs Hc) as (d1 & s1 & -> & Hrep1 & Hs1 & Hu1). cbn -[ed_char ed_echo].
  destruct (ed_char c (com, ed)) as [com1 ed1]. destruct (IH d1 s1 com1 ed1 Hrep1 Hs1 Hcs) as (d2 & s2 & H2 & Hrep2 & Hs2 & Hu2).
  exists d2, s2. rewrite Hu2, Hu1, app_assoc. done.
Qed.

Lemma input_rep_pop i c com ed :
  input_rep i (c :: com) ed ->
  input_rep (Input (ibuf i) (u32 (ir i + 1)) (iw i) (ie i)) com ed /\
  ring_get (ibuf i) (ir i) = c /\ (ir i =? iw i) = false.
Proof.
  intros [Hl Hr Hw He Hc Hd Hn]. simpl in Hc. split_and!.
  - split; simpl; try done.
    + apply u32_bound.
    + rewrite Hw, u32_add_l. f_equal. simpl. lia.
    + rewrite He, u32_add_l. f_equal. simpl. lia.
    + lia.
    + intros k b Hk. rewrite <- (Hd (S k) b Hk).
      unfold ring_get. rewrite Z.add_mod, u32_mod_ring, <- Z.add_mod by done.
      do 2 f_equal. f_equal. lia.
  - rewrite <- (Hd 0%nat c eq_refl). f_equal. simpl. lia.
  - rewrite Hw. rewrite <- (u32_small (ir i)) by done.
    replace (ir i) with (ir i + 0) at 1 by lia. rewrite u32_add_l, u32_near by (simpl length; lia).
    apply Z.eqb_neq. simpl length. lia.
Qed.

Lemma input_rep_ir i com ed :
  input_rep i com ed -> (ir i =? iw i) = bool_decide (com = []).
Proof.
  intros Hrep. destruct com as [|c com].
  - rewrite bool_decide_true by done. destruct Hrep as [_ Hr Hw _ _ _ _].
    rewrite Hw. simpl. rewrite Z.add_0_r, u32_small, Z.eqb_refl by done. done.
  - rewrite bool_decide_false by done. by apply input_rep_pop in Hrep as (_ & _ & ->).
Qed.

(** The outcome of [consoleread] as the code reports it. *)
Definition cread_of (n : Z) (killed : bool) (dst : list Z) (fin : bool) : cread :=
  if fin then CDone dst (n - Z.of_nat (length dst))
  else if killed then CKilled else CSleep dst (n - Z.of_nat (length dst)).

Lemma consoleread_loop_ok killed target ed com : forall fuel n dst i,
  input_rep i com ed -> (length com < fuel)%nat -> Z.of_nat n + Z.of_nat (length dst) = target ->
  exists i', consoleread_loop fuel killed dst (Z.of_nat n) target i =
      Ok (cread_of target killed
            (dst ++ (line_read n (bool_decide (dst = [])) com).1.1)
            (line_read n (bool_decide (dst = [])) com).1.2, i') /\
    input_rep i' (line_read n (bool_decide (dst = [])) com).2 ed.
Proof.
  induction com as [|c com IH]; intros [|fuel] [|n] dst i Hrep Hf Hn; try (simpl in Hf; lia).
  1, 3: exists i; cbn -[Z.of_nat]; rewrite app_nil_r; unfold cread_of; split; [|done];
    do 3 f_equal; lia.
  all: cbn -[Z.of_nat]; replace (0 <? Z.of_nat (S n)) with true by blia; cbn -[Z.of_nat].
  - rewrite (input_rep_ir _ _ _ Hrep), bool_decide_true by done. rewrite app_nil_r.
    exists i. unfold cread_of. destruct killed; [done|]. split; [|done]. do 3 f_equal. lia.
  - destruct (input_rep_pop _ _ _ _ Hrep) as (Hrep' & -> & ->).
    destruct (Z.eqb_spec c CTRL_D) as [-> |Hd]; [|destruct (Z.eqb_spec c NL) as [-> |Hnl]].
    + cbn. rewrite app_nil_r. case_bool_decide as Hdst.
      * subst dst. simpl in Hn. replace (Z.of_nat (S n) <? target) with false by blia.
        eexists. split; [|exact Hrep']. unfold cread_of. do 3 f_equal. simpl. lia.
      * replace (Z.of_nat (S n) <? target) with true by (destruct dst; [done|simpl in Hn; blia]).
        eexists. split; [unfold cread_of; do 3 f_equal; lia|].
        rewrite u32_sub_l. replace (ir i + 1 - 1) with (ir i) by lia.
        rewrite u32_small by apply Hrep. by destruct i.
    + eexists. split; [|exact Hrep']. unfold cread_of. cbn -[Z.of_nat].
      rewrite length_app. simpl length. do 3 f_equal. lia.
    + replace (Z.of_nat (S n) - 1) with (Z.of_nat n) by lia.
      destruct (IH fuel n (dst ++ [c]) _ Hrep') as (i' & Hrun & Hi').
      { simpl in Hf. lia. } { rewrite length_app. simpl length. lia. }
      rewrite bool_decide_false in Hrun, Hi' by (by destruct dst).
      destruct (line_read n false com) as [[d fin] rest]. simpl in *.
      exists i'. rewrite Hrun, <- app_assoc. done.
Qed.

(** C7: fed any characters, the interrupt handler keeps the ring
    indices consistent (also when they wrap around 2^32), terminates, and
    behaves as the line editor on two queues: backspace and ^U only reach the
    line being edited, newline, ^D and a full buffer commit it, and nothing is
    overwritten before it is read.  The serial line gets the characters that
    are stored and backspace, space, backspace for each one taken out; the
    cursor of the screen stays on the screen, so [cgaputc] does not panic. *)
Theorem consoleintr_refines_line_editor cs d s com ed :
  input_rep (inp s) com ed -> screen_ok s -> Forall (fun c => 0 <= c < 256) cs ->
  exists d' s', consoleintr cs d s = Ok (d', s') /\
    let q := fold_left (fun q c => ed_char c q) cs (com, ed) in
    input_rep (inp s') (fst q) (snd q) /\ screen_ok s' /\ uart s' = uart s ++ ed_echos cs (com, ed).
Proof. apply consoleintr_ok. Qed.

(** C8: a read of [n] bytes takes committed bytes in order, up to
    and including the first newline, stops at ^D (left in place unless it is
    the first byte, so the next read gets the 0-byte answer), and waits only
    when the committed bytes run out first. *)
Theorem consoleread_takes_one_line killed (n : nat) i com ed :
  input_rep i com ed -> Z.of_nat n < 2 ^ 31 ->
  exists i', consoleread killed (Z.of_nat n) i =
      Ok (cread_of (Z.of_nat n) killed (line_read n true com).1.1 (line_read n true com).1.2, i') /\
    input_rep i' (line_read n true com).2 ed.
Proof.
  intros Hrep Hn. unfold consoleread. rewrite u32_small by (unfold u32_range; lia).
  assert (length com <= 128)%nat by (destruct Hrep; lia).
  destruct (consoleread_loop_ok killed (Z.of_nat n) ed com (S (S (Z.to_nat INPUT_BUF))) n [] i)
    as (i' & Hrun & Hi'); [done|unfold INPUT_BUF; lia|simpl; lia|].
  exists i'. rewrite bool_decide_true in Hrun, Hi' by done. done.
Qed.

(** A fresh console whose indices are about to wrap around. *)
Definition demo_input : input := Input (replicate 128 0) (2 ^ 32 - 2) (2 ^ 32 - 2) (2 ^ 32 - 2).

Lemma demo_input_rep : input_rep demo_input [] [].
Proof.
  split; try done; simpl; [lia|]. intros H. by apply elem_of_nil in H.
Qed.

(** The cursor at the end of the last line. *)
Definition demo_console : cstate := Cstate demo_input [] (replicate (25 * 80) 0) 1999 false 0.

Lemma demo_screen_ok : screen_ok demo_console.
Proof. constructor; [unfold demo_console; cbn [crt]; by rewrite length_replicate|done|done]. Qed.

Lemma consoleintr_refines_line_editor_witness :
  exists d s', consoleintr (codes "lx" ++ [DEL] ++ codes "s" ++ [CR]) false demo_console = Ok (d, s') /\
    input_rep (inp s') (codes "ls" ++ [NL]) [] /\ uart s' = codes "lx" ++ [8; 32; 8] ++ codes "s" ++ [NL].
Proof.
  destruct (consoleintr_refines_line_editor (codes "lx" ++ [DEL] ++ codes "s" ++ [CR]) false
              demo_console [] [] demo_input_rep demo_screen_ok) as (d & s' & H1 & H2 & _ & H3).
  - apply (bool_decide_unpack _). vm_compute. exact I.
  - exists d, s'. split; [exact H1|]. split; [exact H2|exact H3].
Defined.

Definition demo_input2 : input :=
  match consoleintr (codes "ls" ++ [CR] ++ codes "x") false demo_console with
  | Ok (_, s) => inp s
  | _ => demo_input
  end.

Lemma demo_input2_rep : input_rep demo_input2 (codes "ls" ++ [NL]) (codes "x").
Proof.
  destruct (consoleintr_ok (codes "ls" ++ [CR] ++ codes "x") false
              demo_console [] [] demo_input_rep demo_screen_ok) as (d & s' & H1 & H2 & _).
  - apply (bool_decide_unpack _). vm_compute. exact I.
  - unfold demo_input2. rewrite H1. exact H2.
Qed.

Lemma consoleread_takes_one_line_witness :
  exists i', consoleread false 100 demo_input2 = Ok (CDone (codes "ls" ++ [NL]) 97, i') /\
    input_rep i' [] (codes "x").
Proof.
  destruct (consoleread_takes_one_line false 100 demo_input2 _ _ demo_input2_rep eq_refl)
    as (i' & H1 & H2).
  exists i'. split; [exact H1|exact H2].
Defined.
