(* ===== verification/Kbd.v ===== *)
(** * The keyboard

    [kbdgetc] turns the scan codes of the keyboard controller into characters
    (kbd.c, kbd.h); [kbdintr] hands them to the console.  What the two ports of
    the controller answer enters as arguments. *)

From S2P Require Import Prelude Console.

Definition KBS_DIB : Z := 0x01.
Definition NO : Z := 0.
Definition SHIFT : Z := Z.shiftl 1 0.
Definition CTL : Z := Z.shiftl 1 1.
Definition ALT : Z := Z.shiftl 1 2.
Definition CAPSLOCK : Z := Z.shiftl 1 3.
Definition NUMLOCK : Z := Z.shiftl 1 4.
Definition SCROLLLOCK : Z := Z.shiftl 1 5.
Definition E0ESC : Z := Z.shiftl 1 6.

(** A table of 256 bytes: the first ones in order, then those with a
    designator; the others are zero. *)
Definition designated (first : list Z) (rest : list (Z * Z)) : list Z :=
  foldl (fun t '(i, v) => <[Z.to_nat i := v]> t) (first ++ replicate (256 - length first) 0) rest.

(** [C(x)] *)
Definition C (x : Z) : Z := x - 64.

Definition shiftcode : list Z := designated [] [(0x1D, CTL); (0x2A, SHIFT); (0x36, SHIFT); (0x38, ALT); (0x9D, CTL); (0xB8, ALT)].

Definition togglecode : list Z := designated [] [(0x3A, CAPSLOCK); (0x45, NUMLOCK); (0x46, SCROLLLOCK)].

(** The keypad and the cursor keys, the same in the three maps but for the
    first two. *)
Definition special (enter div : Z) : list (Z * Z) :=
  [(0x9C, enter); (0xB5, div); (0xC8, 0xE2); (0xD0, 0xE3); (0xC9, 0xE6); (0xD1, 0xE7); (0xCB, 0xE4); (0xCD, 0xE5);
   (0x97, 0xE0); (0xCF, 0xE1); (0xD2, 0xE8); (0xD3, 0xE9)].

Definition normalmap : list Z := designated
  [NO; 0x1B; 49; 50; 51; 52; 53; 54;
   55; 56; 57; 48; 45; 61; 8; 9;
   113; 119; 101; 114; 116; 121; 117; 105;
   111; 112; 91; 93; 10; NO; 97; 115;
   100; 102; 103; 104; 106; 107; 108; 59;
   39; 96; NO; 92; 122; 120; 99; 118;
   98; 110; 109; 44; 46; 47; NO; 42;
   NO; 32; NO; NO; NO; NO; NO; NO;
   NO; NO; NO; NO; NO; NO; NO; 55;
   56; 57; 45; 52; 53; 54; 43; 49;
   50; 51; 48; 46; NO; NO; NO; NO] (special 10 47).

Definition shiftmap : list Z := designated
  [NO; 27; 33; 64; 35; 36; 37; 94;
   38; 42; 40; 41; 95; 43; 8; 9;
   81; 87; 69; 82; 84; 89; 85; 73;
   79; 80; 123; 125; 10; NO; 65; 83;
   68; 70; 71; 72; 74; 75; 76; 58;
   34; 126; NO; 124; 90; 88; 67; 86;
   66; 78; 77; 60; 62; 63; NO; 42;
   NO; 32; NO; NO; NO; NO; NO; NO;
   NO; NO; NO; NO; NO; NO; NO; 55;
   56; 57; 45; 52; 53; 54; 43; 49;
   50; 51; 48; 46; NO; NO; NO; NO] (special 10 47).

Definition ctlmap : list Z := designated
  [NO; NO; NO; NO; NO; NO; NO; NO;
   NO; NO; NO; NO; NO; NO; NO; NO;
   C 81; C 87; C 69; C 82; C 84; C 89; C 85; C 73;
   C 79; C 80; NO; NO; 13; NO; C 65; C 83;
   C 68; C 70; C 71; C 72; C 74; C 75; C 76; NO;
   NO; NO; NO; C 92; C 90; C 88; C 67; C 86;
   C 66; C 78; C 77; NO; NO; u8 (C 47); NO; NO] (special 13 (u8 (C 47))).

Definition charcode : list (list Z) := [normalmap; shiftmap; ctlmap; ctlmap].

(** An element of a table; [Fault] behind its end. *)
Definition at_ {A} (t : list A) (i : Z) : result A :=
  match t !! Z.to_nat i with Some v => Ok v | None => Fault end.

(** [kbdgetc]: the answers [st] and [data] of the ports, the static [shift]. *)
Definition kbdgetc (st data shift : Z) : result (Z * Z) :=
  if Z.land st KBS_DIB =? 0 then Ok (-1, shift)
  else if data =? 0xE0 then Ok (0, Z.lor shift E0ESC)
  else if negb (Z.land data 0x80 =? 0) then
    let data := if negb (Z.land shift E0ESC =? 0) then data else Z.land data 0x7F in
    let? sc := at_ shiftcode data in
    Ok (0, Z.land shift (Z.lnot (Z.lor sc E0ESC)))
  else
    let (data, shift) :=
      if negb (Z.land shift E0ESC =? 0) then (Z.lor data 0x80, Z.land shift (Z.lnot E0ESC)) else (data, shift) in
    let? sc := at_ shiftcode data in
    let shift := Z.lor shift sc in
    let? tc := at_ togglecode data in
    let shift := Z.lxor shift tc in
    let? map := at_ charcode (Z.land shift (Z.lor CTL SHIFT)) in
    let? c := at_ map data in
    let c :=
      if negb (Z.land shift CAPSLOCK =? 0) then
        if (97 <=? c) && (c <=? 122) then c + (65 - 97)
        else if (65 <=? c) && (c <=? 90) then c + (97 - 65)
        else c
      else c in
    Ok (c, shift).

(** [kbdintr]: [queue] are the scan codes in the controller; while there are
    some, the status port says so. *)
Fixpoint kbd_answers (queue : list Z) (shift : Z) : result (list Z * Z) :=
  match queue with
  | [] => let? (_, shift) := kbdgetc 0 0 shift in Ok ([], shift)
  | data :: queue' =>
      let? (c, shift) := kbdgetc KBS_DIB data shift in
      let? (cs, shift) := kbd_answers queue' shift in
      Ok (c :: cs, shift)
  end.

Definition kbdintr (queue : list Z) (shift : Z) (s : cstate) : result (bool * cstate * Z) :=
  let? (cs, shift) := kbd_answers queue shift in
  let? (d, s) := consoleintr cs false s in
  Ok (d, s, shift).

(** ** The tables are large enough *)

Definition getc_in_range (shift data : Z) : bool :=
  match kbdgetc KBS_DIB data shift with
  | Ok (c, shift') => (0 <=? c) && (c <? 256) && (0 <=? shift') && (shift' <? 128)
  | _ => false
  end.

Lemma getc_in_range_all : forallb (fun shift => forallb (getc_in_range shift) (seqZ 0 256)) (seqZ 0 128) = true.
Proof. vm_compute. reflexivity. Qed.

Lemma kbdgetc_stays_in_tables shift data : 0 <= shift < 128 -> 0 <= data < 256 ->
  exists c shift', kbdgetc KBS_DIB data shift = Ok (c, shift') /\ 0 <= c < 256 /\ 0 <= shift' < 128.
Proof.
  intros Hs Hd. pose proof getc_in_range_all as H. rewrite forallb_forall in H.
  specialize (H shift). rewrite <- list_elem_of_In, elem_of_seqZ in H. specialize (H ltac:(lia)). rewrite forallb_forall in H.
  specialize (H data). rewrite <- list_elem_of_In, elem_of_seqZ in H. specialize (H ltac:(lia)). unfold getc_in_range in H.
  destruct (kbdgetc KBS_DIB data shift) as [[c shift']| | | |]; try done. exists c, shift'. split; [done|].
  rewrite !andb_true_iff in H. lia.
Qed.

(** ** Typing a text *)

(** The keys of a US keyboard from left to right, as the first set of scan
    codes numbers them: the number of the first key of a row, what is printed
    on the lower half of its keys and what on the upper half (the quotation
    mark, on the key beside the semicolon, by its code). *)
Definition us_rows : list (Z * list Z * list Z) :=
  [ (0x02, codes "1234567890-=", codes "!@#$%^&*()_+");
    (0x10, codes "qwertyuiop[]", codes "QWERTYUIOP{}");
    (0x1E, codes "asdfghjkl;'`", codes "ASDFGHJKL:" ++ [34] ++ codes "~");
    (0x2B, codes "\zxcvbnm,./", codes "|ZXCVBNM<>?");
    (0x39, codes " ", []); (0x0E, [8; 9], []); (0x1C, [10], []) ].

(** The key that has [c] on the chosen half. *)
Fixpoint key_of (upper : bool) (rows : list (Z * list Z * list Z)) (c : Z) : option Z :=
  match rows with
  | [] => None
  | (first, lo, up) :: rows =>
      match list_find (fun v => v = c) (if upper then up else lo) with
      | Some (k, _) => Some (first + Z.of_nat k)
      | None => key_of upper rows c
      end
  end.

(** The scan codes of typing [c]: the key goes down and up, with the shift key
    held around it for the upper half, and the control key with a letter for
    the control characters that have no key. *)
Definition strokes (c : Z) : list Z :=
  let hold m k := [m; k; Z.lor k 0x80; Z.lor m 0x80] in
  match key_of false us_rows c, key_of true us_rows c, key_of true us_rows (c + 64) with
  | Some k, _, _ => [k; Z.lor k 0x80]
  | None, Some k, _ => hold 0x2A k
  | None, None, Some k => hold 0x1D k
  | None, None, None => []
  end.

(** The control characters control-A to control-Z, backspace, tab and newline
    among them, and the printable characters of ASCII. *)
Definition typable : list Z := seqZ 1 26 ++ seqZ 32 95.

Definition swapcase (c : Z) : Z :=
  if (97 <=? c) && (c <=? 122) then c - 32 else if (65 <=? c) && (c <=? 90) then c + 32 else c.

(** The state in which no modifier is held, and what a key then gives. *)
Definition rest_state (caps : bool) : Z := if caps then CAPSLOCK else 0.
Definition typed (caps : bool) (c : Z) : Z := if caps then swapcase c else c.

Definition types_ok (caps : bool) (c : Z) : bool :=
  match kbd_answers (strokes c) (rest_state caps) with
  | Ok (cs, shift) => (shift =? rest_state caps) && bool_decide (filter (fun v => v <> 0) cs = [typed caps c])
  | _ => false
  end.

Lemma types_ok_all : forallb (fun caps => forallb (types_ok caps) typable) [false; true] = true.
Proof. vm_compute. reflexivity. Qed.

Lemma strokes_ok caps c : c ∈ typable ->
  exists cs, kbd_answers (strokes c) (rest_state caps) = Ok (cs, rest_state caps) /\ filter (fun v => v <> 0) cs = [typed caps c].
Proof.
  intros Hc. pose proof types_ok_all as H. rewrite forallb_forall in H.
  specialize (H caps ltac:(destruct caps; simpl; tauto)). rewrite forallb_forall in H.
  specialize (H c ltac:(by apply list_elem_of_In)). unfold types_ok in H.
  destruct (kbd_answers (strokes c) (rest_state caps)) as [[cs shift]| | | |]; try done.
  apply andb_true_iff in H as [H1 H2]. apply Z.eqb_eq in H1 as ->. apply bool_decide_eq_true in H2. by exists cs.
Qed.

Lemma kbd_answers_app q1 q2 shift cs1 shift1 :
  kbd_answers q1 shift = Ok (cs1, shift1) ->
  kbd_answers (q1 ++ q2) shift = rbind (kbd_answers q2 shift1) (fun '(cs, shift) => Ok (cs1 ++ cs, shift)).
Proof.
  revert shift cs1. induction q1 as [|data q1 IH]; intros shift cs1 H; simpl in *.
  - simplify_eq. by destruct (kbd_answers q2 shift1) as [[cs sh]| | | |].
  - destruct (kbdgetc KBS_DIB data shift) as [[c sh]| | | |]; try done. cbn [rbind] in *.
    destruct (kbd_answers q1 sh) as [[cs sh1]| | | |] eqn:E; try done. cbn [rbind] in *. injection H as <- ->.
    rewrite (IH sh cs E). by destruct (kbd_answers q2 shift1) as [[cs' sh']| | | |].
Qed.

Lemma text_answers caps text : Forall (fun c => c ∈ typable) text ->
  exists cs, kbd_answers (mjoin (strokes <$> text)) (rest_state caps) = Ok (cs, rest_state caps) /\
    filter (fun v => v <> 0) cs = typed caps <$> text.
Proof.
  induction 1 as [|c text Hc _ (cs & IH1 & IH2)]; [by exists []|].
  destruct (strokes_ok caps c Hc) as (cs0 & H1 & H2). exists (cs0 ++ cs). split.
  - change (mjoin (strokes <$> c :: text)) with (strokes c ++ mjoin (strokes <$> text)). by rewrite (kbd_answers_app _ _ _ _ _ H1), IH1.
  - by rewrite filter_app, H2, IH2.
Qed.

(** The console does not see the zeroes. *)
Lemma consoleintr_zeroes cs : forall d s, consoleintr cs d s = consoleintr (filter (fun v => v <> 0) cs) d s.
Proof.
  induction cs as [|c cs IH]; intros d s; [done|]. rewrite filter_cons. destruct (decide (c <> 0)) as [Hc|Hc].
  - cbn [consoleintr]. destruct (consoleintr_char c d s) as [[d' s']| | | |]; try done. cbn [rbind]. apply IH.
  - assert (c = 0) as -> by lia. rewrite <- IH. done.
Qed.

(** C40: whoever types a text of printable characters,
    tabs, newlines, backspaces and other control characters on a US keyboard,
    key by key, with the shift key for the upper characters and the control
    key for the control characters, gives the console exactly that text, with
    the letters' cases exchanged while caps lock is on; afterwards no modifier
    is left set. *)
Theorem typed_text_reaches_console caps text s :
  Forall (fun c => c ∈ typable) text ->
  kbdintr (mjoin (strokes <$> text)) (rest_state caps) s =
  rbind (consoleintr (typed caps <$> text) false s) (fun '(d, s') => Ok (d, s', rest_state caps)).
Proof.
  intros Ht. destruct (text_answers caps text Ht) as (cs & H1 & H2). unfold kbdintr. rewrite H1. cbn [rbind].
  by rewrite consoleintr_zeroes, H2.
Qed.

Lemma typed_text_reaches_console_witness : let s := Cstate (Input (replicate 128 0) 0 0 0) [] (replicate 2000 0) 0 false 0 in
  kbdintr [0x26; 0xA6; 0x2A; 0x1F; 0x9F; 0xAA; 0x1D; 0x16; 0x96; 0x9D; 0x1C; 0x9C] 0 s =
  rbind (consoleintr [108; 83; 21; 10] false s) (fun '(d, s') => Ok (d, s', 0)).
Proof.
  intros s. apply (typed_text_reaches_console false [108; 83; 21; 10] s). by apply (bool_decide_eq_true_1 _).
Defined.
