(* ===== verification/CString.v ===== *)
(** * Byte arrays and strings

    Models [string.c] (the kernel's) and the string part of [ulib.c] (the
    user library's).  A region of memory is the list of its bytes, a pointer
    into it an index; reading or writing outside the region is a fault. *)

From S2P Require Import Prelude.

(** ** Memory accesses *)

Definition rd (a : list Z) (i : nat) : result Z :=
  match a !! i with Some v => Ok v | None => Fault end.

Definition wr (a : list Z) (i : nat) (v : Z) : result (list Z) :=
  if decide (i < length a)%nat then Ok (<[i := v]> a) else Fault.

(** [rep stosb]: [n] bytes. *)
Fixpoint stosb (n : nat) (c : Z) (a : list Z) (i : nat) : result (list Z) :=
  match n with
  | O => Ok a
  | S n' => let? a := wr a i (u8 c) in stosb n' c a (S i)
  end.

(** [rep stosl]: [n] words, low byte first. *)
Fixpoint stosl (n : nat) (w : Z) (a : list Z) (i : nat) : result (list Z) :=
  match n with
  | O => Ok a
  | S n' =>
      let? a := wr a i (u8 w) in
      let? a := wr a (i + 1) (u8 (Z.shiftr w 8)) in
      let? a := wr a (i + 2) (u8 (Z.shiftr w 16)) in
      let? a := wr a (i + 3) (u8 (Z.shiftr w 24)) in
      stosl n' w a (i + 4)
  end.

Module KString.

(** [base] is the address of the first byte of the region. *)
Definition memset (base : Z) (a : list Z) (dst : nat) (c : Z) (n : Z) : result (list Z) :=
  if (Z.rem (i32 (base + Z.of_nat dst)) 4 =? 0) && (n mod 4 =? 0) then
    let c := Z.land c 0xFF in
    stosl (Z.to_nat (n / 4)) (Z.lor (Z.lor (Z.lor (Z.shiftl c 24) (Z.shiftl c 16)) (Z.shiftl c 8)) c) a dst
  else stosb (Z.to_nat n) c a dst.

Fixpoint memcmp (a1 : list Z) (s1 : nat) (a2 : list Z) (s2 : nat) (n : nat) : result Z :=
  match n with
  | O => Ok 0
  | S n' =>
      let? x := rd a1 s1 in
      let? y := rd a2 s2 in
      if negb (x =? y) then Ok (x - y) else memcmp a1 (S s1) a2 (S s2) n'
  end.

(** The two loops of [memmove]; both pointers are into the same region. *)
Fixpoint copy_up (n : nat) (a : list Z) (d s : nat) : result (list Z) :=
  match n with
  | O => Ok a
  | S n' =>
      let? v := rd a s in
      let? a := wr a d v in
      copy_up n' a (S d) (S s)
  end.

Fixpoint copy_down (n : nat) (a : list Z) (d s : nat) : result (list Z) :=
  match n with
  | O => Ok a
  | S n' =>
      let? v := rd a (s + n') in
      let? a := wr a (d + n') v in
      copy_down n' a d s
  end.

Definition memmove (a : list Z) (dst src : nat) (n : nat) : result (list Z) :=
  if decide (src < dst /\ dst < src + n)%nat then copy_down n a dst src else copy_up n a dst src.

Fixpoint strncmp (a : list Z) (p : nat) (b : list Z) (q : nat) (n : nat) : result Z :=
  match n with
  | O => Ok 0
  | S n' =>
      let? x := rd a p in
      if x =? 0 then let? y := rd b q in Ok (u8 x - u8 y)
      else
        let? y := rd b q in
        if x =? y then strncmp a (S p) b (S q) n' else Ok (u8 x - u8 y)
  end.

Fixpoint zero_fill (n : nat) (a : list Z) (s : nat) : result (list Z) :=
  match n with
  | O => Ok a
  | S n' => let? a := wr a s 0 in zero_fill n' a (S s)
  end.

Fixpoint strncpy_loop (n : nat) (a : list Z) (s : nat) (b : list Z) (t : nat) : result (list Z) :=
  match n with
  | O => Ok a
  | S n' =>
      let? v := rd b t in
      let? a := wr a s v in
      if v =? 0 then zero_fill n' a (S s) else strncpy_loop n' a (S s) b (S t)
  end.

Definition strncpy (a : list Z) (s : nat) (b : list Z) (t : nat) (n : Z) : result (list Z) :=
  strncpy_loop (Z.to_nat n) a s b t.

Fixpoint safestrcpy_loop (n : nat) (a : list Z) (s : nat) (b : list Z) (t : nat) : result (list Z) :=
  match n with
  | O => wr a s 0
  | S n' =>
      let? v := rd b t in
      let? a := wr a s v in
      if v =? 0 then wr a (S s) 0 else safestrcpy_loop n' a (S s) b (S t)
  end.

Definition safestrcpy (a : list Z) (s : nat) (b : list Z) (t : nat) (n : Z) : result (list Z) :=
  if n <=? 0 then Ok a else safestrcpy_loop (Z.to_nat (n - 1)) a s b t.

(** The loop stops at a zero byte or runs off the region. *)
Fixpoint strlen_loop (fuel : nat) (a : list Z) (s : nat) (n : nat) : result Z :=
  match fuel with
  | O => Fault
  | S f => let? v := rd a (s + n) in
           if v =? 0 then Ok (Z.of_nat n) else strlen_loop f a s (S n)
  end.

Definition strlen (a : list Z) (s : nat) : result Z := strlen_loop (S (length a)) a s 0.

End KString.

Module ULib.

Fixpoint strcpy_loop (fuel : nat) (a : list Z) (s : nat) (b : list Z) (t : nat) : result (list Z) :=
  match fuel with
  | O => Fault
  | S f =>
      let? v := rd b t in
      let? a := wr a s v in
      if v =? 0 then Ok a else strcpy_loop f a (S s) b (S t)
  end.

(** The source is not the destination. *)
Definition strcpy (a : list Z) (s : nat) (b : list Z) (t : nat) : result (list Z) :=
  strcpy_loop (S (length b)) a s b t.

Fixpoint strcmp_loop (fuel : nat) (a : list Z) (p : nat) (b : list Z) (q : nat) : result Z :=
  match fuel with
  | O => Fault
  | S f =>
      let? x := rd a p in
      if x =? 0 then let? y := rd b q in Ok (u8 x - u8 y)
      else
        let? y := rd b q in
        if x =? y then strcmp_loop f a (S p) b (S q) else Ok (u8 x - u8 y)
  end.

Definition strcmp (a : list Z) (p : nat) (b : list Z) (q : nat) : result Z :=
  strcmp_loop (S (length a)) a p b q.

Definition strlen (a : list Z) (s : nat) : result Z := KString.strlen a s.

Definition memset (a : list Z) (dst : nat) (c : Z) (n : Z) : result (list Z) :=
  stosb (Z.to_nat n) c a dst.

Fixpoint strchr_loop (fuel : nat) (a : list Z) (s : nat) (c : Z) : result (option nat) :=
  match fuel with
  | O => Fault
  | S f =>
      let? v := rd a s in
      if v =? 0 then Ok None else if v =? c then Ok (Some s) else strchr_loop f a (S s) c
  end.

Definition strchr (a : list Z) (s : nat) (c : Z) : result (option nat) :=
  strchr_loop (S (length a)) a s c.

(** [read(0, &c, 1)] answers from [input]: [None] when it returns less than 1. *)
Fixpoint gets_loop (fuel : nat) (max : Z) (i : nat) (buf : list Z) (input : list Z)
  : result (list Z * list Z) :=
  match fuel with
  | O => NoFuel
  | S f =>
      if Z.of_nat i + 1 <? max then
        match input with
        | [] => let? buf := wr buf i 0 in Ok (buf, input)
        | c :: input =>
            let? buf := wr buf i c in
            if (c =? 10) || (c =? 13) then let? buf := wr buf (S i) 0 in Ok (buf, input)
            else gets_loop f max (S i) buf input
        end
      else let? buf := wr buf i 0 in Ok (buf, input)
  end.

Definition gets (buf : list Z) (max : Z) (input : list Z) : result (list Z * list Z) :=
  gets_loop (S (length input)) max 0 buf input.

Fixpoint atoi_loop (fuel : nat) (a : list Z) (s : nat) (n : Z) : result Z :=
  match fuel with
  | O => Fault
  | S f =>
      let? v := rd a s in
      if (48 <=? v) && (v <=? 57) then atoi_loop f a (S s) (i32 (i32 (n * 10) + v - 48)) else Ok n
  end.

Definition atoi (a : list Z) (s : nat) : result Z := atoi_loop (S (length a)) a s 0.

(** Forward copy only, whatever the overlap. *)
Definition memmove (a : list Z) (dst src : nat) (n : Z) : result (list Z) :=
  KString.copy_up (Z.to_nat n) a dst src.

End ULib.

(** ** Strings in a region *)

(** The characters [l], none of them zero, are at [i], followed by a zero. *)
Definition cstr (a : list Z) (i : nat) (l : list Z) : Prop :=
  (exists rest, drop i a = l ++ 0 :: rest) /\ Forall (fun v => 0 < v < 256) l.

Lemma rd_drop a i v r : drop i a = v :: r -> rd a i = Ok v /\ drop (S i) a = r.
Proof.
  intros E. unfold rd. assert (Hl : a !! i = Some v).
  { replace i with (i + 0)%nat by lia. by rewrite <- lookup_drop, E. }
  rewrite Hl. split; [done|]. apply drop_S in Hl. congruence.
Qed.

Lemma cstr_nil a i l : cstr a i l -> l = [] -> rd a i = Ok 0.
Proof. intros [[r E] _] ->. by apply (rd_drop _ _ _ _ E). Qed.

Lemma cstr_cons a i v l : cstr a i (v :: l) -> rd a i = Ok v /\ 0 < v < 256 /\ cstr a (S i) l.
Proof.
  intros [[r E] Hf]. apply Forall_cons in Hf as [Hv Hf]. apply rd_drop in E as [Hr Hd].
  split; [done|]. split; [done|]. split; [by exists r|done].
Qed.

Lemma cstr_length a i l : cstr a i l -> (i + length l < length a)%nat.
Proof.
  intros [[r E] _]. assert (Hl : length (drop i a) = length (l ++ 0 :: r)) by (by rewrite E).
  rewrite length_drop, length_app in Hl. simpl in Hl. lia.
Qed.

Lemma wr_Ok a i v : (i < length a)%nat -> wr a i v = Ok (<[i := v]> a).
Proof. intros Hi. unfold wr. by rewrite decide_True. Qed.

Lemma rd_Ok a i : (i < length a)%nat -> exists v, a !! i = Some v /\ rd a i = Ok v.
Proof. intros Hi. unfold rd. destruct (lookup_lt_is_Some_2 _ _ Hi) as [v Hv]. rewrite Hv. eauto. Qed.

(** ** memset *)

Definition filled (a : list Z) (i n : nat) (c : Z) : list Z := take i a ++ replicate n c ++ drop (i + n) a.

Lemma filled_0 a i c : filled a i 0 c = a.
Proof. unfold filled. simpl. by rewrite Nat.add_0_r, take_drop. Qed.

Lemma filled_S a i n c :
  (i < length a)%nat -> filled (<[i := c]> a) (S i) n c = filled a i (S n) c.
Proof.
  intros Hi. unfold filled. rewrite (take_S_r _ _ c) by (by apply list_lookup_insert_eq).
  rewrite take_insert_ge, drop_insert_lt by lia. rewrite <- app_assoc. simpl.
  by replace (i + S n)%nat with (S (i + n)) by lia.
Qed.

Lemma filled_length a i n c : (i + n <= length a)%nat -> length (filled a i n c) = length a.
Proof. intros. unfold filled. rewrite !length_app, length_take, length_replicate, length_drop. lia. Qed.

Lemma stosb_ok n : forall c a i, (i + n <= length a)%nat -> stosb n c a i = Ok (filled a i n (u8 c)).
Proof.
  induction n as [|n IH]; intros c a i Hi; simpl; [by rewrite filled_0|].
  rewrite wr_Ok by lia. simpl. rewrite IH by (rewrite length_insert; lia). by rewrite filled_S by lia.
Qed.

(** The bytes of the word [memset] builds are all [c]. *)
Definition memset_long (c : Z) : Z :=
  Z.lor (Z.lor (Z.lor (Z.shiftl c 24) (Z.shiftl c 16)) (Z.shiftl c 8)) c.

Lemma memset_long_bytes c :
  0 <= c < 256 -> Forall (fun k => u8 (Z.shiftr (memset_long c) k) = c) [0; 8; 16; 24].
Proof.
  intros Hc.
  assert (Hall : forallb (fun c => forallb (fun k => u8 (Z.shiftr (memset_long c) k) =? c) [0; 8; 16; 24])
                   (seqZ 0 256) = true) by (by vm_compute).
  rewrite forallb_forall in Hall. specialize (Hall c).
  rewrite <- list_elem_of_In, elem_of_seqZ, forallb_forall in Hall.
  apply Forall_forall. intros k Hk%list_elem_of_In. apply Z.eqb_eq, Hall; [lia|done].
Qed.

Lemma filled_app a i m n c :
  (i + m + n <= length a)%nat -> filled (filled a i m c) (i + m) n c = filled a i (m + n) c.
Proof.
  revert a i. induction m as [|m IH]; intros a i Hi.
  - rewrite filled_0. simpl. by rewrite Nat.add_0_r.
  - rewrite <- !filled_S by lia. simpl. replace (i + S m)%nat with (S i + m)%nat by lia.
    rewrite IH by (rewrite length_insert; lia). by rewrite filled_S by lia.
Qed.

Lemma stosl_ok n : forall c a i,
  0 <= c < 256 -> (i + 4 * n <= length a)%nat -> stosl n (memset_long c) a i = Ok (filled a i (4 * n) c).
Proof.
  induction n as [|n IH]; intros c a i Hc Hi; [by rewrite filled_0|]. cbn [stosl].
  pose proof (memset_long_bytes c Hc) as Hb. rewrite !Forall_cons in Hb.
  destruct Hb as (H0 & H1 & H2 & H3 & _). rewrite Z.shiftr_0_r in H0. rewrite H0, H1, H2, H3.
  rewrite wr_Ok by lia. cbn [rbind]. rewrite wr_Ok by (rewrite ?length_insert; lia). cbn [rbind].
  rewrite wr_Ok by (rewrite ?length_insert; lia). cbn [rbind].
  rewrite wr_Ok by (rewrite ?length_insert; lia). cbn [rbind].
  rewrite IH by (rewrite ?length_insert; lia). f_equal.
  replace (i + 4)%nat with (S (i + 3)) by lia. rewrite filled_S by (rewrite ?length_insert; lia).
  replace (i + 3)%nat with (S (i + 2)) by lia. rewrite filled_S by (rewrite ?length_insert; lia).
  replace (i + 2)%nat with (S (i + 1)) by lia. rewrite filled_S by (rewrite ?length_insert; lia).
  replace (i + 1)%nat with (S i) by lia. rewrite filled_S by lia. f_equal. lia.
Qed.

Lemma u8_land c : Z.land c 0xFF = u8 c.
Proof. change 0xFF with (Z.ones 8). by rewrite Z.land_ones by lia. Qed.

Lemma u8_range c : 0 <= u8 c < 256.
Proof. unfold u8. change (2 ^ 8) with 256. apply Z.mod_pos_bound. lia. Qed.

Lemma memset_ok base a dst c n :
  0 <= n -> (dst + Z.to_nat n <= length a)%nat ->
  KString.memset base a dst c n = Ok (filled a dst (Z.to_nat n) (u8 c)).
Proof.
  intros Hn Hl. unfold KString.memset.
  destruct (_ && (n mod 4 =? 0)) eqn:E; [|by apply stosb_ok].
  apply andb_prop in E as [_ E]. apply Z.eqb_eq in E. rewrite u8_land.
  assert (Hq : (4 * Z.to_nat (n / 4) = Z.to_nat n)%nat) by (Z.to_euclidean_division_equations; lia).
  fold (memset_long (u8 c)). rewrite stosl_ok by (auto using u8_range; lia). by rewrite Hq.
Qed.

(** ** memmove *)

(** What a copy of [n] bytes from [s] to [d] leaves in the region. *)
Definition moved (a : list Z) (d s n : nat) : list Z :=
  take d a ++ take n (drop s a) ++ drop (d + n) a.

Lemma copy_down_ok n : forall a d s,
  (s < d)%nat -> (d + n <= length a)%nat -> KString.copy_down n a d s = Ok (moved a d s n).
Proof.
  induction n as [|n IH]; intros a d s Hsd Hl; cbn [KString.copy_down].
  - unfold moved. rewrite Nat.add_0_r, take_0. simpl. by rewrite take_drop.
  - destruct (rd_Ok a (s + n)) as (v & Hv & Hrd); [lia|]. rewrite Hrd. cbn [rbind].
    rewrite wr_Ok by lia. cbn [rbind]. rewrite IH by (rewrite ?length_insert; lia).
    f_equal. unfold moved.
    rewrite take_insert_ge by lia. f_equal.
    rewrite (take_S_r (drop s a) n v) by (rewrite lookup_drop; done). rewrite <- app_assoc. f_equal.
    + rewrite drop_insert_ge by lia. rewrite take_insert_ge by lia. done.
    + rewrite drop_insert_ge by lia. replace (d + n - (d + n))%nat with 0%nat by lia.
      destruct (drop (d + n) a) as [|x l] eqn:Ed.
      * assert (Hlen : length (drop (d + n) a) = 0%nat) by (by rewrite Ed). rewrite length_drop in Hlen. lia.
      * simpl. replace (d + S n)%nat with (S (d + n)) by lia.
        apply rd_drop in Ed as [_ ->]. done.
Qed.

Lemma copy_up_ok n : forall a d s,
  (d <= s \/ s + n <= d)%nat -> (d + n <= length a)%nat -> (s + n <= length a)%nat ->
  KString.copy_up n a d s = Ok (moved a d s n).
Proof.
  induction n as [|n IH]; intros a d s Hsd Hl Hl'; cbn [KString.copy_up].
  - unfold moved. rewrite Nat.add_0_r, take_0. simpl. by rewrite take_drop.
  - destruct (rd_Ok a s) as (v & Hv & Hrd); [lia|]. rewrite Hrd. cbn [rbind].
    rewrite wr_Ok by lia. cbn [rbind]. rewrite IH by (rewrite ?length_insert; lia).
    f_equal. unfold moved.
    rewrite (take_S_r _ _ v) by (apply list_lookup_insert_eq; lia).
    rewrite take_insert_ge by lia. rewrite <- app_assoc. f_equal. simpl.
    rewrite (drop_S a v s) by done. simpl. f_equal. f_equal.
    + destruct (decide (d <= s)%nat) as [Hd|Hd].
      * by rewrite drop_insert_lt by lia.
      * rewrite drop_insert_ge by lia. by rewrite take_insert_ge by lia.
    + rewrite drop_insert_lt by lia. f_equal. lia.
Qed.

(** ** Strings *)

Lemma cstr_nil_intro a i : a !! i = Some 0 -> cstr a i [].
Proof. intros H. split; [|constructor]. exists (drop (S i) a). by apply drop_S. Qed.

Lemma cstr_cons_intro a i v l : a !! i = Some v -> 0 < v < 256 -> cstr a (S i) l -> cstr a i (v :: l).
Proof.
  intros H Hv [[r E] Hf]. split; [|by constructor]. exists r. simpl. rewrite <- E. by apply drop_S.
Qed.

Lemma strlen_loop_ok l : forall fuel a s n,
  cstr a (s + n) l -> (length l < fuel)%nat ->
  KString.strlen_loop fuel a s n = Ok (Z.of_nat (n + length l)).
Proof.
  induction l as [|v l IH]; intros [|fuel] a s n Hc Hf; simpl in Hf; try lia; cbn [KString.strlen_loop].
  - rewrite (cstr_nil _ _ _ Hc) by done. cbn [rbind]. simpl. do 2 f_equal. lia.
  - apply cstr_cons in Hc as (-> & Hv & Hc). cbn [rbind]. replace (v =? 0) with false by lia.
    rewrite (IH fuel a s (S n)); [f_equal; simpl; lia| |lia]. by replace (s + S n)%nat with (S (s + n)) by lia.
Qed.

Lemma strlen_ok a s l : cstr a s l -> KString.strlen a s = Ok (Z.of_nat (length l)).
Proof.
  intros Hc. unfold KString.strlen. pose proof (cstr_length _ _ _ Hc).
  rewrite (strlen_loop_ok l); [done|by rewrite Nat.add_0_r|lia].
Qed.

Lemma u8_small v : 0 <= v < 256 -> u8 v = v.
Proof. intros Hv. unfold u8. apply Z.mod_small. done. Qed.

Lemma strncmp_ok n : forall a p b q l m,
  cstr a p l -> cstr b q m ->
  exists r, KString.strncmp a p b q n = Ok r /\ (r = 0 <-> take n l = take n m).
Proof.
  induction n as [|n IH]; intros a p b q l m Hl Hm; cbn [KString.strncmp]; [by exists 0|].
  destruct l as [|x l].
  - rewrite (cstr_nil _ _ _ Hl) by done. cbn [rbind]. simpl (0 =? 0). cbn iota.
    destruct m as [|y m].
    + rewrite (cstr_nil _ _ _ Hm) by done. cbn [rbind]. by eexists.
    + apply cstr_cons in Hm as (-> & Hy & _). cbn [rbind]. eexists. split; [done|].
      rewrite !u8_small by lia. simpl. split; [lia|done].
  - apply cstr_cons in Hl as (-> & Hx & Hl). cbn [rbind]. replace (x =? 0) with false by lia.
    destruct m as [|y m].
    + rewrite (cstr_nil _ _ _ Hm) by done. cbn [rbind]. replace (x =? 0) with false by lia.
      eexists. split; [done|]. rewrite !u8_small by lia. simpl. split; [lia|done].
    + apply cstr_cons in Hm as (-> & Hy & Hm). cbn [rbind].
      destruct (Z.eqb_spec x y) as [-> |Hne].
      * destruct (IH _ _ _ _ _ _ Hl Hm) as (r & Hr & Hiff). exists r. split; [done|].
        rewrite Hiff. simpl. split; [by intros ->|congruence].
      * eexists. split; [done|]. rewrite !u8_small by lia. simpl. split; [lia|]. congruence.
Qed.

Lemma strcmp_loop_ok l : forall fuel a p b q m,
  cstr a p l -> cstr b q m -> (length l < fuel)%nat ->
  exists r, ULib.strcmp_loop fuel a p b q = Ok r /\ (r = 0 <-> l = m).
Proof.
  induction l as [|x l IH]; intros [|fuel] a p b q m Hl Hm Hf; simpl in Hf; try lia; cbn [ULib.strcmp_loop].
  - rewrite (cstr_nil _ _ _ Hl) by done. cbn [rbind]. simpl (0 =? 0). cbn iota.
    destruct m as [|y m].
    + rewrite (cstr_nil _ _ _ Hm) by done. by eexists.
    + apply cstr_cons in Hm as (-> & Hy & _). eexists. split; [done|].
      rewrite !u8_small by lia. split; [lia|done].
  - apply cstr_cons in Hl as (-> & Hx & Hl). cbn [rbind]. replace (x =? 0) with false by lia.
    destruct m as [|y m].
    + rewrite (cstr_nil _ _ _ Hm) by done. cbn [rbind]. replace (x =? 0) with false by lia.
      eexists. split; [done|]. rewrite !u8_small by lia. split; [lia|done].
    + apply cstr_cons in Hm as (-> & Hy & Hm). cbn [rbind].
      destruct (Z.eqb_spec x y) as [-> |Hne].
      * destruct (IH fuel _ _ _ _ _ Hl Hm) as (r & Hr & Hiff); [lia|]. exists r. split; [done|].
        rewrite Hiff. split; congruence.
      * eexists. split; [done|]. rewrite !u8_small by lia. split; [lia|]. congruence.
Qed.

(** Writes outside [s, s + n) did not happen. *)
Definition only_at (s n : nat) (a a' : list Z) : Prop :=
  length a' = length a /\ forall k, (k < s \/ s + n <= k)%nat -> a' !! k = a !! k.

Lemma only_at_insert s n a a' v :
  only_at (S s) n (<[s := v]> a) a' -> only_at s (S n) a a'.
Proof.
  intros [Hl Hf]. rewrite length_insert in Hl. split; [done|]. intros k Hk.
  rewrite Hf by lia. apply list_lookup_insert_ne. lia.
Qed.

Lemma only_at_head s n a a' v :
  (s < length a)%nat -> only_at (S s) n (<[s := v]> a) a' -> a' !! s = Some v.
Proof. intros Hs [_ Hf]. rewrite Hf by lia. by apply list_lookup_insert_eq. Qed.

Lemma only_at_one s a v : only_at s 1 a (<[s := v]> a).
Proof. split; [by rewrite length_insert|]. intros k Hk. apply list_lookup_insert_ne. lia. Qed.

Lemma only_at_weaken s n m a a' : only_at s n a a' -> (n <= m)%nat -> only_at s m a a'.
Proof. intros [Hl Hf] Hm. split; [done|]. intros k Hk. apply Hf. lia. Qed.

Lemma safestrcpy_loop_ok n : forall a s b t l,
  cstr b t l -> (s + S n <= length a)%nat ->
  exists a', KString.safestrcpy_loop n a s b t = Ok a' /\ cstr a' s (take n l) /\ only_at s (S n) a a'.
Proof.
  induction n as [|n IH]; intros a s b t l Hl Hs; cbn [KString.safestrcpy_loop].
  - rewrite wr_Ok by lia. eexists. split_and!; [done| |apply only_at_one].
    apply cstr_nil_intro, list_lookup_insert_eq. lia.
  - destruct l as [|v l].
    + rewrite (cstr_nil _ _ _ Hl) by done. cbn [rbind]. rewrite wr_Ok by lia. cbn [rbind].
      simpl (0 =? 0). cbn iota. rewrite wr_Ok by (rewrite length_insert; lia).
      eexists. split_and!; [done| |].
      * apply cstr_nil_intro. rewrite list_lookup_insert_ne by lia. apply list_lookup_insert_eq. lia.
      * apply (only_at_weaken _ 2); [|lia]. apply (only_at_insert _ _ _ _ 0), only_at_one.
    + apply cstr_cons in Hl as (-> & Hv & Hl). cbn [rbind]. rewrite wr_Ok by lia. cbn [rbind].
      replace (v =? 0) with false by lia.
      destruct (IH (<[s := v]> a) (S s) b (S t) l Hl) as (a' & Hrun & Hc & Ho); [rewrite length_insert; lia|].
      exists a'. split_and!; [done| |by eapply only_at_insert].
      apply cstr_cons_intro; [|done|done]. eapply only_at_head; [|done]. lia.
Qed.

Lemma zero_fill_ok n : forall a s,
  (s + n <= length a)%nat -> KString.zero_fill n a s = Ok (filled a s n 0).
Proof.
  induction n as [|n IH]; intros a s Hs; cbn [KString.zero_fill]; [by rewrite filled_0|].
  rewrite wr_Ok by lia. cbn [rbind]. rewrite IH by (rewrite length_insert; lia).
  by rewrite filled_S by lia.
Qed.

(** [strncpy] writes exactly [n] bytes: the string, cut at [n], and zeros. *)
Lemma strncpy_loop_ok n : forall a s b t l,
  cstr b t l -> (s + n <= length a)%nat ->
  KString.strncpy_loop n a s b t =
  Ok (take s a ++ take n l ++ replicate (n - length l) 0 ++ drop (s + n) a).
Proof.
  induction n as [|n IH]; intros a s b t l Hl Hs; cbn [KString.strncpy_loop].
  - simpl. by rewrite Nat.add_0_r, take_drop.
  - destruct l as [|v l].
    + rewrite (cstr_nil _ _ _ Hl) by done. cbn [rbind]. rewrite wr_Ok by lia. cbn [rbind].
      simpl (0 =? 0). cbn iota. rewrite zero_fill_ok by (rewrite length_insert; lia).
      rewrite filled_S by lia. unfold filled. simpl. done.
    + apply cstr_cons in Hl as (-> & Hv & Hl). cbn [rbind]. rewrite wr_Ok by lia. cbn [rbind].
      replace (v =? 0) with false by lia. rewrite (IH _ _ _ _ l Hl) by (rewrite length_insert; lia).
      f_equal. rewrite (take_S_r _ _ v) by (apply list_lookup_insert_eq; lia).
      rewrite take_insert_ge, drop_insert_lt by lia. rewrite <- app_assoc. simpl.
      by replace (s + S n)%nat with (S (s + n)) by lia.
Qed.

(** ** Properties *)

(** The kernel's [memmove] leaves at the destination what the source
    held, however the two overlap, and nothing else changes; the user library's
    does so unless the destination starts inside the source. *)
Theorem memmove_copies_any_overlap a dst src n :
  (dst + n <= length a)%nat -> (src + n <= length a)%nat ->
  KString.memmove a dst src n = Ok (moved a dst src n) /\
  ((dst <= src \/ src + n <= dst)%nat -> ULib.memmove a dst src (Z.of_nat n) = Ok (moved a dst src n)).
Proof.
  intros Hd Hs. split.
  - unfold KString.memmove. case_decide; [apply copy_down_ok; lia|apply copy_up_ok; lia].
  - intros Ho. unfold ULib.memmove. rewrite Nat2Z.id. by apply copy_up_ok.
Qed.

Lemma memmove_copies_any_overlap_witness :
  KString.memmove [1; 2; 3; 4; 5; 0; 0] 2 0 5 = Ok [1; 2; 1; 2; 3; 4; 5].
Proof. destruct (memmove_copies_any_overlap [1; 2; 3; 4; 5; 0; 0] 2 0 5) as [H _]; [simpl; lia..|exact H]. Defined.

(** Copying a string into a field of [n] bytes, [safestrcpy] leaves it
    there, cut to [n - 1] characters and terminated, and [strncpy] leaves it cut
    to [n] and padded with zeros; neither touches a byte outside the field. *)
Theorem bounded_copies_stay_in_field a s b t l n :
  cstr b t l -> 0 < n -> (s + Z.to_nat n <= length a)%nat ->
  (exists a', KString.safestrcpy a s b t n = Ok a' /\
     cstr a' s (take (Z.to_nat (n - 1)) l) /\ only_at s (Z.to_nat n) a a') /\
  KString.strncpy a s b t n =
    Ok (take s a ++ take (Z.to_nat n) l ++ replicate (Z.to_nat n - length l) 0 ++ drop (s + Z.to_nat n) a).
Proof.
  intros Hl Hn Hs. split.
  - unfold KString.safestrcpy. replace (n <=? 0) with false by lia.
    replace (Z.to_nat n) with (S (Z.to_nat (n - 1))) in * by lia. by apply safestrcpy_loop_ok.
  - by apply strncpy_loop_ok.
Qed.

Lemma demo_cstr : cstr [104; 105; 106; 0] 0 [104; 105; 106].
Proof. split; [by exists []|]. repeat constructor; lia. Qed.

Lemma bounded_copies_stay_in_field_witness :
  KString.safestrcpy [7; 7; 7; 7] 0 [104; 105; 106; 0] 0 3 = Ok [104; 105; 0; 7] /\
  KString.strncpy [7; 7; 7; 7] 0 [104; 105; 106; 0] 0 3 = Ok [104; 105; 106; 7].
Proof.
  destruct (bounded_copies_stay_in_field [7; 7; 7; 7] 0 _ _ _ 3 demo_cstr) as [_ H]; [lia|simpl; lia|].
  split; [reflexivity|exact H].
Defined.
