(* ===== verification/SkipList.v ===== *)
(** * The run queue: a skip list of process nodes

    Models the skip list of [proc.c] (lines 12-198) at pointer level.  Every
    object of the list occupies a page of its own obtained from [kalloc], so
    the heap maps page addresses to typed objects: a node, the
    [struct skiplist], or the page used as array of headers.  The allocator is
    used through the interface [PageAlloc].  A page that comes from [kalloc]
    holds the fill bytes of [kfree]; a field that is never written keeps that
    value ([junk]).

    [struct proc *p] arguments are passed as the fields the code reads
    ([p->pid], [p->virtual_deadline]); the value the code assigns to
    [p->max_level] is returned. *)

From S2P Require Import Prelude Spinlock Kalloc Console.

(** ** Data *)

Record node := Node {
  n_pid : Z;
  n_vd : Z;        (* virtual_deadline *)
  n_prev : Z;
  n_next : Z;
  n_fwd : Z        (* forward: the node one level down *)
}.

Inductive obj :=
| ONode (n : node)
| OSkip (levels headers : Z)
| OArr (ws : list Z).

Record sst (K : Type) := Sst {
  heap : gmap Z obj;
  kmem : K;
  seed : Z;
  sout : list Z          (* what cprintf sent to the console *)
}.
Arguments Sst {K} _ _ _ _.
Arguments heap {K} _.
Arguments kmem {K} _.
Arguments seed {K} _.
Arguments sout {K} _.

Definition NULL : Z := 0.
Definition SKIPLIST_LEVELS : Z := 4.
Definition junk : Z := memset_word 1.
Definition junk_node : node := Node junk junk junk junk junk.

Section code.

Context {K : Type} `{!PageAlloc K}.

Abbreviation MS := (M (sst K)).

Definition set_heap (h : gmap Z obj) (s : sst K) : sst K := Sst h (kmem s) (seed s) (sout s).

Definition on_kmem {A} (c : M K A) : MS A :=
  zoom kmem (fun k s => Sst (heap s) k (seed s) (sout s)) c.

Definition load (a : Z) : MS obj := fun s =>
  match heap s !! a with Some o => Ok (o, s) | None => Fault end.

Definition load_node (a : Z) : MS node := fun s =>
  match heap s !! a with Some (ONode n) => Ok (n, s) | _ => Fault end.

Definition store (a : Z) (o : obj) : MS unit := fun s =>
  match heap s !! a with
  | Some _ => Ok (tt, set_heap (<[a := o]> (heap s)) s)
  | None => Fault
  end.

(** Assignment to one field of the node at [a]. *)
Definition set_pid (a v : Z) : MS unit :=
  let* n := load_node a in store a (ONode (Node v (n_vd n) (n_prev n) (n_next n) (n_fwd n))).

Definition set_vd (a v : Z) : MS unit :=
  let* n := load_node a in store a (ONode (Node (n_pid n) v (n_prev n) (n_next n) (n_fwd n))).

Definition set_prev (a v : Z) : MS unit :=
  let* n := load_node a in store a (ONode (Node (n_pid n) (n_vd n) v (n_next n) (n_fwd n))).

Definition set_next (a v : Z) : MS unit :=
  let* n := load_node a in store a (ONode (Node (n_pid n) (n_vd n) (n_prev n) v (n_fwd n))).

Definition set_fwd (a v : Z) : MS unit :=
  let* n := load_node a in store a (ONode (Node (n_pid n) (n_vd n) (n_prev n) (n_next n) v)).

(** A cast of the result of [kalloc()]: the page becomes an object of the given shape; a null
    answer designates no object. *)
Definition kalloc_as (o : obj) : MS Z :=
  let* a := on_kmem pa_alloc in
  (if a =? NULL then ret tt else modify (fun s => set_heap (<[a := o]> (heap s)) s)) ;;;
  ret a.

Definition kfree_obj (a : Z) : MS unit :=
  on_kmem (pa_free a) ;;;
  modify (fun s => set_heap (delete a (heap s)) s).

Definition print (fmt : string) (args : list carg) : MS unit := fun s =>
  rbind (cprintf (Some (codes fmt)) args)
        (fun o => Ok (tt, Sst (heap s) (kmem s) (seed s) (sout s ++ o))).

Definition putnl : MS unit :=
  modify (fun s => Sst (heap s) (kmem s) (seed s) (sout s ++ [NL])).

(** [skiplist->levels] and [skiplist->headers[i]]. *)
Definition get_levels (sl : Z) : MS Z :=
  let* o := load sl in match o with OSkip l _ => ret l | _ => fault end.

Definition get_header (sl i : Z) : MS Z :=
  let* o := load sl in
  match o with
  | OSkip _ ha =>
      let* o := load ha in
      match o with
      | OArr ws => if i <? 0 then fault
                   else match ws !! Z.to_nat i with Some a => ret a | None => fault end
      | _ => fault
      end
  | _ => fault
  end.

Definition set_header (sl i v : Z) : MS unit :=
  let* o := load sl in
  match o with
  | OSkip _ ha =>
      let* o := load ha in
      match o with
      | OArr ws => if i <? 0 then fault else store ha (OArr (<[Z.to_nat i := v]> ws))
      | _ => fault
      end
  | _ => fault
  end.

(** ** init_skiplist *)

Fixpoint init_headers (n : nat) (sl i : Z) : MS unit :=
  match n with
  | O => ret tt
  | S n' =>
      let* h := kalloc_as (ONode junk_node) in
      set_header sl i h ;;;
      set_pid h (-1) ;;;
      set_vd h (-1) ;;;
      set_next h NULL ;;;
      set_prev h NULL ;;;
      (if 0 <? i then let* g := get_header sl (i - 1) in set_fwd h g else ret tt) ;;;
      init_headers n' sl (i + 1)
  end.

Definition init_skiplist : MS Z :=
  let* sl := kalloc_as (OSkip junk junk) in
  store sl (OSkip SKIPLIST_LEVELS junk) ;;;
  let* ha := kalloc_as (OArr (page_fill 1)) in
  store sl (OSkip SKIPLIST_LEVELS ha) ;;;
  init_headers (Z.to_nat SKIPLIST_LEVELS) sl 0 ;;;
  ret sl.

(** ** insert_to_level *)

Definition insert_to_level (pid virtual_deadline prev_node forward : Z) : MS Z :=
  let* new_node := kalloc_as (ONode junk_node) in
  set_pid new_node pid ;;;
  set_vd new_node virtual_deadline ;;;
  let* p := load_node prev_node in
  let next_node := n_next p in
  set_next prev_node new_node ;;;
  set_prev new_node prev_node ;;;
  set_next new_node next_node ;;;
  set_fwd new_node forward ;;;
  (if negb (next_node =? NULL) then set_prev next_node new_node else ret tt) ;;;
  ret new_node.

(** ** random, randomize_max_level *)

(** The state update of [random]: shifts of a 32-bit [int], the right shift
    arithmetic. *)
Definition xorshift (s : Z) : Z :=
  let s := Z.lxor s (i32 (Z.shiftl s 17)) in
  let s := Z.lxor s (Z.shiftr s 7) in
  Z.lxor s (i32 (Z.shiftl s 5)).

Definition random (max : Z) : MS Z :=
  modify (fun s => Sst (heap s) (kmem s) (xorshift (seed s)) (sout s)) ;;;
  let* s := gets seed in
  ret (u32 (Z.rem s max)).

Fixpoint randomize_loop (fuel : nat) (lvl skiplist_max_level : Z) : MS Z :=
  match fuel with
  | O => nofuel
  | S n =>
      if lvl <=? skiplist_max_level then
        let* r := random 4 in
        let x := i32 r in
        if x =? 0 then randomize_loop n (lvl + 1) skiplist_max_level else ret lvl
      else ret lvl
  end.

Definition randomize_max_level (skiplist_max_level : Z) : MS Z :=
  randomize_loop (S (S (Z.to_nat skiplist_max_level))) 0 skiplist_max_level.

(** ** insert_node *)

(** [while (current_node->next != NULL && vd >= current_node->next->vd)].
    A walk along one level meets every object of the heap at most once. *)
Fixpoint walk_le (fuel : nat) (vd cur : Z) : MS Z :=
  match fuel with
  | O => nofuel
  | S n =>
      let* c := load_node cur in
      if n_next c =? NULL then ret cur
      else
        let* d := load_node (n_next c) in
        if n_vd d <=? vd then walk_le n vd (n_next c) else ret cur
  end.

Definition walk_fuel (s : sst K) : nat := S (size (heap s)).

(** [prev_nodes] is an uninitialised array: [None] until written. *)
Fixpoint find_prevs (n : nat) (vd max_level cur : Z) (prev_nodes : list (option Z))
  : MS (list (option Z)) :=
  match n with
  | O => ret prev_nodes
  | S current_level =>
      let* f := gets walk_fuel in
      let* cur := walk_le f vd cur in
      let prev_nodes :=
        if Z.of_nat current_level <=? max_level
        then <[current_level := Some cur]> prev_nodes else prev_nodes in
      let* c := load_node cur in
      find_prevs current_level vd max_level (n_fwd c) prev_nodes
  end.

(** [while (current_level <= p->max_level)], over the array. *)
Fixpoint insert_levels (pid vd : Z) (prev_nodes : list (option Z)) (forward : Z) : MS unit :=
  match prev_nodes with
  | [] => ret tt
  | None :: _ => fault
  | Some p :: prev_nodes' =>
      let* forward := insert_to_level pid vd p forward in
      insert_levels pid vd prev_nodes' forward
  end.

(** Returns the value assigned to [p->max_level]. *)
Definition insert_node (sl pid vd : Z) : MS Z :=
  let* levels := get_levels sl in
  let* max_level := randomize_max_level (levels - 1) in
  let* levels := get_levels sl in
  let* current_node := get_header sl (levels - 1) in
  let* prev_nodes := find_prevs (Z.to_nat levels) vd max_level current_node
                       (replicate (Z.to_nat (max_level + 1)) None) in
  insert_levels pid vd prev_nodes NULL ;;;
  print "inserted|[%d]%d" [AInt pid; AInt max_level] ;;;
  putnl ;;;
  ret max_level.

(** ** delete_from_levels, delete_node *)

Fixpoint delete_from_levels (fuel : nat) (current_node : Z) : MS unit :=
  match fuel with
  | O => nofuel
  | S n =>
      if current_node =? NULL then ret tt
      else
        let* c := load_node current_node in
        let next_to_delete := n_fwd c in
        let next := n_next c in
        let prev := n_prev c in
        set_next prev next ;;;
        (if negb (next =? NULL) then set_prev next prev else ret tt) ;;;
        kfree_obj current_node ;;;
        delete_from_levels n next_to_delete
  end.

(** The inner loop that moves right. *)
Fixpoint delete_walk (fuel : nat) (pid vd cur : Z) : MS Z :=
  match fuel with
  | O => nofuel
  | S n =>
      let* c := load_node cur in
      if (n_vd c <? vd) && negb (n_pid c =? pid) then
        if (vd <? n_vd c) || (n_next c =? NULL) then ret cur
        else delete_walk n pid vd (n_next c)
      else ret cur
  end.

(** [while (current_node->virtual_deadline >= vd) current_node = prev;] *)
Fixpoint delete_back (fuel : nat) (vd cur : Z) : MS Z :=
  match fuel with
  | O => nofuel
  | S n =>
      let* c := load_node cur in
      if vd <=? n_vd c then delete_back n vd (n_prev c) else ret cur
  end.

(** The loop over levels: [Some (node, level)] when it breaks on the node to
    delete, [None] when [current_level] reaches -1. *)
Fixpoint delete_search (n : nat) (pid vd cur : Z) : MS (option (Z * Z)) :=
  match n with
  | O => ret None
  | S current_level =>
      let* f := gets walk_fuel in
      let* cur := delete_walk f pid vd cur in
      let* c := load_node cur in
      if (n_pid c =? pid) && (n_vd c =? vd) then ret (Some (cur, Z.of_nat current_level))
      else
        let* cur := delete_back f vd cur in
        let* c := load_node cur in
        delete_search current_level pid vd (n_fwd c)
  end.

(** Returns the value assigned to [p->max_level]. *)
Definition delete_node (sl pid vd : Z) : MS Z :=
  let* levels := get_levels sl in
  let* current_node := get_header sl (levels - 1) in
  let* found := delete_search (Z.to_nat levels) pid vd current_node in
  match found with
  | Some (current_node, current_level) =>
      let* f := gets walk_fuel in
      delete_from_levels f current_node ;;;
      print "removed|[%d]%d" [AInt pid; AInt current_level] ;;;
      putnl
  | None => ret tt
  end ;;;
  ret (-1).

(** ** get_minimum, print_skiplist *)

Definition get_minimum (sl : Z) : MS Z :=
  let* h := get_header sl 0 in
  let* c := load_node h in
  if negb (n_next c =? NULL) then
    let* d := load_node (n_next c) in ret (n_pid d)
  else ret (-69).

Fixpoint print_level (fuel : nat) (cur : Z) : MS unit :=
  match fuel with
  | O => nofuel
  | S n =>
      if cur =? NULL then ret tt
      else
        let* c := load_node cur in
        print "%d(pid:%d) -> " [AInt (n_vd c); AInt (n_pid c)] ;;;
        print_level n (n_next c)
  end.

Fixpoint print_levels (n : nat) (sl : Z) : MS unit :=
  match n with
  | O => ret tt
  | S current_level =>
      let* h := get_header sl (Z.of_nat current_level) in
      print "level %d: " [AInt (Z.of_nat current_level)] ;;;
      let* f := gets walk_fuel in
      print_level (S f) h ;;;
      putnl ;;;
      print_levels current_level sl
  end.

Definition print_skiplist (sl : Z) : MS unit :=
  let* levels := get_levels sl in
  print_levels (Z.to_nat levels) sl.

End code.
