(* ===== verification/SkipListRep.v ===== *)
(** * Representation of the run queue in memory

    A level of the skip list is a doubly linked list ([dseg]) of cells; the
    list as a whole is a sequence of towers, one per queued process, each with
    one cell per level.  [sl_rep s sl H T free] says that in state [s] the
    [struct skiplist] at [sl] with header nodes [H] holds the towers [T], and
    that the allocator's free pages are [free]. *)

From S2P Require Import Prelude Spinlock Kalloc Console SkipList.

(** ** Doubly linked segments *)

(** A node without its links to the neighbours. *)
Record cell := Cell { c_addr : Z; c_pid : Z; c_vd : Z; c_fwd : Z }.

Definition cnode (c : cell) (p n : Z) : node := Node (c_pid c) (c_vd c) p n (c_fwd c).

Definition first_addr (cs : list cell) (q : Z) : Z :=
  match cs with [] => q | c :: _ => c_addr c end.

Fixpoint last_addr (p : Z) (cs : list cell) : Z :=
  match cs with [] => p | c :: cs' => last_addr (c_addr c) cs' end.

(** [cs] are linked in this order; the first one's [prev] is [p], the last
    one's [next] is [q]. *)
Fixpoint dseg (h : gmap Z obj) (p : Z) (cs : list cell) (q : Z) : Prop :=
  match cs with
  | [] => True
  | c :: cs' =>
      h !! c_addr c = Some (ONode (cnode c p (first_addr cs' q))) /\ dseg h (c_addr c) cs' q
  end.

Lemma first_addr_app l1 l2 q : first_addr (l1 ++ l2) q = first_addr l1 (first_addr l2 q).
Proof. by destruct l1. Qed.

Lemma last_addr_app p l1 l2 : last_addr p (l1 ++ l2) = last_addr (last_addr p l1) l2.
Proof. revert p. induction l1; intros; simpl; auto. Qed.

Lemma last_addr_snoc p l c : last_addr p (l ++ [c]) = c_addr c.
Proof. by rewrite last_addr_app. Qed.

Lemma dseg_app h p l1 l2 q :
  dseg h p (l1 ++ l2) q <-> dseg h p l1 (first_addr l2 q) /\ dseg h (last_addr p l1) l2 q.
Proof.
  revert p. induction l1 as [|c l1 IH]; intros p; simpl; [tauto|].
  rewrite IH, first_addr_app. tauto.
Qed.

(** A segment depends on the heap at its own addresses only. *)
Lemma dseg_frame h h' p cs q :
  dseg h p cs q -> (forall c, c ∈ cs -> h' !! c_addr c = h !! c_addr c) -> dseg h' p cs q.
Proof.
  revert p. induction cs as [|c cs IH]; intros p; simpl; [done|].
  intros [Hc Hs] Hf. split.
  - rewrite Hf; [done|]. left.
  - apply IH; [done|]. intros d Hd. apply Hf. by right.
Qed.

Lemma dseg_lookup h p l1 c l2 q :
  dseg h p (l1 ++ c :: l2) q ->
  h !! c_addr c = Some (ONode (cnode c (last_addr p l1) (first_addr l2 q))).
Proof. rewrite dseg_app. simpl. tauto. Qed.

Lemma dseg_elem h p cs q c : dseg h p cs q -> c ∈ cs -> is_Some (h !! c_addr c).
Proof.
  intros Hs (l1 & l2 & ->)%list_elem_of_split. apply dseg_lookup in Hs. eauto.
Qed.

(** ** Towers *)

(** A queued process: its key and the addresses of its nodes, bottom up. *)
Record tower := Tower { t_pid : Z; t_vd : Z; t_addrs : list Z }.

Definition height (t : tower) : nat := length (t_addrs t).

Definition tcell (i : nat) (t : tower) : option cell :=
  a ← t_addrs t !! i;
  Some (Cell a (t_pid t) (t_vd t)
          (match i with O => NULL | S j => default NULL (t_addrs t !! j) end)).

Definition hcell (H : list Z) (i : nat) : cell :=
  Cell (nth i H NULL) (-1) (-1) (match i with O => junk | S j => nth j H NULL end).

(** The cells of level [i], header first. *)
Definition tcells (i : nat) (T : list tower) : list cell := omap (tcell i) T.

Definition level (H : list Z) (T : list tower) (i : nat) : list cell := hcell H i :: tcells i T.

Definition all_addrs (H : list Z) (T : list tower) : list Z := H ++ concat (map t_addrs T).

Definition vd_le (a b : tower) : Prop := t_vd a <= t_vd b.

Lemma tcells_app i T1 T2 : tcells i (T1 ++ T2) = tcells i T1 ++ tcells i T2.
Proof. apply omap_app. Qed.

Lemma level_app H T1 T2 i : level H (T1 ++ T2) i = level H T1 i ++ tcells i T2.
Proof. unfold level. by rewrite tcells_app. Qed.

Lemma tcell_Some i t c :
  tcell i t = Some c ->
  t_addrs t !! i = Some (c_addr c) /\ c_pid c = t_pid t /\ c_vd c = t_vd t.
Proof.
  unfold tcell. destruct (t_addrs t !! i) as [a|] eqn:E; simpl; intros [= <-]. done.
Qed.

Lemma tcell_None i t : (height t <= i)%nat -> tcell i t = None.
Proof. intros Hh. unfold tcell. by rewrite lookup_ge_None_2. Qed.

Lemma tcell_fwd i t c :
  tcell (S i) t = Some c -> t_addrs t !! i = Some (c_fwd c).
Proof.
  unfold tcell. destruct (t_addrs t !! S i) as [a|] eqn:E; simpl; intros [= <-]. simpl.
  apply lookup_lt_Some in E. destruct (t_addrs t !! i) eqn:E2; [done|].
  apply lookup_ge_None in E2. lia.
Qed.

Lemma tcells_elem i T c : c ∈ tcells i T -> exists t, t ∈ T /\ tcell i t = Some c.
Proof. unfold tcells. rewrite list_elem_of_omap. naive_solver. Qed.

Lemma tcells_elem_vd i T c (P : Z -> Prop) :
  Forall (fun t => P (t_vd t)) T -> c ∈ tcells i T -> P (c_vd c).
Proof.
  intros HF (t & Ht & Hc)%tcells_elem. apply tcell_Some in Hc as (_ & _ & ->).
  rewrite Forall_forall in HF. auto.
Qed.

Lemma concat_lookup_inj {A} (ls : list (list A)) l l' i j x :
  NoDup (concat ls) -> l ∈ ls -> l' ∈ ls ->
  l !! i = Some x -> l' !! j = Some x -> i = j.
Proof.
  induction ls as [|l0 ls IH]; intros Hn Hl Hl' Hi Hj; [by apply elem_of_nil in Hl|].
  simpl in Hn. apply NoDup_app in Hn as (Hn0 & Hd & Hn).
  assert (Hin : forall m k, m ∈ ls -> m !! k = Some x -> x ∈ concat ls).
  { intros m k Hm Hk. apply list_elem_of_In, in_concat. exists m.
    rewrite <- !list_elem_of_In. split; [done|]. by eapply list_elem_of_lookup_2. }
  apply elem_of_cons in Hl as [-> | Hl]; apply elem_of_cons in Hl' as [-> | Hl'].
  - exact (NoDup_lookup _ _ _ _ Hn0 Hi Hj).
  - exfalso. eapply Hd; [by eapply list_elem_of_lookup_2|by eapply Hin].
  - exfalso. eapply Hd; [eapply list_elem_of_lookup_2, Hj|by eapply Hin].
  - eauto.
Qed.

Lemma level_addr H T i c :
  c ∈ level H T i -> (i < length H)%nat ->
  H !! i = Some (c_addr c) \/ exists t, t ∈ T /\ t_addrs t !! i = Some (c_addr c).
Proof.
  intros [-> | Hc]%elem_of_cons Hi.
  - left. simpl. rewrite nth_lookup. by destruct (lookup_lt_is_Some_2 _ _ Hi) as [x ->].
  - right. apply tcells_elem in Hc as (t & Ht & Hc). exists t. split; [done|].
    by apply tcell_Some in Hc as [Hc _].
Qed.

Lemma all_addrs_tower T t i a :
  t ∈ T -> t_addrs t !! i = Some a -> a ∈ concat (map t_addrs T).
Proof.
  intros Ht Ha. apply list_elem_of_In, in_concat. exists (t_addrs t).
  split; [by apply in_map, list_elem_of_In|]. apply list_elem_of_In.
  by eapply list_elem_of_lookup_2.
Qed.

Lemma level_all_addrs H T i c :
  c ∈ level H T i -> (i < length H)%nat -> c_addr c ∈ all_addrs H T.
Proof.
  intros Hc Hi. unfold all_addrs. apply elem_of_app.
  destruct (level_addr _ _ _ _ Hc Hi) as [Ha|(t & Ht & Ha)].
  - left. by eapply list_elem_of_lookup_2.
  - right. by eapply all_addrs_tower.
Qed.

(** Every node address belongs to one level only. *)
Lemma level_disjoint H T i j c d :
  NoDup (all_addrs H T) -> c ∈ level H T i -> d ∈ level H T j ->
  (i < length H)%nat -> (j < length H)%nat -> i <> j -> c_addr c <> c_addr d.
Proof.
  intros Hn Hc Hd Hi Hj Hne E. apply NoDup_app in Hn as (HnH & Hdisj & HnT).
  destruct (level_addr _ _ _ _ Hc Hi) as [Ha|(t & Ht & Ha)];
    destruct (level_addr _ _ _ _ Hd Hj) as [Ha'|(t' & Ht' & Ha')];
    rewrite <- E in Ha'; apply Hne.
  - exact (NoDup_lookup _ _ _ _ HnH Ha Ha').
  - exfalso. eapply Hdisj; [by eapply list_elem_of_lookup_2|by eapply all_addrs_tower].
  - exfalso. eapply Hdisj; [eapply list_elem_of_lookup_2, Ha'|by eapply all_addrs_tower].
  - eapply (concat_lookup_inj (map t_addrs T) (t_addrs t) (t_addrs t')); try done.
    + apply list_elem_of_In, in_map, list_elem_of_In, Ht.
    + apply list_elem_of_In, in_map, list_elem_of_In, Ht'.
Qed.

(** Within a level, addresses are distinct. *)
Lemma tcells_nodup T i :
  NoDup (concat (map t_addrs T)) -> NoDup (c_addr <$> tcells i T).
Proof.
  induction T as [|t T IH]; simpl; [intros; apply NoDup_nil_2|].
  intros (Hn0 & Hd & Hn)%NoDup_app. unfold tcells; simpl. fold (tcells i T).
  destruct (tcell i t) as [c|] eqn:E; simpl; [|auto].
  apply NoDup_cons. split; [|auto].
  intros (d & Heq & Hin)%list_elem_of_fmap.
  apply tcells_elem in Hin as (t' & Ht' & Hd').
  apply tcell_Some in E as (Ha & _). apply tcell_Some in Hd' as (Ha' & _).
  rewrite Heq in Ha. eapply Hd; [by eapply list_elem_of_lookup_2|].
  by eapply all_addrs_tower.
Qed.

Lemma level_nodup H T i :
  NoDup (all_addrs H T) -> (i < length H)%nat -> NoDup (c_addr <$> level H T i).
Proof.
  intros (HnH & Hd & HnT)%NoDup_app Hi. unfold level; simpl.
  apply NoDup_cons. split; [|by apply tcells_nodup].
  intros (c & Heq & Hc)%list_elem_of_fmap.
  destruct (lookup_lt_is_Some_2 _ _ Hi) as [h Hh].
  rewrite (nth_lookup_Some _ _ _ _ Hh) in Heq.
  apply tcells_elem in Hc as (t & Ht & Hc). apply tcell_Some in Hc as (Ha & _).
  rewrite <- Heq in Ha. eapply Hd; [by eapply list_elem_of_lookup_2|].
  by eapply all_addrs_tower.
Qed.

(** A segment is no longer than the heap is large. *)
Lemma dseg_size h p cs q :
  dseg h p cs q -> NoDup (c_addr <$> cs) -> (length cs <= size h)%nat.
Proof.
  intros Hs Hn. rewrite <- (length_fmap c_addr), <- (size_list_to_set (C := gset Z)) by done.
  rewrite <- size_dom. apply subseteq_size. intros a Ha%elem_of_list_to_set.
  apply list_elem_of_fmap in Ha as (c & -> & Hc). apply elem_of_dom.
  by eapply dseg_elem.
Qed.

(** ** The representation predicate *)

Section rep.

Context {K : Type} `{!PageAlloc K}.

Record sl_rep (s : sst K) (sl : Z) (H : list Z) (T : list tower) (free : list Z) : Prop := {
  r_len : length H = 4%nat;
  r_struct : exists ha ws, heap s !! sl = Some (OSkip SKIPLIST_LEVELS ha) /\
    heap s !! ha = Some (OArr ws) /\ take 4 ws = H;
  r_dll : forall i, (i < 4)%nat -> dseg (heap s) NULL (level H T i) NULL;
  r_nodup : NoDup (all_addrs H T);
  r_heights : Forall (fun t => 1 <= height t <= 4)%nat T;
  r_sorted : StronglySorted vd_le T;
  r_null : heap s !! NULL = None;
  r_alloc : pa_rep (kmem s) free;
  r_fresh : forall a, a ∈ free -> heap s !! a = None;
  r_valid : Forall (fun t => Forall pa_valid (t_addrs t)) T
}.

(** The queue as its users see it: pid and deadline of each queued process. *)
Definition entries (T : list tower) : list (Z * Z) := map (fun t => (t_pid t, t_vd t)) T.

Lemma r_node_object s sl H T free a :
  sl_rep s sl H T free -> a ∈ all_addrs H T -> exists n, heap s !! a = Some (ONode n).
Proof.
  intros Hr Ha. destruct Hr as [Hlen _ Hdll _ Hh _ _ _ _ _].
  assert (Hin : exists i c, (i < 4)%nat /\ c ∈ level H T i /\ c_addr c = a).
  { unfold all_addrs in Ha. apply elem_of_app in Ha as [Ha|Ha].
    - apply list_elem_of_lookup in Ha as [i Hi]. exists i, (hcell H i).
      split; [apply lookup_lt_Some in Hi; lia|]. split; [left|].
      simpl. by apply nth_lookup_Some.
    - apply list_elem_of_In, in_concat in Ha as (l & Hl & Ha).
      apply in_map_iff in Hl as (t & <- & Ht). apply list_elem_of_In in Ha, Ht.
      apply list_elem_of_lookup in Ha as [i Hi].
      exists i. rewrite Forall_forall in Hh. pose proof (Hh _ Ht) as Hht.
      assert (exists c, tcell i t = Some c /\ c_addr c = a) as (c & Hc & Hca).
      { unfold tcell. rewrite Hi. simpl. eauto. }
      exists c. apply lookup_lt_Some in Hi. unfold height in Hht.
      split_and!; [lia| |done]. right. apply list_elem_of_omap. eauto. }
  destruct Hin as (i & c & Hi & Hc & <-). apply list_elem_of_split in Hc as (l1 & l2 & El).
  specialize (Hdll i Hi). rewrite El in Hdll. apply dseg_lookup in Hdll. eauto.
Qed.

Lemma get_levels_ok s sl H T free :
  sl_rep s sl H T free -> get_levels sl s = Ok (SKIPLIST_LEVELS, s).
Proof.
  intros Hr. destruct Hr as [_ (ha & ws & Hs & _) _ _ _ _ _ _ _ _].
  unfold get_levels, bind, load. by rewrite Hs.
Qed.

Lemma get_header_ok s sl H T free i :
  sl_rep s sl H T free -> 0 <= i < 4 -> get_header sl i s = Ok (nth (Z.to_nat i) H NULL, s).
Proof.
  intros Hr Hi. destruct Hr as [Hlen (ha & ws & Hs & Ha & Ht) _ _ _ _ _ _ _ _].
  unfold get_header, bind, load. rewrite Hs. simpl. rewrite Ha. simpl.
  replace (i <? 0) with false by lia.
  assert (Hlk : ws !! Z.to_nat i = Some (nth (Z.to_nat i) H NULL)).
  { assert (Hlt : (Z.to_nat i < length H)%nat) by lia.
    destruct (lookup_lt_is_Some_2 _ _ Hlt) as [x Hx].
    rewrite (nth_lookup_Some _ _ _ _ Hx). rewrite <- Ht in Hx.
    by apply lookup_take_Some in Hx as [Hx _]. }
  by rewrite Hlk.
Qed.

(** Heaps agreeing everywhere but on the nodes of the list keep the struct. *)
Lemma load_node_ok (s : sst K) a n : heap s !! a = Some (ONode n) -> load_node a s = Ok (n, s).
Proof. intros E. unfold load_node. by rewrite E. Qed.

End rep.

(** Run the next field assignment, whose node is found in the heap. *)
Tactic Notation "assign" uconstr(lem) :=
  erewrite bind_Ok by (eapply lem; cbn [heap set_heap]; by simplify_map_eq);
  cbn [heap set_heap].
