(* ===== verification/SkipListInsert.v ===== *)
(** * Insertion into the run queue

    [insert_node] implements insertion into a list sorted by virtual deadline,
    behind the entries with the same deadline. *)

From S2P Require Import Prelude Spinlock Kalloc Console SkipList SkipListRep.

Section insert.

Context {K : Type} `{!PageAlloc K} `{!PageAllocLaws K}.

Implicit Types (s : sst K) (h : gmap Z obj).

(** ** Single field assignments *)

Lemma store_ok s a o o' :
  heap s !! a = Some o' -> store a o s = Ok (tt, set_heap (<[a := o]> (heap s)) s).
Proof. intros E. unfold store. by rewrite E. Qed.

Definition upd_pid (v : Z) (n : node) := Node v (n_vd n) (n_prev n) (n_next n) (n_fwd n).
Definition upd_vd (v : Z) (n : node) := Node (n_pid n) v (n_prev n) (n_next n) (n_fwd n).
Definition upd_prev (v : Z) (n : node) := Node (n_pid n) (n_vd n) v (n_next n) (n_fwd n).
Definition upd_next (v : Z) (n : node) := Node (n_pid n) (n_vd n) (n_prev n) v (n_fwd n).
Definition upd_fwd (v : Z) (n : node) := Node (n_pid n) (n_vd n) (n_prev n) (n_next n) v.

Lemma set_field_ok s a n (f : node -> node) :
  heap s !! a = Some (ONode n) ->
  bind (load_node a) (fun m => store a (ONode (f m))) s =
  Ok (tt, set_heap (<[a := ONode (f n)]> (heap s)) s).
Proof.
  intros E. rewrite (bind_Ok _ _ _ _ _ (load_node_ok _ _ _ E)). by eapply store_ok.
Qed.

Lemma set_pid_ok s a n v : heap s !! a = Some (ONode n) ->
  set_pid a v s = Ok (tt, set_heap (<[a := ONode (upd_pid v n)]> (heap s)) s).
Proof. apply (set_field_ok s a n (upd_pid v)). Qed.

Lemma set_vd_ok s a n v : heap s !! a = Some (ONode n) ->
  set_vd a v s = Ok (tt, set_heap (<[a := ONode (upd_vd v n)]> (heap s)) s).
Proof. apply (set_field_ok s a n (upd_vd v)). Qed.

Lemma set_prev_ok s a n v : heap s !! a = Some (ONode n) ->
  set_prev a v s = Ok (tt, set_heap (<[a := ONode (upd_prev v n)]> (heap s)) s).
Proof. apply (set_field_ok s a n (upd_prev v)). Qed.

Lemma set_next_ok s a n v : heap s !! a = Some (ONode n) ->
  set_next a v s = Ok (tt, set_heap (<[a := ONode (upd_next v n)]> (heap s)) s).
Proof. apply (set_field_ok s a n (upd_next v)). Qed.

Lemma set_fwd_ok s a n v : heap s !! a = Some (ONode n) ->
  set_fwd a v s = Ok (tt, set_heap (<[a := ONode (upd_fwd v n)]> (heap s)) s).
Proof. apply (set_field_ok s a n (upd_fwd v)). Qed.

Lemma pa_rep_nonnull (k : K) l a : pa_rep k l -> a ∈ l -> a <> NULL.
Proof.
  intros Hp Ha. apply pa_rep_valid in Hp. rewrite Forall_forall in Hp.
  by apply pa_valid_nonnull, Hp.
Qed.

Lemma kalloc_as_ok s o a free :
  pa_rep (kmem s) (a :: free) ->
  exists k, kalloc_as o s = Ok (a, Sst (<[a := o]> (heap s)) k (seed s) (sout s)) /\
    pa_rep k free /\ hw_sim (pa_hw (kmem s)) (pa_hw k) /\ a <> NULL.
Proof.
  intros Hp. destruct (pa_alloc_some _ _ _ Hp) as (k & Ha & Hk & Hsim).
  assert (Hv : a <> NULL) by (apply (pa_rep_nonnull _ _ _ Hp); left).
  exists k. split_and!; try done. unfold kalloc_as, on_kmem.
  erewrite bind_Ok by (by apply zoom_Ok). simpl.
  by replace (a =? NULL) with false by lia.
Qed.

(** ** Walking a level *)

Lemma dseg_nonnull h p cs q c : h !! NULL = None -> dseg h p cs q -> c ∈ cs -> c_addr c <> NULL.
Proof. intros Hn Hs Hc E. destruct (dseg_elem _ _ _ _ _ Hs Hc) as [o Ho]. congruence. Qed.

Lemma walk_le_ok s vd b : forall l1 c d fuel,
  dseg (heap s) NULL (l1 ++ c :: b ++ d) NULL -> heap s !! NULL = None ->
  Forall (fun x => c_vd x <= vd) b ->
  match d with [] => True | x :: _ => vd < c_vd x end ->
  (length b < fuel)%nat ->
  walk_le fuel vd (c_addr c) s = Ok (last_addr (c_addr c) b, s).
Proof.
  induction b as [|x b IH]; intros l1 c d [|fuel] Hs Hnull Hb Hd Hf; try (simpl in Hf; lia);
    simpl; rewrite (bind_Ok _ _ _ _ _ (load_node_ok _ _ _ (dseg_lookup _ _ _ _ _ _ Hs))); simpl.
  - destruct d as [|x d]; simpl; [done|].
    assert (Hx : c_addr x <> NULL) by (eapply dseg_nonnull; [done|done|set_solver]).
    replace (c_addr x =? NULL) with false by lia.
    simpl in Hs. rewrite (cons_middle c l1 (x :: d)), app_assoc in Hs. apply dseg_lookup, load_node_ok in Hs.
    rewrite (bind_Ok _ _ _ _ _ Hs). simpl. by replace (c_vd x <=? vd) with false by lia.
  - apply Forall_cons in Hb as [Hx Hb].
    assert (Hn : c_addr x <> NULL) by (eapply dseg_nonnull; [done|done|set_solver]).
    replace (c_addr x =? NULL) with false by lia.
    simpl in Hs. rewrite (cons_middle c l1), app_assoc in Hs.
    pose proof (load_node_ok _ _ _ (dseg_lookup _ _ _ _ _ _ Hs)) as Hlx.
    rewrite (bind_Ok _ _ _ _ _ Hlx). simpl. replace (c_vd x <=? vd) with true by lia.
    apply (IH (l1 ++ [c]) x d); try done. simpl in Hf. lia.
Qed.

Lemma level_fwd H T i c :
  c ∈ level H T (S i) -> exists d, d ∈ level H T i /\ c_addr d = c_fwd c.
Proof.
  intros [-> | Hc]%elem_of_cons.
  - exists (hcell H i). split; [left|done].
  - apply tcells_elem in Hc as (t & Ht & Hc). pose proof (tcell_fwd _ _ _ Hc) as Hf.
    assert (exists d, tcell i t = Some d /\ c_addr d = c_fwd c) as (d & Hd & Ha).
    { unfold tcell. rewrite Hf. simpl. eauto. }
    exists d. split; [|done]. right. apply list_elem_of_omap. eauto.
Qed.

Lemma level_snoc H T i : exists l c, level H T i = l ++ [c].
Proof.
  destruct (List.exists_last (l := level H T i)) as (l & c & E); [done|]. eauto.
Qed.

(** The node after which an entry of deadline [vd] goes in level [i]. *)
Definition prev_addr (H : list Z) (T1 : list tower) (i : nat) : Z := last_addr NULL (level H T1 i).

Section search.

Context (s : sst K) (H : list Z) (T1 T2 : list tower) (vd : Z).
Hypothesis Hdll : forall i, (i < 4)%nat -> dseg (heap s) NULL (level H (T1 ++ T2) i) NULL.
Hypothesis Hnull : heap s !! NULL = None.
Hypothesis Hlen : length H = 4%nat.
Hypothesis Hnodup : NoDup (all_addrs H (T1 ++ T2)).
Hypothesis Hle : Forall (fun t => t_vd t <= vd) T1.
Hypothesis Hgt : Forall (fun t => vd < t_vd t) T2.

Lemma level_length_fuel i :
  (i < 4)%nat -> (length (level H (T1 ++ T2) i) < walk_fuel s)%nat.
Proof.
  intros Hi. unfold walk_fuel. apply Nat.lt_succ_r.
  eapply dseg_size; [by apply Hdll|]. apply level_nodup; [done|lia].
Qed.

Lemma walk_level_ok i c :
  (i < 4)%nat -> c ∈ level H T1 i ->
  walk_le (walk_fuel s) vd (c_addr c) s = Ok (prev_addr H T1 i, s).
Proof.
  intros Hi Hc. pose proof (level_length_fuel i Hi) as Hfuel. pose proof (Hdll i Hi) as Hs.
  rewrite level_app in Hs, Hfuel.
  apply list_elem_of_split in Hc as (l1 & b & El). unfold prev_addr.
  rewrite El in Hs, Hfuel |- *. rewrite last_addr_app. cbn [last_addr].
  rewrite <- app_assoc in Hs. simpl in Hs.
  apply (walk_le_ok s vd b l1 c (tcells i T2)); try done.
  - apply Forall_forall. intros x Hx.
    apply (tcells_elem_vd i T1 x (fun v => v <= vd)); [done|].
    destruct l1 as [|y l1]; unfold level in El; simplify_eq/=; [done|].
    rewrite H1. set_solver.
  - destruct (tcells i T2) as [|x l] eqn:E; [done|].
    apply (tcells_elem_vd i T2 x (fun v => vd < v)); [done|]. rewrite E. left.
  - rewrite !length_app in Hfuel. simpl in Hfuel. lia.
Qed.

Fixpoint fill (n : nat) (ml : Z) (prevs : list (option Z)) : list (option Z) :=
  match n with
  | O => prevs
  | S l => fill l ml (if Z.of_nat l <=? ml then <[l := Some (prev_addr H T1 l)]> prevs else prevs)
  end.

Lemma find_prevs_ok ml n : forall cur prevs,
  (n <= 4)%nat -> (forall i, n = S i -> exists c, c ∈ level H T1 i /\ c_addr c = cur) ->
  find_prevs n vd ml cur prevs s = Ok (fill n ml prevs, s).
Proof.
  induction n as [|i IH]; intros cur prevs Hn Hcur; [done|]. simpl.
  destruct (Hcur i eq_refl) as (c & Hc & <-). step.
  rewrite (bind_Ok _ _ _ _ _ (walk_level_ok i c ltac:(lia) Hc)).
  destruct (level_snoc H T1 i) as (l & x & El).
  assert (Hx : prev_addr H T1 i = c_addr x) by (unfold prev_addr; by rewrite El, last_addr_snoc).
  pose proof (Hdll i ltac:(lia)) as Hs. rewrite level_app, El, <- app_assoc in Hs.
  rewrite Hx. rewrite (bind_Ok _ _ _ _ _ (load_node_ok _ _ _ (dseg_lookup _ _ _ _ _ _ Hs))). simpl.
  rewrite <- Hx. apply IH; [lia|]. intros j ->.
  destruct (level_fwd H T1 j x) as (d & Hd & Hda); [rewrite El; set_solver|]. eauto.
Qed.

Lemma fill_lookup n ml prevs i :
  fill n ml prevs !! i =
  if bool_decide ((i < n)%nat /\ Z.of_nat i <= ml /\ (i < length prevs)%nat)
  then Some (Some (prev_addr H T1 i)) else prevs !! i.
Proof using Type. clear Hlen Hle Hgt.
  revert prevs. induction n as [|l IH]; intros prevs; cbn [fill].
  - rewrite bool_decide_false by lia. done.
  - rewrite IH. destruct (Z.leb_spec (Z.of_nat l) ml) as [Hl|Hl].
    + rewrite length_insert. destruct (decide (i = l)) as [-> |Hne].
      * rewrite bool_decide_false by lia. case_bool_decide.
        -- rewrite list_lookup_insert_eq by lia. done.
        -- rewrite list_insert_ge by lia. done.
      * rewrite list_lookup_insert_ne by done.
        case_bool_decide; case_bool_decide; try done; lia.
    + case_bool_decide; case_bool_decide; try done; lia.
Qed.

(** The array after the search, when it has no entry above the top level. *)
Lemma fill_prevs m :
  (m <= 3)%nat ->
  fill 4 (Z.of_nat m) (replicate (S m) None) = (fun i => Some (prev_addr H T1 i)) <$> seq 0 (S m).
Proof using Type. clear Hlen Hle Hgt.
  intros Hm. apply list_eq. intros i. rewrite fill_lookup, length_replicate, list_lookup_fmap.
  case_bool_decide as Hi.
  - rewrite lookup_seq_lt by lia. done.
  - destruct (decide (i < S m)%nat) as [Hlt|Hge]; [lia|].
    rewrite (lookup_ge_None_2 (replicate _ _)) by (rewrite length_replicate; lia).
    rewrite lookup_seq_ge by lia. done.
Qed.

(** When the drawn level is one above the top, its entry is never written. *)
Lemma fill_prevs_over :
  fill 4 (Z.of_nat 4) (replicate 5 None) =
  ((fun i => Some (prev_addr H T1 i)) <$> seq 0 4) ++ [None].
Proof using Type. clear Hlen Hle Hgt. done. Qed.

Lemma fill_prevs_drop m k :
  (k < S m `min` 4)%nat ->
  drop k (fill 4 (Z.of_nat m) (replicate (S m) None)) =
  Some (prev_addr H T1 k) :: drop (S k) (fill 4 (Z.of_nat m) (replicate (S m) None)).
Proof using Type. clear Hlen Hle Hgt.
  intros Hk. apply drop_S. rewrite fill_lookup, length_replicate.
  by rewrite bool_decide_true by lia.
Qed.

Lemma fill_prevs_prefix m k :
  (k <= S m `min` 4)%nat ->
  ((fun i => Some (prev_addr H T1 i)) <$> seq 0 k) ++
    drop k (fill 4 (Z.of_nat m) (replicate (S m) None)) =
  fill 4 (Z.of_nat m) (replicate (S m) None).
Proof using Type. clear Hlen Hle Hgt.
  intros Hk. induction k as [|k IH]; [done|].
  specialize (IH ltac:(lia)). rewrite (fill_prevs_drop m k) in IH by lia.
  rewrite seq_S, fmap_app, <- app_assoc. exact IH.
Qed.

End search.

(** ** Linking a new node *)

Lemma insert_to_level_run s pid vd fwd a free l1 c l2 :
  pa_rep (kmem s) (a :: free) -> heap s !! a = None -> heap s !! NULL = None ->
  dseg (heap s) NULL (l1 ++ c :: l2) NULL -> NoDup (c_addr <$> l1 ++ c :: l2) ->
  exists s', insert_to_level pid vd (c_addr c) fwd s = Ok (a, s') /\
    pa_rep (kmem s') free /\ hw_sim (pa_hw (kmem s)) (pa_hw (kmem s')) /\
    seed s' = seed s /\ sout s' = sout s /\
    heap s' !! a = Some (ONode (Node pid vd (c_addr c) (first_addr l2 NULL) fwd)) /\
    heap s' !! c_addr c = Some (ONode (cnode c (last_addr NULL l1) a)) /\
    (forall d l2', l2 = d :: l2' ->
       heap s' !! c_addr d = Some (ONode (cnode d a (first_addr l2' NULL)))) /\
    (forall x, x <> a -> x <> c_addr c -> x <> first_addr l2 NULL -> heap s' !! x = heap s !! x) /\
    heap s' !! NULL = None.
Proof.
  intros Hp Ha Hnull Hs Hn.
  pose proof (dseg_lookup _ _ _ _ _ _ Hs) as Hc.
  assert (Hc0 : c_addr c <> NULL) by congruence.
  assert (Hac : a <> c_addr c) by congruence.
  destruct (kalloc_as_ok s (ONode junk_node) a free Hp) as (k & Hal & Hk & Hsim & Hne).
  unfold insert_to_level. rewrite (bind_Ok _ _ _ _ _ Hal). cbn [heap].
  assign set_pid_ok. assign set_vd_ok.
  erewrite bind_Ok by (eapply load_node_ok; cbn [heap set_heap]; by simplify_map_eq).
  cbn [heap set_heap n_next cnode].
  assign set_next_ok. assign set_prev_ok. assign set_next_ok. assign set_fwd_ok.
  destruct l2 as [|d l2]; cbn [first_addr].
  - change (negb (NULL =? NULL)) with false. cbn beta iota.
    rewrite (bind_Ok (ret tt) _ _ tt _ eq_refl). eexists. split; [reflexivity|].
    cbn [heap set_heap kmem seed sout]. split_and!; try done; simplify_map_eq; try done.
    intros x ? ? ?. by simplify_map_eq.
  - assert (Hd : heap s !! c_addr d = Some (ONode (cnode d (c_addr c) (first_addr l2 NULL)))).
    { rewrite (cons_middle c l1), app_assoc in Hs. apply dseg_lookup in Hs.
      by rewrite last_addr_snoc in Hs. }
    assert (Hcd : c_addr c <> c_addr d).
    { rewrite fmap_app in Hn. apply NoDup_app in Hn as (_ & _ & Hn). simpl in Hn.
      apply NoDup_cons in Hn as [Hn _]. intros E. apply Hn. rewrite E. left. }
    assert (Had : a <> c_addr d) by congruence.
    assert (Hd0 : c_addr d <> NULL) by congruence.
    replace (c_addr d =? NULL) with false by lia.
    cbn [negb]. assign set_prev_ok. eexists. split; [reflexivity|].
    cbn [heap set_heap kmem seed sout].
    split_and!; try done; try (simplify_map_eq; done).
    + intros d' l2' [= <- <-]. by simplify_map_eq.
    + intros x ? ? ?. by simplify_map_eq.
Qed.

Lemma insert_to_level_ok s pid vd fwd a free l1 c l2 :
  pa_rep (kmem s) (a :: free) -> heap s !! a = None -> heap s !! NULL = None ->
  dseg (heap s) NULL (l1 ++ c :: l2) NULL -> NoDup (c_addr <$> l1 ++ c :: l2) ->
  exists s', insert_to_level pid vd (c_addr c) fwd s = Ok (a, s') /\
    pa_rep (kmem s') free /\ hw_sim (pa_hw (kmem s)) (pa_hw (kmem s')) /\
    seed s' = seed s /\ sout s' = sout s /\
    dseg (heap s') NULL (l1 ++ c :: Cell a pid vd fwd :: l2) NULL /\
    (forall x, x <> a -> (forall d, d ∈ l1 ++ c :: l2 -> x <> c_addr d) -> x <> NULL ->
       heap s' !! x = heap s !! x) /\ heap s' !! NULL = None.
Proof.
  intros Hp Ha Hnull Hs Hn.
  destruct (insert_to_level_run s pid vd fwd a free l1 c l2 Hp Ha Hnull Hs Hn)
    as (s' & Hrun & Hk & Hsim & Hseed & Hout & Hna & Hnc & Hnd & Hfr & Hnull').
  assert (Hane : a <> NULL) by (apply (pa_rep_nonnull _ _ _ Hp); left).
  exists s'. split_and!; try done.
  - rewrite fmap_app in Hn. apply NoDup_app in Hn as (Hn1 & Hdis & Hn2).
    apply dseg_app in Hs as [Hs1 Hs2]. simpl in Hs2. destruct Hs2 as [Hc Hs2].
    assert (Hout1 : forall x, x ∈ l1 -> heap s' !! c_addr x = heap s !! c_addr x).
    { intros x Hx. assert (Hxa : c_addr x ∈ c_addr <$> l1) by (apply list_elem_of_fmap; eauto).
      apply Hfr.
      - intros E. destruct (dseg_elem _ _ _ _ _ Hs1 Hx) as [o Ho]. congruence.
      - intros E. eapply Hdis; [done|]. rewrite E. simpl. left.
      - intros E. destruct l2 as [|d l2]; simpl in E.
        + destruct (dseg_elem _ _ _ _ _ Hs1 Hx) as [o Ho]. congruence.
        + eapply Hdis; [done|]. rewrite E. simpl. right. left. }
    apply dseg_app. simpl. split_and!; [by eapply dseg_frame|done|done|].
    destruct l2 as [|d l2]; [done|]. simpl in Hs2 |- *. destruct Hs2 as [Hd Hs2].
    split; [by apply Hnd|]. eapply dseg_frame; [done|]. intros x Hx.
    simpl in Hn2. apply NoDup_cons in Hn2 as [Hc2 Hn2]. apply NoDup_cons in Hn2 as [Hd2 Hn2].
    assert (Hxa : c_addr x ∈ c_addr <$> l2) by (apply list_elem_of_fmap; eauto).
    apply Hfr; simpl.
    + intros E. destruct (dseg_elem _ _ _ _ _ Hs2 Hx) as [o Ho]. congruence.
    + intros E. apply Hc2. rewrite <- E. by right.
    + intros E. apply Hd2. by rewrite <- E.
  - intros x Hxa Hx Hx0. apply Hfr; [done|apply Hx; set_solver|].
    destruct l2 as [|d l2]; [done|]. apply Hx. set_solver.
Qed.

(** ** All levels of a new tower *)

Lemma all_addrs_middle H T1 t T2 :
  all_addrs H (T1 ++ t :: T2) ≡ₚ t_addrs t ++ all_addrs H (T1 ++ T2).
Proof.
  unfold all_addrs. rewrite !map_app, !concat_app. simpl. solve_Permutation.
Qed.

Lemma level_middle_elem H T1 t T2 j c :
  c ∈ level H (T1 ++ T2) j -> c ∈ level H (T1 ++ t :: T2) j.
Proof.
  rewrite !level_app, !elem_of_app. intros [Hc|Hc]; [by left|right].
  unfold tcells. simpl. destruct (tcell j t); [by right|done].
Qed.

Lemma level_new_cell H T1 t T2 j c :
  tcell j t = Some c -> level H (T1 ++ t :: T2) j = level H T1 j ++ c :: tcells j T2.
Proof. intros E. rewrite level_app. unfold tcells at 1. simpl. by rewrite E. Qed.

Lemma level_no_cell H T1 t T2 j :
  tcell j t = None -> level H (T1 ++ t :: T2) j = level H (T1 ++ T2) j.
Proof. intros E. rewrite !level_app. unfold tcells at 1. simpl. by rewrite E. Qed.

Section levels.

Context (H : list Z) (T1 T2 : list tower) (pid vd : Z) (free : list Z).
Hypothesis Hlen : length H = 4%nat.

Lemma insert_levels_ok rest new : forall done s,
  let t := Tower pid vd (done ++ new) in
  pa_rep (kmem s) (new ++ free) -> (height t <= 4)%nat ->
  (forall j, (j < 4)%nat ->
     dseg (heap s) NULL
       (if decide (j < length done)%nat then level H (T1 ++ t :: T2) j else level H (T1 ++ T2) j)
       NULL) ->
  (forall a, a ∈ new -> heap s !! a = None) -> heap s !! NULL = None ->
  NoDup (all_addrs H (T1 ++ t :: T2)) ->
  exists s', insert_levels pid vd
      (((fun i => Some (prev_addr H T1 i)) <$> seq (length done) (length new)) ++ rest)
      (default NULL (last done)) s =
      insert_levels pid vd rest (default NULL (last (done ++ new))) s' /\
    pa_rep (kmem s') free /\ hw_sim (pa_hw (kmem s)) (pa_hw (kmem s')) /\
    seed s' = seed s /\ sout s' = sout s /\
    (forall j, (j < 4)%nat -> dseg (heap s') NULL (level H (T1 ++ t :: T2) j) NULL) /\
    (forall x, x ∉ all_addrs H (T1 ++ t :: T2) -> x <> NULL -> heap s' !! x = heap s !! x) /\
    heap s' !! NULL = None.
Proof.
  induction new as [|a new IH]; intros done s t Hp Hh Hdll Hfresh Hnull Hnd.
  - exists s. split_and!; try done; [by rewrite app_nil_r|]. intros j Hj. specialize (Hdll j Hj).
    case_decide as Hd; [done|]. rewrite level_no_cell; [done|].
    apply tcell_None. unfold t, height; simpl. rewrite app_nil_r. lia.
  - set (k := length done).
    assert (Hk : (k < 4)%nat).
    { unfold t, height in Hh; simpl in Hh. rewrite length_app in Hh. simpl in Hh. lia. }
    destruct (level_snoc H T1 k) as (l & c & El).
    assert (Hpc : prev_addr H T1 k = c_addr c) by (unfold prev_addr; by rewrite El, last_addr_snoc).
    set (fwd := default NULL (last done)).
    assert (Hcell : tcell k t = Some (Cell a pid vd fwd)).
    { unfold tcell, t; simpl. rewrite lookup_app_r, Nat.sub_diag by done. simpl.
      do 2 f_equal. unfold fwd. rewrite last_lookup. fold k.
      destruct k as [|k'] eqn:Ek.
      - by destruct done.
      - simpl. rewrite lookup_app_l by lia. done. }
    assert (Hnd0 : NoDup (all_addrs H (T1 ++ T2))).
    { rewrite all_addrs_middle in Hnd. by apply NoDup_app in Hnd as (_ & _ & ?). }
    pose proof (Hdll k Hk) as Hs. rewrite decide_False in Hs by lia.
    rewrite level_app, El, <- app_assoc in Hs. simpl in Hs.
    pose proof (level_nodup H (T1 ++ T2) k Hnd0 ltac:(lia)) as Hlnd.
    rewrite level_app, El, <- app_assoc in Hlnd. simpl in Hlnd.
    destruct (insert_to_level_ok s pid vd fwd a (new ++ free) l c (tcells k T2))
      as (s1 & Hrun & Hp1 & Hsim1 & Hseed1 & Hout1 & Hs1 & Hfr1 & Hnull1); try done.
    { apply Hfresh. left. }
    assert (Hold : l ++ c :: tcells k T2 = level H (T1 ++ T2) k)
      by (rewrite level_app, El, <- app_assoc; done).
    assert (Hnew : l ++ c :: Cell a pid vd fwd :: tcells k T2 = level H (T1 ++ t :: T2) k)
      by (rewrite (level_new_cell _ _ _ _ _ _ Hcell), El, <- app_assoc; done).
    rewrite Hold in Hfr1. rewrite Hnew in Hs1.
    assert (Ha : Cell a pid vd fwd ∈ level H (T1 ++ t :: T2) k) by (rewrite <- Hnew; set_solver).
    (* the other levels are untouched *)
    assert (Hother : forall j d, (j < 4)%nat -> j <> k -> d ∈ level H (T1 ++ t :: T2) j ->
              is_Some (heap s !! c_addr d) -> heap s1 !! c_addr d = heap s !! c_addr d).
    { intros j d Hj Hjk Hd [o Ho]. apply Hfr1; [| |congruence].
      - change a with (c_addr (Cell a pid vd fwd)). apply (level_disjoint H (T1 ++ t :: T2) j k); auto with lia.
      - intros d' Hd'. apply (level_disjoint H (T1 ++ t :: T2) j k); auto using level_middle_elem with lia. }
    destruct (IH (done ++ [a]) s1) as (s2 & Hrun2 & Hp2 & Hsim2 & Hseed2 & Hout2 & Hs2 & Hfr2 & Hnull2);
      rewrite <- ?app_assoc; try done.
    { intros j Hj. rewrite length_app. simpl. fold k. specialize (Hdll j Hj).
      destruct (decide (j = k)) as [-> |Hjk]; [by rewrite decide_True by lia|].
      fold k in Hdll.
      destruct (decide (j < k)%nat) as [Hlt|Hge];
        [rewrite decide_True by lia|rewrite decide_False by lia];
        (eapply dseg_frame; [exact Hdll|]); intros d Hd;
        (apply (Hother j d);
           [done|done|first [exact Hd|by apply level_middle_elem]|exact (dseg_elem _ _ _ _ _ Hdll Hd)]). }
    { intros b Hb. rewrite Hfr1.
      - apply Hfresh. by right.
      - intros ->. apply pa_rep_nodup in Hp. simpl in Hp. apply NoDup_cons in Hp as [Hp _].
        apply Hp. set_solver.
      - intros d Hd ->. specialize (Hdll k Hk). rewrite decide_False in Hdll by lia.
        destruct (dseg_elem _ _ _ _ _ Hdll Hd) as [o Ho].
        rewrite Hfresh in Ho by (by right). done.
      - apply (pa_rep_nonnull _ _ _ Hp). apply elem_of_app. left. by right. }
    exists s2. split_and!; try congruence.
    + simpl. rewrite Hpc, (bind_Ok _ _ _ _ _ Hrun).
      rewrite length_app, last_snoc, <- app_assoc in Hrun2. simpl in Hrun2.
      replace (length done + 1)%nat with (S (length done)) in Hrun2 by lia. done.
    + by etransitivity.
    + intros j Hj. specialize (Hs2 j Hj). by rewrite <- app_assoc in Hs2.
    + intros x Hx Hx0. rewrite <- app_assoc in Hfr2. simpl in Hfr2.
      rewrite Hfr2 by done. apply Hfr1; [| |done].
      * intros ->. apply Hx. apply (level_all_addrs _ _ k _ Ha). lia.
      * intros d Hd ->. apply Hx. apply (level_all_addrs _ _ k); [|lia]. by apply level_middle_elem.
Qed.

End levels.

(** ** The level of a new tower *)

(** [randomize_max_level] as a function of the seed: the level and the seed
    after the draws. *)
Fixpoint draw_loop (fuel : nat) (lvl mx seed : Z) : Z * Z :=
  match fuel with
  | O => (lvl, seed)
  | S n =>
      if lvl <=? mx then
        let seed := xorshift seed in
        if Z.rem seed 4 =? 0 then draw_loop n (lvl + 1) mx seed else (lvl, seed)
      else (lvl, seed)
  end.

Definition draw_level (seed : Z) : Z * Z := draw_loop 5 0 (SKIPLIST_LEVELS - 1) seed.

Definition set_seed (x : Z) (s : sst K) : sst K := Sst (heap s) (kmem s) x (sout s).

Lemma rem4_zero x : (i32 (u32 (Z.rem x 4)) =? 0) = (Z.rem x 4 =? 0).
Proof.
  rewrite i32_u32, i32_small; [done|]. unfold i32_range.
  pose proof (Z.rem_bound_abs x 4). lia.
Qed.

Lemma randomize_loop_ok mx fuel : forall lvl s,
  lvl <= mx + 1 -> mx + 1 < lvl + Z.of_nat fuel ->
  randomize_loop fuel lvl mx s =
  Ok (fst (draw_loop fuel lvl mx (seed s)), set_seed (snd (draw_loop fuel lvl mx (seed s))) s).
Proof.
  induction fuel as [|n IH]; intros lvl s Hl Hf; cbn [randomize_loop draw_loop]; [lia|].
  destruct (Z.leb_spec lvl mx) as [Hle|Hgt]; [|by destruct s].
  unfold random. step. rewrite rem4_zero. cbn [seed].
  destruct (Z.rem _ 4 =? 0); [|done]. rewrite IH by lia. done.
Qed.

Lemma draw_loop_bound fuel : forall lvl mx seed,
  lvl <= mx + 1 -> lvl <= fst (draw_loop fuel lvl mx seed) <= mx + 1.
Proof.
  induction fuel as [|n IH]; intros lvl mx seed Hl; cbn [draw_loop fst]; [lia|].
  destruct (Z.leb_spec lvl mx); [|simpl; lia].
  destruct (_ =? 0); [|simpl; lia]. specialize (IH (lvl + 1) mx (xorshift seed)). lia.
Qed.

Lemma randomize_max_level_ok s :
  randomize_max_level (SKIPLIST_LEVELS - 1) s =
  Ok (fst (draw_level (seed s)), set_seed (snd (draw_level (seed s))) s).
Proof. apply randomize_loop_ok; by vm_compute. Qed.

Lemma draw_level_bound x : 0 <= fst (draw_level x) <= 4.
Proof. apply (draw_loop_bound 5 0 3). lia. Qed.

(** ** insert_node *)

(** Insertion into a sorted list, behind the equal keys. *)
Fixpoint insert_entry (e : Z * Z) (l : list (Z * Z)) : list (Z * Z) :=
  match l with
  | [] => [e]
  | x :: l' => if snd x <=? snd e then x :: insert_entry e l' else e :: l
  end.

(** The towers before and behind the place of deadline [vd]. *)
Fixpoint split_vd (vd : Z) (T : list tower) : list tower * list tower :=
  match T with
  | [] => ([], [])
  | t :: T' => if t_vd t <=? vd then (t :: fst (split_vd vd T'), snd (split_vd vd T')) else ([], T)
  end.

Lemma split_vd_app vd T : fst (split_vd vd T) ++ snd (split_vd vd T) = T.
Proof. induction T as [|t T IH]; simpl; [done|]. destruct (_ <=? _); simpl; congruence. Qed.

Lemma split_vd_le vd T : Forall (fun t => t_vd t <= vd) (fst (split_vd vd T)).
Proof. induction T as [|t T IH]; simpl; [done|]. destruct (Z.leb_spec (t_vd t) vd); simpl; auto. Qed.

Lemma split_vd_gt vd T :
  StronglySorted vd_le T -> Forall (fun t => vd < t_vd t) (snd (split_vd vd T)).
Proof.
  induction 1 as [|t T HT IH Ht]; simpl; [done|].
  destruct (Z.leb_spec (t_vd t) vd); simpl; [done|]. constructor; [done|].
  eapply Forall_impl; [exact Ht|]. unfold vd_le. intros; lia.
Qed.

Lemma entries_app T1 T2 : entries (T1 ++ T2) = entries T1 ++ entries T2.
Proof. apply map_app. Qed.

Lemma entries_insert vd T t :
  t_vd t = vd ->
  entries (fst (split_vd vd T) ++ t :: snd (split_vd vd T)) = insert_entry (t_pid t, vd) (entries T).
Proof.
  intros <-. induction T as [|x T IH]; simpl; [done|].
  destruct (Z.leb_spec (t_vd x) (t_vd t)); simpl; [|done]. by rewrite IH.
Qed.

Lemma sorted_middle T1 t T2 :
  StronglySorted vd_le (T1 ++ T2) -> Forall (fun x => t_vd x <= t_vd t) T1 ->
  Forall (fun x => t_vd t < t_vd x) T2 -> StronglySorted vd_le (T1 ++ t :: T2).
Proof.
  intros Hs Hle Hgt. induction T1 as [|x T1 IH]; simpl in *.
  - constructor; [done|]. eapply Forall_impl; [exact Hgt|]. unfold vd_le. intros; lia.
  - apply StronglySorted_inv in Hs as [Hs Hx]. apply Forall_cons in Hle as [Hxt Hle].
    constructor; [auto|]. apply Forall_app in Hx as [Hx1 Hx2]. apply Forall_app. split; [done|].
    by constructor.
Qed.

Definition inserted_msg (pid lvl : Z) : list Z :=
  codes "inserted|[" ++ dec pid ++ codes "]" ++ dec lvl ++ [NL].

Lemma print_inserted s pid lvl :
  print "inserted|[%d]%d" [AInt pid; AInt lvl] s =
  Ok (tt, Sst (heap s) (kmem s) (seed s) (sout s ++ codes "inserted|[" ++ dec pid ++ codes "]" ++ dec lvl)).
Proof.
  unfold print, cprintf.
  assert (E : cprintf_loop (codes "inserted|[%d]%d") [AInt pid; AInt lvl]
              = Ok (codes "inserted|[" ++ dec pid ++ codes "]" ++ dec lvl ++ [])).
  { cbn [codes app map]. repeat (apply cprintf_text; [reflexivity|]). apply cprintf_d.
    apply cprintf_text; [reflexivity|]. by apply cprintf_d. }
  rewrite E. by rewrite app_nil_r.
Qed.

Lemma insert_to_level_oom s pid vd p fwd :
  pa_rep (kmem s) [] -> heap s !! NULL = None -> insert_to_level pid vd p fwd s = Fault.
Proof.
  intros Hp Hn. destruct (pa_alloc_none _ Hp) as (k & Hal & _ & _).
  unfold insert_to_level. erewrite bind_Ok.
  2:{ unfold kalloc_as, on_kmem. erewrite bind_Ok by (by apply zoom_Ok). simpl. reflexivity. }
  unfold set_pid, bind, load_node. simpl heap. unfold NULL in Hn. by rewrite Hn.
Qed.

(** Pages and search of a run of [insert_node], up to the linking. *)
Section run.

Context (s : sst K) (sl : Z) (H : list Z) (T : list tower) (free : list Z) (pid vd : Z).
Hypothesis Hr : sl_rep s sl H T free.

Let lvl := fst (draw_level (seed s)).
Let T1 := fst (split_vd vd T).
Let T2 := snd (split_vd vd T).
Let s1 := set_seed (snd (draw_level (seed s))) s.

Lemma set_seed_rep x : sl_rep (set_seed x s) sl H T free.
Proof. by destruct Hr; constructor. Qed.

Lemma insert_node_search :
  insert_node sl pid vd s =
  bind (insert_levels pid vd (fill H T1 4 lvl (replicate (Z.to_nat (lvl + 1)) None)) NULL)
    (fun _ => print "inserted|[%d]%d" [AInt pid; AInt lvl] ;;; putnl ;;; ret lvl) s1.
Proof.
  unfold insert_node. rewrite (bind_Ok _ _ _ _ _ (get_levels_ok _ _ _ _ _ Hr)).
  rewrite (bind_Ok _ _ _ _ _ (randomize_max_level_ok s)). fold lvl s1.
  pose proof (set_seed_rep (snd (draw_level (seed s)))) as Hr1. fold s1 in Hr1.
  rewrite (bind_Ok _ _ _ _ _ (get_levels_ok _ _ _ _ _ Hr1)).
  rewrite (bind_Ok _ _ _ _ _ (get_header_ok _ _ _ _ _ (SKIPLIST_LEVELS - 1) Hr1 ltac:(done))).
  assert (HT : T = T1 ++ T2) by (symmetry; apply split_vd_app).
  destruct Hr1 as [Hlen _ Hdll Hnd _ Hsort Hnull _ _ _]. rewrite HT in Hdll, Hnd.
  erewrite bind_Ok; [reflexivity|].
  apply (find_prevs_ok s1 H T1 T2 vd); try done.
  - apply split_vd_le.
  - by apply split_vd_gt.
  - intros i [= <-]. exists (hcell H 3). split; [left|done].
Qed.

(** Linking [m] levels of the new tower. *)
Lemma insert_node_link m rest :
  (m <= length free)%nat -> (m <= 4)%nat ->
  exists s', insert_levels pid vd (((fun i => Some (prev_addr H T1 i)) <$> seq 0 m) ++ rest) NULL s1 =
      insert_levels pid vd rest (default NULL (last (take m free))) s' /\
    seed s' = seed s1 /\ sout s' = sout s1 /\ hw_sim (pa_hw (kmem s)) (pa_hw (kmem s')) /\
    pa_rep (kmem s') (drop m free) /\ heap s' !! NULL = None /\
    ((1 <= m)%nat -> sl_rep s' sl H (T1 ++ Tower pid vd (take m free) :: T2) (drop m free)).
Proof.
  intros Hm Hm4. pose proof (set_seed_rep (snd (draw_level (seed s)))) as Hr1. fold s1 in Hr1.
  assert (HT : T1 ++ T2 = T) by apply split_vd_app.
  pose proof (fun a => r_node_object s1 sl H T free a Hr1) as Hobj.
  assert (Hgt : Forall (fun t => vd < t_vd t) T2) by (by apply split_vd_gt, (r_sorted _ _ _ _ _ Hr)).
  pose proof (split_vd_le vd T) as Hle. fold T1 in Hle.
  destruct Hr1 as [Hlen Hst Hdll Hnd Hhs Hsort Hnull Hal Hfresh Hval].
  pose proof (take_drop m free) as Hfree.
  assert (Hfd : forall a, a ∈ take m free -> a ∈ free) by (intros a Ha; rewrite <- Hfree; set_solver).
  assert (Hlm : length (take m free) = m) by (rewrite length_take; lia).
  assert (Hnd' : NoDup (all_addrs H (T1 ++ Tower pid vd (take m free) :: T2))).
  { rewrite all_addrs_middle, HT. simpl. apply NoDup_app. split_and!; [| |done].
    - apply pa_rep_nodup in Hal. rewrite <- Hfree in Hal. by apply NoDup_app in Hal as [? _].
    - intros a Ha Ha'. destruct (Hobj a Ha') as [n Hn]. rewrite Hfresh in Hn by auto. done. }
  destruct (insert_levels_ok H T1 T2 pid vd (drop m free) Hlen rest (take m free) [] s1)
    as (s' & Hrun & Hp' & Hsim & Hseed & Hout & Hdll' & Hfr & Hnull'); simpl; try done.
  { by rewrite Hfree. }
  { unfold height; simpl. lia. }
  { intros j Hj. rewrite HT. exact (Hdll j Hj). }
  { auto. }
  exists s'. simpl in Hrun. rewrite Hlm in Hrun. split_and!; try done.
  intros Hm1.
  assert (Hkeep : forall x o, heap s1 !! x = Some o -> x ∉ all_addrs H T -> heap s' !! x = Some o).
  { intros x o Hx Hnx. rewrite Hfr; [done| |congruence]. rewrite all_addrs_middle, HT.
    simpl. intros [Hx'|Hx']%elem_of_app; [|done]. rewrite Hfresh in Hx by auto. done. }
  constructor; try done.
  - destruct Hst as (ha & ws & Hsl & Hha & Ht). exists ha, ws.
    split_and!; [..|done]; apply Hkeep; try done; intros Hin; destruct (Hobj _ Hin); congruence.
  - rewrite <- HT in Hhs. apply Forall_app in Hhs as [Hh1 Hh2]. apply Forall_app. split; [done|].
    constructor; [|done]. unfold height. simpl. lia.
  - apply sorted_middle; try done. by rewrite HT.
  - intros a Ha. rewrite Hfr.
    + apply Hfresh. rewrite <- Hfree. set_solver.
    + rewrite all_addrs_middle, HT. simpl. intros [Ha'|Ha']%elem_of_app.
      * apply pa_rep_nodup in Hal. rewrite <- Hfree in Hal. apply NoDup_app in Hal as (_ & Hd & _).
        by apply (Hd a).
      * destruct (Hobj a Ha') as [n Hn]. rewrite Hfresh in Hn; [done|]. rewrite <- Hfree. set_solver.
    + apply (pa_rep_nonnull _ _ _ Hp' Ha).
  - rewrite <- HT in Hval. apply Forall_app in Hval as [Hv1 Hv2]. apply Forall_app. split; [done|].
    constructor; [|done]. simpl. apply pa_rep_valid in Hal. apply Forall_forall. intros a Ha.
    rewrite Forall_forall in Hal. auto.
Qed.

Lemma insert_node_ok :
  lvl <= 3 -> lvl < Z.of_nat (length free) ->
  exists s', insert_node sl pid vd s = Ok (lvl, s') /\
    sl_rep s' sl H (T1 ++ Tower pid vd (take (Z.to_nat (lvl + 1)) free) :: T2)
      (drop (Z.to_nat (lvl + 1)) free) /\
    hw_sim (pa_hw (kmem s)) (pa_hw (kmem s')) /\
    seed s' = snd (draw_level (seed s)) /\ sout s' = sout s ++ inserted_msg pid lvl.
Proof.
  intros Hl Hf. pose proof (draw_level_bound (seed s)) as Hb. fold lvl in Hb.
  destruct (insert_node_link (Z.to_nat (lvl + 1)) [] ltac:(lia) ltac:(lia))
    as (s' & Hrun & Hseed & Hout & Hsim & _ & _ & Hrep).
  specialize (Hrep ltac:(lia)). rewrite app_nil_r in Hrun.
  rewrite insert_node_search.
  pose proof (fill_prevs H T1 (Z.to_nat lvl) ltac:(lia)) as Hfill.
  rewrite Z2Nat.id in Hfill by lia.
  replace (Z.to_nat (lvl + 1)) with (S (Z.to_nat lvl)) in Hrun |- * by lia.
  rewrite Hfill. erewrite bind_Ok by exact Hrun.
  rewrite (bind_Ok _ _ _ _ _ (print_inserted s' pid lvl)). eexists. split; [reflexivity|].
  split_and!; try done.
  - replace (S (Z.to_nat lvl)) with (Z.to_nat (lvl + 1)) by lia. by destruct Hrep; constructor.
  - cbn -[codes dec]. rewrite Hout. unfold inserted_msg. by rewrite <- !app_assoc.
Qed.

Lemma insert_node_fault :
  lvl = 4 \/ Z.of_nat (length free) <= lvl -> insert_node sl pid vd s = Fault.
Proof.
  intros Hor. pose proof (draw_level_bound (seed s)) as Hb. fold lvl in Hb.
  rewrite insert_node_search.
  replace (Z.to_nat (lvl + 1)) with (S (Z.to_nat lvl)) by lia.
  destruct (decide (lvl = 4 /\ (4 <= length free)%nat)) as [[E4 Hf]|Hno].
  - rewrite E4. change (Z.to_nat 4) with 4%nat. rewrite fill_prevs_over.
    destruct (insert_node_link 4 [None] Hf ltac:(lia)) as (s' & Hrun & _).
    unfold bind. by rewrite Hrun.
  - destruct (insert_node_link (length free)
      (drop (length free) (fill H T1 4 lvl (replicate (S (Z.to_nat lvl)) None))))
      as (s' & Hrun & _ & _ & _ & Hp & Hnull & _); [lia|lia|].
    assert (Hlt : (length free < S (Z.to_nat lvl) `min` 4)%nat) by lia.
    pose proof (fill_prevs_prefix H T1 (Z.to_nat lvl) (length free) ltac:(lia)) as Hpre.
    pose proof (fill_prevs_drop H T1 (Z.to_nat lvl) (length free) Hlt) as Hdrop.
    rewrite Z2Nat.id in Hpre, Hdrop by lia.
    rewrite Hpre in Hrun. unfold bind. rewrite Hrun, Hdrop. cbn [insert_levels].
    rewrite drop_all in Hp. unfold bind. by rewrite (insert_to_level_oom _ _ _ _ _ Hp Hnull).
Qed.

End run.

End insert.
