(* ===== verification/SkipListInit.v ===== *)
(** * Creating the run queue

    [init_skiplist] builds the empty queue, and the first [insert_node]
    theorems about the queue as a whole. *)

From S2P Require Import Prelude Spinlock Kalloc Console SkipList SkipListRep SkipListInsert.

(** Two heaps that differ at most at [a] and [b]. *)
Ltac heap_cases x a b :=
  destruct (decide (x = a)) as [-> |]; [by simplify_map_eq|];
  destruct (decide (x = b)) as [-> |]; by simplify_map_eq.

Lemma nth_lookup_or_length' (l : list Z) i d : (i < length l)%nat -> l !! i = Some (nth i l d).
Proof.
  intros Hi. destruct (lookup_lt_is_Some_2 _ _ Hi) as [x Hx].
  by rewrite Hx, (nth_lookup_Some _ _ _ _ Hx).
Qed.

Section init.

Context {K : Type} `{!PageAlloc K} `{!PageAllocLaws K}.

Implicit Types (s : sst K).

Definition header_node (H : list Z) (i : nat) : obj := ONode (cnode (hcell H i) NULL NULL).

Lemma header_node_app hs l i : (i < length hs)%nat -> header_node (hs ++ l) i = header_node hs i.
Proof.
  intros Hi. unfold header_node, cnode, hcell. simpl. rewrite ?app_nth1 by done.
  destruct i as [|i]; [done|]. by rewrite app_nth1 by lia.
Qed.

Lemma header_node_last hs ws h :
  take (length hs) ws = hs ->
  header_node (hs ++ [h]) (length hs) =
  ONode (Node (-1) (-1) NULL NULL
    (if 0 <? Z.of_nat (length hs) then nth (Z.to_nat (Z.of_nat (length hs) - 1)) ws NULL else junk)).
Proof.
  intros Htk. unfold header_node, cnode, hcell. simpl. destruct hs as [|x hs] using rev_ind; [done|].
  rewrite length_app in *. simpl. rewrite Nat.add_1_r in *. cbn -[Z.of_nat nth].
  destruct (Z.ltb_spec 0 (Z.of_nat (S (length hs)))); [|lia].
  replace (Z.to_nat (Z.of_nat (S (length hs)) - 1)) with (length hs) by lia.
  do 2 f_equal. rewrite app_nth1 by (rewrite length_app; simpl; lia).
  rewrite <- Htk, !nth_lookup. by rewrite lookup_take_lt by lia.
Qed.

Lemma load_ok s a o : heap s !! a = Some o -> load a s = Ok (o, s).
Proof. intros E. unfold load. by rewrite E. Qed.

Section header.

Context (sl ha : Z) (lv : Z).

Lemma set_header_ok s i v ws :
  heap s !! sl = Some (OSkip lv ha) -> heap s !! ha = Some (OArr ws) -> 0 <= i ->
  set_header sl i v s = Ok (tt, set_heap (<[ha := OArr (<[Z.to_nat i := v]> ws)]> (heap s)) s).
Proof.
  intros Hsl Hha Hi. unfold set_header. rewrite (bind_Ok _ _ _ _ _ (load_ok _ _ _ Hsl)).
  rewrite (bind_Ok _ _ _ _ _ (load_ok _ _ _ Hha)). replace (i <? 0) with false by lia.
  by eapply store_ok.
Qed.

Lemma read_header_ok s i v ws :
  heap s !! sl = Some (OSkip lv ha) -> heap s !! ha = Some (OArr ws) -> 0 <= i ->
  ws !! Z.to_nat i = Some v -> get_header sl i s = Ok (v, s).
Proof.
  intros Hsl Hha Hi Hv. unfold get_header. rewrite (bind_Ok _ _ _ _ _ (load_ok _ _ _ Hsl)).
  rewrite (bind_Ok _ _ _ _ _ (load_ok _ _ _ Hha)). replace (i <? 0) with false by lia.
  by rewrite Hv.
Qed.

(** One round of the loop: the page [h] becomes header [i]. *)
Lemma init_round s h free i ws fwd n :
  pa_rep (kmem s) (h :: free) -> heap s !! h = None ->
  heap s !! sl = Some (OSkip lv ha) -> heap s !! ha = Some (OArr ws) ->
  sl <> ha -> 0 <= i -> (Z.to_nat i < length ws)%nat ->
  fwd = (if 0 <? i then nth (Z.to_nat (i - 1)) ws NULL else junk) ->
  exists k, pa_rep k free /\ hw_sim (pa_hw (kmem s)) (pa_hw k) /\
    init_headers (S n) sl i s =
    init_headers n sl (i + 1)
      (Sst (<[h := ONode (Node (-1) (-1) NULL NULL fwd)]>
           (<[ha := OArr (<[Z.to_nat i := h]> ws)]> (heap s))) k (seed s) (sout s)).
Proof.
  intros Hp Hh Hsl Hha Hne Hi Hlen Hfwd.
  destruct (kalloc_as_ok s (ONode junk_node) h free Hp) as (k & Hal & Hk & Hsim & Hh0).
  assert (h <> sl) by congruence. assert (h <> ha) by congruence.
  exists k. split_and!; try done. cbn [init_headers]. rewrite (bind_Ok _ _ _ _ _ Hal).
  erewrite bind_Ok by (eapply set_header_ok; cbn [heap]; simplify_map_eq; done). cbn [heap set_heap].
  assign set_pid_ok. assign set_vd_ok. assign set_next_ok. assign set_prev_ok.
  unfold set_heap; cbn [kmem seed sout heap].
  destruct (Z.ltb_spec 0 i) as [Hpos|Hzero].
  - erewrite bind_Ok.
    2:{ erewrite bind_Ok.
        2:{ eapply (read_header_ok _ (i - 1) fwd); cbn [heap]; [by simplify_map_eq|by simplify_map_eq|lia|].
            rewrite list_lookup_insert_ne by lia. rewrite Hfwd.
            apply nth_lookup_or_length'. lia. }
        eapply set_fwd_ok. cbn [heap]. by simplify_map_eq. }
    unfold set_heap. cbn [heap kmem seed sout]. f_equal. f_equal. apply map_eq. intros x. heap_cases x h ha.
  - rewrite (bind_Ok (ret tt) _ _ tt _ eq_refl). f_equal. f_equal.
    apply map_eq. intros x. heap_cases x h ha.
Qed.

(** One round of the loop: the page [h] becomes header [length hs]. *)
Lemma init_headers_ok n : forall s hs free ws,
  pa_rep (kmem s) free -> (n <= length free)%nat ->
  heap s !! sl = Some (OSkip lv ha) -> heap s !! ha = Some (OArr ws) ->
  sl <> ha -> (forall a, a ∈ free -> heap s !! a = None) ->
  take (length hs) ws = hs -> (length hs + n <= length ws)%nat -> NoDup hs ->
  (forall i a, hs !! i = Some a -> heap s !! a = Some (header_node hs i)) ->
  exists s' ws', init_headers n sl (Z.of_nat (length hs)) s = Ok (tt, s') /\
    let H := hs ++ take n free in
    pa_rep (kmem s') (drop n free) /\ hw_sim (pa_hw (kmem s)) (pa_hw (kmem s')) /\
    heap s' !! sl = Some (OSkip lv ha) /\ heap s' !! ha = Some (OArr ws') /\
    take (length H) ws' = H /\ NoDup H /\
    (forall i a, H !! i = Some a -> heap s' !! a = Some (header_node H i)) /\
    (forall a, a ∈ drop n free -> heap s' !! a = None) /\
    (heap s !! NULL = None -> heap s' !! NULL = None) /\
    seed s' = seed s /\ sout s' = sout s.
Proof.
  induction n as [|n IH]; intros s hs free ws Hp Hn Hsl Hha Hne Hfresh Htk Hlen Hnd Hhs.
  - exists s, ws. simpl. rewrite app_nil_r. split_and!; try done.
  - destruct free as [|h free]; [simpl in Hn; lia|].
    assert (Hh : heap s !! h = None) by (apply Hfresh; left).
    assert (Hh0 : h <> NULL) by (apply (pa_rep_nonnull _ _ _ Hp); left).
    assert (h <> sl) by congruence. assert (h <> ha) by congruence.
    assert (Hfree : h ∉ free) by (apply pa_rep_nodup, NoDup_cons in Hp; tauto).
    destruct (init_round s h free (Z.of_nat (length hs)) ws _ n Hp Hh Hsl Hha Hne
      ltac:(lia) ltac:(lia) eq_refl) as (k & Hk & Hsim & Hrun).
    rewrite Hrun. clear Hrun. set (s1 := Sst _ k _ _).
    destruct (IH s1 (hs ++ [h]) free (<[length hs := h]> ws)) as (s' & ws' & Hrun & Hpost);
      unfold s1; cbn [heap kmem]; try done.
    + simpl in Hn. lia.
    + by simplify_map_eq.
    + rewrite Nat2Z.id. by simplify_map_eq.
    + intros a Ha. assert (a <> h) by (intros ->; done).
      assert (heap s !! a = None) by (apply Hfresh; by right).
      assert (a <> ha) by congruence. by simplify_map_eq.
    + rewrite length_app. simpl. rewrite Nat.add_1_r, (take_S_r _ _ h).
      * by rewrite take_insert_ge, Htk by lia.
      * apply list_lookup_insert_eq. lia.
    + rewrite length_app, length_insert. simpl. lia.
    + apply NoDup_app. split_and!; [done| |apply NoDup_singleton].
      intros a Ha Hah. apply list_elem_of_singleton in Hah as ->.
      apply list_elem_of_lookup in Ha as [i Hi]. rewrite (Hhs _ _ Hi) in Hh. done.
    + intros i a [Hi|[Hi Ha]]%lookup_app_Some.
      * pose proof (Hhs _ _ Hi) as Hai. assert (a <> h) by congruence.
        assert (a <> ha) by (intros ->; unfold header_node in Hai; congruence).
        simplify_map_eq. rewrite header_node_app; [done|]. by apply lookup_lt_Some in Hi.
      * apply list_lookup_singleton_Some in Ha as [Hi0 <-]. simplify_map_eq.
        replace i with (length hs) by lia. by rewrite (header_node_last hs ws).
    + exists s', ws'. rewrite length_app in Hrun. simpl in Hrun.
      replace (Z.of_nat (length hs + 1)) with (Z.of_nat (length hs) + 1) in Hrun by lia.
      split; [done|]. rewrite <- app_assoc in Hpost. simpl in Hpost |- *.
      destruct Hpost as (? & ? & ? & ? & ? & ? & ? & ? & Hnull & ? & ?).
      split_and!; try done.
      * by etransitivity.
      * intros Hnl. apply Hnull. assert (ha <> NULL) by congruence. by simplify_map_eq.
Qed.

End header.
(** ** The empty queue *)

Lemma level_nil H i : level H [] i = [hcell H i].
Proof. done. Qed.

Lemma init_skiplist_ok s sl ha free :
  pa_rep (kmem s) (sl :: ha :: free) -> (4 <= length free)%nat ->
  (forall a, a ∈ sl :: ha :: free -> heap s !! a = None) -> heap s !! NULL = None ->
  exists s', init_skiplist s = Ok (sl, s') /\
    sl_rep s' sl (take 4 free) [] (drop 4 free) /\
    hw_sim (pa_hw (kmem s)) (pa_hw (kmem s')) /\ seed s' = seed s /\ sout s' = sout s.
Proof.
  intros Hp Hn Hfresh Hnull.
  assert (Hsl : heap s !! sl = None) by (apply Hfresh; left).
  assert (Hha : heap s !! ha = None) by (apply Hfresh; right; left).
  pose proof (pa_rep_nodup _ _ Hp) as Hnd. rewrite !NoDup_cons in Hnd.
  destruct Hnd as (Hsl1 & Hha1 & Hnd). rewrite not_elem_of_cons in Hsl1. destruct Hsl1 as [Hne Hsl1].
  destruct (kalloc_as_ok s (OSkip junk junk) sl _ Hp) as (k1 & Hal1 & Hp1 & Hsim1 & Hsl0).
  unfold init_skiplist. rewrite (bind_Ok _ _ _ _ _ Hal1). assign store_ok.
  edestruct (kalloc_as_ok (set_heap (<[sl:=OSkip SKIPLIST_LEVELS junk]> (<[sl:=OSkip junk junk]> (heap s)))
     (Sst (<[sl:=OSkip junk junk]> (heap s)) k1 (seed s) (sout s))) (OArr (page_fill 1)) ha free Hp1)
     as (k2 & Hal2 & Hp2 & Hsim2 & Hha0).
  rewrite (bind_Ok _ _ _ _ _ Hal2). assign store_ok.
  unfold set_heap. cbn [heap kmem seed sout]. cbn [kmem set_heap] in Hsim2. set (s1 := Sst _ _ _ _).
  destruct (init_headers_ok sl ha SKIPLIST_LEVELS 4 s1 [] free (page_fill 1))
    as (s' & ws & Hrun & Hpost); unfold s1; cbn [heap kmem]; try done.
  { by simplify_map_eq. }
  { by simplify_map_eq. }
  { intros a Ha. assert (a <> sl) by (intros ->; done). assert (a <> ha) by (intros ->; done).
    simplify_map_eq. apply Hfresh. by do 2 right. }
  { apply Nat.leb_le. by vm_compute. }
  { constructor. }
  destruct Hpost as (Hp' & Hsim & Hsl' & Hha' & Htk & HndH & Hh & Hfr & Hnl & Hseed & Hout).
  exists s'. split_and!; try done.
  - change (Z.of_nat (length [])) with 0 in Hrun. erewrite bind_Ok by exact Hrun. done.
  - cbn [app] in *. assert (Hlen : length (take 4 free) = 4%nat) by (rewrite length_take; lia).
    constructor; try done.
    + exists ha, ws. split_and!; try done. by rewrite Hlen in Htk.
    + intros i Hi. rewrite level_nil. simpl. split; [|done]. apply Hh.
      apply nth_lookup_or_length'. lia.
    + unfold all_addrs. simpl. by rewrite app_nil_r.
    + constructor.
    + apply Hnl. by simplify_map_eq.
  - etransitivity; [exact Hsim1|]. etransitivity; [exact Hsim2|]. exact Hsim.
Qed.

End init.
