(* ===== verification/SkipListDelete.v ===== *)
(** * Removal from the run queue

    [delete_node] searches from the top level down and removes the tower it
    meets; [get_minimum] reads the first entry. *)

From S2P Require Import Prelude Spinlock Kalloc Console SkipList SkipListRep SkipListInsert.

Section delete.

Context {K : Type} `{!PageAlloc K} `{!PageAllocLaws K}.

Implicit Types (s : sst K) (h : gmap Z obj).

(** ** Unlinking one node *)

Lemma kfree_obj_ok s a free :
  pa_rep (kmem s) free -> pa_valid a -> a ∉ free ->
  exists k, kfree_obj a s = Ok (tt, Sst (delete a (heap s)) k (seed s) (sout s)) /\
    pa_rep k (a :: free) /\ hw_sim (pa_hw (kmem s)) (pa_hw k).
Proof.
  intros Hp Hv Ha. destruct (pa_free_ok _ _ _ Hp Hv Ha) as (k & Hf & Hk & Hsim).
  exists k. split_and!; try done. unfold kfree_obj, on_kmem.
  by erewrite bind_Ok by (by apply zoom_Ok).
Qed.

(** One round of [delete_from_levels] on the node between [p] and [l2]. *)
Lemma delete_round s free l1 p c l2 n :
  dseg (heap s) NULL (l1 ++ p :: c :: l2) NULL -> NoDup (c_addr <$> l1 ++ p :: c :: l2) ->
  heap s !! NULL = None -> pa_rep (kmem s) free -> pa_valid (c_addr c) -> c_addr c ∉ free ->
  exists s', delete_from_levels (S n) (c_addr c) s = delete_from_levels n (c_fwd c) s' /\
    pa_rep (kmem s') (c_addr c :: free) /\ hw_sim (pa_hw (kmem s)) (pa_hw (kmem s')) /\
    seed s' = seed s /\ sout s' = sout s /\
    heap s' !! c_addr c = None /\
    heap s' !! c_addr p = Some (ONode (cnode p (last_addr NULL l1) (first_addr l2 NULL))) /\
    (forall d l2', l2 = d :: l2' ->
       heap s' !! c_addr d = Some (ONode (cnode d (c_addr p) (first_addr l2' NULL)))) /\
    (forall x, x <> c_addr c -> x <> c_addr p -> x <> first_addr l2 NULL -> heap s' !! x = heap s !! x) /\
    heap s' !! NULL = None.
Proof.
  intros Hs Hn Hnull Hp Hv Hfr.
  pose proof (dseg_lookup _ _ _ _ _ _ Hs) as Hpn. simpl in Hpn.
  pose proof Hs as Hs'. rewrite (cons_middle p l1), app_assoc in Hs'.
  pose proof (dseg_lookup _ _ _ _ _ _ Hs') as Hc. rewrite last_addr_snoc in Hc.
  assert (Hc0 : c_addr c <> NULL) by congruence.
  rewrite fmap_app in Hn. apply NoDup_app in Hn as (_ & _ & Hn). simpl in Hn.
  apply NoDup_cons in Hn as [Hpc Hn]. apply NoDup_cons in Hn as [Hcl Hn].
  rewrite not_elem_of_cons in Hpc. destruct Hpc as [Hpc Hpl].
  cbn [delete_from_levels]. replace (c_addr c =? NULL) with false by lia.
  rewrite (bind_Ok _ _ _ _ _ (load_node_ok _ _ _ Hc)). cbn [n_fwd n_next n_prev cnode].
  assign set_next_ok.
  destruct l2 as [|d l2]; cbn [first_addr].
  - change (negb (NULL =? NULL)) with false. cbn beta iota.
    rewrite (bind_Ok (ret tt) _ _ tt _ eq_refl).
    set (s1 := set_heap _ s). destruct (kfree_obj_ok s1 (c_addr c) free Hp Hv Hfr) as (k & Hrun & Hk & Hsim).
    rewrite (bind_Ok _ _ _ _ _ Hrun). eexists. split; [reflexivity|].
    unfold s1. cbn [heap set_heap kmem seed sout]. assert (c_addr p <> NULL) by congruence.
    split_and!; try done; try (simplify_map_eq; done). intros x ? ? ?. by simplify_map_eq.
  - rewrite (cons_middle c), app_assoc in Hs'. pose proof (dseg_lookup _ _ _ _ _ _ Hs') as Hd.
    rewrite last_addr_snoc in Hd. simpl in Hcl, Hpl. rewrite not_elem_of_cons in Hcl, Hpl.
    destruct Hcl as [Hcd _], Hpl as [Hpd _].
    assert (c_addr d <> NULL) by congruence. assert (c_addr p <> NULL) by congruence.
    replace (c_addr d =? NULL) with false by lia. cbn [negb]. assign set_prev_ok.
    set (s1 := set_heap _ _). destruct (kfree_obj_ok s1 (c_addr c) free Hp Hv Hfr) as (k & Hrun & Hk & Hsim).
    rewrite (bind_Ok _ _ _ _ _ Hrun). eexists. split; [reflexivity|].
    unfold s1. cbn [heap set_heap kmem seed sout].
    split_and!; try done; try (simplify_map_eq; done).
    + intros d' l2' [= <- <-]. by simplify_map_eq.
    + intros x ? ? ?. by simplify_map_eq.
Qed.

(** The node is taken out of its level. *)
Lemma delete_round_ok s free l1 p c l2 n :
  dseg (heap s) NULL (l1 ++ p :: c :: l2) NULL -> NoDup (c_addr <$> l1 ++ p :: c :: l2) ->
  heap s !! NULL = None -> pa_rep (kmem s) free -> pa_valid (c_addr c) -> c_addr c ∉ free ->
  exists s', delete_from_levels (S n) (c_addr c) s = delete_from_levels n (c_fwd c) s' /\
    pa_rep (kmem s') (c_addr c :: free) /\ hw_sim (pa_hw (kmem s)) (pa_hw (kmem s')) /\
    seed s' = seed s /\ sout s' = sout s /\ heap s' !! c_addr c = None /\
    dseg (heap s') NULL (l1 ++ p :: l2) NULL /\
    (forall x, (forall d, d ∈ l1 ++ p :: c :: l2 -> x <> c_addr d) -> x <> NULL ->
       heap s' !! x = heap s !! x) /\ heap s' !! NULL = None.
Proof.
  intros Hs Hn Hnull Hp Hv Hf.
  destruct (delete_round s free l1 p c l2 n Hs Hn Hnull Hp Hv Hf)
    as (s' & Hrun & Hk & Hsim & Hseed & Hout & Hna & Hnp & Hnd & Hfr & Hnull').
  exists s'. split_and!; try done.
  - rewrite fmap_app in Hn. apply NoDup_app in Hn as (_ & Hdis & Hn). simpl in Hn.
    apply dseg_app in Hs as [Hs1 Hs2]. simpl in Hs2. destruct Hs2 as (_ & _ & Hs2).
    apply dseg_app. simpl. split_and!; [|done|].
    + apply (dseg_frame (heap s)); [by destruct l1|]. intros x Hx.
      assert (Hxa : c_addr x ∈ c_addr <$> l1) by (apply list_elem_of_fmap; eauto).
      specialize (Hdis _ Hxa). simpl in Hdis. rewrite !not_elem_of_cons in Hdis.
      destruct Hdis as (? & ? & Hdl). apply Hfr; try done.
      destruct l2 as [|d l2]; simpl in *; [|set_solver].
      intros E. destruct (dseg_elem _ _ _ _ _ Hs1 Hx). congruence.
    + destruct l2 as [|d l2]; [done|]. simpl in Hs2 |- *. destruct Hs2 as [_ Hs2].
      split; [by apply Hnd|]. eapply dseg_frame; [exact Hs2|]. intros x Hx.
      assert (Hxa : c_addr x ∈ c_addr <$> l2) by (apply list_elem_of_fmap; eauto).
      simpl in Hn. rewrite !NoDup_cons, !not_elem_of_cons in Hn.
      apply Hfr; simpl; intros E; rewrite E in Hxa; tauto.
  - intros x Hx Hx0. apply Hfr; [apply Hx; set_solver..|].
    destruct l2 as [|d l2]; [done|]. apply Hx. set_solver.
Qed.

(** ** Unlinking a tower *)

Section tower.

Context (H : list Z) (T1 T2 : list tower) (pid vd : Z) (free : list Z).
Hypothesis Hlen : length H = 4%nat.

(** The cell of the tower with addresses [low ++ a :: high] at the level of [a]. *)
Lemma tower_cell low a high :
  tcell (length low) (Tower pid vd (low ++ a :: high)) = Some (Cell a pid vd (default NULL (last low))).
Proof using Type.
  clear Hlen. unfold tcell. simpl. rewrite lookup_app_r, Nat.sub_diag by done. simpl. do 2 f_equal.
  rewrite last_lookup. destruct (length low) as [|k'] eqn:Ek; [by destruct low|].
  simpl. by rewrite lookup_app_l by lia.
Qed.

Lemma tower_level_high low a high i b :
  high !! i = Some b ->
  exists d, tcell (length low + S i) (Tower pid vd (low ++ a :: high)) = Some d /\ c_addr d = b.
Proof using Type.
  clear Hlen. intros Hi. unfold tcell. simpl.
  rewrite lookup_app_r, Nat.add_comm, Nat.add_sub by lia. simpl. rewrite Hi. simpl. eauto.
Qed.

Lemma delete_levels_ok low : forall high s fuel,
  let t := Tower pid vd (low ++ high) in
  pa_rep (kmem s) (high ++ free) -> (height t <= 4)%nat -> (length low < fuel)%nat ->
  (forall j, (j < 4)%nat ->
     dseg (heap s) NULL
       (if decide (j < length low)%nat then level H (T1 ++ t :: T2) j else level H (T1 ++ T2) j)
       NULL) ->
  heap s !! NULL = None -> NoDup (all_addrs H (T1 ++ t :: T2)) ->
  Forall pa_valid low -> (forall a, a ∈ low -> a ∉ free) ->
  (forall a, a ∈ high -> heap s !! a = None) ->
  exists s', delete_from_levels fuel (default NULL (last low)) s = Ok (tt, s') /\
    pa_rep (kmem s') (low ++ high ++ free) /\ hw_sim (pa_hw (kmem s)) (pa_hw (kmem s')) /\
    seed s' = seed s /\ sout s' = sout s /\
    (forall j, (j < 4)%nat -> dseg (heap s') NULL (level H (T1 ++ T2) j) NULL) /\
    (forall x, x ∉ all_addrs H (T1 ++ t :: T2) -> x <> NULL -> heap s' !! x = heap s !! x) /\
    (forall a, a ∈ low ++ high -> heap s' !! a = None) /\ heap s' !! NULL = None.
Proof.
  induction low as [|a low IH] using rev_ind;
    intros high s fuel t Hp Hh Hfuel Hdll Hnull Hnd Hval Hfree Hhigh.
  - exists s. destruct fuel as [|fuel]; [simpl in Hfuel; lia|]. split_and!; done.
  - unfold t in *. clear t. rewrite <- app_assoc in *. cbn [app] in *.
    set (t := Tower pid vd (low ++ a :: high)) in *.
    rewrite length_app in Hfuel, Hdll. cbn [length] in Hfuel, Hdll.
    rewrite last_snoc. cbn [default id from_option].
    set (k := length low) in *.
    assert (Hk : (k < 4)%nat).
    { unfold t, height in Hh; simpl in Hh. rewrite length_app in Hh. simpl in Hh. lia. }
    set (c := Cell a pid vd (default NULL (last low))).
    assert (Hcell : tcell k t = Some c) by apply tower_cell.
    destruct (level_snoc H T1 k) as (l & p & El).
    pose proof (Hdll k Hk) as Hs. rewrite decide_True in Hs by lia.
    pose proof (level_nodup H (T1 ++ t :: T2) k Hnd ltac:(lia)) as Hlnd.
    assert (Elev : level H (T1 ++ t :: T2) k = l ++ p :: c :: tcells k T2)
      by (rewrite (level_new_cell _ _ _ _ _ _ Hcell), El, <- app_assoc; done).
    assert (Elev' : level H (T1 ++ T2) k = l ++ p :: tcells k T2)
      by (rewrite level_app, El, <- app_assoc; done).
    rewrite Elev in Hs, Hlnd. apply Forall_app in Hval as [Hval Hva].
    apply Forall_cons in Hva as [Hva _].
    assert (Hap : a ∉ high ++ free).
    { rewrite elem_of_app. intros [Ha|Ha]; [|apply (Hfree a); [set_solver|done]].
      unfold all_addrs in Hnd. rewrite map_app, concat_app in Hnd. simpl in Hnd.
      apply NoDup_app in Hnd as (_ & _ & Hnd). apply NoDup_app in Hnd as (_ & _ & Hnd).
      apply NoDup_app in Hnd as (Hnd & _). apply NoDup_app in Hnd as (_ & _ & Hnd).
      by apply NoDup_cons in Hnd as [? _]. }
    destruct fuel as [|fuel]; [lia|].
    destruct (delete_round_ok s (high ++ free) l p c (tcells k T2) fuel Hs Hlnd Hnull Hp Hva Hap)
      as (s1 & Hrun & Hp1 & Hsim1 & Hseed1 & Hout1 & Ha1 & Hs1 & Hfr1 & Hnull1).
    change a with (c_addr c) at 1. rewrite Hrun. rewrite <- Elev in Hfr1. rewrite <- Elev' in Hs1.
    assert (Hother : forall j d, (j < 4)%nat -> j <> k -> d ∈ level H (T1 ++ t :: T2) j ->
              c_addr d <> NULL -> heap s1 !! c_addr d = heap s !! c_addr d).
    { intros j d Hj Hjk Hd Hd0. apply Hfr1; [|done]. intros d' Hd'.
      apply (level_disjoint H (T1 ++ t :: T2) j k); auto with lia. }
    destruct (IH (a :: high) s1 fuel) as
      (s2 & Hrun2 & Hp2 & Hsim2 & Hseed2 & Hout2 & Hs2 & Hfr2 & Hgone & Hnull2); try done.
    { lia. }
    { fold t k. intros j Hj. specialize (Hdll j Hj).
      destruct (decide (j = k)) as [-> |Hjk]; [by rewrite decide_False by lia|].
      destruct (decide (j < k)%nat) as [Hlt|Hge];
        [rewrite decide_True in Hdll by lia|rewrite decide_False in Hdll by lia];
        (eapply dseg_frame; [exact Hdll|]); intros d Hd;
        (apply (Hother j d); [done|done|first [exact Hd|by apply level_middle_elem]|]);
        exact (dseg_nonnull _ _ _ _ _ Hnull Hdll Hd). }
    { intros b Hb. apply Hfree. set_solver. }
    { intros b [-> |Hb]%elem_of_cons; [done|].
      apply list_elem_of_lookup in Hb as [i Hi].
      pose proof (tower_level_high low a high i b Hi) as (d & Hd & <-). fold t in Hd.
      pose proof (lookup_lt_Some _ _ _ Hi) as Hilt.
      assert (Hb : c_addr d ∈ high) by (by eapply list_elem_of_lookup_2).
      rewrite (Hother (k + S i)%nat d); auto with lia.
      - unfold t, height in Hh; simpl in Hh. rewrite length_app in Hh. simpl in Hh. unfold k. lia.
      - rewrite level_app. apply elem_of_app. right. apply list_elem_of_omap. exists t. split; [left|done].
      - apply (pa_rep_nonnull _ _ _ Hp). set_solver. }
    exists s2. fold t in Hfr2. rewrite <- !app_assoc. cbn [app]. split_and!; try done; try congruence.
    + by etransitivity.
    + intros x Hx Hx0. rewrite Hfr2; [|done|done]. apply Hfr1; [|done].
      intros d Hd ->. apply Hx. apply (level_all_addrs _ _ k _ Hd). lia.
Qed.

End tower.

(** ** The search *)

Lemma delete_walk_ok s pid vd b : forall l1 c d fuel,
  dseg (heap s) NULL (l1 ++ c :: b ++ d) NULL -> heap s !! NULL = None ->
  Forall (fun x => c_vd x < vd /\ c_pid x <> pid) (c :: b) ->
  match d with [] => True | x :: _ => vd <= c_vd x end ->
  (length b + length d < fuel)%nat ->
  delete_walk fuel pid vd (c_addr c) s = Ok (first_addr d (last_addr (c_addr c) b), s).
Proof.
  induction b as [|x b IH]; intros l1 c d [|fuel] Hs Hnull Hb Hd Hf; try lia;
    apply Forall_cons in Hb as [[Hcv Hcp] Hb]; cbn [delete_walk];
    rewrite (bind_Ok _ _ _ _ _ (load_node_ok _ _ _ (dseg_lookup _ _ _ _ _ _ Hs)));
    cbn [cnode n_vd n_pid n_next];
    replace (c_vd c <? vd) with true by lia; replace (c_pid c =? pid) with false by lia;
    replace (vd <? c_vd c) with false by lia; cbn [negb andb orb].
  - destruct d as [|x d]; cbn [app first_addr last_addr]; [done|].
    assert (Hx : c_addr x <> NULL) by (eapply dseg_nonnull; [done|done|set_solver]).
    replace (c_addr x =? NULL) with false by lia. destruct fuel as [|fuel]; [simpl in Hf; lia|].
    cbn [delete_walk app] in *. rewrite (cons_middle c l1), app_assoc in Hs.
    rewrite (bind_Ok _ _ _ _ _ (load_node_ok _ _ _ (dseg_lookup _ _ _ _ _ _ Hs))). cbn [cnode n_vd].
    by replace (c_vd x <? vd) with false by lia.
  - cbn [app first_addr last_addr].
    assert (Hx : c_addr x <> NULL) by (eapply dseg_nonnull; [done|done|set_solver]).
    replace (c_addr x =? NULL) with false by lia.
    cbn [app] in Hs. rewrite (cons_middle c l1), app_assoc in Hs.
    apply (IH (l1 ++ [c])); try done. simpl in Hf. lia.
Qed.

Section search.

Context (s : sst K) (H : list Z) (T1 T2 : list tower) (pid vd : Z).
Hypothesis Hdll : forall i, (i < 4)%nat -> dseg (heap s) NULL (level H (T1 ++ T2) i) NULL.
Hypothesis Hnull : heap s !! NULL = None.
Hypothesis Hlen : length H = 4%nat.
Hypothesis Hnodup : NoDup (all_addrs H (T1 ++ T2)).
Hypothesis Hlt : Forall (fun t => t_vd t < vd) T1.
Hypothesis Hge : Forall (fun t => vd <= t_vd t) T2.
Hypothesis Hpid1 : Forall (fun t => t_pid t <> pid) T1.
Hypothesis Hvd : 0 <= vd.
Hypothesis Hpid : pid <> -1.

(** Where the search ends: the highest level at which the first node with a
    deadline that is not smaller is the one looked for. *)
Fixpoint found_at (n : nat) : option (Z * Z) :=
  match n with
  | O => None
  | S i =>
      match tcells i T2 with
      | c :: _ =>
          if (c_pid c =? pid) && (c_vd c =? vd) then Some (c_addr c, Z.of_nat i) else found_at i
      | [] => found_at i
      end
  end.

Lemma level_below i c : c ∈ level H T1 i -> c_vd c < vd /\ c_pid c <> pid.
Proof.
  intros [-> |Hc]%elem_of_cons; [simpl; lia|].
  apply tcells_elem in Hc as (t & Ht & Hc). apply tcell_Some in Hc as (_ & -> & ->).
  rewrite Forall_forall in Hlt, Hpid1. auto.
Qed.

Lemma delete_walk_level i c :
  (i < 4)%nat -> c ∈ level H T1 i ->
  delete_walk (walk_fuel s) pid vd (c_addr c) s =
  Ok (first_addr (tcells i T2) (prev_addr H T1 i), s).
Proof.
  intros Hi Hc. pose proof (level_length_fuel s H T1 T2 Hdll Hlen Hnodup i Hi) as Hfuel.
  pose proof (Hdll i Hi) as Hs. pose proof (level_below i) as Hb.
  rewrite level_app in Hs, Hfuel. apply list_elem_of_split in Hc as (l1 & b & El). unfold prev_addr.
  rewrite El in Hs, Hfuel, Hb |- *. rewrite last_addr_app. cbn [last_addr].
  rewrite <- app_assoc in Hs. simpl in Hs.
  apply (delete_walk_ok s pid vd b l1 c (tcells i T2)); try done.
  - apply Forall_forall. intros x Hx. apply Hb. set_solver.
  - destruct (tcells i T2) as [|x l] eqn:E; [done|].
    apply (tcells_elem_vd i T2 x (fun v => vd <= v)); [done|]. rewrite E. left.
  - rewrite !length_app in Hfuel. simpl in Hfuel. lia.
Qed.

(** The node the walk back ends at, and the nodes it passes. *)
Lemma delete_back_level i l x :
  (i < 4)%nat -> level H T1 i = l ++ [x] ->
  delete_back (walk_fuel s) vd (first_addr (tcells i T2) (c_addr x)) s = Ok (c_addr x, s).
Proof.
  intros Hi El. pose proof (Hdll i Hi) as Hs. rewrite level_app, El in Hs.
  pose proof (level_length_fuel s H T1 T2 Hdll Hlen Hnodup i Hi) as Hfuel.
  rewrite level_app, El, !length_app in Hfuel. simpl in Hfuel.
  generalize dependent (walk_fuel s). intros fuel Hfuel.
  destruct (level_below i x) as [Hx _]; [rewrite El; set_solver|].
  assert (Hlx : forall f, delete_back (S f) vd (c_addr x) s = Ok (c_addr x, s)).
  { intros f. cbn [delete_back]. rewrite <- app_assoc in Hs.
    rewrite (bind_Ok _ _ _ _ _ (load_node_ok _ _ _ (dseg_lookup _ _ _ _ _ _ Hs))). cbn [cnode n_vd].
    by replace (vd <=? c_vd x) with false by lia. }
  pose proof (fun c => tcells_elem_vd i T2 c (fun v => vd <= v) Hge) as Hc.
  destruct (tcells i T2) as [|c cs]; simpl.
  - destruct fuel; [lia|]. apply Hlx.
  - destruct fuel as [|[|f]]; [simpl in Hfuel; lia..|].
    specialize (Hc c ltac:(left)). simpl in Hc. cbn [delete_back].
    rewrite (bind_Ok _ _ _ _ _ (load_node_ok _ _ _ (dseg_lookup _ _ _ _ _ _ Hs))).
    cbn [cnode n_vd n_prev]. rewrite last_addr_snoc.
    replace (vd <=? c_vd c) with true by lia. apply Hlx.
Qed.

Lemma delete_search_ok n : forall cur,
  (n <= 4)%nat -> (forall i, n = S i -> exists c, c ∈ level H T1 i /\ c_addr c = cur) ->
  delete_search n pid vd cur s = Ok (found_at n, s).
Proof.
  induction n as [|i IH]; intros cur Hn Hcur; [done|]. cbn [delete_search found_at].
  destruct (Hcur i eq_refl) as (c & Hc & <-). step.
  rewrite (bind_Ok _ _ _ _ _ (delete_walk_level i c ltac:(lia) Hc)).
  destruct (level_snoc H T1 i) as (l & x & El).
  assert (Hx : prev_addr H T1 i = c_addr x) by (unfold prev_addr; by rewrite El, last_addr_snoc).
  pose proof (Hdll i ltac:(lia)) as Hs. rewrite level_app, El, <- app_assoc in Hs.
  pose proof (load_node_ok _ _ _ (dseg_lookup _ _ _ _ _ _ Hs)) as Hlx.
  destruct (level_below i x) as [Hxv Hxp]; [rewrite El; set_solver|].
  pose proof (delete_back_level i l x ltac:(lia) El) as Hback.
  assert (Hnext : bind (delete_back (walk_fuel s) vd (first_addr (tcells i T2) (c_addr x)))
     (fun cur => let* c := load_node cur in delete_search i pid vd (n_fwd c)) s = Ok (found_at i, s)).
  { rewrite (bind_Ok _ _ _ _ _ Hback), (bind_Ok _ _ _ _ _ Hlx). apply IH; [lia|]. intros j ->.
    destruct (level_fwd H T1 j x) as (d & Hd & Hda); [rewrite El; set_solver|]. eauto. }
  rewrite Hx. destruct (tcells i T2) as [|d ds]; cbn [first_addr] in *.
  - rewrite (bind_Ok _ _ _ _ _ Hlx). cbn [cnode n_pid n_vd].
    replace (c_pid x =? pid) with false by lia. exact Hnext.
  - rewrite cons_middle, app_assoc in Hs. apply dseg_lookup, load_node_ok in Hs.
    rewrite (bind_Ok _ _ _ _ _ Hs). cbn [cnode n_pid n_vd].
    destruct (_ && _); [done|exact Hnext].
Qed.

End search.

(** ** Which tower the search meets *)

Section found.

Context (B C : list tower) (P : tower).

Let pid := t_pid P.
Let vd := t_vd P.

Hypothesis HB : Forall (fun t => t_pid t <> pid) B.
Hypothesis HC : Forall (fun t => t_pid t <> pid) C.

Lemma tcells_pid_ne i T c : Forall (fun t => t_pid t <> pid) T -> c ∈ tcells i T -> c_pid c <> pid.
Proof using Type.
  clear. intros HF (t & Ht & Hc)%tcells_elem. apply tcell_Some in Hc as (_ & -> & _).
  rewrite Forall_forall in HF. auto.
Qed.

Lemma found_at_absent n T : Forall (fun t => t_pid t <> pid) T -> found_at T pid vd n = None.
Proof using Type.
  clear. intros HT. induction n as [|i IH]; [done|]. cbn [found_at].
  pose proof (fun c => tcells_pid_ne i T c HT) as Hp.
  destruct (tcells i T) as [|c cs]; [done|]. specialize (Hp c ltac:(left)).
  by replace (c_pid c =? pid) with false by lia.
Qed.

(** At levels above the tower, the search does not find it. *)
Lemma found_at_above i :
  (height P <= i)%nat -> found_at (B ++ P :: C) pid vd (S i) = found_at (B ++ P :: C) pid vd i.
Proof.
  intros Hi. cbn [found_at].
  assert (E : tcells i (B ++ P :: C) = tcells i (B ++ C)).
  { rewrite !tcells_app. unfold tcells at 2. simpl. by rewrite tcell_None. }
  pose proof (fun c => tcells_pid_ne i (B ++ C) c ltac:(by apply Forall_app)) as Hp.
  rewrite E. destruct (tcells i (B ++ C)) as [|c cs]; [done|]. specialize (Hp c ltac:(left)).
  by replace (c_pid c =? pid) with false by lia.
Qed.

Lemma found_at_hit n :
  (1 <= height P <= n)%nat -> Forall (fun b => height b < height P)%nat B ->
  found_at (B ++ P :: C) pid vd n = Some (default NULL (last (t_addrs P)), Z.of_nat (height P) - 1).
Proof.
  intros Hn Hb. induction n as [|i IH]; [lia|].
  destruct (decide (height P <= i)%nat) as [Hi|Hi]; [rewrite found_at_above by done; apply IH; lia|].
  assert (Ei : i = pred (height P)) by lia. cbn [found_at]. rewrite tcells_app.
  assert (EB : tcells i B = []).
  { clear -Hb Ei. induction Hb as [|b B Hb1 Hb IH]; [done|]. unfold tcells. simpl.
    rewrite tcell_None by lia. exact IH. }
  rewrite EB. unfold tcells. simpl. destruct (tcell i P) as [c|] eqn:Ec.
  - apply tcell_Some in Ec as (Ha & -> & ->). rewrite !Z.eqb_refl. simpl. do 2 f_equal; [|lia].
    rewrite last_lookup. unfold height in Ei. by rewrite <- Ei, Ha.
  - exfalso. unfold tcell in Ec. destruct (t_addrs P !! i) eqn:E; [done|].
    apply lookup_ge_None in E. unfold height in *. lia.
Qed.

(** An entry with the same deadline in front of it, at least as high, hides it. *)
Lemma found_at_shadowed n :
  Exists (fun b => height P <= height b)%nat B -> found_at (B ++ P :: C) pid vd n = None.
Proof.
  intros Hb. induction n as [|i IH]; [done|].
  destruct (decide (height P <= i)%nat) as [Hi|Hi]; [by rewrite found_at_above|].
  cbn [found_at]. rewrite tcells_app. pose proof (fun c => tcells_pid_ne i B c HB) as Hp.
  destruct (tcells i B) as [|c cs] eqn:E; simpl.
  - exfalso. apply Exists_exists in Hb as (b & Hb & Hh).
    assert (Hin : is_Some (tcell i b)).
    { unfold tcell. destruct (lookup_lt_is_Some_2 (t_addrs b) i) as [x Hx]; [unfold height in *; lia|].
      rewrite Hx. simpl. eauto. }
    destruct Hin as [c Hc]. assert (Hin : c ∈ tcells i B) by (apply list_elem_of_omap; eauto).
    rewrite E in Hin. by apply elem_of_nil in Hin.
  - specialize (Hp c ltac:(left)). by replace (c_pid c =? pid) with false by lia.
Qed.

End found.

Definition removed_msg (pid lvl : Z) : list Z :=
  codes "removed|[" ++ dec pid ++ codes "]" ++ dec lvl ++ [NL].

Lemma print_removed s pid lvl :
  print "removed|[%d]%d" [AInt pid; AInt lvl] s =
  Ok (tt, Sst (heap s) (kmem s) (seed s) (sout s ++ codes "removed|[" ++ dec pid ++ codes "]" ++ dec lvl)).
Proof.
  unfold print, cprintf.
  assert (E : cprintf_loop (codes "removed|[%d]%d") [AInt pid; AInt lvl]
              = Ok (codes "removed|[" ++ dec pid ++ codes "]" ++ dec lvl ++ [])).
  { cbn [codes app map]. repeat (apply cprintf_text; [reflexivity|]). apply cprintf_d.
    apply cprintf_text; [reflexivity|]. by apply cprintf_d. }
  rewrite E. by rewrite app_nil_r.
Qed.

(** ** delete_node *)

Lemma r_size s sl H T free : sl_rep s sl H T free -> (length (all_addrs H T) <= size (heap s))%nat.
Proof.
  intros Hr. pose proof (r_nodup _ _ _ _ _ Hr) as Hn.
  rewrite <- (size_list_to_set (C := gset Z)) by done. rewrite <- size_dom.
  apply subseteq_size. intros a Ha%elem_of_list_to_set. apply elem_of_dom.
  destruct (r_node_object _ _ _ _ _ _ Hr Ha) as [n ->]. eauto.
Qed.

Lemma sorted_app_le T1 T2 a b :
  StronglySorted vd_le (T1 ++ T2) -> a ∈ T1 -> b ∈ T2 -> t_vd a <= t_vd b.
Proof.
  induction T1 as [|x T1 IH]; simpl; intros Hs Ha Hb; [by apply elem_of_nil in Ha|].
  apply StronglySorted_inv in Hs as [Hs Hx]. apply elem_of_cons in Ha as [-> |Ha]; [|auto].
  rewrite Forall_forall in Hx. apply Hx. set_solver.
Qed.

Lemma sorted_prefix T1 T2 : StronglySorted vd_le (T1 ++ T2) -> StronglySorted vd_le T1.
Proof.
  induction T1 as [|x T1 IH]; simpl; [constructor|]. intros [Hs Hx]%StronglySorted_inv.
  constructor; [auto|]. by apply Forall_app in Hx as [Hx _].
Qed.

Lemma sorted_remove A P C : StronglySorted vd_le (A ++ P :: C) -> StronglySorted vd_le (A ++ C).
Proof.
  induction A as [|x A IH]; simpl; intros [Hs Hx]%StronglySorted_inv; [done|].
  constructor; [auto|]. apply Forall_app in Hx as [Hx1 Hx2]. apply Forall_cons in Hx2 as [_ Hx2].
  by apply Forall_app.
Qed.

(** The search part of [delete_node], for any queue. *)
Lemma delete_node_search s sl H T free pid vd :
  sl_rep s sl H T free -> 0 <= vd -> pid <> -1 ->
  Forall (fun t => t_vd t < vd -> t_pid t <> pid) T ->
  delete_node sl pid vd s =
  bind (match found_at (snd (split_vd (vd - 1) T)) pid vd 4 with
        | Some (current_node, current_level) =>
            let* f := gets walk_fuel in
            delete_from_levels f current_node ;;;
            print "removed|[%d]%d" [AInt pid; AInt current_level] ;;;
            putnl
        | None => ret tt
        end) (fun _ => ret (-1)) s.
Proof.
  intros Hr Hvd Hpid Hp. unfold delete_node.
  rewrite (bind_Ok _ _ _ _ _ (get_levels_ok _ _ _ _ _ Hr)).
  rewrite (bind_Ok _ _ _ _ _ (get_header_ok _ _ _ _ _ (SKIPLIST_LEVELS - 1) Hr ltac:(done))).
  pose proof (split_vd_app (vd - 1) T) as HT.
  destruct Hr as [Hlen _ Hdll Hnd _ Hsort Hnull _ _ _]. pose proof (split_vd_le (vd - 1) T) as Hle.
  pose proof (split_vd_gt _ _ Hsort : Forall (fun t => vd - 1 < t_vd t) _) as Hgt.
  erewrite bind_Ok; [reflexivity|].
  apply (delete_search_ok s H (fst (split_vd (vd - 1) T)) (snd (split_vd (vd - 1) T)) pid vd);
    rewrite ?HT; try done.
  - eapply Forall_impl; [exact Hle|]. simpl. intros; lia.
  - eapply Forall_impl; [exact Hgt|]. simpl. intros; lia.
  - rewrite <- HT in Hp. apply Forall_app in Hp as [Hp _].
    rewrite Forall_forall in Hp, Hle |- *. intros t Ht. apply Hp; [done|]. specialize (Hle t Ht). lia.
  - intros i [= <-]. exists (hcell H 3). split; [left|done].
Qed.

(** Removing the tower [P]. *)
Lemma delete_node_unlink s sl H A P C free :
  sl_rep s sl H (A ++ P :: C) free ->
  exists s', delete_from_levels (walk_fuel s) (default NULL (last (t_addrs P))) s = Ok (tt, s') /\
    sl_rep s' sl H (A ++ C) (t_addrs P ++ free) /\
    hw_sim (pa_hw (kmem s)) (pa_hw (kmem s')) /\ seed s' = seed s /\ sout s' = sout s.
Proof.
  intros Hr. pose proof (r_size _ _ _ _ _ Hr) as Hsize.
  pose proof (fun a => r_node_object s sl H _ free a Hr) as Hobj.
  destruct P as [pid vd addrs]. destruct Hr as [Hlen Hst Hdll Hnd Hhs Hsort Hnull Hal Hfresh Hval].
  assert (Hin : forall a, a ∈ addrs -> a ∈ all_addrs H (A ++ Tower pid vd addrs :: C)).
  { intros a Ha. rewrite all_addrs_middle. simpl. set_solver. }
  pose proof (all_addrs_middle H A (Tower pid vd addrs) C) as Hperm. simpl in Hperm.
  rewrite Hperm in Hsize. rewrite length_app in Hsize.
  pose proof Hhs as Hhs'. apply Forall_app in Hhs as [HhA [HhP HhC]%Forall_cons]. unfold height in HhP; simpl in HhP.
  apply Forall_app in Hval as [HvA [HvP HvC]%Forall_cons].
  destruct (delete_levels_ok H A C pid vd free Hlen addrs [] s (walk_fuel s))
    as (s' & Hrun & Hp & Hsim & Hseed & Hout & Hdll' & Hfr & Hgone & Hnull');
    rewrite ?app_nil_r; try done.
  { unfold height; simpl. lia. }
  { unfold walk_fuel. lia. }
  { intros j Hj. case_decide as Hd; [auto|]. specialize (Hdll j Hj).
    rewrite level_no_cell in Hdll; [done|]. apply tcell_None. unfold height; simpl. lia. }
  { intros a Ha Hf. destruct (Hobj a (Hin a Ha)) as [n Hn]. rewrite Hfresh in Hn by done. done. }
  { intros a Ha. by apply elem_of_nil in Ha. }
  rewrite app_nil_r in Hfr, Hgone. cbn [app] in Hp.
  exists s'. split_and!; try done. rewrite Hperm in Hnd. apply NoDup_app in Hnd as (_ & _ & Hnd).
  constructor; try done.
  - destruct Hst as (ha & ws & Hsl & Hha & Ht). exists ha, ws.
    split_and!; [..|done]; rewrite Hfr; try done; try congruence;
      intros Hi; destruct (Hobj _ Hi); congruence.
  - by apply Forall_app.
  - by eapply sorted_remove.
  - intros a [Ha|Ha]%elem_of_app; [by apply Hgone|]. rewrite Hfr; [by apply Hfresh| |].
    + intros Hi. destruct (Hobj a Hi) as [n Hn]. rewrite Hfresh in Hn by done. done.
    + apply (pa_rep_nonnull _ _ _ Hal Ha).
  - by apply Forall_app.
Qed.

Lemma split_vd_middle v A P C :
  v < t_vd P -> snd (split_vd v (A ++ P :: C)) = snd (split_vd v A) ++ P :: C.
Proof.
  intros Hv. induction A as [|x A IH]; simpl.
  - by replace (t_vd P <=? v) with false by lia.
  - by destruct (t_vd x <=? v).
Qed.

Lemma split_vd_sub v T : Forall (fun t => t ∈ T) (snd (split_vd v T)).
Proof.
  apply Forall_forall. intros t Ht. rewrite <- (split_vd_app v T). set_solver.
Qed.

Definition unique_pids (T : list tower) : Prop := NoDup (t_pid <$> T).

Lemma unique_pids_middle A P C :
  unique_pids (A ++ P :: C) -> Forall (fun t => t_pid t <> t_pid P) (A ++ C).
Proof.
  unfold unique_pids. rewrite fmap_app. simpl. intros Hn. apply NoDup_app in Hn as (_ & Hd & Hn).
  apply NoDup_cons in Hn as [Hn _]. apply Forall_app. split; apply Forall_forall; intros t Ht E.
  - apply (Hd (t_pid P)); [|left]. rewrite <- E. apply list_elem_of_fmap. eauto.
  - apply Hn. rewrite <- E. apply list_elem_of_fmap. eauto.
Qed.

Lemma delete_node_found s sl H A P C free :
  sl_rep s sl H (A ++ P :: C) free -> 0 <= t_vd P -> t_pid P <> -1 -> unique_pids (A ++ P :: C) ->
  delete_node sl (t_pid P) (t_vd P) s =
  bind (match found_at (snd (split_vd (t_vd P - 1) A) ++ P :: C) (t_pid P) (t_vd P) 4 with
        | Some (current_node, current_level) =>
            let* f := gets walk_fuel in
            delete_from_levels f current_node ;;;
            print "removed|[%d]%d" [AInt (t_pid P); AInt current_level] ;;;
            putnl
        | None => ret tt
        end) (fun _ => ret (-1)) s.
Proof.
  intros Hr Hvd Hpid Hu. rewrite (delete_node_search _ _ _ _ _ _ _ Hr); try done.
  - by rewrite split_vd_middle by lia.
  - apply unique_pids_middle in Hu. rewrite Forall_forall in Hu |- *. intros t Ht Hlt.
    apply elem_of_app in Ht as [Ht|[-> |Ht]%elem_of_cons]; [|lia|]; apply Hu; set_solver.
Qed.

(** The entry is removed when no entry of the same deadline in front of it is
    as high. *)
Lemma delete_node_hit s sl H A P C free :
  sl_rep s sl H (A ++ P :: C) free -> 0 <= t_vd P -> t_pid P <> -1 -> unique_pids (A ++ P :: C) ->
  Forall (fun b => t_vd b = t_vd P -> (height b < height P)%nat) A ->
  exists s', delete_node sl (t_pid P) (t_vd P) s = Ok (-1, s') /\
    sl_rep s' sl H (A ++ C) (t_addrs P ++ free) /\
    hw_sim (pa_hw (kmem s)) (pa_hw (kmem s')) /\ seed s' = seed s /\
    sout s' = sout s ++ removed_msg (t_pid P) (Z.of_nat (height P) - 1).
Proof.
  intros Hr Hvd Hpid Hu Hsh. rewrite (delete_node_found _ _ _ _ _ _ _ Hr) by done.
  pose proof (unique_pids_middle _ _ _ Hu) as Hne. apply Forall_app in Hne as [HnA HnC].
  pose proof (split_vd_sub (t_vd P - 1) A) as Hsub. set (B := snd _) in *.
  assert (HnB : Forall (fun t => t_pid t <> t_pid P) B).
  { eapply Forall_impl; [exact Hsub|]. rewrite Forall_forall in HnA. auto. }
  assert (Hh : (1 <= height P <= 4)%nat).
  { pose proof (r_heights _ _ _ _ _ Hr) as Hh. rewrite Forall_forall in Hh. apply Hh. set_solver. }
  rewrite found_at_hit; [|done|done|done|].
  - destruct (delete_node_unlink _ _ _ _ _ _ _ Hr) as (s' & Hrun & Hr' & Hsim & Hseed & Hout).
    erewrite bind_Ok.
    2:{ step. erewrite bind_Ok by exact Hrun. erewrite bind_Ok by apply print_removed. reflexivity. }
    eexists. split; [reflexivity|]. split_and!; try done.
    + by destruct Hr'; constructor.
    + cbn -[codes dec removed_msg]. rewrite Hout. unfold removed_msg. by rewrite <- !app_assoc.
  - apply Forall_forall. intros b Hb. rewrite Forall_forall in Hsh, Hsub.
    apply Hsh; [auto|]. apply Z.le_antisymm.
    + apply (sorted_app_le A (P :: C)); [exact (r_sorted _ _ _ _ _ Hr)|auto|left].
    + pose proof (sorted_prefix _ _ (r_sorted _ _ _ _ _ Hr)) as HsA.
      pose proof (split_vd_gt (t_vd P - 1) A HsA) as Hgt. rewrite Forall_forall in Hgt.
      specialize (Hgt b Hb). simpl in Hgt. lia.
Qed.

(** An entry hidden by one with the same deadline stays, silently. *)
Lemma delete_node_shadowed s sl H A P C free :
  sl_rep s sl H (A ++ P :: C) free -> 0 <= t_vd P -> t_pid P <> -1 -> unique_pids (A ++ P :: C) ->
  Exists (fun b => t_vd b = t_vd P /\ (height P <= height b)%nat) A ->
  delete_node sl (t_pid P) (t_vd P) s = Ok (-1, s).
Proof.
  intros Hr Hvd Hpid Hu Hsh. rewrite (delete_node_found _ _ _ _ _ _ _ Hr) by done.
  pose proof (unique_pids_middle _ _ _ Hu) as Hne. apply Forall_app in Hne as [HnA HnC].
  pose proof (split_vd_sub (t_vd P - 1) A) as Hsub. pose proof (split_vd_app (t_vd P - 1) A) as HA.
  pose proof (split_vd_le (t_vd P - 1) A) as Hle.
  rewrite found_at_shadowed; [done| |done|].
  - eapply Forall_impl; [exact Hsub|]. rewrite Forall_forall in HnA. auto.
  - rewrite Exists_exists in Hsh |- *. destruct Hsh as (b & Hb & Hbv & Hbh). exists b. split; [|done].
    rewrite <- HA in Hb. apply elem_of_app in Hb as [Hb|Hb]; [|done].
    rewrite Forall_forall in Hle. specialize (Hle b Hb). simpl in Hle. lia.
Qed.

Lemma delete_node_absent s sl H T free pid vd :
  sl_rep s sl H T free -> 0 <= vd -> pid <> -1 -> Forall (fun t => t_pid t <> pid) T ->
  delete_node sl pid vd s = Ok (-1, s).
Proof.
  intros Hr Hvd Hpid Hp. rewrite (delete_node_search _ _ _ _ _ _ _ Hr); try done.
  - pose proof (found_at_absent (Tower pid vd []) 4 (snd (split_vd (vd - 1) T))) as E.
    cbn [t_pid t_vd] in E. rewrite E; [done|].
    eapply Forall_impl; [apply split_vd_sub|]. rewrite Forall_forall in Hp. auto.
  - eapply Forall_impl; [exact Hp|]. done.
Qed.

(** The first entry can always be removed. *)
Lemma delete_first s sl H P C free :
  sl_rep s sl H (P :: C) free -> 0 <= t_vd P -> t_pid P <> -1 -> unique_pids (P :: C) ->
  exists s', delete_node sl (t_pid P) (t_vd P) s = Ok (-1, s') /\
    sl_rep s' sl H C (t_addrs P ++ free) /\
    hw_sim (pa_hw (kmem s)) (pa_hw (kmem s')) /\ seed s' = seed s /\
    sout s' = sout s ++ removed_msg (t_pid P) (Z.of_nat (height P) - 1).
Proof. intros Hr Hvd Hpid Hu. by apply (delete_node_hit s sl H [] P C free). Qed.

Lemma get_minimum_ok s sl H T free :
  sl_rep s sl H T free ->
  get_minimum sl s = Ok (match T with [] => -69 | t :: _ => t_pid t end, s).
Proof.
  intros Hr. unfold get_minimum.
  rewrite (bind_Ok _ _ _ _ _ (get_header_ok _ _ _ _ _ 0 Hr ltac:(done))).
  destruct Hr as [Hlen _ Hdll _ Hh _ Hnull _ _ _]. pose proof (Hdll 0%nat ltac:(lia)) as Hs.
  pose proof (dseg_lookup _ _ [] (hcell H 0) _ _ Hs) as Hh0.
  change (nth (Z.to_nat 0) H NULL) with (c_addr (hcell H 0)).
  rewrite (bind_Ok _ _ _ _ _ (load_node_ok _ _ _ Hh0)). cbn [cnode n_next].
  destruct T as [|t T]; [done|]. apply Forall_cons in Hh as [Ht _].
  assert (exists c, tcell 0 t = Some c /\ c_pid c = t_pid t) as (c & Hc & Hcp).
  { unfold tcell. destruct (lookup_lt_is_Some_2 (t_addrs t) 0) as [x Hx]; [unfold height in Ht; lia|].
    rewrite Hx. simpl. eauto. }
  assert (E : tcells 0 (t :: T) = c :: tcells 0 T) by (unfold tcells; simpl; by rewrite Hc).
  unfold level in Hs. rewrite E in Hs |- *. cbn [first_addr].
  assert (Hc0 : c_addr c <> NULL) by (eapply dseg_nonnull; [done|exact Hs|set_solver]).
  replace (c_addr c =? NULL) with false by lia. cbn [negb].
  pose proof (dseg_lookup _ _ [hcell H 0] c _ _ Hs) as Hlc.
  rewrite (bind_Ok _ _ _ _ _ (load_node_ok _ _ _ Hlc)). cbn [cnode n_pid]. by rewrite Hcp.
Qed.

End delete.
