(* ===== verification/RunQueue.v ===== *)
(** * The run queue as a sorted list

    What the scheduler relies on: the skip list of [proc.c] implements a list
    of (pid, virtual deadline) pairs sorted by deadline, first come first
    served among equals.  [queue_rep] hides headers, towers and levels; the
    theorems below are about every call the scheduler makes. *)

From S2P Require Import Prelude Spinlock Mmu Kalloc Console.
From S2P Require Import SkipList SkipListRep SkipListInsert SkipListInit SkipListDelete.

Section queue.

Context {K : Type} `{!PageAlloc K} `{!PageAllocLaws K}.

Implicit Types (s : sst K).

(** The queue at [sl] holds the entries [l]; [free] are the free pages. *)
Definition queue_rep (s : sst K) (sl : Z) (l : list (Z * Z)) (free : list Z) : Prop :=
  exists H T, sl_rep s sl H T free /\ entries T = l.

(** ** Facts about the abstract queue *)

Definition key_le (a b : Z * Z) : Prop := snd a <= snd b.

Lemma insert_entry_perm e l : insert_entry e l ≡ₚ e :: l.
Proof.
  induction l as [|x l IH]; simpl; [done|]. destruct (snd x <=? snd e); [|done].
  rewrite IH. apply Permutation_swap.
Qed.

Lemma insert_entry_sorted e l : StronglySorted key_le l -> StronglySorted key_le (insert_entry e l).
Proof.
  induction 1 as [|x l Hl IH Hx]; simpl; [repeat constructor|].
  destruct (Z.leb_spec (snd x) (snd e)).
  - constructor; [done|]. apply Forall_forall. intros y Hy. rewrite insert_entry_perm in Hy.
    apply elem_of_cons in Hy as [-> |Hy]; [done|]. rewrite Forall_forall in Hx. auto.
  - constructor; [by constructor|]. constructor; [unfold key_le; lia|].
    eapply Forall_impl; [exact Hx|]. unfold key_le. intros; lia.
Qed.

Lemma entries_sorted T : StronglySorted vd_le T -> StronglySorted key_le (entries T).
Proof.
  induction 1 as [|t T HT IH Ht]; simpl; constructor; [done|].
  apply Forall_forall. intros e He. apply list_elem_of_In, in_map_iff in He as (t' & <- & Ht').
  rewrite Forall_forall in Ht. apply Ht. by apply list_elem_of_In.
Qed.

Lemma entries_pids T : fst <$> entries T = t_pid <$> T.
Proof. induction T as [|t T IH]; [done|]. csimpl. by rewrite IH. Qed.

Lemma queue_sorted s sl l free : queue_rep s sl l free -> StronglySorted key_le l.
Proof. intros (H & T & Hr & <-). by apply entries_sorted, (r_sorted _ _ _ _ _ Hr). Qed.

(** ** The operations *)

Lemma queue_init s sl ha free :
  pa_rep (kmem s) (sl :: ha :: free) -> (4 <= length free)%nat ->
  (forall a, a ∈ sl :: ha :: free -> heap s !! a = None) -> heap s !! NULL = None ->
  exists s', init_skiplist s = Ok (sl, s') /\ queue_rep s' sl [] (drop 4 free) /\
    hw_sim (pa_hw (kmem s)) (pa_hw (kmem s')) /\ seed s' = seed s /\ sout s' = sout s.
Proof.
  intros Hp Hn Hf Hnull. destruct (init_skiplist_ok s sl ha free Hp Hn Hf Hnull)
    as (s' & Hrun & Hr & Hrest). exists s'. split; [done|]. split; [|done]. by exists (take 4 free), [].
Qed.

Lemma queue_insert s sl l free pid vd :
  queue_rep s sl l free ->
  let lvl := fst (draw_level (seed s)) in
  lvl <= 3 -> lvl < Z.of_nat (length free) ->
  exists s', insert_node sl pid vd s = Ok (lvl, s') /\
    queue_rep s' sl (insert_entry (pid, vd) l) (drop (Z.to_nat (lvl + 1)) free) /\
    hw_sim (pa_hw (kmem s)) (pa_hw (kmem s')) /\
    seed s' = snd (draw_level (seed s)) /\ sout s' = sout s ++ inserted_msg pid lvl.
Proof.
  intros (H & T & Hr & <-) lvl Hl Hf.
  destruct (insert_node_ok s sl H T free pid vd Hr Hl Hf) as (s' & Hrun & Hr' & Hrest).
  exists s'. split; [done|]. split; [|done]. do 2 eexists. split; [exact Hr'|]. by apply entries_insert.
Qed.

Lemma queue_insert_fault s sl l free pid vd :
  queue_rep s sl l free ->
  fst (draw_level (seed s)) = 4 \/ Z.of_nat (length free) <= fst (draw_level (seed s)) ->
  insert_node sl pid vd s = Fault.
Proof. intros (H & T & Hr & _). by apply (insert_node_fault s sl H T free). Qed.

Lemma queue_minimum s sl l free :
  queue_rep s sl l free ->
  get_minimum sl s = Ok (match l with [] => -69 | e :: _ => fst e end, s).
Proof. intros (H & T & Hr & <-). rewrite (get_minimum_ok _ _ _ _ _ Hr). by destruct T. Qed.

Lemma queue_delete_minimum s sl pid vd l free :
  queue_rep s sl ((pid, vd) :: l) free -> 0 <= vd -> pid <> -1 -> NoDup (fst <$> (pid, vd) :: l) ->
  exists s' lvl free', delete_node sl pid vd s = Ok (-1, s') /\
    queue_rep s' sl l free' /\ (length free < length free')%nat /\
    hw_sim (pa_hw (kmem s)) (pa_hw (kmem s')) /\ seed s' = seed s /\
    sout s' = sout s ++ removed_msg pid lvl.
Proof.
  intros (H & [|P C] & Hr & E) Hvd Hpid Hu; simplify_eq/=.
  destruct (delete_first s sl H P C free Hr) as (s' & Hrun & Hr' & Hrest); try done.
  { unfold unique_pids. by rewrite fmap_cons, <- entries_pids. }
  exists s', (Z.of_nat (height P) - 1), (t_addrs P ++ free). split; [done|]. split; [by exists H, C|].
  split; [|done]. rewrite length_app. pose proof (r_heights _ _ _ _ _ Hr) as Hh.
  apply Forall_cons in Hh as [Hh _]. unfold height in Hh. lia.
Qed.

(** ** Deadlines below zero *)

(** The headers carry deadline -1, so the walk back of [delete_node] runs off
    the list when it looks for a negative deadline. *)
Lemma delete_negative s sl l free pid vd :
  queue_rep s sl l free -> vd <= -1 -> pid <> -1 -> delete_node sl pid vd s = Fault.
Proof.
  intros (H & T & Hr & _) Hvd Hpid. unfold delete_node.
  rewrite (bind_Ok _ _ _ _ _ (get_levels_ok _ _ _ _ _ Hr)).
  rewrite (bind_Ok _ _ _ _ _ (get_header_ok _ _ _ _ _ (SKIPLIST_LEVELS - 1) Hr ltac:(done))).
  pose proof (r_size _ _ _ _ _ Hr) as Hsize. unfold all_addrs in Hsize.
  destruct Hr as [Hlen _ Hdll _ _ _ Hnull _ _ _]. rewrite length_app, Hlen in Hsize.
  pose proof (dseg_lookup _ _ [] (hcell H 3) _ _ (Hdll 3%nat ltac:(lia))) as Hh.
  pose proof (load_node_ok _ _ _ Hh) as Hl. simpl last_addr in Hl.
  change (nth _ H NULL) with (c_addr (hcell H 3)).
  change (Z.to_nat SKIPLIST_LEVELS) with 4%nat. cbn [delete_search]. unfold bind at 1. step.
  assert (exists f, walk_fuel s = S (S f)) as [f ->] by (unfold walk_fuel; destruct (size _); [lia|eauto]).
  cbn [delete_walk]. erewrite bind_Ok.
  2:{ rewrite (bind_Ok _ _ _ _ _ Hl). cbn [cnode n_vd hcell c_vd].
      replace (-1 <? vd) with false by lia. reflexivity. }
  rewrite (bind_Ok _ _ _ _ _ Hl). cbn [cnode n_pid hcell c_pid].
  replace (-1 =? pid) with false by lia. cbn [andb delete_back]. unfold bind at 1.
  rewrite (bind_Ok _ _ _ _ _ Hl). cbn [cnode n_vd hcell c_vd n_prev].
  replace (vd <=? -1) with true by lia. unfold bind, load_node. by rewrite Hnull.
Qed.

(** ** Sequences of calls *)

(** A call the kernel makes: queue a process, or take the first one off. *)
Inductive qop := QInsert (pid vd : Z) | QPop.

(** The deadline the process table holds for each pid, as the calls set it. *)
Definition note_deadline (o : qop) (dl : gmap Z Z) : gmap Z Z :=
  match o with QInsert pid vd => <[pid := vd]> dl | QPop => dl end.

(** [QPop] is the scheduler's [get_minimum] followed by [delete_node] with the
    deadline of that process. *)
Definition run_qop (sl : Z) (dl : gmap Z Z) (o : qop) : M (sst K) (option Z) :=
  match o with
  | QInsert pid vd => insert_node sl pid vd ;;; ret None
  | QPop =>
      let* pid := get_minimum sl in
      if pid =? -69 then ret None
      else delete_node sl pid (default 0 (dl !! pid)) ;;; ret (Some pid)
  end.

Fixpoint run_qops (sl : Z) (dl : gmap Z Z) (os : list qop) : M (sst K) (list (option Z)) :=
  match os with
  | [] => ret []
  | o :: os =>
      let* r := run_qop sl dl o in
      let* rs := run_qops sl (note_deadline o dl) os in
      ret (r :: rs)
  end.

(** The same on the list of entries. *)
Definition abs_qop (o : qop) (l : list (Z * Z)) : option Z * list (Z * Z) :=
  match o, l with
  | QInsert pid vd, _ => (None, insert_entry (pid, vd) l)
  | QPop, [] => (None, [])
  | QPop, e :: l' => (Some (fst e), l')
  end.

Fixpoint abs_qops (os : list qop) (l : list (Z * Z)) : list (option Z) * list (Z * Z) :=
  match os with
  | [] => ([], l)
  | o :: os =>
      (fst (abs_qop o l) :: fst (abs_qops os (snd (abs_qop o l))), snd (abs_qops os (snd (abs_qop o l))))
  end.

(** A process is not queued twice, and has a pid and a deadline that are not negative. *)
Definition op_ok (o : qop) (l : list (Z * Z)) : Prop :=
  match o with
  | QInsert pid vd => 0 <= pid /\ 0 <= vd /\ pid ∉ fst <$> l
  | QPop => True
  end.

Fixpoint ops_ok (os : list qop) (l : list (Z * Z)) : Prop :=
  match os with
  | [] => True
  | o :: os => op_ok o l /\ ops_ok os (snd (abs_qop o l))
  end.

Definition queue_ok (dl : gmap Z Z) (l : list (Z * Z)) : Prop :=
  Forall (fun e => 0 <= fst e /\ 0 <= snd e /\ dl !! fst e = Some (snd e)) l /\ NoDup (fst <$> l).

Fixpoint inserts (os : list qop) : nat :=
  match os with [] => 0 | QInsert _ _ :: os => S (inserts os) | QPop :: os => inserts os end.

(** The next [n] draws stay within the levels of the list. *)
Fixpoint draws_ok (n : nat) (seed : Z) : bool :=
  match n with
  | O => true
  | S n => (fst (draw_level seed) <=? 3) && draws_ok n (snd (draw_level seed))
  end.

(** The seed after [n] insertions. *)
Fixpoint seed_after (n : nat) (seed : Z) : Z :=
  match n with O => seed | S n => seed_after n (snd (draw_level seed)) end.

(** [int seed = 1234567;] *)
Definition seed_init : Z := 1234567.

Lemma op_ok_preserved dl o l :
  queue_ok dl l -> op_ok o l -> queue_ok (note_deadline o dl) (snd (abs_qop o l)).
Proof.
  intros [Hf Hn]. destruct o as [pid vd|]; simpl.
  - intros (Hp & Hv & Hnot). unfold queue_ok. rewrite insert_entry_perm. csimpl.
    split; [|by apply NoDup_cons]. constructor; [by simplify_map_eq|].
    rewrite Forall_forall in Hf |- *. intros e He. destruct (Hf e He) as (? & ? & ?). split_and!; try done.
    rewrite lookup_insert_ne; [done|]. intros ->. apply Hnot. apply list_elem_of_fmap. eauto.
  - intros _. destruct l as [|e l]; [done|]. apply Forall_cons in Hf as [_ Hf].
    csimpl in Hn. by apply NoDup_cons in Hn as [_ Hn].
Qed.

Lemma run_qop_ok s sl dl o l free :
  queue_rep s sl l free -> queue_ok dl l -> op_ok o l ->
  match o with
  | QInsert _ _ => fst (draw_level (seed s)) <= 3 /\ (4 <= length free)%nat
  | QPop => True
  end ->
  exists s' free', run_qop sl dl o s = Ok (fst (abs_qop o l), s') /\
    queue_rep s' sl (snd (abs_qop o l)) free' /\
    match o with
    | QInsert _ _ => (length free <= length free' + 4)%nat /\ seed s' = snd (draw_level (seed s))
    | QPop => (length free <= length free')%nat /\ seed s' = seed s
    end.
Proof.
  intros Hq [Hok Hn] Hop Hres. destruct o as [pid vd|].
  - destruct Hres as [Hd Hl]. pose proof (draw_level_bound (seed s)) as Hb.
    destruct (queue_insert s sl l free pid vd Hq Hd) as (s' & Hrun & Hq' & _ & Hseed & _); [lia|].
    exists s'. eexists. split; [|split; [exact Hq'|]].
    + cbn [run_qop]. by rewrite (bind_Ok _ _ _ _ _ Hrun).
    + split; [|done]. rewrite length_drop. lia.
  - cbn [run_qop]. rewrite (bind_Ok _ _ _ _ _ (queue_minimum _ _ _ _ Hq)).
    destruct l as [|[pid vd] l]; cbn [fst snd abs_qop].
    + exists s, free. done.
    + apply Forall_cons in Hok as [(Hp & Hv & Hdl) _]. simpl in Hp, Hv, Hdl.
      replace (pid =? -69) with false by lia.
      destruct (queue_delete_minimum s sl pid vd l free Hq Hv) as (s' & lvl & free' & Hrun & Hq' & Hl & _ & Hs & _);
        [lia|done|].
      exists s', free'. split; [|split; [done|split; [lia|done]]].
      rewrite Hdl. cbn [default id from_option]. by rewrite (bind_Ok _ _ _ _ _ Hrun).
Qed.

Lemma run_qops_ok os : forall s sl dl l free,
  queue_rep s sl l free -> queue_ok dl l -> ops_ok os l ->
  draws_ok (inserts os) (seed s) = true -> (4 * inserts os <= length free)%nat ->
  exists s' free', run_qops sl dl os s = Ok (fst (abs_qops os l), s') /\
    queue_rep s' sl (snd (abs_qops os l)) free' /\ seed s' = seed_after (inserts os) (seed s).
Proof.
  induction os as [|o os IH]; intros s sl dl l free Hq Hok Hops Hd Hf; [by exists s, free|].
  destruct Hops as [Hop Hops].
  destruct (run_qop_ok s sl dl o l free Hq Hok Hop) as (s1 & free1 & Hrun & Hq1 & Hres).
  { destruct o; [|done]. cbn [inserts draws_ok] in Hd, Hf. apply andb_prop in Hd as [Hd _]. lia. }
  destruct (IH s1 sl (note_deadline o dl) _ free1 Hq1) as (s2 & free2 & Hrun2 & Hq2 & Hs2); try done.
  { by apply op_ok_preserved. }
  { destruct o; destruct Hres as [_ ->]; [|done]. cbn [inserts draws_ok] in Hd.
    by apply andb_prop in Hd as [_ Hd]. }
  { destruct o; cbn [inserts] in Hf; lia. }
  exists s2, free2. split_and!; [|done|by rewrite Hs2; destruct o; destruct Hres as [_ ->]].
  cbn [run_qops abs_qops fst snd].
  by rewrite (bind_Ok _ _ _ _ _ Hrun), (bind_Ok _ _ _ _ _ Hrun2).
Qed.

End queue.

(** ** Properties *)

Section properties.

Context {K : Type} `{!PageAlloc K} `{!PageAllocLaws K}.

Implicit Types (s : sst K).

(** C2: [insert_node] on a queue of any length either inserts the
    process behind all entries with the same or an earlier deadline, using as
    many pages as the level it draws, and reports it on the console; or, when
    the level drawn is one above the top or the pages do not suffice, it
    follows a pointer that is not valid. *)
Theorem insert_node_refines_sorted_insertion s sl l free pid vd :
  queue_rep s sl l free ->
  let '(lvl, seed') := draw_level (seed s) in
  if (lvl <=? 3) && (lvl <? Z.of_nat (length free)) then
    exists s', insert_node sl pid vd s = Ok (lvl, s') /\
      queue_rep s' sl (insert_entry (pid, vd) l) (drop (Z.to_nat (lvl + 1)) free) /\
      hw_sim (pa_hw (kmem s)) (pa_hw (kmem s')) /\
      seed s' = seed' /\ sout s' = sout s ++ inserted_msg pid lvl
  else insert_node sl pid vd s = Fault.
Proof.
  intros Hq. pose proof (draw_level_bound (seed s)) as Hb.
  pose proof (queue_insert s sl l free pid vd Hq) as Hok.
  pose proof (queue_insert_fault s sl l free pid vd Hq) as Hko.
  destruct (draw_level (seed s)) as [lvl seed']; simpl in *.
  destruct (Z.leb_spec lvl 3), (Z.ltb_spec lvl (Z.of_nat (length free))); simpl;
    [apply Hok; lia|apply Hko; lia..].
Qed.

(** C3: [delete_node] of a queued process removes its tower from
    every level and gives its pages back, provided no entry with the same
    deadline in front of it is at least as high; otherwise it leaves the
    process in the queue; for a process that is not queued it does nothing. *)
Theorem delete_node_outcomes s sl H A P C free :
  sl_rep s sl H (A ++ P :: C) free -> 0 <= t_vd P -> t_pid P <> -1 -> unique_pids (A ++ P :: C) ->
  (Forall (fun b => t_vd b = t_vd P -> (height b < height P)%nat) A ->
   exists s', delete_node sl (t_pid P) (t_vd P) s = Ok (-1, s') /\
     sl_rep s' sl H (A ++ C) (t_addrs P ++ free) /\
     hw_sim (pa_hw (kmem s)) (pa_hw (kmem s')) /\ seed s' = seed s /\
     sout s' = sout s ++ removed_msg (t_pid P) (Z.of_nat (height P) - 1)) /\
  (Exists (fun b => t_vd b = t_vd P /\ (height P <= height b)%nat) A ->
   delete_node sl (t_pid P) (t_vd P) s = Ok (-1, s)) /\
  (forall pid vd, 0 <= vd -> pid <> -1 -> Forall (fun t => t_pid t <> pid) (A ++ P :: C) ->
   delete_node sl pid vd s = Ok (-1, s)).
Proof.
  intros Hr Hvd Hpid Hu. split_and!; intros.
  - by apply delete_node_hit.
  - by apply (delete_node_shadowed s sl H A P C free).
  - by apply (delete_node_absent s sl H (A ++ P :: C) free).
Qed.

(** C1: a sequence of queueing and dequeueing calls on the skip list
    returns what the same sequence returns on a list kept sorted by deadline,
    in arrival order among equals, and leaves the skip list representing that
    list.  The conditions: a pid is not inserted while it is queued, pids and
    deadlines are not negative, each level drawn is one of the four of the
    list, and four pages are free for each insertion. *)
Theorem run_queue_refines_sorted_list os s sl dl l free :
  queue_rep s sl l free -> queue_ok dl l -> ops_ok os l ->
  draws_ok (inserts os) (seed s) = true -> (4 * inserts os <= length free)%nat ->
  exists s' free', run_qops sl dl os s = Ok (fst (abs_qops os l), s') /\
    queue_rep s' sl (snd (abs_qops os l)) free' /\
    StronglySorted key_le (snd (abs_qops os l)).
Proof.
  intros Hq Hok Hops Hd Hf. destruct (run_qops_ok os s sl dl l free Hq Hok Hops Hd Hf)
    as (s' & free' & Hrun & Hq' & _). exists s', free'. split_and!; try done. by eapply queue_sorted.
Qed.

(** C4: the scheduler's pair of calls takes the entry with the earliest
    deadline, and removes that entry only. *)
Theorem pick_takes_earliest_deadline s sl pid vd l free :
  queue_rep s sl ((pid, vd) :: l) free -> 0 <= vd -> 0 <= pid -> NoDup (fst <$> (pid, vd) :: l) ->
  get_minimum sl s = Ok (pid, s) /\ Forall (fun e => vd <= snd e) l /\
  exists s' lvl free', delete_node sl pid vd s = Ok (-1, s') /\ queue_rep s' sl l free' /\
    (length free < length free')%nat /\ sout s' = sout s ++ removed_msg pid lvl.
Proof.
  intros Hq Hv Hp Hn. split_and!.
  - apply (queue_minimum _ _ _ _ Hq).
  - apply queue_sorted in Hq. by apply StronglySorted_inv in Hq as [_ Hq].
  - destruct (queue_delete_minimum s sl pid vd l free Hq Hv ltac:(lia) Hn)
      as (s' & lvl & free' & ? & ? & ? & _ & _ & ?). by exists s', lvl, free'.
Qed.

(** Whatever is queued, [delete_node] with a negative deadline
    walks past a header to the null pointer. *)
Theorem delete_node_negative_deadline_faults s sl l free pid vd :
  queue_rep s sl l free -> vd <= -1 -> pid <> -1 -> delete_node sl pid vd s = Fault.
Proof. apply delete_negative. Qed.

End properties.

(** C9: from the initial seed, every sequence of calls with 416
    insertions runs, and the insertion after it draws the level above the top
    one, so that [insert_node] reads an entry of [prev_nodes] that was never
    written. *)
Theorem insertion_417_out_of_levels {K} `{!PageAlloc K} `{!PageAllocLaws K}
    os (s : sst K) sl dl l free pid vd :
  queue_rep s sl l free -> queue_ok dl l -> ops_ok os l -> seed s = seed_init ->
  inserts os = 416%nat -> (4 * 416 <= length free)%nat ->
  exists s', run_qops sl dl os s = Ok (fst (abs_qops os l), s') /\
    insert_node sl pid vd s' = Fault.
Proof.
  intros Hq Hok Hops Hs Hi Hf.
  destruct (run_qops_ok os s sl dl l free) as (s' & free' & Hrun & Hq' & Hs'); rewrite ?Hi; try done.
  { rewrite Hs. by vm_compute. }
  exists s'. split; [done|]. apply (queue_insert_fault _ _ _ _ _ _ Hq'). left.
  rewrite Hs', Hi, Hs. by vm_compute.
Qed.

(** ** A concrete machine *)

#[local] Remove Hints kalloc_page_alloc kalloc_page_alloc_laws : typeclass_instances.
#[local] Instance demo_alloc : PageAlloc kst := kalloc_page_alloc demo_end.
#[local] Instance demo_alloc_laws : PageAllocLaws kst := kalloc_page_alloc_laws demo_end.

(** The machine after [kinit1] with 2000 free pages. *)
Definition demo_k2 : kst := after (kinit1 demo_end demo_end (demo_end + 2000 * PGSIZE)) demo_k0.

Definition demo_free (n : Z) : list Z := demo_pages (Z.to_nat n).

Lemma demo_k2_rep : pa_rep demo_k2 (demo_free 2000).
Proof.
  destruct (kinit1_ok demo_end demo_end (demo_end + 2000 * PGSIZE) boot_hw (Spinlock 0 None) 0 ∅
              0 (Cpu 0 0 0 None) boot_hw_ok) as (s' & H & _ & Hrep);
    [vm_compute; intuition discriminate..|].
  unfold demo_k2, demo_k0. rewrite (after_Ok _ _ _ _ H). exact Hrep.
Qed.

Lemma demo_free_S n : 0 < n -> demo_free n = (demo_end + PGSIZE * (n - 1)) :: demo_free (n - 1).
Proof.
  intros Hn. unfold demo_free. replace (Z.to_nat n) with (S (Z.to_nat (n - 1))) by lia.
  rewrite demo_pages_S, Z2Nat.id by lia. done.
Qed.

Lemma demo_free_4 n : 4 <= n ->
  demo_free n = ((fun i => demo_end + PGSIZE * i) <$> [n - 1; n - 2; n - 3; n - 4]) ++ demo_free (n - 4).
Proof.
  intros Hn. rewrite (demo_free_S n), (demo_free_S (n - 1)), (demo_free_S (n - 1 - 1)),
    (demo_free_S (n - 1 - 1 - 1)) by lia.
  by replace (n - 1 - 1 - 1 - 1) with (n - 4) by lia; replace (n - 1 - 1 - 1) with (n - 3) by lia;
    replace (n - 1 - 1) with (n - 2) by lia.
Qed.

Lemma demo_free_length n : length (demo_free n) = Z.to_nat n.
Proof. apply demo_pages_length. Qed.

#[local] Opaque demo_free demo_k2 demo_end.

(** The queue [init_skiplist] creates on that machine, for any seed. *)
Definition demo_q (x : Z) : sst kst :=
  after (init_skiplist) (Sst ∅ demo_k2 x []).

Definition demo_sl : Z := demo_end + PGSIZE * 1999.

Lemma demo_q_rep x :
  sl_rep (demo_q x) demo_sl
    ((fun i => demo_end + PGSIZE * i) <$> [1997; 1996; 1995; 1994]) [] (demo_free 1994) /\
  seed (demo_q x) = x.
Proof.
  pose proof demo_k2_rep as Hk.
  assert (E : demo_free 1998 = ((fun i => demo_end + PGSIZE * i) <$> [1997; 1996; 1995; 1994]) ++ demo_free 1994).
  { apply (demo_free_4 1998). lia. }
  rewrite (demo_free_S 2000), (demo_free_S (2000 - 1)) in Hk by lia.
  change (2000 - 1 - 1) with 1998 in Hk.
  destruct (init_skiplist_ok (Sst ∅ demo_k2 x []) _ _ _ Hk)
    as (s' & Hrun & Hr & _ & Hs & _).
  { rewrite demo_free_length. lia. }
  { intros a _. apply lookup_empty. }
  { apply lookup_empty. }
  unfold demo_q. rewrite (after_Ok _ _ _ _ Hrun). split; [|exact Hs]. rewrite E in Hr. exact Hr.
Qed.

#[local] Opaque demo_q.

(** The same queue with one process, pid 3 and deadline 40, in it. *)
Definition demo_q1 : sst kst :=
  after (insert_node demo_sl 3 40) (demo_q seed_init).

Definition demo_tower : tower := Tower 3 40 [demo_end + PGSIZE * 1993].

Lemma demo_q1_rep :
  sl_rep demo_q1 demo_sl
    ((fun i => demo_end + PGSIZE * i) <$> [1997; 1996; 1995; 1994]) [demo_tower] (demo_free 1993).
Proof.
  destruct (demo_q_rep seed_init) as [Hr Hs].
  destruct (insert_node_ok _ _ _ _ _ 3 40 Hr) as (s' & Hrun & Hr' & _);
    [rewrite Hs; by vm_compute| |].
  { rewrite Hs, demo_free_length. by vm_compute. }
  unfold demo_q1. rewrite (after_Ok _ _ _ _ Hrun). rewrite Hs, (demo_free_S 1994) in Hr' by lia. exact Hr'.
Qed.

Lemma demo_q1_seed : seed demo_q1 = snd (draw_level seed_init).
Proof.
  destruct (demo_q_rep seed_init) as [Hr Hs].
  destruct (insert_node_ok _ _ _ _ _ 3 40 Hr) as (s' & Hrun & _ & _ & Hseed & _);
    [rewrite Hs; by vm_compute|rewrite Hs, demo_free_length; by vm_compute|].
  unfold demo_q1. by rewrite (after_Ok _ _ _ _ Hrun), Hseed, Hs.
Qed.

Lemma insert_node_refines_sorted_insertion_witness :
  exists s', insert_node demo_sl 3 40 (demo_q seed_init) = Ok (0, s') /\
    queue_rep s' demo_sl [(3, 40)] (drop 1 (demo_free 1994)).
Proof.
  destruct (demo_q_rep seed_init) as [Hr Hs].
  assert (Hq : queue_rep (demo_q seed_init) demo_sl [] (demo_free 1994))
    by (eexists _, []; split; [exact Hr|reflexivity]).
  pose proof (insert_node_refines_sorted_insertion _ _ _ _ 3 40 Hq) as H.
  rewrite Hs, demo_free_length in H. vm_compute draw_level in H. cbn iota beta zeta in H.
  destruct H as (s' & H1 & H2 & _). exists s'. split; [exact H1|exact H2].
Defined.

Lemma delete_node_outcomes_witness :
  exists s', delete_node demo_sl 3 40 demo_q1 = Ok (-1, s').
Proof.
  destruct (delete_node_outcomes _ _ _ [] demo_tower [] _ demo_q1_rep) as [H _];
    [simpl; lia|simpl; lia|apply NoDup_singleton|].
  destruct H as (s' & H & _); [constructor|]. exists s'. exact H.
Defined.

Lemma demo_queue : queue_rep demo_q1 demo_sl [(3, 40)] (demo_free 1993).
Proof. eexists _, [_]. split; [exact demo_q1_rep|done]. Qed.

Lemma demo_three_ok : ops_ok [QInsert 3 40; QInsert 4 20; QPop] [].
Proof. cbn. split_and!; try lia; set_solver. Qed.

Lemma run_queue_refines_sorted_list_witness :
  exists s', run_qops demo_sl ∅ [QInsert 3 40; QInsert 4 20; QPop] (demo_q seed_init) =
    Ok ([None; None; Some 4], s').
Proof.
  destruct (demo_q_rep seed_init) as [Hr Hs].
  destruct (run_queue_refines_sorted_list [QInsert 3 40; QInsert 4 20; QPop]
    (demo_q seed_init) demo_sl ∅ [] (demo_free 1994)) as (s' & _ & H & _).
  - eexists _, []. split; [exact Hr|done].
  - split; [done|apply NoDup_nil_2].
  - exact demo_three_ok.
  - rewrite Hs. by vm_compute.
  - rewrite demo_free_length. apply Nat.leb_le. by vm_compute.
  - exists s'. exact H.
Defined.

Lemma pick_takes_earliest_deadline_witness :
  get_minimum (K := kst) demo_sl demo_q1 = Ok (3, demo_q1).
Proof.
  destruct (pick_takes_earliest_deadline _ _ _ _ _ _ demo_queue) as [H _];
    [lia|lia|apply NoDup_singleton|exact H].
Defined.

Lemma delete_node_negative_deadline_faults_witness :
  delete_node demo_sl 4 (-5) demo_q1 = Fault.
Proof. apply (delete_node_negative_deadline_faults _ _ _ _ _ _ demo_queue); lia. Defined.

(** Queueing and dequeueing one process over and over. *)
Fixpoint demo_ops (n : nat) : list qop :=
  match n with O => [] | S n => QInsert 3 40 :: QPop :: demo_ops n end.

Lemma demo_ops_ok n : ops_ok (demo_ops n) [] /\ inserts (demo_ops n) = n.
Proof.
  induction n as [|n [IH1 IH2]]; cbn [demo_ops ops_ok inserts]; [done|]. rewrite IH2.
  split; [|done]. split; [|split; [done|exact IH1]]. cbn. split_and!; [lia..|]. set_solver.
Qed.

Lemma insertion_417_out_of_levels_witness :
  exists s' rs, run_qops demo_sl ∅ (demo_ops 416) (demo_q seed_init) = Ok (rs, s') /\
    insert_node demo_sl 5 60 s' = Fault.
Proof.
  destruct (demo_q_rep seed_init) as [Hr Hs]. destruct (demo_ops_ok 416) as [H1 H2].
  destruct (insertion_417_out_of_levels (demo_ops 416) (demo_q seed_init) demo_sl ∅ [] (demo_free 1994) 5 60)
    as (s' & Hrun & Hf).
  - eexists _, []. split; [exact Hr|done].
  - split; [done|apply NoDup_nil_2].
  - exact H1.
  - exact Hs.
  - exact H2.
  - rewrite demo_free_length. apply Nat.leb_le. by vm_compute.
  - exists s'. eexists. split; [exact Hrun|exact Hf].
Defined.
