(* ===== verification/Proc.v ===== *)
(** * Processes and the scheduler

    Models [proc.c] from line 199 on, with [switchuvm] and [switchkvm] of
    [vm.c]: the process table, creation, exit and wait, sleep and wakeup, and
    the scheduler over the run queue.

    A pointer to a [struct proc] is its index in [ptable.proc].  [swtch] ends a
    kernel thread's turn, so a routine that calls it is split there: [X_out] is
    the part up to the [swtch], and the part behind it is what [resume] runs
    when the scheduler switches back.  The saved [context] of a process says
    which part that is.  The routines of [vm.c], [file.c], [fs.c] and [log.c]
    that the process code calls are the operations of [KEnv]. *)

From S2P Require Import Prelude Spinlock Mmu Kalloc Console CString SkipList.

(** ** Data *)

(** [struct trapframe] without its padding. *)
Record trapframe := Trapframe {
  tf_edi : Z; tf_esi : Z; tf_ebp : Z; tf_oesp : Z; tf_ebx : Z; tf_edx : Z; tf_ecx : Z; tf_eax : Z;
  tf_gs : Z; tf_fs : Z; tf_es : Z; tf_ds : Z; tf_trapno : Z;
  tf_err : Z; tf_eip : Z; tf_cs : Z; tf_eflags : Z; tf_esp : Z; tf_ss : Z
}.

Inductive procstate := UNUSED | EMBRYO | SLEEPING | RUNNABLE | RUNNING | ZOMBIE.

#[export] Instance procstate_eq_dec : EqDecision procstate.
Proof. solve_decision. Defined.

(** The value of the enumeration constant. *)
Definition state_num (s : procstate) : Z :=
  match s with UNUSED => 0 | EMBRYO => 1 | SLEEPING => 2 | RUNNABLE => 3 | RUNNING => 4 | ZOMBIE => 5 end.

(** What a process sleeps on: a process (in [wait]), another kernel object, or
    the null pointer. *)
Inductive wchan := ChNull | ChProc (i : nat) | ChAddr (a : Z).

#[export] Instance wchan_eq_dec : EqDecision wchan.
Proof. solve_decision. Defined.

(** A pointer to a lock. *)
Inductive lkptr := LkNull | LkPtable | LkAt (a : Z).

(** Where a [swtch] to the process continues, with the local [intena] of
    [sched]. *)
Inductive context :=
| CtxForkret
| CtxYield (intena : Z)
| CtxSleep (lk : lkptr) (intena : Z)
| CtxExit (intena : Z).

Record proc := Proc {
  sz : Z;
  pgdir : Z;
  kstack : Z;
  pstate : procstate;
  pid : Z;
  parent : option nat;
  tf : trapframe;
  ctx : option context;
  chan : wchan;
  killed : Z;
  ofile : list Z;
  cwd : Z;
  pname : list Z;
  ticks_left : Z;
  nice_value : Z;
  virtual_deadline : Z;
  max_level : Z
}.

Definition with_sz v p := Proc v (pgdir p) (kstack p) (pstate p) (pid p) (parent p) (tf p) (ctx p) (chan p)
  (killed p) (ofile p) (cwd p) (pname p) (ticks_left p) (nice_value p) (virtual_deadline p) (max_level p).
Definition with_pgdir v p := Proc (sz p) v (kstack p) (pstate p) (pid p) (parent p) (tf p) (ctx p) (chan p)
  (killed p) (ofile p) (cwd p) (pname p) (ticks_left p) (nice_value p) (virtual_deadline p) (max_level p).
Definition with_kstack v p := Proc (sz p) (pgdir p) v (pstate p) (pid p) (parent p) (tf p) (ctx p) (chan p)
  (killed p) (ofile p) (cwd p) (pname p) (ticks_left p) (nice_value p) (virtual_deadline p) (max_level p).
Definition with_state v p := Proc (sz p) (pgdir p) (kstack p) v (pid p) (parent p) (tf p) (ctx p) (chan p)
  (killed p) (ofile p) (cwd p) (pname p) (ticks_left p) (nice_value p) (virtual_deadline p) (max_level p).
Definition with_pid v p := Proc (sz p) (pgdir p) (kstack p) (pstate p) v (parent p) (tf p) (ctx p) (chan p)
  (killed p) (ofile p) (cwd p) (pname p) (ticks_left p) (nice_value p) (virtual_deadline p) (max_level p).
Definition with_parent v p := Proc (sz p) (pgdir p) (kstack p) (pstate p) (pid p) v (tf p) (ctx p) (chan p)
  (killed p) (ofile p) (cwd p) (pname p) (ticks_left p) (nice_value p) (virtual_deadline p) (max_level p).
Definition with_tf v p := Proc (sz p) (pgdir p) (kstack p) (pstate p) (pid p) (parent p) v (ctx p) (chan p)
  (killed p) (ofile p) (cwd p) (pname p) (ticks_left p) (nice_value p) (virtual_deadline p) (max_level p).
Definition with_ctx v p := Proc (sz p) (pgdir p) (kstack p) (pstate p) (pid p) (parent p) (tf p) v (chan p)
  (killed p) (ofile p) (cwd p) (pname p) (ticks_left p) (nice_value p) (virtual_deadline p) (max_level p).
Definition with_chan v p := Proc (sz p) (pgdir p) (kstack p) (pstate p) (pid p) (parent p) (tf p) (ctx p) v
  (killed p) (ofile p) (cwd p) (pname p) (ticks_left p) (nice_value p) (virtual_deadline p) (max_level p).
Definition with_killed v p := Proc (sz p) (pgdir p) (kstack p) (pstate p) (pid p) (parent p) (tf p) (ctx p) (chan p)
  v (ofile p) (cwd p) (pname p) (ticks_left p) (nice_value p) (virtual_deadline p) (max_level p).
Definition with_ofile v p := Proc (sz p) (pgdir p) (kstack p) (pstate p) (pid p) (parent p) (tf p) (ctx p) (chan p)
  (killed p) v (cwd p) (pname p) (ticks_left p) (nice_value p) (virtual_deadline p) (max_level p).
Definition with_cwd v p := Proc (sz p) (pgdir p) (kstack p) (pstate p) (pid p) (parent p) (tf p) (ctx p) (chan p)
  (killed p) (ofile p) v (pname p) (ticks_left p) (nice_value p) (virtual_deadline p) (max_level p).
Definition with_name v p := Proc (sz p) (pgdir p) (kstack p) (pstate p) (pid p) (parent p) (tf p) (ctx p) (chan p)
  (killed p) (ofile p) (cwd p) v (ticks_left p) (nice_value p) (virtual_deadline p) (max_level p).
Definition with_ticks_left v p := Proc (sz p) (pgdir p) (kstack p) (pstate p) (pid p) (parent p) (tf p) (ctx p) (chan p)
  (killed p) (ofile p) (cwd p) (pname p) v (nice_value p) (virtual_deadline p) (max_level p).
Definition with_nice v p := Proc (sz p) (pgdir p) (kstack p) (pstate p) (pid p) (parent p) (tf p) (ctx p) (chan p)
  (killed p) (ofile p) (cwd p) (pname p) (ticks_left p) v (virtual_deadline p) (max_level p).
Definition with_vd v p := Proc (sz p) (pgdir p) (kstack p) (pstate p) (pid p) (parent p) (tf p) (ctx p) (chan p)
  (killed p) (ofile p) (cwd p) (pname p) (ticks_left p) (nice_value p) v (max_level p).
Definition with_max_level v p := Proc (sz p) (pgdir p) (kstack p) (pstate p) (pid p) (parent p) (tf p) (ctx p) (chan p)
  (killed p) (ofile p) (cwd p) (pname p) (ticks_left p) (nice_value p) (virtual_deadline p) v.

(** What the process code calls in [vm.c], [file.c], [fs.c] and [log.c]; [E]
    is the state of those parts.  Pages come from and go to the allocator. *)
Class KEnv (E : Type) := {
  setupkvm : M (kst * E) Z;
  inituvm : Z -> M (kst * E) unit;
  copyuvm : Z -> Z -> M (kst * E) Z;
  freevm : Z -> M (kst * E) unit;
  allocuvm : Z -> Z -> Z -> M (kst * E) Z;
  deallocuvm : Z -> Z -> Z -> M (kst * E) Z;
  filedup : Z -> M (kst * E) Z;
  fileclose : Z -> M (kst * E) unit;
  idup : Z -> M (kst * E) Z;
  iput : Z -> M (kst * E) unit;
  namei : list Z -> M (kst * E) Z;
  begin_op : M (kst * E) unit;
  end_op : M (kst * E) unit;
  iinit : Z -> M (kst * E) unit;
  initlog : Z -> M (kst * E) unit
}.

(** The state of the kernel the process code works on. *)
Record pst (E : Type) := Pst {
  rq : sst kst;                 (* run queue, pages, console *)
  skiplist : Z;
  plock : spinlock;             (* ptable.lock *)
  tab : list proc;              (* ptable.proc *)
  initproc : option nat;
  nextpid : Z;
  ticks : Z;
  schedlog_active : Z;
  schedlog_lasttick : Z;
  first : Z;                    (* static in forkret *)
  kpgdir : Z;
  cr3 : Z;
  esp0 : Z;                     (* mycpu()->ts.esp0 *)
  locks : gmap Z spinlock;      (* the other locks, by address *)
  env : E
}.
Arguments Pst {E} _ _ _ _ _ _ _ _ _ _ _ _ _ _ _.
Arguments rq {E} _. Arguments skiplist {E} _. Arguments plock {E} _. Arguments tab {E} _.
Arguments initproc {E} _. Arguments nextpid {E} _. Arguments ticks {E} _.
Arguments schedlog_active {E} _. Arguments schedlog_lasttick {E} _. Arguments first {E} _.
Arguments kpgdir {E} _. Arguments cr3 {E} _. Arguments esp0 {E} _.
Arguments locks {E} _. Arguments env {E} _.

Definition BFS_DEFAULT_QUANTUM : Z := 50.
Definition BFS_NICE_FIRST_LEVEL : Z := -20.
Definition BFS_NICE_LAST_LEVEL : Z := 19.

Definition junk_tf : trapframe :=
  let w := junk in let h := 0x0101 in
  Trapframe w w w w w w w w h h h h w w w h w w h.

(** Assignments to the scalar variables. *)
Section fields.

Context {E : Type}.

Implicit Types s : pst E.

Definition set_rq v s := Pst v (skiplist s) (plock s) (tab s) (initproc s) (nextpid s) (ticks s)
  (schedlog_active s) (schedlog_lasttick s) (first s) (kpgdir s) (cr3 s) (esp0 s) (locks s) (env s).
Definition set_skiplist v s := Pst (rq s) v (plock s) (tab s) (initproc s) (nextpid s) (ticks s)
  (schedlog_active s) (schedlog_lasttick s) (first s) (kpgdir s) (cr3 s) (esp0 s) (locks s) (env s).
Definition set_plock v s := Pst (rq s) (skiplist s) v (tab s) (initproc s) (nextpid s) (ticks s)
  (schedlog_active s) (schedlog_lasttick s) (first s) (kpgdir s) (cr3 s) (esp0 s) (locks s) (env s).
Definition set_tab v s := Pst (rq s) (skiplist s) (plock s) v (initproc s) (nextpid s) (ticks s)
  (schedlog_active s) (schedlog_lasttick s) (first s) (kpgdir s) (cr3 s) (esp0 s) (locks s) (env s).
Definition set_initproc v s := Pst (rq s) (skiplist s) (plock s) (tab s) v (nextpid s) (ticks s)
  (schedlog_active s) (schedlog_lasttick s) (first s) (kpgdir s) (cr3 s) (esp0 s) (locks s) (env s).
Definition set_nextpid v s := Pst (rq s) (skiplist s) (plock s) (tab s) (initproc s) v (ticks s)
  (schedlog_active s) (schedlog_lasttick s) (first s) (kpgdir s) (cr3 s) (esp0 s) (locks s) (env s).
Definition set_ticks v s := Pst (rq s) (skiplist s) (plock s) (tab s) (initproc s) (nextpid s) v
  (schedlog_active s) (schedlog_lasttick s) (first s) (kpgdir s) (cr3 s) (esp0 s) (locks s) (env s).
Definition set_schedlog a l s := Pst (rq s) (skiplist s) (plock s) (tab s) (initproc s) (nextpid s) (ticks s)
  a l (first s) (kpgdir s) (cr3 s) (esp0 s) (locks s) (env s).
Definition set_first v s := Pst (rq s) (skiplist s) (plock s) (tab s) (initproc s) (nextpid s) (ticks s)
  (schedlog_active s) (schedlog_lasttick s) v (kpgdir s) (cr3 s) (esp0 s) (locks s) (env s).
Definition set_cr3 v s := Pst (rq s) (skiplist s) (plock s) (tab s) (initproc s) (nextpid s) (ticks s)
  (schedlog_active s) (schedlog_lasttick s) (first s) (kpgdir s) v (esp0 s) (locks s) (env s).
Definition set_esp0 v s := Pst (rq s) (skiplist s) (plock s) (tab s) (initproc s) (nextpid s) (ticks s)
  (schedlog_active s) (schedlog_lasttick s) (first s) (kpgdir s) (cr3 s) v (locks s) (env s).
Definition set_locks v s := Pst (rq s) (skiplist s) (plock s) (tab s) (initproc s) (nextpid s) (ticks s)
  (schedlog_active s) (schedlog_lasttick s) (first s) (kpgdir s) (cr3 s) (esp0 s) v (env s).
Definition set_env (v : E) s := Pst (rq s) (skiplist s) (plock s) (tab s) (initproc s) (nextpid s) (ticks s)
  (schedlog_active s) (schedlog_lasttick s) (first s) (kpgdir s) (cr3 s) (esp0 s) (locks s) v.

Definition phw s : hw := khw (kmem (rq s)).

Definition set_kmem (k : kst) s : pst E :=
  set_rq (Sst (heap (rq s)) k (seed (rq s)) (sout (rq s))) s.

Definition set_phw (h : hw) s : pst E :=
  let k := kmem (rq s) in set_kmem (Kst h (klock k) (use_lock k) (freelist k) (pages k)) s.

End fields.

Section code.

#[local] Remove Hints kalloc_page_alloc : typeclass_instances.

Context (kend : Z) {E : Type} `{!KEnv E}.

#[local] Instance proc_pages : PageAlloc kst := kalloc_page_alloc kend.

Abbreviation MP := (M (pst E)).

(** ** Running the routines of the other parts *)

Definition on_rq {A} (c : M (sst kst) A) : MP A := zoom rq set_rq c.

Definition on_mem {A} (c : M kst A) : MP A := zoom (fun s => kmem (rq s)) set_kmem c.

Definition on_env {A} (c : M (kst * E) A) : MP A :=
  zoom (fun s => (kmem (rq s), env s)) (fun ke s => set_env (snd ke) (set_kmem (fst ke) s)) c.

Definition on_cpu {A} (c : M hw A) : MP A := zoom phw set_phw c.

Definition on_plock {A} (c : M (hw * spinlock) A) : MP A :=
  zoom (fun s => (phw s, plock s)) (fun hl s => set_plock (snd hl) (set_phw (fst hl) s)) c.

(** The lock at address [a]. *)
Definition on_lock_at {A} (a : Z) (c : M (hw * spinlock) A) : MP A := fun s =>
  match locks s !! a with
  | None => Fault
  | Some l => rbind (c (phw s, l)) (fun '(x, (h, l)) => Ok (x, set_locks (<[a := l]> (locks s)) (set_phw h s)))
  end.

Definition cprint (fmt : string) (args : list carg) : MP unit := on_rq (print fmt args).

Definition newline : MP unit := on_rq putnl.

(** ** The process table *)

Definition get_proc (i : nat) : MP proc := fun s =>
  match tab s !! i with Some p => Ok (p, s) | None => Fault end.

Definition upd_proc (i : nat) (f : proc -> proc) : MP unit := fun s =>
  match tab s !! i with
  | Some p => Ok (tt, set_tab (<[i := f p]> (tab s)) s)
  | None => Fault
  end.

(** Dereferencing a pointer that may be null. *)
Definition deref {A} (o : option A) : MP A := match o with Some x => ret x | None => fault end.

(** The first index at or behind [i] whose entry satisfies [f]: the loop
    [for(p = ptable.proc; p < &ptable.proc[NPROC]; p++)]. *)
Fixpoint find_proc (f : proc -> bool) (i : nat) (l : list proc) : option nat :=
  match l with
  | [] => None
  | p :: l' => if f p then Some i else find_proc f (S i) l'
  end.

Definition is_state (st : procstate) (p : proc) : bool := bool_decide (pstate p = st).

Definition myproc : MP (option nat) :=
  on_cpu (pushcli ;;;
          let* i := mycpu in
          let* c := load_cpu i in
          popcli ;;;
          ret (cproc c)).

Definition curproc : MP nat := let* o := myproc in deref o.

(** ** compute_virtual_deadline, schedlog, pinit *)

(** [ticks] is unsigned, so the sum is; the result is converted to [int]. *)
Definition deadline_at (ticks nice : Z) : Z :=
  let priority_ratio := i32 (i32 (nice - BFS_NICE_FIRST_LEVEL) + 1) in
  i32 (u32 (ticks + u32 (i32 (BFS_DEFAULT_QUANTUM * priority_ratio)))).

Definition compute_virtual_deadline (nice : Z) : MP Z :=
  let* t := gets ticks in ret (deadline_at t nice).

Definition schedlog (n : Z) : MP unit :=
  modify (fun s => set_schedlog 1 (i32 (u32 (ticks s + n))) s).

Definition pinit : MP unit :=
  modify (fun s => set_plock (initlock (plock s)) s) ;;;
  let* sl := on_rq init_skiplist in
  modify (set_skiplist sl).

(** [insert_node(skiplist, p)] and [delete_node(skiplist, p)]. *)
Definition enqueue (i : nat) : MP unit :=
  let* p := get_proc i in
  let* sl := gets skiplist in
  let* lvl := on_rq (insert_node sl (pid p) (virtual_deadline p)) in
  upd_proc i (with_max_level lvl).

Definition dequeue (i : nat) : MP unit :=
  let* p := get_proc i in
  let* sl := gets skiplist in
  let* lvl := on_rq (delete_node sl (pid p) (virtual_deadline p)) in
  upd_proc i (with_max_level lvl).

(** ** allocproc *)

Definition allocproc : MP (option nat) :=
  on_plock acquire ;;;
  let* t := gets tab in
  match find_proc (is_state UNUSED) 0 t with
  | None => on_plock release ;;; ret None
  | Some i =>
      upd_proc i (with_state EMBRYO) ;;;
      let* n := gets nextpid in
      upd_proc i (with_pid n) ;;;
      modify (set_nextpid (i32 (n + 1))) ;;;
      on_plock release ;;;
      let* k := on_mem kalloc in
      upd_proc i (with_kstack k) ;;;
      if k =? 0 then upd_proc i (with_state UNUSED) ;;; ret None
      else
        upd_proc i (with_tf junk_tf) ;;;
        upd_proc i (with_ctx (Some CtxForkret)) ;;;
        ret (Some i)
  end.

(** ** switchuvm, switchkvm *)

Definition load_cr3 (pa : Z) : MP unit := modify (set_cr3 pa).

Definition v2p (a : Z) : MP Z := fun s => rbind (V2P a) (fun x => Ok (x, s)).

Definition switchkvm : MP unit :=
  let* d := gets kpgdir in
  let* pa := v2p d in
  load_cr3 pa.

Definition switchuvm (o : option nat) : MP unit :=
  match o with
  | None => panic "switchuvm: no process"
  | Some i =>
      let* p := get_proc i in
      if kstack p =? 0 then panic "switchuvm: no kstack"
      else if pgdir p =? 0 then panic "switchuvm: no pgdir"
      else
        on_cpu pushcli ;;;
        modify (set_esp0 (u32 (kstack p + KSTACKSIZE))) ;;;
        let* pa := v2p (pgdir p) in
        load_cr3 pa ;;;
        on_cpu popcli
  end.

(** ** userinit *)

Definition SEG_UCODE : Z := 3.
Definition SEG_UDATA : Z := 4.
Definition DPL_USER : Z := 3.

Definition user_tf : trapframe :=
  let ds := Z.lor (Z.shiftl SEG_UDATA 3) DPL_USER in
  Trapframe 0 0 0 0 0 0 0 0 0 0 ds ds 0 0 0 (Z.lor (Z.shiftl SEG_UCODE 3) DPL_USER) FL_IF PGSIZE ds.

Definition copy_name (i : nat) (src : list Z) : MP unit :=
  let* p := get_proc i in
  fun s => rbind (KString.safestrcpy (pname p) 0 src 0 16)
                 (fun n => upd_proc i (with_name n) s).

Definition userinit : MP unit :=
  let* o := allocproc in
  modify (set_initproc o) ;;;
  let* i := deref o in
  let* d := on_env setupkvm in
  upd_proc i (with_pgdir d) ;;;
  if d =? 0 then panic "userinit: out of memory?"
  else
    on_env (inituvm d) ;;;
    upd_proc i (with_sz PGSIZE) ;;;
    upd_proc i (with_tf user_tf) ;;;
    copy_name i (codes "initcode" ++ [0]) ;;;
    let* c := on_env (namei (codes "/")) in
    upd_proc i (with_cwd c) ;;;
    on_plock acquire ;;;
    upd_proc i (with_state RUNNABLE) ;;;
    on_plock release ;;;
    upd_proc i (with_nice 0) ;;;
    let* vd := compute_virtual_deadline 0 in
    upd_proc i (with_vd vd) ;;;
    enqueue i.

(** ** growproc *)

Definition growproc (n : Z) : MP Z :=
  let* i := curproc in
  let* p := get_proc i in
  let grown (sz : Z) : MP Z :=
    upd_proc i (with_sz sz) ;;;
    switchuvm (Some i) ;;;
    ret 0 in
  if 0 <? n then
    let* sz := on_env (allocuvm (pgdir p) (sz p) (u32 (sz p + n))) in
    if sz =? 0 then ret (-1) else grown sz
  else if n <? 0 then
    let* sz := on_env (deallocuvm (pgdir p) (sz p) (u32 (sz p + n))) in
    if sz =? 0 then ret (-1) else grown sz
  else grown (sz p).

(** ** nicefork, fork *)

(** The loop over the open files, from descriptor [fd] on. *)
Fixpoint dup_files (fs : list Z) (fd : nat) (np : nat) : MP unit :=
  match fs with
  | [] => ret tt
  | f :: fs' =>
      (if f =? 0 then ret tt
       else
         let* g := on_env (filedup f) in
         upd_proc np (fun p => with_ofile (<[fd := g]> (ofile p)) p)) ;;;
      dup_files fs' (S fd) np
  end.

Definition clear_eax (t : trapframe) : trapframe :=
  Trapframe (tf_edi t) (tf_esi t) (tf_ebp t) (tf_oesp t) (tf_ebx t) (tf_edx t) (tf_ecx t) 0
    (tf_gs t) (tf_fs t) (tf_es t) (tf_ds t) (tf_trapno t)
    (tf_err t) (tf_eip t) (tf_cs t) (tf_eflags t) (tf_esp t) (tf_ss t).

(** [nicefork] up to the release of [ptable.lock]: the child and its pid, or
    nothing when the call returns -1. *)
Definition nicefork_create : MP (option (nat * Z)) :=
  let* cur := curproc in
  let* o := allocproc in
  match o with
  | None => ret None
  | Some np =>
      let* c := get_proc cur in
      let* d := on_env (copyuvm (pgdir c) (sz c)) in
      upd_proc np (with_pgdir d) ;;;
      if d =? 0 then
        let* p := get_proc np in
        on_mem (kfree kend (kstack p)) ;;;
        upd_proc np (with_kstack 0) ;;;
        upd_proc np (with_state UNUSED) ;;;
        ret None
      else
        upd_proc np (with_sz (sz c)) ;;;
        upd_proc np (with_parent (Some cur)) ;;;
        upd_proc np (with_tf (clear_eax (tf c))) ;;;
        dup_files (ofile c) 0 np ;;;
        let* w := on_env (idup (cwd c)) in
        upd_proc np (with_cwd w) ;;;
        copy_name np (pname c) ;;;
        let* p := get_proc np in
        on_plock acquire ;;;
        upd_proc np (with_state RUNNABLE) ;;;
        on_plock release ;;;
        ret (Some (np, pid p))
  end.

(** The rest, without the lock. *)
Definition nicefork_enqueue (np : nat) (nice : Z) : MP unit :=
  upd_proc np (with_nice nice) ;;;
  let* vd := compute_virtual_deadline nice in
  upd_proc np (with_vd vd) ;;;
  enqueue np.

Definition nicefork (nice : Z) : MP Z :=
  let* o := nicefork_create in
  match o with
  | None => ret (-1)
  | Some (np, pid) => nicefork_enqueue np nice ;;; ret pid
  end.

Definition fork : MP Z := nicefork 0.

(** ** sched *)

(** Up to the [swtch] to the scheduler; [k] is the call that continues behind it. *)
Definition sched_out (k : Z -> context) : MP unit :=
  let* i := curproc in
  let* h := on_plock holding in
  if negb h then panic "sched ptable.lock"
  else
    let* m := on_cpu mycpu in
    let* c := on_cpu (load_cpu m) in
    if negb (ncli c =? 1) then panic "sched locks"
    else
      let* p := get_proc i in
      if is_state RUNNING p then panic "sched running"
      else
        let* e := on_cpu readeflags in
        if interruptible e then panic "sched interruptible"
        else
          let* m := on_cpu mycpu in
          let* c := on_cpu (load_cpu m) in
          upd_proc i (with_ctx (Some (k (intena c)))).

(** Behind the [swtch]. *)
Definition sched_in (n : Z) : MP unit :=
  on_cpu (let* m := mycpu in
          let* c := load_cpu m in
          store_cpu m (with_intena n c)).

(** ** sleep, wakeup *)

(** The steps of [sleep] on either side of [sched], as values: they run here one
    after the other, and are interleaved with those of other processors in
    [ProcSmp]. *)
Inductive kact :=
| KAcquire (l : lkptr)
| KRelease (l : lkptr)
| KChan (ch : wchan)
| KState (st : procstate).

Definition sleep_enter (ch : wchan) (lk : lkptr) : list kact :=
  match lk with LkPtable => [] | _ => [KAcquire LkPtable; KRelease lk] end ++ [KChan ch; KState SLEEPING].

Definition sleep_leave (lk : lkptr) : list kact :=
  KChan ChNull :: match lk with LkPtable => [] | _ => [KRelease LkPtable; KAcquire lk] end.

Definition on_lock {A} (l : lkptr) (c : M (hw * spinlock) A) : MP A :=
  match l with LkNull => fault | LkPtable => on_plock c | LkAt a => on_lock_at a c end.

Definition run_kact (i : nat) (k : kact) : MP unit :=
  match k with
  | KAcquire l => on_lock l acquire
  | KRelease l => on_lock l release
  | KChan ch => upd_proc i (with_chan ch)
  | KState st => upd_proc i (with_state st)
  end.

Fixpoint run_kacts (i : nat) (l : list kact) : MP unit :=
  match l with [] => ret tt | k :: l => run_kact i k ;;; run_kacts i l end.

Definition sleep_out (ch : wchan) (lk : lkptr) : MP unit :=
  let* o := myproc in
  match o, lk with
  | None, _ => panic "sleep"
  | Some i, LkNull => panic "sleep without lk"
  | Some i, _ => run_kacts i (sleep_enter ch lk) ;;; sched_out (CtxSleep lk)
  end.

Definition sleep_in (i : nat) (lk : lkptr) : MP unit := run_kacts i (sleep_leave lk).

(** From table index [i] on, [n] entries. *)
Fixpoint wakeup1_loop (n : nat) (ch : wchan) (i : nat) : MP unit :=
  match n with
  | O => ret tt
  | S n' =>
      let* p := get_proc i in
      (if is_state SLEEPING p && bool_decide (chan p = ch)
       then upd_proc i (with_state RUNNABLE) ;;; enqueue i
       else ret tt) ;;;
      wakeup1_loop n' ch (S i)
  end.

Definition wakeup1 (ch : wchan) : MP unit := wakeup1_loop NPROC ch 0.

Definition wakeup (ch : wchan) : MP unit :=
  on_plock acquire ;;;
  wakeup1 ch ;;;
  on_plock release.

(** ** yield, forkret *)

Definition yield_out : MP unit :=
  on_plock acquire ;;;
  let* i := curproc in
  upd_proc i (with_state RUNNABLE) ;;;
  sched_out CtxYield.

Definition ROOTDEV : Z := 1.

Definition forkret : MP unit :=
  on_plock release ;;;
  let* f := gets first in
  if f =? 0 then ret tt
  else
    modify (set_first 0) ;;;
    on_env (iinit ROOTDEV) ;;;
    on_env (initlog ROOTDEV).

(** ** kill *)

Definition kill (pid0 : Z) : MP Z :=
  on_plock acquire ;;;
  let* t := gets tab in
  match find_proc (fun p => pid p =? pid0) 0 t with
  | None => on_plock release ;;; ret (-1)
  | Some i =>
      upd_proc i (with_killed 1) ;;;
      let* p := get_proc i in
      (if is_state SLEEPING p then upd_proc i (with_state RUNNABLE) ;;; enqueue i else ret tt) ;;;
      on_plock release ;;;
      ret 0
  end.

(** ** exit *)

Fixpoint close_files (fs : list Z) (fd : nat) (i : nat) : MP unit :=
  match fs with
  | [] => ret tt
  | f :: fs' =>
      (if f =? 0 then ret tt
       else
         on_env (fileclose f) ;;;
         upd_proc i (fun p => with_ofile (<[fd := 0]> (ofile p)) p)) ;;;
      close_files fs' (S fd) i
  end.

Definition chan_of (o : option nat) : wchan := match o with Some i => ChProc i | None => ChNull end.

(** [for(p ...) if(p->parent == curproc) ...], [n] entries from [i] on. *)
Fixpoint abandon_loop (n : nat) (cur : nat) (i : nat) : MP unit :=
  match n with
  | O => ret tt
  | S n' =>
      let* p := get_proc i in
      (if bool_decide (parent p = Some cur) then
         let* ip := gets initproc in
         upd_proc i (with_parent ip) ;;;
         (if is_state ZOMBIE p then wakeup1 (chan_of ip) else ret tt)
       else ret tt) ;;;
      abandon_loop n' cur (S i)
  end.

(** The part of [exit] that gives up files and directory. *)
Definition exit_files : MP nat :=
  let* i := curproc in
  let* ip := gets initproc in
  if bool_decide (ip = Some i) then panic "init exiting"
  else
    let* p := get_proc i in
    close_files (ofile p) 0 i ;;;
    on_env begin_op ;;;
    let* p := get_proc i in
    on_env (iput (cwd p)) ;;;
    on_env end_op ;;;
    upd_proc i (with_cwd 0) ;;;
    ret i.

(** The rest, ending in the scheduler. *)
Definition exit_out (i : nat) : MP unit :=
  on_plock acquire ;;;
  let* p := get_proc i in
  wakeup1 (chan_of (parent p)) ;;;
  abandon_loop NPROC i 0 ;;;
  upd_proc i (with_state ZOMBIE) ;;;
  sched_out CtxExit.

Definition exit : MP unit := let* i := exit_files in exit_out i.

(** ** wait *)

(** The scan of the table, [n] entries from [i] on: the pid of the zombie it
    reaps, or whether there are children. *)
Fixpoint wait_scan (n : nat) (cur : nat) (havekids : bool) (i : nat) : MP (Z + bool) :=
  match n with
  | O => ret (inr havekids)
  | S n' =>
      let* p := get_proc i in
      if bool_decide (parent p = Some cur) then
        if is_state ZOMBIE p then
          on_mem (kfree kend (kstack p)) ;;;
          upd_proc i (with_kstack 0) ;;;
          on_env (freevm (pgdir p)) ;;;
          upd_proc i (with_pid 0) ;;;
          upd_proc i (with_parent None) ;;;
          upd_proc i (fun p => with_name (<[O := 0]> (pname p)) p) ;;;
          upd_proc i (with_killed 0) ;;;
          upd_proc i (with_state UNUSED) ;;;
          on_plock release ;;;
          ret (inl (pid p))
        else wait_scan n' cur true (S i)
      else wait_scan n' cur havekids (S i)
  end.

(** One round of the loop of [wait]: the value returned, or nothing when the
    process went to sleep. *)
Definition wait_round (cur : nat) : MP (option Z) :=
  let* r := wait_scan NPROC cur false 0 in
  match r with
  | inl pid => ret (Some pid)
  | inr havekids =>
      let* c := get_proc cur in
      if negb havekids || negb (killed c =? 0) then
        on_plock release ;;; ret (Some (-1))
      else
        sleep_out (ChProc cur) LkPtable ;;; ret None
  end.

Definition wait : MP (option Z) :=
  let* cur := curproc in
  on_plock acquire ;;;
  wait_round cur.

(** ** scheduler *)

(** The index of the last entry in use, -1 when there is none. *)
Fixpoint highest_idx (i : Z) (best : Z) (l : list proc) : Z :=
  match l with
  | [] => best
  | p :: l' => highest_idx (i + 1) (if is_state UNUSED p then best else i) l'
  end.

(** The string in a name field: the characters before the first zero. *)
Fixpoint name_str (l : list Z) : list Z :=
  match l with
  | [] => []
  | c :: l' => if c =? 0 then [] else c :: name_str l'
  end.

Fixpoint log_procs (k : Z) (highest : Z) (l : list proc) : MP unit :=
  match l with
  | [] => ret tt
  | p :: l' =>
      if highest <? k then ret tt
      else
        (if is_state UNUSED p then cprint "[-]---:0:-(-)(-)(-)" []
         else cprint "[%d]%s:%d:%d(%d)(%d)(%d)"
                [AInt (pid p); AStr (Some (name_str (pname p))); AInt (state_num (pstate p));
                 AInt (nice_value p); AInt (max_level p); AInt (virtual_deadline p);
                 AInt (ticks_left p)]) ;;;
        (if k <=? highest - 1 then cprint "," [] else ret tt) ;;;
        log_procs (k + 1) highest l'
  end.

Definition log_schedule : MP unit :=
  let* s := get in
  if schedlog_active s =? 0 then ret tt
  else if u32 (schedlog_lasttick s) <? ticks s then modify (set_schedlog 0 (schedlog_lasttick s))
  else
    cprint "%d|" [AInt (ticks s)] ;;;
    log_procs 0 (highest_idx 0 (-1) (tab s)) (tab s) ;;;
    newline.

Definition set_cpu_proc (o : option nat) : MP unit :=
  on_cpu (let* m := mycpu in
          let* c := load_cpu m in
          store_cpu m (with_cproc o c)).

(** What [scheduler] does before its loop. *)
Definition scheduler_init : MP unit := set_cpu_proc None.

(** The body of the loop up to the [swtch] to process [i]. *)
Definition dispatch (i : nat) : MP unit :=
  set_cpu_proc (Some i) ;;;
  switchuvm (Some i) ;;;
  upd_proc i (with_state RUNNING) ;;;
  upd_proc i (with_ticks_left BFS_DEFAULT_QUANTUM) ;;;
  dequeue i ;;;
  log_schedule.

(** The loop over the table from index [i] on, for pid [next]: the process it
    switches to, or nothing when it ends and releases the lock. *)
Definition scheduler_scan (next : Z) (i : nat) : MP (option nat) :=
  let* t := gets tab in
  match find_proc (fun p => pid p =? next) i (drop i t) with
  | None => on_plock release ;;; ret None
  | Some j => dispatch j ;;; ret (Some j)
  end.

(** An iteration of the outer loop from its start. *)
Definition scheduler_top : MP (Z * option nat) :=
  on_cpu sti ;;;
  on_plock acquire ;;;
  let* sl := gets skiplist in
  let* next := on_rq (get_minimum sl) in
  let* o := scheduler_scan next 0 in
  ret (next, o).

(** Process [i], taken for pid [next], has switched back. *)
Definition scheduler_back (next : Z) (i : nat) : MP (option nat) :=
  switchkvm ;;;
  let* p := get_proc i in
  (if is_state RUNNABLE p then
     (if ticks_left p =? 0 then
        let* vd := compute_virtual_deadline (nice_value p) in
        upd_proc i (with_vd vd)
      else ret tt) ;;;
     enqueue i
   else ret tt) ;;;
  set_cpu_proc None ;;;
  scheduler_scan next (S i).

(** ** swtch to a process *)

(** What runs when the scheduler has switched to process [i].  The result is
    the value a [wait] in progress returns, when it does. *)
Definition resume (i : nat) : MP (option Z) :=
  let* p := get_proc i in
  match ctx p with
  | None => fault
  | Some CtxForkret => forkret ;;; ret None
  | Some (CtxYield n) => sched_in n ;;; on_plock release ;;; ret None
  | Some (CtxSleep lk n) =>
      sched_in n ;;;
      sleep_in i lk ;;;
      match lk with LkPtable => wait_round i | _ => ret None end
  | Some (CtxExit n) => sched_in n ;;; panic "zombie exit"
  end.

(** ** procdump *)

Definition state_name (s : procstate) : string :=
  match s with
  | UNUSED => "unused" | EMBRYO => "embryo" | SLEEPING => "sleep "
  | RUNNABLE => "runble" | RUNNING => "run   " | ZOMBIE => "zombie"
  end.

Fixpoint dump_pcs (pcs : list Z) : MP unit :=
  match pcs with
  | [] => ret tt
  | pc :: pcs' => if pc =? 0 then ret tt else cprint " %p" [AInt pc] ;;; dump_pcs pcs'
  end.

(** [callerpcs] is what [getcallerpcs] reads off the stack of a sleeping process. *)
Fixpoint procdump_loop (callerpcs : proc -> list Z) (l : list proc) : MP unit :=
  match l with
  | [] => ret tt
  | p :: l' =>
      (if is_state UNUSED p then ret tt
       else
         cprint "%d %s %s" [AInt (pid p); AStr (Some (codes (state_name (pstate p))));
                            AStr (Some (name_str (pname p)))] ;;;
         (if is_state SLEEPING p then dump_pcs (take 10 (callerpcs p)) else ret tt) ;;;
         newline) ;;;
      procdump_loop callerpcs l'
  end.

Definition procdump (callerpcs : proc -> list Z) : MP unit :=
  let* t := gets tab in procdump_loop callerpcs t.

End code.
