(* ===== verification/ProcBase.v ===== *)
(** * The process code between its calls

    What each building block of [Proc.v] does to the state: locks and
    interrupt nesting, the pages, the run queue, the table.  Every lemma gives
    the resulting state as the initial one with the fields that change. *)

From S2P Require Import Prelude Spinlock Mmu Kalloc Console CString.
From S2P Require Import SkipList SkipListRep SkipListInsert SkipListInit SkipListDelete RunQueue Proc.

(** ** The processor *)

(** The running processor is number [m], at nesting depth [n], running process [o]. *)
Definition cpu_is (h : hw) (m : nat) (n : Z) (o : option nat) : Prop :=
  exists c, hw_ok h m c /\ ncli c = n /\ cproc c = o.

Lemma cpu_is_sim h h' m n o : hw_sim h h' -> cpu_is h m n o -> cpu_is h' m n o.
Proof.
  intros Hs (c & Hok & <- & <-). destruct (hw_ok_sim _ _ _ _ Hs Hok) as (c' & Hok' & _ & Hn & Hp & _).
  by exists c'.
Qed.

Lemma cpu_is_off h m n o : cpu_is h m n o -> 0 < n -> interruptible (eflags h) = false.
Proof. intros (c & (_ & _ & Hi) & Hn & _) Hpos. apply Hi. lia. Qed.

Lemma cpu_is_bound h m n o : cpu_is h m n o -> 0 <= n < 2 ^ 30.
Proof. intros (c & (_ & Hn & _) & <- & _). done. Qed.

Lemma mycpu_at h m n o : cpu_is h m n o -> 0 < n -> mycpu h = Ok (m, h).
Proof.
  intros Hc Hn. pose proof (cpu_is_off _ _ _ _ Hc Hn). destruct Hc as (c & (Ht & _) & _).
  by eapply mycpu_ok.
Qed.

Lemma load_cpu_at h m n o :
  cpu_is h m n o -> exists c, load_cpu m h = Ok (c, h) /\ hw_ok h m c /\ ncli c = n /\ cproc c = o.
Proof.
  intros (c & Hok & Hn & Ho). exists c. split; [|done]. apply load_cpu_ok, Hok.
Qed.

Lemma acquire_at h m n o lk :
  cpu_is h m n o -> n < 2 ^ 30 - 2 -> locked lk = 0 ->
  exists h', acquire (h, lk) = Ok (tt, (h', Spinlock 1 (Some m))) /\ cpu_is h' m (n + 1) o.
Proof.
  intros (c & Hok & Hn & Ho) Hlt Hl. exists (pushed m c h). split.
  - apply acquire_free_ok; [done|lia|done].
  - exists (pushed_cpu c (eflags h)). split; [apply pushed_hw_ok; [done|lia]|]. simpl.
    split; [lia|]. by destruct (ncli c =? 0).
Qed.

Lemma popped_hw_ok h m c : hw_ok h m c -> 1 <= ncli c ->
  exists c', hw_ok (popped m c h) m c' /\ ncli c' = ncli c - 1 /\ cproc c' = cproc c.
Proof.
  intros (Ht & Hn & Hi) H1. exists (with_ncli (ncli c - 1) c). unfold popped.
  destruct (Z.eqb_spec (ncli c) 1) as [E|E].
  - destruct (negb (intena c =? 0)); (split; [split; [|split]|done]); simpl.
    all: try lia.
    + apply this_cpu_eflags. by apply this_cpu_set with c.
    + by apply this_cpu_set with c.
  - simpl. split; [split; [|split]|done]; simpl; [by apply this_cpu_set with c|lia|].
    intros _. apply Hi. lia.
Qed.

Lemma release_at h m n o :
  cpu_is h m n o -> 1 <= n < 2 ^ 30 - 1 ->
  exists h', release (h, Spinlock 1 (Some m)) = Ok (tt, (h', Spinlock 0 None)) /\ cpu_is h' m (n - 1) o.
Proof.
  intros (c & Hok & <- & <-) Hn. exists (popped m c h). split.
  - apply release_held_ok; [done|lia|]. unfold held_by. simpl. by apply bool_decide_true.
  - destruct (popped_hw_ok _ _ _ Hok) as (c' & ? & ? & ?); [lia|]. by exists c'.
Qed.

Lemma holding_at h m n o lk :
  cpu_is h m n o -> 1 <= n < 2 ^ 30 - 1 -> holding (h, lk) = Ok (held_by lk m, (h, lk)).
Proof.
  intros (c & Hok & <- & <-) Hn. rewrite (holding_ok _ _ _ _ Hok) by lia. by rewrite restored_nested by lia.
Qed.

Lemma sti_at h m o : cpu_is h m 0 o -> exists h', sti h = Ok (tt, h') /\ cpu_is h' m 0 o.
Proof.
  intros (c & (Ht & Hn & Hi) & Hc & Ho). eexists. split; [done|]. exists c. split; [|done].
  split; [by apply this_cpu_eflags|]. split; [done|lia].
Qed.

Lemma set_cproc_at h m n o o' :
  cpu_is h m n o -> 0 < n ->
  exists h', (let* m := mycpu in let* c := load_cpu m in store_cpu m (with_cproc o' c)) h = Ok (tt, h') /\
    cpu_is h' m n o'.
Proof.
  intros Hc Hn. rewrite (bind_Ok _ _ _ _ _ (mycpu_at _ _ _ _ Hc Hn)).
  destruct (load_cpu_at _ _ _ _ Hc) as (c & Hl & (Ht & Hb & Hi) & Hcn & Hco).
  rewrite (bind_Ok _ _ _ _ _ Hl). eexists. split; [done|]. exists (with_cproc o' c).
  split; [|done]. split; [by apply this_cpu_set with c|]. done.
Qed.

Lemma set_intena_at h m n o v :
  cpu_is h m n o -> 0 < n ->
  exists h', (let* m := mycpu in let* c := load_cpu m in store_cpu m (with_intena v c)) h = Ok (tt, h') /\
    cpu_is h' m n o.
Proof.
  intros Hc Hn. rewrite (bind_Ok _ _ _ _ _ (mycpu_at _ _ _ _ Hc Hn)).
  destruct (load_cpu_at _ _ _ _ Hc) as (c & Hl & (Ht & Hb & Hi) & Hcn & Hco).
  rewrite (bind_Ok _ _ _ _ _ Hl). eexists. split; [done|]. exists (with_intena v c).
  split; [|done]. split; [by apply this_cpu_set with c|]. done.
Qed.

(** A matched [pushcli] and [popcli]. *)
Lemma cli_section_at h m n o :
  cpu_is h m n o -> n < 2 ^ 30 - 2 ->
  exists h1 h2 c, pushcli h = Ok (tt, h1) /\ mycpu h1 = Ok (m, h1) /\ load_cpu m h1 = Ok (c, h1) /\
    cproc c = o /\ popcli h1 = Ok (tt, h2) /\ hw_sim h h2.
Proof.
  intros (c & Hok & <- & <-) Hn. exists (pushed m c h), (restored m c h), (pushed_cpu c (eflags h)).
  pose proof (pushed_hw_ok _ _ _ Hok ltac:(lia)) as Hok'.
  assert (0 <= ncli c) by apply Hok.
  split_and!.
  - by apply pushcli_ok.
  - eapply mycpu_ok; [apply Hok'|]. apply Hok'. simpl. lia.
  - apply load_cpu_ok, Hok'.
  - simpl. by destruct (ncli c =? 0).
  - rewrite (popcli_ok _ _ _ Hok') by (simpl; lia). by rewrite popped_pushed.
  - by apply restored_sim.
Qed.

(** ** The state *)

#[local] Remove Hints kalloc_page_alloc kalloc_page_alloc_laws : typeclass_instances.

Section base.

Context (kend : Z) {E : Type} `{!KEnv E}.

#[local] Instance base_pages : PageAlloc kst := proc_pages kend.
#[local] Instance base_pages_laws : PageAllocLaws kst := kalloc_page_alloc_laws kend.

Implicit Types s : pst E.

Abbreviation qrep := (queue_rep (PageAlloc0 := base_pages)).

(** The queue and the pages do not depend on the processor's flags. *)
Definition hw_fit (h : hw) : Prop := exists m n o, cpu_is h m n o /\ n < 2 ^ 30 - 2.

Definition q_hw (h : hw) (q : sst kst) : sst kst :=
  let k := kmem q in Sst (heap q) (Kst h (klock k) (use_lock k) (freelist k) (pages k)) (seed q) (sout q).

Lemma queue_rep_kmem q k sl l free free' :
  qrep q sl l free -> kmem_rep kend k free' -> (forall a, a ∈ free' -> heap q !! a = None) ->
  qrep (Sst (heap q) k (seed q) (sout q)) sl l free'.
Proof.
  intros (H & T & Hr & Hl) Hk Hf. exists H, T. split; [|done]. by destruct Hr; constructor.
Qed.

Lemma queue_rep_out q sl l free o :
  qrep q sl l free -> qrep (Sst (heap q) (kmem q) (seed q) o) sl l free.
Proof. intros (H & T & Hr & Hl). exists H, T. split; [|done]. by destruct Hr; constructor. Qed.

Lemma queue_free q sl l free :
  qrep q sl l free -> kmem_rep kend (kmem q) free /\ (forall a, a ∈ free -> heap q !! a = None).
Proof. intros (H & T & Hr & _). split; [exact (r_alloc _ _ _ _ _ Hr)|exact (r_fresh _ _ _ _ _ Hr)]. Qed.

Lemma queue_rep_hw q h sl l free : qrep q sl l free -> hw_fit h -> qrep (q_hw h q) sl l free.
Proof.
  intros Hq (m & n & o & (c & Hok & <- & <-) & Hlt). destruct (queue_free _ _ _ _ Hq) as [[] Hf].
  apply (queue_rep_kmem _ _ _ _ free free Hq); [|done]. constructor; try done. simpl. eauto.
Qed.

Lemma queue_hw q sl l free : qrep q sl l free -> hw_fit (khw (kmem q)).
Proof.
  intros Hq. destruct (queue_free _ _ _ _ Hq) as [[_ _ _ _ (i & c & Hok & Hlt)] _].
  exists i, (ncli c), (cproc c). split; [|done]. by exists c.
Qed.

(** *** Locks *)

Lemma on_plock_Ok {A} (c : M (hw * spinlock) A) s x h l :
  c (phw s, plock s) = Ok (x, (h, l)) -> on_plock c s = Ok (x, set_plock l (set_phw h s)).
Proof. intros Hc. unfold on_plock, zoom. by rewrite Hc. Qed.

Lemma on_cpu_Ok {A} (c : M hw A) s x h :
  c (phw s) = Ok (x, h) -> on_cpu c s = Ok (x, set_phw h s).
Proof. intros Hc. unfold on_cpu, zoom. by rewrite Hc. Qed.

Lemma on_rq_Ok {A} (c : M (sst kst) A) s x q :
  c (rq s) = Ok (x, q) -> on_rq c s = Ok (x, set_rq q s).
Proof. intros Hc. unfold on_rq, zoom. by rewrite Hc. Qed.

Lemma plock_acquire s m n o :
  cpu_is (phw s) m n o -> n < 2 ^ 30 - 3 -> locked (plock s) = 0 ->
  exists h, on_plock acquire s = Ok (tt, set_plock (Spinlock 1 (Some m)) (set_phw h s)) /\
    cpu_is h m (n + 1) o.
Proof.
  intros Hc Hn Hl. destruct (acquire_at _ _ _ _ _ Hc ltac:(lia) Hl) as (h & Ha & Hc').
  exists h. split; [|done]. by apply on_plock_Ok.
Qed.

Lemma plock_release s m n o :
  cpu_is (phw s) m n o -> 1 <= n < 2 ^ 30 - 1 -> plock s = Spinlock 1 (Some m) ->
  exists h, on_plock release s = Ok (tt, set_plock (Spinlock 0 None) (set_phw h s)) /\
    cpu_is h m (n - 1) o.
Proof.
  intros Hc Hn Hl. destruct (release_at _ _ _ _ Hc Hn) as (h & Ha & Hc').
  exists h. split; [|done]. apply on_plock_Ok. by rewrite Hl.
Qed.

Lemma myproc_at s m n o :
  cpu_is (phw s) m n o -> n < 2 ^ 30 - 2 ->
  exists h, myproc s = Ok (o, set_phw h s) /\ hw_sim (phw s) h.
Proof.
  intros Hc Hn. destruct (cli_section_at _ _ _ _ Hc Hn) as (h1 & h2 & c & H1 & H2 & H3 & H4 & H5 & H6).
  exists h2. split; [|done]. unfold myproc. apply on_cpu_Ok.
  rewrite (bind_Ok _ _ _ _ _ H1), (bind_Ok _ _ _ _ _ H2), (bind_Ok _ _ _ _ _ H3), (bind_Ok _ _ _ _ _ H5).
  by rewrite <- H4.
Qed.

Lemma curproc_at s m n i :
  cpu_is (phw s) m n (Some i) -> n < 2 ^ 30 - 2 ->
  exists h, curproc s = Ok (i, set_phw h s) /\ hw_sim (phw s) h.
Proof.
  intros Hc Hn. destruct (myproc_at _ _ _ _ Hc Hn) as (h & Hm & Hs). exists h. split; [|done].
  unfold curproc. by rewrite (bind_Ok _ _ _ _ _ Hm).
Qed.

(** *** The table *)

Lemma get_proc_ok s i p : tab s !! i = Some p -> get_proc i s = Ok (p, s).
Proof. intros H. unfold get_proc. by rewrite H. Qed.

Lemma upd_proc_ok s i p f :
  tab s !! i = Some p -> upd_proc i f s = Ok (tt, set_tab (<[i := f p]> (tab s)) s).
Proof. intros H. unfold upd_proc. by rewrite H. Qed.

Lemma find_proc_Some f l : forall i j,
  find_proc f i l = Some j ->
  exists p, (i <= j)%nat /\ l !! (j - i)%nat = Some p /\ f p = true /\
    forall k q, (i <= k < j)%nat -> l !! (k - i)%nat = Some q -> f q = false.
Proof.
  induction l as [|x l IH]; intros i j; simpl; [done|]. destruct (f x) eqn:Ef.
  - intros [= <-]. exists x. rewrite Nat.sub_diag. split_and!; [lia|done|done|lia].
  - intros Hj. destruct (IH _ _ Hj) as (p & Hij & Hp & Hf & Hn). exists p.
    replace (j - i)%nat with (S (j - S i)) by lia. split_and!; [lia|done|done|].
    intros k q Hk Hq. destruct (decide (k = i)) as [-> |Hne].
    + rewrite Nat.sub_diag in Hq. by simplify_eq/=.
    + replace (k - i)%nat with (S (k - S i)) in Hq by lia. apply (Hn k q); [lia|done].
Qed.

Lemma find_proc_None f l : forall i, find_proc f i l = None -> Forall (fun p => f p = false) l.
Proof.
  induction l as [|x l IH]; intros i; simpl; [constructor|]. destruct (f x) eqn:Ef; [done|].
  intros H. constructor; [done|]. by eapply IH.
Qed.

(** *** The run queue *)

Lemma enqueue_ok s i p l free :
  tab s !! i = Some p -> qrep (rq s) (skiplist s) l free ->
  fst (draw_level (seed (rq s))) <= 3 -> (4 <= length free)%nat ->
  exists q, enqueue kend i s =
      Ok (tt, set_tab (<[i := with_max_level (fst (draw_level (seed (rq s)))) p]> (tab s)) (set_rq q s)) /\
    qrep q (skiplist s) (insert_entry (pid p, virtual_deadline p) l)
      (drop (Z.to_nat (fst (draw_level (seed (rq s))) + 1)) free) /\
    hw_sim (phw s) (khw (kmem q)) /\ seed q = snd (draw_level (seed (rq s))).
Proof.
  intros Hp Hq Hd Hf. pose proof (draw_level_bound (seed (rq s))) as Hb.
  destruct (queue_insert (rq s) (skiplist s) l free (pid p) (virtual_deadline p) Hq Hd)
    as (q & Hrun & Hq' & Hsim & Hs & _); [lia|].
  exists q. split_and!; try done. unfold enqueue.
  rewrite (bind_Ok _ _ _ _ _ (get_proc_ok _ _ _ Hp)). step.
  rewrite (bind_Ok _ _ _ _ _ (on_rq_Ok _ _ _ _ Hrun)).
  by rewrite (upd_proc_ok _ _ p).
Qed.

Lemma dequeue_ok s i p l free :
  tab s !! i = Some p -> qrep (rq s) (skiplist s) ((pid p, virtual_deadline p) :: l) free ->
  0 <= virtual_deadline p -> pid p <> -1 -> NoDup (fst <$> (pid p, virtual_deadline p) :: l) ->
  exists q free', dequeue kend i s = Ok (tt, set_tab (<[i := with_max_level (-1) p]> (tab s)) (set_rq q s)) /\
    qrep q (skiplist s) l free' /\ (length free < length free')%nat /\
    hw_sim (phw s) (khw (kmem q)) /\ seed q = seed (rq s).
Proof.
  intros Hp Hq Hv Hpid Hn.
  destruct (queue_delete_minimum (rq s) (skiplist s) _ _ l free Hq Hv Hpid Hn)
    as (q & lvl & free' & Hrun & Hq' & Hl & Hsim & Hs & _).
  exists q, free'. split_and!; try done. unfold dequeue.
  rewrite (bind_Ok _ _ _ _ _ (get_proc_ok _ _ _ Hp)). step.
  rewrite (bind_Ok _ _ _ _ _ (on_rq_Ok _ _ _ _ Hrun)).
  by rewrite (upd_proc_ok _ _ p).
Qed.

End base.
