(* ===== verification/ProcSched.v ===== *)
(** * The scheduler

    The process table and the run queue agree ([sched_inv]), and every routine
    that takes a process off the processor or puts it back keeps them so. *)

From S2P Require Import Prelude Spinlock Mmu Kalloc Console CString.
From S2P Require Import SkipList SkipListRep SkipListInsert SkipListInit SkipListDelete RunQueue Proc ProcBase.

#[local] Remove Hints kalloc_page_alloc kalloc_page_alloc_laws : typeclass_instances.

(** ** The invariant *)

(** A process in one of these states has a stack and an address space. *)
Definition live (st : procstate) : Prop := st = RUNNABLE \/ st = RUNNING \/ st = SLEEPING.

Record tab_ok (t : list proc) (np : Z) : Prop := {
  t_len : length t = NPROC;
  t_pid : forall i p, t !! i = Some p -> 0 <= pid p < np;
  t_used : forall i p, t !! i = Some p -> pstate p <> UNUSED -> pid p <> 0;
  t_inj : forall i j p q, t !! i = Some p -> t !! j = Some q -> pid p = pid q -> pid p <> 0 -> i = j;
  t_vd : forall i p, t !! i = Some p -> 0 <= virtual_deadline p;
  t_live : forall i p, t !! i = Some p -> live (pstate p) -> kstack p <> 0 /\ KERNBASE <= pgdir p
}.

(** The entry [e] belongs to a runnable process of the table other than those of [pend]. *)
Definition queued (pend : list nat) (t : list proc) (e : Z * Z) : Prop :=
  exists i p, t !! i = Some p /\ pstate p = RUNNABLE /\ i ∉ pend /\
    e = (pid p, virtual_deadline p).

Section sched.

Context (kend : Z) {E : Type} `{!KEnv E}.

#[local] Instance sched_pages : PageAlloc kst := proc_pages kend.
#[local] Instance sched_pages_laws : PageAllocLaws kst := kalloc_page_alloc_laws kend.

Implicit Types s : pst E.

(** The run queue [l] holds exactly the runnable processes, except those of
    [pend], which are between becoming runnable and being queued. *)
Record sched_inv (pend : list nat) (s : pst E) (l : list (Z * Z)) (free : list Z) : Prop := {
  i_tab : tab_ok (tab s) (nextpid s);
  i_rep : queue_rep (rq s) (skiplist s) l free;
  i_nodup : NoDup (fst <$> l);
  i_match : forall e, e ∈ l <-> queued pend (tab s) e;
  i_pend : forall i, i ∈ pend -> exists p, tab s !! i = Some p /\ pstate p = RUNNABLE
}.

(** The variables the scheduler does not touch. *)
Definition kept (s s' : pst E) : Prop :=
  skiplist s' = skiplist s /\ initproc s' = initproc s /\ nextpid s' = nextpid s /\
  ticks s' = ticks s /\ first s' = first s /\ kpgdir s' = kpgdir s /\ locks s' = locks s /\
  env s' = env s.

#[export] Instance kept_preorder : PreOrder kept.
Proof. split; [by intros s|]. unfold kept. intros s1 s2 s3. intuition congruence. Qed.

(** *** Updating one entry of the table *)

Lemma tab_ok_upd t np i p f :
  tab_ok t np -> t !! i = Some p ->
  pid (f p) = pid p -> 0 <= virtual_deadline (f p) ->
  (pstate (f p) <> UNUSED -> pid p <> 0) ->
  (live (pstate (f p)) -> kstack (f p) <> 0 /\ KERNBASE <= pgdir (f p)) ->
  tab_ok (<[i := f p]> t) np.
Proof.
  intros [Hlen Hpid Hused Hinj Hvd Hlive] Hp Hfp Hv Hu Hl.
  assert (Hcase : forall j q, <[i := f p]> t !! j = Some q ->
    (j = i /\ q = f p) \/ (j <> i /\ t !! j = Some q)).
  { intros j q Hq. apply list_lookup_insert_Some in Hq as [(-> & <- & _)|[Hne Hq]]; [by left|].
    right. split; [congruence|done]. }
  constructor.
  - by rewrite length_insert.
  - intros j q [[-> ->]|[_ Hq]]%Hcase; [rewrite Hfp|]; eauto.
  - intros j q [[-> ->]|[_ Hq]]%Hcase; [rewrite Hfp|]; eauto.
  - intros j k q r Hq Hr Hpq H0.
    apply Hcase in Hq as [[-> ->]|[Hj Hq]]; apply Hcase in Hr as [[-> ->]|[Hk Hr]]; try done;
      rewrite ?Hfp in Hpq; rewrite ?Hfp in H0.
    + exact (Hinj _ _ _ _ Hp Hr Hpq H0).
    + apply (Hinj _ _ _ _ Hq Hp); congruence.
    + exact (Hinj _ _ _ _ Hq Hr Hpq H0).
  - intros j q [[-> ->]|[_ Hq]]%Hcase; eauto.
  - intros j q [[-> ->]|[_ Hq]]%Hcase; eauto.
Qed.

Lemma queued_pid pend t np i p e :
  tab_ok t np -> t !! i = Some p -> queued pend t e -> fst e = pid p -> pid p <> 0 ->
  pstate p = RUNNABLE /\ i ∉ pend /\ e = (pid p, virtual_deadline p).
Proof.
  intros Ht Hp (j & q & Hq & Hst & Hj & ->) Hpq H0. simpl in Hpq.
  assert (j = i) as -> by (eapply (t_inj _ _ Ht); [exact Hq|exact Hp|done|congruence]).
  rewrite Hp in Hq. by simplify_eq.
Qed.

(** A change that neither adds nor removes queued processes. *)
Lemma queued_upd_same pend t i p p' e :
  t !! i = Some p -> pid p' = pid p -> virtual_deadline p' = virtual_deadline p ->
  ((pstate p' = RUNNABLE /\ i ∉ pend) <-> (pstate p = RUNNABLE /\ i ∉ pend)) ->
  (queued pend (<[i := p']> t) e <-> queued pend t e).
Proof.
  intros Hp Hpid Hvd Hst. pose proof (lookup_lt_Some _ _ _ Hp) as Hlt.
  split; intros (j & q & Hq & Hr & Hj & ->).
  - apply list_lookup_insert_Some in Hq as [(<- & <- & _)|[Hne Hq]].
    + exists i, p. rewrite Hpid, Hvd. destruct Hst as [Hst _]. destruct Hst; done.
    + by exists j, q.
  - destruct (decide (j = i)) as [-> |Hne].
    + rewrite Hp in Hq. simplify_eq. exists i, p'. rewrite list_lookup_insert_eq by done.
      rewrite Hpid, Hvd. destruct Hst as [_ Hst]. destruct Hst; done.
    + exists j, q. by rewrite list_lookup_insert_ne.
Qed.

(** *** Output *)

Definition say (o : list Z) (s : pst E) : pst E :=
  let q := rq s in set_rq (Sst (heap q) (kmem q) (seed q) (sout q ++ o)) s.

Lemma say_say o o' s : say o' (say o s) = say (o ++ o') s.
Proof. unfold say, set_rq. simpl. by rewrite <- app_assoc. Qed.

Lemma say_nil s : say [] s = s.
Proof. unfold say, set_rq. destruct s as [[]]; simpl. by rewrite app_nil_r. Qed.

Lemma cprint_ok fmt args s o :
  cprintf_loop (codes fmt) args = Ok o -> cprint fmt args s = Ok (tt, say o s).
Proof.
  intros Hc. unfold cprint. apply on_rq_Ok. unfold print, cprintf. by rewrite Hc.
Qed.

Lemma newline_ok s : newline s = Ok (tt, say [NL] s).
Proof. done. Qed.

Lemma cprintf_s fmt x args out :
  cprintf_loop fmt args = Ok out -> cprintf_loop (37 :: 115 :: fmt) (AStr (Some x) :: args) = Ok (x ++ out).
Proof. intros H. cbn -[printint]. by rewrite H. Qed.

(** A format with literal text, [%d] and [%s] and the arguments it takes. *)
Ltac format :=
  cbn [codes map String.list_ascii_of_string];
  repeat (first [apply cprintf_d|apply cprintf_s|apply cprintf_text; [reflexivity|]]);
  try reflexivity.

Lemma log_procs_ok h l : forall k s, exists o, log_procs k h l s = Ok (tt, say o s).
Proof.
  induction l as [|p l IH]; intros k s; cbn [log_procs].
  - exists []. by rewrite say_nil.
  - destruct (h <? k); [exists []; by rewrite say_nil|].
    assert (exists o, (if is_state UNUSED p then cprint "[-]---:0:-(-)(-)(-)" []
      else cprint "[%d]%s:%d:%d(%d)(%d)(%d)"
             [AInt (pid p); AStr (Some (name_str (pname p))); AInt (state_num (pstate p));
              AInt (nice_value p); AInt (max_level p); AInt (virtual_deadline p); AInt (ticks_left p)]) s
      = Ok (tt, say o s)) as [o1 H1].
    { destruct (is_state UNUSED p); eexists; apply cprint_ok; format. }
    assert (exists o, (if k <=? h - 1 then cprint "," [] else ret tt) (say o1 s) = Ok (tt, say o (say o1 s)))
      as [o2 H2].
    { destruct (k <=? h - 1); [eexists; apply cprint_ok; format|]. exists []. by rewrite say_nil. }
    rewrite (bind_Ok _ _ _ _ _ H1), (bind_Ok _ _ _ _ _ H2).
    destruct (IH (k + 1) (say o2 (say o1 s))) as [o3 H3]. rewrite H3. eexists. by rewrite !say_say.
Qed.

Lemma log_schedule_ok s :
  exists o a, log_schedule s = Ok (tt, say o (set_schedlog a (schedlog_lasttick s) s)).
Proof.
  unfold log_schedule. step. destruct (schedlog_active s =? 0).
  { exists [], (schedlog_active s). rewrite say_nil. by destruct s. }
  destruct (u32 (schedlog_lasttick s) <? ticks s).
  { exists [], 0. by rewrite say_nil. }
  assert (exists o, cprint "%d|" [AInt (ticks s)] s = Ok (tt, say o s)) as [o1 H1].
  { eexists. apply cprint_ok. format. }
  rewrite (bind_Ok _ _ _ _ _ H1).
  destruct (log_procs_ok (highest_idx 0 (-1) (tab s)) (tab s) 0 (say o1 s)) as [o2 H2].
  rewrite (bind_Ok _ _ _ _ _ H2), newline_ok. exists (o1 ++ o2 ++ [NL]), (schedlog_active s).
  rewrite !say_say. by destruct s.
Qed.

(** *** Switching address spaces *)

Lemma V2P_ok a : KERNBASE <= a -> V2P a = Ok (u32 (a - KERNBASE)).
Proof. intros Ha. unfold V2P. by replace (a <? KERNBASE) with false by lia. Qed.

Lemma switchkvm_ok s : KERNBASE <= kpgdir s -> switchkvm s = Ok (tt, set_cr3 (u32 (kpgdir s - KERNBASE)) s).
Proof. intros Hk. unfold switchkvm. step. unfold v2p, bind. by rewrite V2P_ok. Qed.

Lemma switchuvm_ok s i p m n o :
  tab s !! i = Some p -> kstack p <> 0 -> KERNBASE <= pgdir p ->
  cpu_is (phw s) m n o -> n < 2 ^ 30 - 2 ->
  exists h, switchuvm (Some i) s =
      Ok (tt, set_cr3 (u32 (pgdir p - KERNBASE)) (set_esp0 (u32 (kstack p + KSTACKSIZE)) (set_phw h s))) /\
    hw_sim (phw s) h.
Proof.
  intros Hp Hk Hd Hc Hn. unfold switchuvm. rewrite (bind_Ok _ _ _ _ _ (get_proc_ok _ _ _ Hp)).
  replace (kstack p =? 0) with false by lia.
  replace (pgdir p =? 0) with false by (unfold KERNBASE in Hd; lia).
  destruct (cli_section_at _ _ _ _ Hc Hn) as (h1 & h2 & c & H1 & _ & _ & _ & H2 & Hs).
  exists h2. split; [|done]. rewrite (bind_Ok _ _ _ _ _ (on_cpu_Ok _ _ _ _ H1)). step.
  erewrite bind_Ok by (unfold v2p; rewrite V2P_ok by done; reflexivity). step.
  rewrite (on_cpu_Ok _ _ tt h2); [done|]. exact H2.
Qed.

(** *** The processor's current process *)

Lemma set_cpu_proc_ok s m n o o' :
  cpu_is (phw s) m n o -> 0 < n ->
  exists h, set_cpu_proc o' s = Ok (tt, set_phw h s) /\ cpu_is h m n o'.
Proof.
  intros Hc Hn. destruct (set_cproc_at _ _ _ _ o' Hc Hn) as (h & Hr & Hc').
  exists h. split; [|done]. by apply on_cpu_Ok.
Qed.

(** *** dispatch *)

(** The entry of a process that has just been chosen. *)
Definition chosen (p : proc) : proc :=
  with_max_level (-1) (with_ticks_left BFS_DEFAULT_QUANTUM (with_state RUNNING p)).

Lemma dispatch_ok s i p l free m n :
  tab s !! i = Some p -> kstack p <> 0 -> KERNBASE <= pgdir p -> 0 <= virtual_deadline p -> 0 < pid p ->
  queue_rep (rq s) (skiplist s) ((pid p, virtual_deadline p) :: l) free ->
  NoDup (fst <$> (pid p, virtual_deadline p) :: l) ->
  cpu_is (phw s) m n None -> 0 < n < 2 ^ 30 - 2 ->
  exists s' free', dispatch kend i s = Ok (tt, s') /\
    tab s' = <[i := chosen p]> (tab s) /\ queue_rep (rq s') (skiplist s) l free' /\
    (length free < length free')%nat /\ cpu_is (phw s') m n (Some i) /\ plock s' = plock s /\
    kept s s' /\ seed (rq s') = seed (rq s) /\ cr3 s' = u32 (pgdir p - KERNBASE).
Proof.
  intros Hp Hk Hd Hv Hpid Hq Hnd Hc Hn. pose proof (lookup_lt_Some _ _ _ Hp) as Hlt. unfold dispatch.
  destruct (set_cpu_proc_ok s m n None (Some i) Hc ltac:(lia)) as (h1 & H1 & Hc1).
  rewrite (bind_Ok _ _ _ _ _ H1).
  destruct (switchuvm_ok (set_phw h1 s) i p m n (Some i) Hp Hk Hd Hc1 ltac:(lia)) as (h2 & H2 & Hs2).
  rewrite (bind_Ok _ _ _ _ _ H2). apply (cpu_is_sim _ _ _ _ _ Hs2) in Hc1 as Hc2.
  set (s2 := set_cr3 _ _).
  rewrite (bind_Ok _ _ _ _ _ (upd_proc_ok s2 i p _ Hp)). set (s3 := set_tab _ s2).
  assert (Hp3 : tab s3 !! i = Some (with_state RUNNING p)) by (by apply list_lookup_insert_eq).
  rewrite (bind_Ok _ _ _ _ _ (upd_proc_ok s3 i _ _ Hp3)). set (s4 := set_tab _ s3).
  assert (Hp4 : tab s4 !! i = Some (with_ticks_left BFS_DEFAULT_QUANTUM (with_state RUNNING p)))
    by (apply list_lookup_insert_eq; unfold s3; simpl; by rewrite length_insert).
  assert (Hq4 : queue_rep (rq s4) (skiplist s4) ((pid p, virtual_deadline p) :: l) free).
  { apply (queue_rep_hw kend (rq s) h2 (skiplist s)); [done|]. exists m, n, (Some i). split; [done|lia]. }
  destruct (dequeue_ok kend s4 i _ l free Hp4 Hq4) as (q & free' & H5 & Hq5 & Hl5 & Hs5 & Hseed); try done.
  { simpl. lia. }
  rewrite (bind_Ok _ _ _ _ _ H5). set (s5 := set_tab _ (set_rq q s4)).
  destruct (log_schedule_ok s5) as (o & a & H6). rewrite H6.
  eexists _, free'. split; [reflexivity|]. split_and!; try done.
  - unfold s5, s4, s3, s2. simpl. by rewrite !list_insert_insert_eq.
  - simpl. by apply queue_rep_out.
  - unfold phw. simpl. apply (cpu_is_sim _ _ _ _ _ Hs5). exact Hc2.
Qed.

(** *** The table scan *)

Lemma find_pid t np i p :
  tab_ok t np -> t !! i = Some p -> pid p <> 0 ->
  find_proc (fun q => pid q =? pid p) 0 (drop 0 t) = Some i.
Proof.
  intros Ht Hp H0. rewrite drop_0.
  destruct (find_proc (fun q => pid q =? pid p) 0 t) as [j|] eqn:Ef.
  - apply find_proc_Some in Ef as (q & _ & Hq & Hpq & _). rewrite Nat.sub_0_r in Hq.
    f_equal. apply Z.eqb_eq in Hpq. apply (t_inj _ _ Ht j i q p); congruence.
  - apply find_proc_None in Ef. rewrite Forall_forall in Ef.
    specialize (Ef p ltac:(by eapply list_elem_of_lookup_2)). simpl in Ef. lia.
Qed.

Lemma find_pid_after t np i p :
  tab_ok t np -> t !! i = Some p -> pid p <> 0 ->
  find_proc (fun q => pid q =? pid p) (S i) (drop (S i) t) = None.
Proof.
  intros Ht Hp H0. destruct (find_proc _ _ _) as [j|] eqn:Ef; [|done].
  apply find_proc_Some in Ef as (q & Hij & Hq & Hpq & _). rewrite lookup_drop in Hq.
  apply Z.eqb_eq in Hpq. replace (S i + (j - S i))%nat with j in Hq by lia.
  assert (j = i) by (apply (t_inj _ _ Ht j i q p); congruence). lia.
Qed.

Lemma find_no_pid t np x i :
  tab_ok t np -> x < 0 -> find_proc (fun q => pid q =? x) i (drop i t) = None.
Proof.
  intros Ht Hx. destruct (find_proc _ _ _) as [j|] eqn:Ef; [|done].
  apply find_proc_Some in Ef as (q & Hij & Hq & Hpq & _). rewrite lookup_drop in Hq.
  apply (t_pid _ _ Ht) in Hq. lia.
Qed.

Lemma scheduler_scan_none s x i s' :
  on_plock release s = Ok (tt, s') -> find_proc (fun q => pid q =? x) i (drop i (tab s)) = None ->
  scheduler_scan kend x i s = Ok (None, s').
Proof. intros Hr Hf. unfold scheduler_scan. step. rewrite Hf. by rewrite (bind_Ok _ _ _ _ _ Hr). Qed.

Lemma scheduler_scan_some s x i j s' :
  dispatch kend j s = Ok (tt, s') -> find_proc (fun q => pid q =? x) i (drop i (tab s)) = Some j ->
  scheduler_scan kend x i s = Ok (Some j, s').
Proof. intros Hr Hf. unfold scheduler_scan. step. rewrite Hf. by rewrite (bind_Ok _ _ _ _ _ Hr). Qed.

(** Taking the first entry off the queue when its process starts to run. *)
Lemma queued_chosen pend t np i p l :
  tab_ok t np -> t !! i = Some p -> pid p <> 0 ->
  NoDup (fst <$> (pid p, virtual_deadline p) :: l) ->
  (forall e, e ∈ (pid p, virtual_deadline p) :: l <-> queued pend t e) ->
  forall e, e ∈ l <-> queued pend (<[i := chosen p]> t) e.
Proof.
  intros Ht Hp H0 Hnd Hm e. csimpl in Hnd. apply NoDup_cons in Hnd as [Hnot _].
  pose proof (lookup_lt_Some _ _ _ Hp) as Hlt. split.
  - intros He. destruct (proj1 (Hm e) ltac:(by right)) as (j & q & Hq & Hst & Hj & ->).
    exists j, q. split_and!; try done. rewrite list_lookup_insert_ne; [done|]. intros ->.
    rewrite Hp in Hq. simplify_eq. apply Hnot. apply list_elem_of_fmap. by exists (pid q, virtual_deadline q).
  - intros (j & q & Hq & Hst & Hj & ->).
    apply list_lookup_insert_Some in Hq as [(<- & <- & _)|[Hne Hq]]; [done|].
    assert (Hin : (pid q, virtual_deadline q) ∈ (pid p, virtual_deadline p) :: l) by (apply Hm; by exists j, q).
    apply elem_of_cons in Hin as [[= Hpp _]|Hin]; [|done].
    exfalso. apply Hne. symmetry. apply (t_inj _ _ Ht j i q p); congruence.
Qed.

Lemma tab_ok_chosen t np i p :
  tab_ok t np -> t !! i = Some p -> pstate p = RUNNABLE -> tab_ok (<[i := chosen p]> t) np.
Proof.
  intros Ht Hp Hst. apply (tab_ok_upd t np i p chosen); try done.
  - exact (t_vd _ _ Ht i p Hp).
  - intros _. apply (t_used _ _ Ht i p Hp). by rewrite Hst.
  - intros _. apply (t_live _ _ Ht i p Hp). rewrite Hst. by left.
Qed.

(** *** An iteration of the scheduler *)

Lemma acquire_rep s l free m n o h lk :
  queue_rep (rq s) (skiplist s) l free -> cpu_is h m n o -> n < 2 ^ 30 - 2 ->
  queue_rep (rq (set_plock lk (set_phw h s))) (skiplist s) l free.
Proof. intros Hq Hc Hn. apply (queue_rep_hw kend (rq s) h); [done|]. by exists m, n, o. Qed.

Lemma sched_inv_lock pend s l free m n o h lk :
  sched_inv pend s l free -> cpu_is h m n o -> n < 2 ^ 30 - 2 ->
  sched_inv pend (set_plock lk (set_phw h s)) l free.
Proof. intros [Ht Hq Hn Hm Hpe] Hc Hlt. constructor; try done. exact (acquire_rep s l free m n o h lk Hq Hc Hlt). Qed.

(** The start of an iteration, up to the choice of the pid. *)
Lemma scheduler_top_acquire pend s l free m :
  sched_inv pend s l free -> locked (plock s) = 0 -> cpu_is (phw s) m 0 None ->
  exists h, cpu_is h m 1 None /\
    let s1 := set_plock (Spinlock 1 (Some m)) (set_phw h s) in
    scheduler_top kend s =
    bind (scheduler_scan kend (match l with [] => -69 | e :: _ => fst e end) 0)
      (fun o => ret (match l with [] => -69 | e :: _ => fst e end, o)) s1.
Proof.
  intros [Ht Hq Hnd Hm Hpe] Hl Hc. unfold scheduler_top.
  destruct (sti_at _ _ _ Hc) as (h0 & H0 & Hc0). rewrite (bind_Ok _ _ _ _ _ (on_cpu_Ok _ _ _ _ H0)).
  destruct (plock_acquire (set_phw h0 s) m 0 None Hc0 ltac:(lia) Hl) as (h & H1 & Hc1).
  rewrite (bind_Ok _ _ _ _ _ H1). exists h. split; [done|]. cbn zeta. step.
  assert (Hq1 : queue_rep (rq (set_plock (Spinlock 1 (Some m)) (set_phw h s))) (skiplist s) l free)
    by (apply (acquire_rep s l free m 1 None); [done|done|lia]).
  pose proof (queue_minimum _ _ _ _ Hq1) as Hmin.
  erewrite bind_Ok by (apply (on_rq_Ok _ (set_plock (Spinlock 1 (Some m)) (set_phw h s))); exact Hmin).
  by destruct s.
Qed.

Lemma scheduler_top_idle pend s free m :
  sched_inv pend s [] free -> locked (plock s) = 0 -> cpu_is (phw s) m 0 None ->
  exists h, scheduler_top kend s = Ok ((-69, None), set_plock (Spinlock 0 None) (set_phw h s)) /\
    cpu_is h m 0 None.
Proof.
  intros Hi Hl Hc. destruct (scheduler_top_acquire pend s [] free m Hi Hl Hc) as (h & Hc1 & ->).
  set (s1 := set_plock (Spinlock 1 (Some m)) (set_phw h s)).
  destruct (plock_release s1 m 1 None Hc1 ltac:(lia) eq_refl) as (h' & H2 & Hc2).
  pose proof (scheduler_scan_none s1 (-69) 0 _ H2 (find_no_pid (tab s1) _ (-69) 0 (i_tab _ _ _ _ Hi) ltac:(lia))) as Hs.
  rewrite (bind_Ok _ _ _ _ _ Hs). exists h'. by split.
Qed.

Lemma scheduler_top_pick pend s p0 v0 l free m :
  sched_inv pend s ((p0, v0) :: l) free -> locked (plock s) = 0 -> cpu_is (phw s) m 0 None ->
  exists i p s' free', tab s !! i = Some p /\ pstate p = RUNNABLE /\ pid p = p0 /\ virtual_deadline p = v0 /\
    i ∉ pend /\ scheduler_top kend s = Ok ((p0, Some i), s') /\
    tab s' = <[i := chosen p]> (tab s) /\ sched_inv pend s' l free' /\
    (length free < length free')%nat /\ cpu_is (phw s') m 1 (Some i) /\
    plock s' = Spinlock 1 (Some m) /\ kept s s' /\ seed (rq s') = seed (rq s) /\
    cr3 s' = u32 (pgdir p - KERNBASE).
Proof.
  intros Hi Hl Hc. destruct (scheduler_top_acquire pend s _ free m Hi Hl Hc) as (h & Hc1 & ->).
  destruct Hi as [Ht Hq Hnd Hm Hpe]. destruct (proj1 (Hm (p0, v0)) ltac:(left)) as (i & p & Hp & Hst & Hpend & [= -> ->]).
  pose proof (t_pid _ _ Ht i p Hp) as Hpid. pose proof (t_used _ _ Ht i p Hp) as Hu.
  rewrite Hst in Hu. specialize (Hu ltac:(done)).
  destruct (t_live _ _ Ht i p Hp) as [Hk Hd]; [rewrite Hst; by left|].
  set (s1 := set_plock (Spinlock 1 (Some m)) (set_phw h s)).
  assert (Hq1 : queue_rep (rq s1) (skiplist s1) ((pid p, virtual_deadline p) :: l) free)
    by (apply (acquire_rep s _ free m 1 None); [done|done|lia]).
  destruct (dispatch_ok s1 i p l free m 1 Hp Hk Hd (t_vd _ _ Ht i p Hp) ltac:(lia) Hq1 Hnd Hc1 ltac:(lia))
    as (s' & free' & Hrun & Htab & Hq' & Hlen & Hc' & Hpl & Hkept & Hseed & Hcr3).
  exists i, p, s', free'. split_and!; try done.
  - pose proof (scheduler_scan_some s1 (pid p) 0 i _ Hrun (find_pid _ _ _ _ Ht Hp Hu)) as Hs.
    by rewrite (bind_Ok _ _ _ _ _ Hs).
  - destruct Hkept as (Hk1 & _ & Hk2 & _). constructor.
    + rewrite Htab, Hk2. by apply tab_ok_chosen.
    + rewrite Hk1. exact Hq'.
    + csimpl in Hnd. by apply NoDup_cons in Hnd as [_ Hnd].
    + rewrite Htab. by eapply queued_chosen.
    + intros j Hj. destruct (Hpe j Hj) as (q & Hqj & Hr). exists q. split; [|done].
      rewrite Htab, list_lookup_insert_ne; [done|]. intros ->. done.
Qed.

(** *** Queueing a process that has become runnable *)

Lemma queued_add pend t i p' e :
  (i < length t)%nat -> pstate p' = RUNNABLE -> i ∉ pend ->
  (queued pend (<[i := p']> t) e <-> e = (pid p', virtual_deadline p') \/ queued (i :: pend) (<[i := p']> t) e).
Proof.
  intros Hlt Hst Hi. split.
  - intros (j & q & Hq & Hr & Hj & ->). destruct (decide (j = i)) as [-> |Hne].
    + rewrite list_lookup_insert_eq in Hq by done. simplify_eq. by left.
    + right. exists j, q. split_and!; try done. by apply not_elem_of_cons.
  - intros [-> |(j & q & Hq & Hr & Hj & ->)].
    + exists i, p'. by rewrite list_lookup_insert_eq.
    + exists j, q. apply not_elem_of_cons in Hj as [_ Hj]. done.
Qed.

(** A process of [pend] is not in the queue. *)
Lemma pend_not_queued pend t np i p (l : list (Z * Z)) :
  tab_ok t np -> t !! i = Some p -> i ∈ pend -> pid p <> 0 ->
  (forall e, e ∈ l <-> queued pend t e) -> pid p ∉ fst <$> l.
Proof.
  intros Ht Hp Hi H0 Hm Hin. apply list_elem_of_fmap in Hin as (e & He & Hin).
  apply Hm in Hin. destruct (queued_pid _ _ _ _ _ _ Ht Hp Hin) as (_ & Hn & _); [done|done|]. by apply Hn.
Qed.

(** What an insertion needs. *)
Definition can_insert (n : nat) (s : pst E) (free : list Z) : Prop :=
  draws_ok n (seed (rq s)) = true /\ (4 * n <= length free)%nat.

Lemma sched_inv_enqueue pend s l free i p n :
  sched_inv (i :: pend) s l free -> i ∉ pend -> tab s !! i = Some p -> pstate p = RUNNABLE ->
  can_insert (S n) s free ->
  exists lvl s' free', enqueue kend i s = Ok (tt, s') /\
    tab s' = <[i := with_max_level lvl p]> (tab s) /\
    sched_inv pend s' (insert_entry (pid p, virtual_deadline p) l) free' /\
    hw_sim (phw s) (phw s') /\ plock s' = plock s /\ kept s s' /\ can_insert n s' free'.
Proof.
  intros [Ht Hq Hnd Hm Hpe] Hi Hp Hst [Hd Hf]. pose proof (lookup_lt_Some _ _ _ Hp) as Hlt.
  cbn [draws_ok] in Hd. apply andb_prop in Hd as [Hd Hds]. apply Z.leb_le in Hd.
  pose proof (draw_level_bound (seed (rq s))) as Hb.
  destruct (enqueue_ok kend s i p l free Hp Hq Hd ltac:(lia)) as (q & Hrun & Hq' & Hsim & Hseed).
  assert (H0 : pid p <> 0) by (apply (t_used _ _ Ht i p Hp); by rewrite Hst).
  set (lvl := fst (draw_level (seed (rq s)))) in *.
  exists lvl. eexists. exists (drop (Z.to_nat (lvl + 1)) free). split; [exact Hrun|].
  split_and!; try done.
  - constructor.
    + simpl. apply (tab_ok_upd _ _ i p (with_max_level lvl)); try done.
      * exact (t_vd _ _ Ht i p Hp).
      * intros _. apply (t_live _ _ Ht i p Hp). rewrite Hst. by left.
    + exact Hq'.
    + rewrite insert_entry_perm. csimpl. apply NoDup_cons. split; [|done].
      apply (pend_not_queued (i :: pend) (tab s) (nextpid s) i p); try done. left.
    + intros e. rewrite insert_entry_perm, elem_of_cons, Hm. simpl tab.
      rewrite queued_add by done. simpl. f_equiv. symmetry.
      apply (queued_upd_same (i :: pend) (tab s) i p); try done.
    + intros j Hj. destruct (Hpe j ltac:(by right)) as (r & Hr & Hrs). exists r. split; [|done].
      simpl. rewrite list_lookup_insert_ne; [done|]. intros ->. done.
  - split; simpl; [by rewrite Hseed|]. rewrite length_drop. lia.
Qed.

(** Becoming runnable without being queued yet. *)
Lemma sched_inv_make_runnable pend s l free i p p' :
  sched_inv pend s l free -> tab s !! i = Some p -> pstate p <> RUNNABLE \/ i ∈ pend ->
  pid p' = pid p -> 0 <= virtual_deadline p' -> pid p <> 0 -> pstate p' = RUNNABLE ->
  kstack p' <> 0 -> KERNBASE <= pgdir p' ->
  sched_inv (i :: pend) (set_tab (<[i := p']> (tab s)) s) l free.
Proof.
  intros [Ht Hq Hnd Hm Hpe] Hp Hst Hpid Hv H0 Hr' Hks Hpg. pose proof (lookup_lt_Some _ _ _ Hp) as Hlt.
  constructor; try done.
  - simpl. apply (tab_ok_upd _ _ i p (fun _ => p')); try done.
  - intros e. simpl. rewrite Hm. split; intros (j & q & Hq' & Hr & Hj & ->).
    + exists j, q. assert (j <> i).
      { intros ->. rewrite Hp in Hq'. simplify_eq. by destruct Hst. }
      rewrite list_lookup_insert_ne by done. split_and!; try done. by apply not_elem_of_cons.
    + apply not_elem_of_cons in Hj as [Hji Hj]. rewrite list_lookup_insert_ne in Hq' by done. by exists j, q.
  - intros j Hj. simpl. destruct (decide (j = i)) as [-> |Hne].
    + exists p'. by rewrite list_lookup_insert_eq.
    + apply elem_of_cons in Hj as [-> |Hj]; [done|]. rewrite list_lookup_insert_ne by done. auto.
Qed.

(** A change of fields the scheduler does not look at. *)
Definition same_sched (p p' : proc) : Prop :=
  pid p' = pid p /\ virtual_deadline p' = virtual_deadline p /\ pstate p' = pstate p /\
  kstack p' = kstack p /\ pgdir p' = pgdir p.

Lemma sched_inv_minor pend s l free i p p' :
  sched_inv pend s l free -> tab s !! i = Some p -> same_sched p p' ->
  sched_inv pend (set_tab (<[i := p']> (tab s)) s) l free.
Proof.
  intros [Ht Hq Hnd Hm Hpe] Hp (Hpid & Hvd & Hst & Hks & Hpg). pose proof (lookup_lt_Some _ _ _ Hp) as Hlt.
  constructor; try done; simpl.
  - apply (tab_ok_upd _ _ i p (fun _ => p')); try done.
    + rewrite Hvd. exact (t_vd _ _ Ht i p Hp).
    + rewrite Hst. exact (t_used _ _ Ht i p Hp).
    + rewrite Hst, Hks, Hpg. exact (t_live _ _ Ht i p Hp).
  - intros e. rewrite Hm. symmetry. apply (queued_upd_same _ _ i p); try done. by rewrite Hst.
  - intros j Hj. destruct (Hpe j Hj) as (q & Hq' & Hr). destruct (decide (j = i)) as [-> |Hne].
    + exists p'. rewrite list_lookup_insert_eq by done. split; [done|]. congruence.
    + exists q. by rewrite list_lookup_insert_ne.
Qed.

(** A process that ran stops being runnable. *)
Lemma sched_inv_block pend s l free i p p' :
  sched_inv pend s l free -> tab s !! i = Some p -> pstate p <> RUNNABLE -> pstate p' <> RUNNABLE ->
  pid p' = pid p -> 0 <= virtual_deadline p' -> pid p <> 0 ->
  (live (pstate p') -> kstack p' <> 0 /\ KERNBASE <= pgdir p') ->
  sched_inv pend (set_tab (<[i := p']> (tab s)) s) l free.
Proof.
  intros [Ht Hq Hnd Hm Hpe] Hp Hst Hst' Hpid Hv H0 Hl. constructor; try done; simpl.
  - by apply (tab_ok_upd _ _ i p (fun _ => p')).
  - intros e. rewrite Hm. split; intros (j & q & Hq' & Hr & Hj & ->); exists j, q; split_and!; try done.
    + rewrite list_lookup_insert_ne; [done|]. intros ->. rewrite Hp in Hq'. by simplify_eq.
    + apply list_lookup_insert_Some in Hq' as [(-> & <- & _)|[_ Hq']]; done.
  - intros j Hj. destruct (Hpe j Hj) as (q & Hq' & Hr). exists q. split; [|done].
    rewrite list_lookup_insert_ne; [done|]. intros ->. rewrite Hp in Hq'. by simplify_eq.
Qed.

Lemma pend_runnable pend s l free i p :
  sched_inv pend s l free -> tab s !! i = Some p -> pstate p <> RUNNABLE -> i ∉ pend.
Proof.
  intros Hi Hp Hst Hin. destruct (i_pend _ _ _ _ Hi i Hin) as (q & Hq & Hr). rewrite Hp in Hq. by simplify_eq.
Qed.

(** *** Around the table lock *)

(** [ptable.lock] is held by processor [m], or free. *)
Definition held (m : nat) (n : Z) (o : option nat) (s : pst E) : Prop :=
  plock s = Spinlock 1 (Some m) /\ cpu_is (phw s) m n o.

Definition unheld (m : nat) (n : Z) (o : option nat) (s : pst E) : Prop :=
  locked (plock s) = 0 /\ cpu_is (phw s) m n o.

(** Only lock and processor state changed. *)
Definition quiet (s s' : pst E) : Prop :=
  tab s' = tab s /\ kept s s' /\ seed (rq s') = seed (rq s) /\
  forall pend l free, sched_inv pend s l free -> sched_inv pend s' l free.

#[export] Instance quiet_preorder : PreOrder quiet.
Proof.
  split.
  - intros s. by split_and!.
  - intros s1 s2 s3 (T1 & K1 & S1 & I1) (T2 & K2 & S2 & I2). split_and!; try congruence.
    + by etransitivity.
    + auto.
Qed.

Lemma quiet_hw s h m n o : cpu_is h m n o -> n < 2 ^ 30 - 2 -> quiet s (set_phw h s).
Proof.
  intros Hc Hn. split_and!; try done. intros pend l free [Ht Hq Hnd Hm Hpe]. constructor; try done.
  exact (queue_rep_hw kend (rq s) h _ _ _ Hq (ex_intro _ m (ex_intro _ n (ex_intro _ o (conj Hc Hn))))).
Qed.

Lemma quiet_lock s h lk m n o : cpu_is h m n o -> n < 2 ^ 30 - 2 -> quiet s (set_plock lk (set_phw h s)).
Proof.
  intros Hc Hn. split_and!; try done. intros pend l free Hi. by eapply sched_inv_lock.
Qed.

Lemma acquire_step s m n o :
  unheld m n o s -> n < 2 ^ 30 - 4 ->
  exists s', on_plock acquire s = Ok (tt, s') /\ held m (n + 1) o s' /\ quiet s s'.
Proof.
  intros [Hl Hc] Hn. destruct (plock_acquire s m n o Hc ltac:(lia) Hl) as (h & Hr & Hc').
  eexists. split; [exact Hr|]. split; [by split|]. apply (quiet_lock _ _ _ _ _ _ Hc'). lia.
Qed.

Lemma release_step s m n o :
  held m n o s -> 1 <= n < 2 ^ 30 - 4 ->
  exists s', on_plock release s = Ok (tt, s') /\ unheld m (n - 1) o s' /\ quiet s s'.
Proof.
  intros [Hl Hc] Hn. destruct (plock_release s m n o Hc ltac:(lia) Hl) as (h & Hr & Hc').
  eexists. split; [exact Hr|]. split; [by split|]. apply (quiet_lock _ _ _ _ _ _ Hc'). lia.
Qed.

Lemma curproc_step s m n i :
  cpu_is (phw s) m n (Some i) -> n < 2 ^ 30 - 2 ->
  exists s', curproc s = Ok (i, s') /\ cpu_is (phw s') m n (Some i) /\ plock s' = plock s /\ quiet s s'.
Proof.
  intros Hc Hn. destruct (curproc_at s m n i Hc Hn) as (h & Hr & Hs).
  apply (cpu_is_sim _ _ _ _ _ Hs) in Hc. eexists. split; [exact Hr|]. split_and!; try done.
  by eapply quiet_hw.
Qed.

(** *** sched *)

Lemma set_phw_id s : set_phw (phw s) s = s.
Proof. by destruct s as [[? [] ? ?]]. Qed.

Lemma set_plock_id s : set_plock (plock s) s = s.
Proof. by destruct s. Qed.

(** Reading the processor changes nothing. *)
Lemma on_cpu_read {A} (c : M hw A) s x : c (phw s) = Ok (x, phw s) -> on_cpu c s = Ok (x, s).
Proof. intros Hc. rewrite (on_cpu_Ok _ _ _ _ Hc). by rewrite set_phw_id. Qed.

Lemma plock_holding s m n o :
  held m n o s -> 1 <= n < 2 ^ 30 - 1 -> on_plock holding s = Ok (true, s).
Proof.
  intros [Hl Hc] Hn. pose proof (holding_at _ _ _ _ (plock s) Hc Hn) as Hh.
  rewrite (on_plock_Ok _ _ _ _ _ Hh), set_phw_id, set_plock_id, Hl. unfold held_by. simpl.
  by rewrite bool_decide_true.
Qed.

Lemma sched_out_ok s m i p k :
  held m 1 (Some i) s -> tab s !! i = Some p -> pstate p <> RUNNING ->
  exists v s1, sched_out k s = Ok (tt, set_tab (<[i := with_ctx (Some (k v)) p]> (tab s)) s1) /\
    held m 1 (Some i) s1 /\ quiet s s1.
Proof.
  intros [Hl Hc] Hp Hst. unfold sched_out.
  destruct (curproc_step s m 1 i Hc ltac:(lia)) as (s1 & H1 & Hc1 & Hl1 & Hq1).
  assert (Hh1 : held m 1 (Some i) s1) by (split; [by rewrite Hl1|done]).
  assert (Htab : tab s1 = tab s) by apply Hq1. rewrite <- Htab in Hp |- *.
  rewrite (bind_Ok _ _ _ _ _ H1), (bind_Ok _ _ _ _ _ (plock_holding _ _ _ _ Hh1 ltac:(lia))). cbn [negb].
  pose proof (mycpu_at _ _ _ _ Hc1 ltac:(lia)) as Hm.
  destruct (load_cpu_at _ _ _ _ Hc1) as (c & Hlc & _ & Hn & _).
  rewrite (bind_Ok _ _ _ _ _ (on_cpu_read _ _ _ Hm)), (bind_Ok _ _ _ _ _ (on_cpu_read _ _ _ Hlc)), Hn.
  cbn [Z.eqb Pos.eqb negb]. rewrite (bind_Ok _ _ _ _ _ (get_proc_ok _ _ _ Hp)).
  unfold is_state. rewrite bool_decide_false by done.
  rewrite (bind_Ok _ _ _ _ _ (on_cpu_read readeflags s1 (eflags (phw s1)) eq_refl)).
  rewrite (cpu_is_off _ _ _ _ Hc1) by lia.
  rewrite (bind_Ok _ _ _ _ _ (on_cpu_read _ _ _ Hm)), (bind_Ok _ _ _ _ _ (on_cpu_read _ _ _ Hlc)).
  exists (intena c), s1. split; [by apply upd_proc_ok|done].
Qed.

Lemma sched_in_step s m n o v :
  held m n o s -> 1 <= n < 2 ^ 30 - 2 -> exists s', sched_in v s = Ok (tt, s') /\ held m n o s' /\ quiet s s'.
Proof.
  intros [Hl Hc] Hn. destruct (set_intena_at _ _ _ _ v Hc ltac:(lia)) as (h & Hr & Hc').
  eexists. split; [by apply on_cpu_Ok|]. split; [by split|]. apply (quiet_hw _ _ _ _ _ Hc'). lia.
Qed.

(** *** yield *)

Lemma yield_out_ok pend s l free m i p :
  sched_inv pend s l free -> unheld m 0 (Some i) s -> tab s !! i = Some p -> pstate p = RUNNING ->
  exists v s', yield_out s = Ok (tt, s') /\
    tab s' = <[i := with_ctx (Some (CtxYield v)) (with_state RUNNABLE p)]> (tab s) /\
    sched_inv (i :: pend) s' l free /\ held m 1 (Some i) s' /\ kept s s' /\ seed (rq s') = seed (rq s).
Proof.
  intros Hi Hu Hp Hst. unfold yield_out. pose proof (lookup_lt_Some _ _ _ Hp) as Hlt.
  destruct (acquire_step s m 0 (Some i) Hu ltac:(lia)) as (s1 & H1 & Hh1 & Hq1).
  rewrite (bind_Ok _ _ _ _ _ H1).
  destruct (curproc_step s1 m 1 i (proj2 Hh1) ltac:(lia)) as (s2 & H2 & Hc2 & Hl2 & Hq2).
  rewrite (bind_Ok _ _ _ _ _ H2).
  assert (Hq : quiet s s2) by (by etransitivity). destruct Hq as (Ht & Hk & Hs & Hinv).
  rewrite <- Ht in Hp, Hlt. rewrite (bind_Ok _ _ _ _ _ (upd_proc_ok _ _ _ _ Hp)). set (s3 := set_tab _ s2).
  assert (Hp3 : tab s3 !! i = Some (with_state RUNNABLE p)) by (by apply list_lookup_insert_eq).
  assert (Hh3 : held m 1 (Some i) s3) by (split; [rewrite <- (proj1 Hh1); exact Hl2|exact Hc2]).
  destruct (sched_out_ok s3 m i _ CtxYield Hh3 Hp3) as (v & s4 & H4 & Hh4 & (Ht4 & Hk4 & Hs4 & Hinv4)); [done|].
  exists v. eexists. split; [exact H4|]. apply Hinv in Hi. pose proof (i_tab _ _ _ _ Hi) as Htab.
  assert (Hi3 : sched_inv (i :: pend) s3 l free).
  { apply (sched_inv_make_runnable pend s2 l free i p); try done.
    - left. by rewrite Hst.
    - exact (t_vd _ _ Htab i p Hp).
    - apply (t_used _ _ Htab i p Hp). by rewrite Hst.
    - apply (t_live _ _ Htab i p Hp). rewrite Hst. by right; left.
    - apply (t_live _ _ Htab i p Hp). rewrite Hst. by right; left. }
  split_and!; try done.
  - simpl. rewrite Ht. by rewrite list_insert_insert_eq.
  - rewrite <- Ht4 in Hp3 |- *. by apply (sched_inv_minor _ s4 l free i (with_state RUNNABLE p)); auto.
  - by etransitivity.
  - simpl. rewrite Hs4. exact Hs.
Qed.

(** *** Returning to the scheduler *)

(** The deadline a process that comes back runnable is queued with. *)
Definition next_deadline (s : pst E) (p : proc) : Z :=
  if ticks_left p =? 0 then deadline_at (ticks s) (nice_value p) else virtual_deadline p.

(** What follows the re-queueing. *)
Lemma scheduler_back_end pend s l free m i p x :
  sched_inv pend s l free -> held m 1 (Some i) s -> tab s !! i = Some p -> pid p = x -> x <> 0 ->
  exists s', bind (set_cpu_proc None) (fun _ => scheduler_scan kend x (S i)) s = Ok (None, s') /\
    unheld m 0 None s' /\ quiet s s'.
Proof.
  intros Hi [Hl Hc] Hp <- H0. destruct (set_cpu_proc_ok s m 1 (Some i) None Hc ltac:(lia)) as (h & H1 & Hc1).
  rewrite (bind_Ok _ _ _ _ _ H1). set (s1 := set_phw h s).
  assert (Hq1 : quiet s s1) by (by apply (quiet_hw s h m 1 None Hc1)).
  destruct (release_step s1 m 1 None) as (s2 & H2 & Hu2 & Hq2); [by split|lia|].
  exists s2. split; [|split; [done|by etransitivity]].
  apply scheduler_scan_none; [done|]. change (tab s1) with (tab s).
  exact (find_pid_after _ _ _ _ (i_tab _ _ _ _ Hi) Hp H0).
Qed.

Lemma scheduler_back_blocked pend s l free m i p :
  sched_inv pend s l free -> held m 1 (Some i) s -> tab s !! i = Some p ->
  pstate p <> RUNNABLE -> pid p <> 0 -> KERNBASE <= kpgdir s ->
  exists s', scheduler_back kend (pid p) i s = Ok (None, s') /\ tab s' = tab s /\
    sched_inv pend s' l free /\ unheld m 0 None s' /\ kept s s' /\ seed (rq s') = seed (rq s).
Proof.
  intros Hi Hh Hp Hst H0 Hk. unfold scheduler_back.
  rewrite (bind_Ok _ _ _ _ _ (switchkvm_ok _ Hk)). set (s1 := set_cr3 _ s).
  rewrite (bind_Ok _ _ _ _ _ (get_proc_ok s1 _ _ Hp)). unfold is_state. rewrite bool_decide_false by done.
  rewrite (bind_Ok (ret tt) _ _ tt _ eq_refl).
  destruct (scheduler_back_end pend s1 l free m i p (pid p)) as (s2 & H2 & Hu2 & (Ht & Hkept & Hs & Hinv)); try done.
  { by destruct Hi; constructor. }
  rewrite H2. exists s2. split_and!; try done. apply Hinv. by destruct Hi; constructor.
Qed.

Lemma scheduler_back_runnable pend s l free m i p n :
  sched_inv (i :: pend) s l free -> i ∉ pend -> held m 1 (Some i) s -> tab s !! i = Some p ->
  pstate p = RUNNABLE -> KERNBASE <= kpgdir s -> 0 <= next_deadline s p -> can_insert (S n) s free ->
  exists lvl s' free', scheduler_back kend (pid p) i s = Ok (None, s') /\
    tab s' = <[i := with_max_level lvl (with_vd (next_deadline s p) p)]> (tab s) /\
    sched_inv pend s' (insert_entry (pid p, next_deadline s p) l) free' /\
    unheld m 0 None s' /\ kept s s' /\ can_insert n s' free'.
Proof.
  intros Hi Hni Hh Hp Hst Hk Hv Hcan. unfold scheduler_back. pose proof (lookup_lt_Some _ _ _ Hp) as Hlt.
  pose proof (i_tab _ _ _ _ Hi) as Htab.
  assert (H0 : pid p <> 0) by (apply (t_used _ _ Htab i p Hp); by rewrite Hst).
  rewrite (bind_Ok _ _ _ _ _ (switchkvm_ok _ Hk)). set (s1 := set_cr3 _ s).
  rewrite (bind_Ok _ _ _ _ _ (get_proc_ok s1 _ _ Hp)). unfold is_state. rewrite bool_decide_true by done.
  set (p' := with_vd (next_deadline s p) p). set (s2 := set_tab (<[i := p']> (tab s1)) s1).
  assert (H2 : (if ticks_left p =? 0 then
        let* vd := compute_virtual_deadline (nice_value p) in upd_proc i (with_vd vd)
      else ret tt) s1 = Ok (tt, s2)).
  { unfold s2, p', next_deadline. destruct (ticks_left p =? 0).
    - unfold compute_virtual_deadline. step. by rewrite (upd_proc_ok s1 i p).
    - unfold ret. rewrite (list_insert_id (tab s1) i); [by destruct s1|]. change (tab s1) with (tab s).
      rewrite Hp. by destruct p. }
  assert (Hp2 : tab s2 !! i = Some p') by (by apply list_lookup_insert_eq).
  assert (Hi2 : sched_inv (i :: pend) s2 l free).
  { assert (Hi1 : sched_inv (i :: pend) s1 l free) by (by destruct Hi; constructor).
    pose proof (sched_inv_make_runnable (i :: pend) s1 l free i p p' Hi1 Hp) as Hr.
    destruct Hr as [Ht2 Hq2 Hn2 Hm2 Hpe2]; try done.
    { right. left. }
    { apply (t_live _ _ Htab i p Hp). rewrite Hst. by left. }
    { apply (t_live _ _ Htab i p Hp). rewrite Hst. by left. }
    constructor; try done.
    - intros e. rewrite Hm2. unfold queued. set_solver.
    - intros j Hj. apply Hpe2. set_solver. }
  destruct (sched_inv_enqueue pend s2 l free i p' n Hi2 Hni Hp2 Hst Hcan)
    as (lvl & s3 & free' & H3 & Ht3 & Hi3 & Hs3 & Hl3 & Hk3 & Hc3).
  erewrite bind_Ok.
  2:{ rewrite (bind_Ok _ _ _ _ _ H2). exact H3. }
  assert (Hp3 : tab s3 !! i = Some (with_max_level lvl p'))
    by (rewrite Ht3; apply list_lookup_insert_eq; unfold s2; simpl; by rewrite length_insert).
  destruct (scheduler_back_end pend s3 _ free' m i (with_max_level lvl p') (pid p) Hi3) as (s4 & H4 & Hu4 & (Ht4 & Hk4 & Hs4 & Hinv4));
    [|exact Hp3|done|done|].
  { split; [rewrite Hl3; apply Hh|]. apply (cpu_is_sim _ _ _ _ _ Hs3). apply Hh. }
  exists lvl, s4, free'. split; [exact H4|]. split_and!; try done.
  - rewrite Ht4, Ht3. unfold s2. simpl. by rewrite list_insert_insert_eq.
  - by apply Hinv4.
  - transitivity s3; [|done]. transitivity s2; [done|done].
  - destruct Hc3. split; [by rewrite Hs4|done].
Qed.

End sched.
