(* ===== verification/ProcSleep.v ===== *)
(** * Sleeping, waking, killing

    [sleep], [wakeup], [kill] and the resumption of a process, over the
    invariant of the scheduler. *)

From S2P Require Import Prelude Spinlock Mmu Kalloc Console CString.
From S2P Require Import SkipList SkipListRep SkipListInsert SkipListInit SkipListDelete RunQueue.
From S2P Require Import Proc ProcBase ProcSched.

#[local] Remove Hints kalloc_page_alloc kalloc_page_alloc_laws : typeclass_instances.

Section sleep.

Context (kend : Z) {E : Type} `{!KEnv E}.

Implicit Types s : pst E.

Abbreviation inv := (sched_inv kend).

(** ** Other locks *)

Lemma lock_at_Ok {A} (c : M (hw * spinlock) A) s a l x h l' :
  locks s !! a = Some l -> c (phw s, l) = Ok (x, (h, l')) ->
  on_lock_at a c s = Ok (x, set_locks (<[a := l']> (locks s)) (set_phw h s)).
Proof. intros Hl Hc. unfold on_lock_at. by rewrite Hl, Hc. Qed.

Lemma inv_locks pend s l free lk : inv pend s l free -> inv pend (set_locks lk s) l free.
Proof. intros []. by constructor. Qed.

Lemma inv_hw pend s l free h m n o :
  inv pend s l free -> cpu_is h m n o -> n < 2 ^ 30 - 2 -> inv pend (set_phw h s) l free.
Proof. intros Hi Hc Hn. by apply (quiet_hw kend s h m n o Hc Hn). Qed.

(** ** sleep *)

(** The entry of a process that has gone to sleep. *)
Definition asleep (ch : wchan) (lk : lkptr) (v : Z) (p : proc) : proc :=
  with_ctx (Some (CtxSleep lk v)) (with_state SLEEPING (with_chan ch p)).

Lemma run_kacts_cons i k l (c : M (pst E) unit) s :
  (run_kacts i (k :: l) ;;; c) s = (run_kact i k ;;; run_kacts i l ;;; c) s.
Proof. cbn [run_kacts]. unfold bind. by destruct (run_kact i k s) as [[[] s']| | | |]. Qed.

(** Once [ptable.lock] is held. *)
Lemma sleep_body pend s l free m i p ch lk :
  inv pend s l free -> held m 1 (Some i) s -> tab s !! i = Some p -> pstate p = RUNNING ->
  exists v s', (run_kacts i [KChan ch; KState SLEEPING] ;;; sched_out (CtxSleep lk)) s
      = Ok (tt, s') /\
    tab s' = <[i := asleep ch lk v p]> (tab s) /\ inv pend s' l free /\ held m 1 (Some i) s' /\
    kept s s' /\ seed (rq s') = seed (rq s).
Proof.
  intros Hi Hh Hp Hst. pose proof (lookup_lt_Some _ _ _ Hp) as Hlt. pose proof (i_tab _ _ _ _ _ Hi) as Ht.
  rewrite run_kacts_cons. cbn [run_kact]. rewrite (bind_Ok _ _ _ _ _ (upd_proc_ok _ _ _ _ Hp)). set (s1 := set_tab _ s).
  assert (Hp1 : tab s1 !! i = Some (with_chan ch p)) by (by apply list_lookup_insert_eq).
  rewrite run_kacts_cons. cbn [run_kact run_kacts]. rewrite (bind_Ok _ _ _ _ _ (upd_proc_ok _ _ _ _ Hp1)), (bind_Ok (ret tt) _ _ tt _ eq_refl). set (s2 := set_tab _ s1).
  assert (Hp2 : tab s2 !! i = Some (with_state SLEEPING (with_chan ch p)))
    by (apply list_lookup_insert_eq; unfold s1; simpl; by rewrite length_insert).
  destruct (sched_out_ok kend s2 m i _ (CtxSleep lk) Hh Hp2) as (v & s3 & H3 & Hh3 & (Ht3 & Hk3 & Hs3 & Hinv3)); [done|].
  exists v. eexists. split; [exact H3|].
  assert (Hi2 : inv pend s2 l free).
  { replace s2 with (set_tab (<[i := with_state SLEEPING (with_chan ch p)]> (tab s)) s)
      by (unfold s2, s1, set_tab; simpl; by rewrite list_insert_insert_eq).
    apply (sched_inv_block kend pend s l free i p); try done.
    - by rewrite Hst.
    - exact (t_vd _ _ Ht i p Hp).
    - apply (t_used _ _ Ht i p Hp). by rewrite Hst.
    - intros _. apply (t_live _ _ Ht i p Hp). rewrite Hst. by right; left. }
  split_and!; try done.
  - simpl. unfold s1. simpl. by rewrite !list_insert_insert_eq.
  - rewrite <- Ht3 in Hp2 |- *.
    by apply (sched_inv_minor kend _ s3 l free i (with_state SLEEPING (with_chan ch p))); auto.
Qed.

(** [sleep] with [ptable.lock] as the lock, as [wait] calls it. *)
Lemma sleep_ptable_ok pend s l free m i p ch :
  inv pend s l free -> held m 1 (Some i) s -> tab s !! i = Some p -> pstate p = RUNNING ->
  exists v s', sleep_out ch LkPtable s = Ok (tt, s') /\
    tab s' = <[i := asleep ch LkPtable v p]> (tab s) /\ inv pend s' l free /\ held m 1 (Some i) s' /\
    kept s s' /\ seed (rq s') = seed (rq s).
Proof.
  intros Hi [Hl Hc] Hp Hst. unfold sleep_out.
  destruct (myproc_at s m 1 (Some i) Hc ltac:(lia)) as (h & H1 & Hs1).
  apply (cpu_is_sim _ _ _ _ _ Hs1) in Hc. rewrite (bind_Ok _ _ _ _ _ H1).
  cbn [sleep_enter app].
  assert (Hi1 : inv pend (set_phw h s) l free) by (apply (inv_hw _ _ _ _ _ m 1 (Some i)); [done|done|lia]).
  destruct (sleep_body pend (set_phw h s) l free m i p ch LkPtable Hi1) as (v & s' & Hr & Ht & Hi' & Hh & Hk & Hs);
    [by split|done|done|].
  by exists v, s'.
Qed.

(** [sleep] with another lock [a], held by the caller: it is released with the
    process already marked as sleeping. *)
Lemma sleep_lock_ok pend s l free m i p ch a :
  inv pend s l free -> unheld m 1 (Some i) s -> locks s !! a = Some (Spinlock 1 (Some m)) ->
  tab s !! i = Some p -> pstate p = RUNNING ->
  exists v s', sleep_out ch (LkAt a) s = Ok (tt, s') /\
    tab s' = <[i := asleep ch (LkAt a) v p]> (tab s) /\ inv pend s' l free /\ held m 1 (Some i) s' /\
    locks s' = <[a := Spinlock 0 None]> (locks s) /\ nextpid s' = nextpid s /\ skiplist s' = skiplist s /\
    ticks s' = ticks s /\ kpgdir s' = kpgdir s /\ seed (rq s') = seed (rq s).
Proof.
  intros Hi [Hl Hc] Hla Hp Hst. unfold sleep_out.
  destruct (myproc_at s m 1 (Some i) Hc ltac:(lia)) as (h & H1 & Hs1).
  apply (cpu_is_sim _ _ _ _ _ Hs1) in Hc. rewrite (bind_Ok _ _ _ _ _ H1).
  destruct (acquire_step kend (set_phw h s) m 1 (Some i)) as (s2 & H2 & [Hl2 Hc2] & Hq2); [by split|lia|].
  destruct Hq2 as (Ht2 & (K1 & K2 & K3 & K4 & K5 & K6 & K7 & K8) & Hs2 & Hi2).
  destruct (release_at _ _ _ _ Hc2 ltac:(lia)) as (h3 & H3 & Hc3).
  cbn [sleep_enter app]. rewrite !run_kacts_cons. cbn [run_kact on_lock]. rewrite (bind_Ok _ _ _ _ _ H2), run_kacts_cons. erewrite bind_Ok.
  2:{ cbn [run_kact on_lock]. apply (lock_at_Ok _ _ _ (Spinlock 1 (Some m))); [|exact H3]. rewrite K7. exact Hla. }
  change (1 + 1 - 1) with 1 in Hc3. set (s3 := set_locks _ _).
  assert (Hi3 : inv pend s3 l free).
  { apply inv_locks. apply (inv_hw _ _ _ _ _ m 1 (Some i)); [|done|lia]. apply Hi2.
    apply (inv_hw _ _ _ _ _ m 1 (Some i)); [done|done|lia]. }
  destruct (sleep_body pend s3 l free m i p ch (LkAt a) Hi3) as (v & s' & Hr & Ht & Hi' & Hh & Hk & Hs);
    [split; [exact Hl2|exact Hc3]|by simpl; rewrite Ht2|done|].
  destruct Hk as (J1 & J2 & J3 & J4 & J5 & J6 & J7 & J8).
  exists v, s'. split; [exact Hr|]. split_and!; try done; try (simpl in *; congruence).
Qed.

(** ** Coming back *)

Lemma resume_yield s m i p v :
  held m 1 (Some i) s -> tab s !! i = Some p -> ctx p = Some (CtxYield v) ->
  exists s', resume kend i s = Ok (None, s') /\ unheld m 0 (Some i) s' /\ quiet kend s s'.
Proof.
  intros Hh Hp Hx. unfold resume. rewrite (bind_Ok _ _ _ _ _ (get_proc_ok _ _ _ Hp)), Hx.
  destruct (sched_in_step kend s m 1 (Some i) v Hh ltac:(lia)) as (s1 & H1 & Hh1 & Hq1).
  rewrite (bind_Ok _ _ _ _ _ H1).
  destruct (release_step kend s1 m 1 (Some i) Hh1 ltac:(lia)) as (s2 & H2 & Hu2 & Hq2).
  rewrite (bind_Ok _ _ _ _ _ H2). exists s2. split_and!; try done. by etransitivity.
Qed.

(** ** wakeup *)

Definition asleep_on (ch : wchan) (p : proc) : bool := is_state SLEEPING p && bool_decide (chan p = ch).

(** The processes of a stretch of the table that sleep on [ch], in order. *)
Fixpoint sleepers (ch : wchan) (t : list proc) : list proc :=
  match t with
  | [] => []
  | p :: t' => if asleep_on ch p then p :: sleepers ch t' else sleepers ch t'
  end.

(** Queueing them one after the other. *)
Definition insert_all (ps : list proc) (l : list (Z * Z)) : list (Z * Z) :=
  fold_left (fun l p => insert_entry (pid p, virtual_deadline p) l) ps l.

(** The table after waking the sleepers on [ch] between [i] and [i + n]. *)
Definition woken (ch : wchan) (i n : nat) (t t' : list proc) : Prop :=
  forall j p, t !! j = Some p ->
    if bool_decide (i <= j < i + n)%nat && asleep_on ch p
    then exists lvl, t' !! j = Some (with_max_level lvl (with_state RUNNABLE p))
    else t' !! j = Some p.

Lemma wake_one pend s l free i p k :
  inv pend s l free -> tab s !! i = Some p -> pstate p = SLEEPING -> can_insert (S k) s free ->
  exists lvl s' free', (upd_proc i (with_state RUNNABLE) ;;; enqueue kend i) s = Ok (tt, s') /\
    tab s' = <[i := with_max_level lvl (with_state RUNNABLE p)]> (tab s) /\
    inv pend s' (insert_entry (pid p, virtual_deadline p) l) free' /\
    hw_sim (phw s) (phw s') /\ plock s' = plock s /\ kept s s' /\ can_insert k s' free'.
Proof.
  intros Hi Hp Hst Hcan. pose proof (lookup_lt_Some _ _ _ Hp) as Hlt. pose proof (i_tab _ _ _ _ _ Hi) as Ht.
  assert (Hni : i ∉ pend) by (apply (pend_runnable kend pend s l free i p Hi Hp); by rewrite Hst).
  rewrite (bind_Ok _ _ _ _ _ (upd_proc_ok _ _ _ _ Hp)). set (s1 := set_tab _ s).
  assert (Hl : kstack p <> 0 /\ KERNBASE <= pgdir p) by (apply (t_live _ _ Ht i p Hp); rewrite Hst; by right; right).
  assert (Hi1 : inv (i :: pend) s1 l free).
  { apply (sched_inv_make_runnable kend pend s l free i p); try done; try apply Hl.
    - left. by rewrite Hst.
    - exact (t_vd _ _ Ht i p Hp).
    - apply (t_used _ _ Ht i p Hp). by rewrite Hst. }
  destruct (sched_inv_enqueue kend pend s1 l free i (with_state RUNNABLE p) k Hi1 Hni) as
    (lvl & s' & free' & Hr & Ht' & Hi' & Hsim & Hpl & Hk & Hc); try done.
  { by apply list_lookup_insert_eq. }
  exists lvl, s', free'. split_and!; try done. rewrite Ht'. simpl. by rewrite list_insert_insert_eq.
Qed.

Lemma wakeup1_loop_ok pend ch n : forall i s l free k,
  inv pend s l free -> (i + n <= length (tab s))%nat ->
  can_insert (length (sleepers ch (take n (drop i (tab s)))) + k) s free ->
  exists s' free', wakeup1_loop kend n ch i s = Ok (tt, s') /\ woken ch i n (tab s) (tab s') /\
    inv pend s' (insert_all (sleepers ch (take n (drop i (tab s)))) l) free' /\
    hw_sim (phw s) (phw s') /\ plock s' = plock s /\ kept s s' /\ can_insert k s' free'.
Proof.
  induction n as [|n IH]; intros i s l free k Hi Hlen Hcan.
  - exists s, free. split_and!; try done. intros j p Hp. rewrite bool_decide_false by lia. done.
  - destruct (lookup_lt_is_Some_2 (tab s) i) as [p Hp]; [lia|]. cbn [wakeup1_loop].
    rewrite (bind_Ok _ _ _ _ _ (get_proc_ok _ _ _ Hp)).
    rewrite (drop_S (tab s) p i Hp) in Hcan |- *. cbn [take sleepers] in Hcan |- *.
    fold (asleep_on ch p). destruct (asleep_on ch p) eqn:Ea.
    + assert (Hst : pstate p = SLEEPING).
      { apply andb_prop in Ea as [Ea _]. by apply bool_decide_eq_true in Ea. }
      destruct (wake_one pend s l free i p _ Hi Hp Hst Hcan)
        as (lvl & s1 & free1 & H1 & Ht1 & Hi1 & Hs1 & Hl1 & Hk1 & Hc1).
      rewrite (bind_Ok _ _ _ _ _ H1).
      assert (Hd : drop (S i) (tab s1) = drop (S i) (tab s)) by (rewrite Ht1; apply drop_insert_lt; lia).
      rewrite <- Hd in Hc1. destruct (IH (S i) s1 _ free1 k Hi1) as
        (s2 & free2 & H2 & Hw2 & Hi2 & Hs2 & Hl2 & Hk2 & Hc2); [rewrite Ht1, length_insert; lia|done|].
      exists s2, free2. rewrite Hd in Hi2. split_and!; try done.
      * intros j q Hq. destruct (decide (j = i)) as [-> |Hne].
        -- rewrite Hp in Hq. simplify_eq. rewrite bool_decide_true, Ea by lia. simpl.
           exists lvl. specialize (Hw2 i (with_max_level lvl (with_state RUNNABLE q))).
           rewrite Ht1, list_lookup_insert_eq in Hw2 by lia. specialize (Hw2 eq_refl).
           by rewrite bool_decide_false in Hw2 by lia.
        -- specialize (Hw2 j q). rewrite Ht1, list_lookup_insert_ne in Hw2 by done. specialize (Hw2 Hq).
           destruct (asleep_on ch q); [|by rewrite andb_false_r in *].
           rewrite andb_true_r in *. case_bool_decide; case_bool_decide; try done; lia.
      * by etransitivity.
      * congruence.
      * by etransitivity.
    + rewrite (bind_Ok (ret tt) _ _ tt _ eq_refl).
      destruct (IH (S i) s l free k Hi) as (s2 & free2 & H2 & Hw2 & Hi2 & Hrest); [lia|done|].
      exists s2, free2. split_and!; try apply Hrest; try done.
      intros j q Hq. specialize (Hw2 j q Hq). destruct (decide (j = i)) as [-> |Hne].
      * rewrite Hp in Hq. simplify_eq. rewrite Ea in *. by rewrite andb_false_r in *.
      * destruct (asleep_on ch q); [|by rewrite andb_false_r in *].
        rewrite andb_true_r in *. case_bool_decide; case_bool_decide; try done; lia.
Qed.

Lemma wakeup1_ok pend ch s l free k :
  inv pend s l free -> can_insert (length (sleepers ch (tab s)) + k) s free ->
  exists s' free', wakeup1 kend ch s = Ok (tt, s') /\ woken ch 0 NPROC (tab s) (tab s') /\
    inv pend s' (insert_all (sleepers ch (tab s)) l) free' /\
    hw_sim (phw s) (phw s') /\ plock s' = plock s /\ kept s s' /\ can_insert k s' free'.
Proof.
  intros Hi Hcan. pose proof (t_len _ _ (i_tab _ _ _ _ _ Hi)) as Hlen.
  assert (Htk : take NPROC (drop 0 (tab s)) = tab s) by (rewrite drop_0; apply take_ge; lia).
  pose proof (wakeup1_loop_ok pend ch NPROC 0 s l free k Hi ltac:(lia)) as Hw. rewrite Htk in Hw. auto.
Qed.

Lemma wakeup_ok pend ch s l free k m n o :
  inv pend s l free -> can_insert (length (sleepers ch (tab s)) + k) s free ->
  unheld m n o s -> 0 <= n < 2 ^ 30 - 8 ->
  exists s' free', wakeup kend ch s = Ok (tt, s') /\ woken ch 0 NPROC (tab s) (tab s') /\
    inv pend s' (insert_all (sleepers ch (tab s)) l) free' /\
    unheld m n o s' /\ kept s s' /\ can_insert k s' free'.
Proof.
  intros Hi Hcan Hu Hn. unfold wakeup.
  destruct (acquire_step kend s m n o Hu ltac:(lia)) as (s1 & H1 & Hh1 & (Ht1 & Hk1 & Hs1 & Hi1)).
  rewrite (bind_Ok _ _ _ _ _ H1).
  destruct (wakeup1_ok pend ch s1 l free k) as (s2 & free2 & H2 & Hw2 & Hi2 & Hs2 & Hl2 & Hk2 & Hc2); [auto| |].
  { unfold can_insert in *. by rewrite Ht1, Hs1. }
  rewrite (bind_Ok _ _ _ _ _ H2).
  destruct (release_step kend s2 m (n + 1) o) as (s3 & H3 & Hu3 & (Ht3 & Hk3 & Hs3 & Hi3)); [|lia|].
  { split; [rewrite Hl2; apply Hh1|]. apply (cpu_is_sim _ _ _ _ _ Hs2), Hh1. }
  exists s3, free2. rewrite Ht1 in Hw2, Hi2. replace (n + 1 - 1) with n in Hu3 by lia.
  split_and!; try done.
  - by rewrite Ht3.
  - auto.
  - transitivity s1; [done|]. by transitivity s2.
  - unfold can_insert in *. by rewrite Hs3.
Qed.

(** ** kill *)

(** The release that ends a critical section, and the value returned. *)
Lemma release_ret {A} s m n o (x : A) :
  held m (n + 1) o s -> 0 <= n < 2 ^ 30 - 8 ->
  exists s', (on_plock release ;;; ret x) s = Ok (x, s') /\ unheld m n o s' /\ quiet kend s s'.
Proof.
  intros Hh Hn. destruct (release_step kend s m (n + 1) o Hh ltac:(lia)) as (s' & H & Hu & Hq).
  rewrite (bind_Ok _ _ _ _ _ H). replace (n + 1 - 1) with n in Hu by lia. by exists s'.
Qed.

Lemma held_sim s s' m n o : held m n o s -> hw_sim (phw s) (phw s') -> plock s' = plock s -> held m n o s'.
Proof. intros [Hl Hc] Hs Hp. split; [congruence|]. by apply (cpu_is_sim _ _ _ _ _ Hs). Qed.

Lemma kill_ok pend x s l free m n o :
  inv pend s l free -> can_insert 1 s free -> unheld m n o s -> 0 <= n < 2 ^ 30 - 8 ->
  exists s' free', unheld m n o s' /\ kept s s' /\
    match find_proc (fun p => pid p =? x) 0 (tab s) with
    | None => kill kend x s = Ok (-1, s') /\ tab s' = tab s /\ inv pend s' l free'
    | Some i => exists p, tab s !! i = Some p /\ pid p = x /\ kill kend x s = Ok (0, s') /\
        if is_state SLEEPING p
        then (exists lvl, tab s' = <[i := with_max_level lvl (with_state RUNNABLE (with_killed 1 p))]> (tab s)) /\
             inv pend s' (insert_entry (pid p, virtual_deadline p) l) free'
        else tab s' = <[i := with_killed 1 p]> (tab s) /\ inv pend s' l free'
    end.
Proof.
  intros Hi Hcan Hu Hn. unfold kill.
  destruct (acquire_step kend s m n o Hu ltac:(lia)) as (s1 & H1 & Hh1 & (Ht1 & Hk1 & Hs1 & Hi1)).
  rewrite (bind_Ok _ _ _ _ _ H1). step. rewrite Ht1.
  destruct (find_proc _ 0 (tab s)) as [i|] eqn:Ef.
  2:{ destruct (release_ret s1 m n o (-1) Hh1 Hn) as (s4 & H4 & Hu4 & (Ht4 & Hk4 & Hs4 & Hi4)).
      exists s4, free. split_and!; try done; [by transitivity s1|congruence|auto]. }
  apply find_proc_Some in Ef as (p & _ & Hp & Hpx & _). rewrite Nat.sub_0_r in Hp.
  apply Z.eqb_eq in Hpx. pose proof (lookup_lt_Some _ _ _ Hp) as Hlt. rewrite <- Ht1 in Hp, Hlt.
  rewrite (bind_Ok _ _ _ _ _ (upd_proc_ok _ _ _ _ Hp)). set (s2 := set_tab _ s1).
  assert (Hp2 : tab s2 !! i = Some (with_killed 1 p)) by (by apply list_lookup_insert_eq).
  rewrite (bind_Ok _ _ _ _ _ (get_proc_ok _ _ _ Hp2)).
  assert (Hi2 : inv pend s2 l free) by (apply (sched_inv_minor kend _ s1 _ _ i p); auto; done).
  assert (Hk2 : kept s s2) by (by transitivity s1).
  change (is_state SLEEPING (with_killed 1 p)) with (is_state SLEEPING p).
  destruct (is_state SLEEPING p) eqn:Est.
  - destruct (wake_one pend s2 l free i (with_killed 1 p) 0 Hi2 Hp2) as
      (lvl & s3 & free3 & H3 & Ht3 & Hi3 & Hs3 & Hl3 & Hk3 & Hc3).
    { by apply bool_decide_eq_true in Est. }
    { unfold can_insert in *. simpl. by rewrite Hs1. }
    rewrite (bind_Ok _ _ _ _ _ H3).
    destruct (release_ret s3 m n o 0 (held_sim s2 s3 _ _ _ Hh1 Hs3 Hl3) Hn) as (s4 & H4 & Hu4 & (Ht4 & Hk4 & Hs4 & Hi4)).
    exists s4, free3. split; [done|]. split; [transitivity s2; [done|by transitivity s3]|].
    exists p. rewrite Ht1 in Hp. rewrite Est. split_and!; try done; [|auto].
    exists lvl. rewrite Ht4, Ht3. unfold s2. simpl. by rewrite list_insert_insert_eq, Ht1.
  - rewrite (bind_Ok (ret tt) _ _ tt _ eq_refl).
    destruct (release_ret s2 m n o 0 Hh1 Hn) as (s4 & H4 & Hu4 & (Ht4 & Hk4 & Hs4 & Hi4)).
    exists s4, free. split; [done|]. split; [by transitivity s2|].
    exists p. rewrite Ht1 in Hp. rewrite Est. split_and!; try done; [|auto].
    rewrite Ht4. unfold s2. simpl. by rewrite Ht1.
Qed.

End sleep.
