(* ===== verification/ProcLife.v ===== *)
(** * Creating and ending processes

    [allocproc] and the table part of [exit], over the invariant of the
    scheduler. *)

From S2P Require Import Prelude Spinlock Mmu Kalloc Console CString.
From S2P Require Import SkipList SkipListRep SkipListInsert SkipListInit SkipListDelete RunQueue.
From S2P Require Import Proc ProcBase ProcSched ProcSleep.

#[local] Remove Hints kalloc_page_alloc kalloc_page_alloc_laws : typeclass_instances.

Section life.

Context (kend : Z) {E : Type} `{!KEnv E}.

Implicit Types s : pst E.

Abbreviation inv := (sched_inv kend).

(** ** Pages *)

(** Taking a page keeps the queue; so does finding none. *)
Lemma kalloc_step s l free pend :
  inv pend s l free ->
  exists k, on_mem kalloc s = Ok (default 0 (head free), set_kmem k s) /\
    inv pend (set_kmem k s) l (tail free) /\ hw_sim (phw s) (phw (set_kmem k s)).
Proof.
  intros [Ht Hq Hnd Hm Hpe]. destruct (queue_free kend _ _ _ _ Hq) as [Hk Hf].
  assert (exists k, kalloc (kmem (rq s)) = Ok (default 0 (head free), k) /\
    kmem_rep kend k (tail free) /\ hw_sim (khw (kmem (rq s))) (khw k)) as (k & Hr & Hk' & Hs).
  { destruct free as [|a free].
    - destruct (kalloc_none_ok _ _ Hk) as (k & ? & ? & ? & _). eauto.
    - destruct (kalloc_some_ok _ _ _ _ Hk) as (k & ? & ? & ? & _). eauto. }
  exists k. split; [unfold on_mem, zoom; by rewrite Hr|]. split; [|done]. constructor; try done.
  apply (queue_rep_kmem kend (rq s) k _ _ free); [done|done|]. intros a Ha. apply Hf.
  destruct free; [done|]. by right.
Qed.

(** ** allocproc *)

Lemma tab_ok_new t np i p p' :
  tab_ok t np -> t !! i = Some p -> 0 < np -> pid p' = np -> 0 <= virtual_deadline p' ->
  (live (pstate p') -> kstack p' <> 0 /\ KERNBASE <= pgdir p') ->
  tab_ok (<[i := p']> t) (np + 1).
Proof.
  intros [Hlen Hpid Hused Hinj Hvd Hlive] Hp Hnp Hpp Hv Hl.
  assert (Hcase : forall j q, <[i := p']> t !! j = Some q ->
    (j = i /\ q = p') \/ (j <> i /\ t !! j = Some q)).
  { intros j q Hq. apply list_lookup_insert_Some in Hq as [(-> & <- & _)|[Hne Hq]]; [by left|].
    right. split; [congruence|done]. }
  constructor.
  - by rewrite length_insert.
  - intros j q [[-> ->]|[_ Hq]]%Hcase; [lia|]. apply Hpid in Hq. lia.
  - intros j q [[-> ->]|[_ Hq]]%Hcase; [lia|]. eauto.
  - intros j k q r Hq Hr Hpq H0.
    apply Hcase in Hq as [[-> ->]|[Hj Hq]]; apply Hcase in Hr as [[-> ->]|[Hk Hr]]; try done.
    + apply Hpid in Hr. lia.
    + apply Hpid in Hq. lia.
    + exact (Hinj _ _ _ _ Hq Hr Hpq H0).
  - intros j q [[-> ->]|[_ Hq]]%Hcase; eauto.
  - intros j q [[-> ->]|[_ Hq]]%Hcase; eauto.
Qed.

(** A slot that is not runnable gets a new pid. *)
Lemma inv_new_pid pend s l free i p p' :
  inv pend s l free -> tab s !! i = Some p -> pstate p = UNUSED -> 0 < nextpid s ->
  pid p' = nextpid s -> pstate p' = EMBRYO -> virtual_deadline p' = virtual_deadline p ->
  inv pend (set_nextpid (nextpid s + 1) (set_tab (<[i := p']> (tab s)) s)) l free.
Proof.
  intros [Ht Hq Hnd Hm Hpe] Hp Hst Hnp Hpid Hst' Hvd. constructor; try done; simpl.
  - apply (tab_ok_new _ _ i p); try done.
    + rewrite Hvd. exact (t_vd _ _ Ht i p Hp).
    + rewrite Hst'. intros [?|[?|?]]; done.
  - intros e. rewrite Hm. split; intros (j & q & Hq' & Hr & Hj & ->); exists j, q; split_and!; try done.
    + rewrite list_lookup_insert_ne; [done|]. intros ->. rewrite Hp in Hq'. simplify_eq. congruence.
    + apply list_lookup_insert_Some in Hq' as [(-> & <- & _)|[_ Hq']]; [congruence|done].
  - intros j Hj. destruct (Hpe j Hj) as (q & Hq' & Hr). exists q. split; [|done].
    rewrite list_lookup_insert_ne; [done|]. intros ->. rewrite Hp in Hq'. simplify_eq. congruence.
Qed.

(** The slot after a successful [allocproc] and after one that found no page. *)
Definition embryo (n k : Z) (p : proc) : proc :=
  with_ctx (Some CtxForkret) (with_tf junk_tf (with_kstack k (with_pid n (with_state EMBRYO p)))).

Definition aborted (n : Z) (p : proc) : proc :=
  with_state UNUSED (with_kstack 0 (with_pid n (with_state EMBRYO p))).

Lemma allocproc_full pend s l free m n o :
  inv pend s l free -> unheld m n o s -> 0 <= n < 2 ^ 30 - 8 ->
  find_proc (is_state UNUSED) 0 (tab s) = None ->
  exists s', allocproc s = Ok (None, s') /\ unheld m n o s' /\ quiet kend s s'.
Proof.
  intros Hi Hu Hn Hf. unfold allocproc.
  destruct (acquire_step kend s m n o Hu ltac:(lia)) as (s1 & H1 & Hh1 & Hq1).
  rewrite (bind_Ok _ _ _ _ _ H1). step. rewrite (proj1 Hq1), Hf.
  destruct (release_ret kend s1 m n o (None : option nat) Hh1 Hn) as (s2 & H2 & Hu2 & Hq2).
  exists s2. split_and!; try done. by etransitivity.
Qed.

Lemma allocproc_ok pend s l free m n o i p :
  inv pend s l free -> unheld m n o s -> 0 <= n < 2 ^ 30 - 8 ->
  find_proc (is_state UNUSED) 0 (tab s) = Some i -> tab s !! i = Some p ->
  0 < nextpid s < 2 ^ 31 - 1 ->
  exists s', unheld m n o s' /\ nextpid s' = nextpid s + 1 /\ skiplist s' = skiplist s /\
    inv pend s' l (tail free) /\
    match free with
    | [] => allocproc s = Ok (None, s') /\ tab s' = <[i := aborted (nextpid s) p]> (tab s)
    | k :: _ => allocproc s = Ok (Some i, s') /\ tab s' = <[i := embryo (nextpid s) k p]> (tab s)
    end.
Proof.
  intros Hi Hu Hn Hf Hp Hnp. unfold allocproc. pose proof (lookup_lt_Some _ _ _ Hp) as Hlt.
  assert (Hst : pstate p = UNUSED).
  { apply find_proc_Some in Hf as (q & _ & Hq & Hs & _). rewrite Nat.sub_0_r, Hp in Hq. simplify_eq.
    by apply bool_decide_eq_true in Hs. }
  destruct (acquire_step kend s m n o Hu ltac:(lia)) as (s1 & H1 & Hh1 & (Ht1 & Hk1 & Hs1 & Hi1)).
  rewrite (bind_Ok _ _ _ _ _ H1). step. rewrite Ht1, Hf.
  assert (Hnp1 : nextpid s1 = nextpid s) by apply Hk1. assert (Hsl1 : skiplist s1 = skiplist s) by apply Hk1.
  rewrite <- Ht1 in Hp, Hlt.
  rewrite (bind_Ok _ _ _ _ _ (upd_proc_ok _ _ _ _ Hp)). step. simpl nextpid. rewrite Hnp1.
  erewrite bind_Ok by (apply upd_proc_ok; simpl; by apply list_lookup_insert_eq). step.
  rewrite i32_small by (unfold i32_range; lia).
  simpl tab. rewrite list_insert_insert_eq.
  set (p1 := with_pid (nextpid s) (with_state EMBRYO p)).
  set (s2 := set_nextpid (nextpid s + 1) _).
  assert (Hi2 : inv pend s2 l free).
  { replace s2 with (set_nextpid (nextpid s1 + 1) (set_tab (<[i := p1]> (tab s1)) s1))
      by (unfold s2; rewrite Hnp1; done).
    apply (inv_new_pid pend s1 l free i p); auto; rewrite Hnp1; done || lia. }
  destruct (release_step kend s2 m (n + 1) o Hh1 ltac:(lia)) as (s3 & H3 & Hu3 & (Ht3 & Hk3 & Hs3 & Hi3)).
  rewrite (bind_Ok _ _ _ _ _ H3). replace (n + 1 - 1) with n in Hu3 by lia.
  destruct (kalloc_step s3 l free pend (Hi3 _ _ _ Hi2)) as (k & H4 & Hi4 & Hs4).
  rewrite (bind_Ok _ _ _ _ _ H4). set (s4 := set_kmem k s3) in *.
  assert (Hp4 : tab s4 !! i = Some p1) by (simpl; rewrite Ht3; by apply list_lookup_insert_eq).
  assert (Hu4 : unheld m n o s4) by (split; [apply Hu3|by apply (cpu_is_sim _ _ _ _ _ Hs4), Hu3]).
  assert (Ht4 : forall p', <[i := p']> (tab s4) = <[i := p']> (tab s)).
  { intros p'. simpl. rewrite Ht3. simpl. by rewrite list_insert_insert_eq, Ht1. }
  assert (Hfin : forall p', pid p' = nextpid s -> virtual_deadline p' = virtual_deadline p ->
    pstate p' = EMBRYO \/ pstate p' = UNUSED ->
    inv pend (set_tab (<[i := p']> (tab s4)) s4) l (tail free)).
  { intros p' Hpp Hvv Hss. apply (sched_inv_block kend pend s4 l (tail free) i p1); try done.
    - by destruct Hss as [-> | ->].
    - rewrite Hvv. exact (t_vd _ _ (i_tab _ _ _ _ _ Hi2) i p1 ltac:(by apply list_lookup_insert_eq)).
    - simpl. lia.
    - by destruct Hss as [-> | ->]; intros [?|[?|?]]. }
  rewrite (bind_Ok _ _ _ _ _ (upd_proc_ok _ _ _ _ Hp4)). unfold s4 at 2. rewrite Ht4.
  assert (Hlt4 : (i < length (tab s))%nat) by (by rewrite <- Ht1).
  destruct free as [|a free]; cbn [head default from_option id].
  - change (0 =? 0) with true. cbn iota.
    erewrite bind_Ok by (apply upd_proc_ok; simpl; by apply list_lookup_insert_eq).
    match goal with |- context [ret _ ?st] => exists st end.
    split_and!; [exact Hu4| | | |reflexivity|].
    + exact (proj1 (proj2 (proj2 Hk3))).
    + transitivity (skiplist s1); [exact (proj1 Hk3)|done].
    + simpl. rewrite list_insert_insert_eq, <- Ht4. apply (Hfin (aborted (nextpid s) p)); try done. by right.
    + simpl. by rewrite list_insert_insert_eq.
  - assert (Ha : a <> 0).
    { destruct (queue_free kend _ _ _ _ (i_rep _ _ _ _ _ Hi2)) as [[_ _ Hpg _ _] _].
      apply Forall_cons in Hpg as [Hpg _]. apply page_ok_pos in Hpg. lia. }
    replace (a =? 0) with false by lia.
    erewrite bind_Ok by (apply upd_proc_ok; simpl; by apply list_lookup_insert_eq).
    erewrite bind_Ok by (apply upd_proc_ok; simpl; apply list_lookup_insert_eq; by rewrite length_insert).
    match goal with |- context [ret _ ?st] => exists st end.
    split_and!; [exact Hu4| | | |reflexivity|].
    + exact (proj1 (proj2 (proj2 Hk3))).
    + transitivity (skiplist s1); [exact (proj1 Hk3)|done].
    + simpl. rewrite !list_insert_insert_eq, <- Ht4. apply (Hfin (embryo (nextpid s) a p)); try done. by left.
    + simpl. by rewrite !list_insert_insert_eq.
Qed.

(** ** exit *)

Lemma sleepers_none ch t : Forall (fun p => asleep_on ch p = false) t -> sleepers ch t = [].
Proof. induction 1 as [|p t Hp _ IH]; simpl; [done|]. by rewrite Hp. Qed.

Lemma sleepers_app ch t1 t2 : sleepers ch (t1 ++ t2) = sleepers ch t1 ++ sleepers ch t2.
Proof. induction t1 as [|p t1 IH]; simpl; [done|]. destruct (asleep_on ch p); simpl; by rewrite IH. Qed.

Lemma sleepers_upd ch t i p p' :
  t !! i = Some p -> asleep_on ch p' = asleep_on ch p ->
  length (sleepers ch (<[i := p']> t)) = length (sleepers ch t).
Proof.
  intros Hp Ha. pose proof (lookup_lt_Some _ _ _ Hp) as Hlt.
  rewrite insert_take_drop by done. rewrite <- (take_drop_middle t i p Hp) at 3.
  rewrite !sleepers_app. simpl. rewrite Ha. destruct (asleep_on ch p); rewrite !length_app; done.
Qed.

Lemma woken_none ch t t' :
  woken ch 0 NPROC t t' -> length t = NPROC -> length t' = NPROC -> sleepers ch t' = [].
Proof.
  intros Hw Hl Hl'. apply sleepers_none, Forall_lookup. intros j p' Hp'.
  assert (Hj : (j < length t)%nat) by (apply lookup_lt_Some in Hp'; lia).
  destruct (lookup_lt_is_Some_2 _ _ Hj) as [p Hp]. specialize (Hw j p Hp).
  rewrite bool_decide_true in Hw by lia. simpl in Hw. destruct (asleep_on ch p) eqn:Ea.
  - destruct Hw as [lvl Hw]. rewrite Hw in Hp'. by simplify_eq.
  - rewrite Hw in Hp'. by simplify_eq.
Qed.

(** Entry [q] of the table with another level in the queue and runnable, if [w];
    the same otherwise. *)
Definition roused_if (w : Prop) (q q' : proc) : Prop :=
  (w /\ exists lvl, q' = with_max_level lvl (with_state RUNNABLE q)) \/ (~ w /\ q' = q).

#[export] Instance roused_if_proper : Proper (iff ==> eq ==> eq ==> iff) roused_if.
Proof. intros w w' Hw q _ <- r _ <-. unfold roused_if. by rewrite Hw. Qed.

(** Who is roused was asleep, and does not sleep any more; a zombie stays one. *)
Lemma roused_asleep ch w q q' : roused_if w q q' -> asleep_on ch q' = true -> q' = q.
Proof. intros [[_ [lvl ->]]|[_ ->]]; done. Qed.

Lemma roused_zombie w q q' : roused_if w q q' -> (w -> pstate q = SLEEPING) -> pstate q' = ZOMBIE <-> pstate q = ZOMBIE.
Proof. intros [[Hw [lvl ->]]|[_ ->]] Hs; [|done]. simpl. rewrite (Hs Hw). done. Qed.

Lemma asleep_state ch q : asleep_on ch q = true -> pstate q = SLEEPING.
Proof. unfold asleep_on, is_state. intros [H _]%andb_prop. by apply bool_decide_eq_true in H. Qed.

Lemma asleep_parent ch v q : asleep_on ch (with_parent v q) = asleep_on ch q.
Proof. done. Qed.

Lemma with_parent_same q : with_parent (parent q) q = q.
Proof. by destruct q. Qed.

(** The zombies among the children of [cur] in a stretch of the table. *)
Definition zombie_child (cur : nat) (t : list proc) (i n : nat) : Prop :=
  exists z q, (i <= z < i + n)%nat /\ t !! z = Some q /\ parent q = Some cur /\ pstate q = ZOMBIE.

(** The table after a stretch of the loop of [exit]. *)
Definition abandoned (cur : nat) (ip : option nat) (i n : nat) (t t' : list proc) : Prop :=
  length t' = length t /\ forall j q, t !! j = Some q -> exists r, roused_if (asleep_on (chan_of ip) q = true /\ zombie_child cur t i n) q r /\
    t' !! j = Some (with_parent (if bool_decide ((i <= j < i + n)%nat /\ parent q = Some cur) then ip else parent q) r).

(** One entry. *)
Lemma abandon_one pend cur i s l free k p :
  inv pend s l free -> tab s !! i = Some p -> parent p = Some cur ->
  can_insert (length (sleepers (chan_of (initproc s)) (tab s)) + k) s free ->
  exists s' l' free',
    (let* ip := gets initproc in
     upd_proc i (with_parent ip) ;;;
     (if is_state ZOMBIE p then wakeup1 kend (chan_of ip) else ret tt)) s = Ok (tt, s') /\
    abandoned cur (initproc s) i 1 (tab s) (tab s') /\
    inv pend s' l' free' /\ hw_sim (phw s) (phw s') /\ plock s' = plock s /\ kept s s' /\
    can_insert (length (sleepers (chan_of (initproc s)) (tab s')) + k) s' free'.
Proof.
  intros Hi Hp Hpar Hcan. pose proof (lookup_lt_Some _ _ _ Hp) as Hlt. step.
  rewrite (bind_Ok _ _ _ _ _ (upd_proc_ok _ _ _ _ Hp)). set (ch := chan_of (initproc s)) in *.
  set (s1 := set_tab _ s).
  assert (Hi1 : inv pend s1 l free) by (by apply (sched_inv_minor kend pend s l free i p)).
  assert (Hcan1 : can_insert (length (sleepers ch (tab s1)) + k) s1 free).
  { unfold can_insert in *. simpl tab. by rewrite (sleepers_upd ch (tab s) i p). }
  assert (Hpar1 : forall j q, tab s !! j = Some q ->
    tab s1 !! j = Some (with_parent (if bool_decide ((i <= j < i + 1)%nat /\ parent q = Some cur) then initproc s else parent q) q)).
  { intros j q Hq. destruct (decide (j = i)) as [-> |Hne].
    - rewrite Hp in Hq. injection Hq as <-. rewrite bool_decide_true by (split; [lia|done]). by apply list_lookup_insert_eq.
    - rewrite bool_decide_false by lia. rewrite with_parent_same. simpl. by rewrite list_lookup_insert_ne. }
  destruct (is_state ZOMBIE p) eqn:Ez.
  - assert (Hzc : zombie_child cur (tab s) i 1) by (exists i, p; apply bool_decide_eq_true in Ez; split_and!; try done; lia).
    destruct (wakeup1_ok kend pend ch s1 l free k Hi1 Hcan1) as (s2 & free2 & H2 & Hw & Hi2 & Hs2 & Hl2 & Hk2 & Hc2).
    exists s2, (insert_all (sleepers ch (tab s1)) l), free2. split; [exact H2|]. split_and!; try done.
    + split; [rewrite (t_len _ _ (i_tab _ _ _ _ _ Hi2)), (t_len _ _ (i_tab _ _ _ _ _ Hi)); done|]. intros j q Hq. specialize (Hpar1 j q Hq). specialize (Hw j _ Hpar1).
      rewrite bool_decide_true in Hw by (apply lookup_lt_Some in Hpar1; rewrite (t_len _ _ (i_tab _ _ _ _ _ Hi1)) in Hpar1; lia).
      cbn [andb] in Hw. rewrite asleep_parent in Hw. fold ch. destruct (asleep_on ch q) eqn:Ea.
      * destruct Hw as [lvl Hw]. exists (with_max_level lvl (with_state RUNNABLE q)). split; [left; split; [done|by exists lvl]|]. exact Hw.
      * exists q. split; [right; split; [by intros [? _]|done]|exact Hw].
    + rewrite (woken_none ch (tab s1) (tab s2)); [done|done|apply Hi1|apply Hi2].
  - exists s1, l, free. split; [done|]. split_and!; try done.
    split; [simpl; by rewrite length_insert|]. intros j q Hq. exists q. split; [|by apply Hpar1]. right. split; [|done]. intros [_ (z & zq & Hz & Hzq & _ & Hzz)]. assert (z = i) as -> by lia.
    rewrite Hp in Hzq. injection Hzq as <-. unfold is_state in Ez. by rewrite bool_decide_true in Ez.
Qed.

Lemma draws_ok_le m : forall n x, (m <= n)%nat -> draws_ok n x = true -> draws_ok m x = true.
Proof.
  induction m as [|m IH]; intros [|n] x Hle Hd; try done; [lia|]. cbn [draws_ok] in *.
  apply andb_prop in Hd as [Hd Hr]. rewrite Hd. simpl. apply (IH n); [lia|done].
Qed.

Lemma can_insert_le m n s free : can_insert n s free -> (m <= n)%nat -> can_insert m s free.
Proof. intros [Hd Hf] Hle. split; [by eapply draws_ok_le|lia]. Qed.

(** The zombie children behind [i] are the same after the turn for [i]. *)
Lemma zombie_child_later cur ip i n t t1 : abandoned cur ip i 1 t t1 -> zombie_child cur t1 (S i) n <-> zombie_child cur t (S i) n.
Proof.
  intros [Hl H1]. assert (Hsame : forall z q, (S i <= z)%nat -> t !! z = Some q -> exists r, t1 !! z = Some (with_parent (parent q) r) /\ (pstate r = ZOMBIE <-> pstate q = ZOMBIE)).
  { intros z q Hz Hq. destruct (H1 z q Hq) as (r & Hr & Hq1). rewrite bool_decide_false in Hq1 by lia. exists r. split; [done|].
    apply (roused_zombie _ _ _ Hr). intros [Ha _]. by eapply asleep_state. }
  split.
  - intros (z & q1 & Hz & Hq1 & Hp & Hs). destruct (lookup_lt_is_Some_2 t z) as [q Hq]; [rewrite <- Hl; by eapply lookup_lt_Some|].
    destruct (Hsame z q ltac:(lia) Hq) as (r & Hr & Hzz). rewrite Hq1 in Hr. injection Hr as ->. exists z, q. split_and!; try done; try lia. by apply Hzz.
  - intros (z & q & Hz & Hq & Hp & Hs). destruct (Hsame z q ltac:(lia) Hq) as (r & Hr & Hzz). exists z. eexists. split; [done|]. split; [exact Hr|]. split; [done|by apply Hzz].
Qed.

(** An entry that is no zombie before and after a change. *)
Lemma zombie_child_upd cur t i p p' n m : t !! i = Some p -> pstate p <> ZOMBIE -> pstate p' <> ZOMBIE ->
  zombie_child cur (<[i := p']> t) n m <-> zombie_child cur t n m.
Proof.
  intros Hp Hn Hn'. split; intros (z & q & Hz & Hq & H).
  - destruct (decide (z = i)) as [-> |Hne]; [rewrite list_lookup_insert_eq in Hq by (by eapply lookup_lt_Some); injection Hq as <-; by destruct H|].
    rewrite list_lookup_insert_ne in Hq by done. by exists z, q.
  - destruct (decide (z = i)) as [-> |Hne]; [rewrite Hp in Hq; injection Hq as <-; by destruct H|]. exists z, q. by rewrite list_lookup_insert_ne.
Qed.

Lemma zombie_child_split cur t i n : zombie_child cur t i (S n) <-> zombie_child cur t i 1 \/ zombie_child cur t (S i) n.
Proof.
  split.
  - intros (z & q & Hz & H). destruct (decide (z = i)) as [-> |Hne]; [left; exists i, q|right; exists z, q]; (split; [lia|done]).
  - intros [(z & q & Hz & H)|(z & q & Hz & H)]; exists z, q; (split; [lia|done]).
Qed.

(** One after the other. *)
Lemma roused_app ch w1 w2 q v v' r1 r2 :
  roused_if (asleep_on ch q = true /\ w1) q r1 -> roused_if (asleep_on ch (with_parent v r1) = true /\ w2) (with_parent v r1) r2 ->
  exists r, roused_if (asleep_on ch q = true /\ (w1 \/ w2)) q r /\ with_parent v' r2 = with_parent v' r.
Proof.
  intros [[[Ha Hw] [lvl ->]]|[Hn ->]] H2.
  - destruct H2 as [[[Hb _] _]|[_ ->]]; [done|]. eexists. split; [left; split; [auto|by exists lvl]|done].
  - rewrite asleep_parent in H2. destruct H2 as [[[Ha Hw] [lvl ->]]|[Hn2 ->]].
    + exists (with_max_level lvl (with_state RUNNABLE q)). split; [left; split; [auto|by exists lvl]|done].
    + exists q. split; [right; split; [tauto|done]|done].
Qed.

(** Two stretches of the loop one after the other. *)
Lemma abandoned_app cur ip i n t t1 t2 :
  abandoned cur ip i 1 t t1 -> abandoned cur ip (S i) n t1 t2 -> abandoned cur ip i (S n) t t2.
Proof.
  intros H1 H2. pose proof (zombie_child_later _ _ _ n _ _ H1) as Hz. destruct H1 as [L1 H1], H2 as [L2 H2]. split; [congruence|]. intros j q Hq.
  destruct (H1 j q Hq) as (r1 & R1 & Hq1). destruct (H2 j _ Hq1) as (r2 & R2 & Hq2).
  rewrite Hz in R2.
  set (v' := if bool_decide ((S i <= j < S i + n)%nat /\ _) then _ else _) in Hq2.
  destruct (roused_app _ _ _ q _ v' r1 r2 R1 R2) as (r & R & Er). exists r. split; [by rewrite (zombie_child_split cur t i n)|].
  rewrite Hq2, Er. do 2 f_equal. unfold v'. simpl. destruct (decide (j = i)) as [-> |Hne].
  - rewrite (bool_decide_false ((S i <= i < S i + n)%nat /\ _)) by lia. erewrite bool_decide_ext; [reflexivity|]. split; intros [_ ?]; (split; [lia|done]).
  - rewrite (bool_decide_false ((i <= j < i + 1)%nat /\ _)) by lia. erewrite bool_decide_ext; [reflexivity|]. split; intros [? ?]; (split; [lia|done]).
Qed.

Lemma abandoned_skip cur ip i t p :
  t !! i = Some p -> parent p <> Some cur -> abandoned cur ip i 1 t t.
Proof.
  intros Hp Hpar. split; [done|]. intros j q Hq. exists q. split.
  - right. split; [|done]. intros [_ (z & zq & Hz & Hzq & Hzp & _)]. assert (z = i) as -> by lia. rewrite Hp in Hzq. by simplify_eq.
  - rewrite Hq. case_bool_decide as Hb; [|by rewrite with_parent_same]. destruct Hb as [Hj Hpq]. assert (j = i) as -> by lia. rewrite Hp in Hq. by simplify_eq.
Qed.

Lemma abandon_loop_ok pend cur n : forall i s l free k,
  inv pend s l free -> (i + n <= length (tab s))%nat ->
  can_insert (length (sleepers (chan_of (initproc s)) (tab s)) + k) s free ->
  exists s' l' free', abandon_loop kend n cur i s = Ok (tt, s') /\
    abandoned cur (initproc s) i n (tab s) (tab s') /\ inv pend s' l' free' /\
    hw_sim (phw s) (phw s') /\ plock s' = plock s /\ kept s s' /\ can_insert k s' free'.
Proof.
  induction n as [|n IH]; intros i s l free k Hi Hlen Hcan.
  - exists s, l, free. split_and!; try done.
    + split; [done|]. intros j q Hq. exists q. rewrite bool_decide_false by lia. rewrite with_parent_same. split; [|done].
      right. split; [|done]. intros [_ (z & zq & Hz & _)]. lia.
    + apply (can_insert_le _ _ _ _ Hcan). lia.
  - destruct (lookup_lt_is_Some_2 (tab s) i) as [p Hp]; [lia|]. cbn [abandon_loop].
    rewrite (bind_Ok _ _ _ _ _ (get_proc_ok _ _ _ Hp)).
    assert (exists s1 l1 free1,
      (if bool_decide (parent p = Some cur) then
         let* ip := gets initproc in
         upd_proc i (with_parent ip) ;;;
         (if is_state ZOMBIE p then wakeup1 kend (chan_of ip) else ret tt)
       else ret tt) s = Ok (tt, s1) /\
      abandoned cur (initproc s) i 1 (tab s) (tab s1) /\
      inv pend s1 l1 free1 /\ hw_sim (phw s) (phw s1) /\ plock s1 = plock s /\ kept s s1 /\
      can_insert (length (sleepers (chan_of (initproc s)) (tab s1)) + k) s1 free1)
      as (s1 & l1 & free1 & H1 & Ha1 & Hi1 & Hs1 & Hl1 & Hk1 & Hc1).
    { case_bool_decide as Hpar; [by eapply abandon_one|].
      exists s, l, free. split_and!; try done. by eapply abandoned_skip. }
    rewrite (bind_Ok _ _ _ _ _ H1). assert (Hip : initproc s1 = initproc s) by apply Hk1.
    destruct (IH (S i) s1 l1 free1 k Hi1) as (s2 & l2 & free2 & H2 & Ha2 & Hi2 & Hs2 & Hl2 & Hk2 & Hc2).
    { rewrite (t_len _ _ (i_tab _ _ _ _ _ Hi1)), <- (t_len _ _ (i_tab _ _ _ _ _ Hi)). lia. }
    { by rewrite Hip. }
    exists s2, l2, free2. rewrite Hip in Ha2. split_and!; try done.
    + by eapply abandoned_app.
    + by etransitivity.
    + congruence.
    + by etransitivity.
Qed.

Lemma sleepers_le ch t : forall t',
  Forall2 (fun q q' => asleep_on ch q' = true -> asleep_on ch q = true) t t' ->
  (length (sleepers ch t') <= length (sleepers ch t))%nat.
Proof.
  induction t as [|q t IH]; intros t' Hf; inversion Hf as [|? q' ? t1 Hq Hr]; subst; [done|]. simpl.
  specialize (IH _ Hr). destruct (asleep_on ch q'), (asleep_on ch q); simpl; try lia.
Qed.

(** Waking the sleepers of one channel, entry by entry. *)
Lemma woken_entry ch t t' j q :
  woken ch 0 NPROC t t' -> length t = NPROC -> t !! j = Some q ->
  exists q', t' !! j = Some q' /\ roused_if (asleep_on ch q = true) q q'.
Proof.
  intros Hw Hl Hq. pose proof (lookup_lt_Some _ _ _ Hq) as Hj. specialize (Hw j q Hq).
  rewrite bool_decide_true in Hw by lia. cbn [andb] in Hw. destruct (asleep_on ch q) eqn:Ea.
  - destruct Hw as [lvl Hw]. eexists. split; [exact Hw|]. left. by eauto.
  - exists q. split; [done|]. by right.
Qed.

Lemma woken_sleepers ch ch' t t' :
  woken ch 0 NPROC t t' -> length t = NPROC -> length t' = NPROC ->
  (length (sleepers ch' t') <= length (sleepers ch' t))%nat.
Proof.
  intros Hw Hl Hl'. apply sleepers_le, Forall2_same_length_lookup_2; [lia|]. intros j q q' Hq Hq' Ha.
  destruct (woken_entry _ _ _ _ _ Hw Hl Hq) as (r & Hr & Hc). rewrite Hq' in Hr. injection Hr as <-.
  by rewrite <- (roused_asleep _ _ _ _ Hc Ha).
Qed.

Lemma woken_zombie_child ch cur t t' : woken ch 0 NPROC t t' -> length t = NPROC -> length t' = NPROC ->
  zombie_child cur t' 0 NPROC <-> zombie_child cur t 0 NPROC.
Proof.
  intros Hw Hl Hl'. assert (Hsame : forall z q, t !! z = Some q -> exists q', t' !! z = Some q' /\ parent q' = parent q /\ (pstate q' = ZOMBIE <-> pstate q = ZOMBIE)).
  { intros z q Hq. destruct (woken_entry _ _ _ _ _ Hw Hl Hq) as (q' & Hq' & Hr). exists q'. split; [done|]. split; [by destruct Hr as [[_ [lvl ->]]|[_ ->]]|].
    apply (roused_zombie _ _ _ Hr). apply asleep_state. }
  split.
  - intros (z & q' & Hz & Hq' & Hp & Hs). destruct (lookup_lt_is_Some_2 t z) as [q Hq]; [lia|]. destruct (Hsame z q Hq) as (r & Hr & Hpr & Hzz).
    rewrite Hq' in Hr. injection Hr as <-. exists z, q. split_and!; try done; try lia; [congruence|by apply Hzz].
  - intros (z & q & Hz & Hq & Hp & Hs). destruct (Hsame z q Hq) as (r & Hr & Hpr & Hzz). exists z, r. split_and!; try done; try lia; [congruence|by apply Hzz].
Qed.

(** Entry [q] of the table after [exit] of [i], a process whose parent is [up]:
    a child of [i] is a child of [ip]; a process that slept on its parent's
    channel, or on that of [ip] while [i] had a zombie child, is runnable, with
    the level that its insertion into the queue drew; nothing else has changed. *)
Definition survived (i : nat) (up ip : option nat) (t : list proc) (q q' : proc) : Prop :=
  exists r, roused_if (asleep_on (chan_of up) q = true \/ (asleep_on (chan_of ip) q = true /\ zombie_child i t 0 NPROC)) q r /\
    q' = with_parent (if bool_decide (parent q = Some i) then ip else parent q) r.

Lemma survived_intro i up ip t t1 t2 j q :
  woken (chan_of up) 0 NPROC t t1 -> abandoned i ip 0 NPROC t1 t2 -> length t = NPROC -> length t1 = NPROC ->
  t !! j = Some q -> exists q', t2 !! j = Some q' /\ survived i up ip t q q'.
Proof.
  intros Hw [_ Ha] Hl Hl1 Hq. destruct (woken_entry _ _ _ _ _ Hw Hl Hq) as (q1 & Hq1 & R1). pose proof (lookup_lt_Some _ _ _ Hq) as Hj.
  destruct (Ha j q1 Hq1) as (r2 & R2 & Hq2). eexists. split; [exact Hq2|].
  assert (Hpar : (if bool_decide ((0 <= j < 0 + NPROC)%nat /\ parent q1 = Some i) then ip else parent q1) = (if bool_decide (parent q = Some i) then ip else parent q)).
  { assert (parent q1 = parent q) as -> by (by destruct R1 as [[_ [lvl ->]]|[_ ->]]). erewrite bool_decide_ext; [reflexivity|]. split; [by intros [_ ?]|split; [lia|done]]. }
  rewrite Hpar. rewrite (woken_zombie_child _ i _ _ Hw Hl Hl1) in R2. exists r2. split; [|done].
  destruct R1 as [[Ha1 [lvl ->]]|[Hn1 ->]].
  - destruct R2 as [[[Hb _] _]|[_ ->]]; [done|]. left. split; [by left|by exists lvl].
  - assert (Hiff : asleep_on (chan_of up) q = true \/ asleep_on (chan_of ip) q = true /\ zombie_child i t 0 NPROC <-> asleep_on (chan_of ip) q = true /\ zombie_child i t 0 NPROC) by tauto.
    by rewrite Hiff.
Qed.

(** A process that does not sleep keeps its entry, but for its parent. *)
Lemma survived_awake i up ip t q q' : survived i up ip t q q' -> pstate q <> SLEEPING ->
  q' = with_parent (if bool_decide (parent q = Some i) then ip else parent q) q.
Proof.
  intros (r & [[Hw _]|[_ ->]] & ->) Hs; [|done]. destruct Hs. destruct Hw as [Ha|[Ha _]]; by eapply asleep_state.
Qed.

Lemma exit_out_ok pend s l free m i p k :
  inv pend s l free -> unheld m 0 (Some i) s -> tab s !! i = Some p -> pstate p = RUNNING ->
  can_insert (length (sleepers (chan_of (parent p)) (tab s)) +
              (length (sleepers (chan_of (initproc s)) (tab s)) + k)) s free ->
  exists s' l' free', exit_out kend i s = Ok (tt, s') /\
    (exists v, tab s' !! i = Some (with_ctx (Some (CtxExit v)) (with_state ZOMBIE
       (with_parent (if bool_decide (parent p = Some i) then initproc s else parent p) p)))) /\
    (forall j q, j <> i -> tab s !! j = Some q ->
       exists q', tab s' !! j = Some q' /\ survived i (parent p) (initproc s) (tab s) q q') /\
    inv pend s' l' free' /\ held m 1 (Some i) s' /\ kept s s' /\ can_insert k s' free'.
Proof.
  intros Hi Hu Hp Hst Hcan. unfold exit_out.
  destruct (acquire_step kend s m 0 (Some i) Hu ltac:(lia)) as (s1 & H1 & Hh1 & (Ht1 & Hk1 & Hs1 & Hi1)).
  rewrite (bind_Ok _ _ _ _ _ H1). rewrite <- Ht1 in Hp. rewrite (bind_Ok _ _ _ _ _ (get_proc_ok _ _ _ Hp)).
  apply Hi1 in Hi. assert (Hip1 : initproc s1 = initproc s) by apply Hk1.
  assert (Hcan1 : can_insert (length (sleepers (chan_of (parent p)) (tab s1)) +
              (length (sleepers (chan_of (initproc s)) (tab s1)) + k)) s1 free).
  { unfold can_insert in *. by rewrite Hs1, Ht1. }
  destruct (wakeup1_ok kend pend _ s1 l free _ Hi Hcan1) as (s2 & free2 & H2 & Hw2 & Hi2 & Hs2 & Hl2 & Hk2 & Hc2).
  rewrite (bind_Ok _ _ _ _ _ H2). assert (Hip2 : initproc s2 = initproc s) by (rewrite <- Hip1; apply Hk2).
  pose proof (t_len _ _ (i_tab _ _ _ _ _ Hi)) as L1. pose proof (t_len _ _ (i_tab _ _ _ _ _ Hi2)) as L2.
  destruct (abandon_loop_ok pend i NPROC 0 s2 _ free2 k Hi2) as (s3 & l3 & free3 & H3 & Ha3 & Hi3 & Hs3 & Hl3 & Hk3 & Hc3).
  { lia. }
  { rewrite Hip2. eapply can_insert_le; [exact Hc2|].
    pose proof (woken_sleepers _ (chan_of (initproc s)) _ _ Hw2 L1 L2). lia. }
  rewrite (bind_Ok _ _ _ _ _ H3). rewrite Hip2 in Ha3.
  destruct (survived_intro i (parent p) (initproc s) _ _ _ i p Hw2 Ha3 L1 L2 Hp) as (p3 & Hp3 & Hsv3).
  apply survived_awake in Hsv3; [|by rewrite Hst]. assert (Hnr : pstate p3 = RUNNING) by (by rewrite Hsv3).
  pose proof (lookup_lt_Some _ _ _ Hp3) as Hlt3. pose proof (i_tab _ _ _ _ _ Hi3) as Htab3.
  rewrite (bind_Ok _ _ _ _ _ (upd_proc_ok _ _ _ _ Hp3)). set (s4 := set_tab _ s3).
  assert (Hi4 : inv pend s4 l3 free3).
  { apply (sched_inv_block kend pend s3 l3 free3 i p3); try done; [by rewrite Hnr|exact (t_vd _ _ Htab3 i p3 Hp3)| |].
    - apply (t_used _ _ Htab3 i p3 Hp3). by rewrite Hnr.
    - by intros [?|[?|?]]. }
  assert (Hp4 : tab s4 !! i = Some (with_state ZOMBIE p3)) by (by apply list_lookup_insert_eq).
  assert (Hh4 : held m 1 (Some i) s4) by exact (held_sim s2 s3 _ _ _ (held_sim s1 s2 _ _ _ Hh1 Hs2 Hl2) Hs3 Hl3).
  destruct (sched_out_ok kend s4 m i _ CtxExit Hh4 Hp4) as (v & s5 & H5 & Hh5 & (Ht5 & Hk5 & Hs5 & Hi5)); [done|].
  eexists _, l3, free3. split; [exact H5|]. split; [|split; [|split; [|split; [|split]]]].
  - exists v. rewrite <- Hsv3. simpl. apply list_lookup_insert_eq. simpl. by rewrite length_insert.
  - intros j q Hne Hq. rewrite <- Ht1 in Hq |- *.
    destruct (survived_intro i (parent p) (initproc s) _ _ _ j q Hw2 Ha3 L1 L2 Hq) as (q3 & Hq3 & Hsv).
    exists q3. split; [|done]. unfold s4. simpl. by rewrite !list_lookup_insert_ne.
  - rewrite <- Ht5. apply (sched_inv_minor kend _ s5 l3 free3 i (with_state ZOMBIE p3)); [auto|by rewrite Ht5|done].
  - exact Hh5.
  - transitivity s1; [done|]. transitivity s2; [done|]. transitivity s3; [done|]. exact Hk5.
  - unfold can_insert in *. simpl. rewrite Hs5. exact Hc3.
Qed.
(** The calls of [exit] on files and inodes: each open file is closed, then the
    current directory is put inside a transaction. *)
Fixpoint close_all (fs : list Z) : M (kst * E) unit :=
  match fs with [] => ret tt | f :: fs => (if f =? 0 then ret tt else fileclose f) ;;; close_all fs end.

Definition close_calls (fs : list Z) (c : Z) : M (kst * E) unit :=
  close_all fs ;;; begin_op ;;; iput c ;;; end_op.

(** The process without files and directory. *)
Definition emptied (p : proc) : proc := with_cwd 0 (with_ofile (replicate (length (ofile p)) 0) p).

Definition put_ke (ke : kst * E) (s : pst E) : pst E := set_env (snd ke) (set_kmem (fst ke) s).

Lemma on_env_at {A} (c : M (kst * E) A) s a ke : c (kmem (rq s), env s) = Ok (a, ke) -> on_env c s = Ok (a, put_ke ke s).
Proof. intros H. unfold on_env, zoom. by rewrite H. Qed.

Lemma insert_take_S {A} (l : list A) n x : (n < length l)%nat -> take (S n) (<[n := x]> l) = take n l ++ [x].
Proof. intros H. rewrite (take_S_r _ _ x) by (by apply list_lookup_insert_eq). by rewrite take_insert_ge. Qed.

Lemma close_files_ok i fs : forall fd s p ke,
  tab s !! i = Some p -> drop fd (ofile p) = fs -> close_all fs (kmem (rq s), env s) = Ok (tt, ke) ->
  close_files fs fd i s = Ok (tt, set_tab (<[i := with_ofile (take fd (ofile p) ++ replicate (length fs) 0) p]> (tab s)) (put_ke ke s)).
Proof.
  induction fs as [|f fs IH]; intros fd s p ke Hp Hd Hc; cbn [close_files close_all] in *.
  - injection Hc as <-. assert (Hle : (length (ofile p) <= fd)%nat) by (apply (f_equal length) in Hd; rewrite length_drop in Hd; simpl in Hd; lia).
    rewrite take_ge, app_nil_r by done. assert (with_ofile (ofile p) p = p) as -> by (by destruct p). rewrite list_insert_id by done. by destruct s as [[]].
  - assert (Hlt : (fd < length (ofile p))%nat) by (apply (f_equal length) in Hd; rewrite length_drop in Hd; simpl in Hd; lia).
    assert (Hf : ofile p !! fd = Some f) by (rewrite <- (Nat.add_0_r fd), <- lookup_drop, Hd; done).
    assert (Hd' : drop (S fd) (ofile p) = fs) by (rewrite (drop_S (ofile p) f fd Hf) in Hd; by injection Hd).
    apply bind_inv in Hc as ([] & ke1 & H1 & H2). destruct (Z.eqb_spec f 0) as [-> |Hne].
    + injection H1 as <-. rewrite (bind_Ok (ret tt) _ s tt s eq_refl), (IH (S fd) s p ke Hp Hd' H2).
      rewrite (take_S_r _ _ 0) by done. by rewrite <- app_assoc.
    + unfold bind at 1. rewrite (bind_Ok _ _ _ _ _ (on_env_at _ s tt ke1 H1)). set (s1 := put_ke ke1 s). assert (Hp1 : tab s1 !! i = Some p) by done.
      rewrite (upd_proc_ok s1 i p _ Hp1). cbn [rbind]. set (p1 := with_ofile (<[fd := 0]> (ofile p)) p). set (s2 := set_tab _ s1).
      assert (Hp2 : tab s2 !! i = Some p1) by (apply list_lookup_insert_eq; by eapply lookup_lt_Some).
      rewrite (IH (S fd) s2 p1 ke Hp2); [|simpl; by rewrite drop_insert_lt by lia|destruct ke1; exact H2].
      simpl. rewrite list_insert_insert_eq, insert_take_S by done. by rewrite <- app_assoc.
Qed.

(** [exit] up to the table lock. *)
Lemma exit_closes_ok s m i p s0 :
  cpu_is (phw s) m 0 (Some i) -> tab s !! i = Some p ->
  if decide (initproc s = Some i) then exit_files s = Panic "init exiting"
  else (curproc ;;; on_env (close_calls (ofile p) (cwd p))) s = Ok (tt, s0) ->
    exit_files s = Ok (i, set_tab (<[i := emptied p]> (tab s)) s0) /\ tab s0 = tab s /\ initproc s0 = initproc s /\ kpgdir s0 = kpgdir s.
Proof.
  intros Hc Hp. destruct (curproc_step kend s m 0 i Hc ltac:(lia)) as (s1 & H1 & _ & _ & (Ht & (_ & Hip & _ & _ & _ & Hkp & _) & _)).
  unfold exit_files. rewrite (bind_Ok _ _ _ _ _ H1). rewrite (bind_Ok (gets initproc) _ s1 (initproc s) s1) by (unfold gets; by rewrite Hip).
  destruct (decide (initproc s = Some i)) as [Hi|Hi]; [by rewrite bool_decide_true by done|]. rewrite bool_decide_false by done. intros H.
  rewrite (bind_Ok _ _ _ _ _ H1) in H. unfold on_env, zoom in H. destruct (close_calls _ _ _) as [[[] ke]| | | |] eqn:Ec; try done. injection H as <-.
  unfold close_calls in Ec. apply bind_inv in Ec as ([] & ke1 & E1 & Ec). apply bind_inv in Ec as ([] & ke2 & E2 & Ec). apply bind_inv in Ec as ([] & ke3 & E3 & E4).
  rewrite <- Ht in Hp. rewrite (bind_Ok _ _ _ _ _ (get_proc_ok _ _ _ Hp)), (bind_Ok _ _ _ _ _ (close_files_ok i (ofile p) 0 s1 p ke1 Hp eq_refl E1)).
  set (p1 := with_ofile _ p). set (s2 := set_tab _ _). assert (Hp2 : tab s2 !! i = Some p1) by (apply list_lookup_insert_eq; by eapply lookup_lt_Some).
  assert (E2' : begin_op (kmem (rq s2), env s2) = Ok (tt, ke2)) by (by destruct ke1). rewrite (bind_Ok _ _ _ _ _ (on_env_at _ s2 tt ke2 E2')).
  assert (Hp3 : tab (put_ke ke2 s2) !! i = Some p1) by done. rewrite (bind_Ok _ _ _ _ _ (get_proc_ok _ _ _ Hp3)).
  assert (E3' : iput (cwd p1) (kmem (rq (put_ke ke2 s2)), env (put_ke ke2 s2)) = Ok (tt, ke3)) by (by destruct ke2).
  rewrite (bind_Ok _ _ _ _ _ (on_env_at _ _ tt ke3 E3')). set (s3 := put_ke ke3 _).
  assert (E4' : end_op (kmem (rq s3), env s3) = Ok (tt, ke)) by (by destruct ke3). rewrite (bind_Ok _ _ _ _ _ (on_env_at _ _ tt ke E4')).
  assert (Hp4 : tab (put_ke ke s3) !! i = Some p1) by done. rewrite (bind_Ok _ _ _ _ _ (upd_proc_ok _ i p1 _ Hp4)). unfold ret. rewrite <- Ht. split; [|done].
  do 2 f_equal. simpl. by rewrite list_insert_insert_eq.
Qed.

End life.
