(* ===== verification/ProcProps.v ===== *)
(** * Properties of the process code

    What the scheduler and the calls on it guarantee, over any implementation
    of the memory and file routines they call, and a concrete machine the
    properties apply to. *)

From S2P Require Import Prelude Spinlock Mmu Kalloc Console CString.
From S2P Require Import SkipList SkipListRep SkipListInsert SkipListInit SkipListDelete RunQueue.
From S2P Require Import Proc ProcBase ProcSched ProcSleep ProcLife.

#[local] Remove Hints kalloc_page_alloc kalloc_page_alloc_laws : typeclass_instances.

Section properties.

Context (kend : Z) {E : Type} `{!KEnv E}.

Implicit Types s : pst E.

Abbreviation inv := (sched_inv kend).

(** ** The queue and the runnable processes *)

Lemma inv_sorted pend s l free : inv pend s l free -> StronglySorted key_le l.
Proof. intros Hi. exact (queue_sorted _ _ _ _ (i_rep _ _ _ _ _ Hi)). Qed.

(** The first entry is the runnable process with the earliest deadline. *)
Lemma inv_earliest s e l free j q :
  inv [] s (e :: l) free -> tab s !! j = Some q -> pstate q = RUNNABLE -> snd e <= virtual_deadline q.
Proof.
  intros Hi Hq Hr. pose proof (inv_sorted _ _ _ _ Hi) as Hs. apply StronglySorted_inv in Hs as [_ Hs].
  assert (Hin : (pid q, virtual_deadline q) ∈ e :: l).
  { apply (i_match _ _ _ _ _ Hi). exists j, q. split_and!; try done. apply not_elem_of_nil. }
  apply elem_of_cons in Hin as [<- |Hin]; [done|].
  rewrite Forall_forall in Hs. apply (Hs _ Hin).
Qed.

Lemma inv_none_runnable s free j q :
  inv [] s [] free -> tab s !! j = Some q -> pstate q <> RUNNABLE.
Proof.
  intros Hi Hq Hr. apply (not_elem_of_nil (pid q, virtual_deadline q)).
  apply (i_match _ _ _ _ _ Hi). exists j, q. split_and!; try done. apply not_elem_of_nil.
Qed.

Lemma insert_entry_first e l : Forall (fun x => snd e < snd x) l -> insert_entry e l = e :: l.
Proof. intros [|x l' Hx _]; simpl; [done|]. by replace (snd x <=? snd e) with false by lia. Qed.

(** ** The scheduler *)

(** C10: an iteration of the scheduler finds nothing to run exactly when no
    process is runnable, and otherwise switches to a runnable process with the
    earliest deadline of all: it runs with a fresh quantum and its own page
    table, is off the run queue, and the table lock is held. *)
Theorem scheduler_runs_earliest_deadline s l free m :
  inv [] s l free -> unheld m 0 None s ->
  (exists s', scheduler_top kend s = Ok ((-69, None), s') /\ tab s' = tab s /\
     inv [] s' l free /\ unheld m 0 None s' /\
     forall j q, tab s !! j = Some q -> pstate q <> RUNNABLE) \/
  (exists i p s' l' free', tab s !! i = Some p /\ pstate p = RUNNABLE /\
     (forall j q, tab s !! j = Some q -> pstate q = RUNNABLE -> virtual_deadline p <= virtual_deadline q) /\
     scheduler_top kend s = Ok ((pid p, Some i), s') /\
     tab s' = <[i := chosen p]> (tab s) /\ l = (pid p, virtual_deadline p) :: l' /\
     inv [] s' l' free' /\ held m 1 (Some i) s' /\ cr3 s' = u32 (pgdir p - KERNBASE)).
Proof.
  intros Hi [Hl Hc]. destruct l as [|[p0 v0] l].
  - left. destruct (scheduler_top_idle kend [] s free m Hi Hl Hc) as (h & Hr & Hc').
    eexists. split; [exact Hr|]. split_and!; try done.
    + by apply (sched_inv_lock kend [] s [] free m 0 None).
    + intros j q Hq. by apply (inv_none_runnable s free j q).
  - right. destruct (scheduler_top_pick kend [] s p0 v0 l free m Hi Hl Hc)
      as (i & p & s' & free' & Hp & Hst & <- & <- & _ & Hr & Ht & Hi' & _ & Hc' & Hl' & _ & _ & Hcr).
    exists i, p, s', l, free'. split_and!; try done.
    intros j q Hq Hrq. exact (inv_earliest s _ l free j q Hi Hq Hrq).
Qed.

(** [yield] and the scheduler behind it, up to its next iteration. *)
Definition yield_cycle (i : nat) (p : proc) : M (pst E) unit :=
  yield_out ;;;
  let* _ := scheduler_back kend (pid p) i in
  ret tt.

Lemma yield_cycle_ok s l free m i p n :
  inv [] s l free -> unheld m 0 (Some i) s -> tab s !! i = Some p -> pstate p = RUNNING ->
  KERNBASE <= kpgdir s -> 0 <= next_deadline s p -> can_insert (S n) s free ->
  exists v lvl s' free', yield_cycle i p s = Ok (tt, s') /\
    tab s' = <[i := with_max_level lvl (with_vd (next_deadline s p)
                      (with_ctx (Some (CtxYield v)) (with_state RUNNABLE p)))]> (tab s) /\
    inv [] s' (insert_entry (pid p, next_deadline s p) l) free' /\
    unheld m 0 None s' /\ kept s s' /\ can_insert n s' free'.
Proof.
  intros Hi Hu Hp Hst Hk Hv Hcan. pose proof (lookup_lt_Some _ _ _ Hp) as Hlt. unfold yield_cycle.
  destruct (yield_out_ok kend [] s l free m i p Hi Hu Hp Hst) as (v & s1 & H1 & Ht1 & Hi1 & Hh1 & Hk1 & Hs1).
  rewrite (bind_Ok _ _ _ _ _ H1). set (p1 := with_ctx _ _) in Ht1.
  assert (Hp1 : tab s1 !! i = Some p1) by (rewrite Ht1; by apply list_lookup_insert_eq).
  assert (Hnd : next_deadline s1 p1 = next_deadline s p).
  { unfold next_deadline. destruct Hk1 as (_ & _ & _ & -> & _). done. }
  destruct (scheduler_back_runnable kend [] s1 l free m i p1 n Hi1) as (lvl & s2 & free2 & H2 & Ht2 & Hi2 & Hu2 & Hk2 & Hc2);
    [apply not_elem_of_nil|done|done|done| | | |].
  - destruct Hk1 as (_ & _ & _ & _ & _ & -> & _). done.
  - by rewrite Hnd.
  - unfold can_insert in *. by rewrite Hs1.
  - change (pid p1) with (pid p) in *. rewrite Hnd in *. rewrite (bind_Ok _ _ _ _ _ H2).
    exists v, lvl, s2, free2. split_and!; try done.
    + rewrite Ht2, Ht1. by rewrite list_insert_insert_eq.
    + by transitivity s1.
Qed.

(** C11: a process that yields is queued again, with a new deadline of the
    current time plus its share when its quantum is used up, and with the
    deadline it had otherwise.  In the second case, if every queued deadline
    is later, the next iteration of the scheduler runs the same process. *)
Theorem yield_requeues_and_may_reselect s l free m i p :
  inv [] s l free -> unheld m 0 (Some i) s -> tab s !! i = Some p -> pstate p = RUNNING ->
  KERNBASE <= kpgdir s -> 0 <= next_deadline s p -> can_insert 1 s free ->
  exists s' free' q, yield_cycle i p s = Ok (tt, s') /\
    tab s' = <[i := q]> (tab s) /\ pid q = pid p /\ pstate q = RUNNABLE /\
    virtual_deadline q = (if ticks_left p =? 0 then deadline_at (ticks s) (nice_value p) else virtual_deadline p) /\
    inv [] s' (insert_entry (pid p, virtual_deadline q) l) free' /\ unheld m 0 None s' /\
    (Forall (fun e => virtual_deadline q < snd e) l ->
     exists s'', scheduler_top kend s' = Ok ((pid p, Some i), s'')).
Proof.
  intros Hi Hu Hp Hst Hk Hv Hcan.
  destruct (yield_cycle_ok s l free m i p 0 Hi Hu Hp Hst Hk Hv Hcan) as (v & lvl & s' & free' & Hr & Ht & Hi' & Hu' & _).
  exists s', free'. eexists. split; [exact Hr|]. split; [exact Ht|]. do 5 (split; [done|]).
  intros Hall. cbn [virtual_deadline with_max_level with_vd] in Hall.
  rewrite insert_entry_first in Hi' by done. destruct Hu' as [Hl' Hc'].
  destruct (scheduler_top_pick kend [] s' _ _ l free' m Hi' Hl' Hc')
    as (j & q & s2 & free2 & Hq & Hrq & Hpq & _ & _ & Hrun & _).
  exists s2. rewrite Hrun. do 3 f_equal.
  assert (Hp' : exists p', tab s' !! i = Some p' /\ pid p' = pid p).
  { rewrite Ht. eexists. split; [apply list_lookup_insert_eq; by apply (lookup_lt_Some _ _ _ Hp)|done]. }
  destruct Hp' as (p' & Hp' & Hpid'). f_equal. apply (t_inj _ _ (i_tab _ _ _ _ _ Hi') j i q p'); try done; [congruence|].
  apply (t_used _ _ (i_tab _ _ _ _ _ Hi') j q Hq). by rewrite Hrq.
Qed.

(** ** sleep and wakeup *)

Lemma sleepers_grow ch t i p :
  (length (sleepers ch (<[i := p]> t)) <= S (length (sleepers ch t)))%nat.
Proof.
  revert i. induction t as [|q t IH]; intros [|i]; simpl; try lia.
  - destruct (asleep_on ch p), (asleep_on ch q); simpl; lia.
  - specialize (IH i). destruct (asleep_on ch q); simpl; lia.
Qed.

(** [sleep] with the lock at [a], and the scheduler behind it. *)
Lemma sleep_blocks s l free m i p ch a :
  inv [] s l free -> unheld m 1 (Some i) s -> locks s !! a = Some (Spinlock 1 (Some m)) ->
  tab s !! i = Some p -> pstate p = RUNNING -> KERNBASE <= kpgdir s ->
  exists v s1 s', sleep_out ch (LkAt a) s = Ok (tt, s1) /\ scheduler_back kend (pid p) i s1 = Ok (None, s') /\
    tab s' = <[i := asleep ch (LkAt a) v p]> (tab s) /\ inv [] s' l free /\ unheld m 0 None s' /\
    locks s' = <[a := Spinlock 0 None]> (locks s) /\ seed (rq s') = seed (rq s) /\
    kpgdir s' = kpgdir s /\ nextpid s' = nextpid s /\ ticks s' = ticks s.
Proof.
  intros Hi Hu Ha Hp Hst Hk. pose proof (lookup_lt_Some _ _ _ Hp) as Hlt.
  destruct (sleep_lock_ok kend [] s l free m i p ch a Hi Hu Ha Hp Hst)
    as (v & s1 & H1 & Ht1 & Hi1 & Hh1 & Hl1 & Hn1 & _ & Htk1 & Hk1 & Hs1).
  set (p1 := asleep _ _ _ _) in Ht1.
  assert (Hp1 : tab s1 !! i = Some p1) by (rewrite Ht1; by apply list_lookup_insert_eq).
  destruct (scheduler_back_blocked kend [] s1 l free m i p1) as (s2 & H2 & Ht2 & Hi2 & Hu2 & Hk2 & Hs2); try done.
  { apply (t_used _ _ (i_tab _ _ _ _ _ Hi1) i p1 Hp1). done. }
  { by rewrite Hk1. }
  change (pid p1) with (pid p) in H2.
  destruct Hk2 as (_ & _ & J1 & J2 & _ & J3 & J4 & _).
  exists v, s1, s2. split_and!; try done; try congruence. by rewrite Ht2, Ht1.
Qed.

(** A process that sleeps, and a [wakeup] on its channel afterwards: it is
    runnable and queued.  What happens when the two overlap is in [ProcSmp]. *)
Theorem sleep_then_wakeup_queues s l free m i p ch a :
  inv [] s l free -> unheld m 1 (Some i) s -> locks s !! a = Some (Spinlock 1 (Some m)) ->
  tab s !! i = Some p -> pstate p = RUNNING -> KERNBASE <= kpgdir s ->
  can_insert (S (length (sleepers ch (tab s)))) s free ->
  exists s0 s1 s2 p1 p2 l2 free2, sleep_out ch (LkAt a) s = Ok (tt, s0) /\ scheduler_back kend (pid p) i s0 = Ok (None, s1) /\
    tab s1 !! i = Some p1 /\ asleep_on ch p1 = true /\ locks s1 !! a = Some (Spinlock 0 None) /\
    inv [] s1 l free /\ unheld m 0 None s1 /\
    wakeup kend ch s1 = Ok (tt, s2) /\
    tab s2 !! i = Some p2 /\ pstate p2 = RUNNABLE /\ inv [] s2 l2 free2 /\
    (pid p, virtual_deadline p) ∈ l2 /\ unheld m 0 None s2.
Proof.
  intros Hi Hu Ha Hp Hst Hk Hcan. pose proof (lookup_lt_Some _ _ _ Hp) as Hlt.
  destruct (sleep_blocks s l free m i p ch a Hi Hu Ha Hp Hst Hk)
    as (v & s0 & s1 & H0 & H1 & Ht1 & Hi1 & Hu1 & Hl1 & Hs1 & _).
  set (p1 := asleep _ _ _ _) in Ht1.
  assert (Hp1 : tab s1 !! i = Some p1) by (rewrite Ht1; by apply list_lookup_insert_eq).
  assert (Ha1 : asleep_on ch p1 = true) by (apply andb_true_intro; split; by apply bool_decide_eq_true).
  destruct (wakeup_ok kend [] ch s1 l free 0 m 0 None Hi1) as (s2 & free2 & H2 & Hw2 & Hi2 & Hu2 & _); [|done|lia|].
  { apply (can_insert_le _ (S (length (sleepers ch (tab s))))).
    - unfold can_insert in *. by rewrite Hs1.
    - rewrite Ht1. pose proof (sleepers_grow ch (tab s) i p1). lia. }
  pose proof (Hw2 i p1 Hp1) as Hw. rewrite Ha1, bool_decide_true in Hw.
  2:{ pose proof (t_len _ _ (i_tab _ _ _ _ _ Hi)). lia. }
  cbn [andb] in Hw. destruct Hw as [lvl Hp2].
  exists s0, s1, s2, p1. eexists _, _, free2. split_and!; try done.
  - rewrite Hl1. by apply lookup_insert_eq.
  - apply (i_match _ _ _ _ _ Hi2). eexists i, _. split; [exact Hp2|]. split_and!; try done. apply not_elem_of_nil.
Qed.

(** [wakeup] makes exactly the processes sleeping on the channel
    runnable, changes no other entry of the table, and adds exactly those to
    the run queue, in table order among equal deadlines. *)
Theorem wakeup_wakes_exactly_the_sleepers ch s l free m n o :
  inv [] s l free -> unheld m n o s -> 0 <= n < 2 ^ 30 - 8 ->
  can_insert (length (sleepers ch (tab s))) s free ->
  exists s' free', wakeup kend ch s = Ok (tt, s') /\
    (forall j p, tab s !! j = Some p ->
       if asleep_on ch p then exists lvl, tab s' !! j = Some (with_max_level lvl (with_state RUNNABLE p))
       else tab s' !! j = Some p) /\
    inv [] s' (insert_all (sleepers ch (tab s)) l) free' /\ unheld m n o s'.
Proof.
  intros Hi Hu Hn Hcan. rewrite <- (Nat.add_0_r (length _)) in Hcan.
  destruct (wakeup_ok kend [] ch s l free 0 m n o Hi Hcan Hu Hn) as (s' & free' & Hr & Hw & Hi' & Hu' & _).
  exists s', free'. split_and!; try done. intros j p Hp. specialize (Hw j p Hp).
  rewrite bool_decide_true in Hw; [done|]. apply lookup_lt_Some in Hp.
  pose proof (t_len _ _ (i_tab _ _ _ _ _ Hi)). lia.
Qed.

(** ** kill, allocproc, exit *)

(** [kill] answers -1 and changes nothing when no entry has the pid;
    otherwise it answers 0, marks the first entry with the pid as killed and,
    if it sleeps, makes it runnable and queues it. *)
Theorem kill_outcomes x s l free m n o :
  inv [] s l free -> unheld m n o s -> 0 <= n < 2 ^ 30 - 8 -> can_insert 1 s free ->
  exists s' free', unheld m n o s' /\
    ((Forall (fun p => pid p <> x) (tab s) /\ kill kend x s = Ok (-1, s') /\ tab s' = tab s /\ inv [] s' l free') \/
     (exists i p p', tab s !! i = Some p /\ pid p = x /\ kill kend x s = Ok (0, s') /\
        tab s' = <[i := p']> (tab s) /\ killed p' = 1 /\
        (pstate p = SLEEPING -> pstate p' = RUNNABLE /\ inv [] s' (insert_entry (pid p, virtual_deadline p) l) free') /\
        (pstate p <> SLEEPING -> p' = with_killed 1 p /\ inv [] s' l free'))).
Proof.
  intros Hi Hu Hn Hcan. destruct (kill_ok kend [] x s l free m n o Hi Hcan Hu Hn) as (s' & free' & Hu' & _ & Hk).
  exists s', free'. split; [done|]. destruct (find_proc _ 0 (tab s)) as [i|] eqn:Ef.
  - right. destruct Hk as (p & Hp & Hx & Hr & Hrest). unfold is_state in Hrest. case_bool_decide as Hst.
    + destruct Hrest as [[lvl Ht] Hi']. eexists i, p, _. split_and!; try done.
    + destruct Hrest as [Ht Hi']. eexists i, p, _. by split_and!.
  - left. destruct Hk as (Hr & Ht & Hi'). split_and!; try done. apply find_proc_None in Ef.
    eapply Forall_impl; [exact Ef|]. simpl. intros. lia.
Qed.

(** [allocproc] takes the first unused entry of the table, gives it
    the next pid and a kernel stack, and leaves the rest of the table and the
    run queue alone; it answers nothing when there is no unused entry, and
    when there is no page, in which case the entry is unused as before but
    keeps the pid. *)
Theorem allocproc_outcomes s l free m n o :
  inv [] s l free -> unheld m n o s -> 0 <= n < 2 ^ 30 - 8 -> 0 < nextpid s < 2 ^ 31 - 1 ->
  exists s', unheld m n o s' /\ 
    ((Forall (fun p => pstate p <> UNUSED) (tab s) /\ allocproc s = Ok (None, s') /\ tab s' = tab s /\
      inv [] s' l free) \/
     (exists i p, tab s !! i = Some p /\ pstate p = UNUSED /\
        (forall j q, (j < i)%nat -> tab s !! j = Some q -> pstate q <> UNUSED) /\
        nextpid s' = nextpid s + 1 /\ inv [] s' l (tail free) /\
        match free with
        | [] => allocproc s = Ok (None, s') /\ tab s' = <[i := aborted (nextpid s) p]> (tab s)
        | k :: _ => allocproc s = Ok (Some i, s') /\ tab s' = <[i := embryo (nextpid s) k p]> (tab s)
        end)).
Proof.
  intros Hi Hu Hn Hnp. destruct (find_proc (is_state UNUSED) 0 (tab s)) as [i|] eqn:Ef.
  - pose proof Ef as (p & _ & Hp & Hst & Hbefore)%find_proc_Some. rewrite Nat.sub_0_r in Hp.
    destruct (allocproc_ok kend [] s l free m n o i p Hi Hu Hn Ef Hp Hnp) as (s' & Hu' & Hn' & _ & Hi' & Hr).
    exists s'. split; [done|]. right. exists i, p. split_and!; try done; [by apply bool_decide_eq_true in Hst|].
    intros j q Hj Hq Hs. specialize (Hbefore j q ltac:(lia)). rewrite Nat.sub_0_r in Hbefore.
    specialize (Hbefore Hq). unfold is_state in Hbefore. by rewrite bool_decide_true in Hbefore.
  - destruct (allocproc_full kend [] s l free m n o Hi Hu Hn Ef) as (s' & Hr & Hu' & (Ht & _ & _ & Hi')).
    exists s'. split; [done|]. left. split_and!; try done; [|auto]. apply find_proc_None in Ef.
    eapply Forall_impl; [exact Ef|]. simpl. intros p Hs Hst. unfold is_state in Hs. by rewrite bool_decide_true in Hs.
Qed.


End properties.

(** ** A concrete machine *)

#[local] Opaque demo_q1 demo_free demo_end demo_sl.

(** An environment in which every call succeeds and does nothing. *)
#[export] Instance demo_env : KEnv unit := {|
  setupkvm := ret KERNBASE; inituvm := fun _ => ret tt; copyuvm := fun _ _ => ret KERNBASE;
  freevm := fun _ => ret tt; allocuvm := fun _ _ n => ret n; deallocuvm := fun _ _ n => ret n;
  filedup := fun f => ret f; fileclose := fun _ => ret tt; idup := fun i => ret i; iput := fun _ => ret tt;
  namei := fun _ => ret 1; begin_op := ret tt; end_op := ret tt; iinit := fun _ => ret tt;
  initlog := fun _ => ret tt
|}.

(** Process 1 in state [st] with [tl] ticks of its quantum left; process 3 is
    runnable with deadline 40, process 4 sleeps on address 77, the first
    process waits for children. *)
Definition demo_proc (st : procstate) (n : Z) (par : option nat) (ch : wchan) (tl vd : Z) : proc :=
  Proc PGSIZE (2 * KERNBASE - PGSIZE) KERNBASE st n par junk_tf (Some (CtxYield 1)) ch 0
    (replicate 16 0) 1 (replicate 16 0) tl 0 vd (-1).

Definition demo_unused : proc :=
  Proc 0 0 0 UNUSED 0 None junk_tf None ChNull 0 (replicate 16 0) 0 (replicate 16 0) 0 0 0 0.

Definition demo_used (st : procstate) (tl : Z) : list proc :=
  [demo_proc SLEEPING 1 None (ChProc 0) 50 10; demo_proc st 2 (Some O) ChNull tl 30;
   demo_proc RUNNABLE 3 (Some 1%nat) ChNull 50 40; demo_proc SLEEPING 4 (Some 1%nat) (ChAddr 77) 50 60].

Definition demo_tab (st : procstate) (tl : Z) : list proc := demo_used st tl ++ replicate 60 demo_unused.

Lemma demo_tab_lookup st tl i p :
  demo_tab st tl !! i = Some p -> demo_used st tl !! i = Some p \/ p = demo_unused.
Proof.
  intros Hp. apply lookup_app_Some in Hp as [Hp|[_ Hp]]; [by left|right].
  apply lookup_replicate in Hp. apply Hp.
Qed.

Ltac demo_cases := repeat match goal with
  | H : demo_tab _ _ !! _ = Some _ |- _ => apply demo_tab_lookup in H as [H|H]
  | H : demo_used _ _ !! ?i = Some _ |- _ =>
      destruct i as [|[|[|[|i]]]]; cbn in H; [injection H as <-..|discriminate H]
  end; unfold demo_unused, demo_proc in *; simplify_eq/=.

Lemma demo_tab_ok st tl : st = RUNNING \/ st = SLEEPING -> tab_ok (demo_tab st tl) 5.
Proof.
  intros Hst. constructor.
  - done.
  - intros i p Hp. demo_cases; lia.
  - intros i p Hp Hu. demo_cases; lia.
  - intros i j p q Hp Hq Heq H0. demo_cases; done || lia.
  - intros i p Hp. demo_cases; lia.
  - intros i p Hp Hl. demo_cases; try (unfold KERNBASE, PGSIZE; lia). by destruct Hl as [?|[?|?]].
Qed.

(** The processor at nesting depth [n], running process [o]. *)
Definition demo_hw (n : Z) (o : option nat) : hw := Hw [Cpu 0 n 0 o] 0 (if n =? 0 then FL_IF else 0).

Lemma demo_cpu n o : 0 <= n < 2 ^ 30 -> cpu_is (demo_hw n o) 0 n o.
Proof.
  intros Hn. exists (Cpu 0 n 0 o). split; [|done]. split; [done|]. split; [simpl; lia|].
  simpl. by destruct (Z.eqb_spec n 0); [lia|].
Qed.

Definition demo_pst (st : procstate) (tl n : Z) (o : option nat) : pst unit :=
  set_phw (demo_hw n o)
    (Pst demo_q1 demo_sl (Spinlock 0 None) (demo_tab st tl) (Some O) 5 100 0 0 0 KERNBASE 0 0
       {[9 := Spinlock 1 (Some O)]} tt).

Lemma demo_queued st tl e : st <> RUNNABLE -> e ∈ [(3, 40)] <-> queued [] (demo_tab st tl) e.
Proof.
  intros Hst. rewrite list_elem_of_singleton. split.
  - intros ->. exists 2%nat. eexists. split; [reflexivity|]. split_and!; try done. apply not_elem_of_nil.
  - intros (i & p & Hp & Hr & _ & ->). demo_cases; done.
Qed.

Lemma demo_runnable st tl i p :
  st <> RUNNABLE -> demo_tab st tl !! i = Some p -> pstate p = RUNNABLE -> i = 2%nat /\ pid p = 3.
Proof. intros Hst Hp Hr. demo_cases; done. Qed.

Lemma demo_inv st tl n o :
  st = RUNNING \/ st = SLEEPING -> 0 <= n < 2 ^ 30 - 2 ->
  sched_inv demo_end [] (demo_pst st tl n o) [(3, 40)] (demo_free 1993).
Proof.
  intros Hst Hn. pose proof (demo_cpu n o ltac:(lia)) as Hc.
  apply (quiet_hw demo_end _ _ 0 n o Hc ltac:(lia)). constructor.
  - by apply demo_tab_ok.
  - exact demo_queue.
  - apply NoDup_singleton.
  - intros e. apply demo_queued. by destruct Hst as [-> | ->].
  - intros i Hi. by apply not_elem_of_nil in Hi.
Qed.

Lemma demo_unheld st tl n o : 0 <= n < 2 ^ 30 -> unheld 0 n o (demo_pst st tl n o).
Proof. intros Hn. split; [done|]. exact (demo_cpu n o Hn). Qed.

Lemma seed_set_phw {E} h (s : pst E) : seed (rq (set_phw h s)) = seed (rq s).
Proof. done. Qed.

Lemma demo_can_insert st tl k o : can_insert 3 (demo_pst st tl k o) (demo_free 1993).
Proof.
  split.
  - unfold demo_pst. rewrite seed_set_phw. cbn [rq]. rewrite demo_q1_seed. by vm_compute.
  - rewrite demo_free_length. lia.
Qed.

Lemma scheduler_runs_earliest_deadline_witness :
  exists s', scheduler_top demo_end (demo_pst SLEEPING 7 0 None) = Ok ((3, Some 2%nat), s').
Proof.
  destruct (scheduler_runs_earliest_deadline demo_end (demo_pst SLEEPING 7 0 None) _ _ 0
              (demo_inv SLEEPING 7 0 None ltac:(by right) ltac:(lia)) (demo_unheld SLEEPING 7 0 None ltac:(lia)))
    as [(s' & _ & _ & _ & _ & H)|(i & p & s' & l' & free' & Hp & Hr & _ & H & _)].
  - exfalso. exact (H 2%nat _ eq_refl eq_refl).
  - destruct (demo_runnable SLEEPING 7 i p) as [-> E]; [done|exact Hp|exact Hr|].
    exists s'. rewrite E in H. exact H.
Defined.

Lemma yield_requeues_and_may_reselect_witness :
  exists s' s'', yield_cycle demo_end 1 (demo_proc RUNNING 2 (Some O) ChNull 7 30)
      (demo_pst RUNNING 7 0 (Some 1%nat)) = Ok (tt, s') /\
    scheduler_top demo_end s' = Ok ((2, Some 1%nat), s'').
Proof.
  destruct (yield_requeues_and_may_reselect demo_end (demo_pst RUNNING 7 0 (Some 1%nat)) _ _ 0 1
              (demo_proc RUNNING 2 (Some O) ChNull 7 30)
              (demo_inv RUNNING 7 0 (Some 1%nat) ltac:(by left) ltac:(lia)) (demo_unheld RUNNING 7 0 (Some 1%nat) ltac:(lia)))
    as (s' & free' & q & H1 & _ & _ & _ & Hv & _ & _ & H); [done|done|done|done| |].
  - apply (can_insert_le _ 3); [apply demo_can_insert|lia].
  - destruct H as [s'' H].
    { simpl in Hv. rewrite Hv. repeat constructor. }
    exists s', s''. split; [exact H1|exact H].
Defined.

Lemma wakeup_wakes_exactly_the_sleepers_witness :
  exists s' lvl, wakeup demo_end (ChAddr 77) (demo_pst SLEEPING 7 0 None) = Ok (tt, s') /\
    tab s' !! 3%nat = Some (with_max_level lvl (demo_proc RUNNABLE 4 (Some 1%nat) (ChAddr 77) 50 60)).
Proof.
  destruct (wakeup_wakes_exactly_the_sleepers demo_end (ChAddr 77) (demo_pst SLEEPING 7 0 None) _ _ 0 0 None
              (demo_inv SLEEPING 7 0 None ltac:(by right) ltac:(lia)) (demo_unheld SLEEPING 7 0 None ltac:(lia)))
    as (s' & free' & H & Hw & _); [lia| |].
  - apply (can_insert_le _ 3); [apply demo_can_insert|vm_compute; lia].
  - specialize (Hw 3%nat _ eq_refl). destruct Hw as [lvl Hw]. exists s', lvl. split; [exact H|exact Hw].
Defined.

Lemma kill_outcomes_witness :
  exists s', kill demo_end 4 (demo_pst SLEEPING 7 0 None) = Ok (0, s').
Proof.
  destruct (kill_outcomes demo_end 4 (demo_pst SLEEPING 7 0 None) _ _ 0 0 None
              (demo_inv SLEEPING 7 0 None ltac:(by right) ltac:(lia)) (demo_unheld SLEEPING 7 0 None ltac:(lia)))
    as (s' & free' & _ & [[Hn _]|(i & p & p' & _ & _ & H & _)]); [lia| | |].
  - apply (can_insert_le _ 3); [apply demo_can_insert|lia].
  - exfalso. rewrite Forall_lookup in Hn. exact (Hn 3%nat _ eq_refl eq_refl).
  - exists s'. exact H.
Defined.

Lemma allocproc_outcomes_witness :
  exists s', allocproc (demo_pst SLEEPING 7 0 None) = Ok (Some 4%nat, s').
Proof.
  destruct (allocproc_outcomes demo_end (demo_pst SLEEPING 7 0 None) _ _ 0 0 None
              (demo_inv SLEEPING 7 0 None ltac:(by right) ltac:(lia)) (demo_unheld SLEEPING 7 0 None ltac:(lia)))
    as (s' & _ & [[Hn _]|(i & p & Hp & Hu & Hlt & _ & _ & H)]); [lia|simpl; lia| |].
  - exfalso. rewrite Forall_lookup in Hn. exact (Hn 4%nat _ eq_refl eq_refl).
  - rewrite (demo_free_S 1993) in H by lia. exists s'.
    assert (i = 4%nat) as ->.
    { destruct (lt_eq_lt_dec i 4) as [[Hi|Hi]|Hi]; [|done|].
      - clear -Hp Hu Hi. change (demo_tab SLEEPING 7 !! i = Some p) in Hp. destruct i as [|[|[|[|i]]]]; cbn in Hp; simplify_eq/=. lia.
      - exfalso. exact (Hlt 4%nat _ Hi eq_refl eq_refl). }
    exact (proj1 H).
Defined.

