(* ===== verification/ProcSmp.v ===== *)
(** * Sleeping and waking on several processors

    [sleep] and [wakeup] of [proc.c] step by step, interleaved in every way with
    those of other processes.  The steps of [sleep] are those that [Proc] runs;
    each acquisition and release of a lock, each assignment to an entry of the
    table, each turn of the loop of [wakeup1], each test of the condition and
    each switch of contexts is a step of its own.  What a process waits for is a
    condition on data of any type; the run queue is left out, a runnable
    process may be dispatched at any time. *)

From S2P Require Import Prelude Spinlock Mmu RunQueue Proc ProcBase ProcSched ProcSleep.

Section smp.

Context {D : Type}.

(** ** Code *)








(** ** The machine *)


(** Who holds [ptable.lock]: a scheduler keeps it from [sched] on, and hands it
    to the process it switches to. *)
Inductive owner := Nobody | Process (i : nat) | Scheduler.

#[export] Instance owner_eq_dec : EqDecision owner.
Proof. solve_decision. Defined.





(** [if(p->state == SLEEPING && p->chan == chan) p->state = RUNNABLE;] *)
Definition wake (ch : wchan) (p : proc) : proc := if asleep_on ch p then with_state RUNNABLE p else p.






(** ** A condition, its lock and its channel *)

Context (ready : D -> bool) (ch : wchan) (a : Z) (n : nat).

Hypothesis ch_real : ch <> ChNull.





(** ** What a process holds, by the code that is left *)





















(** ** The invariant *)
















(** ** The steps *)































(** ** Every run *)








End smp.

(** ** The code of [Proc] *)

(** The turns of [Wake] are what [wakeup1] does to states and channels. *)
Lemma wakeup1_wakes (kend : Z) {E : Type} `{!KEnv E} pend ch (s : pst E) l free k :
  sched_inv kend pend s l free -> can_insert (length (sleepers ch (tab s)) + k) s free ->
  exists s', wakeup1 kend ch s = Ok (tt, s') /\
    forall j p, tab s !! j = Some p -> exists q, tab s' !! j = Some q /\ pstate q = pstate (wake ch p) /\ chan q = chan (wake ch p).
Proof.
  intros Hi Hc. destruct (wakeup1_ok kend pend ch s l free k Hi Hc) as (s' & free' & Hw & Ht & _). exists s'. split; [done|].
  intros j p Hj. specialize (Ht j p Hj). pose proof (t_len _ _ (i_tab _ _ _ _ _ Hi)) as Hl. pose proof (lookup_lt_Some _ _ _ Hj) as Hlt.
  rewrite bool_decide_true in Ht by lia. unfold wake. cbn in Ht. destruct (asleep_on ch p); [destruct Ht as [lvl Ht]|]; by eexists.
Qed.

(** ** An example *)









