(* ===== verification/Grep.v ===== *)
(** * grep

    Models [grep.c]: the matcher [match], [matchhere], [matchstar] on strings
    in memory, and the line loop [grep] on its buffer.  The matcher decides a
    declarative reading of the patterns, and the loop prints exactly the lines
    that match, as long as no read leaves it without a newline. *)

From S2P Require Import Prelude CString.

(** ** The matcher *)

Definition CARET : Z := 94.
Definition STAR : Z := 42.
Definition DOLLAR : Z := 36.
Definition DOT : Z := 46.
Definition NLC : Z := 10.

(** [matchstar]: the loop over [text] from index [j]; [here] is [matchhere(re, _)]. *)
Fixpoint matchstar (fuel : nat) (here : nat -> result bool) (c : Z) (text : list Z) (j : nat) : result bool :=
  match fuel with
  | O => NoFuel
  | S f =>
      let? b := here j in
      if (b : bool) then Ok true
      else
        let? t := rd text j in
        if negb (t =? 0) && ((t =? c) || (c =? DOT)) then matchstar f here c text (S j) else Ok false
  end.

(** [matchhere(re, text)] at indices [i] and [j]. *)
Fixpoint matchhere (fuel : nat) (re : list Z) (i : nat) (text : list Z) (j : nat) : result bool :=
  match fuel with
  | O => NoFuel
  | S f =>
      let? r0 := rd re i in
      if r0 =? 0 then Ok true
      else
        let? r1 := rd re (S i) in
        if r1 =? STAR then
          matchstar (S (length text)) (matchhere f re (S (S i)) text) r0 text j
        else if (r0 =? DOLLAR) && (r1 =? 0) then
          let? t := rd text j in Ok (t =? 0)
        else
          let? t := rd text j in
          if negb (t =? 0) && ((r0 =? DOT) || (r0 =? t)) then matchhere f re (S i) text (S j)
          else Ok false
  end.

(** The loop of [match] over the text. *)
Fixpoint match_loop (fuel : nat) (here : nat -> result bool) (text : list Z) (j : nat) : result bool :=
  match fuel with
  | O => NoFuel
  | S f =>
      let? b := here j in
      if (b : bool) then Ok true
      else
        let? t := rd text j in
        if t =? 0 then Ok false else match_loop f here text (S j)
  end.

Definition match_ (re : list Z) (i : nat) (text : list Z) (j : nat) : result bool :=
  let? r0 := rd re i in
  if r0 =? CARET then matchhere (S (length re)) re (S i) text j
  else match_loop (S (length text)) (matchhere (S (length re)) re i text) text j.

(** ** What a pattern means *)

(** [here re t]: a prefix of the text [t] matches [re], the whole of it when
    [re] ends in [$]. *)
Inductive here : list Z -> list Z -> Prop :=
| here_nil t : here [] t
| here_star c re run t : Forall (fun x => x = c \/ c = DOT) run -> here re t -> here (c :: STAR :: re) (run ++ t)
| here_end : here [DOLLAR] []
| here_char c re x t :
    hd 0 re <> STAR -> ~ (c = DOLLAR /\ re = []) -> c = DOT \/ c = x -> here re t -> here (c :: re) (x :: t).

Definition matches (re t : list Z) : Prop :=
  match re with
  | c :: re' => if decide (c = CARET) then here re' t else exists a b, t = a ++ b /\ here re b
  | [] => True
  end.

(** ** The matcher decides it *)

Lemma cstr_hd a i l : cstr a i l -> rd a i = Ok (hd 0 l).
Proof. destruct l; intros Hc; [by apply (cstr_nil _ _ _ Hc)|]. by apply cstr_cons in Hc as [-> _]. Qed.

Lemma cstr_hd_zero a i l : cstr a i l -> hd 0 l = 0 -> l = [].
Proof. destruct l; [done|]. intros Hc. apply cstr_cons in Hc as (_ & Hv & _). simpl. lia. Qed.

(** A loop over the text that stops when the text ends. *)
Lemma matchstar_ok f P c text : forall t j fuel,
  (forall j t, cstr text j t -> exists b : bool, f j = Ok b /\ (b = true <-> P t)) ->
  cstr text j t -> (length t < fuel)%nat ->
  exists b : bool, matchstar fuel f c text j = Ok b /\
    (b = true <-> exists run t', t = run ++ t' /\ Forall (fun x => x = c \/ c = DOT) run /\ P t').
Proof.
  induction t as [|x t IH]; intros j fuel Hf Hc Hfuel; (destruct fuel as [|fuel]; [simpl in Hfuel; lia|]); cbn [matchstar].
  - destruct (Hf j [] Hc) as (b & -> & Hb). cbn [rbind]. rewrite (cstr_hd _ _ _ Hc). destruct b.
    + exists true. split; [done|]. split; [|done]. intros _. exists [], []. split_and!; try done. by apply Hb.
    + exists false. split; [done|]. split; [done|]. intros (run & t' & E & _ & HP).
      symmetry in E. apply app_eq_nil in E as [_ ->]. by apply Hb.
  - destruct (Hf j _ Hc) as (b & -> & Hb). cbn [rbind]. rewrite (cstr_hd _ _ _ Hc). cbn [rbind hd].
    apply cstr_cons in Hc as (_ & Hv & Hc). replace (x =? 0) with false by lia. cbn [negb andb]. destruct b.
    { exists true. split; [done|]. split; [|done]. intros _. exists [], (x :: t). split_and!; try done. by apply Hb. }
    destruct ((x =? c) || (c =? DOT)) eqn:Ex.
    + destruct (IH (S j) fuel Hf Hc) as (b' & -> & Hb'); [simpl in Hfuel; lia|].
      exists b'. split; [done|]. rewrite Hb'. split.
      * intros (run & t' & -> & Hrun & HP). exists (x :: run), t'. split_and!; try done. constructor; [|done].
        apply orb_prop in Ex as [Ex|Ex]; apply Z.eqb_eq in Ex; auto.
      * intros ([|y run] & t' & E & Hrun & HP); simplify_eq/=; [exfalso; by apply Hb in HP|].
        apply Forall_cons in Hrun as [_ Hrun]. eauto.
    + exists false. split; [done|]. split; [done|]. intros ([|y run] & t' & E & Hrun & HP); simplify_eq/=.
      * by apply Hb.
      * apply Forall_cons in Hrun as [Hy _]. apply orb_false_elim in Ex as [E1 E2]. lia.
Qed.

Lemma here_inv re t :
  here re t <->
  match re with
  | [] => True
  | c :: re' =>
      if hd 0 re' =? STAR then exists run t', t = run ++ t' /\ Forall (fun x => x = c \/ c = DOT) run /\ here (tl re') t'
      else if (c =? DOLLAR) && (hd 0 re' =? 0) && bool_decide (re' = []) then t = []
      else exists x t', t = x :: t' /\ (c = DOT \/ c = x) /\ here re' t'
  end.
Proof.
  split.
  - intros [t'|c re' run t' Hrun Ht| |c re' x t' Hs Hd Hx Ht]; simpl; try done.
    + by exists run, t'.
    + replace (hd 0 re' =? STAR) with false by lia.
      destruct ((c =? DOLLAR) && _ && _) eqn:E; [|by exists x, t'].
      apply andb_prop in E as [E Hn]. apply andb_prop in E as [E _]. apply bool_decide_eq_true in Hn.
      exfalso. apply Hd. split; [lia|done].
  - destruct re as [|c re']; [constructor|]. destruct (Z.eqb_spec (hd 0 re') STAR) as [Hs|Hs].
    + destruct re' as [|s re']; [done|]. simpl in Hs. subst. intros (run & t' & -> & Hrun & Ht). by constructor.
    + destruct ((c =? DOLLAR) && _ && _) eqn:E.
      * intros ->. apply andb_prop in E as [E Hn]. apply andb_prop in E as [E _]. apply bool_decide_eq_true in Hn.
        apply Z.eqb_eq in E. subst. constructor.
      * intros (x & t' & -> & Hx & Ht). constructor; try done. intros [-> ->]. by rewrite bool_decide_true in E.
Qed.

Lemma matchhere_ok re text n : forall l t i j,
  cstr re i l -> cstr text j t -> (length l < n)%nat ->
  exists b : bool, matchhere n re i text j = Ok b /\ (b = true <-> here l t).
Proof.
  induction n as [|n IH]; intros l t i j Hr Ht Hn; [lia|]. cbn [matchhere].
  rewrite (cstr_hd _ _ _ Hr). cbn [rbind]. destruct l as [|c l]; simpl hd.
  { exists true. split; [done|]. split; [constructor|done]. }
  apply cstr_cons in Hr as (_ & Hc & Hr). replace (c =? 0) with false by lia.
  rewrite (cstr_hd _ _ _ Hr). cbn [rbind]. setoid_rewrite here_inv. destruct (Z.eqb_spec (hd 0 l) STAR) as [Hs|Hs].
  - destruct l as [|s l]; [done|]. apply cstr_cons in Hr as (_ & _ & Hr).
    apply (matchstar_ok _ (here l)); [|done|].
    + intros j' t' Ht'. apply (IH l t'); [done|done|simpl in Hn; lia].
    + apply cstr_length in Ht. lia.
  - assert (Hz : (hd 0 l =? 0) = bool_decide (l = [])).
    { destruct (Z.eqb_spec (hd 0 l) 0) as [E|E]; symmetry.
      - apply bool_decide_eq_true. by apply (cstr_hd_zero re (S i)).
      - apply bool_decide_eq_false. by intros ->. }
    rewrite (cstr_hd _ _ _ Ht). cbn [rbind].
    assert (Hb : (c =? DOLLAR) && (hd 0 l =? 0) && bool_decide (l = []) = (c =? DOLLAR) && (hd 0 l =? 0)).
    { rewrite Hz. by destruct (c =? DOLLAR), (bool_decide (l = [])). }
    rewrite Hb. destruct ((c =? DOLLAR) && (hd 0 l =? 0)).
    + exists (hd 0 t =? 0). split; [done|]. rewrite Z.eqb_eq. split; [by apply (cstr_hd_zero text j)|by intros ->].
    + destruct t as [|x t]; simpl hd.
      { exists false. split; [done|]. split; [done|]. by intros (x & t' & ? & _). }
      apply cstr_cons in Ht as (_ & Hx & Ht). replace (x =? 0) with false by lia. cbn [negb andb].
      destruct ((c =? DOT) || (c =? x)) eqn:Ex.
      * destruct (IH l t (S i) (S j) Hr Ht) as (b & -> & Hb'); [simpl in Hn; lia|]. exists b. split; [done|].
        rewrite Hb'. apply orb_prop in Ex. rewrite !Z.eqb_eq in Ex. split; [by intros; exists x, t|].
        by intros (y & t' & [= -> ->] & _ & Hh).
      * exists false. split; [done|]. split; [done|]. intros (y & t' & [= -> ->] & Hx' & _).
        apply orb_false_elim in Ex as [E1 E2]. lia.
Qed.

Lemma match_loop_ok f P text : forall t j fuel,
  (forall j t, cstr text j t -> exists b : bool, f j = Ok b /\ (b = true <-> P t)) ->
  cstr text j t -> (length t < fuel)%nat ->
  exists b : bool, match_loop fuel f text j = Ok b /\ (b = true <-> exists u v, t = u ++ v /\ P v).
Proof.
  induction t as [|x t IH]; intros j fuel Hf Hc Hfuel; (destruct fuel as [|fuel]; [simpl in Hfuel; lia|]); cbn [match_loop];
    destruct (Hf j _ Hc) as (b & -> & Hb); cbn [rbind]; rewrite (cstr_hd _ _ _ Hc); cbn [rbind hd]; destruct b.
  - exists true. split; [done|]. split; [|done]. intros _. exists [], []. split; [done|by apply Hb].
  - exists false. split; [done|]. split; [done|]. intros (u & v & E & HP).
    symmetry in E. apply app_eq_nil in E as [_ ->]. by apply Hb.
  - exists true. split; [done|]. split; [|done]. intros _. exists [], (x :: t). split; [done|by apply Hb].
  - apply cstr_cons in Hc as (_ & Hv & Hc). replace (x =? 0) with false by lia.
    destruct (IH (S j) fuel Hf Hc) as (b' & -> & Hb'); [simpl in Hfuel; lia|]. exists b'. split; [done|].
    rewrite Hb'. split.
    + intros (u & v & -> & HP). by exists (x :: u), v.
    + intros ([|y u] & v & E & HP); simplify_eq/=; [exfalso; by apply Hb in HP|eauto].
Qed.

Lemma match_ok re i l text j t :
  cstr re i l -> cstr text j t ->
  exists b : bool, match_ re i text j = Ok b /\ (b = true <-> matches l t).
Proof.
  intros Hr Ht. unfold match_. rewrite (cstr_hd _ _ _ Hr). cbn [rbind].
  assert (Hall : exists b : bool, match_loop (S (length text)) (matchhere (S (length re)) re i text) text j = Ok b /\
    (b = true <-> exists u v, t = u ++ v /\ here l v)).
  { apply match_loop_ok; [|done|apply cstr_length in Ht; lia].
    intros j' t' Ht'. apply matchhere_ok; [done|done|apply cstr_length in Hr; lia]. }
  destruct l as [|c l]; cbn [hd].
  - destruct Hall as (b & -> & Hb). exists b. split; [done|]. rewrite Hb. split; [done|]. intros _.
    exists [], t. split; [done|constructor].
  - unfold matches. destruct (Z.eqb_spec c CARET) as [E|E].
    + rewrite decide_True by done. apply cstr_cons in Hr as (_ & _ & Hr).
      apply matchhere_ok; [done|done|apply cstr_length in Hr; lia].
    + by rewrite decide_False by done.
Qed.

(** ** The line loop *)

Definition BUFSIZE : nat := 1024.

(** [read(fd, buf, max)] on a stream that delivers its data in [chunks]. *)
Definition read_chunk (chunks : list (list Z)) (max : nat) : list Z * list (list Z) :=
  match chunks with
  | [] => ([], [])
  | c :: cs => (take max c, if decide (length c <= max)%nat then cs else drop max c :: cs)
  end.

(** The bytes a [read] delivers, put at [m]. *)
Definition blit (buf : list Z) (m : nat) (data : list Z) : list Z :=
  take m buf ++ data ++ drop (m + length data) buf.

(** The inner loop, from [p]: the buffer, [p] at its end, and what was written. *)
Fixpoint grep_lines (fuel : nat) (pat : list Z) (buf : list Z) (p : nat) (out : list Z)
  : result (list Z * nat * list Z) :=
  match fuel with
  | O => NoFuel
  | S f =>
      let? q := ULib.strchr buf p NLC in
      match q with
      | None => Ok (buf, p, out)
      | Some q =>
          let? buf := wr buf q 0 in
          let? b := match_ pat 0 buf p in
          if (b : bool) then
            let? buf := wr buf q NLC in
            grep_lines f pat buf (q + 1) (out ++ take (q + 1 - p) (drop p buf))
          else grep_lines f pat buf (q + 1) out
      end
  end.

(** The outer loop: [m] bytes are in the buffer. *)
Fixpoint grep_loop (fuel : nat) (pat : list Z) (buf : list Z) (m : nat) (chunks : list (list Z)) (out : list Z)
  : result (list Z) :=
  match fuel with
  | O => NoFuel
  | S f =>
      let '(data, chunks) := read_chunk chunks (BUFSIZE - m - 1) in
      match data with
      | [] => Ok out
      | _ =>
          let buf := blit buf m data in
          let m := (m + length data)%nat in
          let? buf := wr buf m 0 in
          let? r := grep_lines (S BUFSIZE) pat buf 0 out in
          let '(buf, p, out) := r in
          let m := if (p =? 0)%nat then O else m in
          if (0 <? m)%nat then
            let? buf := ULib.memmove buf 0 p (Z.of_nat (m - p)) in
            grep_loop f pat buf (m - p) chunks out
          else grep_loop f pat buf m chunks out
      end
  end.

Definition grep (pat : list Z) (chunks : list (list Z)) : result (list Z) :=
  grep_loop (S (length (concat chunks))) pat (replicate BUFSIZE 0) 0 chunks [].

(** ** Lines *)

(** The complete lines of a text and what follows the last newline. *)
Fixpoint split_lines (l : list Z) : list (list Z) * list Z :=
  match l with
  | [] => ([], [])
  | x :: l' =>
      let '(ls, r) := split_lines l' in
      if x =? NLC then ([] :: ls, r)
      else match ls with [] => ([], x :: r) | l1 :: ls' => ((x :: l1) :: ls', r) end
  end.

Lemma split_lines_app a b :
  split_lines (a ++ b) =
  (fst (split_lines a) ++ fst (split_lines (snd (split_lines a) ++ b)),
   snd (split_lines (snd (split_lines a) ++ b))).
Proof.
  induction a as [|x a IH]; simpl; [by destruct (split_lines b)|]. rewrite IH.
  destruct (split_lines a) as [ls r]; simpl. destruct (x =? NLC) eqn:Ex; [done|].
  destruct ls as [|l1 ls]; simpl; [|done]. rewrite Ex. destruct (split_lines (r ++ b)) as [[|l2 ls2] r2]; done.
Qed.

Lemma split_lines_none l : NLC ∉ l -> split_lines l = ([], l).
Proof.
  induction l as [|x l IH]; intros Hl; simpl; [done|]. apply not_elem_of_cons in Hl as [Hx Hl].
  rewrite (IH Hl). by replace (x =? NLC) with false by lia.
Qed.

Lemma split_lines_line u v :
  NLC ∉ u -> split_lines (u ++ NLC :: v) = (u :: fst (split_lines v), snd (split_lines v)).
Proof.
  induction u as [|x u IH]; intros Hu; simpl; [by destruct (split_lines v)|].
  apply not_elem_of_cons in Hu as [Hx Hu]. rewrite (IH Hu). by replace (x =? NLC) with false by lia.
Qed.

(** What is printed of the lines [ls]. *)
Inductive printed (re : list Z) : list (list Z) -> list Z -> Prop :=
| printed_nil : printed re [] []
| printed_yes l ls out : matches re l -> printed re ls out -> printed re (l :: ls) (l ++ NLC :: out)
| printed_no l ls out : ~ matches re l -> printed re ls out -> printed re (l :: ls) out.

Lemma printed_app re ls1 ls2 o1 o2 :
  printed re ls1 o1 -> printed re ls2 o2 -> printed re (ls1 ++ ls2) (o1 ++ o2).
Proof.
  induction 1 as [|l ls out Hm Hp IH|l ls out Hm Hp IH]; intros H2; simpl; [done| |].
  - rewrite <- app_assoc. simpl. apply printed_yes; auto.
  - apply printed_no; auto.
Qed.

(** ** strchr *)

Lemma strchr_loop_none a c : forall l i fuel,
  cstr a i l -> c ∉ l -> (length l < fuel)%nat -> ULib.strchr_loop fuel a i c = Ok None.
Proof.
  induction l as [|x l IH]; intros i fuel Hc Hn Hf; (destruct fuel as [|fuel]; [simpl in Hf; lia|]); cbn [ULib.strchr_loop];
    rewrite (cstr_hd _ _ _ Hc); [done|]. cbn [rbind hd].
  apply cstr_cons in Hc as (_ & Hx & Hc). apply not_elem_of_cons in Hn as [Hne Hn].
  replace (x =? 0) with false by lia. replace (x =? c) with false by lia. apply IH; [done|done|simpl in Hf; lia].
Qed.

Lemma strchr_loop_some a c u : forall v i fuel,
  cstr a i (u ++ c :: v) -> c ∉ u -> (length u < fuel)%nat ->
  ULib.strchr_loop fuel a i c = Ok (Some (i + length u)%nat).
Proof.
  induction u as [|x u IH]; intros v i fuel Hc Hn Hf; (destruct fuel as [|fuel]; [simpl in Hf; lia|]);
    cbn [ULib.strchr_loop]; rewrite (cstr_hd _ _ _ Hc); simpl in Hc; apply cstr_cons in Hc as (_ & Hx & Hc); cbn [rbind hd app].
  - replace (c =? 0) with false by lia. rewrite Z.eqb_refl. simpl. by rewrite Nat.add_0_r.
  - apply not_elem_of_cons in Hn as [Hne Hn]. replace (x =? 0) with false by lia. replace (x =? c) with false by lia.
    rewrite (IH v (S i) fuel Hc Hn) by (simpl in Hf; lia). simpl. by rewrite <- plus_n_Sm.
Qed.

(** ** The inner loop prints the matching lines *)

(** Ending a string at one of its characters. *)
Lemma cstr_cut a i u c v :
  cstr a i (u ++ c :: v) ->
  cstr (<[(i + length u)%nat := 0]> a) i u /\ cstr (<[(i + length u)%nat := 0]> a) (i + length u + 1) v /\
  a !! (i + length u)%nat = Some c.
Proof.
  intros [[rest E] Hf]. rewrite <- app_assoc in E. simpl in E.
  apply Forall_app in Hf as [Hu Hv]. apply Forall_cons in Hv as [_ Hv].
  split_and!.
  - split; [|done]. exists (v ++ 0 :: rest). rewrite drop_insert_ge, E by lia.
    replace (i + length u - i)%nat with (length u + 0)%nat by lia. by rewrite insert_app_r.
  - split; [|done]. exists rest. rewrite drop_insert_lt by lia.
    replace (i + length u + 1)%nat with (i + S (length u))%nat by lia. rewrite <- drop_drop, E.
    replace (S (length u)) with (length u + 1)%nat by lia. rewrite <- drop_drop, drop_app_length. done.
  - rewrite <- lookup_drop, E. replace (length u) with (length u + 0)%nat by lia. by rewrite lookup_app_r, Nat.add_sub_swap, Nat.sub_diag by lia.
Qed.

Lemma cstr_taken a i u c v : cstr a i (u ++ c :: v) -> take (length u + 1) (drop i a) = u ++ [c].
Proof.
  intros [[rest ->] _]. rewrite <- app_assoc. simpl. rewrite take_app_ge by lia.
  by replace (length u + 1 - length u)%nat with 1%nat by lia.
Qed.

Lemma grep_lines_ok pat re fuel : forall w buf p out,
  cstr pat 0 re -> cstr buf p w -> (length w < fuel)%nat ->
  exists buf' o, grep_lines fuel pat buf p out =
      Ok (buf', (p + (length w - length (snd (split_lines w))))%nat, out ++ o) /\
    printed re (fst (split_lines w)) o /\ length buf' = length buf /\
    cstr buf' (p + (length w - length (snd (split_lines w)))) (snd (split_lines w)).
Proof.
  induction fuel as [|fuel IH]; intros w buf p out Hpat Hw Hf; [lia|]. cbn [grep_lines]. unfold ULib.strchr.
  pose proof (cstr_length _ _ _ Hw) as Hlen. destruct (decide (NLC ∈ w)) as [Hin|Hn].
  2:{ rewrite (strchr_loop_none _ _ _ _ _ Hw Hn) by lia. cbn [rbind]. exists buf, [].
      rewrite (split_lines_none _ Hn). simpl. rewrite Nat.sub_diag, Nat.add_0_r, app_nil_r.
      split_and!; try done. constructor. }
  apply list_elem_of_split_l in Hin as (u & v & -> & Hu). rewrite length_app in Hlen, Hf. simpl in Hlen, Hf.
  rewrite (strchr_loop_some _ _ _ _ _ _ Hw Hu) by lia. cbn [rbind].
  destruct (cstr_cut _ _ _ _ _ Hw) as (Hu1 & Hv1 & Hq). rewrite wr_Ok by lia. cbn [rbind].
  destruct (match_ok pat 0 re _ p u Hpat Hu1) as (b & -> & Hb). cbn [rbind].
  rewrite (split_lines_line _ _ Hu). cbn [fst snd]. rewrite length_app. simpl length.
  assert (Hr : (length (snd (split_lines v)) <= length v)%nat).
  { clear. induction v as [|x v IH]; simpl; [done|]. destruct (split_lines v) as [[|l1 ls] r]; simpl in *;
      destruct (x =? NLC); simpl; lia. }
  replace (p + (length u + S (length v) - length (snd (split_lines v))))%nat
    with (p + length u + 1 + (length v - length (snd (split_lines v))))%nat by lia.
  destruct b.
  - rewrite wr_Ok by (rewrite length_insert; lia). cbn [rbind].
    rewrite list_insert_insert_eq, (list_insert_id buf _ _ Hq).
    replace (p + length u + 1 - p)%nat with (length u + 1)%nat by lia. rewrite (cstr_taken _ _ _ _ _ Hw).
    assert (Hv : cstr buf (p + length u + 1) v).
    { destruct Hv1 as [[rest E] Hv]. split; [|done]. exists rest. by rewrite drop_insert_lt in E by lia. }
    destruct (IH v buf (p + length u + 1)%nat (out ++ u ++ [NLC]) Hpat Hv) as (buf' & o & -> & Hp & Hl & Hc); [lia|].
    exists buf', (u ++ NLC :: o). split; [by rewrite <- !app_assoc|]. split_and!; try done.
    apply printed_yes; [by apply Hb|done].
  - destruct (IH v _ (p + length u + 1)%nat out Hpat Hv1) as (buf' & o & -> & Hp & Hl & Hc); [lia|].
    exists buf', o. rewrite length_insert in Hl. split_and!; try done. apply printed_no; [|done].
    intros Hm. by apply Hb in Hm.
Qed.

(** ** The outer loop *)

(** Every read finds room for its chunk behind the [carry] of the lines before
    it, and brings a newline. *)
Fixpoint fits (carry : list Z) (chunks : list (list Z)) : Prop :=
  match chunks with
  | [] => True
  | c :: cs =>
      NLC ∈ c /\ (length carry + length c < BUFSIZE)%nat /\ fits (snd (split_lines (carry ++ c))) cs
  end.

Definition text (l : list Z) : Prop := Forall (fun v => 0 < v < 256) l.

Lemma read_chunk_fits (carry c : list Z) cs :
  (length carry + length c < BUFSIZE)%nat -> read_chunk (c :: cs) (BUFSIZE - length carry - 1) = (c, cs).
Proof.
  intros Hl. unfold read_chunk. rewrite take_ge by lia. destruct (decide _); [done|lia].
Qed.

(** The buffer once a chunk has been read behind the carry. *)
Lemma blit_cstr (buf carry c : list Z) :
  length buf = BUFSIZE -> take (length carry) buf = carry -> (length carry + length c < BUFSIZE)%nat ->
  text carry -> text c ->
  exists buf1, wr (blit buf (length carry) c) (length carry + length c) 0 = Ok buf1 /\
    cstr buf1 0 (carry ++ c) /\ length buf1 = BUFSIZE.
Proof.
  intros Hl Ht Hb H1 H2. unfold blit. rewrite Ht.
  assert (Hlb : length (carry ++ c ++ drop (length carry + length c) buf) = BUFSIZE).
  { rewrite !length_app, length_drop. lia. }
  rewrite wr_Ok by lia. eexists. split; [done|]. split; [|by rewrite length_insert].
  split; [|by apply Forall_app]. rewrite drop_0. exists (drop (length carry + length c + 1) buf).
  rewrite app_assoc. replace (length carry + length c)%nat with (length (carry ++ c) + 0)%nat at 1 by (rewrite length_app; lia).
  rewrite insert_app_r. f_equal.
  destruct (drop (length carry + length c) buf) as [|x r] eqn:Ed.
  - assert (Hlen : length (drop (length carry + length c) buf) = 0%nat) by (by rewrite Ed). rewrite length_drop in Hlen. lia.
  - simpl. f_equal. replace (length carry + length c + 1)%nat with (1 + (length carry + length c))%nat by lia.
    rewrite Nat.add_comm, <- drop_drop, Ed. done.
Qed.

Lemma split_lines_text l : text l -> text (snd (split_lines l)) /\ (length (snd (split_lines l)) <= length l)%nat /\
  (NLC ∈ l -> length (snd (split_lines l)) < length l)%nat.
Proof.
  induction 1 as [|x l Hx Hl (IH1 & IH2 & IH3)]; simpl; [split_and!; [constructor|lia|by intros ?%not_elem_of_nil]|].
  destruct (split_lines l) as [ls r] eqn:E; simpl in *. destruct (Z.eqb_spec x NLC) as [Ex|Ex].
  - simpl. split_and!; [done|lia|lia].
  - destruct ls as [|l1 ls]; simpl.
    + split_and!; [by constructor|lia|]. intros [Hx'|Hin]%elem_of_cons; [by subst|]. specialize (IH3 Hin). lia.
    + split_and!; [done|lia|lia].
Qed.

Lemma split_lines_rest l : NLC ∉ snd (split_lines l).
Proof.
  induction l as [|x l IH]; simpl; [apply not_elem_of_nil|]. destruct (split_lines l) as [ls r]; simpl in *.
  destruct (Z.eqb_spec x NLC) as [Ex|Ex]; [done|]. destruct ls as [|l1 ls]; simpl; [|done].
  apply not_elem_of_cons. split; [congruence|done].
Qed.

(** One round of the outer loop on the text [w] in the buffer. *)
Lemma grep_round pat re buf w out :
  cstr pat 0 re -> cstr buf 0 w -> length buf = BUFSIZE -> NLC ∈ w ->
  exists buf1 buf2 p o, grep_lines (S BUFSIZE) pat buf 0 out = Ok (buf1, p, out ++ o) /\
    (0 < p)%nat /\ (length w - p = length (snd (split_lines w)))%nat /\ (0 < length w)%nat /\
    ULib.memmove buf1 0 p (Z.of_nat (length w - p)) = Ok buf2 /\ length buf2 = BUFSIZE /\
    take (length w - p) buf2 = snd (split_lines w) /\ printed re (fst (split_lines w)) o.
Proof.
  intros Hpat Hw Hl Hin. pose proof (cstr_length _ _ _ Hw) as Hlen.
  destruct (grep_lines_ok pat re (S BUFSIZE) w buf 0 out Hpat Hw) as (buf1 & o & Hr & Hp & Hl1 & Hc); [lia|].
  destruct (split_lines_text w) as (_ & Hle & Hlt); [apply Hw|]. specialize (Hlt Hin). cbn [Nat.add] in *.
  pose proof (cstr_length _ _ _ Hc) as Hlen1.
  set (r := snd (split_lines w)) in *. set (p := (length w - length r)%nat) in *.
  exists buf1, (moved buf1 0 p (length r)), p, o. replace (length w - p)%nat with (length r) by lia.
  split_and!; try done; try lia.
  - unfold ULib.memmove. rewrite Nat2Z.id. apply copy_up_ok; lia.
  - unfold moved. rewrite !length_app, !length_take, !length_drop. lia.
  - unfold moved. destruct Hc as [[rest Hd] _]. rewrite Hd. rewrite take_0. cbn [app].
    rewrite take_app_length. by rewrite take_app_length.
Qed.

Lemma grep_loop_ok pat re : forall chunks carry buf out fuel,
  cstr pat 0 re -> Forall text chunks -> text carry -> NLC ∉ carry -> fits carry chunks ->
  length buf = BUFSIZE -> take (length carry) buf = carry -> (length chunks < fuel)%nat ->
  exists o, grep_loop fuel pat buf (length carry) chunks out = Ok (out ++ o) /\
    printed re (fst (split_lines (carry ++ concat chunks))) o.
Proof.
  induction chunks as [|c chunks IH]; intros carry buf out fuel Hpat Htx Hcr Hn Hfit Hl Ht Hf;
    (destruct fuel as [|fuel]; [simpl in Hf; lia|]); cbn [grep_loop].
  { exists []. simpl. rewrite !app_nil_r, (split_lines_none _ Hn). split; [done|constructor]. }
  destruct Hfit as (Hnl & Hsz & Hfit). rewrite (read_chunk_fits carry c chunks Hsz).
  apply Forall_cons in Htx as [Hc Htx].
  destruct (blit_cstr buf carry c Hl Ht Hsz Hcr Hc) as (buf1 & H1 & Hc1 & Hl1).
  destruct (grep_round pat re buf1 (carry ++ c) out Hpat Hc1 Hl1) as
    (buf2 & buf3 & p & o & H2 & Hp0 & Hp & Hw0 & H3 & Hl3 & Ht3 & Hpr); [apply elem_of_app; by right|].
  rewrite length_app in Hp, Hw0, H3, Ht3.
  destruct c as [|x c']; [by apply not_elem_of_nil in Hnl|]. set (c := x :: c') in *.
  rewrite H1. cbn [rbind]. rewrite H2. cbn [rbind].
  replace (p =? 0)%nat with false by (symmetry; apply Nat.eqb_neq; lia).
  replace (0 <? length carry + length c)%nat with true by (symmetry; apply Nat.ltb_lt; lia).
  rewrite H3. cbn [rbind]. rewrite Hp in Ht3 |- *.
  destruct (IH (snd (split_lines (carry ++ c))) buf3 (out ++ o) fuel) as (o' & Hr' & Hp'); try done.
  - apply split_lines_text. by apply Forall_app.
  - apply split_lines_rest.
  - simpl in Hf. lia.
  - exists (o ++ o'). rewrite Hr', <- app_assoc. split; [done|]. cbn [concat].
    rewrite (app_assoc carry c), split_lines_app. cbn [fst]. by apply printed_app.
Qed.

(** ** Properties *)

Lemma chunks_length chunks carry : fits carry chunks -> (length chunks <= length (concat chunks))%nat.
Proof.
  revert carry. induction chunks as [|c cs IH]; intros carry Hf; simpl; [done|]. destruct Hf as (Hn & _ & Hf).
  rewrite length_app. specialize (IH _ Hf). destruct c; [by apply not_elem_of_nil in Hn|simpl; lia].
Qed.

(** C14: on any pattern and line in memory, the matcher returns, reads
    inside the two strings only, and answers whether the line matches the
    pattern: [^] and [$] anchor it, [.] stands for any character, [c*] for any
    number of [c]. *)
Theorem match_decides_pattern re i l text j t :
  cstr re i l -> cstr text j t ->
  exists b : bool, match_ re i text j = Ok b /\ (b = true <-> matches l t).
Proof. apply match_ok. Qed.

(** C15: when every read fits the buffer and completes a line, however the
    input is cut into reads, [grep] prints exactly the complete lines that
    match the pattern, in order. *)
Theorem grep_prints_matching_lines pat re chunks :
  cstr pat 0 re -> Forall text chunks -> fits [] chunks ->
  exists out, grep pat chunks = Ok out /\ printed re (fst (split_lines (concat chunks))) out.
Proof.
  intros Hpat Htx Hf. unfold grep.
  destruct (grep_loop_ok pat re chunks [] (replicate BUFSIZE 0) [] (S (length (concat chunks))))
    as (o & Hr & Hp); try done; [constructor|apply not_elem_of_nil|pose proof (chunks_length _ _ Hf); lia|].
  exists o. by split.
Qed.

(** A read that brings no newline is thrown away, so that of the
    line it begins only the rest is looked at. *)
Theorem grep_loses_unfinished_read pat re c chunks :
  cstr pat 0 re -> text c -> c <> [] -> NLC ∉ c -> (length c < BUFSIZE)%nat ->
  Forall text chunks -> fits [] chunks ->
  exists out, grep pat (c :: chunks) = Ok out /\ printed re (fst (split_lines (concat chunks))) out.
Proof.
  intros Hpat Hc H0 Hn Hsz Htx Hf. unfold grep. cbn [grep_loop concat].
  pose proof (read_chunk_fits [] c chunks Hsz) as Hrd. cbn [length] in Hrd. rewrite Hrd.
  destruct c as [|x c']; [done|]. set (c := x :: c') in *.
  destruct (blit_cstr (replicate BUFSIZE 0) [] c) as (buf1 & H1 & Hc1 & Hl1); try done; [constructor|].
  cbn [length Nat.add app] in H1, Hc1. cbn [Nat.add]. rewrite H1. cbn [rbind].
  destruct (grep_lines_ok pat re (S BUFSIZE) c buf1 0 [] Hpat Hc1) as (buf2 & o & H2 & Hp & Hl2 & _); [lia|].
  rewrite (split_lines_none _ Hn) in H2, Hp. simpl in Hp. inversion Hp; subst.
  cbn [snd Nat.add] in H2. rewrite Nat.sub_diag in H2. rewrite H2. cbn [rbind Nat.eqb Nat.ltb Nat.leb app].
  destruct (grep_loop_ok pat re chunks [] buf2 [] (length (c ++ concat chunks))) as (o & Hr & Ho); try done.
  - constructor.
  - apply not_elem_of_nil.
  - congruence.
  - pose proof (chunks_length _ _ Hf). rewrite length_app. simpl. lia.
  - exists o. by split.
Qed.

Lemma demo_pattern : cstr [97; DOT; STAR; 99; 0] 0 [97; DOT; STAR; 99].
Proof. split; [by exists []|]. repeat constructor. Qed.

Lemma match_decides_pattern_witness :
  exists b : bool, match_ [97; DOT; STAR; 99; 0] 0 [120; 97; 98; 99; 0] 0 = Ok b /\
    (b = true <-> matches [97; DOT; STAR; 99] [120; 97; 98; 99]).
Proof.
  apply (match_decides_pattern _ _ _ _ _ _ demo_pattern). split; [by exists []|]. repeat constructor.
Defined.

Lemma grep_prints_matching_lines_witness :
  exists out, grep [97; DOT; STAR; 99; 0] [[97; 99; 10; 98]; [99; 10]] = Ok out /\
    printed [97; DOT; STAR; 99] [[97; 99]; [98; 99]] out.
Proof.
  apply (grep_prints_matching_lines _ _ [[97; 99; 10; 98]; [99; 10]] demo_pattern).
  - repeat constructor.
  - cbn. split_and!; try (unfold BUFSIZE; lia); try done; unfold NLC; set_solver.
Defined.

Lemma grep_loses_unfinished_read_witness :
  exists out, grep [97; DOT; STAR; 99; 0] [[97]; [99; 10]] = Ok out /\
    printed [97; DOT; STAR; 99] [[99]] out.
Proof.
  apply (grep_loses_unfinished_read _ _ [97] [[99; 10]] demo_pattern).
  - repeat constructor.
  - done.
  - unfold NLC. set_solver.
  - unfold BUFSIZE. simpl. lia.
  - repeat constructor.
  - cbn. split_and!; try (unfold BUFSIZE; lia); try done; unfold NLC; set_solver.
Defined.
