(* ===== verification/Pipe.v ===== *)
(** * Pipes

    Models [pipewrite], [piperead] and [pipeclose] of [pipe.c].  A pipe call
    holds the lock of the pipe from [acquire] to its return or to a [sleep],
    so it runs as a sequence of segments, each of which is a function here; a
    machine of any number of readers and writers interleaves the segments. *)

From S2P Require Import Prelude.

Definition PIPESIZE : Z := 512.

(** The two channels a caller sleeps on. *)
Inductive pchan := Nread | Nwrite.

#[export] Instance pchan_eq_dec : EqDecision pchan.
Proof. solve_decision. Defined.

Record pipe := Pipe {
  data : list Z;
  nread : Z;
  nwrite : Z;
  readopen : Z;
  writeopen : Z
}.

(** What [pipealloc] stores in the page of a new pipe; the data array is
    whatever the page holds. *)
Definition pipe_init (junk : list Z) : pipe := Pipe junk 0 0 1 1.

(** How a segment ends: in a [sleep], or in a return with a value. *)
Inductive seg (A : Type) := SSleep (ch : pchan) (a : A) | SRet (v : Z).
Arguments SSleep {A} _ _.
Arguments SRet {A} _.

(** The state of the pipe, how the segment ended, the [wakeup]s it made. *)
Definition segment (A : Type) : Type := result (pipe * seg A * list pchan).

(** [p->data[p->nwrite++ % PIPESIZE] = c] *)
Definition put (c : Z) (p : pipe) : result pipe :=
  let i := Z.to_nat (nwrite p mod PIPESIZE) in
  if decide (i < length (data p))%nat then
    Ok (Pipe (<[i := c]> (data p)) (nread p) (u32 (nwrite p + 1)) (readopen p) (writeopen p))
  else Fault.

(** [p->data[p->nread++ % PIPESIZE]] *)
Definition take_byte (p : pipe) : result (Z * pipe) :=
  match data p !! Z.to_nat (nread p mod PIPESIZE) with
  | Some c => Ok (c, Pipe (data p) (u32 (nread p + 1)) (nwrite p) (readopen p) (writeopen p))
  | None => Fault
  end.

Definition full (p : pipe) : bool := nwrite p =? u32 (nread p + PIPESIZE).

Definition empty (p : pipe) : bool := nread p =? nwrite p.

(** ** pipewrite *)

(** The loop from the bytes [rest] of [addr] still to write on, in a process
    for which [myproc()->killed] is [killed]; [n] is the length of [addr]. *)
Fixpoint pipewrite_seg (killed : bool) (n : Z) (rest : list Z) (p : pipe) : segment (list Z) :=
  match rest with
  | [] => Ok (p, SRet n, [Nread])
  | c :: rest' =>
      if full p then
        if (readopen p =? 0) || killed then Ok (p, SRet (-1), [])
        else Ok (p, SSleep Nwrite rest, [Nread])
      else
        let? p := put c p in pipewrite_seg killed n rest' p
  end.

Definition pipewrite (killed : bool) (addr : list Z) (p : pipe) : segment (list Z) :=
  pipewrite_seg killed (Z.of_nat (length addr)) addr p.

(** ** piperead *)

(** The copy loop: at most [n] bytes. *)
Fixpoint piperead_copy (n : nat) (p : pipe) : result (list Z * pipe) :=
  match n with
  | O => Ok ([], p)
  | S n' =>
      if empty p then Ok ([], p)
      else
        let? r := take_byte p in
        let '(c, p) := r in
        let? r := piperead_copy n' p in
        let '(l, p) := r in
        Ok (c :: l, p)
  end.

(** From the [while] on, at the start and behind the [sleep]: the bytes read
    are part of the result. *)
Definition piperead_seg (killed : bool) (n : nat) (p : pipe) : result (pipe * seg nat * list pchan * list Z) :=
  if empty p && negb (writeopen p =? 0) then
    if killed then Ok (p, SRet (-1), [], [])
    else Ok (p, SSleep Nread n, [], [])
  else
    let? r := piperead_copy n p in
    let '(l, p) := r in
    Ok (p, SRet (Z.of_nat (length l)), [Nwrite], l).

Definition piperead (killed : bool) (n : nat) (p : pipe) : result (pipe * seg nat * list pchan * list Z) :=
  piperead_seg killed n p.

(** ** pipeclose *)

(** The pipe, the [wakeup]s, and whether the page is given back. *)
Definition pipeclose (writable : bool) (p : pipe) : pipe * list pchan * bool :=
  let '(p, w) :=
    if writable then (Pipe (data p) (nread p) (nwrite p) (readopen p) 0, [Nread])
    else (Pipe (data p) (nread p) (nwrite p) 0 (writeopen p), [Nwrite]) in
  (p, w, (readopen p =? 0) && (writeopen p =? 0)).

(** ** The bytes in a pipe *)

(** The pipe holds the bytes [l], oldest first. *)
Definition pipe_rep (p : pipe) (l : list Z) : Prop :=
  length (data p) = Z.to_nat PIPESIZE /\ u32_range (nread p) /\ (length l <= Z.to_nat PIPESIZE)%nat /\
  nwrite p = u32 (nread p + Z.of_nat (length l)) /\
  forall k c, l !! k = Some c ->
    data p !! Z.to_nat (u32 (nread p + Z.of_nat k) mod PIPESIZE) = Some c.

Lemma u32_mod z : u32 z mod PIPESIZE = z mod PIPESIZE.
Proof.
  unfold u32, PIPESIZE. symmetry. apply Znumtheory.Zmod_div_mod; [lia|lia|]. by exists 8388608.
Qed.

Lemma empty_rep p l : pipe_rep p l -> empty p = bool_decide (l = []).
Proof.
  intros (_ & Hr & Hl & Hw & _). unfold empty. destruct l as [|c l].
  - rewrite Hw. simpl. rewrite Z.add_0_r, u32_small by done. by rewrite Z.eqb_refl.
  - rewrite bool_decide_false by done. apply Z.eqb_neq. rewrite Hw. unfold u32, u32_range, PIPESIZE in *.
    intros E. rewrite E in Hr. simpl length in *.
    assert (H : (nread p + Z.of_nat (S (length l))) mod 2 ^ 32 = nread p) by done.
    Z.to_euclidean_division_equations; lia.
Qed.

Lemma full_rep p l : pipe_rep p l -> full p = bool_decide (length l = Z.to_nat PIPESIZE).
Proof.
  intros (_ & Hr & Hl & Hw & _). unfold full. rewrite Hw. case_bool_decide as Hf.
  - rewrite Hf, Z2Nat.id by done. apply Z.eqb_refl.
  - apply Z.eqb_neq. unfold u32, u32_range, PIPESIZE in *. Z.to_euclidean_division_equations; lia.
Qed.

Lemma index_range z : (Z.to_nat (z mod PIPESIZE) < Z.to_nat PIPESIZE)%nat.
Proof. unfold PIPESIZE. pose proof (Z.mod_pos_bound z 512). lia. Qed.

(** Bytes less than a buffer apart are at different places. *)
Lemma index_ne a i j :
  0 <= i < j -> j < PIPESIZE -> Z.to_nat (u32 (a + i) mod PIPESIZE) <> Z.to_nat (u32 (a + j) mod PIPESIZE).
Proof. rewrite !u32_mod. unfold PIPESIZE. intros Hi Hj. Z.to_euclidean_division_equations; lia. Qed.

Lemma put_ok p l c :
  pipe_rep p l -> (length l < Z.to_nat PIPESIZE)%nat ->
  exists p', put c p = Ok p' /\ pipe_rep p' (l ++ [c]) /\ readopen p' = readopen p /\ writeopen p' = writeopen p /\
    nread p' = nread p /\ nwrite p' = u32 (nwrite p + 1).
Proof.
  intros (Hd & Hr & Hl & Hw & Hdata) Hlt. unfold put. rewrite decide_True by (rewrite Hd; apply index_range).
  eexists. split; [done|]. split; [|done]. unfold pipe_rep. simpl. rewrite length_insert, length_app. simpl.
  split_and!; try done; try lia.
  - rewrite Hw, u32_add_l. f_equal. lia.
  - intros k x Hk. rewrite Hw. destruct (decide (k = length l)) as [-> |Hne].
    + rewrite lookup_app_r, Nat.sub_diag in Hk by lia. simplify_eq/=.
      apply list_lookup_insert_eq. rewrite Hd. apply index_range.
    + assert (Hkl : (k < length l)%nat) by (apply lookup_lt_Some in Hk; rewrite length_app in Hk; simpl in Hk; lia).
      rewrite lookup_app_l in Hk by done. rewrite list_lookup_insert_ne; [by apply Hdata|].
      intros E. symmetry in E. revert E. apply index_ne; unfold PIPESIZE in *; lia.
Qed.

Lemma take_byte_ok p l c :
  pipe_rep p (c :: l) ->
  exists p', take_byte p = Ok (c, p') /\ pipe_rep p' l /\ readopen p' = readopen p /\ writeopen p' = writeopen p /\
    nwrite p' = nwrite p.
Proof.
  intros (Hd & Hr & Hl & Hw & Hdata). unfold take_byte. pose proof (Hdata 0%nat c eq_refl) as H0.
  rewrite Z.add_0_r, u32_small in H0 by done. rewrite H0. eexists. split; [done|]. split; [|done].
  unfold pipe_rep. simpl in *. split_and!; try done; try lia.
  - apply u32_bound.
  - rewrite Hw, u32_add_l. f_equal. lia.
  - intros k x Hk. rewrite u32_add_l. specialize (Hdata (S k) x Hk).
    by replace (nread p + 1 + Z.of_nat k) with (nread p + Z.of_nat (S k)) by lia.
Qed.

(** What a segment of [pipewrite] does. *)
Lemma pipewrite_seg_ok killed n rest : forall p l,
  pipe_rep p l ->
  let room := (Z.to_nat PIPESIZE - length l)%nat in
  exists p' e w, pipewrite_seg killed n rest p = Ok (p', e, w) /\
    pipe_rep p' (l ++ take room rest) /\ readopen p' = readopen p /\ writeopen p' = writeopen p /\
    nwrite p' = u32 (nwrite p + Z.of_nat (length (take room rest))) /\
    if decide (length rest <= room)%nat then e = SRet n /\ w = [Nread]
    else if (readopen p =? 0) || killed then e = SRet (-1) /\ w = []
    else e = SSleep Nwrite (drop room rest) /\ w = [Nread].
Proof.
  induction rest as [|c rest IH]; intros p l Hp; cbn [pipewrite_seg].
  - rewrite take_nil. exists p, (SRet n), [Nread]. rewrite app_nil_r. split_and!; try done.
    destruct Hp as (_ & Hr & _ & Hw & _). rewrite Hw. simpl. by rewrite Z.add_0_r, u32_u32.
  - rewrite (full_rep _ _ Hp). pose proof Hp as (_ & Hr & Hl & Hw & _). case_bool_decide as Hf.
    + rewrite Hf, Nat.sub_diag. simpl take. simpl drop. rewrite app_nil_r.
      assert (Hz : nwrite p = u32 (nwrite p + Z.of_nat (@length Z []))).
      { rewrite Hw. simpl. by rewrite Z.add_0_r, u32_u32. }
      destruct ((readopen p =? 0) || killed); do 3 eexists; (split; [done|]); split_and!; try done;
        (destruct (decide _); [simpl in *; lia|done]).
    + destruct (put_ok p l c Hp) as (p1 & -> & Hp1 & Hro & Hwo & Hnr & Hnw); [lia|]. cbn [rbind].
      destruct (IH p1 (l ++ [c]) Hp1) as (p' & e & w & -> & Hp' & Hro' & Hwo' & Hnw' & He). rewrite length_app in *. simpl length in *.
      replace (Z.to_nat PIPESIZE - length l)%nat with (S (Z.to_nat PIPESIZE - (length l + 1)))%nat by lia.
      cbn [take drop length]. rewrite <- app_assoc in Hp'. exists p', e, w. rewrite Hro in He.
      split_and!; try done; try congruence.
      * rewrite Hnw', Hnw, u32_add_l. f_equal. lia.
      * destruct (decide (length rest <= _)%nat), (decide (S (length rest) <= _)%nat); try lia; done.
Qed.

Lemma piperead_copy_ok n : forall p l,
  pipe_rep p l ->
  exists p', piperead_copy n p = Ok (take n l, p') /\ pipe_rep p' (drop n l) /\
    readopen p' = readopen p /\ writeopen p' = writeopen p.
Proof.
  induction n as [|n IH]; intros p l Hp; cbn [piperead_copy]; [by exists p|].
  rewrite (empty_rep _ _ Hp). destruct l as [|c l]; [by exists p|]. rewrite bool_decide_false by done.
  destruct (take_byte_ok _ _ _ Hp) as (p1 & -> & Hp1 & Hro & Hwo & _). cbn [rbind].
  destruct (IH p1 l Hp1) as (p' & -> & Hp' & Hro' & Hwo'). cbn [rbind]. exists p'. split_and!; try done; congruence.
Qed.

(** ** Readers and writers *)

(** A caller of the pipe: outside, asleep in a call, or awake again in it. *)
Inductive thread :=
| TOut
| TWrite (asleep : bool) (n : Z) (rest : list Z)
| TRead (asleep : bool) (n : nat).

Definition wake (w : list pchan) (t : thread) : thread :=
  match t with
  | TWrite true n rest => if bool_decide (Nwrite ∈ w) then TWrite false n rest else t
  | TRead true n => if bool_decide (Nread ∈ w) then TRead false n else t
  | _ => t
  end.

Record machine := Machine {
  mp : pipe;
  threads : list thread;
  written : list Z;     (* all the bytes put into the pipe so far *)
  received : list Z     (* all the bytes read so far *)
}.

Definition after_write (n : Z) (e : seg (list Z)) : thread :=
  match e with SSleep _ rest => TWrite true n rest | SRet _ => TOut end.

Definition after_read (e : seg nat) : thread :=
  match e with SSleep _ n => TRead true n | SRet _ => TOut end.

(** The bytes a segment put into the pipe. *)
Definition consumed (p p' : pipe) (rest : list Z) : list Z :=
  take (Z.to_nat (u32 (nwrite p' - nwrite p))) rest.

(** The call a thread is in does not use the end of the other direction. *)
Definition uses (t : thread) (writable : bool) : Prop :=
  match t with TOut => True | TWrite _ _ _ => writable = true | TRead _ _ => writable = false end.

(** Callers hold a reference to their end of the pipe, so a call starts only
    while the end is open and an end is closed only when no call uses it.
    [kw] tells whether writers that have been killed take steps. *)
Inductive step (kw : bool) : machine -> machine -> Prop :=
| step_write st k killed addr n rest p' e w :
    (threads st !! k = Some TOut /\ writeopen (mp st) <> 0 /\ rest = addr /\ n = Z.of_nat (length addr)) \/
      threads st !! k = Some (TWrite false n rest) ->
    (killed = true -> kw = true) ->
    pipewrite_seg killed n rest (mp st) = Ok (p', e, w) ->
    step kw st (Machine p' (<[k := after_write n e]> (wake w <$> threads st))
                  (written st ++ consumed (mp st) p' rest) (received st))
| step_read st k killed n p' e w l :
    (threads st !! k = Some TOut /\ readopen (mp st) <> 0) \/ threads st !! k = Some (TRead false n) ->
    piperead_seg killed n (mp st) = Ok (p', e, w, l) ->
    step kw st (Machine p' (<[k := after_read e]> (wake w <$> threads st)) (written st) (received st ++ l))
| step_close st writable p' w b :
    Forall (fun t => uses t (negb writable)) (threads st) ->
    pipeclose writable (mp st) = (p', w, b) ->
    step kw st (Machine p' (wake w <$> threads st) (written st) (received st))
| step_kill st k t :
    threads st !! k = Some t ->
    step kw st (Machine (mp st) (<[k := wake [Nread; Nwrite] t]> (threads st)) (written st) (received st)).

Definition init (junk : list Z) (k : nat) : machine := Machine (pipe_init junk) (replicate k TOut) [] [].

(** The bytes written are those received and those in the pipe. *)
Definition stream_inv (st : machine) : Prop :=
  exists l, pipe_rep (mp st) l /\ written st = received st ++ l.

Lemma consumed_ok p p' rest k :
  u32_range (nwrite p) -> (k <= length rest)%nat -> (k <= Z.to_nat PIPESIZE)%nat ->
  nwrite p' = u32 (nwrite p + Z.of_nat k) -> consumed p p' rest = take k rest.
Proof.
  intros Hr Hk1 Hk2 Hw. unfold consumed. f_equal. rewrite Hw, u32_sub_l.
  replace (nwrite p + Z.of_nat k - nwrite p) with (Z.of_nat k) by lia.
  rewrite u32_small; [lia|]. unfold u32_range, PIPESIZE in *. lia.
Qed.

Lemma nwrite_range p l : pipe_rep p l -> u32_range (nwrite p).
Proof. intros (_ & _ & _ & -> & _). apply u32_bound. Qed.

Lemma step_stream kw st st' : stream_inv st -> step kw st st' -> stream_inv st'.
Proof.
  intros Hi Hs. revert Hi.
  destruct Hs as [s k killed addr n rest p' e w Hk Hkw Hrun|s k killed n p' e w b Hk Hrun|s wr p' w b Hu Hrun|s k t Hk];
    intros (l & Hp & Hl); simpl in *.
  - destruct (pipewrite_seg_ok killed n rest _ _ Hp) as (p1 & e1 & w1 & Hrun1 & Hp1 & _ & _ & Hw1 & _).
    rewrite Hrun in Hrun1. simplify_eq. eexists. split; [exact Hp1|]. simpl. rewrite Hl, <- app_assoc. do 2 f_equal.
    rewrite (consumed_ok _ _ _ (length (take (Z.to_nat PIPESIZE - length l) rest)) (nwrite_range _ _ Hp)); rewrite ?length_take; try lia; [|by rewrite length_take in Hw1].
    destruct (decide (length rest <= Z.to_nat PIPESIZE - length l)%nat).
    + rewrite !take_ge by lia. done.
    + f_equal. lia.
  - unfold piperead_seg in Hrun. destruct (_ && _); [destruct killed; simplify_eq; exists l; by rewrite app_nil_r|].
    destruct (piperead_copy_ok n _ _ Hp) as (p1 & Hcp & Hp1 & _). rewrite Hcp in Hrun. simpl in Hrun. simplify_eq.
    exists (drop n l). split; [done|]. simpl. by rewrite Hl, <- app_assoc, take_drop.
  - exists l. split; [|done]. unfold pipeclose in Hrun. by destruct wr; simplify_eq.
  - by exists l.
Qed.

(** A call in progress has its end open; a sleeping reader has an empty pipe
    with a writer, a sleeping writer a full one with a reader. *)
Definition thread_inv (p : pipe) (t : thread) : Prop :=
  match t with
  | TOut => True
  | TRead asleep _ => readopen p <> 0 /\ (asleep = true -> empty p = true /\ writeopen p <> 0)
  | TWrite asleep _ _ => writeopen p <> 0 /\ (asleep = true -> full p = true /\ readopen p <> 0)
  end.

Definition threads_inv (st : machine) : Prop := Forall (thread_inv (mp st)) (threads st).

(** A step in which thread [k] ends in [t] and the others are woken by [w]. *)
Lemma threads_step p p' (ts : list thread) k t w :
  thread_inv p' t -> Forall (thread_inv p) ts ->
  (forall u, u ∈ ts -> thread_inv p u -> thread_inv p' (wake w u)) ->
  Forall (thread_inv p') (<[k := t]> (wake w <$> ts)).
Proof.
  intros Ht Hall Hw. apply Forall_insert; [|done]. apply Forall_fmap. rewrite Forall_forall in Hall |- *.
  intros u Hu. simpl. auto.
Qed.

Lemma write_threads st k n rest p' e w :
  stream_inv st -> threads_inv st -> writeopen (mp st) <> 0 ->
  pipewrite_seg false n rest (mp st) = Ok (p', e, w) ->
  Forall (thread_inv p') (<[k := after_write n e]> (wake w <$> threads st)).
Proof.
  intros (l & Hp & _) Hs Hopen Hrun.
  destruct (pipewrite_seg_ok false n rest _ _ Hp) as (p1 & e1 & w1 & Hrun1 & Hp1 & Hro & Hwo & _ & He).
  rewrite Hrun in Hrun1. simplify_eq. rewrite orb_false_r in He.
  set (room := (Z.to_nat PIPESIZE - length l)%nat) in *.
  assert (Hfull : full (mp st) = true \/ ~ (length rest <= room)%nat -> full p1 = true).
  { rewrite (full_rep _ _ Hp), (full_rep _ _ Hp1), !bool_decide_eq_true, length_app, length_take.
    destruct Hp as (_ & _ & Hl & _). unfold room. lia. }
  apply (threads_step (mp st)); [|done|].
  - destruct (decide _) as [Hd|Hd]; [by destruct He as [-> _]|].
    destruct (Z.eqb_spec (readopen (mp st)) 0); destruct He as [-> _]; simpl; [done|].
    rewrite Hro, Hwo. split; [done|]. intros _. split; [|done]. apply Hfull. by right.
  - intros [|[] n' rest'|[] n'] Hu Hi; simpl in *; rewrite ?Hro, ?Hwo; try done.
    + destruct Hi as [Hi1 Hi2]. case_bool_decide; simpl; rewrite Hro, Hwo; split; try done.
      intros _. destruct (Hi2 eq_refl). split; [|done]. apply Hfull. by left.
    + destruct Hi as [Hi1 Hi2]. assert (Hw : Nread ∈ w1).
      { destruct (decide _); [destruct He as [_ ->]; set_solver|].
        destruct (Z.eqb_spec (readopen (mp st)) 0); [done|]. destruct He as [_ ->]. set_solver. }
      rewrite bool_decide_true by done. simpl. by rewrite Hro.
    + by destruct Hi.
Qed.

Lemma read_threads st k killed n p' e w l :
  stream_inv st -> threads_inv st -> readopen (mp st) <> 0 ->
  piperead_seg killed n (mp st) = Ok (p', e, w, l) ->
  Forall (thread_inv p') (<[k := after_read e]> (wake w <$> threads st)).
Proof.
  intros (b & Hp & _) Hs Hopen Hrun. unfold piperead_seg in Hrun.
  destruct (empty (mp st) && negb (writeopen (mp st) =? 0)) eqn:E.
  - apply andb_prop in E as [E1 E2]. destruct killed; simplify_eq; simpl;
      (apply (threads_step (mp st)); [|done|]).
    + done.
    + intros [|[] n' rest'|[] n'] _ Hi; simpl in *; done.
    + simpl. split; [done|]. split; [done|]. by destruct (Z.eqb_spec (writeopen (mp st)) 0).
    + intros [|[] n' rest'|[] n'] _ Hi; simpl in *; done.
  - destruct (piperead_copy_ok n _ _ Hp) as (p1 & Hcp & Hp1 & Hro & Hwo). rewrite Hcp in Hrun. simpl in Hrun. simplify_eq.
    apply (threads_step (mp st)); [done|done|].
    intros [|[] n' rest'|[] n'] _ Hi; simpl in *; rewrite ?Hro, ?Hwo; try (by destruct Hi).
    destruct Hi as [Hi1 Hi2]. destruct (Hi2 eq_refl) as [He Hw]. split; [done|]. intros _. split; [|done].
    rewrite (empty_rep _ _ Hp) in He. apply bool_decide_eq_true in He. subst b.
    by rewrite (empty_rep _ _ Hp1), drop_nil.
Qed.

Lemma step_threads st st' : stream_inv st -> threads_inv st -> step false st st' -> threads_inv st'.
Proof.
  intros Hst Hi Hs. revert Hst Hi.
  destruct Hs as [s k killed addr n rest p' e w Hk Hkw Hrun|s k killed n p' e w b Hk Hrun|s wr p' w b Hu Hrun|s k t Hk];
    intros Hst Hi; unfold threads_inv in *; simpl.
  - destruct killed; [by specialize (Hkw eq_refl)|]. apply (write_threads s k n rest); try done.
    destruct Hk as [(_ & ? & _)|Hk]; [done|]. by apply (Forall_lookup_1 _ _ _ _ Hi) in Hk as [? _].
  - apply (read_threads s k killed n p' e w b); try done.
    destruct Hk as [[_ ?]|Hk]; [done|]. by apply (Forall_lookup_1 _ _ _ _ Hi) in Hk as [? _].
  - apply Forall_fmap. rewrite Forall_forall in Hi, Hu |- *. intros u Hin. specialize (Hi u Hin). specialize (Hu u Hin).
    unfold pipeclose in Hrun. destruct wr; simplify_eq; destruct u as [|[] n' rest'|[] n']; simpl in *; by destruct Hi.
  - rewrite Forall_forall in Hi. apply Forall_insert; [by apply Forall_forall|].
    specialize (Hi t ltac:(by eapply list_elem_of_lookup_2)). destruct t as [|[] n' rest'|[] n']; simpl in *; try done.
    + split; [apply Hi|done].
    + split; [apply Hi|done].
Qed.

Lemma pipe_init_inv junk k : length junk = Z.to_nat PIPESIZE -> stream_inv (init junk k) /\ threads_inv (init junk k).
Proof.
  intros Hj. split.
  - exists []. split; [|done]. unfold pipe_rep. simpl. split_and!; try done; try (unfold u32_range; lia).
  - apply Forall_replicate. done.
Qed.

Lemma reach_inv kw junk k st :
  length junk = Z.to_nat PIPESIZE -> rtc (step kw) (init junk k) st -> stream_inv st.
Proof. intros Hj. apply rtc_invariant; [apply step_stream|by apply pipe_init_inv]. Qed.

(** ** Properties *)

(** C16: however readers and writers interleave, killed ones included,
    the bytes received are the bytes written, in order, up to the at most 512
    that are in the pipe. *)
Theorem pipe_is_fifo kw junk k st :
  length junk = Z.to_nat PIPESIZE -> rtc (step kw) (init junk k) st ->
  exists l, written st = received st ++ l /\ (length l <= Z.to_nat PIPESIZE)%nat /\ pipe_rep (mp st) l.
Proof.
  intros Hj Hr. destruct (reach_inv kw junk k st Hj Hr) as (l & Hp & Hl). exists l.
  split_and!; try done. apply Hp.
Qed.

(** C17: as long as no killed process writes, no wakeup is lost: a
    reader sleeps only while the pipe is empty and has a writer, a writer only
    while it is full and has a reader. *)
Theorem pipe_sleepers_have_reason junk k st :
  length junk = Z.to_nat PIPESIZE -> rtc (step false) (init junk k) st ->
  forall j t, threads st !! j = Some t ->
    match t with
    | TRead true _ => empty (mp st) = true /\ writeopen (mp st) <> 0
    | TWrite true _ _ => full (mp st) = true /\ readopen (mp st) <> 0
    | _ => True
    end.
Proof.
  intros Hj Hr. assert (H : stream_inv st /\ threads_inv st).
  { revert Hr. apply (rtc_invariant _ (fun st => stream_inv st /\ threads_inv st)); [|by apply pipe_init_inv].
    intros a b [Ha1 Ha2] Hs. split; [by eapply step_stream|by eapply step_threads]. }
  intros j t Ht. apply (Forall_lookup_1 _ _ _ _ (proj2 H)) in Ht. destruct t as [|[] n rest|[] n]; simpl in Ht; try done.
  - by apply Ht.
  - by apply Ht.
Qed.

(** A killed writer that fills the pipe returns without waking
    the readers: a reader can be left asleep with 512 bytes in the pipe. *)
Theorem killed_writer_leaves_reader_asleep junk :
  length junk = Z.to_nat PIPESIZE ->
  exists st n, rtc (step true) (init junk 2) st /\
    threads st = [TRead true n; TOut] /\ full (mp st) = true /\ writeopen (mp st) = 1.
Proof.
  intros Hj. destruct (pipe_init_inv junk 2 Hj) as [(l & Hp & Hl) _]. simpl in Hl, Hp. subst l.
  destruct (pipewrite_seg_ok true 513 (replicate 513 7) _ _ Hp) as (p' & e & w & Hrun & Hp' & Hro & Hwo & _ & He).
  rewrite decide_False, orb_true_r in He by (rewrite length_replicate; unfold PIPESIZE; simpl; lia).
  destruct He as [-> ->].
  assert (Hread : piperead_seg false 1 (pipe_init junk) = Ok (pipe_init junk, SSleep Nread 1%nat, [], [])) by done.
  eexists _, 1%nat. split; [|split; [|split]].
  - eapply rtc_l; [|eapply rtc_once].
    + eapply (step_read true (init junk 2) 0 false 1); [by left|exact Hread].
    + eapply (step_write true _ 1 true (replicate 513 7) 513 (replicate 513 7)); [|done|exact Hrun].
      left. split; [done|]. split; [done|]. split; [done|]. by rewrite length_replicate.
  - done.
  - simpl. rewrite (full_rep _ _ Hp'). apply bool_decide_eq_true. rewrite length_app, length_take, length_replicate. done.
  - simpl. by rewrite Hwo.
Qed.

Lemma pipe_is_fifo_witness :
  exists st, rtc (step false) (init (replicate 512 0) 2) st /\ written st = [5; 6] /\
    exists l, written st = received st ++ l.
Proof.
  set (st1 := Machine (Pipe (5 :: 6 :: replicate 510 0) 0 2 1 1) [TOut; TOut] [5; 6] []).
  assert (Hr : rtc (step false) (init (replicate 512 0) 2) st1).
  { apply rtc_once. apply (step_write false (init (replicate 512 0) 2) 0 false [5; 6] 2 [5; 6]
      (Pipe (5 :: 6 :: replicate 510 0) 0 2 1 1) (SRet 2) [Nread]); [by left|done|by vm_compute]. }
  exists st1. split; [exact Hr|]. split; [done|].
  destruct (pipe_is_fifo false (replicate 512 0) 2 st1 eq_refl Hr) as (l & Hl & _). exists l. exact Hl.
Defined.

Lemma pipe_sleepers_have_reason_witness :
  exists st, rtc (step false) (init (replicate 512 0) 1) st /\ threads st = [TRead true 1] /\ empty (mp st) = true.
Proof.
  set (st1 := Machine (pipe_init (replicate 512 0)) [TRead true 1] [] []).
  assert (Hr : rtc (step false) (init (replicate 512 0) 1) st1).
  { apply rtc_once. apply (step_read false (init (replicate 512 0) 1) 0 false 1
      (pipe_init (replicate 512 0)) (SSleep Nread 1%nat) [] []); [by left|done]. }
  exists st1. split; [exact Hr|]. split; [done|].
  exact (proj1 (pipe_sleepers_have_reason (replicate 512 0) 1 st1 eq_refl Hr 0%nat _ eq_refl)).
Defined.

Lemma killed_writer_leaves_reader_asleep_witness :
  exists st n, rtc (step true) (init (replicate 512 0) 2) st /\ threads st = [TRead true n; TOut].
Proof.
  destruct (killed_writer_leaves_reader_asleep (replicate 512 0) eq_refl) as (st & n & H1 & H2 & _).
  exists st, n. split; [exact H1|exact H2].
Defined.
