(* ===== verification/Sleeplock.v ===== *)
(** * Sleep locks

    Models [sleeplock.c].  The spinlock [lk->lk] makes each call, up to its
    return or a [sleep], one step; a machine of any number of processes
    interleaves the steps. *)

From S2P Require Import Prelude.

Record sleeplock := Sleeplock { sl_locked : Z; sl_pid : Z }.

Definition initsleeplock : sleeplock := Sleeplock 0 0.

(** From the [while] on, at the start and behind the [sleep], in the process
    with pid [pid]: the lock, and whether the call has returned. *)
Definition acquiresleep (pid : Z) (l : sleeplock) : sleeplock * bool :=
  if negb (sl_locked l =? 0) then (l, false) else (Sleeplock 1 pid, true).

(** Ends in [wakeup(lk)]. *)
Definition releasesleep (l : sleeplock) : sleeplock := Sleeplock 0 0.

Definition holdingsleep (pid : Z) (l : sleeplock) : bool :=
  negb (sl_locked l =? 0) && (sl_pid l =? pid).

(** ** Contention *)

(** Where a process is: outside, asleep in [acquiresleep], awake again in it,
    between [acquiresleep] and [releasesleep]. *)
Inductive where_ := Out | Asleep | Awake | Holds.

#[export] Instance where_eq_dec : EqDecision where_.
Proof. solve_decision. Defined.

(** The lock and, by pid, where each process is. *)
Record smachine := Smachine { lock : sleeplock; procs : gmap Z where_ }.

Definition wakeup_all (w : where_) : where_ := match w with Asleep => Awake | _ => w end.

Inductive sstep : smachine -> smachine -> Prop :=
| s_acquire st pid l b :
    procs st !! pid = Some Out \/ procs st !! pid = Some Awake ->
    acquiresleep pid (lock st) = (l, b) ->
    sstep st (Smachine l (<[pid := if b then Holds else Asleep]> (procs st)))
| s_release st pid :
    procs st !! pid = Some Holds ->
    sstep st (Smachine (releasesleep (lock st)) (<[pid := Out]> (wakeup_all <$> procs st)))
| s_kill st pid :
    procs st !! pid = Some Asleep -> sstep st (Smachine (lock st) (<[pid := Awake]> (procs st))).

(** The lock is held by exactly the process whose pid it carries; nobody sleeps
    for a free lock. *)
Definition sl_inv (st : smachine) : Prop :=
  (forall pid, procs st !! pid = Some Holds <-> is_Some (procs st !! pid) /\ sl_locked (lock st) <> 0 /\ sl_pid (lock st) = pid) /\
  (forall pid, procs st !! pid = Some Asleep -> sl_locked (lock st) <> 0).

Lemma sstep_inv st st' : sl_inv st -> sstep st st' -> sl_inv st'.
Proof.
  intros Hi Hs. revert Hi.
  destruct Hs as [s pid l b Hp Ha|s pid Hp|s pid Hp]; intros [Hh Hs]; unfold sl_inv; simpl.
  - assert (Hin : is_Some (procs s !! pid)) by (destruct Hp as [-> | ->]; eauto).
    assert (Hnot : procs s !! pid <> Some Holds) by (destruct Hp as [-> | ->]; done).
    unfold acquiresleep in Ha. destruct (Z.eqb_spec (sl_locked (lock s)) 0) as [E|E]; simplify_eq/=.
    + assert (Hfree : forall q, procs s !! q <> Some Holds).
      { intros q Hq. by apply Hh in Hq as (_ & Hq & _). }
      split.
      * intros q. destruct (decide (q = pid)) as [-> |Hne]; simplify_map_eq; [split; eauto|].
        split; [by intros ?%Hfree|]. by intros (_ & _ & ->).
      * done.
    + split.
      * intros q. destruct (decide (q = pid)) as [-> |Hne]; simplify_map_eq; [|apply Hh].
        split; [done|]. intros (_ & Hl & Hq). exfalso. apply Hnot, Hh. done.
      * intros q Hq. done.
  - assert (Hall : forall q, wakeup_all <$> procs s !! q <> Some Asleep /\
                       (q <> pid -> wakeup_all <$> procs s !! q <> Some Holds)).
    { intros q. destruct (procs s !! q) as [w|] eqn:Eq; simpl; [|done].
      split; [by destruct w|]. intros Hne. destruct w; try done. exfalso.
      apply Hh in Eq as (_ & _ & Eq). apply Hh in Hp as (_ & _ & Hp). congruence. }
    split.
    + intros q. destruct (decide (q = pid)) as [-> |Hne]; simplify_map_eq; [by split; [|intros (_ & ? & _)]|].
      split; [intros Hq; by apply (proj2 (Hall q)) in Hq|by intros (_ & ? & _)].
    + intros q Hq. destruct (decide (q = pid)) as [-> |Hne]; simplify_map_eq. by apply Hall in Hq.
  - split.
    + intros q. destruct (decide (q = pid)) as [-> |Hne]; simplify_map_eq; [|apply Hh].
      split; [done|]. intros (_ & Hl & Hq). assert (procs s !! pid = Some Holds); [|congruence].
      apply Hh. split; [eauto|done].
    + intros q Hq. destruct (decide (q = pid)) as [-> |Hne]; simplify_map_eq. by apply (Hs q).
Qed.

Definition sl_start (pids : gset Z) : smachine := Smachine initsleeplock (gset_to_gmap Out pids).

Lemma sl_start_inv pids : sl_inv (sl_start pids).
Proof.
  split; intros pid; simpl; rewrite lookup_gset_to_gmap.
  - split; [|by intros (_ & ? & _)]. intros H. by apply option_guard_inv in H as [_ ?] || (case_guard; done).
  - intros H. case_guard; done.
Qed.

(** ** Property *)

(** C18: in every interleaving, at most one process is between
    [acquiresleep] and [releasesleep]; [holdingsleep] answers true to that one
    only; and no process sleeps while the lock is free. *)
Theorem sleeplock_mutual_exclusion pids st :
  rtc sstep (sl_start pids) st ->
  (forall p q, procs st !! p = Some Holds -> procs st !! q = Some Holds -> p = q) /\
  (forall p, is_Some (procs st !! p) -> (holdingsleep p (lock st) = true <-> procs st !! p = Some Holds)) /\
  (forall p, procs st !! p = Some Asleep -> sl_locked (lock st) <> 0).
Proof.
  intros Hr. assert (Hi : sl_inv st) by (revert Hr; apply rtc_invariant; [apply sstep_inv|apply sl_start_inv]).
  destruct Hi as [Hh Hs]. split_and!; [| |done].
  - intros p q Hp Hq. apply Hh in Hp as (_ & _ & Hp). apply Hh in Hq as (_ & _ & Hq). congruence.
  - intros p Hp. rewrite Hh. unfold holdingsleep. rewrite andb_true_iff, negb_true_iff, Z.eqb_neq, Z.eqb_eq. by intuition.
Qed.

Lemma sleeplock_mutual_exclusion_witness :
  exists st, rtc sstep (sl_start {[4; 5]}) st /\ procs st !! 4 = Some Holds /\ procs st !! 5 = Some Asleep /\
    holdingsleep 4 (lock st) = true.
Proof.
  set (s0 := sl_start {[4; 5]}).
  set (s1 := Smachine (Sleeplock 1 4) (<[4 := Holds]> (procs s0))).
  set (st := Smachine (Sleeplock 1 4) (<[5 := Asleep]> (procs s1))).
  assert (Hr : rtc sstep s0 st).
  { apply (rtc_l _ _ s1); [exact (s_acquire s0 4 (Sleeplock 1 4) true (or_introl eq_refl) eq_refl)|].
    apply rtc_once. exact (s_acquire s1 5 (Sleeplock 1 4) false (or_introl eq_refl) eq_refl). }
  exists st. split; [exact Hr|]. split; [done|]. split; [done|].
  destruct (sleeplock_mutual_exclusion {[4; 5]} st Hr) as (_ & H & _). apply (H 4); [by eexists|done].
Defined.
