(* ===== verification/Block.v ===== *)
(** * Disk blocks

    A disk block is the list of its bytes.  Structures in a block are read and
    written field by field, little-endian, as the compiler lays them out. *)

From S2P Require Import Prelude.

Definition BSIZE : Z := 512.

Abbreviation block := (list Z).

(** The [n] low bytes of [z], and the value of a list of bytes. *)
Fixpoint le_enc (n : nat) (z : Z) : list Z :=
  match n with O => [] | S n' => z mod 256 :: le_enc n' (z / 256) end.

Fixpoint le_dec (l : list Z) : Z :=
  match l with [] => 0 | b :: l' => b + 256 * le_dec l' end.

(** The field of [n] bytes at offset [o]. *)
Definition field (o n : nat) (b : block) : Z := le_dec (take n (drop o b)).

Definition set_field (o n : nat) (z : Z) (b : block) : block :=
  take o b ++ le_enc n z ++ drop (o + n) b.

(** The element types: [uint], [int], [ushort], [short], [uchar]. *)
Definition get_u32 (o : nat) (b : block) : Z := field o 4 b.
Definition get_i32 (o : nat) (b : block) : Z := i32 (field o 4 b).
Definition get_u16 (o : nat) (b : block) : Z := field o 2 b.
Definition put_u32 (o : nat) (z : Z) (b : block) : block := set_field o 4 z b.
Definition put_u16 (o : nat) (z : Z) (b : block) : block := set_field o 2 z b.

Definition bytes (b : list Z) : Prop := Forall (fun v => 0 <= v < 256) b.

(** A whole block. *)
Definition is_block (b : block) : Prop := length b = Z.to_nat BSIZE /\ bytes b.

Lemma le_enc_length n z : length (le_enc n z) = n.
Proof. revert z. induction n as [|n IH]; intros z; simpl; [done|]. by rewrite IH. Qed.

Lemma le_enc_bytes n z : bytes (le_enc n z).
Proof.
  revert z. induction n as [|n IH]; intros z; simpl; constructor; [|apply IH].
  apply Z.mod_pos_bound. lia.
Qed.

Lemma le_dec_enc n z : le_dec (le_enc n z) = z mod 256 ^ Z.of_nat n.
Proof.
  revert z. induction n as [|n IH]; intros z; [by rewrite Z.mod_1_r|]. cbn [le_enc le_dec].
  rewrite IH, Nat2Z.inj_succ, Z.pow_succ_r, Z.rem_mul_r by lia. done.
Qed.

Lemma le_dec_range l : bytes l -> 0 <= le_dec l < 256 ^ Z.of_nat (length l).
Proof.
  induction 1 as [|x l Hx Hl IH]; cbn [le_dec length]; [done|].
  rewrite Nat2Z.inj_succ, Z.pow_succ_r by lia. lia.
Qed.

Lemma le_enc_dec l : bytes l -> le_enc (length l) (le_dec l) = l.
Proof.
  induction 1 as [|x l Hx Hl IH]; cbn [le_dec length le_enc]; [done|].
  rewrite (Z.mul_comm 256), Z.mod_add, Z.mod_small by lia. rewrite Z.div_add, Z.div_small by lia.
  by rewrite Z.add_0_l, IH.
Qed.

Lemma set_field_length o n z b : (o + n <= length b)%nat -> length (set_field o n z b) = length b.
Proof. intros H. unfold set_field. rewrite !length_app, length_take, le_enc_length, length_drop. lia. Qed.

Lemma set_field_bytes o n z b : bytes b -> bytes (set_field o n z b).
Proof.
  intros H. apply Forall_app. split; [by apply Forall_take|].
  apply Forall_app. split; [apply le_enc_bytes|by apply Forall_drop].
Qed.

Lemma set_field_block o n z b : is_block b -> (o + n <= Z.to_nat BSIZE)%nat -> is_block (set_field o n z b).
Proof.
  intros [Hl Hb] H. split; [|by apply set_field_bytes]. by rewrite set_field_length by lia.
Qed.

Lemma field_set_same o n z b : (o + n <= length b)%nat -> field o n (set_field o n z b) = z mod 256 ^ Z.of_nat n.
Proof.
  intros H. unfold field, set_field. rewrite drop_app_length' by (rewrite length_take; lia).
  rewrite take_app_length' by (by rewrite le_enc_length). apply le_dec_enc.
Qed.

(** Two fields that do not overlap. *)
Lemma field_set_other o n z o' n' b :
  (o + n <= length b)%nat -> (o' + n' <= o \/ o + n <= o')%nat -> field o' n' (set_field o n z b) = field o' n' b.
Proof.
  intros H Hd. unfold field, set_field. f_equal. apply list_eq. intros k.
  destruct (decide (k < n')%nat) as [Hk|Hk]; [|rewrite !lookup_take_ge by lia; done].
  rewrite !lookup_take_lt, !lookup_drop by lia. destruct Hd as [Hd|Hd].
  - rewrite lookup_app_l by (rewrite length_take; lia). by rewrite lookup_take_lt by lia.
  - rewrite lookup_app_r by (rewrite length_take; lia). rewrite lookup_app_r by (rewrite length_take, le_enc_length; lia).
    rewrite lookup_drop, length_take, le_enc_length. f_equal. lia.
Qed.

Lemma field_range o n b : bytes b -> (o + n <= length b)%nat -> 0 <= field o n b < 256 ^ Z.of_nat n.
Proof.
  intros Hb H. unfold field. pose proof (le_dec_range (take n (drop o b))) as Hr.
  rewrite length_take, length_drop, Nat.min_l in Hr by lia. apply Hr. by apply Forall_take, Forall_drop.
Qed.

Lemma get_put_u32 o z b : (o + 4 <= length b)%nat -> u32_range z -> get_u32 o (put_u32 o z b) = z.
Proof. intros H Hz. unfold get_u32, put_u32. rewrite field_set_same by done. by apply Z.mod_small. Qed.

Lemma get_put_i32 o z b : (o + 4 <= length b)%nat -> i32_range z -> get_i32 o (put_u32 o z b) = z.
Proof.
  intros H Hz. unfold get_i32, put_u32. rewrite field_set_same by done.
  change (256 ^ Z.of_nat 4) with (2 ^ 32). fold (u32 z). by rewrite i32_u32, i32_small.
Qed.

Lemma get_i32_other o z o' b :
  (o + 4 <= length b)%nat -> (o' + 4 <= o \/ o + 4 <= o')%nat -> get_i32 o' (put_u32 o z b) = get_i32 o' b.
Proof. intros. unfold get_i32, put_u32. by rewrite field_set_other. Qed.

Lemma get_u32_other o z o' b :
  (o + 4 <= length b)%nat -> (o' + 4 <= o \/ o + 4 <= o')%nat -> get_u32 o' (put_u32 o z b) = get_u32 o' b.
Proof. intros. unfold get_u32, put_u32. by rewrite field_set_other. Qed.

Lemma get_u32_range o b : bytes b -> (o + 4 <= length b)%nat -> u32_range (get_u32 o b).
Proof. intros Hb Hl. exact (field_range o 4 b Hb Hl). Qed.

Lemma le_dec_zeros n : le_dec (replicate n 0) = 0.
Proof. induction n as [|n IH]; simpl; lia. Qed.

Lemma get_u32_zeros o n : get_u32 o (replicate n 0) = 0.
Proof. unfold get_u32, field. rewrite drop_replicate, take_replicate. apply le_dec_zeros. Qed.
