(* ===== verification/Bio.v ===== *)
(** * The buffer cache

    Models [bio.c] over the memory disk of [memide.c].  [bufs] is the array
    [bcache.buf], [order] the list from [bcache.head.next] on, as indices into
    the array.  The calls of the process with pid [me] run to their end; a
    sleep lock that is already held makes the caller wait for good ([Spin]). *)

From S2P Require Import Prelude Block Sleeplock.

Definition B_VALID : Z := 2.
Definition B_DIRTY : Z := 4.
Definition NBUF : nat := 30.

Record buf := Buf {
  b_flags : Z;
  b_dev : Z;
  b_blockno : Z;
  b_lock : sleeplock;
  refcnt : Z;
  b_data : block
}.

Definition with_flags v b := Buf v (b_dev b) (b_blockno b) (b_lock b) (refcnt b) (b_data b).
Definition with_lock v b := Buf (b_flags b) (b_dev b) (b_blockno b) v (refcnt b) (b_data b).
Definition with_refcnt v b := Buf (b_flags b) (b_dev b) (b_blockno b) (b_lock b) v (b_data b).
Definition with_data v b := Buf (b_flags b) (b_dev b) (b_blockno b) (b_lock b) (refcnt b) v.

(** [wlog] is the sequence of block writes the disk has seen; nothing reads it. *)
Record bst := Bst {
  bufs : list buf;
  order : list nat;
  disk : gmap Z block;
  wlog : list (Z * block)
}.

Definition set_bufs v s := Bst v (order s) (disk s) (wlog s).
Definition set_order v s := Bst (bufs s) v (disk s) (wlog s).
Definition set_disk n d s := Bst (bufs s) (order s) (<[n := d]> (disk s)) (wlog s ++ [(n, d)]).

Definition get_buf (i : nat) : M bst buf := fun s =>
  match bufs s !! i with Some b => Ok (b, s) | None => Fault end.

Definition upd_buf (i : nat) (f : buf -> buf) : M bst unit := fun s =>
  match bufs s !! i with Some b => Ok (tt, set_bufs (<[i := f b]> (bufs s)) s) | None => Fault end.

Definition flag (f : Z) (b : buf) : bool := negb (Z.land (b_flags b) f =? 0).

Section code.

Context (me : Z).

(** ** The lock of a buffer *)

Definition lock_buf (i : nat) : M bst unit :=
  let* b := get_buf i in
  let '(l, ok) := acquiresleep me (b_lock b) in
  if ok then upd_buf i (with_lock l) else fun _ => Spin.

Definition unlock_buf (i : nat) : M bst unit := upd_buf i (fun b => with_lock (releasesleep (b_lock b)) b).

Definition holding_buf (i : nat) : M bst bool :=
  let* b := get_buf i in ret (holdingsleep me (b_lock b)).

(** ** The disk *)

Definition iderw (i : nat) : M bst unit :=
  let* h := holding_buf i in
  if negb h then panic "iderw: buf not locked"
  else
    let* b := get_buf i in
    if Z.land (b_flags b) (Z.lor B_VALID B_DIRTY) =? B_VALID then panic "iderw: nothing to do"
    else if negb (b_dev b =? 1) then panic "iderw: request not for disk 1"
    else
      let* d := gets disk in
      match d !! b_blockno b with
      | None => panic "iderw: block out of range"
      | Some d =>
          (if flag B_DIRTY b then
             upd_buf i (fun b => with_flags (Z.land (b_flags b) (Z.lnot B_DIRTY)) b) ;;;
             modify (set_disk (b_blockno b) (b_data b))
           else upd_buf i (with_data d)) ;;;
          upd_buf i (fun b => with_flags (Z.lor (b_flags b) B_VALID) b)
      end.

(** ** The cache *)

(** Each buffer goes to the front of the list. *)
Definition binit : M bst unit :=
  modify (fun s => set_order (rev (seq 0 NBUF)) (set_bufs (with_lock initsleeplock <$> bufs s) s)).

(** The first index of [o] whose buffer satisfies [f]. *)
Fixpoint find_buf (f : buf -> bool) (bs : list buf) (o : list nat) : option nat :=
  match o with
  | [] => None
  | i :: o' =>
      match bs !! i with
      | Some b => if f b then Some i else find_buf f bs o'
      | None => find_buf f bs o'
      end
  end.

Definition is_for (dev blockno : Z) (b : buf) : bool := (b_dev b =? dev) && (b_blockno b =? blockno).

Definition unused (b : buf) : bool := (refcnt b =? 0) && negb (flag B_DIRTY b).

Definition bget (dev blockno : Z) : M bst nat :=
  let* s := get in
  match find_buf (is_for dev blockno) (bufs s) (order s) with
  | Some i =>
      upd_buf i (fun b => with_refcnt (refcnt b + 1) b) ;;;
      lock_buf i ;;;
      ret i
  | None =>
      match find_buf unused (bufs s) (rev (order s)) with
      | Some i =>
          upd_buf i (fun b => Buf 0 dev blockno (b_lock b) 1 (b_data b)) ;;;
          lock_buf i ;;;
          ret i
      | None => panic "bget: no buffers"
      end
  end.

Definition bread (dev blockno : Z) : M bst nat :=
  let* i := bget dev blockno in
  let* b := get_buf i in
  (if negb (flag B_VALID b) then iderw i else ret tt) ;;;
  ret i.

Definition bwrite (i : nat) : M bst unit :=
  let* h := holding_buf i in
  if negb h then panic "bwrite"
  else
    upd_buf i (fun b => with_flags (Z.lor (b_flags b) B_DIRTY) b) ;;;
    iderw i.

Definition brelse (i : nat) : M bst unit :=
  let* h := holding_buf i in
  if negb h then panic "brelse"
  else
    unlock_buf i ;;;
    upd_buf i (fun b => with_refcnt (refcnt b - 1) b) ;;;
    let* b := get_buf i in
    if refcnt b =? 0 then modify (fun s => set_order (i :: filter (fun j => j <> i) (order s)) s)
    else ret tt.

(** [b->data[...] = ...] *)
Definition set_data (i : nat) (d : block) : M bst unit := upd_buf i (with_data d).

(** ** What the cache holds *)

(** [C] is the content of the blocks as the callers see it, [D] the blocks
    modified but not written ([B_DIRTY]), [H] the blocks whose buffers are held. *)
Record bview (s : bst) (C : gmap Z block) (D H : gset Z) : Prop := {
  v_len : length (bufs s) = NBUF;
  v_order : order s ≡ₚ seq 0 NBUF;
  v_lock : forall i b, bufs s !! i = Some b ->
    if decide (b_dev b = 1 /\ b_blockno b ∈ H) then b_lock b = Sleeplock 1 me /\ refcnt b = 1
    else b_lock b = Sleeplock 0 0 /\ refcnt b = 0;
  v_uniq : forall i j b c, bufs s !! i = Some b -> bufs s !! j = Some c ->
    b_dev b = 1 -> b_dev c = 1 -> b_blockno b = b_blockno c -> i = j;
  v_dev : forall i b, bufs s !! i = Some b -> b_dev b = 1 \/ b_dev b = 0 /\ b_flags b = 0;
  v_flags : forall i b, bufs s !! i = Some b -> b_dev b = 1 ->
    b_flags b = if decide (b_blockno b ∈ D) then Z.lor B_VALID B_DIRTY else B_VALID;
  v_data : forall i b, bufs s !! i = Some b -> b_dev b = 1 -> C !! b_blockno b = Some (b_data b);
  v_disk : forall n, n ∉ D -> n ∉ H -> C !! n = disk s !! n;
  v_dom : dom C = dom (disk s);
  v_cached : forall n, n ∈ D ∪ H -> exists i b, bufs s !! i = Some b /\ b_dev b = 1 /\ b_blockno b = n
}.

(** Buffer [i] is held and is for block [n] with data [d]. *)
Definition buf_at (s : bst) (i : nat) (n : Z) (d : block) : Prop :=
  exists b, bufs s !! i = Some b /\ b_dev b = 1 /\ b_blockno b = n /\ b_data b = d /\ b_lock b = Sleeplock 1 me.

(** One buffer changes, to one for block [n]; all that is said about other
    blocks stays. *)
Lemma bview_upd s C D H i b b' n C' D' H' o' d' w' :
  bview s C D H -> bufs s !! i = Some b -> b_dev b' = 1 -> b_blockno b' = n ->
  (forall j c, j <> i -> bufs s !! j = Some c -> b_dev c = 1 -> b_blockno c <> n) ->
  (b_dev b = 1 -> b_blockno b = n \/ b_blockno b ∉ D' ∪ H') ->
  (if decide (n ∈ H') then b_lock b' = Sleeplock 1 me /\ refcnt b' = 1 else b_lock b' = Sleeplock 0 0 /\ refcnt b' = 0) ->
  b_flags b' = (if decide (n ∈ D') then Z.lor B_VALID B_DIRTY else B_VALID) ->
  (forall m, m <> n -> (m ∈ D' <-> m ∈ D) /\ (m ∈ H' <-> m ∈ H) /\ C' !! m = C !! m /\ d' !! m = disk s !! m) ->
  C' !! n = Some (b_data b') -> is_Some (d' !! n) -> (n ∉ D' -> n ∉ H' -> d' !! n = Some (b_data b')) ->
  o' ≡ₚ seq 0 NBUF ->
  bview (Bst (<[i := b']> (bufs s)) o' d' w') C' D' H'.
Proof.
  intros [Vl Vo Vk Vu Vd Vf Va Vs Vm Vc] Hb Hdev Hno Hfresh Hold Hlk Hfl Hoff HC Hd' Hdisk Ho.
  assert (Hcase : forall j c, <[i := b']> (bufs s) !! j = Some c ->
    (j = i /\ c = b') \/ (j <> i /\ bufs s !! j = Some c)).
  { intros j c Hc. apply list_lookup_insert_Some in Hc as [(-> & <- & _)|[Hne Hc]]; [by left|right]. split; [congruence|done]. }
  pose proof (lookup_lt_Some _ _ _ Hb) as Hlt.
  constructor; simpl.
  - by rewrite length_insert.
  - done.
  - intros j c [[-> ->]|[Hne Hc]]%Hcase.
    + destruct (decide (n ∈ H')); [rewrite decide_True by (by rewrite Hno)|rewrite decide_False by (rewrite Hno; tauto)]; done.
    + specialize (Vk j c Hc). destruct (decide (b_dev c = 1)) as [E|E].
      * specialize (Hfresh j c Hne Hc E). destruct (Hoff _ Hfresh) as (_ & Hh & _).
        destruct (decide (b_dev c = 1 /\ b_blockno c ∈ H)) as [[_ Hin]|Hnin].
        -- rewrite decide_True; [done|]. by rewrite Hh.
        -- rewrite decide_False; [done|]. rewrite Hh. done.
      * rewrite decide_False in Vk by tauto. rewrite decide_False by tauto. done.
  - intros j k c1 c2 H1 H2 E1 E2 E. apply Hcase in H1 as [[-> ->]|[N1 H1]]; apply Hcase in H2 as [[-> ->]|[N2 H2]]; try done.
    + exfalso. apply (Hfresh k c2); [done|done|done|congruence].
    + exfalso. apply (Hfresh j c1); [done|done|done|congruence].
    + eauto.
  - intros j c [[-> ->]|[_ Hc]]%Hcase; [by left|eauto].
  - intros j c [[-> ->]|[Hne Hc]]%Hcase E; [by rewrite Hfl, Hno|]. rewrite (Vf _ _ Hc E).
    destruct (Hoff _ (Hfresh j c Hne Hc E)) as (Hh & _). destruct (decide (b_blockno c ∈ D)), (decide (b_blockno c ∈ D')); done || tauto.
  - intros j c [[-> ->]|[Hne Hc]]%Hcase E; [by rewrite Hno|].
    destruct (Hoff _ (Hfresh j c Hne Hc E)) as (_ & _ & -> & _). eauto.
  - intros m H1 H2. destruct (decide (m = n)) as [-> |Hne]; [by rewrite HC, Hdisk|].
    destruct (Hoff m Hne) as (E1 & E2 & -> & ->). apply Vs; tauto.
  - apply set_eq. intros m. rewrite !elem_of_dom. destruct (decide (m = n)) as [-> |Hne]; [by rewrite HC|].
    destruct (Hoff m Hne) as (_ & _ & -> & ->). rewrite <- !elem_of_dom. by rewrite Vm.
  - intros m Hin. destruct (decide (m = n)) as [-> |Hne].
    { exists i, b'. split; [by apply list_lookup_insert_eq|done]. }
    destruct (Hoff m Hne) as (E1 & E2 & _). destruct (Vc m) as (j & c & Hc & E & Hm); [set_solver|].
    exists j, c. split; [|done]. rewrite list_lookup_insert_ne; [done|]. intros ->.
    rewrite Hb in Hc. simplify_eq. destruct (Hold E) as [?|Hn]; [congruence|]. set_solver.
Qed.

(** Another held buffer is not touched. *)
Lemma buf_at_other s i j n d b' o' d' w' :
  buf_at s j n d -> j <> i -> buf_at (Bst (<[i := b']> (bufs s)) o' d' w') j n d.
Proof.
  intros (b & Hb & Hrest) Hne. exists b. split; [|done]. simpl. by rewrite list_lookup_insert_ne.
Qed.

Lemma buf_at_view s C D H i n d : bview s C D H -> buf_at s i n d -> n ∈ H /\ C !! n = Some d.
Proof.
  intros V (b & Hb & E & <- & <- & Hl). split; [|by eapply v_data].
  pose proof (v_lock _ _ _ _ V i b Hb) as Hk. destruct (decide _) as [[_ ?]|_]; [done|]. destruct Hk as [Hk _]. congruence.
Qed.

Lemma buf_at_eq s C D H i j n d e : bview s C D H -> buf_at s i n d -> buf_at s j n e -> i = j /\ d = e.
Proof.
  intros V (b & Hb & E & Hn & Hd & _) (c & Hc & E' & Hn' & Hd' & _).
  assert (i = j) as -> by (eapply (v_uniq _ _ _ _ V); eauto; congruence). split; [done|]. congruence.
Qed.

(** ** Finding a buffer *)

Lemma find_buf_Some f bs o i : find_buf f bs o = Some i -> exists b, i ∈ o /\ bs !! i = Some b /\ f b = true.
Proof.
  induction o as [|j o IH]; simpl; [done|]. destruct (bs !! j) as [b|] eqn:Hb; [|intros H; destruct (IH H) as (b & ? & ?); exists b; set_solver].
  destruct (f b) eqn:Hf; [intros [= ->]; exists b; set_solver|intros H; destruct (IH H) as (c & ? & ?); exists c; set_solver].
Qed.

Lemma find_buf_None f bs o : find_buf f bs o = None -> forall i b, i ∈ o -> bs !! i = Some b -> f b = false.
Proof.
  induction o as [|j o IH]; simpl; intros H i b Hi Hb; [set_solver|].
  destruct (bs !! j) as [c|] eqn:Hc; [destruct (f c) eqn:Hf; [done|]|];
    (apply elem_of_cons in Hi as [-> |Hi]; [congruence|eauto]).
Qed.

Lemma in_order s C D H i b : bview s C D H -> bufs s !! i = Some b -> i ∈ order s.
Proof.
  intros V Hb. rewrite (v_order _ _ _ _ V). apply elem_of_seq. apply lookup_lt_Some in Hb.
  rewrite (v_len _ _ _ _ V) in Hb. lia.
Qed.

(** With fewer than [NBUF] blocks dirty or held, some buffer is unused. *)
Lemma unused_exists s C D H :
  bview s C D H -> (size (D ∪ H) < NBUF)%nat -> exists i b, bufs s !! i = Some b /\ unused b = true.
Proof.
  intros V Hsz. destruct (find_buf unused (bufs s) (order s)) as [i|] eqn:Ef.
  { apply find_buf_Some in Ef as (b & _ & Hb & Hu). eauto. }
  exfalso. assert (Hall : forall i b, bufs s !! i = Some b -> b_dev b = 1 /\ b_blockno b ∈ D ∪ H).
  { intros i b Hb. pose proof (find_buf_None _ _ _ Ef i b (in_order _ _ _ _ _ _ V Hb) Hb) as Hu.
    pose proof (v_lock _ _ _ _ V i b Hb) as Hk. unfold unused, flag in Hu.
    destruct (decide (b_dev b = 1 /\ b_blockno b ∈ H)) as [[? ?]|Hn]; [set_solver|].
    destruct Hk as [_ Hk]. rewrite Hk in Hu. simpl in Hu. apply negb_false_iff in Hu.
    destruct (v_dev _ _ _ _ V i b Hb) as [E|[_ E]]; [|by rewrite E in Hu]. split; [done|].
    rewrite (v_flags _ _ _ _ V i b Hb E) in Hu. destruct (decide _); [set_solver|done]. }
  assert (Hsub : list_to_set (b_blockno <$> bufs s) ⊆ D ∪ H).
  { intros n Hn. apply elem_of_list_to_set, list_elem_of_fmap in Hn as (b & -> & Hb).
    apply list_elem_of_lookup in Hb as [i Hb]. by apply (Hall i b). }
  apply subseteq_size in Hsub. rewrite size_list_to_set, length_fmap, (v_len _ _ _ _ V) in Hsub; [lia|].
  apply NoDup_alt. intros i j n Hi Hj. rewrite list_lookup_fmap in Hi, Hj.
  destruct (bufs s !! i) as [b|] eqn:Hb; [|done]. destruct (bufs s !! j) as [c|] eqn:Hc; [|done]. simplify_eq/=.
  eapply (v_uniq _ _ _ _ V); eauto; by eapply Hall.
Qed.

(** ** The operations *)

Lemma upd_buf_ok s i b f :
  bufs s !! i = Some b -> upd_buf i f s = Ok (tt, set_bufs (<[i := f b]> (bufs s)) s).
Proof. intros Hb. unfold upd_buf. by rewrite Hb. Qed.

Lemma get_buf_ok s i b : bufs s !! i = Some b -> get_buf i s = Ok (b, s).
Proof. intros Hb. unfold get_buf. by rewrite Hb. Qed.

(** A second update of the same buffer. *)
Lemma upd_buf_again i b f o d w bs :
  (i < length bs)%nat ->
  upd_buf i f (Bst (<[i := b]> bs) o d w) = Ok (tt, Bst (<[i := f b]> bs) o d w).
Proof.
  intros Hlt. rewrite (upd_buf_ok _ _ b) by (by apply list_lookup_insert_eq).
  unfold set_bufs. simpl. by rewrite list_insert_insert_eq.
Qed.

Lemma get_buf_new i b o d w (bs : list buf) :
  (i < length bs)%nat -> get_buf i (Bst (<[i := b]> bs) o d w) = Ok (b, Bst (<[i := b]> bs) o d w).
Proof. intros Hlt. apply get_buf_ok. by apply list_lookup_insert_eq. Qed.

Lemma lock_buf_new i b o d w (bs : list buf) :
  (i < length bs)%nat -> sl_locked (b_lock b) = 0 ->
  lock_buf i (Bst (<[i := b]> bs) o d w) = Ok (tt, Bst (<[i := with_lock (Sleeplock 1 me) b]> bs) o d w).
Proof.
  intros Hlt Hl. unfold lock_buf. rewrite (bind_Ok _ _ _ _ _ (get_buf_new i b o d w bs Hlt)).
  unfold acquiresleep. rewrite Hl. simpl. by apply upd_buf_again.
Qed.

Lemma holding_buf_ok s i b : bufs s !! i = Some b -> b_lock b = Sleeplock 1 me -> holding_buf i s = Ok (true, s).
Proof.
  intros Hb Hl. unfold holding_buf. rewrite (bind_Ok _ _ _ _ _ (get_buf_ok _ _ _ Hb)), Hl.
  unfold holdingsleep. simpl. by rewrite Z.eqb_refl.
Qed.

(** What a [bread] of block [n] with content [d] gives. *)
Definition read_post (s : bst) (C : gmap Z block) (D H : gset Z) (n : Z) (d : block) (i : nat) (s' : bst) : Prop :=
  bview s' C D ({[n]} ∪ H) /\ buf_at s' i n d /\ disk s' = disk s /\ wlog s' = wlog s /\
  forall j m e, buf_at s j m e -> buf_at s' j m e.

Lemma view_unheld s C D H i b :
  bview s C D H -> bufs s !! i = Some b -> ~ (b_dev b = 1 /\ b_blockno b ∈ H) -> b_lock b = Sleeplock 0 0 /\ refcnt b = 0.
Proof. intros V Hb Hn. pose proof (v_lock _ _ _ _ V i b Hb) as Hk. by rewrite decide_False in Hk. Qed.

(** Taking an unheld buffer [i] and making it hold block [n]. *)
Lemma take_buf_post s C D H i b n d fl :
  bview s C D H -> bufs s !! i = Some b -> b_lock b = Sleeplock 0 0 -> C !! n = Some d -> n ∉ H ->
  (forall j c, j <> i -> bufs s !! j = Some c -> b_dev c = 1 -> b_blockno c <> n) ->
  (b_dev b = 1 -> b_blockno b = n \/ b_blockno b ∉ D ∪ H) ->
  fl = (if decide (n ∈ D) then Z.lor B_VALID B_DIRTY else B_VALID) ->
  read_post s C D H n d i (Bst (<[i := Buf fl 1 n (Sleeplock 1 me) 1 d]> (bufs s)) (order s) (disk s) (wlog s)).
Proof.
  intros V Hb Hl HC Hn Hfresh Hold Hfl. pose proof (lookup_lt_Some _ _ _ Hb) as Hlt. split_and!; try done.
  - apply (bview_upd s C D H i b _ n); try done.
    + intros E. destruct (decide (b_blockno b = n)) as [?|Hne]; [by left|]. right. destruct (Hold E); [done|]. set_solver.
    + rewrite decide_True by set_solver. done.
    + intros m Hm. set_solver.
    + assert (Hd : n ∈ dom C) by (apply elem_of_dom; eauto). rewrite (v_dom _ _ _ _ V) in Hd. by apply elem_of_dom in Hd.
    + intros _ Hc. exfalso. set_solver.
    + exact (v_order _ _ _ _ V).
  - eexists. split; [by apply list_lookup_insert_eq|done].
  - intros j m e Hj. apply buf_at_other; [done|]. intros ->. destruct Hj as (c & Hc & _ & _ & _ & Hk). congruence.
Qed.

Lemma bread_cached s C D H n d i b :
  bview s C D H -> n ∉ H -> C !! n = Some d -> bufs s !! i = Some b -> b_dev b = 1 -> b_blockno b = n ->
  exists s', bread 1 n s = Ok (i, s') /\ read_post s C D H n d i s'.
Proof.
  intros V Hn HC Hb E Hno. pose proof (lookup_lt_Some _ _ _ Hb) as Hlt. unfold bread, bget.
  destruct (view_unheld s C D H i b V Hb) as [Hl Hr]; [rewrite Hno; tauto|].
  assert (Hfind : find_buf (is_for 1 n) (bufs s) (order s) = Some i).
  { destruct (find_buf _ _ _) as [j|] eqn:Ef.
    - apply find_buf_Some in Ef as (c & _ & Hc & Hf). apply andb_prop in Hf as [F1 F2].
      apply Z.eqb_eq in F1, F2. f_equal. eapply (v_uniq _ _ _ _ V); eauto; congruence.
    - pose proof (find_buf_None _ _ _ Ef i b (in_order _ _ _ _ _ _ V Hb) Hb) as Hf. unfold is_for in Hf.
      rewrite E, Hno, !Z.eqb_refl in Hf. done. }
  eexists. split.
  - erewrite bind_Ok.
    2:{ step. rewrite Hfind. rewrite (bind_Ok _ _ _ _ _ (upd_buf_ok _ _ _ _ Hb)). unfold set_bufs.
        erewrite bind_Ok by (apply lock_buf_new; [done|by simpl; rewrite Hl]). reflexivity. }
    rewrite (bind_Ok _ _ _ _ _ (get_buf_new i _ _ _ _ _ Hlt)).
    assert (Hv : flag B_VALID (with_lock (Sleeplock 1 me) (with_refcnt (refcnt b + 1) b)) = true).
    { unfold flag. simpl. rewrite (v_flags _ _ _ _ V i b Hb E). by destruct (decide _). }
    rewrite Hv. cbn [negb]. rewrite (bind_Ok (ret tt) _ _ tt _ eq_refl). reflexivity.
  - assert (Hd : b_data b = d) by (pose proof (v_data _ _ _ _ V i b Hb E); congruence).
    replace (with_lock (Sleeplock 1 me) (with_refcnt (refcnt b + 1) b)) with (Buf (b_flags b) 1 n (Sleeplock 1 me) 1 d).
    2:{ unfold with_lock, with_refcnt. simpl. by rewrite Hr, E, Hno, Hd. }
    apply (take_buf_post s C D H i b n d); try done.
    + intros j c Hne Hc Ec Hcn. apply Hne. eapply (v_uniq _ _ _ _ V); eauto; congruence.
    + by left.
    + rewrite (v_flags _ _ _ _ V i b Hb E). by rewrite Hno.
Qed.

Lemma bread_uncached s C D H n d :
  bview s C D H -> n ∉ H -> C !! n = Some d -> (size (D ∪ H) < NBUF)%nat ->
  (forall i b, bufs s !! i = Some b -> b_dev b = 1 -> b_blockno b <> n) ->
  exists i s', bread 1 n s = Ok (i, s') /\ read_post s C D H n d i s'.
Proof.
  intros V Hn HC Hsz Hfresh. unfold bread, bget.
  assert (Hfind : find_buf (is_for 1 n) (bufs s) (order s) = None).
  { destruct (find_buf _ _ _) as [j|] eqn:Ef; [|done]. apply find_buf_Some in Ef as (c & _ & Hc & Hf).
    apply andb_prop in Hf as [F1 F2]. apply Z.eqb_eq in F1, F2. exfalso. by apply (Hfresh j c). }
  destruct (find_buf unused (bufs s) (rev (order s))) as [i|] eqn:Ef.
  2:{ exfalso. destruct (unused_exists s C D H V Hsz) as (i & b & Hb & Hu).
      assert (Hf : unused b = false); [|congruence].
      apply (find_buf_None _ _ _ Ef i b); [|done].
      apply list_elem_of_In, (proj1 (in_rev _ _)), list_elem_of_In. exact (in_order _ _ _ _ _ _ V Hb). }
  pose proof Ef as (b & _ & Hb & Hu)%find_buf_Some. pose proof (lookup_lt_Some _ _ _ Hb) as Hlt.
  apply andb_prop in Hu as [Hr Hdirty]. apply Z.eqb_eq in Hr. apply negb_true_iff in Hdirty.
  assert (HnH : ~ (b_dev b = 1 /\ b_blockno b ∈ H)).
  { intros Hc. pose proof (v_lock _ _ _ _ V i b Hb) as Hk. rewrite decide_True in Hk by done. lia. }
  destruct (view_unheld s C D H i b V Hb HnH) as [Hl _].
  assert (HnD : n ∉ D).
  { intros Hin. destruct (v_cached _ _ _ _ V n) as (j & c & Hc & E & Hno); [set_solver|]. by apply (Hfresh j c). }
  assert (Hdisk : disk s !! n = Some d) by (rewrite <- (v_disk _ _ _ _ V n HnD Hn); done).
  exists i. eexists. split.
  - erewrite bind_Ok.
    2:{ step. rewrite Hfind, Ef, (bind_Ok _ _ _ _ _ (upd_buf_ok _ _ _ _ Hb)). unfold set_bufs.
        erewrite bind_Ok by (apply lock_buf_new; [done|by simpl; rewrite Hl]). reflexivity. }
    rewrite (bind_Ok _ _ _ _ _ (get_buf_new i _ _ _ _ _ Hlt)).
    set (b1 := with_lock _ _). assert (Hv : flag B_VALID b1 = false) by done. rewrite Hv. cbn [negb].
    erewrite bind_Ok; [reflexivity|]. unfold iderw.
    erewrite bind_Ok by (eapply holding_buf_ok; [by apply list_lookup_insert_eq|done]). cbn [negb].
    rewrite (bind_Ok _ _ _ _ _ (get_buf_new i _ _ _ _ _ Hlt)).
    change (Z.land (b_flags b1) (Z.lor B_VALID B_DIRTY) =? B_VALID) with false.
    change (negb (b_dev b1 =? 1)) with false. cbn iota. step. cbn [disk]. change (b_blockno b1) with n. rewrite Hdisk.
    change (flag B_DIRTY b1) with false. cbn iota.
    erewrite bind_Ok by (apply upd_buf_again; done). apply upd_buf_again. done.
  - cbn. apply (take_buf_post s C D H i b n d); try done.
    + intros j c _. apply Hfresh.
    + intros E. right. intros Hin. apply elem_of_union in Hin as [Hin|Hin]; [|tauto].
      unfold flag in Hdirty. rewrite (v_flags _ _ _ _ V i b Hb E), decide_True in Hdirty by done. done.
    + by rewrite decide_False.
Qed.

Lemma bread_ok s C D H n d :
  bview s C D H -> n ∉ H -> C !! n = Some d -> n ∈ D \/ (size (D ∪ H) < NBUF)%nat ->
  exists i s', bread 1 n s = Ok (i, s') /\ read_post s C D H n d i s'.
Proof.
  intros V Hn HC Hroom.
  destruct (find_buf (is_for 1 n) (bufs s) (order s)) as [i|] eqn:Ef.
  - apply find_buf_Some in Ef as (b & _ & Hb & Hf). apply andb_prop in Hf as [F1 F2]. apply Z.eqb_eq in F1, F2.
    exists i. by eapply bread_cached.
  - assert (Hfresh : forall i b, bufs s !! i = Some b -> b_dev b = 1 -> b_blockno b <> n).
    { intros i b Hb E Hno. pose proof (find_buf_None _ _ _ Ef i b (in_order _ _ _ _ _ _ V Hb) Hb) as Hf.
      unfold is_for in Hf. rewrite E, Hno, !Z.eqb_refl in Hf. done. }
    apply bread_uncached; try done. destruct Hroom as [Hin|?]; [|done].
    destruct (v_cached _ _ _ _ V n) as (j & c & Hc & E & Hno); [set_solver|]. exfalso. by apply (Hfresh j c).
Qed.

(** The other buffers of blocks differ from a held one. *)
Lemma held_fresh s C D H i b j c :
  bview s C D H -> bufs s !! i = Some b -> b_dev b = 1 -> j <> i -> bufs s !! j = Some c -> b_dev c = 1 ->
  b_blockno c <> b_blockno b.
Proof. intros V Hb E Hne Hc Ec Hn. apply Hne. by eapply (v_uniq _ _ _ _ V). Qed.

Lemma buf_at_refcnt s C D H i b :
  bview s C D H -> bufs s !! i = Some b -> b_dev b = 1 -> b_lock b = Sleeplock 1 me ->
  b_blockno b ∈ H /\ refcnt b = 1.
Proof.
  intros V Hb E Hl. pose proof (v_lock _ _ _ _ V i b Hb) as Hk. destruct (decide _) as [[_ ?]|_]; [by destruct Hk|].
  destruct Hk; congruence.
Qed.

(** A change of a held buffer that keeps it held for the same block. *)
Lemma held_upd s C D H i b b' n D' C' d' w' :
  bview s C D H -> bufs s !! i = Some b -> b_dev b = 1 -> b_blockno b = n -> b_lock b = Sleeplock 1 me ->
  b_dev b' = 1 -> b_blockno b' = n -> b_lock b' = Sleeplock 1 me -> refcnt b' = 1 ->
  b_flags b' = (if decide (n ∈ D') then Z.lor B_VALID B_DIRTY else B_VALID) ->
  (forall m, m <> n -> (m ∈ D' <-> m ∈ D) /\ C' !! m = C !! m /\ d' !! m = disk s !! m) ->
  C' !! n = Some (b_data b') -> is_Some (d' !! n) ->
  bview (Bst (<[i := b']> (bufs s)) (order s) d' w') C' D' H.
Proof.
  intros V Hb E Hn Hl E' Hn' Hl' Hr' Hf Hoff HC Hd.
  destruct (buf_at_refcnt s C D H i b V Hb E Hl) as [Hin _].
  apply (bview_upd s C D H i b b' n); try done.
  - intros j c Hne Hc Ec. rewrite <- Hn. by eapply held_fresh.
  - by left.
  - rewrite decide_True; [done|]. by rewrite <- Hn.
  - intros m Hm. destruct (Hoff m Hm) as (? & ? & ?). done.
  - intros _ Hc. exfalso. apply Hc. by rewrite <- Hn.
  - exact (v_order _ _ _ _ V).
Qed.

Lemma view_in_disk s C D H n d : bview s C D H -> C !! n = Some d -> is_Some (disk s !! n).
Proof.
  intros V HC. apply elem_of_dom. rewrite <- (v_dom _ _ _ _ V). apply elem_of_dom. eauto.
Qed.

Lemma set_data_ok s C D H i n d d' :
  bview s C D H -> buf_at s i n d ->
  exists s', set_data i d' s = Ok (tt, s') /\ bview s' (<[n := d']> C) D H /\ buf_at s' i n d' /\
    disk s' = disk s /\ wlog s' = wlog s /\ forall j m e, buf_at s j m e -> j <> i -> buf_at s' j m e.
Proof.
  intros V Hat. pose proof (buf_at_view _ _ _ _ _ _ _ V Hat) as [_ HC]. destruct Hat as (b & Hb & E & Hn & Hd & Hl).
  pose proof (lookup_lt_Some _ _ _ Hb) as Hlt. unfold set_data. rewrite (upd_buf_ok _ _ _ _ Hb).
  eexists. split; [done|]. split_and!; try done.
  - apply (held_upd s C D H i b _ n); try done.
    + by apply (buf_at_refcnt s C D H i b V Hb E Hl).
    + simpl. rewrite (v_flags _ _ _ _ V i b Hb E). by rewrite Hn.
    + intros m Hm. by rewrite lookup_insert_ne.
    + by apply lookup_insert_eq.
    + by eapply view_in_disk.
  - exists (with_data d' b). split; [by apply list_lookup_insert_eq|done].
  - intros j m e Hj Hne. by apply buf_at_other.
Qed.

(** [b->flags |= B_DIRTY] of [log_write]. *)
Lemma mark_dirty_ok s C D H i n d :
  bview s C D H -> buf_at s i n d ->
  exists s', upd_buf i (fun b => with_flags (Z.lor (b_flags b) B_DIRTY) b) s = Ok (tt, s') /\
    bview s' C ({[n]} ∪ D) H /\ buf_at s' i n d /\
    disk s' = disk s /\ wlog s' = wlog s /\ forall j m e, buf_at s j m e -> buf_at s' j m e.
Proof.
  intros V Hat. pose proof (buf_at_view _ _ _ _ _ _ _ V Hat) as [_ HC]. destruct Hat as (b & Hb & E & Hn & Hd & Hl).
  pose proof (lookup_lt_Some _ _ _ Hb) as Hlt. rewrite (upd_buf_ok _ _ _ _ Hb).
  assert (Hat' : buf_at (set_bufs (<[i := with_flags (Z.lor (b_flags b) B_DIRTY) b]> (bufs s)) s) i n d).
  { eexists. split; [by apply list_lookup_insert_eq|done]. }
  eexists. split; [done|]. split_and!; try done.
  - apply (held_upd s C D H i b _ n); try done.
    + by apply (buf_at_refcnt s C D H i b V Hb E Hl).
    + simpl. rewrite (v_flags _ _ _ _ V i b Hb E), (decide_True (P := n ∈ {[n]} ∪ D)) by set_solver.
      by destruct (decide (b_blockno b ∈ D)).
    + intros m Hm. set_solver.
    + simpl. congruence.
    + by eapply view_in_disk.
  - intros j m e Hj. destruct (decide (j = i)) as [-> |Hne]; [|by apply buf_at_other].
    destruct Hj as (c & Hc & Ec & Hnc & Hdc & Hlc). rewrite Hb in Hc. simplify_eq. exact Hat'.
Qed.

Lemma bwrite_ok s C D H i n d :
  bview s C D H -> buf_at s i n d ->
  exists s', bwrite i s = Ok (tt, s') /\ bview s' C (D ∖ {[n]}) H /\ buf_at s' i n d /\
    disk s' = <[n := d]> (disk s) /\ wlog s' = wlog s ++ [(n, d)] /\
    forall j m e, buf_at s j m e -> buf_at s' j m e.
Proof.
  intros V Hat. pose proof (buf_at_view _ _ _ _ _ _ _ V Hat) as [_ HC].
  destruct (view_in_disk _ _ _ _ _ _ V HC) as [old Hold].
  destruct Hat as (b & Hb & E & Hn & Hd & Hl). pose proof (lookup_lt_Some _ _ _ Hb) as Hlt.
  set (fl := Z.lor (b_flags b) B_DIRTY). set (b1 := with_flags fl b).
  assert (Hfl : fl = 6).
  { unfold fl. rewrite (v_flags _ _ _ _ V i b Hb E). by destruct (decide _). }
  set (b2 := with_flags B_VALID b).
  exists (Bst (<[i := b2]> (bufs s)) (order s) (<[n := d]> (disk s)) (wlog s ++ [(n, d)])).
  assert (Hat' : buf_at (Bst (<[i := b2]> (bufs s)) (order s) (<[n := d]> (disk s)) (wlog s ++ [(n, d)])) i n d).
  { exists b2. split; [by apply list_lookup_insert_eq|done]. }
  split.
  - unfold bwrite. rewrite (bind_Ok _ _ _ _ _ (holding_buf_ok _ _ _ Hb Hl)). cbn [negb].
    rewrite (bind_Ok _ _ _ _ _ (upd_buf_ok _ _ _ _ Hb)). unfold set_bufs. fold fl. fold b1. unfold iderw.
    erewrite bind_Ok by (eapply (holding_buf_ok _ _ b1); [by apply list_lookup_insert_eq|done]). cbn [negb].
    rewrite (bind_Ok _ _ _ _ _ (get_buf_new i _ _ _ _ _ Hlt)).
    assert (F1 : Z.land (b_flags b1) (Z.lor B_VALID B_DIRTY) =? B_VALID = false) by (simpl; by rewrite Hfl).
    assert (F2 : negb (b_dev b1 =? 1) = false) by (simpl; by rewrite E).
    assert (F3 : flag B_DIRTY b1 = true) by (unfold flag; simpl; by rewrite Hfl).
    rewrite F1, F2, F3. step. cbn [disk]. change (b_blockno b1) with (b_blockno b). rewrite Hn, Hold.
    erewrite bind_Ok by (rewrite (bind_Ok _ _ _ _ _ (upd_buf_again _ _ _ _ _ _ _ Hlt)); reflexivity).
    unfold set_disk. simpl. rewrite Hd. rewrite upd_buf_again by done.
    unfold b2, b1, with_flags. simpl. rewrite Hfl. done.
  - split; [|split_and!; try done].
    + apply (held_upd s C D H i b b2 n); try done.
      * by apply (buf_at_refcnt s C D H i b V Hb E Hl).
      * by rewrite decide_False by set_solver.
      * intros m Hm. rewrite lookup_insert_ne by done. set_solver.
      * simpl. congruence.
      * rewrite lookup_insert_eq. eauto.
    + intros j m e Hj. destruct (decide (j = i)) as [-> |Hne]; [|by apply buf_at_other].
      destruct Hj as (c & Hc & Ec & Hnc & Hdc & Hlc). rewrite Hb in Hc. simplify_eq. exact Hat'.
Qed.

Lemma move_to_front o i : o ≡ₚ seq 0 NBUF -> (i < NBUF)%nat -> i :: filter (fun j => j <> i) o ≡ₚ seq 0 NBUF.
Proof.
  intros Ho Hi. assert (Hnd : NoDup o) by (rewrite Ho; apply NoDup_seq).
  apply NoDup_Permutation; [|apply NoDup_seq|].
  - apply NoDup_cons. split; [|by apply NoDup_filter]. intros Hin. apply list_elem_of_filter in Hin as [? _]. done.
  - intros j. rewrite elem_of_cons, list_elem_of_filter, Ho, elem_of_seq. lia.
Qed.

Lemma brelse_ok s C D H i n d :
  bview s C D H -> buf_at s i n d -> n ∈ D \/ disk s !! n = Some d ->
  exists s', brelse i s = Ok (tt, s') /\ bview s' C D (H ∖ {[n]}) /\
    disk s' = disk s /\ wlog s' = wlog s /\
    forall j m e, buf_at s j m e -> j <> i -> buf_at s' j m e.
Proof.
  intros V Hat Hclean. pose proof (buf_at_view _ _ _ _ _ _ _ V Hat) as [_ HC].
  destruct Hat as (b & Hb & E & Hn & Hd & Hl). pose proof (lookup_lt_Some _ _ _ Hb) as Hlt.
  destruct (buf_at_refcnt s C D H i b V Hb E Hl) as [Hin Hr].
  set (b2 := with_refcnt 0 (with_lock (Sleeplock 0 0) b)).
  exists (Bst (<[i := b2]> (bufs s)) (i :: filter (fun j => j <> i) (order s)) (disk s) (wlog s)). split.
  - unfold brelse. rewrite (bind_Ok _ _ _ _ _ (holding_buf_ok _ _ _ Hb Hl)). cbn [negb].
    unfold unlock_buf. rewrite (bind_Ok _ _ _ _ _ (upd_buf_ok _ _ _ _ Hb)). unfold set_bufs.
    erewrite bind_Ok by (apply upd_buf_again; done).
    rewrite (bind_Ok _ _ _ _ _ (get_buf_new i _ _ _ _ _ Hlt)).
    unfold with_refcnt at 1. cbn [refcnt with_lock]. rewrite Hr. unfold b2, with_refcnt, with_lock. done.
  - split; [|split_and!; try done].
    + apply (bview_upd s C D H i b b2 n); try done.
      * intros j c Hne Hc Ec. rewrite <- Hn. by eapply held_fresh.
      * by left.
      * by rewrite decide_False by set_solver.
      * simpl. rewrite (v_flags _ _ _ _ V i b Hb E). by rewrite Hn.
      * intros m Hm. set_solver.
      * simpl. congruence.
      * by eapply view_in_disk.
      * intros HnD _. simpl. destruct Hclean; [done|congruence].
      * apply move_to_front; [exact (v_order _ _ _ _ V)|]. rewrite <- (v_len _ _ _ _ V). done.
    + intros j m e Hj Hne. by apply buf_at_other.
Qed.

Lemma size_list_to_set_le (l : list Z) : (size (list_to_set l : gset Z) <= length l)%nat.
Proof.
  induction l as [|x l IH]; [rewrite list_to_set_nil, size_empty; done|].
  rewrite list_to_set_cons, size_union_alt, size_singleton.
  assert (Hs : (size ((list_to_set l : gset Z) ∖ {[x]}) <= size (list_to_set l : gset Z))%nat)
    by (apply subseteq_size; set_solver). simpl. lia.
Qed.

(** With [NBUF] blocks dirty or held, every buffer is for one of them. *)
Lemma all_pinned s C D H i b :
  bview s C D H -> size (D ∪ H) = NBUF -> bufs s !! i = Some b -> b_dev b = 1 /\ b_blockno b ∈ D ∪ H.
Proof.
  intros V Hsz Hb. destruct (decide (b_dev b = 1 /\ b_blockno b ∈ D ∪ H)) as [?|Hn]; [done|exfalso].
  assert (Hsub : D ∪ H ⊆ list_to_set (b_blockno <$> delete i (bufs s))).
  { intros n Hin. destruct (v_cached _ _ _ _ V n Hin) as (j & c & Hc & E & Hno).
    apply elem_of_list_to_set, list_elem_of_fmap. exists c. split; [done|].
    assert (j <> i) by (intros ->; rewrite Hb in Hc; injection Hc as ->; apply Hn; by rewrite Hno).
    rewrite <- (take_drop_middle _ _ _ Hb) in Hc. rewrite delete_take_drop.
    apply list_elem_of_lookup. apply lookup_app_Some in Hc as [Hc|[Hle Hc]].
    - exists j. by apply lookup_app_l_Some.
    - pose proof (lookup_lt_Some _ _ _ Hb). assert (Hlt : length (take i (bufs s)) = i) by (rewrite length_take; lia).
      rewrite Hlt in Hle, Hc. exists (j - 1)%nat. rewrite lookup_app_r, Hlt by lia.
      replace (j - i)%nat with (S (j - 1 - i)) in Hc by lia. done. }
  apply subseteq_size in Hsub. rewrite Hsz in Hsub.
  assert (Hle : (size (list_to_set (b_blockno <$> delete i (bufs s)) : gset Z) <= length (delete i (bufs s)))%nat).
  { etransitivity; [apply size_list_to_set_le|]. by rewrite length_fmap. }
  pose proof (length_delete _ _ (ex_intro _ b Hb)) as Hd. rewrite (v_len _ _ _ _ V) in Hd. unfold NBUF in *. lia.
Qed.

Lemma bread_no_buffers s C D H n :
  bview s C D H -> size (D ∪ H) = NBUF -> n ∉ D ∪ H -> bread 1 n s = Panic "bget: no buffers".
Proof.
  intros V Hsz Hn. unfold bread, bget, bind. simpl.
  destruct (find_buf (is_for 1 n) (bufs s) (order s)) as [i|] eqn:Ef.
  { apply find_buf_Some in Ef as (b & _ & Hb & Hf). apply andb_prop in Hf as [_ Hf]. apply Z.eqb_eq in Hf.
    exfalso. apply Hn. rewrite <- Hf. by apply (all_pinned s C D H i b V Hsz Hb). }
  destruct (find_buf unused (bufs s) (rev (order s))) as [i|] eqn:Eu; [|done]. exfalso.
  apply find_buf_Some in Eu as (b & _ & Hb & Hf). apply andb_prop in Hf as [Hr Hd]. apply Z.eqb_eq in Hr.
  destruct (all_pinned s C D H i b V Hsz Hb) as [E Hin]. pose proof (v_lock _ _ _ _ V i b Hb) as Hk.
  destruct (decide _) as [_|HnH]; [lia|]. assert (HD : b_blockno b ∈ D) by set_solver.
  unfold flag in Hd. rewrite (v_flags _ _ _ _ V i b Hb E), decide_True in Hd by done. done.
Qed.

(** ** A fresh cache *)

Definition fresh_buf : buf := Buf 0 0 0 initsleeplock 0 [].

Definition fresh (d : gmap Z block) : bst := after binit (Bst (replicate NBUF fresh_buf) [] d []).

Lemma fresh_view d : bview (fresh d) d ∅ ∅.
Proof.
  assert (Hb : forall i b, bufs (fresh d) !! i = Some b -> b = fresh_buf).
  { intros i b Hb. assert (Hf : bufs (fresh d) = replicate NBUF fresh_buf) by done. rewrite Hf in Hb.
    by apply lookup_replicate in Hb as [-> _]. }
  constructor; try (intros i b Hb'; apply Hb in Hb' as ->).
  - done.
  - simpl. symmetry. apply Permutation_rev.
  - rewrite decide_False; [done|]. by intros [? _].
  - intros i j b c Hi Hj E. apply Hb in Hi as ->. done.
  - by right.
  - done.
  - done.
  - done.
  - done.
  - intros n Hn. rewrite union_empty_r_L in Hn. by apply not_elem_of_empty in Hn.
Qed.

(** ** Property *)

(** C19: reading a block that no one holds gives a locked buffer with the
    block's current content, that is what was last put there and, for a block
    not in use, what is on the disk; the cache changes for no other block, and
    the disk not at all.  The only failure is that all [NBUF] buffers are
    dirty or held, which is a panic. *)
Theorem bread_returns_current_content s C D H n d :
  bview s C D H -> n ∉ H -> C !! n = Some d ->
  ((n ∈ D \/ (size (D ∪ H) < NBUF)%nat) ->
   exists i s', bread 1 n s = Ok (i, s') /\ bview s' C D ({[n]} ∪ H) /\ buf_at s' i n d /\
     disk s' = disk s /\ (forall j m e, buf_at s j m e -> buf_at s' j m e)) /\
  (n ∉ D -> size (D ∪ H) = NBUF -> bread 1 n s = Panic "bget: no buffers") /\
  (n ∉ D -> disk s !! n = Some d).
Proof.
  intros V Hn HC. split_and!.
  - intros Hroom. destruct (bread_ok s C D H n d V Hn HC Hroom) as (i & s' & Hr & Hv & Ha & Hd & _ & Ho). by exists i, s'.
  - intros HD Hsz. apply (bread_no_buffers s C D H); [done|done|set_solver].
  - intros HD. by rewrite <- (v_disk _ _ _ _ V n HD Hn).
Qed.

End code.

Lemma bread_returns_current_content_witness :
  exists i s', bread 7 1 5 (fresh {[5 := [42]]}) = Ok (i, s') /\ buf_at 7 s' i 5 [42].
Proof.
  destruct (bread_returns_current_content 7 (fresh {[5 := [42]]}) {[5 := [42]]} ∅ ∅ 5 [42] (fresh_view 7 _)
              (not_elem_of_empty _) ltac:(by vm_compute)) as [H _].
  destruct H as (i & s' & H1 & _ & H2 & _); [right; vm_compute; lia|]. exists i, s'. split; [exact H1|exact H2].
Defined.
