(* ===== verification/Log.v ===== *)
(** * The redo log

    Models [log.c] over the buffer cache.  [me] is the pid of the process that
    runs; where the code would put it to sleep to wait for another process,
    the model answers [Spin]. *)

From S2P Require Import Prelude Block Sleeplock Bio.

Definition MAXOPBLOCKS : Z := 10.
Definition LOGSIZE : Z := MAXOPBLOCKS * 3.

(** [struct logheader]: [n] at offset 0, [block[i]] behind it. *)
Definition lh_n (b : block) : Z := get_i32 0 b.
Definition lh_block (i : nat) (b : block) : Z := get_i32 (4 + 4 * i) b.
Definition set_lh_n (n : Z) (b : block) : block := put_u32 0 n b.
Definition set_lh_block (i : nat) (v : Z) (b : block) : block := put_u32 (4 + 4 * i) v b.

Record log := Log {
  lg_start : Z;
  lg_size : Z;
  outstanding : Z;
  committing : Z;
  lg_dev : Z;
  lg_n : Z;             (* lh.n *)
  lg_block : list Z     (* lh.block *)
}.

Record lst := Lst { bio : bst; lg : log }.

Definition set_bio v s := Lst v (lg s).
Definition set_lg v s := Lst (bio s) v.

Definition with_outstanding v l := Log (lg_start l) (lg_size l) v (committing l) (lg_dev l) (lg_n l) (lg_block l).
Definition with_committing v l := Log (lg_start l) (lg_size l) (outstanding l) v (lg_dev l) (lg_n l) (lg_block l).
Definition with_n v l := Log (lg_start l) (lg_size l) (outstanding l) (committing l) (lg_dev l) v (lg_block l).
Definition with_block v l := Log (lg_start l) (lg_size l) (outstanding l) (committing l) (lg_dev l) (lg_n l) v.

Section code.

Context (me : Z).

Definition on_bio {A} (c : M bst A) : M lst A := zoom bio set_bio c.

Definition upd_lg (f : log -> log) : M lst unit := modify (fun s => set_lg (f (lg s)) s).

(** [b->data] *)
Definition data_of (i : nat) : M lst block := on_bio (let* b := get_buf i in ret (b_data b)).

Definition blockno_of (i : nat) : M lst Z := on_bio (let* b := get_buf i in ret (b_blockno b)).

(** [log.lh.block[i]], an access outside the array being a fault. *)
Definition get_block (i : nat) : M lst Z := fun s =>
  match lg_block (lg s) !! i with Some v => Ok (v, s) | None => Fault end.

Definition put_block (i : nat) (v : Z) : M lst unit := fun s =>
  if decide (i < length (lg_block (lg s)))%nat
  then Ok (tt, set_lg (with_block (<[i := v]> (lg_block (lg s))) (lg s)) s) else Fault.

(** ** Copying between the log and the home blocks *)

(** [install_trans]: [n] entries from [tail] on. *)
Fixpoint install_loop (n : nat) (tail : nat) : M lst unit :=
  match n with
  | O => ret tt
  | S n' =>
      let* l := gets lg in
      let* lbuf := on_bio (bread me (lg_dev l) (lg_start l + Z.of_nat tail + 1)) in
      let* dst := get_block tail in
      let* dbuf := on_bio (bread me (lg_dev l) dst) in
      let* d := data_of lbuf in
      on_bio (set_data dbuf d) ;;;
      on_bio (bwrite me dbuf) ;;;
      on_bio (brelse me lbuf) ;;;
      on_bio (brelse me dbuf) ;;;
      install_loop n' (S tail)
  end.

Definition install_trans : M lst unit :=
  let* l := gets lg in install_loop (Z.to_nat (lg_n l)) 0.

(** [write_log]: [n] entries from [tail] on. *)
Fixpoint write_log_loop (n : nat) (tail : nat) : M lst unit :=
  match n with
  | O => ret tt
  | S n' =>
      let* l := gets lg in
      let* to := on_bio (bread me (lg_dev l) (lg_start l + Z.of_nat tail + 1)) in
      let* src := get_block tail in
      let* from := on_bio (bread me (lg_dev l) src) in
      let* d := data_of from in
      on_bio (set_data to d) ;;;
      on_bio (bwrite me to) ;;;
      on_bio (brelse me from) ;;;
      on_bio (brelse me to) ;;;
      write_log_loop n' (S tail)
  end.

Definition write_log : M lst unit :=
  let* l := gets lg in write_log_loop (Z.to_nat (lg_n l)) 0.

(** ** The header *)

Fixpoint read_head_loop (n : nat) (i : nat) (d : block) : M lst unit :=
  match n with
  | O => ret tt
  | S n' => put_block i (lh_block i d) ;;; read_head_loop n' (S i) d
  end.

Definition read_head : M lst unit :=
  let* l := gets lg in
  let* b := on_bio (bread me (lg_dev l) (lg_start l)) in
  let* d := data_of b in
  upd_lg (with_n (lh_n d)) ;;;
  read_head_loop (Z.to_nat (lh_n d)) 0 d ;;;
  on_bio (brelse me b).

(** The entries [bl] of the in-memory header, from index [i] on, into [d]. *)
Fixpoint put_entries (i : nat) (bl : list Z) (d : block) : block :=
  match bl with
  | [] => d
  | v :: bl' => put_entries (S i) bl' (set_lh_block i v d)
  end.

Definition write_head : M lst unit :=
  let* l := gets lg in
  let* b := on_bio (bread me (lg_dev l) (lg_start l)) in
  let* d := data_of b in
  on_bio (set_data b (put_entries 0 (take (Z.to_nat (lg_n l)) (lg_block l)) (set_lh_n (lg_n l) d))) ;;;
  on_bio (bwrite me b) ;;;
  on_bio (brelse me b).

Definition recover_from_log : M lst unit :=
  read_head ;;;
  install_trans ;;;
  upd_lg (with_n 0) ;;;
  write_head.

(** [sblogstart] and [sbnlog] are the fields of the superblock, block 1. *)
Definition sb_nlog (b : block) : Z := get_u32 12 b.
Definition sb_logstart (b : block) : Z := get_u32 16 b.

Definition initlog (dev : Z) : M lst unit :=
  let* b := on_bio (bread me dev 1) in
  let* d := data_of b in
  on_bio (brelse me b) ;;;
  upd_lg (fun l => Log (i32 (sb_logstart d)) (i32 (sb_nlog d)) (outstanding l) (committing l) dev (lg_n l) (lg_block l)) ;;;
  recover_from_log.

(** ** Transactions *)

Definition begin_op : M lst unit :=
  let* l := gets lg in
  if negb (committing l =? 0) then fun _ => Spin
  else if LOGSIZE <? lg_n l + (outstanding l + 1) * MAXOPBLOCKS then fun _ => Spin
  else upd_lg (with_outstanding (outstanding l + 1)).

Definition commit : M lst unit :=
  let* l := gets lg in
  if 0 <? lg_n l then
    write_log ;;;
    write_head ;;;
    install_trans ;;;
    upd_lg (with_n 0) ;;;
    write_head
  else ret tt.

Definition end_op : M lst unit :=
  upd_lg (fun l => with_outstanding (outstanding l - 1) l) ;;;
  let* l := gets lg in
  if negb (committing l =? 0) then panic "log.committing"
  else if outstanding l =? 0 then
    upd_lg (with_committing 1) ;;;
    commit ;;;
    upd_lg (with_committing 0)
  else ret tt.

(** The index of [blockno] in the first entries [bl], their number if absent. *)
Fixpoint absorb (blockno : Z) (bl : list Z) : nat :=
  match bl with
  | [] => O
  | v :: bl' => if v =? blockno then O else S (absorb blockno bl')
  end.

Definition log_write (b : nat) : M lst unit :=
  let* l := gets lg in
  if (LOGSIZE <=? lg_n l) || (lg_size l - 1 <=? lg_n l) then panic "too big a transaction"
  else if outstanding l <? 1 then panic "log_write outside of trans"
  else
    let* n := blockno_of b in
    let i := absorb n (take (Z.to_nat (lg_n l)) (lg_block l)) in
    put_block i n ;;;
    (if Z.of_nat i =? lg_n l then upd_lg (with_n (lg_n l + 1)) else ret tt) ;;;
    on_bio (upd_buf b (fun b => with_flags (Z.lor (b_flags b) B_DIRTY) b)).

(** ** Single steps *)

Lemma on_bio_Ok {A} (c : M bst A) s x b : c (bio s) = Ok (x, b) -> on_bio c s = Ok (x, set_bio b s).
Proof. apply zoom_Ok. Qed.

Lemma data_of_ok b l i n d : buf_at me b i n d -> data_of i (Lst b l) = Ok (d, Lst b l).
Proof.
  intros (x & Hx & _ & _ & Hd & _). unfold data_of. rewrite (on_bio_Ok _ _ d b); [done|].
  rewrite (bind_Ok _ _ _ _ _ (get_buf_ok _ _ _ Hx)). simpl. by rewrite Hd.
Qed.

(** The writes [tr] applied to a disk, in order. *)
Definition apply_writes (tr : list (Z * block)) (d : gmap Z block) : gmap Z block :=
  fold_left (fun d w => <[w.1 := w.2]> d) tr d.

Lemma apply_writes_app t1 t2 d : apply_writes (t1 ++ t2) d = apply_writes t2 (apply_writes t1 d).
Proof. apply fold_left_app. Qed.

(** [b'] is [b] after the writes [tr]. *)
Definition wrote (tr : list (Z * block)) (b b' : bst) : Prop :=
  disk b' = apply_writes tr (disk b) /\ wlog b' = wlog b ++ tr.

Lemma wrote_nil b b' : disk b' = disk b -> wlog b' = wlog b -> wrote [] b b'.
Proof. intros Hd Hw. split; [done|]. by rewrite app_nil_r. Qed.

Lemma wrote_trans t1 t2 b1 b2 b3 : wrote t1 b1 b2 -> wrote t2 b2 b3 -> wrote (t1 ++ t2) b1 b3.
Proof. intros [D1 W1] [D2 W2]. split; [by rewrite apply_writes_app, D2, D1|]. by rewrite W2, W1, app_assoc. Qed.

(** Two different blocks read one after the other. *)
Lemma read_two b l C D x y dx dy :
  bview me b C D ∅ -> x <> y -> C !! x = Some dx -> C !! y = Some dy ->
  x ∈ D \/ (size D < NBUF)%nat -> y ∈ D \/ (size ({[x]} ∪ D) < NBUF)%nat ->
  exists b1 b2 i j, bread me 1 x b = Ok (i, b1) /\ bread me 1 y b1 = Ok (j, b2) /\
    bview me b2 C D {[x; y]} /\ buf_at me b2 i x dx /\ buf_at me b2 j y dy /\ i <> j /\ wrote [] b b2 /\
    (forall A (c : M lst A), (let* i := on_bio (bread me 1 x) in c) (Lst b l) = c (Lst b1 l)).
Proof.
  intros V Hne Hx Hy Rx Ry.
  destruct (bread_ok me b C D ∅ x dx V) as (i & b1 & H1 & V1 & A1 & D1 & W1 & _);
    [set_solver|done|by rewrite union_empty_r_L|].
  destruct (bread_ok me b1 C D ({[x]} ∪ ∅) y dy V1) as (j & b2 & H2 & V2 & A2 & D2 & W2 & O2);
    [set_solver|done|rewrite union_empty_r_L, union_comm_L; done|].
  exists b1, b2, i, j. replace ({[y]} ∪ ({[x]} ∪ ∅)) with ({[x; y]} : gset Z) in V2 by set_solver.
  split_and!; try done; [eauto| |apply wrote_nil; congruence|].
  - intros ->. destruct (O2 _ _ _ A1) as (c & Hc & _ & Hn & _). destruct A2 as (c' & Hc' & _ & Hn' & _). congruence.
  - intros A c. by rewrite (bind_Ok _ _ _ _ _ (on_bio_Ok _ (Lst b l) _ _ H1)).
Qed.

(** The copy that follows, from the buffer [j] of block [y] to the buffer [i] of block [x]. *)
Lemma copy_block b l C D x y i j dx dy (k : M lst unit) :
  bview me b C D {[x; y]} -> x <> y -> i <> j -> buf_at me b i x dx -> buf_at me b j y dy ->
  y ∈ D \/ disk b !! y = Some dy ->
  exists b', (let* d := data_of j in
     on_bio (set_data i d) ;;; on_bio (bwrite me i) ;;; on_bio (brelse me j) ;;; on_bio (brelse me i) ;;; k) (Lst b l)
     = k (Lst b' l) /\
    bview me b' (<[x := dy]> C) (D ∖ {[x]}) ∅ /\ wrote [(x, dy)] b b'.
Proof.
  intros V Hne Hij Ai Aj Hy. rewrite (bind_Ok _ _ _ _ _ (data_of_ok b l j y dy Aj)).
  destruct (set_data_ok me b C D _ i x dx dy V Ai) as (b1 & H1 & V1 & A1 & D1 & W1 & O1).
  rewrite (bind_Ok _ _ _ _ _ (on_bio_Ok _ (Lst b l) _ _ H1)). unfold set_bio. cbn [lg].
  destruct (bwrite_ok me b1 _ D _ i x dy V1 A1) as (b2 & H2 & V2 & A2 & D2 & W2 & O2).
  rewrite (bind_Ok _ _ _ _ _ (on_bio_Ok _ (Lst b1 l) _ _ H2)). unfold set_bio. cbn [lg].
  pose proof (O2 _ _ _ (O1 _ _ _ Aj ltac:(done))) as Aj2.
  destruct (brelse_ok me b2 _ _ _ j y dy V2 Aj2) as (b3 & H3 & V3 & D3 & W3 & O3).
  { destruct Hy as [Hy|Hy]; [left; set_solver|right]. by rewrite D2, lookup_insert_ne, D1. }
  rewrite (bind_Ok _ _ _ _ _ (on_bio_Ok _ (Lst b2 l) _ _ H3)). unfold set_bio. cbn [lg].
  destruct (brelse_ok me b3 _ _ _ i x dy V3 (O3 _ _ _ A2 ltac:(done))) as (b4 & H4 & V4 & D4 & W4 & _).
  { right. by rewrite D3, D2, lookup_insert_eq. }
  rewrite (bind_Ok _ _ _ _ _ (on_bio_Ok _ (Lst b3 l) _ _ H4)). unfold set_bio. cbn [lg].
  exists b4. split; [done|]. split.
  - replace (({[x; y]} : gset Z) ∖ {[y]} ∖ {[x]}) with (∅ : gset Z) in V4 by set_solver. done.
  - split; [rewrite D4, D3, D2, D1; done|]. by rewrite W4, W3, W2, W1.
Qed.

(** ** The loops *)

Lemma diff_size (D : gset Z) v : (size (D ∖ {[v]}) <= size D)%nat.
Proof. apply subseteq_size. set_solver. Qed.

Lemma diff_notin (D : gset Z) v : v ∉ D -> D ∖ {[v]} = D.
Proof. set_solver. Qed.

Lemma diff_diff (D X : gset Z) v : D ∖ {[v]} ∖ X = D ∖ ({[v]} ∪ X).
Proof. set_solver. Qed.

Lemma empty_diff (X : gset Z) : ∅ ∖ X = ∅.
Proof. set_solver. Qed.

Lemma pair_comm (x y : Z) : ({[x; y]} : gset Z) = {[y; x]}.
Proof. set_solver. Qed.

(** The log blocks written for the entries [es], pairs of a home block and
    its content, from slot [tail] on; the entries themselves are the writes
    to the home blocks. *)
Fixpoint log_writes (start : Z) (tail : nat) (es : list (Z * block)) : list (Z * block) :=
  match es with
  | [] => []
  | e :: es' => (start + Z.of_nat tail + 1, e.2) :: log_writes start (S tail) es'
  end.

(** Slot [tail + k] of the header is the home block of entry [k]. *)
Definition slots (l : log) (tail : nat) (es : list (Z * block)) : Prop :=
  forall k e, es !! k = Some e -> lg_block l !! (tail + k)%nat = Some e.1.

Lemma slots_cons l tail e es :
  slots l tail (e :: es) -> lg_block l !! tail = Some e.1 /\ slots l (S tail) es.
Proof.
  intros H. split; [specialize (H 0%nat e eq_refl); by rewrite Nat.add_0_r in H|].
  intros k x Hk. specialize (H (S k) x Hk). by rewrite Nat.add_succ_r in H.
Qed.

Lemma get_block_ok b l i v : lg_block l !! i = Some v -> get_block i (Lst b l) = Ok (v, Lst b l).
Proof. intros H. unfold get_block. simpl. by rewrite H. Qed.

Definition logblk (l : log) (k : nat) : Z := lg_start l + Z.of_nat k + 1.

Lemma write_log_loop_ok l D es : forall tail b C,
  bview me b C D ∅ -> lg_dev l = 1 -> (size D < NBUF)%nat -> slots l tail es ->
  (forall e, e ∈ es -> e.1 ∈ D /\ C !! e.1 = Some e.2) ->
  (forall k, (k < length es)%nat -> is_Some (C !! logblk l (tail + k)) /\ logblk l (tail + k) ∉ D) ->
  exists b', write_log_loop (length es) tail (Lst b l) = Ok (tt, Lst b' l) /\
    bview me b' (apply_writes (log_writes (lg_start l) tail es) C) D ∅ /\
    wrote (log_writes (lg_start l) tail es) b b'.
Proof.
  induction es as [|[v c] es IH]; intros tail b C V Hdev Hsz Hsl Hes Hlog.
  { exists b. split_and!; try done. by apply wrote_nil. }
  apply slots_cons in Hsl as [Hv Hsl]. destruct (Hes (v, c) ltac:(left)) as [HvD HvC]. simpl in HvD, HvC, Hv.
  destruct (Hlog 0%nat ltac:(simpl; lia)) as [[e He] HnD]. rewrite Nat.add_0_r in He, HnD.
  assert (Hne : logblk l tail <> v) by (intros E; by rewrite E in HnD).
  destruct (read_two b l C D (logblk l tail) v e c V Hne He HvC) as (b1 & b2 & i & j & H1 & H2 & V2 & A1 & A2 & Hij & W2 & Hk1);
    [by right|by left|].
  cbn [length write_log_loop]. step. cbn [lg]. rewrite Hdev. fold (logblk l tail).
  rewrite (bind_Ok _ _ _ _ _ (on_bio_Ok _ (Lst b l) _ _ H1)). unfold set_bio. cbn [lg].
  rewrite (bind_Ok _ _ _ _ _ (get_block_ok b1 l tail v Hv)).
  rewrite (bind_Ok _ _ _ _ _ (on_bio_Ok _ (Lst b1 l) _ _ H2)). unfold set_bio. cbn [lg].
  destruct (copy_block b2 l C D _ v i j e c (write_log_loop (length es) (S tail)) V2 Hne Hij A1 A2) as (b3 & -> & V3 & W3);
    [by left|].
  rewrite (diff_notin D _ HnD) in V3.
  destruct (IH (S tail) b3 _ V3 Hdev Hsz Hsl) as (b4 & -> & V4 & W4).
  - intros x Hx. destruct (Hes x ltac:(by right)) as [Hx1 Hx2]. split; [done|]. rewrite lookup_insert_ne; [done|].
    intros E. rewrite E in HnD. done.
  - intros k Hk. destruct (Hlog (S k) ltac:(simpl; lia)) as [Hs Hn]. rewrite Nat.add_succ_r in Hs, Hn. split; [|done].
    destruct (decide (logblk l (S tail + k) = logblk l tail)) as [E|E]; [rewrite E, lookup_insert_eq; eauto|].
    by rewrite lookup_insert_ne.
  - exists b4. split; [done|]. split; [done|].
    apply (wrote_trans [] _ b b2 b4 W2). apply (wrote_trans [_] _ b2 b3 b4 W3 W4).
Qed.

Lemma install_loop_ok l es : forall tail b C D,
  bview me b C D ∅ -> lg_dev l = 1 -> slots l tail es -> NoDup es.*1 ->
  ((size D < NBUF)%nat /\ forall e, e ∈ es -> e.1 ∈ D) \/ D = ∅ ->
  (forall e, e ∈ es -> is_Some (C !! e.1)) ->
  (forall k e, es !! k = Some e -> C !! logblk l (tail + k) = Some e.2 /\ logblk l (tail + k) ∉ D) ->
  (forall k e, (k < length es)%nat -> e ∈ es -> e.1 <> logblk l (tail + k)) ->
  exists b', install_loop (length es) tail (Lst b l) = Ok (tt, Lst b' l) /\
    bview me b' (apply_writes es C) (D ∖ list_to_set es.*1) ∅ /\ wrote es b b'.
Proof.
  induction es as [|[v c] es IH]; intros tail b C D V Hdev Hsl Hnd Hroom HesC Hlog Hdis.
  { exists b. simpl. rewrite difference_empty_L. split_and!; try done. by apply wrote_nil. }
  apply slots_cons in Hsl as [Hv Hsl]. csimpl in Hnd. apply NoDup_cons in Hnd as [Hvn Hnd]. simpl in Hv.
  destruct (HesC (v, c) ltac:(left)) as [old Hold]. simpl in Hold.
  destruct (Hlog 0%nat (v, c) eq_refl) as [Hlc HlD]. rewrite Nat.add_0_r in Hlc, HlD. simpl in Hlc.
  assert (Hne : logblk l tail <> v).
  { pose proof (Hdis 0%nat (v, c) ltac:(simpl; lia) ltac:(left)) as Hd. rewrite Nat.add_0_r in Hd. simpl in Hd. congruence. }
  destruct (read_two b l C D (logblk l tail) v c old V Hne Hlc Hold) as (b1 & b2 & i & j & H1 & H2 & V2 & A1 & A2 & Hij & W2 & _).
  { right. destruct Hroom as [[? _]|E]; [done|]. rewrite E, size_empty. unfold NBUF. lia. }
  { destruct Hroom as [[_ Hr]|E]; [left; exact (Hr (v, c) ltac:(left))|right].
    rewrite E, union_empty_r_L, size_singleton. unfold NBUF. lia. }
  cbn [length install_loop]. step. cbn [lg]. rewrite Hdev. fold (logblk l tail).
  rewrite (bind_Ok _ _ _ _ _ (on_bio_Ok _ (Lst b l) _ _ H1)). unfold set_bio. cbn [lg].
  rewrite (bind_Ok _ _ _ _ _ (get_block_ok b1 l tail v Hv)).
  rewrite (bind_Ok _ _ _ _ _ (on_bio_Ok _ (Lst b1 l) _ _ H2)). unfold set_bio. cbn [lg].
  rewrite pair_comm in V2.
  destruct (copy_block b2 l C D v _ j i old c (install_loop (length es) (S tail)) V2) as (b3 & -> & V3 & W3); try done.
  { right. destruct W2 as [-> _]. simpl. rewrite <- (v_disk _ _ _ _ _ V); [done|done|apply not_elem_of_empty]. }
  destruct (IH (S tail) b3 _ _ V3 Hdev Hsl Hnd) as (b4 & -> & V4 & W4).
  - destruct Hroom as [[Hr1 Hr2]|E]; [left|right; by rewrite E, empty_diff]. split.
    + pose proof (diff_size D v). lia.
    + intros e He. specialize (Hr2 e ltac:(by right)). apply elem_of_difference. split; [done|].
      intros Hin. apply elem_of_singleton in Hin. apply Hvn. apply list_elem_of_fmap. eauto.
  - intros e He. destruct (decide (e.1 = v)) as [E|E]; [rewrite E, lookup_insert_eq; eauto|].
    rewrite lookup_insert_ne by done. apply HesC. by right.
  - intros k e He. destruct (Hlog (S k) e He) as [Hs Hn]. rewrite Nat.add_succ_r in Hs, Hn.
    split; [|by intros [Hin _]%elem_of_difference].
    rewrite lookup_insert_ne; [done|]. pose proof (Hdis (S k) (v, c)) as Hd. rewrite Nat.add_succ_r in Hd.
    apply Hd; [simpl; apply lookup_lt_Some in He; lia|left].
  - intros k e Hk He. pose proof (Hdis (S k) e) as Hd. rewrite Nat.add_succ_r in Hd. apply Hd; [simpl; lia|by right].
  - exists b4. split; [done|]. split.
    + csimpl. rewrite <- diff_diff. done.
    + apply (wrote_trans [] _ b b2 b4 W2). apply (wrote_trans [_] _ b2 b3 b4 W3 W4).
Qed.

(** ** The header *)

Definition header (l : log) (h : block) : block :=
  put_entries 0 (take (Z.to_nat (lg_n l)) (lg_block l)) (set_lh_n (lg_n l) h).

Lemma put_entries_n bl : forall i d,
  (4 + 4 * (i + length bl) <= length d)%nat ->
  lh_n (put_entries i bl d) = lh_n d /\ length (put_entries i bl d) = length d.
Proof.
  induction bl as [|v bl IH]; intros i d Hl; simpl in *; [done|].
  assert (Hld : length (set_lh_block i v d) = length d) by (apply set_field_length; lia).
  destruct (IH (S i) (set_lh_block i v d)) as (-> & ->); [lia|].
  unfold lh_n, set_lh_block. by rewrite get_i32_other by lia.
Qed.

Lemma put_entries_lt bl : forall i d k,
  (4 + 4 * (i + length bl) <= length d)%nat -> (k < i)%nat ->
  lh_block k (put_entries i bl d) = lh_block k d.
Proof.
  induction bl as [|v bl IH]; intros i d k Hl Hk; simpl in *; [done|].
  assert (Hld : length (set_lh_block i v d) = length d) by (apply set_field_length; lia).
  rewrite IH by lia. unfold lh_block, set_lh_block. by rewrite get_i32_other by lia.
Qed.

Lemma put_entries_get bl : forall i d k v,
  (4 + 4 * (i + length bl) <= length d)%nat -> Forall i32_range bl -> bl !! k = Some v ->
  lh_block (i + k) (put_entries i bl d) = v.
Proof.
  induction bl as [|x bl IH]; intros i d k v Hl Hr Hk; [done|]. apply Forall_cons in Hr as [Hx Hr]. simpl length in Hl.
  assert (Hld : length (set_lh_block i x d) = length d) by (apply set_field_length; lia).
  cbn [put_entries]. destruct k as [|k].
  - simplify_eq/=. rewrite Nat.add_0_r.
    rewrite put_entries_lt by lia. unfold lh_block, set_lh_block. by rewrite get_put_i32 by (done || lia).
  - rewrite Nat.add_succ_r. apply (IH (S i)); [lia|done|done].
Qed.

(** A log whose header in memory has the entries [es]. *)
Definition holds (l : log) (es : list (Z * block)) : Prop :=
  lg_dev l = 1 /\ lg_n l = Z.of_nat (length es) /\ slots l 0 es /\ length (lg_block l) = Z.to_nat LOGSIZE.

Lemma holds_take l es : holds l es -> take (Z.to_nat (lg_n l)) (lg_block l) = es.*1.
Proof.
  intros (_ & Hn & Hsl & Hlen). rewrite Hn, Nat2Z.id. apply list_eq. intros k.
  rewrite list_lookup_fmap. destruct (es !! k) as [e|] eqn:He; simpl.
  - rewrite lookup_take_lt by (by apply lookup_lt_Some in He). by apply Hsl.
  - apply lookup_ge_None in He. by rewrite lookup_take_ge.
Qed.

(** What the header on disk says: [es] are the home blocks and their copies in
    the log. *)
Definition head_says (h : block) (bl : list Z) : Prop :=
  lh_n h = Z.of_nat (length bl) /\ forall k v, bl !! k = Some v -> lh_block k h = v.

Lemma header_says l es h :
  holds l es -> length h = Z.to_nat BSIZE -> Forall i32_range es.*1 -> (length es <= 100)%nat ->
  head_says (header l h) es.*1 /\ length (header l h) = Z.to_nat BSIZE.
Proof.
  intros Hh Hl Hr Hle. unfold header. rewrite (holds_take _ _ Hh).
  assert (Hl' : length (set_lh_n (lg_n l) h) = Z.to_nat BSIZE).
  { unfold set_lh_n, put_u32. rewrite set_field_length; [done|]. rewrite Hl. unfold BSIZE. lia. }
  assert (Hsz : (4 + 4 * (0 + length es.*1) <= length (set_lh_n (lg_n l) h))%nat).
  { rewrite Hl', length_fmap. unfold BSIZE. lia. }
  destruct Hh as (_ & Hn & _). destruct (put_entries_n es.*1 0 _ Hsz) as [Hp Hlp].
  split; [split|by rewrite Hlp].
  - rewrite Hp, length_fmap. unfold lh_n, set_lh_n.
    rewrite Hn, get_put_i32; [done|rewrite Hl; unfold BSIZE; lia|unfold i32_range; lia].
  - intros k v Hk. by apply (put_entries_get _ 0).
Qed.

Lemma write_head_ok b l C D h :
  bview me b C D ∅ -> lg_dev l = 1 -> (size D < NBUF)%nat -> lg_start l ∉ D -> C !! lg_start l = Some h ->
  exists b', write_head (Lst b l) = Ok (tt, Lst b' l) /\
    bview me b' (<[lg_start l := header l h]> C) D ∅ /\ wrote [(lg_start l, header l h)] b b'.
Proof.
  intros V Hdev Hsz HnD HC. unfold write_head. step. cbn [lg]. rewrite Hdev.
  destruct (bread_ok me b C D ∅ _ h V (not_elem_of_empty _) HC) as (i & b1 & H1 & V1 & A1 & D1 & W1 & _).
  { right. by rewrite union_empty_r_L. }
  rewrite (bind_Ok _ _ _ _ _ (on_bio_Ok _ (Lst b l) _ _ H1)). unfold set_bio. cbn [lg].
  rewrite (bind_Ok _ _ _ _ _ (data_of_ok b1 l i _ h A1)). fold (header l h).
  destruct (set_data_ok me b1 C D _ i _ h (header l h) V1 A1) as (b2 & H2 & V2 & A2 & D2 & W2 & _).
  rewrite (bind_Ok _ _ _ _ _ (on_bio_Ok _ (Lst b1 l) _ _ H2)). unfold set_bio. cbn [lg].
  destruct (bwrite_ok me b2 _ D _ i _ _ V2 A2) as (b3 & H3 & V3 & A3 & D3 & W3 & _).
  rewrite (bind_Ok _ _ _ _ _ (on_bio_Ok _ (Lst b2 l) _ _ H3)). unfold set_bio. cbn [lg].
  destruct (brelse_ok me b3 _ _ _ i _ _ V3 A3) as (b4 & H4 & V4 & D4 & W4 & _).
  { right. by rewrite D3, lookup_insert_eq. }
  rewrite (on_bio_Ok _ (Lst b3 l) _ _ H4). exists b4. split; [done|]. split.
  - rewrite (diff_notin D _ HnD) in V4. rewrite union_empty_r_L, difference_diag_L in V4. done.
  - split; [by rewrite D4, D3, D2, D1|by rewrite W4, W3, W2, W1].
Qed.

Lemma read_head_loop_ok h bl : forall i b l,
  (i + length bl <= length (lg_block l))%nat -> (forall k v, bl !! k = Some v -> lh_block (i + k) h = v) ->
  exists l', read_head_loop (length bl) i h (Lst b l) = Ok (tt, Lst b l') /\
    lg_dev l' = lg_dev l /\ lg_start l' = lg_start l /\ lg_n l' = lg_n l /\ length (lg_block l') = length (lg_block l) /\
    (forall k v, bl !! k = Some v -> lg_block l' !! (i + k)%nat = Some v) /\
    (forall k, (k < i)%nat -> lg_block l' !! k = lg_block l !! k) /\
    outstanding l' = outstanding l /\ committing l' = committing l /\ lg_size l' = lg_size l.
Proof.
  induction bl as [|v bl IH]; intros i b l Hl Hh; cbn [length read_head_loop]; [by exists l|]. simpl in Hl.
  pose proof (Hh 0%nat v eq_refl) as H0. rewrite Nat.add_0_r in H0. rewrite H0.
  unfold put_block at 1. unfold bind at 1. cbn [lg]. rewrite decide_True by lia. cbn [rbind].
  set (l1 := with_block _ l).
  destruct (IH (S i) b l1) as (l' & Hr & Hd & Hs & Hn & Hlen & Hin & Hout & Ho1 & Ho2 & Ho3).
  - unfold l1. simpl. rewrite length_insert. lia.
  - intros k x Hk. specialize (Hh (S k) x Hk). by rewrite Nat.add_succ_r in Hh.
  - exists l'. split; [exact Hr|]. unfold l1 in *. simpl in *. rewrite length_insert in Hlen. split_and!; try done.
    + intros [|k] x Hk; simplify_eq/=.
      * rewrite Nat.add_0_r, Hout by lia. apply list_lookup_insert_eq. lia.
      * rewrite Nat.add_succ_r. by apply Hin.
    + intros k Hk. rewrite Hout by lia. by rewrite list_lookup_insert_ne by lia.
Qed.

Lemma read_head_ok b l C D h bl :
  bview me b C D ∅ -> lg_dev l = 1 -> (size D < NBUF)%nat -> lg_start l ∉ D -> C !! lg_start l = Some h ->
  head_says h bl -> (length bl <= length (lg_block l))%nat ->
  exists b' l', read_head (Lst b l) = Ok (tt, Lst b' l') /\ bview me b' C D ∅ /\ wrote [] b b' /\
    lg_dev l' = 1 /\ lg_start l' = lg_start l /\ lg_n l' = Z.of_nat (length bl) /\
    length (lg_block l') = length (lg_block l) /\ (forall k v, bl !! k = Some v -> lg_block l' !! k = Some v).
Proof.
  intros V Hdev Hsz HnD HC [Hn Hbl] Hlen. unfold read_head. step. cbn [lg]. rewrite Hdev.
  destruct (bread_ok me b C D ∅ _ h V (not_elem_of_empty _) HC) as (i & b1 & H1 & V1 & A1 & D1 & W1 & _).
  { right. by rewrite union_empty_r_L. }
  rewrite (bind_Ok _ _ _ _ _ (on_bio_Ok _ (Lst b l) _ _ H1)). unfold set_bio. cbn [lg].
  rewrite (bind_Ok _ _ _ _ _ (data_of_ok b1 l i _ h A1)). rewrite Hn, Nat2Z.id. step. unfold set_lg. cbn [bio].
  destruct (read_head_loop_ok h bl 0 b1 (with_n (Z.of_nat (length bl)) l)) as (l' & Hr & Hd & Hs & Hn' & Hlen' & Hin & _); [done|done|].
  rewrite (bind_Ok _ _ _ _ _ Hr).
  destruct (brelse_ok me b1 _ _ _ i _ _ V1 A1) as (b2 & H2 & V2 & D2 & W2 & _).
  { right. rewrite D1, <- (v_disk _ _ _ _ _ V); [done|done|apply not_elem_of_empty]. }
  rewrite (on_bio_Ok _ (Lst b1 l') _ _ H2). exists b2, l'.
  rewrite union_empty_r_L, difference_diag_L in V2. split; [done|]. split; [done|].
  split; [apply wrote_nil; congruence|]. rewrite Hd, Hs, Hn', Hlen'. done.
Qed.

End code.
