(* ===== verification/LogCrash.v ===== *)
(** * Crash safety of the log

    [commit] writes the log blocks, the header, the home blocks and the header
    again; [recover_from_log] redoes what the header on disk says.  Whatever
    prefix of these writes reaches the disk before a crash, and however often
    the recovery itself is cut short, a recovery that completes leaves the
    blocks outside the log all old or all new. *)

From S2P Require Import Prelude Block Sleeplock Bio Log.

(** ** Sequences of writes *)

Lemma apply_writes_other tr n : forall d, n ∉ tr.*1 -> apply_writes tr d !! n = d !! n.
Proof.
  induction tr as [|[m b] tr IH]; intros d Hn; [done|]. csimpl in Hn. apply not_elem_of_cons in Hn as [Hm Hn].
  unfold apply_writes in *. cbn [fold_left]. rewrite IH by done. by rewrite lookup_insert_ne.
Qed.

Lemma apply_writes_in tr n b : forall d, NoDup tr.*1 -> (n, b) ∈ tr -> apply_writes tr d !! n = Some b.
Proof.
  induction tr as [|[m c] tr IH]; intros d Hnd Hin; [by apply not_elem_of_nil in Hin|].
  csimpl in Hnd. apply NoDup_cons in Hnd as [Hm Hnd]. apply elem_of_cons in Hin as [[= -> ->]|Hin].
  - change (apply_writes tr (<[m := c]> d) !! m = Some c). rewrite apply_writes_other by done. by apply lookup_insert_eq.
  - by apply IH.
Qed.

(** The last write to a block wins. *)
Lemma apply_writes_last tr n d :
  apply_writes tr d !! n = d !! n \/ exists b, (n, b) ∈ tr /\ apply_writes tr d !! n = Some b.
Proof.
  revert d. induction tr as [|[m c] tr IH]; intros d; [by left|].
  change (apply_writes ((m, c) :: tr) d) with (apply_writes tr (<[m := c]> d)).
  destruct (IH (<[m := c]> d)) as [E|(b & Hin & E)]; rewrite E.
  - destruct (decide (n = m)) as [-> |Hne]; [right; exists c; rewrite lookup_insert_eq; split; [left|done]|left].
    by rewrite lookup_insert_ne.
  - right. exists b. split; [by right|done].
Qed.

Lemma writes_dom tr : forall d, (forall n, n ∈ tr.*1 -> n ∈ dom d) -> dom (apply_writes tr d) = dom d.
Proof.
  induction tr as [|[m c] tr IH]; intros d Hin; [done|].
  change (apply_writes ((m, c) :: tr) d) with (apply_writes tr (<[m := c]> d)).
  rewrite IH; [rewrite dom_insert_L; apply (subseteq_union_1_L {[m]}), singleton_subseteq_l, Hin; left|].
  intros n Hn. rewrite dom_insert_L. apply elem_of_union_r, Hin. by right.
Qed.

Lemma prefix_elem {A} (l k : list A) x : l `prefix_of` k -> x ∈ l -> x ∈ k.
Proof. intros [r ->] Hx. apply elem_of_app. by left. Qed.

Lemma log_writes_keys start es : forall tail,
  (log_writes start tail es).*1 = (fun k => start + Z.of_nat k + 1) <$> seq tail (length es).
Proof. induction es as [|e es IH]; intros tail; [done|]. csimpl. by rewrite IH. Qed.

Lemma log_writes_lookup start es : forall tail k e,
  es !! k = Some e -> (start + Z.of_nat (tail + k) + 1, e.2) ∈ log_writes start tail es.
Proof.
  induction es as [|x es IH]; intros tail k e Hk; [done|]. destruct k as [|k]; simplify_eq/=.
  - rewrite Nat.add_0_r. left.
  - right. rewrite Nat.add_succ_r. by apply (IH (S tail)).
Qed.

Lemma log_writes_nodup start es tail : NoDup (log_writes start tail es).*1.
Proof.
  rewrite log_writes_keys. apply NoDup_fmap_2; [intros x y E; lia|apply NoDup_seq].
Qed.

Section crash.

Context (me : Z).

(** The [LOGSIZE] blocks of the log: the header and those for the entries. *)
Definition area (l : log) (n : Z) : Prop := lg_start l <= n < lg_start l + LOGSIZE.

Lemma logblk_area l k : (S k < Z.to_nat LOGSIZE)%nat -> area l (logblk l k).
Proof. unfold area, logblk, LOGSIZE, MAXOPBLOCKS. lia. Qed.

Lemma log_writes_area l es n :
  (length es < Z.to_nat LOGSIZE)%nat -> n ∈ (log_writes (lg_start l) 0 es).*1 -> area l n /\ n <> lg_start l.
Proof.
  intros Hle Hn. rewrite log_writes_keys in Hn. apply list_elem_of_fmap in Hn as (k & -> & Hk).
  apply elem_of_seq in Hk. unfold area, LOGSIZE, MAXOPBLOCKS in *. lia.
Qed.

(** Entries for home blocks outside the log. *)
Record entries_ok (l : log) (C : gmap Z block) (es : list (Z * block)) : Prop := {
  e_nodup : NoDup es.*1;
  e_range : Forall i32_range es.*1;
  e_len : (length es < Z.to_nat LOGSIZE)%nat;
  e_home : forall e, e ∈ es -> is_Some (C !! e.1) /\ ~ area l e.1;
  e_log : forall k, (k < length es)%nat -> is_Some (C !! logblk l k)
}.

Lemma home_not_log l C es e k : entries_ok l C es -> e ∈ es -> (k < length es)%nat -> e.1 <> logblk l k.
Proof.
  intros He Hin Hk E. destruct (e_home _ _ _ He e Hin) as [_ Hn]. apply Hn. rewrite E. apply logblk_area.
  pose proof (e_len _ _ _ He). lia.
Qed.

Lemma start_area l : area l (lg_start l).
Proof. unfold area, LOGSIZE, MAXOPBLOCKS. lia. Qed.

Lemma start_not_logblk l k : logblk l k <> lg_start l.
Proof. unfold logblk. lia. Qed.

(** ** commit *)

Definition commit_writes (l : log) (h : block) (es : list (Z * block)) : list (Z * block) :=
  log_writes (lg_start l) 0 es ++ (lg_start l, header l h) :: es ++ [(lg_start l, header (with_n 0 l) (header l h))].

Lemma commit_ok b l C h es :
  bview me b C (list_to_set es.*1) ∅ -> holds l es -> entries_ok l C es -> es <> [] ->
  (forall e, e ∈ es -> C !! e.1 = Some e.2) -> C !! lg_start l = Some h ->
  exists b', commit me (Lst b l) = Ok (tt, Lst b' (with_n 0 l)) /\
    bview me b' (apply_writes (commit_writes l h es) C) ∅ ∅ /\ wrote (commit_writes l h es) b b'.
Proof.
  intros V Hh He Hne HC Hst. set (D := list_to_set es.*1 : gset Z) in *. pose proof Hh as (Hdev & Hn & Hsl & Hlen).
  assert (Hsz : (size D < NBUF)%nat).
  { unfold D. rewrite size_list_to_set by apply He. rewrite length_fmap. exact (e_len _ _ _ He). }
  assert (HD : forall n, area l n -> n ∉ D).
  { intros n Hn' Hin. apply elem_of_list_to_set, list_elem_of_fmap in Hin as (e & -> & Hin). by apply (e_home _ _ _ He e Hin). }
  unfold commit. step. cbn [lg]. destruct es as [|e0 es0]; [done|]. set (es := e0 :: es0) in *.
  assert (Hpos : 0 <? lg_n l = true) by (apply Z.ltb_lt; rewrite Hn; unfold es; simpl; lia). rewrite Hpos.
  assert (Hto : Z.to_nat (lg_n l) = length es) by lia.
  destruct (write_log_loop_ok me l D es 0 b C V Hdev Hsz Hsl) as (b1 & H1 & V1 & W1).
  { intros e Hin. split; [|by apply HC]. apply elem_of_list_to_set, list_elem_of_fmap. eauto. }
  { intros k Hk. split; [by apply (e_log _ _ _ He)|]. apply HD, logblk_area. pose proof (e_len _ _ _ He). simpl. lia. }
  erewrite bind_Ok by (unfold write_log; step; cbn [lg]; rewrite Hto; exact H1).
  set (C1 := apply_writes (log_writes (lg_start l) 0 es) C) in *.
  assert (Hst1 : C1 !! lg_start l = Some h).
  { unfold C1. rewrite apply_writes_other; [done|]. intros Hin. apply log_writes_area in Hin as [_ ?]; [done|apply He]. }
  destruct (write_head_ok me b1 l C1 D h V1 Hdev Hsz (HD _ (start_area l)) Hst1) as (b2 & H2 & V2 & W2).
  rewrite (bind_Ok _ _ _ _ _ H2). set (C2 := <[lg_start l := header l h]> C1) in *.
  destruct (install_loop_ok me l es 0 b2 C2 D V2 Hdev Hsl (e_nodup _ _ _ He)) as (b3 & H3 & V3 & W3).
  { left. split; [done|]. intros e Hin. apply elem_of_list_to_set, list_elem_of_fmap. eauto. }
  { intros e Hin. destruct (e_home _ _ _ He e Hin) as [Hs Hn']. unfold C2.
    rewrite lookup_insert_ne by (intros E; apply Hn'; rewrite <- E; apply start_area).
    unfold C1. rewrite apply_writes_other; [done|]. intros Hk. apply log_writes_area in Hk as [? _]; [done|apply He]. }
  { intros k e Hk. pose proof (lookup_lt_Some _ _ _ Hk) as Hlk. split.
    - unfold C2. rewrite lookup_insert_ne by (intros E; by apply (start_not_logblk l k)). unfold C1.
      apply apply_writes_in; [apply log_writes_nodup|]. by apply (log_writes_lookup _ es 0).
    - apply HD, logblk_area. pose proof (e_len _ _ _ He). simpl. lia. }
  { intros k e Hk Hin. by apply (home_not_log l C es). }
  erewrite bind_Ok by (unfold install_trans; step; cbn [lg]; rewrite Hto; exact H3).
  step. unfold set_lg. cbn [bio lg]. set (C3 := apply_writes es C2) in *.
  replace (D ∖ list_to_set es.*1) with (∅ : gset Z) in V3 by (symmetry; apply difference_diag_L).
  assert (Hst3 : C3 !! lg_start l = Some (header l h)).
  { unfold C3. rewrite apply_writes_other; [unfold C2; by apply lookup_insert_eq|]. intros Hin.
    apply list_elem_of_fmap in Hin as (e & E & Hin). apply (e_home _ _ _ He e Hin). rewrite <- E. apply start_area. }
  destruct (write_head_ok me b3 (with_n 0 l) C3 ∅ (header l h) V3 Hdev) as (b4 & H4 & V4 & W4);
    [rewrite size_empty; unfold NBUF; lia|apply not_elem_of_empty|done|].
  rewrite H4. exists b4. split; [done|].
  pose proof (wrote_trans _ _ _ _ _ W1 (wrote_trans _ _ _ _ _ W2 (wrote_trans _ _ _ _ _ W3 W4))) as W.
  split; [|exact W]. unfold commit_writes. rewrite apply_writes_app.
  change ((lg_start l, header l h) :: es ++ ?t) with ([(lg_start l, header l h)] ++ es ++ t). rewrite !apply_writes_app. exact V4.
Qed.

(** ** Recovery *)

(** The states a disk can be in between a [commit] and a completed recovery:
    [d0] is the disk before, [es] the entries that were committed. *)
Inductive phase := Old | Mid | New.

Definition home (d0 : gmap Z block) (es : list (Z * block)) (ph : phase) (d : gmap Z block) (n : Z) : Prop :=
  match ph with
  | Old => d !! n = d0 !! n
  | Mid => n ∉ es.*1 -> d !! n = d0 !! n
  | New => d !! n = apply_writes es d0 !! n
  end.

Record disk_in (l : log) (d0 : gmap Z block) (es : list (Z * block)) (ph : phase) (d : gmap Z block) : Prop := {
  d_dom : dom d = dom d0;
  d_head : exists h, d !! lg_start l = Some h /\ length h = Z.to_nat BSIZE /\
    head_says h (match ph with Mid => es.*1 | _ => [] end);
  d_log : ph = Mid -> forall k e, es !! k = Some e -> d !! logblk l k = Some e.2;
  d_home : forall n, ~ area l n -> home d0 es ph d n
}.

(** What recovery writes in each of them, and where that leads. *)
Definition recover_writes (es : list (Z * block)) (ph : phase) : list (Z * block) :=
  match ph with Mid => es | _ => [] end.

Lemma recover_ok b l l0 d0 es ph :
  bview me b (disk b) ∅ ∅ -> disk_in l0 d0 es ph (disk b) -> entries_ok l0 d0 es ->
  lg_dev l = 1 -> lg_start l = lg_start l0 -> length (lg_block l) = Z.to_nat LOGSIZE ->
  exists b' l' h', recover_from_log me (Lst b l) = Ok (tt, Lst b' l') /\
    wrote (recover_writes es ph ++ [(lg_start l0, h')]) b b' /\ length h' = Z.to_nat BSIZE /\ head_says h' [].
Proof.
  intros V [Hdom (h & Hst & Hlh & Hsay) Hlog Hhome] He Hdev Hs Hlen.
  set (es' := recover_writes es ph). assert (Hes' : match ph with Mid => es.*1 | _ => [] end = es'.*1) by (by destruct ph).
  rewrite Hes' in Hsay. assert (Hsub : forall e, e ∈ es' -> e ∈ es /\ ph = Mid).
  { unfold es', recover_writes. intros e Hin. destruct ph; try by apply not_elem_of_nil in Hin. done. }
  assert (He' : entries_ok l0 d0 es').
  { unfold es', recover_writes. destruct ph; [|done|]; (constructor; simpl; [constructor|constructor|unfold LOGSIZE, MAXOPBLOCKS; lia|by intros e ?%not_elem_of_nil|lia]). }
  unfold recover_from_log.
  destruct (read_head_ok me b l (disk b) ∅ h es'.*1 V Hdev) as (b1 & l1 & H1 & V1 & W1 & Hd1 & Hs1 & Hn1 & Hl1 & Hin1);
    [rewrite size_empty; unfold NBUF; lia|apply not_elem_of_empty|by rewrite Hs|done| |].
  { rewrite length_fmap, Hlen. apply Nat.lt_le_incl, He'. }
  rewrite (bind_Ok _ _ _ _ _ H1). rewrite length_fmap in Hn1.
  assert (Hblk : forall k, logblk l1 k = logblk l0 k) by (intros k; unfold logblk; congruence).
  destruct (install_loop_ok me l1 es' 0 b1 (disk b) ∅ V1 Hd1) as (b2 & H2 & V2 & W2).
  { intros k e Hk. change (0 + k)%nat with k. apply Hin1. by rewrite list_lookup_fmap, Hk. }
  { apply He'. }
  { by right. }
  { intros e Hin. apply elem_of_dom. rewrite Hdom. apply elem_of_dom. by apply (e_home _ _ _ He' e Hin). }
  { intros k e Hk. rewrite Hblk. split; [|apply not_elem_of_empty].
    destruct (Hsub e ltac:(by eapply list_elem_of_lookup_2)) as [_ ->]. by apply Hlog. }
  { intros k e Hk Hin. rewrite Hblk. by apply (home_not_log l0 d0 es'). }
  erewrite bind_Ok by (unfold install_trans; step; cbn [lg]; rewrite Hn1, Nat2Z.id; exact H2).
  step. unfold set_lg. cbn [bio lg]. rewrite empty_diff in V2.
  assert (Hst2 : apply_writes es' (disk b) !! lg_start (with_n 0 l1) = Some h).
  { simpl. rewrite Hs1, Hs, apply_writes_other; [done|]. intros Hin. apply list_elem_of_fmap in Hin as (e & E & Hin).
    apply (e_home _ _ _ He' e Hin). rewrite <- E. apply start_area. }
  destruct (write_head_ok me b2 (with_n 0 l1) _ ∅ h V2 Hd1) as (b3 & H3 & V3 & W3);
    [rewrite size_empty; unfold NBUF; lia|apply not_elem_of_empty|done|].
  rewrite H3. exists b3, (with_n 0 l1), (header (with_n 0 l1) h). split; [done|]. split.
  - pose proof (wrote_trans _ _ _ _ _ W1 (wrote_trans _ _ _ _ _ W2 W3)) as W. simpl in W. rewrite Hs1, Hs in W. exact W.
  - destruct (header_says (with_n 0 l1) [] h) as [Hh' Hl'];
      [split_and!; try done; simpl; congruence|done|constructor|simpl; lia|done].
Qed.

(** Writes to the home blocks alone keep a disk in the middle. *)
Lemma mid_prefix l d0 es d pre :
  disk_in l d0 es Mid d -> entries_ok l d0 es -> pre `prefix_of` es -> disk_in l d0 es Mid (apply_writes pre d).
Proof.
  intros [Hdom (h & Hst & Hlh & Hsay) Hlog Hhome] He Hp.
  assert (Hkey : forall n, n ∈ pre.*1 -> ~ area l n /\ n ∈ es.*1).
  { intros n Hin. apply list_elem_of_fmap in Hin as (e & -> & Hin). apply (prefix_elem _ _ _ Hp) in Hin.
    split; [by apply (e_home _ _ _ He e Hin)|]. apply list_elem_of_fmap. eauto. }
  assert (Harea : forall n, area l n -> apply_writes pre d !! n = d !! n).
  { intros n Hn. apply apply_writes_other. intros Hin. by apply Hkey in Hin as [? _]. }
  constructor.
  - rewrite <- Hdom. apply writes_dom. intros n Hn. rewrite Hdom. apply elem_of_dom. apply Hkey in Hn as [_ Hn].
    apply list_elem_of_fmap in Hn as (e & -> & Hn). by apply (e_home _ _ _ He e Hn).
  - exists h. rewrite Harea by apply start_area. done.
  - intros _ k e Hk. rewrite Harea; [by apply Hlog|]. apply logblk_area. apply lookup_lt_Some in Hk.
    pose proof (e_len _ _ _ He). lia.
  - intros n Hn Hne. rewrite apply_writes_other; [by apply Hhome|]. intros Hin. by apply Hkey in Hin as [_ ?].
Qed.

(** Writing an empty header ends the middle, and changes nothing else. *)
Lemma head_write l d0 es ph d h' :
  disk_in l d0 es ph d -> entries_ok l d0 es -> length h' = Z.to_nat BSIZE -> head_says h' [] ->
  disk_in l d0 es (match ph with Old => Old | _ => New end)
    (<[lg_start l := h']> (apply_writes (recover_writes es ph) d)).
Proof.
  intros Hd He Hl' Hs'.
  assert (Hd' : disk_in l d0 es ph (apply_writes (recover_writes es ph) d)).
  { destruct ph; try done. by apply mid_prefix. }
  constructor.
  - rewrite dom_insert_L, <- (d_dom _ _ _ _ _ Hd'). apply (subseteq_union_1_L {[lg_start l]}), singleton_subseteq_l.
    destruct (d_head _ _ _ _ _ Hd') as (h & Hh & _). apply elem_of_dom. eauto.
  - exists h'. rewrite lookup_insert_eq. split; [done|]. split; [done|]. by destruct ph.
  - by destruct ph.
  - intros n Hn. assert (Hne : lg_start l <> n) by (intros <-; apply Hn, start_area).
    pose proof (d_home _ _ _ _ _ Hd n Hn) as Hh. destruct ph; simpl in *; rewrite ?lookup_insert_ne by done; [done| |done].
    destruct (decide (n ∈ es.*1)) as [Hin|Hnin].
    + apply list_elem_of_fmap in Hin as ([m c] & -> & Hin). rewrite !(apply_writes_in _ _ c); [done|apply He|done|apply He|done].
    + rewrite !apply_writes_other by done. by apply Hh.
Qed.

(** ** Crashes *)

Lemma prefix_app_cases {A} (pre k r : list A) :
  pre `prefix_of` k ++ r -> pre `prefix_of` k \/ exists p, p `prefix_of` r /\ pre = k ++ p.
Proof.
  revert pre. induction k as [|x k IH]; intros pre Hp; [right; by exists pre|].
  destruct pre as [|y pre]; [left; apply prefix_nil|]. simpl in Hp.
  pose proof (prefix_cons_inv_1 _ _ _ _ Hp) as ->. apply prefix_cons_inv_2 in Hp.
  destruct (IH pre Hp) as [H|(p & H & ->)]; [left; by apply prefix_cons|right; by exists p].
Qed.

Lemma prefix_snoc_cases {A} (pre k : list A) x : pre `prefix_of` k ++ [x] -> pre `prefix_of` k \/ pre = k ++ [x].
Proof.
  intros [H|(p & H & ->)]%prefix_app_cases; [by left|]. destruct p as [|y p]; [left; by rewrite app_nil_r|right].
  pose proof (prefix_cons_inv_1 _ _ _ _ H) as ->. apply prefix_cons_inv_2, prefix_nil_inv in H as ->. done.
Qed.

(** A recovery of the log [l0] that runs on a cold cache, cut off after some
    prefix [pre] of its writes. *)
Inductive cut_recovery (l0 : log) : gmap Z block -> gmap Z block -> Prop :=
| cut_recovery_intro b l b' l' tr pre :
    bview me b (disk b) ∅ ∅ -> lg_dev l = 1 -> lg_start l = lg_start l0 -> length (lg_block l) = Z.to_nat LOGSIZE ->
    recover_from_log me (Lst b l) = Ok (tt, Lst b' l') -> wlog b' = wlog b ++ tr -> pre `prefix_of` tr ->
    cut_recovery l0 (disk b) (apply_writes pre (disk b)).

Definition phase_ok (l : log) (d0 : gmap Z block) (es : list (Z * block)) (d : gmap Z block) : Prop :=
  exists ph, disk_in l d0 es ph d.

Lemma cut_recovery_phase l0 d0 es d d' :
  entries_ok l0 d0 es -> phase_ok l0 d0 es d -> cut_recovery l0 d d' -> phase_ok l0 d0 es d'.
Proof.
  intros He Hp Hc. revert Hp. destruct Hc as [b l b' l' tr pre V Hdev Hs Hlen Hrun Hw Hpre]. intros [ph Hd].
  destruct (recover_ok b l l0 d0 es ph V Hd He Hdev Hs Hlen) as (b1 & l1 & h' & Hrun' & [_ Hw'] & Hl' & Hs').
  rewrite Hrun in Hrun'. injection Hrun' as -> ->. rewrite Hw in Hw'. apply app_inv_head in Hw' as ->.
  apply prefix_snoc_cases in Hpre as [Hpre| ->].
  - exists ph. destruct ph; simpl in Hpre; [|by apply mid_prefix|]; by apply prefix_nil_inv in Hpre as ->.
  - eexists. rewrite apply_writes_app. by apply head_write.
Qed.

(** The prefixes of the writes of [commit]. *)
Lemma commit_phase l h es d0 pre :
  holds l es -> entries_ok l d0 es -> d0 !! lg_start l = Some h -> length h = Z.to_nat BSIZE -> head_says h [] ->
  pre `prefix_of` commit_writes l h es -> phase_ok l d0 es (apply_writes pre d0).
Proof.
  intros Hh He Hst Hlh Hs Hpre. pose proof (e_len _ _ _ He) as Hle.
  destruct (header_says l es h Hh Hlh (e_range _ _ _ He)) as [Hs1 Hl1]; [unfold LOGSIZE, MAXOPBLOCKS in Hle; lia|].
  assert (Hh0 : holds (with_n 0 l) []) by (destruct Hh as (? & _ & _ & ?); by split_and!).
  destruct (header_says (with_n 0 l) [] (header l h) Hh0 Hl1) as [Hs2 Hl2]; [constructor|simpl; lia|].
  assert (Hold : forall p, p `prefix_of` log_writes (lg_start l) 0 es -> disk_in l d0 es Old (apply_writes p d0)).
  { intros p Hp. assert (Hkey : forall n, n ∈ p.*1 -> area l n /\ n <> lg_start l /\ is_Some (d0 !! n)).
    { intros n Hn. apply list_elem_of_fmap in Hn as (w & -> & Hn). apply (prefix_elem _ _ _ Hp) in Hn.
      assert (Hk : w.1 ∈ (log_writes (lg_start l) 0 es).*1) by (apply list_elem_of_fmap; eauto).
      pose proof (log_writes_area l es _ Hle Hk) as [? ?]. split_and!; try done.
      rewrite log_writes_keys in Hk. apply list_elem_of_fmap in Hk as (k & -> & Hk). apply elem_of_seq in Hk.
      apply (e_log _ _ _ He k). lia. }
    constructor; [|exists h; rewrite apply_writes_other; [done|]|done|].
    - apply writes_dom. intros n Hn. apply elem_of_dom. by apply Hkey.
    - intros Hn. by apply Hkey in Hn as (_ & ? & _).
    - intros n Hn. simpl. rewrite apply_writes_other; [done|]. intros Hin. by apply Hkey in Hin as (? & _). }
  assert (Hmid : disk_in l d0 es Mid (<[lg_start l := header l h]> (apply_writes (log_writes (lg_start l) 0 es) d0))).
  { destruct (Hold _ (reflexivity _)) as [Hdom _ _ Hhome].
    constructor.
    - rewrite dom_insert_L, Hdom. apply (subseteq_union_1_L {[lg_start l]}), singleton_subseteq_l, elem_of_dom. eauto.
    - eexists. rewrite lookup_insert_eq. done.
    - intros _ k e Hk. rewrite lookup_insert_ne by (intros E; by apply (start_not_logblk l k)).
      apply apply_writes_in; [apply log_writes_nodup|]. by apply (log_writes_lookup _ es 0).
    - intros n Hn _. assert (Hne : lg_start l <> n) by (intros <-; apply Hn, start_area).
      rewrite lookup_insert_ne by done. by apply Hhome. }
  unfold commit_writes in Hpre. apply prefix_app_cases in Hpre as [Hpre|(p & Hpre & ->)]; [exists Old; auto|].
  rewrite apply_writes_app. destruct p as [|w p]; [exists Old; by apply Hold|].
  pose proof (prefix_cons_inv_1 _ _ _ _ Hpre) as ->. apply prefix_cons_inv_2 in Hpre.
  change (apply_writes ((lg_start l, header l h) :: p)) with (fun d => apply_writes p (<[lg_start l := header l h]> d)). cbn beta.
  apply prefix_snoc_cases in Hpre as [Hpre| ->]; [exists Mid; by apply mid_prefix|].
  exists New. rewrite apply_writes_app. by apply (head_write l d0 es Mid).
Qed.

(** Behind [commit] the home blocks have the content of the cache. *)
Lemma commit_home l h es C n :
  entries_ok l C es -> (forall e, e ∈ es -> C !! e.1 = Some e.2) -> ~ area l n -> apply_writes (commit_writes l h es) C !! n = C !! n.
Proof.
  intros He HC Hn. unfold commit_writes. rewrite apply_writes_app. change (?w :: es ++ ?t) with ([w] ++ es ++ t). rewrite !apply_writes_app.
  assert (Hk : forall h', n ∉ [(lg_start l, h' : block)].*1).
  { intros h' Hin. apply list_elem_of_singleton in Hin. subst. apply Hn, start_area. }
  rewrite (apply_writes_other [_]) by apply Hk. destruct (apply_writes_last es n (apply_writes [(lg_start l, header l h)] (apply_writes (log_writes (lg_start l) 0 es) C))) as [-> |(c & Hin & ->)].
  - rewrite (apply_writes_other [_]) by apply Hk. rewrite apply_writes_other; [done|]. intros Hin.
    by apply log_writes_area in Hin as [? _]; [|apply He].
  - symmetry. exact (HC _ Hin).
Qed.

(** A crash after a prefix of the writes of [commit]. *)
Lemma crash_recovers b l C h es pre r lr :
  bview me b C (list_to_set es.*1) ∅ -> holds l es -> entries_ok l C es ->
  (forall e, e ∈ es -> C !! e.1 = Some e.2) -> C !! lg_start l = Some h -> length h = Z.to_nat BSIZE -> head_says h [] ->
  pre `prefix_of` commit_writes l h es -> rtc (cut_recovery l) (apply_writes pre (disk b)) (disk r) ->
  bview me r (disk r) ∅ ∅ -> lg_dev lr = 1 -> lg_start lr = lg_start l -> length (lg_block lr) = Z.to_nat LOGSIZE ->
  exists r' lr', recover_from_log me (Lst r lr) = Ok (tt, Lst r' lr') /\
    ((forall n, ~ area l n -> disk r' !! n = disk b !! n) \/ (forall n, ~ area l n -> disk r' !! n = C !! n)).
Proof.
  intros V Hh He HC Hst Hlh Hs Hpre Hcut Vr Hdev Hsl Hlen. pose proof (v_dom _ _ _ _ _ V) as Hdom.
  assert (He' : entries_ok l (disk b) es).
  { destruct He as [E1 E2 E3 E4 E5]. constructor; try done.
    - intros e Hin. destruct (E4 e Hin) as [Hs' ?]. split; [|done]. apply elem_of_dom. rewrite <- Hdom. by apply elem_of_dom.
    - intros k Hk. apply elem_of_dom. rewrite <- Hdom. by apply elem_of_dom, E5. }
  assert (Hnew : forall n, ~ area l n -> apply_writes es (disk b) !! n = C !! n).
  { intros n Hn. destruct (decide (n ∈ es.*1)) as [Hin|Hnin].
    - apply list_elem_of_fmap in Hin as ([m c] & -> & Hin). rewrite (apply_writes_in _ _ c); [|apply He|done].
      symmetry. exact (HC _ Hin).
    - rewrite apply_writes_other by done. symmetry. apply (v_disk _ _ _ _ _ V); [by rewrite elem_of_list_to_set|apply not_elem_of_empty]. }
  assert (Hst' : disk b !! lg_start l = Some h).
  { rewrite <- Hst. symmetry. apply (v_disk _ _ _ _ _ V); [|apply not_elem_of_empty]. rewrite elem_of_list_to_set.
    intros Hin. apply list_elem_of_fmap in Hin as (e & E & Hin). apply (e_home _ _ _ He e Hin). rewrite <- E. apply start_area. }
  assert (Hph : phase_ok l (disk b) es (disk r)).
  { revert Hcut. apply rtc_invariant; [intros d d'; by apply cut_recovery_phase|]. by apply (commit_phase l h). }
  destruct Hph as [ph Hph].
  destruct (recover_ok r lr l (disk b) es ph Vr Hph He' Hdev Hsl Hlen) as (r' & lr' & h' & Hr & [Hdr _] & Hl' & Hs').
  exists r', lr'. split; [done|]. pose proof (head_write l (disk b) es ph (disk r) h' Hph He' Hl' Hs') as Hf.
  rewrite apply_writes_app in Hdr. simpl in Hdr. change (apply_writes [(lg_start l, h')] ?d) with (<[lg_start l := h']> d) in Hdr.
  rewrite <- Hdr in Hf. destruct ph; [left|right|right]; intros n Hn; rewrite <- ?Hnew by done; exact (d_home _ _ _ _ _ Hf n Hn).
Qed.

(** ** Properties *)

(** C20: a [commit] of fewer than [LOGSIZE] blocks completes with the new
    contents on the disk; and if it is cut off by a crash after any prefix of
    its disk writes, and the recoveries that follow are cut off anywhere as
    well, the first recovery that completes leaves the blocks outside the log
    either all as before the [commit] or all as the transaction left them. *)
Theorem commit_is_atomic b l C h es :
  bview me b C (list_to_set es.*1) ∅ -> holds l es -> entries_ok l C es -> es <> [] ->
  (forall e, e ∈ es -> C !! e.1 = Some e.2) -> C !! lg_start l = Some h ->
  length h = Z.to_nat BSIZE -> head_says h [] ->
  exists b1 l1 tr, commit me (Lst b l) = Ok (tt, Lst b1 l1) /\ wlog b1 = wlog b ++ tr /\
    (forall n, ~ area l n -> disk b1 !! n = C !! n) /\
    forall pre r lr, pre `prefix_of` tr -> rtc (cut_recovery l) (apply_writes pre (disk b)) (disk r) ->
      bview me r (disk r) ∅ ∅ -> lg_dev lr = 1 -> lg_start lr = lg_start l -> length (lg_block lr) = Z.to_nat LOGSIZE ->
      exists r' lr', recover_from_log me (Lst r lr) = Ok (tt, Lst r' lr') /\
        ((forall n, ~ area l n -> disk r' !! n = disk b !! n) \/ (forall n, ~ area l n -> disk r' !! n = C !! n)).
Proof.
  intros V Hh He Hne HC Hst Hlh Hs. destruct (commit_ok b l C h es V Hh He Hne HC Hst) as (b1 & Hrun & V1 & [Hd1 Hw1]).
  exists b1, (with_n 0 l), (commit_writes l h es). split_and!; try done.
  - intros n Hn. rewrite <- (v_disk _ _ _ _ _ V1) by apply not_elem_of_empty. by apply commit_home.
  - intros pre r lr. by apply (crash_recovers b l C h es).
Qed.

End crash.

(** ** A concrete disk *)

(** Modifying blocks in the cache. *)
Lemma dirty_all me es : forall b C D,
  bview me b C D ∅ -> (size D + length es <= NBUF)%nat -> (forall e, e ∈ es -> is_Some (C !! e.1)) ->
  exists b', bview me b' (apply_writes es C) (list_to_set es.*1 ∪ D) ∅.
Proof.
  induction es as [|[n c] es IH]; intros b C D V Hsz Hes.
  { exists b. csimpl. by rewrite union_empty_l_L. }
  destruct (Hes (n, c) ltac:(left)) as [d Hd]. simpl in Hd, Hsz.
  destruct (bread_ok me b C D ∅ n d V (not_elem_of_empty _) Hd) as (i & b1 & _ & V1 & A1 & _);
    [right; rewrite union_empty_r_L; lia|].
  destruct (set_data_ok me b1 C D _ i n d c V1 A1) as (b2 & _ & V2 & A2 & _).
  destruct (mark_dirty_ok me b2 _ D _ i n c V2 A2) as (b3 & _ & V3 & A3 & _).
  destruct (brelse_ok me b3 _ _ _ i n c V3 A3) as (b4 & _ & V4 & _); [left; set_solver|].
  rewrite union_empty_r_L, difference_diag_L in V4.
  destruct (IH b4 _ _ V4) as [b' V'].
  - rewrite size_union_alt, size_singleton. pose proof (diff_size D n). lia.
  - intros e He. destruct (decide (e.1 = n)) as [-> |Hne]; [rewrite lookup_insert_eq; eauto|].
    rewrite lookup_insert_ne by done. apply Hes. by right.
  - exists b'. csimpl. replace ({[n]} ∪ list_to_set es.*1 ∪ D) with (list_to_set es.*1 ∪ ({[n]} ∪ D)) by (clear; set_solver). exact V'.
Qed.

(** Blocks 2 to 32 are the log, 40 on are data. *)
Definition demo_zero : block := replicate 512 0.

Definition demo_disk : gmap Z block := list_to_map ((fun k => (Z.of_nat k, demo_zero)) <$> seq 0 100).

Definition demo_entries (n : nat) : list (Z * block) := (fun k => (Z.of_nat k, replicate 512 7)) <$> seq 40 n.

Definition demo_log (n : nat) : log :=
  Log 2 31 0 0 1 (Z.of_nat n) ((demo_entries n).*1 ++ replicate (30 - n) 0).

Lemma demo_disk_lookup n : 0 <= n < 100 -> demo_disk !! n = Some demo_zero.
Proof.
  intros Hn. apply elem_of_list_to_map_1.
  - rewrite <- list_fmap_compose. apply NoDup_fmap_2; [intros x y E; simpl in E; lia|apply NoDup_seq].
  - apply list_elem_of_fmap. exists (Z.to_nat n). split; [by rewrite Z2Nat.id by lia|apply elem_of_seq; lia].
Qed.

Lemma demo_entry n e : e ∈ demo_entries n -> (n <= 30)%nat -> 40 <= e.1 < 70 /\ e.2 = replicate 512 7.
Proof.
  intros Hin Hn. apply list_elem_of_fmap in Hin as (k & -> & Hk). apply elem_of_seq in Hk. cbn [fst snd]. split; [lia|done].
Qed.

Lemma demo_entries_length n : length (demo_entries n) = n.
Proof. unfold demo_entries. by rewrite length_fmap, length_seq. Qed.

Lemma demo_entries_nodup n : NoDup (demo_entries n).*1.
Proof.
  unfold demo_entries. rewrite <- list_fmap_compose. apply NoDup_fmap_2; [intros x y E; simpl in E; lia|apply NoDup_seq].
Qed.

Lemma demo_holds n : (n <= 30)%nat -> holds (demo_log n) (demo_entries n).
Proof.
  intros Hn. split_and!; try done.
  - simpl. by rewrite demo_entries_length.
  - intros k e Hk. simpl. rewrite lookup_app_l by (rewrite length_fmap; by apply lookup_lt_Some in Hk).
    by rewrite list_lookup_fmap, Hk.
  - simpl. rewrite length_app, length_fmap, demo_entries_length, length_replicate. unfold LOGSIZE, MAXOPBLOCKS. lia.
Qed.

Lemma demo_content n m : (n <= 30)%nat -> 0 <= m < 100 ->
  is_Some (apply_writes (demo_entries n) demo_disk !! m) /\
  (m < 40 -> apply_writes (demo_entries n) demo_disk !! m = Some demo_zero).
Proof.
  intros Hn Hm. split.
  - destruct (apply_writes_last (demo_entries n) m demo_disk) as [-> |(c & _ & ->)]; [|eauto].
    rewrite demo_disk_lookup by done. eauto.
  - intros Hlt. rewrite apply_writes_other, demo_disk_lookup; [done|lia|]. intros Hin.
    apply list_elem_of_fmap in Hin as (e & -> & Hin). apply demo_entry in Hin; lia.
Qed.

Lemma demo_entries_ok n : (n < 30)%nat ->
  entries_ok (demo_log n) (apply_writes (demo_entries n) demo_disk) (demo_entries n).
Proof.
  intros Hn. constructor.
  - apply demo_entries_nodup.
  - apply Forall_forall. intros v Hv. apply list_elem_of_fmap in Hv as (e & -> & Hin).
    apply demo_entry in Hin as [? _]; [|lia]. unfold i32_range. lia.
  - rewrite demo_entries_length. unfold LOGSIZE, MAXOPBLOCKS. lia.
  - intros e Hin. apply demo_entry in Hin as [? _]; [|lia]. split; [apply demo_content; lia|].
    unfold area, LOGSIZE, MAXOPBLOCKS. simpl. lia.
  - intros k Hk. rewrite demo_entries_length in Hk. apply demo_content; [lia|]. unfold logblk. simpl. lia.
Qed.

Lemma demo_dirty n : (n <= 30)%nat ->
  exists b, bview 7 b (apply_writes (demo_entries n) demo_disk) (list_to_set (demo_entries n).*1) ∅.
Proof.
  intros Hn. destruct (dirty_all 7 (demo_entries n) (fresh demo_disk) demo_disk ∅ (fresh_view 7 demo_disk)) as [b V].
  - rewrite size_empty, demo_entries_length. unfold NBUF. lia.
  - intros e Hin. apply demo_entry in Hin as [? _]; [|done]. rewrite demo_disk_lookup by lia. eauto.
  - exists b. by rewrite union_empty_r_L in V.
Qed.

Lemma commit_is_atomic_witness :
  exists b b1 l1, bview 7 b (apply_writes (demo_entries 3) demo_disk) (list_to_set (demo_entries 3).*1) ∅ /\
    commit 7 (Lst b (demo_log 3)) = Ok (tt, Lst b1 l1) /\ disk b1 !! 41 = Some (replicate 512 7).
Proof.
  destruct (demo_dirty 3 ltac:(lia)) as [b V].
  assert (HC : forall e, e ∈ demo_entries 3 -> apply_writes (demo_entries 3) demo_disk !! e.1 = Some e.2).
  { intros [m c] Hin. apply apply_writes_in; [apply demo_entries_nodup|exact Hin]. }
  destruct (commit_is_atomic 7 b (demo_log 3) _ demo_zero (demo_entries 3) V (demo_holds 3 ltac:(lia))
              (demo_entries_ok 3 ltac:(lia))) as (b1 & l1 & tr & H1 & _ & H2 & _).
  - done.
  - exact HC.
  - apply (demo_content 3 2); [lia|lia|simpl; lia].
  - done.
  - split; [by vm_compute|]. intros k v Hk. by rewrite lookup_nil in Hk.
  - exists b, b1, l1. split; [exact V|]. split; [exact H1|]. rewrite H2.
    + exact (HC (41, replicate 512 7) ltac:(right; left)).
    + unfold area, LOGSIZE, MAXOPBLOCKS. simpl. lia.
Defined.
