(* ===== verification/Fs.v ===== *)
(** * The file system

    Models [fs.c] over the redo log: the block allocator, the inode cache, the
    content of inodes, directories and path names.  An inode pointer is an
    index into [icache.inode]; a path or a name is a byte array with an index
    into it.  [icache.lock] makes the sections it protects atomic. *)

From S2P Require Import Prelude Block Sleeplock Bio Log CString Console.

Definition NINODE : nat := 50.
Definition NDEV : Z := 10.
Definition ROOTDEV : Z := 1.
Definition ROOTINO : Z := 1.
Definition NDIRECT : Z := 12.
Definition NINDIRECT : Z := BSIZE / 4.
Definition MAXFILE : Z := NDIRECT + NINDIRECT.
Definition BPB : Z := BSIZE * 8.
Definition DIRSIZ : nat := 14.
Definition T_DIR : Z := 1.
Definition T_FILE : Z := 2.
Definition T_DEV : Z := 3.

Record superblock := Superblock {
  sb_size : Z;
  sb_nblocks : Z;
  sb_ninodes : Z;
  sb_nlog_ : Z;
  sb_logstart_ : Z;
  sb_inodestart : Z;
  sb_bmapstart : Z
}.

Record inode := Inode {
  i_dev : Z;
  i_inum : Z;
  i_ref : Z;
  i_lock : sleeplock;
  i_valid : Z;
  i_type : Z;
  i_major : Z;
  i_minor : Z;
  i_nlink : Z;
  i_size : Z;
  i_addrs : list Z
}.

Definition with_ilock v ip := Inode (i_dev ip) (i_inum ip) (i_ref ip) v (i_valid ip) (i_type ip) (i_major ip) (i_minor ip) (i_nlink ip) (i_size ip) (i_addrs ip).
Definition with_ref v ip := Inode (i_dev ip) (i_inum ip) v (i_lock ip) (i_valid ip) (i_type ip) (i_major ip) (i_minor ip) (i_nlink ip) (i_size ip) (i_addrs ip).
Definition with_valid v ip := Inode (i_dev ip) (i_inum ip) (i_ref ip) (i_lock ip) v (i_type ip) (i_major ip) (i_minor ip) (i_nlink ip) (i_size ip) (i_addrs ip).
Definition with_type v ip := Inode (i_dev ip) (i_inum ip) (i_ref ip) (i_lock ip) (i_valid ip) v (i_major ip) (i_minor ip) (i_nlink ip) (i_size ip) (i_addrs ip).
Definition with_nlink v ip := Inode (i_dev ip) (i_inum ip) (i_ref ip) (i_lock ip) (i_valid ip) (i_type ip) (i_major ip) (i_minor ip) v (i_size ip) (i_addrs ip).
Definition with_size v ip := Inode (i_dev ip) (i_inum ip) (i_ref ip) (i_lock ip) (i_valid ip) (i_type ip) (i_major ip) (i_minor ip) (i_nlink ip) v (i_addrs ip).
Definition with_addrs v ip := Inode (i_dev ip) (i_inum ip) (i_ref ip) (i_lock ip) (i_valid ip) (i_type ip) (i_major ip) (i_minor ip) (i_nlink ip) (i_size ip) v.

(** [struct stat], filled in by [stati]. *)
Record stat := Stat { st_type : Z; st_dev : Z; st_ino : Z; st_nlink : Z; st_size : Z }.

(** The state of the file system; [f_out] is what was printed. *)
Record fsys := Fsys {
  lo : lst;
  sb : superblock;
  icache : list inode;
  f_out : list Z
}.

Definition set_lo v s := Fsys v (sb s) (icache s) (f_out s).
Definition set_sb v s := Fsys (lo s) v (icache s) (f_out s).
Definition set_icache v s := Fsys (lo s) (sb s) v (f_out s).
Definition set_fout v s := Fsys (lo s) (sb s) (icache s) v.

(** [struct dinode] number [k] of a block: 64 bytes. *)
Definition DINODE : nat := 64.
Definition IPB : Z := BSIZE / Z.of_nat DINODE.
Definition i16 (z : Z) : Z := (z + 2 ^ 15) mod 2 ^ 16 - 2 ^ 15.
Definition di_type (k : nat) (b : block) : Z := i16 (get_u16 (DINODE * k) b).
Definition di_major (k : nat) (b : block) : Z := i16 (get_u16 (DINODE * k + 2) b).
Definition di_minor (k : nat) (b : block) : Z := i16 (get_u16 (DINODE * k + 4) b).
Definition di_nlink (k : nat) (b : block) : Z := i16 (get_u16 (DINODE * k + 6) b).
Definition di_size (k : nat) (b : block) : Z := get_u32 (DINODE * k + 8) b.
Definition di_addrs (k : nat) (b : block) : list Z :=
  (fun j => get_u32 (DINODE * k + 12 + 4 * j) b) <$> seq 0 (Z.to_nat NDIRECT + 1).

(** [memmove(d + o, l, length l)] into another object. *)
Definition splice (o : nat) (l d : list Z) : list Z := take o d ++ l ++ drop (o + length l) d.

Fixpoint put_addrs (k j : nat) (l : list Z) (b : block) : block :=
  match l with
  | [] => b
  | a :: l' => put_addrs k (S j) l' (put_u32 (DINODE * k + 12 + 4 * j) a b)
  end.

(** The fields of [ip] that live on disk, into dinode [k]. *)
Definition put_dinode (k : nat) (ip : inode) (b : block) : block :=
  put_addrs k 0 (i_addrs ip)
    (put_u32 (DINODE * k + 8) (i_size ip)
      (put_u16 (DINODE * k + 6) (i_nlink ip)
        (put_u16 (DINODE * k + 4) (i_minor ip)
          (put_u16 (DINODE * k + 2) (i_major ip)
            (put_u16 (DINODE * k) (i_type ip) b))))).

Definition IBLOCK (i : Z) (sb : superblock) : Z := u32 (i / IPB + sb_inodestart sb).
Definition BBLOCK (b : Z) (sb : superblock) : Z := u32 (b / BPB + sb_bmapstart sb).

(** The bit of block [bi] in a bitmap block. *)
Definition bit_free (bi : nat) (d : block) : bool :=
  Z.land (nth (bi / 8) d 0) (Z.shiftl 1 (Z.of_nat (bi mod 8))) =? 0.
Definition bit_mark (bi : nat) (d : block) : block :=
  <[(bi / 8)%nat := Z.lor (nth (bi / 8) d 0) (Z.shiftl 1 (Z.of_nat (bi mod 8)))]> d.
Definition bit_clear (bi : nat) (d : block) : block :=
  <[(bi / 8)%nat := Z.land (nth (bi / 8) d 0) (Z.lnot (Z.shiftl 1 (Z.of_nat (bi mod 8))))]> d.

(** A device's functions, [None] for a null pointer. *)
Record devops := Devops {
  d_read : option (nat -> Z -> M fsys (Z * list Z));
  d_write : option (nat -> list Z -> Z -> M fsys Z)
}.

Section code.

Context (me : Z) (devsw : Z -> devops).

Definition on_lo {A} (c : M lst A) : M fsys A := zoom lo set_lo c.

Definition get_inode (ip : nat) : M fsys inode := fun s =>
  match icache s !! ip with Some i => Ok (i, s) | None => Fault end.

Definition upd_inode (ip : nat) (f : inode -> inode) : M fsys unit := fun s =>
  match icache s !! ip with Some i => Ok (tt, set_icache (<[ip := f i]> (icache s)) s) | None => Fault end.

(** The calls of the lower layers. *)
Definition bread_ (dev blockno : Z) : M fsys nat := on_lo (on_bio (bread me dev blockno)).
Definition brelse_ (b : nat) : M fsys unit := on_lo (on_bio (brelse me b)).
Definition data_ (b : nat) : M fsys block := on_lo (data_of b).
Definition set_data_ (b : nat) (d : block) : M fsys unit := on_lo (on_bio (set_data b d)).
Definition log_write_ (b : nat) : M fsys unit := on_lo (log_write b).

(** ** Blocks *)

Definition parse_sb (d : block) : superblock :=
  Superblock (get_u32 0 d) (get_u32 4 d) (get_u32 8 d) (get_u32 12 d) (get_u32 16 d) (get_u32 20 d) (get_u32 24 d).

Definition readsb (dev : Z) : M fsys unit :=
  let* bp := bread_ dev 1 in
  let* d := data_ bp in
  modify (set_sb (parse_sb d)) ;;;
  brelse_ bp.

Definition bzero (dev bno : Z) : M fsys unit :=
  let* bp := bread_ dev bno in
  set_data_ bp (replicate (Z.to_nat BSIZE) 0) ;;;
  log_write_ bp ;;;
  brelse_ bp.

(** The first free bit among [n] from [bi] on. *)
Fixpoint balloc_scan (n bi : nat) (d : block) : option nat :=
  match n with
  | O => None
  | S n' => if bit_free bi d then Some bi else balloc_scan n' (S bi) d
  end.

Fixpoint balloc_loop (fuel : nat) (dev b : Z) : M fsys Z :=
  let* sb := gets sb in
  if b <? sb_size sb then
    match fuel with
    | O => nofuel
    | S fuel' =>
        let* bp := bread_ dev (BBLOCK b sb) in
        let* d := data_ bp in
        match balloc_scan (Z.to_nat (Z.min BPB (sb_size sb - b))) 0 d with
        | Some bi =>
            set_data_ bp (bit_mark bi d) ;;;
            log_write_ bp ;;;
            brelse_ bp ;;;
            bzero dev (b + Z.of_nat bi) ;;;
            ret (b + Z.of_nat bi)
        | None =>
            brelse_ bp ;;;
            balloc_loop fuel' dev (b + BPB)
        end
    end
  else panic "balloc: out of blocks".

Definition balloc (dev : Z) : M fsys Z :=
  let* sb := gets sb in
  balloc_loop (S (Z.to_nat (sb_size sb / BPB))) dev 0.

Definition bfree (dev b : Z) : M fsys unit :=
  let* sb := gets sb in
  let* bp := bread_ dev (BBLOCK b sb) in
  let bi := Z.to_nat (b mod BPB) in
  let* d := data_ bp in
  if bit_free bi d then panic "freeing free block"
  else
    set_data_ bp (bit_clear bi d) ;;;
    log_write_ bp ;;;
    brelse_ bp.

(** ** Inodes *)

Definition iinit (dev : Z) : M fsys unit :=
  modify (fun s => set_icache (with_ilock initsleeplock <$> icache s) s) ;;;
  readsb dev ;;;
  let* s := gets sb in
  let* out := lift (cprintf (Some (codes "sb: size %d nblocks %d ninodes %d nlog %d logstart %d inodestart %d bmap start %d" ++ [10]))
    [AInt (sb_size s); AInt (sb_nblocks s); AInt (sb_ninodes s); AInt (sb_nlog_ s); AInt (sb_logstart_ s);
     AInt (sb_inodestart s); AInt (sb_bmapstart s)]) in
  modify (fun s => set_fout (f_out s ++ out) s).

(** The loop of [iget]: the cached entry, or else the first empty slot. *)
Fixpoint iget_scan (dev inum : Z) (l : list inode) (i : nat) (empty : option nat) : option nat * option nat :=
  match l with
  | [] => (None, empty)
  | ip :: l' =>
      if (0 <? i_ref ip) && (i_dev ip =? dev) && (i_inum ip =? inum) then (Some i, empty)
      else iget_scan dev inum l' (S i) (match empty with None => if i_ref ip =? 0 then Some i else None | _ => empty end)
  end.

Definition iget (dev inum : Z) : M fsys nat :=
  let* c := gets icache in
  match iget_scan dev inum c 0 None with
  | (Some ip, _) => upd_inode ip (fun i => with_ref (i_ref i + 1) i) ;;; ret ip
  | (None, None) => panic "iget: no inodes"
  | (None, Some ip) =>
      upd_inode ip (fun i => Inode dev inum 1 (i_lock i) 0 (i_type i) (i_major i) (i_minor i) (i_nlink i) (i_size i) (i_addrs i)) ;;;
      ret ip
  end.

(** [ialloc], from [inum] on. *)
Fixpoint ialloc_loop (n : nat) (dev inum type : Z) : M fsys nat :=
  match n with
  | O => panic "ialloc: no inodes"
  | S n' =>
      let* sb := gets sb in
      let* bp := bread_ dev (IBLOCK inum sb) in
      let k := Z.to_nat (inum mod IPB) in
      let* d := data_ bp in
      if di_type k d =? 0 then
        set_data_ bp (put_u16 (DINODE * k) type (splice (DINODE * k) (replicate DINODE 0) d)) ;;;
        log_write_ bp ;;;
        brelse_ bp ;;;
        iget dev inum
      else
        brelse_ bp ;;;
        ialloc_loop n' dev (inum + 1) type
  end.

Definition ialloc (dev type : Z) : M fsys nat :=
  let* sb := gets sb in ialloc_loop (Z.to_nat (sb_ninodes sb - 1)) dev 1 type.

Definition iupdate (ip : nat) : M fsys unit :=
  let* i := get_inode ip in
  let* sb := gets sb in
  let* bp := bread_ (i_dev i) (IBLOCK (i_inum i) sb) in
  let* d := data_ bp in
  set_data_ bp (put_dinode (Z.to_nat (i_inum i mod IPB)) i d) ;;;
  log_write_ bp ;;;
  brelse_ bp.

Definition idup (ip : nat) : M fsys nat :=
  upd_inode ip (fun i => with_ref (i_ref i + 1) i) ;;; ret ip.

(** [acquiresleep(&ip->lock)]; a lock that is held makes the caller wait. *)
Definition lock_inode (ip : nat) : M fsys unit :=
  let* i := get_inode ip in
  let '(l, ok) := acquiresleep me (i_lock i) in
  if ok then upd_inode ip (with_ilock l) else fun _ => Spin.

Definition unlock_inode (ip : nat) : M fsys unit :=
  upd_inode ip (fun i => with_ilock (releasesleep (i_lock i)) i).

(** The copy of dinode [k] of block [d]. *)
Definition load_dinode (k : nat) (d : block) (i : inode) : inode :=
  Inode (i_dev i) (i_inum i) (i_ref i) (i_lock i) 1 (di_type k d) (di_major k d) (di_minor k d) (di_nlink k d)
    (di_size k d) (di_addrs k d).

Definition ilock (ip : option nat) : M fsys unit :=
  match ip with
  | None => panic "ilock"
  | Some ip =>
      let* i := get_inode ip in
      if i_ref i <? 1 then panic "ilock"
      else
        lock_inode ip ;;;
        if i_valid i =? 0 then
          let* sb := gets sb in
          let* bp := bread_ (i_dev i) (IBLOCK (i_inum i) sb) in
          let* d := data_ bp in
          upd_inode ip (load_dinode (Z.to_nat (i_inum i mod IPB)) d) ;;;
          brelse_ bp ;;;
          let* i := get_inode ip in
          if i_type i =? 0 then panic "ilock: no type" else ret tt
        else ret tt
  end.

Definition iunlock (ip : option nat) : M fsys unit :=
  match ip with
  | None => panic "iunlock"
  | Some ip =>
      let* i := get_inode ip in
      if negb (holdingsleep me (i_lock i)) || (i_ref i <? 1) then panic "iunlock" else unlock_inode ip
  end.

(** ** Inode content *)

Definition addr_of (i : inode) (k : Z) : Z := nth (Z.to_nat k) (i_addrs i) 0.

Definition set_addr (k a : Z) (i : inode) : inode := with_addrs (<[Z.to_nat k := a]> (i_addrs i)) i.

Definition bmap (ip : nat) (bn : Z) : M fsys Z :=
  let* i := get_inode ip in
  if bn <? NDIRECT then
    if addr_of i bn =? 0 then
      let* addr := balloc (i_dev i) in
      upd_inode ip (set_addr bn addr) ;;;
      ret addr
    else ret (addr_of i bn)
  else
    let bn := bn - NDIRECT in
    if bn <? NINDIRECT then
      let* addr :=
        if addr_of i NDIRECT =? 0 then
          let* addr := balloc (i_dev i) in
          upd_inode ip (set_addr NDIRECT addr) ;;;
          ret addr
        else ret (addr_of i NDIRECT) in
      let* bp := bread_ (i_dev i) addr in
      let* a := data_ bp in
      let* addr :=
        if get_u32 (4 * Z.to_nat bn) a =? 0 then
          let* addr := balloc (i_dev i) in
          let* a := data_ bp in
          set_data_ bp (put_u32 (4 * Z.to_nat bn) addr a) ;;;
          log_write_ bp ;;;
          ret addr
        else ret (get_u32 (4 * Z.to_nat bn) a) in
      brelse_ bp ;;;
      ret addr
    else panic "bmap: out of range".

(** The direct blocks, [n] of them from [k] on. *)
Fixpoint itrunc_direct (n : nat) (ip : nat) (k : Z) : M fsys unit :=
  match n with
  | O => ret tt
  | S n' =>
      let* i := get_inode ip in
      (if negb (addr_of i k =? 0) then
         bfree (i_dev i) (addr_of i k) ;;;
         upd_inode ip (set_addr k 0)
       else ret tt) ;;;
      itrunc_direct n' ip (k + 1)
  end.

(** The entries of the indirect block in buffer [bp], [n] of them from [j] on. *)
Fixpoint itrunc_indirect (n : nat) (dev : Z) (bp j : nat) : M fsys unit :=
  match n with
  | O => ret tt
  | S n' =>
      let* a := data_ bp in
      (if negb (get_u32 (4 * j) a =? 0) then bfree dev (get_u32 (4 * j) a) else ret tt) ;;;
      itrunc_indirect n' dev bp (S j)
  end.

Definition itrunc (ip : nat) : M fsys unit :=
  itrunc_direct (Z.to_nat NDIRECT) ip 0 ;;;
  let* i := get_inode ip in
  (if negb (addr_of i NDIRECT =? 0) then
     let* bp := bread_ (i_dev i) (addr_of i NDIRECT) in
     itrunc_indirect (Z.to_nat NINDIRECT) (i_dev i) bp 0 ;;;
     brelse_ bp ;;;
     bfree (i_dev i) (addr_of i NDIRECT) ;;;
     upd_inode ip (set_addr NDIRECT 0)
   else ret tt) ;;;
  upd_inode ip (with_size 0) ;;;
  iupdate ip.

Definition iput (ip : nat) : M fsys unit :=
  lock_inode ip ;;;
  let* i := get_inode ip in
  (if negb (i_valid i =? 0) && (i_nlink i =? 0) then
     if i_ref i =? 1 then
       itrunc ip ;;;
       upd_inode ip (with_type 0) ;;;
       iupdate ip ;;;
       upd_inode ip (with_valid 0)
     else ret tt
   else ret tt) ;;;
  unlock_inode ip ;;;
  upd_inode ip (fun i => with_ref (i_ref i - 1) i).

Definition iunlockput (ip : nat) : M fsys unit :=
  iunlock (Some ip) ;;;
  iput ip.

Definition stati (ip : nat) : M fsys stat :=
  let* i := get_inode ip in ret (Stat (i_type i) (i32 (i_dev i)) (i_inum i) (i_nlink i) (i_size i)).

(** [min(n - tot, BSIZE - off%BSIZE)] *)
Definition chunk (off n tot : Z) : Z := Z.min (n - tot) (BSIZE - off mod BSIZE).

(** The loops of [readi] and [writei] go on to the next block each round, and
    [bmap] stops them behind the last one. *)
Definition rw_fuel : nat := S (Z.to_nat MAXFILE).

Fixpoint readi_loop (fuel : nat) (ip : nat) (off n tot : Z) (dst : list Z) : M fsys (list Z) :=
  if tot <? n then
    match fuel with
    | O => nofuel
    | S fuel' =>
        let* i := get_inode ip in
        let* addr := bmap ip (off / BSIZE) in
        let* bp := bread_ (i_dev i) addr in
        let m := chunk off n tot in
        let* d := data_ bp in
        brelse_ bp ;;;
        readi_loop fuel' ip (off + m) n (tot + m)
          (dst ++ take (Z.to_nat m) (drop (Z.to_nat (off mod BSIZE)) d))
    end
  else ret dst.

(** The result and the bytes put at [dst]. *)
Definition readi (ip : nat) (off n : Z) : M fsys (Z * list Z) :=
  let* i := get_inode ip in
  if i_type i =? T_DEV then
    if (i_major i <? 0) || (NDEV <=? i_major i) then ret (-1, [])
    else match d_read (devsw (i_major i)) with None => ret (-1, []) | Some f => f ip (i32 n) end
  else if (i_size i <? off) || (u32 (off + n) <? off) then ret (-1, [])
  else
    let n := if i_size i <? u32 (off + n) then i_size i - off else n in
    let* dst := readi_loop rw_fuel ip off n 0 [] in
    ret (i32 n, dst).

Fixpoint writei_loop (fuel : nat) (ip : nat) (src : list Z) (off n tot : Z) : M fsys Z :=
  if tot <? n then
    match fuel with
    | O => nofuel
    | S fuel' =>
        let* i := get_inode ip in
        let* addr := bmap ip (off / BSIZE) in
        let* bp := bread_ (i_dev i) addr in
        let m := chunk off n tot in
        let* d := data_ bp in
        set_data_ bp (splice (Z.to_nat (off mod BSIZE)) (take (Z.to_nat m) (drop (Z.to_nat tot) src)) d) ;;;
        log_write_ bp ;;;
        brelse_ bp ;;;
        writei_loop fuel' ip src (off + m) n (tot + m)
    end
  else ret off.

(** [src] is the array the pointer points to, of at least [n] bytes. *)
Definition writei (ip : nat) (src : list Z) (off n : Z) : M fsys Z :=
  let* i := get_inode ip in
  if i_type i =? T_DEV then
    if (i_major i <? 0) || (NDEV <=? i_major i) then ret (-1)
    else match d_write (devsw (i_major i)) with None => ret (-1) | Some f => f ip src (i32 n) end
  else if (i_size i <? off) || (u32 (off + n) <? off) then ret (-1)
  else if MAXFILE * BSIZE <? u32 (off + n) then ret (-1)
  else
    let* off := writei_loop rw_fuel ip src off n 0 in
    let* i := get_inode ip in
    (if (0 <? n) && (i_size i <? off) then
       upd_inode ip (with_size off) ;;;
       iupdate ip
     else ret tt) ;;;
    ret (i32 n).

(** ** Directories *)

(** [struct dirent]: [inum] and [name], 16 bytes. *)
Definition DIRENT : Z := 16.
Definition de_inum (de : list Z) : Z := get_u16 0 de.
Definition de_name (de : list Z) : list Z := drop 2 de.

Definition namecmp (s : list Z) (t : list Z) : result Z := KString.strncmp s 0 t 0 DIRSIZ.

Fixpoint dirlookup_loop (fuel : nat) (dp : nat) (name : list Z) (off : Z) : M fsys (option (nat * Z)) :=
  let* i := get_inode dp in
  if off <? i_size i then
    match fuel with
    | O => nofuel
    | S fuel' =>
        let* r := readi dp off DIRENT in
        if negb (fst r =? DIRENT) then panic "dirlookup read"
        else
          let de := snd r in
          if de_inum de =? 0 then dirlookup_loop fuel' dp name (off + DIRENT)
          else
            let* c := lift (namecmp name (de_name de)) in
            if c =? 0 then
              let* ip := iget (i_dev i) (de_inum de) in ret (Some (ip, off))
            else dirlookup_loop fuel' dp name (off + DIRENT)
    end
  else ret None.

(** The entry's inode, and its offset for [*poff]. *)
Definition dirlookup (dp : nat) (name : list Z) : M fsys (option (nat * Z)) :=
  let* i := get_inode dp in
  if negb (i_type i =? T_DIR) then panic "dirlookup not DIR"
  else dirlookup_loop (S (Z.to_nat (i_size i / DIRENT))) dp name 0.

Fixpoint dirlink_loop (fuel : nat) (dp : nat) (off : Z) (de : list Z) : M fsys (Z * list Z) :=
  let* i := get_inode dp in
  if off <? i_size i then
    match fuel with
    | O => nofuel
    | S fuel' =>
        let* r := readi dp off DIRENT in
        if negb (fst r =? DIRENT) then panic "dirlink read"
        else if de_inum (snd r) =? 0 then ret (off, snd r)
        else dirlink_loop fuel' dp (off + DIRENT) (snd r)
    end
  else ret (off, de).

Definition dirlink (dp : nat) (name : list Z) (inum : Z) : M fsys Z :=
  let* r := dirlookup dp name in
  match r with
  | Some (ip, _) => iput ip ;;; ret (-1)
  | None =>
      let* i := get_inode dp in
      let* r := dirlink_loop (S (Z.to_nat (i_size i / DIRENT))) dp 0 (replicate (Z.to_nat DIRENT) 0) in
      let '(off, de) := r in
      let* de := lift (KString.strncpy de 2 name 0 (Z.of_nat DIRSIZ)) in
      let* w := writei dp (put_u16 0 inum de) off DIRENT in
      if negb (w =? DIRENT) then panic "dirlink" else ret 0
  end.

(** ** Paths *)

(** [while( *path == '/') path++;] *)
Fixpoint skip_slashes (fuel : nat) (a : list Z) (p : nat) : result nat :=
  match fuel with
  | O => Fault
  | S f => let? c := rd a p in if c =? 47 then skip_slashes f a (S p) else Ok p
  end.

(** [while( *path != '/' && *path != 0) path++;] *)
Fixpoint skip_name (fuel : nat) (a : list Z) (p : nat) : result nat :=
  match fuel with
  | O => Fault
  | S f => let? c := rd a p in if negb (c =? 47) && negb (c =? 0) then skip_name f a (S p) else Ok p
  end.

(** The rest of the path and the new content of [name], [None] at the end. *)
Definition skipelem (a : list Z) (p : nat) (name : list Z) : result (option (nat * list Z)) :=
  let? p := skip_slashes (S (length a)) a p in
  let? c := rd a p in
  if c =? 0 then Ok None
  else
    let s := p in
    let? p := skip_name (S (length a)) a p in
    let len := (p - s)%nat in
    let? name :=
      (if decide (DIRSIZ <= len)%nat then Ok (splice 0 (take DIRSIZ (drop s a)) name)
       else wr (splice 0 (take len (drop s a)) name) len 0) in
    let? p := skip_slashes (S (length a)) a p in
    Ok (Some (p, name)).

Fixpoint namex_loop (fuel : nat) (ip : nat) (a : list Z) (p : nat) (parent : bool) (name : list Z)
  : M fsys (option nat * list Z) :=
  match fuel with
  | O => nofuel
  | S fuel' =>
      let* e := lift (skipelem a p name) in
      match e with
      | None => if parent then iput ip ;;; ret (None, name) else ret (Some ip, name)
      | Some (p, name) =>
          ilock (Some ip) ;;;
          let* i := get_inode ip in
          if negb (i_type i =? T_DIR) then iunlockput ip ;;; ret (None, name)
          else
            let* c := lift (rd a p) in
            if parent && (c =? 0) then iunlock (Some ip) ;;; ret (Some ip, name)
            else
              let* next := dirlookup ip name in
              match next with
              | None => iunlockput ip ;;; ret (None, name)
              | Some (next, _) => iunlockput ip ;;; namex_loop fuel' next a p parent name
              end
      end
  end.

(** [cwd] is [myproc()->cwd]. *)
Definition namex (cwd : nat) (a : list Z) (p : nat) (parent : bool) (name : list Z) : M fsys (option nat * list Z) :=
  let* c := lift (rd a p) in
  let* ip := if c =? 47 then iget ROOTDEV ROOTINO else idup cwd in
  namex_loop (S (length a)) ip a p parent name.

Definition namei (cwd : nat) (a : list Z) (p : nat) : M fsys (option nat) :=
  let* r := namex cwd a p false (replicate DIRSIZ 0) in ret (fst r).

Definition nameiparent (cwd : nat) (a : list Z) (p : nat) (name : list Z) : M fsys (option nat * list Z) :=
  namex cwd a p true name.

End code.
