(* ===== verification/FsTx.v ===== *)
(** * Transactions of the file system

    Between [begin_op] and [end_op] the file system code works on the content
    of the blocks as the buffer cache shows it.  [tview] is that view: the
    content [C], the blocks in the log [D], the blocks whose buffers are held
    [H]; the disk itself stays as it was in [DK].  The lemmas below say what the accesses
    to one block do to the view, and from them what the allocator does. *)

From S2P Require Import Prelude Block Sleeplock Bio Log Fs.

(** How many blocks a transaction may put in the log: [log_write] takes one
    more when fewer than this many are in; none outside a transaction. *)
Definition log_cap (l : log) : Z := if 1 <=? outstanding l then Z.min (LOGSIZE - 1) (lg_size l - 1) else 0.

Lemma log_cap_le l : log_cap l <= LOGSIZE - 1.
Proof. unfold log_cap, LOGSIZE, MAXOPBLOCKS. destruct (1 <=? outstanding l); lia. Qed.

Lemma log_cap_pos l : 0 < log_cap l -> log_cap l = Z.min (LOGSIZE - 1) (lg_size l - 1) /\ 1 <= outstanding l.
Proof. unfold log_cap. destruct (Z.leb_spec 1 (outstanding l)); [done|lia]. Qed.

Section tx.

Context (me : Z) (L : log) (DK : bst).

Record tview (s : lst) (C : gmap Z block) (D H : gset Z) : Prop := {
  t_view : bview me (bio s) C D H;
  t_disk : disk (bio s) = disk DK;
  t_wlog : wlog (bio s) = wlog DK;
  t_clean : forall n, n ∉ D -> C !! n = disk DK !! n;
  t_log : lg s = Log (lg_start L) (lg_size L) (outstanding L) (committing L) (lg_dev L) (lg_n (lg s)) (lg_block (lg s));
  t_len : length (lg_block (lg s)) = Z.to_nat LOGSIZE;
  t_n : 0 <= lg_n (lg s) <= LOGSIZE;
  t_logged : D = list_to_set (take (Z.to_nat (lg_n (lg s))) (lg_block (lg s)));
  t_nodup : NoDup (take (Z.to_nat (lg_n (lg s))) (lg_block (lg s)))
}.

Lemma t_size s C D H : tview s C D H -> Z.of_nat (size D) = lg_n (lg s).
Proof.
  intros T. pose proof (t_n _ _ _ _ T) as Hn. rewrite (t_logged _ _ _ _ T), size_list_to_set by apply T.
  rewrite length_take, (t_len _ _ _ _ T). unfold LOGSIZE in *. lia.
Qed.

Lemma on_lo_Ok {A} (c : M lst A) s x l : c (lo s) = Ok (x, l) -> on_lo c s = Ok (x, set_lo l s).
Proof. apply zoom_Ok. Qed.

Lemma set_lo_set_lo l l' s : set_lo l' (set_lo l s) = set_lo l' s.
Proof. done. Qed.

Lemma set_lo_id s : set_lo (lo s) s = s.
Proof. by destruct s. Qed.

Lemma set_bio_view s b C D H D' C' :
  tview s C D H -> D' = D -> bview me b C' D H -> disk b = disk DK -> wlog b = wlog DK -> (forall n, n ∉ D -> C' !! n = disk DK !! n) ->
  forall H', bview me b C' D H' -> tview (set_bio b s) C' D' H'.
Proof. intros [] -> V Hd Hw Hc H' V'. by constructor. Qed.

(** ** One block *)

(** A buffer for block [n] is at hand with the content of the block. *)
Lemma bread_tx s C D H n d :
  tview (lo s) C D H -> n ∉ H -> C !! n = Some d -> n ∈ D \/ (size (D ∪ H) < NBUF)%nat ->
  exists i l', bread_ me 1 n s = Ok (i, set_lo l' s) /\ tview l' C D ({[n]} ∪ H) /\ buf_at me (bio l') i n d /\
    (forall j m e, buf_at me (bio (lo s)) j m e -> buf_at me (bio l') j m e).
Proof.
  intros T Hn HC Hroom. destruct (bread_ok me (bio (lo s)) C D H n d (t_view _ _ _ _ T) Hn HC Hroom)
    as (i & b & Hr & Hv & Ha & Hd & Hw & Ho).
  exists i, (set_bio b (lo s)). split_and!; try done.
  - unfold bread_. by apply on_lo_Ok, on_bio_Ok.
  - destruct T. constructor; simpl; try done; congruence.
Qed.

Lemma data_tx s i n d : buf_at me (bio (lo s)) i n d -> data_ i s = Ok (d, s).
Proof.
  intros Ha. unfold data_. rewrite (on_lo_Ok _ _ d (lo s)); [by rewrite set_lo_id|].
  destruct (lo s) as [b l]. by apply (data_of_ok me b l i n d).
Qed.

Lemma brelse_tx s C D H i n d :
  tview (lo s) C D H -> buf_at me (bio (lo s)) i n d ->
  exists l', brelse_ me i s = Ok (tt, set_lo l' s) /\ tview l' C D (H ∖ {[n]}) /\
    (forall j m e, buf_at me (bio (lo s)) j m e -> j <> i -> buf_at me (bio l') j m e).
Proof.
  intros T Ha. destruct (brelse_ok me (bio (lo s)) C D H i n d (t_view _ _ _ _ T) Ha) as (b & Hr & Hv & Hd & Hw & Ho).
  { destruct (decide (n ∈ D)) as [?|Hn]; [by left|right]. rewrite (t_disk _ _ _ _ T), <- (t_clean _ _ _ _ T n Hn).
    by apply (buf_at_view me _ C D H i n d (t_view _ _ _ _ T)). }
  exists (set_bio b (lo s)). split_and!; try done.
  - unfold brelse_. by apply on_lo_Ok, on_bio_Ok.
  - destruct T. constructor; simpl; try done; congruence.
Qed.

Lemma absorb_in n bl : n ∈ bl -> bl !! absorb n bl = Some n.
Proof.
  induction bl as [|v bl IH]; [by intros H%elem_of_nil|]. intros H. simpl. destruct (Z.eqb_spec v n) as [-> |Hne]; [done|].
  apply IH. by apply elem_of_cons in H as [?|?].
Qed.

Lemma absorb_notin n bl : n ∉ bl -> absorb n bl = length bl.
Proof.
  induction bl as [|v bl IH]; [done|]. intros H. simpl. apply not_elem_of_cons in H as [? ?].
  destruct (Z.eqb_spec v n); [congruence|]. by rewrite IH.
Qed.

(** What [log_write] does to the log. *)
Lemma log_entry (bl : list Z) n v :
  0 <= n < LOGSIZE -> length bl = Z.to_nat LOGSIZE -> NoDup (take (Z.to_nat n) bl) ->
  let i := absorb v (take (Z.to_nat n) bl) in
  let n' := if Z.of_nat i =? n then n + 1 else n in
  (i < length bl)%nat /\ 0 <= n' <= LOGSIZE /\ NoDup (take (Z.to_nat n') (<[i := v]> bl)) /\
  (list_to_set (take (Z.to_nat n') (<[i := v]> bl)) : gset Z) = {[v]} ∪ list_to_set (take (Z.to_nat n) bl).
Proof.
  intros Hn Hl Hd i n'. assert (Hlt : length (take (Z.to_nat n) bl) = Z.to_nat n) by (rewrite length_take; lia).
  destruct (decide (v ∈ take (Z.to_nat n) bl)) as [Hin|Hin].
  - pose proof (absorb_in _ _ Hin) as Hi. fold i in Hi. pose proof (lookup_lt_Some _ _ _ Hi) as Hlti.
    assert (n' = n) as -> by (unfold n'; destruct (Z.eqb_spec (Z.of_nat i) n); lia).
    rewrite lookup_take_lt in Hi by lia. rewrite list_insert_id by done. split_and!; try done; try lia.
    apply set_eq. intros x. rewrite elem_of_union, elem_of_singleton, elem_of_list_to_set.
    split; [tauto|]. by intros [-> |?].
  - pose proof (absorb_notin _ _ Hin) as Hi. fold i in Hi. rewrite Hlt in Hi.
    assert (n' = n + 1) as -> by (unfold n'; destruct (Z.eqb_spec (Z.of_nat i) n); lia).
    replace (Z.to_nat (n + 1)) with (S i) by lia.
    rewrite (take_S_r _ _ v) by (apply list_lookup_insert_eq; lia). rewrite take_insert_ge by lia. rewrite Hi.
    split_and!; try lia.
    + apply NoDup_app. split; [done|]. split; [|apply NoDup_singleton]. intros x Hx ->%list_elem_of_singleton. done.
    + rewrite list_to_set_app_L. simpl. apply set_eq. intros x. rewrite !elem_of_union, elem_of_singleton, elem_of_empty. tauto.
Qed.

(** A held buffer is changed and put in the log. *)
Lemma log_write_tx s C D H i n d d' :
  tview (lo s) C D H -> buf_at me (bio (lo s)) i n d -> Z.of_nat (size D) < log_cap L ->
  exists l', (forall A (k : M fsys A), (set_data_ i d' ;;; log_write_ i ;;; k) s = k (set_lo l' s)) /\
    tview l' (<[n := d']> C) ({[n]} ∪ D) H /\ buf_at me (bio l') i n d' /\
    (forall j m e, buf_at me (bio (lo s)) j m e -> j <> i -> buf_at me (bio l') j m e).
Proof.
  intros T Ha Hcap. pose proof (t_size _ _ _ _ T) as Hsz. rewrite Hsz in Hcap.
  destruct (log_cap_pos L) as [Ecap Hout]; [lia|]. rewrite Ecap in Hcap.
  destruct (set_data_ok me (bio (lo s)) C D H i n d d' (t_view _ _ _ _ T) Ha) as (b1 & H1 & V1 & A1 & D1 & W1 & O1).
  destruct (mark_dirty_ok me b1 _ D H i n d' V1 A1) as (b2 & H2 & V2 & A2 & D2 & W2 & O2).
  pose proof (t_n _ _ _ _ T) as Hn. pose proof (t_len _ _ _ _ T) as Hlen.
  destruct (log_entry (lg_block (lg (lo s))) (lg_n (lg (lo s))) n) as (Hi & Hn' & Hnd & Hset); [lia|done|apply T|].
  set (ix := absorb n _) in *. set (n' := if _ =? _ then _ else _) in *.
  set (bl' := <[ix := n]> (lg_block (lg (lo s)))) in *.
  set (l := lg (lo s)) in *.
  set (l' := Lst b2 (Log (lg_start L) (lg_size L) (outstanding L) (committing L) (lg_dev L) n' bl')).
  assert (E : log_write i (set_bio b1 (lo s)) = Ok (tt, l')).
  { unfold log_write. step. cbn [lg set_bio]. fold l.
    assert (El : l = Log (lg_start L) (lg_size L) (outstanding L) (committing L) (lg_dev L) (lg_n l) (lg_block l)) by apply T.
    assert (Eo : outstanding l = outstanding L) by (by rewrite El). assert (Es : lg_size l = lg_size L) by (by rewrite El).
    replace ((LOGSIZE <=? lg_n l) || (lg_size l - 1 <=? lg_n l)) with false.
    2:{ symmetry. apply orb_false_iff. rewrite Es. split; apply Z.leb_gt; lia. }
    replace (outstanding l <? 1) with false by (rewrite Eo; blia).
    assert (Hno : blockno_of i (set_bio b1 (lo s)) = Ok (n, set_bio b1 (lo s))).
    { destruct A1 as (c & Hc & _ & Hcn & _). unfold blockno_of. rewrite (on_bio_Ok _ _ n b1); [done|].
      cbn [bio set_bio]. rewrite (bind_Ok _ _ _ _ _ (get_buf_ok _ _ _ Hc)). by rewrite Hcn. }
    rewrite (bind_Ok _ _ _ _ _ Hno). fold ix.
    erewrite bind_Ok by (unfold put_block; cbn [lg set_bio]; fold l; rewrite decide_True by done; reflexivity).
    unfold set_lg, set_bio. cbn [bio lg]. fold l. fold bl'.
    assert (Hif : (if Z.of_nat ix =? lg_n l then upd_lg (with_n (lg_n l + 1)) else ret tt) (Lst b1 (with_block bl' l))
                  = Ok (tt, Lst b1 (with_n n' (with_block bl' l)))).
    { unfold n'. destruct (Z.of_nat ix =? lg_n l); done. }
    rewrite (bind_Ok _ _ _ _ _ Hif). rewrite (on_bio_Ok _ _ tt b2) by exact H2. unfold set_bio, l'. cbn [lg].
    by rewrite El. }
  exists l'. split_and!; try done.
  - intros A k. unfold set_data_. rewrite (bind_Ok _ _ _ _ _ (on_lo_Ok _ _ _ _ (on_bio_Ok _ _ _ _ H1))).
    unfold log_write_. by rewrite (bind_Ok _ _ _ _ _ (on_lo_Ok _ (set_lo (set_bio b1 (lo s)) s) _ _ E)).
  - unfold l'. constructor; cbn [lg bio lg_n lg_block]; try done.
    + rewrite D2, D1. apply T.
    + rewrite W2, W1. apply T.
    + intros m Hm. rewrite not_elem_of_union, not_elem_of_singleton in Hm. destruct Hm as [Hne Hm].
      rewrite lookup_insert_ne by congruence. by apply (t_clean _ _ _ _ T).
    + unfold bl'. by rewrite length_insert.
    + fold l. rewrite Hset. f_equal. apply T.
  - intros j m e Hj Hne. apply O2. by apply O1.
Qed.

(** ... and released. *)
Lemma update_tx s C D H i n d d' :
  tview (lo s) C D H -> buf_at me (bio (lo s)) i n d -> Z.of_nat (size D) < log_cap L ->
  exists l', (forall A (k : M fsys A), (set_data_ i d' ;;; log_write_ i ;;; brelse_ me i ;;; k) s = k (set_lo l' s)) /\
    (set_data_ i d' ;;; log_write_ i ;;; brelse_ me i) s = Ok (tt, set_lo l' s) /\
    tview l' (<[n := d']> C) ({[n]} ∪ D) (H ∖ {[n]}) /\
    (forall j m e, buf_at me (bio (lo s)) j m e -> j <> i -> buf_at me (bio l') j m e).
Proof.
  intros T Ha Hcap. destruct (log_write_tx s C D H i n d d' T Ha Hcap) as (l1 & Hk & T1 & A1 & O1).
  destruct (brelse_tx (set_lo l1 s) _ _ _ i n d' T1 A1) as (l2 & H2 & T2 & O2).
  exists l2. split; [|split; [by rewrite Hk, H2|split; [done|eauto]]].
  intros A k. by rewrite Hk, (bind_Ok _ _ _ _ _ H2).
Qed.

(** One more block than are in the log can be read, next to one that is held. *)
Lemma room_tx (D H : gset Z) : Z.of_nat (size D) < log_cap L -> (size H <= 1)%nat -> (size (D ∪ H) < NBUF)%nat.
Proof.
  pose proof (log_cap_le L) as Hc. unfold LOGSIZE, MAXOPBLOCKS in Hc. intros Hd Hh. rewrite size_union_alt.
  assert (size (H ∖ D) <= size H)%nat by (apply subseteq_size; set_solver). unfold NBUF. lia.
Qed.

Lemma not_held_again (H : gset Z) n : n ∉ H -> ({[n]} ∪ H) ∖ {[n]} = H.
Proof. set_solver. Qed.

(** A block is read and released. *)
Lemma read_tx s C D H n d A (k : nat -> block -> M fsys A) :
  tview (lo s) C D H -> n ∉ H -> C !! n = Some d -> n ∈ D \/ (size (D ∪ H) < NBUF)%nat ->
  exists i l', (let* bp := bread_ me 1 n in let* d := data_ bp in k bp d) s = k i d (set_lo l' s) /\
    tview l' C D ({[n]} ∪ H) /\ buf_at me (bio l') i n d /\
    (forall j m e, buf_at me (bio (lo s)) j m e -> buf_at me (bio l') j m e).
Proof.
  intros T Hn HC Hroom. destruct (bread_tx s C D H n d T Hn HC Hroom) as (i & l1 & H1 & T1 & A1 & O1).
  exists i, l1. split; [|done]. by rewrite (bind_Ok _ _ _ _ _ H1), (bind_Ok _ _ _ _ _ (data_tx (set_lo l1 s) i n d A1)).
Qed.

(** A buffer held throughout is another one than a buffer of another block. *)
Lemma buf_at_ne b i j n m d e : buf_at me b i n d -> buf_at me b j m e -> n <> m -> i <> j.
Proof. intros (x & Hx & _ & Hn & _) (y & Hy & _ & Hm & _) Hne ->. rewrite Hx in Hy. congruence. Qed.

Lemma buf_at_eq_block b i n m d e : buf_at me b i n d -> buf_at me b i m e -> n = m.
Proof. intros (x & Hx & _ & Hn & _) (y & Hy & _ & Hm & _). rewrite Hx in Hy. congruence. Qed.

End tx.
