(* ===== verification/FsAlloc.v ===== *)
(** * The block allocator

    [balloc] and [bfree] against the list of free blocks that the bitmap
    stands for. *)

From S2P Require Import Prelude Block Sleeplock Bio Log Fs FsTx.

(** ** Bits of a bitmap block *)

Lemma land_bit x k : 0 <= k -> (Z.land x (Z.shiftl 1 k) =? 0) = negb (Z.testbit x k).
Proof.
  intros Hk. rewrite Z.shiftl_1_l. destruct (Z.testbit x k) eqn:E; simpl.
  - apply Z.eqb_neq. intros H0. apply (f_equal (fun z => Z.testbit z k)) in H0.
    rewrite Z.land_spec, Z.pow2_bits_true, E, Z.bits_0 in H0 by done. done.
  - apply Z.eqb_eq. apply Z.bits_inj_0. intros j. rewrite Z.land_spec.
    destruct (decide (j = k)) as [-> |Hne]; [by rewrite E|]. rewrite Z.pow2_bits_false by done. apply andb_false_r.
Qed.

Lemma bit_free_testbit bi d : bit_free bi d = negb (Z.testbit (nth (bi / 8) d 0) (Z.of_nat (bi mod 8))).
Proof. apply land_bit. lia. Qed.

Lemma nth_insert (d : list Z) i j v : (i < length d)%nat -> nth j (<[i := v]> d) 0 = if decide (j = i) then v else nth j d 0.
Proof.
  intros Hi. rewrite !nth_lookup. destruct (decide (j = i)) as [-> |Hne].
  - by rewrite list_lookup_insert_eq.
  - by rewrite list_lookup_insert_ne by done.
Qed.

Lemma same_bit (i j : nat) : (i / 8)%nat = (j / 8)%nat -> (i mod 8)%nat = (j mod 8)%nat -> i = j.
Proof. intros H1 H2. rewrite (Nat.div_mod_eq i 8), (Nat.div_mod_eq j 8). congruence. Qed.

Lemma bit_free_mark bi j d :
  (bi / 8 < length d)%nat -> bit_free j (bit_mark bi d) = bit_free j d && bool_decide (j <> bi).
Proof.
  intros Hl. rewrite !bit_free_testbit. unfold bit_mark. rewrite nth_insert by done.
  destruct (decide (j / 8 = bi / 8)%nat) as [E|E].
  - rewrite Z.lor_spec, Z.shiftl_1_l, E. destruct (decide (j = bi)) as [-> |Hne].
    + rewrite Z.pow2_bits_true by lia. rewrite orb_true_r, (bool_decide_false (bi <> bi)) by tauto. by rewrite andb_false_r.
    + rewrite Z.pow2_bits_false, orb_false_r, bool_decide_true, andb_true_r; [done|done|].
      intros Hm. apply Hne. apply same_bit; [done|lia].
  - rewrite bool_decide_true by congruence. by rewrite andb_true_r.
Qed.

Lemma bit_free_clear bi j d :
  (bi / 8 < length d)%nat -> bit_free j (bit_clear bi d) = bit_free j d || bool_decide (j = bi).
Proof.
  intros Hl. rewrite !bit_free_testbit. unfold bit_clear. rewrite nth_insert by done.
  destruct (decide (j / 8 = bi / 8)%nat) as [E|E].
  - rewrite Z.land_spec, Z.lnot_spec, Z.shiftl_1_l, E by lia. destruct (decide (j = bi)) as [-> |Hne].
    + rewrite Z.pow2_bits_true by lia. rewrite bool_decide_true by done. by rewrite andb_false_r, orb_true_r.
    + rewrite Z.pow2_bits_false, bool_decide_false by first [congruence|intros Hm; apply Hne; apply same_bit; [done|lia]].
      by rewrite andb_true_r, orb_false_r.
  - rewrite bool_decide_false by congruence. by rewrite orb_false_r.
Qed.

Lemma byte_bits x : 0 <= x < 256 <-> 0 <= x /\ forall k, 8 <= k -> Z.testbit x k = false.
Proof.
  split.
  - intros Hx. split; [lia|]. intros k Hk. destruct (decide (x = 0)) as [-> |Hne]; [apply Z.bits_0|].
    apply Z.bits_above_log2; [lia|]. assert (Z.log2 x < 8); [|lia]. apply Z.log2_lt_pow2; lia.
  - intros [H0 Hb]. split; [done|]. destruct (Z_lt_dec x 256) as [?|Hge]; [done|exfalso].
    assert (Hl : 8 <= Z.log2 x) by (apply Z.log2_le_pow2; lia).
    specialize (Hb _ Hl). rewrite Z.bit_log2 in Hb by lia. done.
Qed.

Lemma nth_byte d i : bytes d -> 0 <= nth i d 0 < 256.
Proof.
  intros Hb. rewrite nth_lookup. destruct (d !! i) eqn:E; simpl; [|lia]. by apply (proj1 (Forall_lookup _ _) Hb i).
Qed.

Lemma small_pow (bi : nat) k : 8 <= k -> Z.testbit (Z.shiftl 1 (Z.of_nat (bi mod 8))) k = false.
Proof.
  intros Hk. rewrite Z.shiftl_1_l. apply Z.pow2_bits_false. pose proof (Nat.mod_upper_bound bi 8). lia.
Qed.

Lemma insert_block i v d : is_block d -> 0 <= v < 256 -> is_block (<[i := v]> d).
Proof. intros [Hl Hb] Hv. split; [by rewrite length_insert|]. by apply Forall_insert. Qed.

Lemma bit_mark_block bi d : is_block d -> is_block (bit_mark bi d).
Proof.
  intros Hd. apply insert_block; [done|]. destruct (proj1 (byte_bits _) (nth_byte d (bi / 8) (proj2 Hd))) as [H0 Hb].
  apply byte_bits. split; [apply Z.lor_nonneg; split; [done|apply Z.shiftl_nonneg; lia]|].
  intros k Hk. by rewrite Z.lor_spec, Hb, small_pow.
Qed.

Lemma bit_clear_block bi d : is_block d -> is_block (bit_clear bi d).
Proof.
  intros Hd. apply insert_block; [done|]. destruct (proj1 (byte_bits _) (nth_byte d (bi / 8) (proj2 Hd))) as [H0 Hb].
  apply byte_bits. split; [apply Z.land_nonneg; by left|].
  intros k Hk. by rewrite Z.land_spec, Hb.
Qed.

(** ** The free list *)

(** The disk layout that [mkfs] chooses: log, inodes, bitmap, data. *)
Record layout (sb : superblock) : Prop := {
  l_size : 0 <= sb_size sb < 2 ^ 31;
  l_inode : 1 < sb_inodestart sb;
  l_bitmap : 0 <= sb_ninodes sb /\ sb_inodestart sb + sb_ninodes sb / IPB < sb_bmapstart sb;
  l_data : sb_bmapstart sb + sb_size sb / BPB < sb_size sb
}.

Definition datastart (sb : superblock) : Z := sb_bmapstart sb + sb_size sb / BPB + 1.

Definition free_bit (sb : superblock) (C : gmap Z block) (b : Z) : bool :=
  match C !! BBLOCK b sb with Some d => bit_free (Z.to_nat (b mod BPB)) d | None => false end.

Definition free_list (sb : superblock) (C : gmap Z block) : list Z :=
  filter (fun b => free_bit sb C b = true) (seqZ 0 (sb_size sb)).

(** All blocks behind the log are there, and no block of the fixed areas is
    free. *)
Record alloc_ok (sb : superblock) (C : gmap Z block) : Prop := {
  a_layout : layout sb;
  a_blocks : forall b, sb_inodestart sb <= b < sb_size sb -> exists d, C !! b = Some d /\ is_block d;
  a_fixed : forall b, 0 <= b < datastart sb -> free_bit sb C b = false
}.

Lemma filter_ext_in (P Q : Z -> Prop) `{!forall x, Decision (P x)} `{!forall x, Decision (Q x)} (l : list Z) :
  (forall x, x ∈ l -> P x <-> Q x) -> filter P l = filter Q l.
Proof.
  induction l as [|x l IH]; intros Hi; [done|]. rewrite !filter_cons, IH by set_solver.
  assert (Hx : P x <-> Q x) by (apply Hi; set_solver). destruct (decide (P x)), (decide (Q x)); tauto.
Qed.

Lemma filter_all (P : Z -> Prop) `{!forall x, Decision (P x)} (l : list Z) : (forall x, x ∈ l -> P x) -> filter P l = l.
Proof.
  induction l as [|x l IH]; intros Hi; [done|]. rewrite filter_cons_True by (apply Hi; set_solver). by rewrite IH by set_solver.
Qed.

Lemma filter_head (P : Z -> Prop) `{!forall x, Decision (P x)} a n b r :
  filter P (seqZ a n) = b :: r -> a <= b < a + n /\ P b /\ forall x, a <= x < b -> ~ P x.
Proof.
  intros E. assert (Hb : b ∈ filter P (seqZ a n)) by (rewrite E; set_solver).
  apply list_elem_of_filter in Hb as [HP Hb]. apply elem_of_seqZ in Hb. split; [done|]. split; [done|].
  intros x Hx Px. revert E. replace n with ((b - a) + (n - (b - a))) by lia. rewrite seqZ_app by lia.
  rewrite filter_app. destruct (filter P (seqZ a (b - a))) as [|y l] eqn:Ey.
  - intros _. assert (Hin : x ∈ filter P (seqZ a (b - a))) by (apply list_elem_of_filter; split; [done|apply elem_of_seqZ; lia]).
    rewrite Ey in Hin. by apply elem_of_nil in Hin.
  - simpl. intros [= -> _]. assert (Hin : b ∈ filter P (seqZ a (b - a))) by (rewrite Ey; set_solver).
    apply list_elem_of_filter in Hin as [_ Hin]. apply elem_of_seqZ in Hin. lia.
Qed.

Section layout.

Context (sb : superblock) (Hl : layout sb).

Lemma bitmap_index b n : 0 <= b <= n -> 0 <= b / BPB <= n / BPB.
Proof. intros Hb. split; [apply Z.div_pos; [lia|done]|apply Z.div_le_mono; [done|lia]]. Qed.

Lemma BBLOCK_eq b : 0 <= b < sb_size sb -> BBLOCK b sb = sb_bmapstart sb + b / BPB.
Proof.
  intros Hb. destruct Hl. unfold BBLOCK. rewrite Z.add_comm. apply u32_small. unfold u32_range.
  assert (0 <= sb_ninodes sb / IPB) by (apply Z.div_pos; [lia|done]). pose proof (bitmap_index b (sb_size sb) ltac:(lia)). lia.
Qed.

Lemma BBLOCK_fixed b : 0 <= b < sb_size sb -> 1 < BBLOCK b sb < datastart sb.
Proof.
  intros Hb. rewrite BBLOCK_eq by done. unfold datastart. destruct Hl.
  assert (0 <= sb_ninodes sb / IPB) by (apply Z.div_pos; [lia|done]). pose proof (bitmap_index b (sb_size sb) ltac:(lia)). lia.
Qed.

Lemma datastart_le : 0 <= datastart sb <= sb_size sb.
Proof.
  unfold datastart. destruct Hl. assert (0 <= sb_ninodes sb / IPB) by (apply Z.div_pos; [lia|done]).
  assert (0 <= sb_size sb / BPB) by (apply Z.div_pos; [lia|done]). lia.
Qed.

Lemma areas_le : 1 < sb_inodestart sb < sb_bmapstart sb /\ sb_bmapstart sb < datastart sb.
Proof.
  unfold datastart. destruct Hl. assert (0 <= sb_ninodes sb / IPB) by (apply Z.div_pos; [lia|done]).
  assert (0 <= sb_size sb / BPB) by (apply Z.div_pos; [lia|done]). lia.
Qed.

Lemma bit_in_block b d : is_block d -> (Z.to_nat (b mod BPB) / 8 < length d)%nat.
Proof.
  intros [Hd _]. rewrite Hd. pose proof (Z.mod_pos_bound b BPB ltac:(done)) as Hb.
  apply Nat.Div0.div_lt_upper_bound. unfold BPB, BSIZE in *. lia.
Qed.

Lemma mod_same_block x b :
  0 <= x < sb_size sb -> 0 <= b < sb_size sb -> BBLOCK x sb = BBLOCK b sb -> x <> b ->
  Z.to_nat (x mod BPB) <> Z.to_nat (b mod BPB).
Proof.
  intros Hx Hb. rewrite !BBLOCK_eq by done. intros Hd Hne E.
  pose proof (Z.div_mod x BPB ltac:(done)). pose proof (Z.div_mod b BPB ltac:(done)).
  pose proof (Z.mod_pos_bound b BPB ltac:(done)). pose proof (Z.mod_pos_bound x BPB ltac:(done)).
  assert (x / BPB = b / BPB) as Hq by lia. rewrite Hq in *. lia.
Qed.

Lemma free_bit_mark C b d x :
  0 <= b < sb_size sb -> 0 <= x < sb_size sb -> C !! BBLOCK b sb = Some d -> is_block d ->
  free_bit sb (<[BBLOCK b sb := bit_mark (Z.to_nat (b mod BPB)) d]> C) x = free_bit sb C x && bool_decide (x <> b).
Proof.
  intros Hb Hx HC Hd. unfold free_bit. destruct (decide (BBLOCK x sb = BBLOCK b sb)) as [E|E].
  - rewrite E, lookup_insert_eq, HC, bit_free_mark by (by apply bit_in_block). f_equal. apply bool_decide_ext.
    split; [congruence|]. by apply mod_same_block.
  - rewrite lookup_insert_ne by congruence. rewrite (bool_decide_true (x <> b)) by congruence. by rewrite andb_true_r.
Qed.

Lemma free_bit_clear C b d x :
  0 <= b < sb_size sb -> 0 <= x < sb_size sb -> C !! BBLOCK b sb = Some d -> is_block d ->
  free_bit sb (<[BBLOCK b sb := bit_clear (Z.to_nat (b mod BPB)) d]> C) x = free_bit sb C x || bool_decide (x = b).
Proof.
  intros Hb Hx HC Hd. unfold free_bit. destruct (decide (BBLOCK x sb = BBLOCK b sb)) as [E|E].
  - rewrite E, lookup_insert_eq, HC, bit_free_clear by (by apply bit_in_block). f_equal. apply bool_decide_ext.
    split; [|congruence]. intros Hm. destruct (decide (x = b)) as [?|Hne]; [done|].
    exfalso. by apply (mod_same_block x b Hx Hb E Hne).
  - rewrite lookup_insert_ne by congruence. rewrite (bool_decide_false (x = b)) by congruence. by rewrite orb_false_r.
Qed.

Lemma free_bit_data C n v x : datastart sb <= n -> 0 <= x < sb_size sb -> free_bit sb (<[n := v]> C) x = free_bit sb C x.
Proof.
  intros Hn Hx. unfold free_bit. rewrite lookup_insert_ne; [done|]. pose proof (BBLOCK_fixed x Hx). lia.
Qed.

(** A block outside the bitmap is written. *)
Lemma free_bit_inode C n v x : n < sb_bmapstart sb -> 0 <= x < sb_size sb -> free_bit sb (<[n := v]> C) x = free_bit sb C x.
Proof.
  intros Hn Hx. unfold free_bit. rewrite lookup_insert_ne; [done|]. rewrite BBLOCK_eq by done.
  pose proof (bitmap_index x (sb_size sb) ltac:(lia)). lia.
Qed.

Lemma elem_free C b : b ∈ free_list sb C <-> 0 <= b < sb_size sb /\ free_bit sb C b = true.
Proof. unfold free_list. rewrite list_elem_of_filter, elem_of_seqZ. split; intros [? ?]; split; done || lia. Qed.

Lemma free_list_ext C C' :
  (forall x, 0 <= x < sb_size sb -> free_bit sb C' x = free_bit sb C x) -> free_list sb C' = free_list sb C.
Proof.
  intros H. apply filter_ext_in. intros x Hx. apply elem_of_seqZ in Hx. rewrite H by lia. done.
Qed.

(** The head of the list is taken. *)
Lemma free_list_take C C' b r :
  (forall x, 0 <= x < sb_size sb -> free_bit sb C' x = free_bit sb C x && bool_decide (x <> b)) ->
  free_list sb C = b :: r -> free_list sb C' = r.
Proof.
  intros H E. assert (Hf : free_list sb C' = filter (fun x => x <> b) (free_list sb C)).
  { unfold free_list. rewrite list_filter_filter. apply filter_ext_in. intros x Hx. apply elem_of_seqZ in Hx.
    rewrite H, andb_true_iff, bool_decide_eq_true by lia. tauto. }
  assert (Hnd : NoDup (b :: r)) by (rewrite <- E; apply NoDup_filter, NoDup_seqZ).
  apply NoDup_cons in Hnd as [Hnb _]. rewrite Hf, E, filter_cons_False by tauto.
  apply filter_all. intros x Hx ->. done.
Qed.

Lemma free_list_head C b r :
  free_list sb C = b :: r ->
  0 <= b < sb_size sb /\ free_bit sb C b = true /\ forall x, 0 <= x < b -> free_bit sb C x = false.
Proof.
  intros E. destruct (filter_head _ _ _ _ _ E) as (H1 & H2 & H3). split; [lia|]. split; [done|].
  intros x Hx. specialize (H3 x Hx). by destruct (free_bit sb C x).
Qed.

End layout.

Section alloc.

Context (me : Z) (L : log) (DK : bst) (sk : superblock).

Abbreviation tview := (tview me L DK).

(** The buffers held while the allocator runs: at most one, of a data block in use. *)
Definition held_ok (C : gmap Z block) (H : gset Z) : Prop :=
  (size H <= 1)%nat /\ forall x, x ∈ H -> datastart sk <= x < sb_size sk /\ free_bit sk C x = false.

Lemma bzero_tx s C D H n d :
  tview (lo s) C D H -> n ∉ H -> C !! n = Some d -> Z.of_nat (size D) < log_cap L -> (size H <= 1)%nat ->
  exists l', bzero me 1 n s = Ok (tt, set_lo l' s) /\
    tview l' (<[n := replicate (Z.to_nat BSIZE) 0]> C) ({[n]} ∪ D) H /\
    (forall j m e, buf_at me (bio (lo s)) j m e -> buf_at me (bio l') j m e).
Proof.
  intros T Hn HC Hcap Hh. unfold bzero.
  destruct (bread_tx me L DK s C D H n d T Hn HC) as (i & l1 & H1 & T1 & A1 & O1); [right; by eapply room_tx|].
  rewrite (bind_Ok _ _ _ _ _ H1).
  destruct (update_tx me L DK (set_lo l1 s) C D _ i n d (replicate (Z.to_nat BSIZE) 0) T1 A1 Hcap) as (l2 & _ & H2 & T2 & O2).
  exists l2. split; [by rewrite H2|]. rewrite not_held_again in T2 by done. split; [done|].
  intros j m e Hj. apply O2; [by apply O1|]. intros ->.
  apply Hn. pose proof (buf_at_eq_block me (bio l1) i m n e d (O1 _ _ _ Hj) A1) as ->.
  by apply (buf_at_view me _ C D H i n e (t_view _ _ _ _ _ _ _ T)).
Qed.

Lemma scan_Some n : forall bi d k, balloc_scan n bi d = Some k ->
  (bi <= k < bi + n)%nat /\ bit_free k d = true /\ forall j, (bi <= j < k)%nat -> bit_free j d = false.
Proof.
  induction n as [|n IH]; intros bi d k; simpl; [done|]. destruct (bit_free bi d) eqn:E.
  - intros [= ->]. split; [lia|]. split; [done|]. intros j Hj. lia.
  - intros (H1 & H2 & H3)%IH. split; [lia|]. split; [done|]. intros j Hj.
    destruct (decide (j = bi)) as [-> |?]; [done|]. apply H3. lia.
Qed.

Lemma scan_None n : forall bi d, balloc_scan n bi d = None -> forall j, (bi <= j < bi + n)%nat -> bit_free j d = false.
Proof.
  induction n as [|n IH]; intros bi d; simpl; intros H j Hj; [lia|]. destruct (bit_free bi d) eqn:E; [done|].
  destruct (decide (j = bi)) as [-> |?]; [done|]. apply (IH _ _ H). lia.
Qed.

(** The bit that stands for block [b0 + k] in the bitmap block of [b0]. *)
Lemma chunk_bit C b0 k d :
  layout sk -> 0 <= b0 -> b0 mod BPB = 0 -> 0 <= k < BPB -> b0 + k < sb_size sk -> C !! BBLOCK b0 sk = Some d ->
  BBLOCK (b0 + k) sk = BBLOCK b0 sk /\ Z.to_nat ((b0 + k) mod BPB) = Z.to_nat k /\
  free_bit sk C (b0 + k) = bit_free (Z.to_nat k) d.
Proof.
  intros Hl Hb Hm Hk Hs HC. assert (E1 : (b0 + k) mod BPB = k).
  { rewrite Z.add_mod, Hm, Z.add_0_l, Z.mod_mod, Z.mod_small by done || lia. done. }
  assert (E2 : (b0 + k) / BPB = b0 / BPB).
  { pose proof (Z.div_mod b0 BPB ltac:(done)). pose proof (Z.div_mod (b0 + k) BPB ltac:(done)). unfold BPB, BSIZE in *. lia. }
  assert (E3 : BBLOCK (b0 + k) sk = BBLOCK b0 sk) by (rewrite !BBLOCK_eq, E2 by (done || lia); done).
  split; [done|]. split; [by rewrite E1|]. unfold free_bit. by rewrite E3, HC, E1.
Qed.

(** The view after [balloc] has taken block [b]. *)
Definition taken (C : gmap Z block) (b : Z) (d : block) : gmap Z block :=
  <[b := replicate (Z.to_nat BSIZE) 0]> (<[BBLOCK b sk := bit_mark (Z.to_nat (b mod BPB)) d]> C).

Lemma free_is_data C b : alloc_ok sk C -> 0 <= b < sb_size sk -> free_bit sk C b = true -> datastart sk <= b.
Proof.
  intros Ha Hb Hf. destruct (Z_lt_dec b (datastart sk)) as [Hlt|?]; [|lia].
  pose proof (a_fixed _ _ Ha b ltac:(lia)). congruence.
Qed.

Lemma bitmap_block C b H : alloc_ok sk C -> held_ok C H -> 0 <= b < sb_size sk ->
  exists d, C !! BBLOCK b sk = Some d /\ is_block d /\ BBLOCK b sk ∉ H.
Proof.
  intros Ha Hh Hb. pose proof (BBLOCK_fixed sk (a_layout _ _ Ha) b Hb) as Hf.
  pose proof (datastart_le sk (a_layout _ _ Ha)) as Hd. pose proof (areas_le sk (a_layout _ _ Ha)) as Har.
  destruct (a_blocks _ _ Ha (BBLOCK b sk)) as (d & HC & Hd').
  { rewrite BBLOCK_eq in * by (done || apply Ha). pose proof (Z.div_pos b BPB ltac:(lia) ltac:(done)). lia. }
  exists d. split; [done|]. split; [done|].
  intros Hin. destruct Hh as [_ Hh]. apply Hh in Hin. lia.
Qed.

Lemma size_mono (D : gset Z) x : (size D <= size ({[x]} ∪ D))%nat.
Proof. apply subseteq_size. set_solver. Qed.

(** The part of [balloc] behind a successful scan. *)
Lemma balloc_found s C D H i b d :
  tview (lo s) C D ({[BBLOCK b sk]} ∪ H) -> alloc_ok sk C -> held_ok C H -> Z.of_nat (size ({[BBLOCK b sk]} ∪ D)) < log_cap L ->
  0 <= b < sb_size sk -> free_bit sk C b = true -> C !! BBLOCK b sk = Some d -> is_block d -> BBLOCK b sk ∉ H ->
  buf_at me (bio (lo s)) i (BBLOCK b sk) d ->
  exists l', (set_data_ i (bit_mark (Z.to_nat (b mod BPB)) d) ;;; log_write_ i ;;; brelse_ me i ;;; bzero me 1 b ;;; ret b) s
      = Ok (b, set_lo l' s) /\
    tview l' (taken C b d) ({[b]} ∪ ({[BBLOCK b sk]} ∪ D)) H /\
    (forall j m e, buf_at me (bio (lo s)) j m e -> j <> i -> buf_at me (bio l') j m e).
Proof.
  intros T Ha Hh Hcap Hb Hf HC Hd Hn Hat. pose proof (size_mono D (BBLOCK b sk)). pose proof (free_is_data C b Ha Hb Hf) as Hdata.
  pose proof (BBLOCK_fixed sk (a_layout _ _ Ha) b Hb) as Hfix.
  destruct (update_tx me L DK s C D _ i _ d (bit_mark (Z.to_nat (b mod BPB)) d) T Hat) as (l1 & H1 & _ & T1 & O1); [lia|].
  rewrite H1. rewrite not_held_again in T1 by done.
  pose proof (areas_le sk (a_layout _ _ Ha)) as Har. destruct (a_blocks _ _ Ha b ltac:(lia)) as (e & He & _).
  destruct (bzero_tx (set_lo l1 s) _ _ H b e T1) as (l2 & H2 & T2 & O2).
  - intros Hin. destruct Hh as [_ Hh]. apply Hh in Hin as [_ ?]. congruence.
  - by rewrite lookup_insert_ne by lia.
  - lia.
  - by destruct Hh.
  - rewrite (bind_Ok _ _ _ _ _ H2). exists l2. split; [done|]. split; [done|]. intros j m e' Hj Hne. apply O2. by apply O1.
Qed.

Lemma balloc_loop_ok fuel : forall s C D H b0 b,
  tview (lo s) C D H -> sb s = sk -> alloc_ok sk C -> held_ok C H -> Z.of_nat (size ({[BBLOCK b sk]} ∪ D)) < log_cap L ->
  0 <= b0 -> b0 mod BPB = 0 -> sb_size sk < b0 + Z.of_nat fuel * BPB ->
  b0 <= b < sb_size sk -> free_bit sk C b = true -> (forall x, b0 <= x < b -> free_bit sk C x = false) ->
  exists l' d, C !! BBLOCK b sk = Some d /\ is_block d /\ balloc_loop me fuel 1 b0 s = Ok (b, set_lo l' s) /\
    tview l' (taken C b d) ({[b]} ∪ ({[BBLOCK b sk]} ∪ D)) H /\
    (forall j m e, buf_at me (bio (lo s)) j m e -> buf_at me (bio l') j m e).
Proof.
  induction fuel as [|fuel IH]; intros s C D H b0 b T Hsb Ha Hh Hcap H0 Hmod Hfuel Hb Hf Hlow; [lia|].
  pose proof (a_layout _ _ Ha) as Hl. pose proof (size_mono D (BBLOCK b sk)). cbn [balloc_loop]. rewrite (bind_Ok (gets sb) _ s sk s) by (unfold gets; by rewrite Hsb).
  replace (b0 <? sb_size sk) with true by blia.
  destruct (bitmap_block C b0 H Ha Hh) as (d & HC & Hd & Hn); [lia|].
  destruct (read_tx me L DK s C D H _ d Z (fun bp d => match balloc_scan (Z.to_nat (Z.min BPB (sb_size sk - b0))) 0 d with
        | Some bi => set_data_ bp (bit_mark bi d) ;;; log_write_ bp ;;; brelse_ me bp ;;;
            bzero me 1 (b0 + Z.of_nat bi) ;;; ret (b0 + Z.of_nat bi)
        | None => brelse_ me bp ;;; balloc_loop me fuel 1 (b0 + BPB) end) T Hn HC) as (i & l1 & -> & T1 & A1 & O1);
    [right; apply (room_tx L); [lia|by destruct Hh]|].
  assert (Hother : forall j m e, buf_at me (bio (lo s)) j m e -> j <> i).
  { intros j m e Hj ->. apply Hn. rewrite <- (buf_at_eq_block me _ _ _ _ _ _ (O1 _ _ _ Hj) A1).
    by apply (buf_at_view me _ C D H i m e (t_view _ _ _ _ _ _ _ T)). }
  destruct (balloc_scan _ 0 d) as [k|] eqn:Es.
  - apply scan_Some in Es as (Hk & Hfree & Hfirst).
    destruct (chunk_bit C b0 (Z.of_nat k) d Hl H0 Hmod) as (E1 & E2 & E3); [lia|lia|done|]. rewrite Nat2Z.id in E2, E3.
    assert (b = b0 + Z.of_nat k) as ->.
    { destruct (Z.lt_trichotomy b (b0 + Z.of_nat k)) as [Hlt|[?|Hgt]]; [|done|].
      - exfalso. destruct (chunk_bit C b0 (b - b0) d Hl H0 Hmod) as (_ & _ & E); [lia|lia|done|].
        replace (b0 + (b - b0)) with b in E by lia. rewrite Hfirst in E by lia. congruence.
      - exfalso. specialize (Hlow (b0 + Z.of_nat k) ltac:(lia)). congruence. }
    destruct (balloc_found (set_lo l1 s) C D H i (b0 + Z.of_nat k) d) as (l2 & H2 & T2 & O2); rewrite ?E1; try done; try lia; try congruence.
    exists l2, d. split; [done|]. split; [done|]. rewrite E2 in H2. rewrite H2, <- E1. split; [done|]. split; [done|].
    intros j m e Hj. apply O2; eauto.
  - pose proof (scan_None _ _ _ Es) as Hnone.
    destruct (brelse_tx me L DK (set_lo l1 s) C D _ i _ d T1 A1) as (l2 & H2 & T2 & O2).
    rewrite (bind_Ok _ _ _ _ _ H2), set_lo_set_lo. rewrite not_held_again in T2 by done.
    assert (Hge : b0 + BPB <= b).
    { destruct (Z_lt_dec b (b0 + BPB)) as [Hlt|?]; [|lia]. exfalso.
      destruct (chunk_bit C b0 (b - b0) d Hl H0 Hmod) as (_ & _ & E); [lia|lia|done|].
      replace (b0 + (b - b0)) with b in E by lia. rewrite Hnone in E by lia. congruence. }
    destruct (IH (set_lo l2 s) C D H (b0 + BPB) b) as (l3 & d3 & E1 & E2 & E3 & T3 & O3); try done; try lia.
    + unfold BPB, BSIZE in *. lia.
    + rewrite <- Hmod. replace (b0 + BPB) with (b0 + 1 * BPB) by lia. by apply Z.mod_add.
    + intros x Hx. apply Hlow. unfold BPB, BSIZE in *. lia.
    + exists l3, d3. split_and!; try done. intros j m e Hj. apply O3, O2; eauto.
Qed.

Lemma zero_block : is_block (replicate (Z.to_nat BSIZE) 0).
Proof. split; [by rewrite length_replicate|]. apply Forall_replicate. lia. Qed.

Lemma taken_bit C b d x :
  alloc_ok sk C -> 0 <= b < sb_size sk -> datastart sk <= b -> C !! BBLOCK b sk = Some d -> is_block d ->
  0 <= x < sb_size sk -> free_bit sk (taken C b d) x = free_bit sk C x && bool_decide (x <> b).
Proof.
  intros Ha Hb Hdb HC Hd Hx. unfold taken. rewrite free_bit_data by (done || apply Ha).
  apply free_bit_mark; done || apply Ha.
Qed.

(** A change of the content of some blocks that frees nothing of the fixed areas. *)
Lemma alloc_ok_upd C n v :
  alloc_ok sk C -> is_block v -> (forall x, 0 <= x < datastart sk -> free_bit sk (<[n := v]> C) x = false) ->
  alloc_ok sk (<[n := v]> C).
Proof.
  intros [Hl Hb Hf] Hv Hfix. constructor; [done| |done]. intros b Hr. destruct (decide (b = n)) as [-> |Hne].
  - exists v. by rewrite lookup_insert_eq.
  - rewrite lookup_insert_ne by congruence. by apply Hb.
Qed.

Lemma alloc_ok_taken C b d :
  alloc_ok sk C -> 0 <= b < sb_size sk -> datastart sk <= b -> C !! BBLOCK b sk = Some d -> is_block d ->
  alloc_ok sk (taken C b d).
Proof.
  intros Ha Hb Hdb HC Hd. pose proof (datastart_le sk (a_layout _ _ Ha)). apply alloc_ok_upd.
  - apply alloc_ok_upd; [done|by apply bit_mark_block|]. intros x Hx. rewrite free_bit_mark by (done || lia || apply Ha).
    by rewrite (a_fixed _ _ Ha).
  - apply zero_block.
  - intros x Hx. fold (taken C b d). rewrite taken_bit by (done || lia). by rewrite (a_fixed _ _ Ha).
Qed.

Lemma balloc_tx s C D H b r :
  tview (lo s) C D H -> sb s = sk -> alloc_ok sk C -> held_ok C H -> Z.of_nat (size ({[BBLOCK b sk]} ∪ D)) < log_cap L ->
  free_list sk C = b :: r ->
  exists l' d, C !! BBLOCK b sk = Some d /\ is_block d /\ balloc me 1 s = Ok (b, set_lo l' s) /\
    tview l' (taken C b d) ({[b]} ∪ ({[BBLOCK b sk]} ∪ D)) H /\
    datastart sk <= b < sb_size sk /\ free_bit sk C b = true /\
    free_list sk (taken C b d) = r /\ alloc_ok sk (taken C b d) /\
    (forall j m e, buf_at me (bio (lo s)) j m e -> buf_at me (bio l') j m e).
Proof.
  intros T Hsb Ha Hh Hcap Hfl. destruct (free_list_head sk C b r Hfl) as (Hb & Hf & Hlow).
  unfold balloc. rewrite (bind_Ok (gets sb) _ s sk s) by (unfold gets; by rewrite Hsb).
  destruct (balloc_loop_ok (S (Z.to_nat (sb_size sk / BPB))) s C D H 0 b) as (l' & d & HC & Hd & Hr & T' & O'); try done.
  - pose proof (Z.div_mod (sb_size sk) BPB ltac:(done)). pose proof (Z.mod_pos_bound (sb_size sk) BPB ltac:(done)).
    pose proof (bitmap_index (sb_size sk) (sb_size sk) ltac:(lia)). unfold BPB, BSIZE in *. lia.
  - pose proof (free_is_data C b Ha Hb Hf) as Hdata. exists l', d. split_and!; try done; try lia.
    + apply (free_list_take sk C _ b); [|done]. intros x Hx. by apply taken_bit.
    + by apply alloc_ok_taken.
Qed.

Lemma balloc_loop_full fuel : forall s C D H b0,
  tview (lo s) C D H -> sb s = sk -> alloc_ok sk C -> held_ok C H -> Z.of_nat (size D) < log_cap L ->
  0 <= b0 -> b0 mod BPB = 0 -> sb_size sk < b0 + Z.of_nat fuel * BPB -> free_list sk C = [] ->
  balloc_loop me fuel 1 b0 s = Panic "balloc: out of blocks".
Proof.
  induction fuel as [|fuel IH]; intros s C D H b0 T Hsb Ha Hh Hcap H0 Hmod Hfuel Hnil; cbn [balloc_loop];
    rewrite (bind_Ok (gets sb) _ s sk s) by (unfold gets; by rewrite Hsb);
    (destruct (Z.ltb_spec b0 (sb_size sk)) as [Hlt|Hge]; [|done]); [lia|].
  destruct (bitmap_block C b0 H Ha Hh) as (d & HC & Hd & Hn); [lia|].
  destruct (bread_tx me L DK s C D H _ d T Hn HC) as (i & l1 & H1 & T1 & A1 & O1);
    [right; apply (room_tx L); [lia|by destruct Hh]|].
  rewrite (bind_Ok _ _ _ _ _ H1), (bind_Ok _ _ _ _ _ (data_tx me (set_lo l1 s) i _ d A1)).
  destruct (balloc_scan _ 0 d) as [k|] eqn:Es.
  - exfalso. apply scan_Some in Es as (Hk & Hfree & _).
    destruct (chunk_bit C b0 (Z.of_nat k) d (a_layout _ _ Ha) H0 Hmod) as (_ & _ & E); [lia|lia|done|].
    assert (Hin : b0 + Z.of_nat k ∈ free_list sk C) by (apply elem_free; split; [lia|]; rewrite E, Nat2Z.id; done).
    rewrite Hnil in Hin. by apply elem_of_nil in Hin.
  - destruct (brelse_tx me L DK (set_lo l1 s) C D _ i _ d T1 A1) as (l2 & H2 & T2 & _).
    rewrite (bind_Ok _ _ _ _ _ H2), set_lo_set_lo. rewrite not_held_again in T2 by done.
    apply (IH (set_lo l2 s) C D H); try done; try (unfold BPB, BSIZE in *; lia).
    rewrite <- Hmod. replace (b0 + BPB) with (b0 + 1 * BPB) by lia. by apply Z.mod_add.
Qed.

Lemma balloc_full s C D H :
  tview (lo s) C D H -> sb s = sk -> alloc_ok sk C -> held_ok C H -> Z.of_nat (size D) < log_cap L ->
  free_list sk C = [] -> balloc me 1 s = Panic "balloc: out of blocks".
Proof.
  intros T Hsb Ha Hh Hcap Hfl. unfold balloc. rewrite (bind_Ok (gets sb) _ s sk s) by (unfold gets; by rewrite Hsb).
  apply (balloc_loop_full _ s C D H); try done. pose proof (l_size _ (a_layout _ _ Ha)).
  pose proof (Z.div_mod (sb_size sk) BPB ltac:(done)). pose proof (Z.mod_pos_bound (sb_size sk) BPB ltac:(done)).
  pose proof (bitmap_index (sb_size sk) (sb_size sk) ltac:(lia)). unfold BPB, BSIZE in *. lia.
Qed.

(** The view after [bfree] of block [b]. *)
Definition freed (C : gmap Z block) (b : Z) (d : block) : gmap Z block :=
  <[BBLOCK b sk := bit_clear (Z.to_nat (b mod BPB)) d]> C.

Lemma bfree_tx s C D H b :
  tview (lo s) C D H -> sb s = sk -> alloc_ok sk C -> held_ok C H -> Z.of_nat (size D) < log_cap L ->
  datastart sk <= b < sb_size sk -> free_bit sk C b = false ->
  exists l' d, C !! BBLOCK b sk = Some d /\ is_block d /\ bfree me 1 b s = Ok (tt, set_lo l' s) /\
    tview l' (freed C b d) ({[BBLOCK b sk]} ∪ D) H /\ alloc_ok sk (freed C b d) /\
    (forall x, 0 <= x < sb_size sk -> free_bit sk (freed C b d) x = free_bit sk C x || bool_decide (x = b)) /\
    (forall j m e, buf_at me (bio (lo s)) j m e -> buf_at me (bio l') j m e).
Proof.
  intros T Hsb Ha Hh Hcap Hb Hf. pose proof (datastart_le sk (a_layout _ _ Ha)) as Hds.
  unfold bfree. rewrite (bind_Ok (gets sb) _ s sk s) by (unfold gets; by rewrite Hsb).
  destruct (bitmap_block C b H Ha Hh) as (d & HC & Hd & Hn); [lia|].
  destruct (bread_tx me L DK s C D H _ d T Hn HC) as (i & l1 & H1 & T1 & A1 & O1);
    [right; apply (room_tx L); [lia|by destruct Hh]|].
  rewrite (bind_Ok _ _ _ _ _ H1), (bind_Ok _ _ _ _ _ (data_tx me (set_lo l1 s) i _ d A1)).
  assert (Hbit : bit_free (Z.to_nat (b mod BPB)) d = false) by (unfold free_bit in Hf; by rewrite HC in Hf). rewrite Hbit.
  destruct (update_tx me L DK (set_lo l1 s) C D _ i _ d (bit_clear (Z.to_nat (b mod BPB)) d) T1 A1) as (l2 & _ & H2 & T2 & O2); [lia|].
  rewrite H2. rewrite not_held_again in T2 by done. exists l2, d.
  assert (Hbits : forall x, 0 <= x < sb_size sk -> free_bit sk (freed C b d) x = free_bit sk C x || bool_decide (x = b)).
  { intros x Hx. apply free_bit_clear; done || lia || apply Ha. }
  split_and!; try done.
  - apply alloc_ok_upd; [done|by apply bit_clear_block|]. intros x Hx. fold (freed C b d). rewrite Hbits by lia.
    rewrite (a_fixed _ _ Ha) by done. rewrite bool_decide_false by lia. done.
  - intros j m e Hj. apply O2; [by apply O1|]. intros ->. apply Hn.
    rewrite <- (buf_at_eq_block me _ _ _ _ _ _ (O1 _ _ _ Hj) A1).
    by apply (buf_at_view me _ C D H i m e (t_view _ _ _ _ _ _ _ T)).
Qed.

Lemma bfree_free s C D H b :
  tview (lo s) C D H -> sb s = sk -> alloc_ok sk C -> held_ok C H -> Z.of_nat (size D) < log_cap L ->
  0 <= b < sb_size sk -> free_bit sk C b = true -> bfree me 1 b s = Panic "freeing free block".
Proof.
  intros T Hsb Ha Hh Hcap Hb Hf. unfold bfree. rewrite (bind_Ok (gets sb) _ s sk s) by (unfold gets; by rewrite Hsb).
  destruct (bitmap_block C b H Ha Hh) as (d & HC & Hd & Hn); [lia|].
  destruct (bread_tx me L DK s C D H _ d T Hn HC) as (i & l1 & H1 & T1 & A1 & O1);
    [right; apply (room_tx L); [lia|by destruct Hh]|].
  rewrite (bind_Ok _ _ _ _ _ H1), (bind_Ok _ _ _ _ _ (data_tx me (set_lo l1 s) i _ d A1)).
  unfold free_bit in Hf. rewrite HC in Hf. by rewrite Hf.
Qed.

End alloc.
