(* ===== verification/FsFile.v ===== *)
(** * Inode content

    The file that an inode stands for is an array of bytes; [readi] and
    [writei] are reading and writing that array.  [file_ok] is what makes the
    block list of an inode well-formed. *)

From S2P Require Import Prelude Block Sleeplock Bio Log Fs FsTx FsAlloc.

(** The address of block [bn] of the file, 0 if there is none. *)
Definition fblock (C : gmap Z block) (i : inode) (bn : Z) : Z :=
  if bn <? NDIRECT then addr_of i bn
  else if addr_of i NDIRECT =? 0 then 0
  else match C !! addr_of i NDIRECT with Some d => get_u32 (4 * Z.to_nat (bn - NDIRECT)) d | None => 0 end.

Definition in_file (bn : Z) : Prop := 0 <= bn < MAXFILE.

(** The byte at offset [o], and the content of the file. *)
Definition fbyte (C : gmap Z block) (i : inode) (o : Z) : Z :=
  nth (Z.to_nat (o mod BSIZE)) (default [] (C !! fblock C i (o / BSIZE))) 0.

Definition fdata (C : gmap Z block) (i : inode) : list Z := fbyte C i <$> seqZ 0 (i_size i).

(** The blocks of the file, the indirect block among them. *)
Definition owns (C : gmap Z block) (i : inode) (x : Z) : Prop :=
  x <> 0 /\ (x = addr_of i NDIRECT \/ exists bn, in_file bn /\ fblock C i bn = x).

Record file_ok (sk : superblock) (C : gmap Z block) (i : inode) : Prop := {
  f_len : length (i_addrs i) = Z.to_nat (NDIRECT + 1);
  f_size : 0 <= i_size i <= MAXFILE * BSIZE;
  f_owned : forall x, owns C i x -> datastart sk <= x < sb_size sk /\ free_bit sk C x = false;
  f_ind : forall bn, in_file bn -> fblock C i bn <> 0 -> fblock C i bn <> addr_of i NDIRECT;
  f_inj : forall bn bn', in_file bn -> in_file bn' -> fblock C i bn <> 0 -> fblock C i bn = fblock C i bn' -> bn = bn';
  f_full : forall bn, 0 <= bn -> bn * BSIZE < i_size i -> fblock C i bn <> 0
}.

(** The content is looked at only in the blocks of the file. *)
Lemma fblock_frame C C' i bn :
  (forall x, owns C i x -> C' !! x = C !! x) -> fblock C' i bn = fblock C i bn.
Proof.
  intros H. unfold fblock. destruct (bn <? NDIRECT); [done|]. destruct (Z.eqb_spec (addr_of i NDIRECT) 0); [done|].
  rewrite H; [done|]. split; [done|by left].
Qed.

Lemma fbyte_frame C C' i o :
  (forall x, owns C i x -> C' !! x = C !! x) -> in_file (o / BSIZE) -> fblock C i (o / BSIZE) <> 0 ->
  fbyte C' i o = fbyte C i o.
Proof.
  intros H Hin Hne. unfold fbyte. rewrite (fblock_frame C C') by done. rewrite H; [done|]. split; [done|right; eauto].
Qed.

Lemma block_in_file o : 0 <= o < MAXFILE * BSIZE -> in_file (o / BSIZE).
Proof.
  intros Ho. split; [apply Z.div_pos; [lia|done]|]. apply Z.div_lt_upper_bound; [done|]. lia.
Qed.

Lemma direct_in_file k : 0 <= k < NDIRECT -> in_file k.
Proof. intros Hk. split; [lia|]. apply Z.lt_trans with NDIRECT; [lia|done]. Qed.

Lemma block_start o n : 0 <= o < n -> o / BSIZE * BSIZE < n.
Proof. intros Ho. pose proof (Z.mul_div_le o BSIZE ltac:(done)). lia. Qed.

(** Two files with no block in common. *)
Definition apart (C : gmap Z block) (i j : inode) : Prop := forall x, owns C i x -> ~ owns C j x.

Lemma fdata_frame sk C C' i :
  file_ok sk C i -> (forall x, owns C i x -> C' !! x = C !! x) -> fdata C' i = fdata C i.
Proof.
  intros Hf H. unfold fdata. apply list_fmap_ext. intros k o Ho. apply lookup_seqZ in Ho as [-> Hk].
  pose proof (f_size _ _ _ Hf). apply fbyte_frame; [done|apply block_in_file; lia|].
  apply (f_full _ _ _ Hf); [apply Z.div_pos; [lia|done]|apply block_start; lia].
Qed.

Lemma file_ok_frame sk C C' i :
  file_ok sk C i -> (forall x, owns C i x -> C' !! x = C !! x) ->
  (forall x, owns C i x -> free_bit sk C' x = false) -> file_ok sk C' i.
Proof.
  intros [Hl Hs Ho Hi Hj Hu] HC Hb.
  assert (E : forall bn, fblock C' i bn = fblock C i bn) by (intros; by apply fblock_frame).
  assert (Eo : forall x, owns C' i x <-> owns C i x).
  { intros x. unfold owns. split; intros [? [?|(bn & ? & Hbn)]]; (split; [done|]); [by left|right|by left|right]; exists bn;
      (split; [done|]); [by rewrite <- E|by rewrite E]. }
  constructor; try done; try (intros *; rewrite ?E; eauto).
  rewrite Eo. intros Hx. split; [by apply Ho|by apply Hb].
Qed.

Section file.

Context (sk : superblock).

(** ** Growing a file by empty blocks *)

(** Blocks are added to the file [i]; what was there stays, but for the
    indirect block, which gets new entries. *)
Record grow (C : gmap Z block) (i : inode) (C' : gmap Z block) (i' : inode) : Prop := {
  g_meta : i' = with_addrs (i_addrs i') i;
  g_file : file_ok sk C' i';
  g_alloc : alloc_ok sk C';
  g_blocks : forall bn, in_file bn -> fblock C i bn <> 0 -> fblock C' i' bn = fblock C i bn;
  g_new : forall bn, in_file bn -> fblock C i bn = 0 ->
    fblock C' i' bn = 0 \/ C' !! fblock C' i' bn = Some (replicate (Z.to_nat BSIZE) 0);
  g_ind : addr_of i NDIRECT <> 0 -> addr_of i' NDIRECT = addr_of i NDIRECT;
  g_keep : forall x, datastart sk <= x < sb_size sk -> free_bit sk C x = false -> x <> addr_of i NDIRECT -> C' !! x = C !! x;
  g_fixed : forall x, x < sb_bmapstart sk -> C' !! x = C !! x;
  g_used : forall x, 0 <= x < sb_size sk -> free_bit sk C x = false -> free_bit sk C' x = false;
  g_owned : forall x, owns C' i' x -> owns C i x \/ free_bit sk C x = true
}.

Lemma with_addrs_id i : with_addrs (i_addrs i) i = i.
Proof. by destruct i. Qed.

Lemma grow_refl C i : file_ok sk C i -> alloc_ok sk C -> grow C i C i.
Proof. intros Hf Ha. constructor; try done; [by rewrite with_addrs_id|by left|by left]. Qed.

Lemma grow_trans C i C1 i1 C2 i2 : file_ok sk C i -> grow C i C1 i1 -> grow C1 i1 C2 i2 -> grow C i C2 i2.
Proof.
  intros Hf G1 G2. constructor.
  - rewrite (g_meta _ _ _ _ G2), (g_meta _ _ _ _ G1). done.
  - apply G2.
  - apply G2.
  - intros bn Hb Hne. rewrite (g_blocks _ _ _ _ G2), (g_blocks _ _ _ _ G1) by (done || by rewrite (g_blocks _ _ _ _ G1)). done.
  - intros bn Hb H0. destruct (decide (fblock C1 i1 bn = 0)) as [E|E]; [by apply (g_new _ _ _ _ G2)|].
    right. rewrite (g_blocks _ _ _ _ G2) by done. destruct (g_new _ _ _ _ G1 bn Hb H0) as [?|E1]; [done|].
    assert (Ho : owns C1 i1 (fblock C1 i1 bn)) by (split; [done|right; eauto]).
    destruct (f_owned _ _ _ (g_file _ _ _ _ G1) _ Ho) as [Hr Hu].
    rewrite (g_keep _ _ _ _ G2); [done|done|done|]. by apply (f_ind _ _ _ (g_file _ _ _ _ G1)).
  - intros Hne. rewrite (g_ind _ _ _ _ G2), (g_ind _ _ _ _ G1) by (done || by rewrite (g_ind _ _ _ _ G1)). done.
  - intros x Hx Hu Hne. rewrite (g_keep _ _ _ _ G2), (g_keep _ _ _ _ G1); try done.
    + apply (g_used _ _ _ _ G1); [|done]. pose proof (datastart_le sk (a_layout _ _ (g_alloc _ _ _ _ G1))). lia.
    + intros ->. destruct (decide (addr_of i NDIRECT = 0)) as [E0|E0]; [|by rewrite (g_ind _ _ _ _ G1) in Hne].
      destruct (decide (addr_of i1 NDIRECT = 0)) as [E1|E1]; [congruence|].
      destruct (g_owned _ _ _ _ G1 (addr_of i1 NDIRECT)) as [[_ [Hi|(bn & Hb & Hi)]]|Hi]; [split; [done|by left]| | |congruence].
      * congruence.
      * apply (f_ind _ _ _ (g_file _ _ _ _ G1) bn Hb); rewrite (g_blocks _ _ _ _ G1); done || congruence.
  - intros x Hx. by rewrite (g_fixed _ _ _ _ G2), (g_fixed _ _ _ _ G1).
  - intros x Hx Hu. apply (g_used _ _ _ _ G2); [done|]. by apply (g_used _ _ _ _ G1).
  - intros x Ho. destruct (g_owned _ _ _ _ G2 x Ho) as [H1|H1]; [by apply (g_owned _ _ _ _ G1)|].
    right. destruct (f_owned _ _ _ (g_file _ _ _ _ G2) x Ho) as [Hr _].
    pose proof (datastart_le sk (a_layout _ _ (g_alloc _ _ _ _ G1))) as Hd.
    destruct (free_bit sk C x) eqn:E; [done|]. rewrite (g_used _ _ _ _ G1) in H1; [done|lia|done].
Qed.

(** Block [bn], or the indirect block, is now [b], a free block. *)
Lemma grow_fill C i C' i' b (P : Z -> Prop) (Q : Prop) `{!forall bn, Decision (P bn)} `{!Decision Q} :
  file_ok sk C i -> alloc_ok sk C' -> i' = with_addrs (i_addrs i') i -> length (i_addrs i') = length (i_addrs i) ->
  datastart sk <= b < sb_size sk -> 0 < b -> free_bit sk C b = true ->
  (forall x, 0 <= x < sb_size sk -> free_bit sk C' x = free_bit sk C x && bool_decide (x <> b)) ->
  (forall bn, in_file bn -> fblock C' i' bn = if decide (P bn) then b else fblock C i bn) ->
  (forall bn bn', P bn -> P bn' -> bn = bn') -> (forall bn, P bn -> fblock C i bn = 0) ->
  addr_of i' NDIRECT = (if decide Q then b else addr_of i NDIRECT) ->
  (Q -> addr_of i NDIRECT = 0) -> (forall bn, Q -> ~ P bn) ->
  (forall x, datastart sk <= x < sb_size sk -> free_bit sk C x = false -> x <> addr_of i NDIRECT -> C' !! x = C !! x) ->
  (forall x, x < sb_bmapstart sk -> C' !! x = C !! x) ->
  C' !! b = Some (replicate (Z.to_nat BSIZE) 0) ->
  grow C i C' i'.
Proof.
  intros Hf Ha Hm Hlen Hb Hb0 Hfree Hbits Hbl HP1 HP0 Hind HQ HQP Hkeep Hfix Hz.
  pose proof (datastart_le sk (a_layout _ _ Ha)) as Hds.
  assert (Hnot : forall x, owns C i x -> x <> b) by (intros x Ho ->; apply (f_owned _ _ _ Hf) in Ho as [_ ?]; congruence).
  assert (Hnb : forall bn, in_file bn -> fblock C i bn <> b).
  { intros bn Hin Heq. apply (Hnot b); [|done]. split; [lia|right; eauto]. }
  assert (Hni : addr_of i NDIRECT <> b) by (intros Heq; apply (Hnot b); [|done]; split; [lia|by left]).
  assert (Hown : forall x, owns C' i' x -> owns C i x \/ x = b).
  { intros x [H0 [Hx|(bn & Hin & Hx)]].
    - rewrite Hind in Hx. destruct (decide Q); [by right|left]. split; [done|by left].
    - rewrite Hbl in Hx by done. destruct (decide (P bn)); [by right|left]. split; [done|right; eauto]. }
  assert (Hused : forall x, 0 <= x < sb_size sk -> free_bit sk C x = false -> free_bit sk C' x = false).
  { intros x Hx Hu. rewrite Hbits by done. by rewrite Hu. }
  constructor; try done.
  - constructor.
    + rewrite Hlen. apply Hf.
    + rewrite Hm. apply Hf.
    + intros x [Ho| ->]%Hown.
      * destruct (f_owned _ _ _ Hf x Ho) as [Hr Hu]. split; [done|]. apply Hused; [lia|done].
      * split; [done|]. rewrite Hbits by lia. rewrite bool_decide_false by tauto. apply andb_false_r.
    + intros bn Hin. rewrite Hbl, Hind by done. destruct (decide (P bn)) as [Hp|Hp], (decide Q) as [Hq|Hq]; intros Hne.
      * exfalso. by apply (HQP bn).
      * congruence.
      * by apply Hnb.
      * by apply (f_ind _ _ _ Hf).
    + intros bn bn' Hin Hin'. rewrite !Hbl by done. destruct (decide (P bn)) as [Hp|Hp], (decide (P bn')) as [Hp'|Hp'];
        intros Hne Heq; [by apply HP1| | |by apply (f_inj _ _ _ Hf)]; exfalso; eapply Hnb; [|symmetry; eassumption| |eassumption]; done.
    + intros bn H0 Hs. rewrite Hm in Hs. simpl in Hs.
      assert (Hin : in_file bn).
      { split; [done|]. pose proof (f_size _ _ _ Hf). unfold BSIZE in *. lia. }
      rewrite Hbl by done. destruct (decide (P bn)); [lia|]. by apply (f_full _ _ _ Hf).
  - intros bn Hin Hne. rewrite Hbl by done. rewrite decide_False; [done|]. intros Hp. by apply Hne, HP0.
  - intros bn Hin H0. rewrite Hbl by done. destruct (decide (P bn)); [by right|by left].
  - intros Hne. rewrite Hind, decide_False; [done|]. tauto.
  - intros x [Ho| ->]%Hown; [by left|by right].
Qed.

Lemma addr_of_set i k b k' :
  length (i_addrs i) = Z.to_nat (NDIRECT + 1) -> 0 <= k <= NDIRECT -> 0 <= k' ->
  addr_of (set_addr k b i) k' = if decide (k' = k) then b else addr_of i k'.
Proof.
  intros Hl Hk Hk'. unfold addr_of, set_addr. simpl. rewrite nth_insert by (rewrite Hl; unfold NDIRECT in *; lia).
  destruct (decide (k' = k)) as [-> |Hne]; [by rewrite decide_True|]. rewrite decide_False by lia. done.
Qed.

Lemma taken_keep C b d x :
  alloc_ok sk C -> datastart sk <= x < sb_size sk -> free_bit sk C x = false -> 0 <= b < sb_size sk -> free_bit sk C b = true ->
  taken sk C b d !! x = C !! x.
Proof.
  intros Ha Hx Hu Hb Hf. unfold taken. pose proof (BBLOCK_fixed sk (a_layout _ _ Ha) b Hb).
  rewrite !lookup_insert_ne; [done|lia|congruence].
Qed.

Lemma taken_fixed C b d x :
  alloc_ok sk C -> x < sb_bmapstart sk -> datastart sk <= b < sb_size sk -> taken sk C b d !! x = C !! x.
Proof.
  intros Ha Hx Hb. unfold taken. pose proof (datastart_le sk (a_layout _ _ Ha)).
  assert (sb_bmapstart sk <= BBLOCK b sk).
  { rewrite BBLOCK_eq by (lia || apply Ha). pose proof (bitmap_index b b ltac:(lia)). lia. }
  assert (sb_bmapstart sk <= datastart sk).
  { unfold datastart. pose proof (l_size _ (a_layout _ _ Ha)). pose proof (bitmap_index (sb_size sk) (sb_size sk) ltac:(lia)). lia. }
  rewrite !lookup_insert_ne by lia. done.
Qed.

Lemma datastart_pos C : alloc_ok sk C -> 0 < datastart sk.
Proof.
  intros Ha. destruct (a_layout _ _ Ha). unfold datastart.
  assert (0 <= sb_ninodes sk / IPB) by (apply Z.div_pos; [lia|done]).
  pose proof (bitmap_index (sb_size sk) (sb_size sk) ltac:(lia)). lia.
Qed.

Lemma ind_used C i : file_ok sk C i -> addr_of i NDIRECT <> 0 ->
  datastart sk <= addr_of i NDIRECT < sb_size sk /\ free_bit sk C (addr_of i NDIRECT) = false.
Proof. intros Hf Hne. apply (f_owned _ _ _ Hf). split; [done|by left]. Qed.

Section fill.

Context (C : gmap Z block) (i : inode) (b : Z) (d : block).
Context (Hf : file_ok sk C i) (Ha : alloc_ok sk C) (Hb : datastart sk <= b < sb_size sk) (Hfree : free_bit sk C b = true)
  (HC : C !! BBLOCK b sk = Some d) (Hd : is_block d).

Lemma fill_direct k :
  0 <= k < NDIRECT -> addr_of i k = 0 ->
  grow C i (taken sk C b d) (set_addr k b i) /\ fblock (taken sk C b d) (set_addr k b i) k = b.
Proof.
  intros Hk H0. pose proof (datastart_pos C Ha) as Hpos. pose proof (f_len _ _ _ Hf) as Hlen.
  assert (Hblk : forall bn, in_file bn ->
    fblock (taken sk C b d) (set_addr k b i) bn = if decide (bn = k) then b else fblock C i bn).
  { intros bn Hin. unfold fblock. rewrite !addr_of_set by (done || lia || (unfold in_file, NDIRECT in *; lia)).
    rewrite (decide_False (P := NDIRECT = k)) by lia. destruct (Z.ltb_spec bn NDIRECT); [done|].
    rewrite decide_False by lia. destruct (Z.eqb_spec (addr_of i NDIRECT) 0); [done|].
    destruct (ind_used C i Hf) as [? ?]; [done|]. by rewrite taken_keep by (done || lia). }
  split; [|rewrite Hblk by (by apply direct_in_file); by rewrite decide_True].
  apply (grow_fill C i _ _ b (fun bn => bn = k) False); try done; try lia.
  - apply alloc_ok_taken; done || lia.
  - unfold set_addr. simpl. by rewrite length_insert.
  - intros x Hx. apply taken_bit; done || lia.
  - intros bn ->. unfold fblock. by replace (k <? NDIRECT) with true by blia.
  - rewrite addr_of_set by (done || lia). rewrite decide_False by lia. by rewrite decide_False by tauto.
  - intros x Hx Hu _. apply taken_keep; done || lia.
  - intros x Hx. apply taken_fixed; done || lia.
  - unfold taken. by rewrite lookup_insert_eq.
Qed.

Lemma fill_ind : addr_of i NDIRECT = 0 -> grow C i (taken sk C b d) (set_addr NDIRECT b i).
Proof.
  intros H0. pose proof (datastart_pos C Ha) as Hpos. pose proof (f_len _ _ _ Hf) as Hlen.
  assert (Hz : taken sk C b d !! b = Some (replicate (Z.to_nat BSIZE) 0)) by (unfold taken; by rewrite lookup_insert_eq).
  apply (grow_fill C i _ _ b (fun _ => False) True); try done; try lia.
  - apply alloc_ok_taken; done || lia.
  - unfold set_addr. simpl. by rewrite length_insert.
  - intros x Hx. apply taken_bit; done || lia.
  - intros bn Hin. rewrite decide_False by tauto. unfold fblock.
    rewrite !addr_of_set by (done || (unfold in_file, NDIRECT in *; lia)). rewrite (decide_True (P := NDIRECT = NDIRECT)) by done.
    destruct (Z.ltb_spec bn NDIRECT); [by rewrite decide_False by lia|].
    rewrite H0, Hz, Z.eqb_refl. destruct (b =? 0); [done|]. apply get_u32_zeros.
  - rewrite addr_of_set by (done || lia). by rewrite !decide_True.
  - intros x Hx Hu _. apply taken_keep; done || lia.
  - intros x Hx. apply taken_fixed; done || lia.
Qed.

Lemma entry_offset bn : NDIRECT <= bn < MAXFILE -> (4 * Z.to_nat (bn - NDIRECT) + 4 <= Z.to_nat BSIZE)%nat.
Proof. change MAXFILE with 140. unfold NDIRECT, BSIZE. lia. Qed.

Lemma fill_entry bn dx :
  NDIRECT <= bn < MAXFILE -> addr_of i NDIRECT <> 0 -> C !! addr_of i NDIRECT = Some dx -> is_block dx ->
  get_u32 (4 * Z.to_nat (bn - NDIRECT)) dx = 0 ->
  let C' := <[addr_of i NDIRECT := put_u32 (4 * Z.to_nat (bn - NDIRECT)) b dx]> (taken sk C b d) in
  grow C i C' i /\ fblock C' i bn = b.
Proof.
  intros Hbn Hne Hx Hdx H0 C'. pose proof (datastart_pos C Ha) as Hpos. pose proof (datastart_le sk (a_layout _ _ Ha)) as Hds.
  destruct (ind_used C i Hf Hne) as [Hxr Hxu]. pose proof (entry_offset bn Hbn) as Ho. destruct Hdx as [Hl Hby].
  assert (Hxb : addr_of i NDIRECT <> b) by congruence. pose proof (l_size _ (a_layout _ _ Ha)) as Hsz.
  assert (Hblk : forall bn', in_file bn' -> fblock C' i bn' = if decide (bn' = bn) then b else fblock C i bn').
  { intros bn' Hin. unfold fblock, C'. rewrite lookup_insert_eq, Hx.
    destruct (Z.ltb_spec bn' NDIRECT); [by rewrite decide_False by lia|]. apply Z.eqb_neq in Hne as ->.
    destruct (decide (bn' = bn)) as [-> |Hd']; [apply get_put_u32; [lia|unfold u32_range; lia]|].
    apply get_u32_other; [lia|]. unfold in_file in Hin. lia. }
  assert (Hbit : forall x, 0 <= x < sb_size sk -> free_bit sk C' x = free_bit sk (taken sk C b d) x).
  { intros x Hr. unfold C'. apply free_bit_data; [apply Ha|lia|done]. }
  split; [|rewrite Hblk by (unfold in_file, NDIRECT in *; lia); by rewrite decide_True].
  apply (grow_fill C i C' i b (fun bn' => bn' = bn) False); try done; try lia.
  - apply alloc_ok_upd; [apply alloc_ok_taken; done || lia| |].
    + by apply set_field_block.
    + intros x Hr. fold C'. rewrite Hbit by lia. by apply (a_fixed _ _ (alloc_ok_taken _ C b d Ha ltac:(lia) ltac:(lia) HC Hd)).
  - by rewrite with_addrs_id.
  - intros x Hr. rewrite Hbit by done. apply taken_bit; done || lia.
  - intros bn' ->. unfold fblock. replace (bn <? NDIRECT) with false by blia. apply Z.eqb_neq in Hne as ->. by rewrite Hx.
  - intros x Hr Hu Hn. unfold C'. rewrite lookup_insert_ne by done. apply taken_keep; done || lia.
  - intros x Hr. unfold C'. assert (sb_bmapstart sk <= datastart sk).
    { unfold datastart. pose proof (bitmap_index (sb_size sk) (sb_size sk) ltac:(lia)). lia. }
    rewrite lookup_insert_ne by lia. apply taken_fixed; done || lia.
  - unfold C', taken. rewrite lookup_insert_ne by congruence. by rewrite lookup_insert_eq.
Qed.

End fill.

(** ** [bmap] *)

Context (me : Z) (L : log) (DK : bst).

Abbreviation tview := (tview me L DK).

(** The blocks of the bitmap. *)
Definition bitmaps : gset Z := list_to_set ((fun k => sb_bmapstart sk + k) <$> seqZ 0 (sb_size sk / BPB + 1)).

Lemma in_bitmaps b : layout sk -> 0 <= b < sb_size sk -> BBLOCK b sk ∈ bitmaps.
Proof.
  intros Hl Hb. rewrite BBLOCK_eq by done. apply elem_of_list_to_set, list_elem_of_fmap. exists (b / BPB). split; [done|].
  apply elem_of_seqZ. pose proof (bitmap_index b (sb_size sk) ltac:(lia)). lia.
Qed.

(** The indirect block of an inode, if it has one. *)
Definition indset (i : inode) : gset Z := if decide (addr_of i NDIRECT = 0) then ∅ else {[addr_of i NDIRECT]}.

(** How many blocks mapping one more block may take from the free list. *)
Definition credit (i : inode) : nat := if decide (addr_of i NDIRECT = 0) then 1 else 0.

Definition set_ip (ip : nat) (i : inode) (s : fsys) : fsys := set_icache (<[ip := i]> (icache s)) s.

Lemma get_inode_ok s ip i : icache s !! ip = Some i -> get_inode ip s = Ok (i, s).
Proof. intros Hi. unfold get_inode. by rewrite Hi. Qed.

Lemma upd_inode_ok s ip i f : icache s !! ip = Some i -> upd_inode ip f s = Ok (tt, set_ip ip (f i) s).
Proof. intros Hi. unfold upd_inode. by rewrite Hi. Qed.

Lemma set_ip_id s ip i : icache s !! ip = Some i -> set_ip ip i s = s.
Proof. intros Hi. unfold set_ip. rewrite list_insert_id by done. by destruct s. Qed.

Lemma owned_block C i bn : file_ok sk C i -> alloc_ok sk C -> in_file bn -> fblock C i bn <> 0 ->
  exists d, C !! fblock C i bn = Some d /\ is_block d.
Proof.
  intros Hf Ha Hin Hne. apply (a_blocks _ _ Ha). pose proof (areas_le sk (a_layout _ _ Ha)).
  destruct (f_owned _ _ _ Hf (fblock C i bn)) as [? _]; [split; [done|right; eauto]|]. lia.
Qed.

Lemma ind_block C i : file_ok sk C i -> alloc_ok sk C -> addr_of i NDIRECT <> 0 ->
  exists d, C !! addr_of i NDIRECT = Some d /\ is_block d.
Proof.
  intros Hf Ha Hne. apply (a_blocks _ _ Ha). destruct (ind_used C i Hf Hne). pose proof (areas_le sk (a_layout _ _ Ha)). lia.
Qed.

(** A block that is mapped is found, and nothing else happens. *)
Lemma bmap_mapped s ip i C D bn :
  tview (lo s) C D ∅ -> alloc_ok sk C -> icache s !! ip = Some i -> i_dev i = 1 -> file_ok sk C i -> in_file bn ->
  fblock C i bn <> 0 -> (size D < NBUF)%nat ->
  exists l', bmap me ip bn s = Ok (fblock C i bn, set_lo l' s) /\ tview l' C D ∅.
Proof.
  intros T Ha Hi Hdev Hf Hin Hne Hroom. unfold bmap. rewrite (bind_Ok _ _ _ _ _ (get_inode_ok _ _ _ Hi)).
  unfold fblock in *. destruct (Z.ltb_spec bn NDIRECT) as [Hlt|Hge].
  - apply Z.eqb_neq in Hne as ->. exists (lo s). rewrite set_lo_id. by split.
  - destruct (Z.eqb_spec (addr_of i NDIRECT) 0) as [?|Hind]; [done|].
    destruct (ind_block C i Hf Ha Hind) as (d & Hd & _). rewrite Hd in Hne.
    replace (bn - NDIRECT <? NINDIRECT) with true.
    2:{ symmetry. apply Z.ltb_lt. unfold in_file, MAXFILE in Hin. lia. }
    rewrite (bind_Ok (ret _) _ _ _ _ eq_refl), Hdev.
    destruct (bread_tx me L DK s C D ∅ _ d T (not_elem_of_empty _) Hd) as (k & l1 & H1 & T1 & A1 & O1);
      [right; by rewrite union_empty_r_L|].
    rewrite (bind_Ok _ _ _ _ _ H1), (bind_Ok _ _ _ _ _ (data_tx me (set_lo l1 s) k _ d A1)).
    rewrite Hd. apply Z.eqb_neq in Hne as ->. rewrite (bind_Ok (ret _) _ _ _ _ eq_refl).
    destruct (brelse_tx me L DK (set_lo l1 s) C D _ k _ d T1 A1) as (l2 & H2 & T2 & _).
    rewrite (bind_Ok _ _ _ _ _ H2). exists l2. split; [done|].
    by rewrite not_held_again in T2 by apply not_elem_of_empty.
Qed.

(** What mapping block [bn] at [a] does: the blocks put in the log, and the
    blocks taken from the free list. *)
Record mapped (C : gmap Z block) (i : inode) (D : gset Z) (C' : gmap Z block) (i' : inode) (D' : gset Z) (bn a : Z) : Prop := {
  mp_grow : grow C i C' i';
  mp_at : fblock C' i' bn = a;
  mp_ne : a <> 0;
  mp_same : fblock C i bn <> 0 -> i' = i;
  mp_log : D ⊆ D' /\ D' ⊆ D ∪ bitmaps ∪ indset i' ∪ {[a]};
  mp_free : (length (free_list sk C) + credit i' <= length (free_list sk C') + 1 + credit i)%nat
}.

Lemma held_none C : held_ok sk C ∅.
Proof. split; [by rewrite size_empty; lia|]. intros x Hx. by apply not_elem_of_empty in Hx. Qed.

Lemma held_ind C i : file_ok sk C i -> addr_of i NDIRECT <> 0 -> held_ok sk C ({[addr_of i NDIRECT]} ∪ ∅).
Proof.
  intros Hf Hne. rewrite union_empty_r_L. split; [by rewrite size_singleton|].
  intros x ->%elem_of_singleton. by apply ind_used.
Qed.

Lemma size_add (D : gset Z) x : (size ({[x]} ∪ D) <= S (size D))%nat.
Proof.
  rewrite union_comm_L, size_union_alt.
  assert (Hs : (size ({[x]} ∖ D) <= size ({[x]} : gset Z))%nat) by (apply subseteq_size; set_solver).
  rewrite size_singleton in Hs. lia.
Qed.

Lemma bitmap_sub (D : gset Z) C b r : alloc_ok sk C -> free_list sk C = b :: r -> {[BBLOCK b sk]} ∪ D ⊆ D ∪ bitmaps.
Proof.
  intros Ha Hfl. destruct (free_list_head sk C b r Hfl) as (Hb & _ & _).
  pose proof (in_bitmaps b (a_layout _ _ Ha) Hb). set_solver.
Qed.

Lemma bitmap_room (D : gset Z) C b r :
  alloc_ok sk C -> free_list sk C = b :: r -> Z.of_nat (size (D ∪ bitmaps)) < log_cap L ->
  Z.of_nat (size ({[BBLOCK b sk]} ∪ D)) < log_cap L.
Proof. intros Ha Hfl Hcap. pose proof (subseteq_size _ _ (bitmap_sub D C b r Ha Hfl)). lia. Qed.

Lemma union_sub_l (X Y : gset Z) : X ⊆ X ∪ Y.
Proof. set_solver. Qed.

Lemma size_sub_l (X Y : gset Z) : (size X <= size (X ∪ Y))%nat.
Proof. apply subseteq_size, union_sub_l. Qed.

(** Counting the indirect block, present or to come. *)
Lemma ind_count (X : gset Z) i i1 :
  (addr_of i NDIRECT <> 0 -> addr_of i1 NDIRECT = addr_of i NDIRECT) ->
  (size (X ∪ indset i1) + credit i1 <= size (X ∪ indset i) + credit i)%nat.
Proof.
  intros H. unfold indset, credit. destruct (decide (addr_of i NDIRECT = 0)) as [E|E].
  - rewrite union_empty_r_L. destruct (decide (addr_of i1 NDIRECT = 0)); [rewrite union_empty_r_L; lia|].
    rewrite union_comm_L. pose proof (size_add X (addr_of i1 NDIRECT)). lia.
  - rewrite H by done. destruct (decide (addr_of i NDIRECT = 0)); [done|lia].
Qed.

(** The indirect block, allocated if need be. *)
Lemma ensure_ind s ip i C D :
  tview (lo s) C D ∅ -> sb s = sk -> alloc_ok sk C -> icache s !! ip = Some i -> i_dev i = 1 -> file_ok sk C i ->
  Z.of_nat (size (D ∪ bitmaps)) < log_cap L -> (credit i <= length (free_list sk C))%nat ->
  exists x i1 l1 C1 D1,
    (if addr_of i NDIRECT =? 0 then let* addr := balloc me (i_dev i) in upd_inode ip (set_addr NDIRECT addr) ;;; ret addr
     else ret (addr_of i NDIRECT)) s = Ok (x, set_ip ip i1 (set_lo l1 s)) /\
    tview l1 C1 D1 ∅ /\ grow C i C1 i1 /\ addr_of i1 NDIRECT = x /\ x <> 0 /\
    D ⊆ D1 /\ D1 ⊆ D ∪ bitmaps ∪ indset i1 /\
    (length (free_list sk C) = length (free_list sk C1) + credit i)%nat.
Proof.
  intros T Hsb Ha Hi Hdev Hf Hcap Hfr. unfold credit in *. destruct (Z.eqb_spec (addr_of i NDIRECT) 0) as [E|E].
  - rewrite decide_True in Hfr |- * by done. destruct (free_list sk C) as [|b r] eqn:Efl; [simpl in Hfr; lia|].
    destruct (balloc_tx me L DK sk s C D ∅ b r T Hsb Ha (held_none C) (bitmap_room D _ b r Ha Efl Hcap) Efl)
      as (l1 & d & HC & Hd & Hr & T1 & Hb & Hfb & Hfl & Ha1 & _).
    exists b, (set_addr NDIRECT b i), l1, (taken sk C b d), ({[b]} ∪ ({[BBLOCK b sk]} ∪ D)).
    assert (Hab : addr_of (set_addr NDIRECT b i) NDIRECT = b).
    { rewrite addr_of_set by (apply Hf || done). by rewrite decide_True. }
    pose proof (datastart_pos C Ha) as Hpos. split_and!; try done.
    + rewrite Hdev, (bind_Ok _ _ _ _ _ Hr). by rewrite (bind_Ok _ _ _ _ _ (upd_inode_ok (set_lo l1 s) ip i _ Hi)).
    + by apply fill_ind.
    + lia.
    + set_solver.
    + pose proof (in_bitmaps b (a_layout _ _ Ha) ltac:(lia)). unfold indset. rewrite Hab, decide_False by lia. set_solver.
    + simpl. rewrite Hfl. lia.
  - rewrite decide_False in Hfr |- * by done. exists (addr_of i NDIRECT), i, (lo s), C, D.
    rewrite set_lo_id, set_ip_id by done. split_and!; try done; try lia; [by apply grow_refl|set_solver].
Qed.

Lemma sub_again (D D1 B I : gset Z) : D1 ⊆ D ∪ B ∪ I -> D1 ∪ B ⊆ D ∪ B ∪ I.
Proof. set_solver. Qed.

Lemma log_sub4 (D D1 D2 B I : gset Z) x a :
  D ⊆ D1 -> D1 ⊆ D ∪ B ∪ I -> D2 ⊆ D1 ∪ B ∪ {[x]} ∪ {[a]} -> D1 ⊆ D2 -> x ∈ I -> D ⊆ D2 /\ D2 ⊆ D ∪ B ∪ I ∪ {[a]}.
Proof. intros H1 H2 H3 H4 H5. split; set_solver. Qed.

(** The entry of the indirect block [x], held in buffer [k]. *)
Lemma ensure_entry s i C D x k d bn :
  tview (lo s) C D ({[x]} ∪ ∅) -> sb s = sk -> alloc_ok sk C -> i_dev i = 1 -> file_ok sk C i ->
  addr_of i NDIRECT = x -> x <> 0 -> C !! x = Some d -> is_block d -> buf_at me (bio (lo s)) k x d ->
  NDIRECT <= bn < MAXFILE -> Z.of_nat (size (D ∪ bitmaps)) + 1 < log_cap L -> (1 <= length (free_list sk C))%nat ->
  exists a l1 C1 D1,
    (if get_u32 (4 * Z.to_nat (bn - NDIRECT)) d =? 0 then
       let* addr := balloc me (i_dev i) in
       let* a := data_ k in
       set_data_ k (put_u32 (4 * Z.to_nat (bn - NDIRECT)) addr a) ;;;
       log_write_ k ;;;
       ret addr
     else ret (get_u32 (4 * Z.to_nat (bn - NDIRECT)) d)) s = Ok (a, set_lo l1 s) /\
    tview l1 C1 D1 ({[x]} ∪ ∅) /\ grow C i C1 i /\ fblock C1 i bn = a /\ a <> 0 /\
    (exists d1, buf_at me (bio l1) k x d1) /\
    D ⊆ D1 /\ D1 ⊆ D ∪ bitmaps ∪ {[x]} ∪ {[a]} /\
    (length (free_list sk C) <= length (free_list sk C1) + 1)%nat.
Proof.
  intros T Hsb Ha Hdev Hf Hx Hx0 HC Hd Hat Hbn Hcap Hfr. destruct (Z.eqb_spec (get_u32 (4 * Z.to_nat (bn - NDIRECT)) d) 0) as [E|E].
  - destruct (free_list sk C) as [|b r] eqn:Efl; [simpl in Hfr; lia|].
    destruct (balloc_tx me L DK sk s C D ({[x]} ∪ ∅) b r T Hsb Ha) as (l1 & db & HCb & Hdb & Hr & T1 & Hb & Hfb & Hfl & Ha1 & O1);
      [rewrite <- Hx; apply held_ind; [done|congruence]|apply (bitmap_room D C b r Ha Efl); lia|done|].
    rewrite Hdev, (bind_Ok _ _ _ _ _ Hr). pose proof (O1 _ _ _ Hat) as A1.
    rewrite (bind_Ok _ _ _ _ _ (data_tx me (set_lo l1 s) k x d A1)).
    pose proof (subseteq_size _ _ (bitmap_sub D C b r Ha Efl)). pose proof (size_add ({[BBLOCK b sk]} ∪ D) b).
    destruct (log_write_tx me L DK (set_lo l1 s) _ _ _ k x d (put_u32 (4 * Z.to_nat (bn - NDIRECT)) b d) T1 A1)
      as (l2 & H2 & T2 & A2 & _); [lia|].
    rewrite H2. rewrite <- Hx in *.
    destruct (fill_entry C i b db Hf Ha Hb Hfb HCb Hdb bn d Hbn Hx0 HC Hd E) as [G Hat'].
    eexists b, l2, _, _. split; [done|]. split; [exact T2|]. split; [exact G|]. split; [exact Hat'|].
    pose proof (datastart_pos C Ha) as Hpos. pose proof (in_bitmaps b (a_layout _ _ Ha) ltac:(lia)).
    split; [lia|]. split; [eauto|]. split; [set_solver|]. split; [set_solver|].
    assert (Hl : free_list sk (<[addr_of i NDIRECT := put_u32 (4 * Z.to_nat (bn - NDIRECT)) b d]> (taken sk C b db)) = r).
    { rewrite <- Hfl. apply free_list_ext. intros y Hy. destruct (ind_used C i Hf Hx0).
      apply free_bit_data; [apply Ha|lia|done]. }
    rewrite Hl. simpl. lia.
  - exists (get_u32 (4 * Z.to_nat (bn - NDIRECT)) d), (lo s), C, D. rewrite set_lo_id.
    split_and!; try done; [by apply grow_refl| |eauto|set_solver|lia].
    unfold fblock. replace (bn <? NDIRECT) with false by blia. rewrite Hx, HC. by apply Z.eqb_neq in Hx0 as ->.
Qed.

Lemma set_ip_lo ip i l s : set_lo l (set_ip ip i s) = set_ip ip i (set_lo l s).
Proof. done. Qed.

Lemma bmap_direct s ip i C D bn :
  tview (lo s) C D ∅ -> sb s = sk -> alloc_ok sk C -> icache s !! ip = Some i -> i_dev i = 1 -> file_ok sk C i ->
  0 <= bn < NDIRECT -> addr_of i bn = 0 -> Z.of_nat (size (D ∪ bitmaps)) < log_cap L -> (1 <= length (free_list sk C))%nat ->
  exists a i' l' C' D', bmap me ip bn s = Ok (a, set_ip ip i' (set_lo l' s)) /\ tview l' C' D' ∅ /\ mapped C i D C' i' D' bn a.
Proof.
  intros T Hsb Ha Hi Hdev Hf Hbn E Hcap Hfr. unfold bmap. rewrite (bind_Ok _ _ _ _ _ (get_inode_ok _ _ _ Hi)).
  replace (bn <? NDIRECT) with true by blia. rewrite E, Z.eqb_refl.
  destruct (free_list sk C) as [|b r] eqn:Efl; [simpl in Hfr; lia|].
  destruct (balloc_tx me L DK sk s C D ∅ b r T Hsb Ha (held_none C) (bitmap_room D _ b r Ha Efl Hcap) Efl)
    as (l1 & d & HC & Hd & Hr & T1 & Hb & Hfb & Hfl & Ha1 & _).
  rewrite Hdev, (bind_Ok _ _ _ _ _ Hr), (bind_Ok _ _ _ _ _ (upd_inode_ok (set_lo l1 s) ip i _ Hi)).
  exists b, (set_addr bn b i), l1, (taken sk C b d), ({[b]} ∪ ({[BBLOCK b sk]} ∪ D)). split; [done|]. split; [done|].
  destruct (fill_direct C i b d Hf Ha Hb Hfb HC Hd bn Hbn E) as [G Hat]. pose proof (datastart_pos C Ha) as Hpos.
  constructor; [done|done|lia| | |].
  - unfold fblock. by replace (bn <? NDIRECT) with true by blia.
  - pose proof (in_bitmaps b (a_layout _ _ Ha) ltac:(lia)). split; set_solver.
  - rewrite Hfl, Efl. unfold credit. rewrite addr_of_set by (apply Hf || done || lia).
    rewrite (decide_False (P := NDIRECT = bn)) by lia. simpl. lia.
Qed.

Lemma bmap_tx s ip i C D bn :
  tview (lo s) C D ∅ -> sb s = sk -> alloc_ok sk C -> icache s !! ip = Some i -> i_dev i = 1 -> file_ok sk C i -> in_file bn ->
  Z.of_nat (size (D ∪ bitmaps ∪ indset i) + credit i) + 2 <= log_cap L -> (credit i + 1 <= length (free_list sk C))%nat ->
  exists a i' l' C' D', bmap me ip bn s = Ok (a, set_ip ip i' (set_lo l' s)) /\ tview l' C' D' ∅ /\ mapped C i D C' i' D' bn a.
Proof.
  intros T Hsb Ha Hi Hdev Hf Hin Hcap Hfr.
  pose proof (size_sub_l (D ∪ bitmaps) (indset i)) as Hz1. pose proof (size_sub_l D bitmaps) as Hz2.
  destruct (decide (fblock C i bn = 0)) as [E0|E0].
  2:{ destruct (bmap_mapped s ip i C D bn T Ha Hi Hdev Hf Hin E0) as (l' & Hr & T').
      { pose proof (room_tx L D ∅ ltac:(lia) ltac:(rewrite size_empty; lia)) as Hr. by rewrite union_empty_r_L in Hr. }
      exists (fblock C i bn), i, l', C, D. rewrite set_ip_id by done. split; [done|]. split; [done|].
      constructor; [by apply grow_refl|done|done|done|set_solver|lia]. }
  destruct (Z_lt_dec bn NDIRECT) as [Hlt|Hge].
  { apply (bmap_direct s ip i C D bn); try done; try lia; [by destruct Hin|].
    unfold fblock in E0. by replace (bn <? NDIRECT) with true in E0 by blia. }
  unfold bmap. rewrite (bind_Ok _ _ _ _ _ (get_inode_ok _ _ _ Hi)). replace (bn <? NDIRECT) with false by blia.
  assert (Hbn : NDIRECT <= bn < MAXFILE) by (unfold in_file in Hin; lia).
  replace (bn - NDIRECT <? NINDIRECT) with true by (symmetry; apply Z.ltb_lt; unfold MAXFILE in Hbn; lia).
  destruct (ensure_ind s ip i C D T Hsb Ha Hi Hdev Hf ltac:(lia) ltac:(lia))
    as (x & i1 & l1 & C1 & D1 & H1 & T1 & G1 & Hx & Hx0 & Hs1 & Hs2 & Hf1).
  rewrite (bind_Ok _ _ _ _ _ H1), Hdev. pose proof (ind_count (D ∪ bitmaps) i i1 (g_ind _ _ _ _ G1)) as Hcnt.
  pose proof (subseteq_size _ _ (sub_again D D1 bitmaps (indset i1) Hs2)) as Hz3. pose proof (size_sub_l D1 bitmaps) as Hz4.
  pose proof (g_file _ _ _ _ G1) as Hf1'. pose proof (g_alloc _ _ _ _ G1) as Ha1.
  destruct (ind_block C1 i1 Hf1' Ha1) as (d & Hd & Hdb); [congruence|]. rewrite Hx in Hd.
  destruct (bread_tx me L DK (set_ip ip i1 (set_lo l1 s)) C1 D1 ∅ x d T1 (not_elem_of_empty _) Hd) as (k & l2 & H2 & T2 & A2 & _);
    [right; apply (room_tx L); [lia|rewrite size_empty; lia]|].
  rewrite (bind_Ok _ _ _ _ _ H2). rewrite (bind_Ok _ _ _ _ _ (data_tx me (set_lo l2 (set_ip ip i1 (set_lo l1 s))) k x d A2)).
  assert (Hdev1 : i_dev i1 = 1) by (rewrite (g_meta _ _ _ _ G1); done).
  destruct (ensure_entry (set_lo l2 (set_ip ip i1 (set_lo l1 s))) i1 C1 D1 x k d bn)
    as (a & l3 & C3 & D3 & H3 & T3 & G3 & Hat & Ha0 & (d3 & A3) & Hs3 & Hs4 & Hf3); try done; try lia.
  rewrite Hdev1 in H3. rewrite (bind_Ok _ _ _ _ _ H3).
  destruct (brelse_tx me L DK (set_lo l3 (set_lo l2 (set_ip ip i1 (set_lo l1 s)))) C3 D3 _ k x d3 T3 A3) as (l4 & H4 & T4 & _).
  rewrite (bind_Ok _ _ _ _ _ H4). rewrite not_held_again in T4 by apply not_elem_of_empty.
  exists a, i1, l4, C3, D3. split; [done|]. split; [done|]. constructor; try done.
  - by apply (grow_trans C i C1 i1).
  - apply (log_sub4 D D1 D3 bitmaps (indset i1) x a); try done. unfold indset. rewrite decide_False by congruence. set_solver.
  - assert (credit i1 = 0%nat) by (unfold credit; by rewrite decide_False by congruence). lia.
Qed.

End file.
