(* ===== verification/FsRw.v ===== *)
(** * Reading and writing files

    [readi] and [writei] on the array of bytes that a file is, and the copy of
    an inode between the cache and the disk. *)

From S2P Require Import Prelude Block Sleeplock Bio Log Fs FsTx FsAlloc FsFile.

(** ** Slices of a file *)

Lemma fbyte_in_block C i bn o d :
  0 <= o -> o / BSIZE = bn -> C !! fblock C i bn = Some d -> fbyte C i o = nth (Z.to_nat (o mod BSIZE)) d 0.
Proof. intros Ho <- Hd. unfold fbyte. by rewrite Hd. Qed.

Lemma same_block off k : 0 <= off -> 0 <= k -> off mod BSIZE + k < BSIZE ->
  (off + k) / BSIZE = off / BSIZE /\ (off + k) mod BSIZE = off mod BSIZE + k.
Proof.
  intros Ho Hk Hlt. pose proof (Z.div_mod off BSIZE ltac:(done)) as E. pose proof (Z.mod_pos_bound off BSIZE ltac:(done)) as Hr.
  pose proof (Z.div_mod (off + k) BSIZE ltac:(done)) as E'. pose proof (Z.mod_pos_bound (off + k) BSIZE ltac:(done)) as Hr'.
  unfold BSIZE in *. lia.
Qed.

Lemma block_slice C i off m d :
  0 <= off -> 0 <= m -> off mod BSIZE + m <= BSIZE -> C !! fblock C i (off / BSIZE) = Some d -> length d = Z.to_nat BSIZE ->
  take (Z.to_nat m) (drop (Z.to_nat (off mod BSIZE)) d) = fbyte C i <$> seqZ off m.
Proof.
  intros Ho Hm Hle Hd Hlen. pose proof (Z.mod_pos_bound off BSIZE ltac:(done)) as Hr. apply list_eq. intros k.
  destruct (decide (Z.of_nat k < m)) as [Hk|Hk].
  - rewrite lookup_take_lt, lookup_drop by lia. rewrite list_lookup_fmap.
    rewrite (proj2 (lookup_seqZ off m k (off + Z.of_nat k))) by (split; [lia|done]). simpl.
    destruct (same_block off (Z.of_nat k)) as [E1 E2]; [lia|lia|lia|].
    rewrite (fbyte_in_block C i (off / BSIZE) _ d) by (done || lia). rewrite E2.
    replace (Z.to_nat (off mod BSIZE + Z.of_nat k)) with (Z.to_nat (off mod BSIZE) + k)%nat by lia.
    destruct (lookup_lt_is_Some_2 d (Z.to_nat (off mod BSIZE) + k)) as [v Hv]; [lia|].
    by rewrite nth_lookup, Hv.
  - rewrite lookup_take_ge by lia. rewrite list_lookup_fmap, lookup_seqZ_ge by lia. done.
Qed.

(** One round of the loops. *)
Lemma chunk_pos off n tot : tot < n -> 0 < chunk off n tot <= n - tot /\ off mod BSIZE + chunk off n tot <= BSIZE.
Proof. intros H. pose proof (Z.mod_pos_bound off BSIZE ltac:(done)). unfold chunk. lia. Qed.

Lemma chunk_next off n tot : 0 <= off -> tot < n ->
  tot + chunk off n tot = n \/ (off + chunk off n tot) / BSIZE = off / BSIZE + 1.
Proof.
  intros Ho H. unfold chunk. destruct (Z.min_spec (n - tot) (BSIZE - off mod BSIZE)) as [[_ ->]|[_ ->]]; [left; lia|right].
  pose proof (Z.div_mod off BSIZE ltac:(done)) as E. replace (off + (BSIZE - off mod BSIZE)) with (0 + (off / BSIZE + 1) * BSIZE) by lia.
  rewrite Z.div_add by done. done.
Qed.

(** The number of blocks that [n] bytes from [off] on touch. *)
Definition spans (off n : Z) : Z := if n <=? 0 then 0 else (off + n - 1) / BSIZE - off / BSIZE + 1.

Lemma spans_pos off n : 0 <= off -> 0 < n -> 1 <= spans off n.
Proof.
  intros Ho Hn. unfold spans. replace (n <=? 0) with false by blia.
  pose proof (Z.div_le_mono off (off + n - 1) BSIZE ltac:(done) ltac:(lia)). lia.
Qed.

Lemma spans_next off n tot : 0 <= off -> tot < n ->
  spans (off + chunk off n tot) (n - (tot + chunk off n tot)) + 1 <= spans off (n - tot).
Proof.
  intros Ho Hlt. pose proof (spans_pos off (n - tot) Ho ltac:(lia)). destruct (chunk_pos off n tot Hlt) as [Hm _].
  destruct (chunk_next off n tot Ho Hlt) as [E|E].
  - unfold spans at 1. replace (n - (tot + chunk off n tot) <=? 0) with true by blia. lia.
  - unfold spans. destruct (Z.leb_spec (n - (tot + chunk off n tot)) 0).
    + unfold spans in *. lia.
    + replace (n - tot <=? 0) with false by blia. rewrite E.
      replace (off + chunk off n tot + (n - (tot + chunk off n tot)) - 1) with (off + (n - tot) - 1) by lia. lia.
Qed.

Lemma splice_length o l d : (o + length l <= length d)%nat -> length (splice o l d) = length d.
Proof. intros H. unfold splice. rewrite !length_app, length_take, length_drop. lia. Qed.

Lemma splice_block o l d : is_block d -> bytes l -> (o + length l <= Z.to_nat BSIZE)%nat -> is_block (splice o l d).
Proof.
  intros [Hl Hb] Hbl H. split; [rewrite splice_length by lia; done|].
  apply Forall_app. split; [by apply Forall_take|]. apply Forall_app. split; [done|by apply Forall_drop].
Qed.

Lemma splice_in o l d k v : (o + length l <= length d)%nat -> l !! k = Some v -> nth (o + k) (splice o l d) 0 = v.
Proof.
  intros H Hk. pose proof (lookup_lt_Some _ _ _ Hk). unfold splice. rewrite nth_lookup.
  rewrite lookup_app_r by (rewrite length_take; lia). rewrite length_take.
  replace (o + k - min o (length d))%nat with k by lia. rewrite lookup_app_l by done. by rewrite Hk.
Qed.

Lemma splice_out o l d k : (o + length l <= length d)%nat -> ~ (o <= k < o + length l)%nat -> nth k (splice o l d) 0 = nth k d 0.
Proof.
  intros H Hk. unfold splice. rewrite !nth_lookup. f_equal. destruct (decide (k < o)%nat) as [Hlt|Hge].
  - rewrite lookup_app_l by (rewrite length_take; lia). by rewrite lookup_take_lt.
  - rewrite lookup_app_r by (rewrite length_take; lia). rewrite lookup_app_r by (rewrite length_take; lia).
    rewrite lookup_drop, length_take. f_equal. lia.
Qed.

Section rw.

Context (me : Z) (L : log) (DK : bst) (sk : superblock).

Abbreviation tview := (tview me L DK).

(** ** [readi] *)

Lemma readi_loop_ok fuel : forall s ip i C D off n tot dst,
  tview (lo s) C D ∅ -> alloc_ok sk C -> icache s !! ip = Some i -> i_dev i = 1 -> file_ok sk C i -> (size D < NBUF)%nat ->
  0 <= off -> tot <= n -> off + (n - tot) <= i_size i -> (tot < n -> MAXFILE - off / BSIZE <= Z.of_nat fuel) ->
  exists l', readi_loop me fuel ip off n tot dst s = Ok (dst ++ (fbyte C i <$> seqZ off (n - tot)), set_lo l' s) /\ tview l' C D ∅.
Proof.
  induction fuel as [|fuel IH]; intros s ip i C D off n tot dst T Ha Hi Hdev Hf Hroom Ho Htot Hle Hfuel; cbn [readi_loop];
    pose proof (f_size _ _ _ Hf) as Hsz; (destruct (Z.ltb_spec tot n) as [Hlt|Hge]; 
      [|exists (lo s); rewrite set_lo_id; replace (n - tot) with 0 by lia; simpl; by rewrite app_nil_r]).
  { exfalso. pose proof (block_in_file off ltac:(lia)) as [_ ?]. lia. }
  rewrite (bind_Ok _ _ _ _ _ (get_inode_ok _ _ _ Hi)).
  pose proof (block_in_file off ltac:(lia)) as Hin.
  assert (Hne : fblock C i (off / BSIZE) <> 0).
  { apply (f_full _ _ _ Hf); [by destruct Hin|apply block_start; lia]. }
  destruct (bmap_mapped sk me L DK s ip i C D _ T Ha Hi Hdev Hf Hin Hne Hroom) as (l1 & H1 & T1).
  rewrite (bind_Ok _ _ _ _ _ H1). destruct (owned_block sk C i _ Hf Ha Hin Hne) as (d & Hd & Hdb).
  rewrite Hdev.
  destruct (bread_tx me L DK (set_lo l1 s) C D ∅ _ d T1 (not_elem_of_empty _) Hd) as (k & l2 & H2 & T2 & A2 & _);
    [right; by rewrite union_empty_r_L|].
  rewrite (bind_Ok _ _ _ _ _ H2), (bind_Ok _ _ _ _ _ (data_tx me (set_lo l2 (set_lo l1 s)) k _ d A2)).
  destruct (brelse_tx me L DK (set_lo l2 (set_lo l1 s)) C D _ k _ d T2 A2) as (l3 & H3 & T3 & _).
  rewrite (bind_Ok _ _ _ _ _ H3). rewrite not_held_again in T3 by apply not_elem_of_empty.
  destruct (chunk_pos off n tot Hlt) as [Hm1 Hm2]. set (m := chunk off n tot) in *.
  destruct (IH (set_lo l3 s) ip i C D (off + m) n (tot + m)
    (dst ++ take (Z.to_nat m) (drop (Z.to_nat (off mod BSIZE)) d))) as (l4 & H4 & T4); try done; try lia.
  { intros Hlt'. destruct (chunk_next off n tot Ho Hlt) as [E|E]; fold m in E; [lia|]. specialize (Hfuel Hlt). lia. }
  fold m. rewrite !set_lo_set_lo. exists l4. split; [|done]. rewrite H4. do 2 f_equal. rewrite <- app_assoc. f_equal.
  rewrite (block_slice C i off m d) by (done || lia || apply Hdb). rewrite <- fmap_app. f_equal.
  replace (n - tot) with (m + (n - (tot + m))) by lia. by rewrite seqZ_app by lia.
Qed.

Lemma fdata_slice C i off n : 0 <= off -> 0 <= n -> off + n <= i_size i ->
  fbyte C i <$> seqZ off n = take (Z.to_nat n) (drop (Z.to_nat off) (fdata C i)).
Proof.
  intros Ho Hn Hle. unfold fdata. rewrite <- fmap_drop, <- fmap_take. f_equal.
  replace (i_size i) with (off + (n + (i_size i - off - n))) by lia. rewrite !seqZ_app by lia.
  rewrite drop_app_length' by (by rewrite length_seqZ). rewrite take_app_length' by (by rewrite length_seqZ). done.
Qed.

(** Reading a file that is not a device: the bytes from [off] on, as many as
    there are and were asked for. *)
Lemma readi_tx devsw s ip i C D off n :
  tview (lo s) C D ∅ -> alloc_ok sk C -> icache s !! ip = Some i -> i_dev i = 1 -> file_ok sk C i -> (size D < NBUF)%nat ->
  i_type i <> T_DEV -> 0 <= off <= i_size i -> 0 <= n -> off + n < 2 ^ 32 ->
  exists l', readi me devsw ip off n s =
      Ok ((Z.min n (i_size i - off), take (Z.to_nat n) (drop (Z.to_nat off) (fdata C i))), set_lo l' s) /\ tview l' C D ∅.
Proof.
  intros T Ha Hi Hdev Hf Hroom Ht Ho Hn Hov. unfold readi. rewrite (bind_Ok _ _ _ _ _ (get_inode_ok _ _ _ Hi)).
  pose proof (f_size _ _ _ Hf) as Hsz. apply Z.eqb_neq in Ht as ->. rewrite (u32_small (off + n)) by (unfold u32_range; lia).
  replace ((i_size i <? off) || (off + n <? off)) with false by (symmetry; apply orb_false_iff; split; apply Z.ltb_ge; lia).
  assert (En : (if i_size i <? off + n then i_size i - off else n) = Z.min n (i_size i - off)).
  { destruct (Z.ltb_spec (i_size i) (off + n)); lia. }
  rewrite En. set (n' := Z.min n (i_size i - off)).
  destruct (readi_loop_ok rw_fuel s ip i C D off n' 0 []) as (l1 & H1 & T1); try done; try lia.
  { intros _. pose proof (Z.div_pos off BSIZE ltac:(lia) ltac:(done)). change (Z.of_nat rw_fuel) with 141. change MAXFILE with 140. lia. }
  rewrite (bind_Ok _ _ _ _ _ H1). exists l1. split; [|done]. rewrite Z.sub_0_r, app_nil_l. unfold ret. repeat f_equal.
  - apply i32_small. unfold i32_range. change (MAXFILE * BSIZE) with 71680 in Hsz. lia.
  - rewrite fdata_slice by lia. assert (Hl : length (drop (Z.to_nat off) (fdata C i)) = Z.to_nat (i_size i - off)).
    { unfold fdata. rewrite length_drop, length_fmap, length_seqZ. lia. }
    destruct (Z.min_spec n (i_size i - off)) as [[_ E]|[? E]]; unfold n'; rewrite E; [done|].
    rewrite !take_ge; [done|rewrite Hl; lia|rewrite Hl; lia].
Qed.

(** ** [writei] *)

(** The bytes [l] have been put at [off] of the file; all else is as it was. *)
Record written (C : gmap Z block) (i : inode) (C' : gmap Z block) (i' : inode) (off : Z) (l : list Z) : Prop := {
  w_meta : i' = with_addrs (i_addrs i') i;
  w_file : file_ok sk C' i';
  w_alloc : alloc_ok sk C';
  w_blocks : forall bn, in_file bn -> fblock C i bn <> 0 -> fblock C' i' bn = fblock C i bn;
  w_range : forall o, off <= o < off + Z.of_nat (length l) -> fblock C' i' (o / BSIZE) <> 0;
  w_in : forall k v, l !! k = Some v -> fbyte C' i' (off + Z.of_nat k) = v;
  w_out : forall o, 0 <= o < MAXFILE * BSIZE -> fblock C i (o / BSIZE) <> 0 -> ~ (off <= o < off + Z.of_nat (length l)) ->
    fbyte C' i' o = fbyte C i o;
  w_ind : addr_of i NDIRECT <> 0 -> addr_of i' NDIRECT = addr_of i NDIRECT;
  w_else : forall x, datastart sk <= x < sb_size sk -> free_bit sk C x = false -> ~ owns C i x -> C' !! x = C !! x;
  w_fixed : forall x, x < sb_bmapstart sk -> C' !! x = C !! x;
  w_used : forall x, 0 <= x < sb_size sk -> free_bit sk C x = false -> free_bit sk C' x = false;
  w_owned : forall x, owns C' i' x -> owns C i x \/ free_bit sk C x = true;
  w_same : (forall o, off <= o < off + Z.of_nat (length l) -> fblock C i (o / BSIZE) <> 0) -> i' = i
}.

Lemma written_nil C i off : file_ok sk C i -> alloc_ok sk C -> written C i C i off [].
Proof. intros Hf Ha. constructor; try done; [by rewrite with_addrs_id|simpl; lia|by left]. Qed.

Lemma written_app C i C1 i1 C2 i2 off l1 l2 :
  0 <= off -> off + Z.of_nat (length (l1 ++ l2)) <= MAXFILE * BSIZE ->
  written C i C1 i1 off l1 -> written C1 i1 C2 i2 (off + Z.of_nat (length l1)) l2 -> written C i C2 i2 off (l1 ++ l2).
Proof.
  intros Ho Hle W1 W2. rewrite length_app in Hle.
  assert (Hb : forall bn, in_file bn -> fblock C1 i1 bn <> 0 -> fblock C2 i2 bn <> 0).
  { intros bn Hin Hne. by rewrite (w_blocks _ _ _ _ _ _ W2). }
  constructor; try apply W2.
  - rewrite (w_meta _ _ _ _ _ _ W2), (w_meta _ _ _ _ _ _ W1). done.
  - intros bn Hin Hne. rewrite (w_blocks _ _ _ _ _ _ W2), (w_blocks _ _ _ _ _ _ W1) by (done || by rewrite (w_blocks _ _ _ _ _ _ W1)). done.
  - intros o Hr. rewrite length_app in Hr. destruct (Z_lt_dec o (off + Z.of_nat (length l1))) as [Hlt|Hge].
    + apply Hb; [apply block_in_file; lia|]. apply (w_range _ _ _ _ _ _ W1). lia.
    + apply (w_range _ _ _ _ _ _ W2). lia.
  - intros k v Hk. apply lookup_app_Some in Hk as [Hk|[Hge Hk]].
    + pose proof (lookup_lt_Some _ _ _ Hk) as Hlt. rewrite (w_out _ _ _ _ _ _ W2); [by apply (w_in _ _ _ _ _ _ W1)|lia| |lia].
      apply (w_range _ _ _ _ _ _ W1). lia.
    + rewrite <- (w_in _ _ _ _ _ _ W2 _ _ Hk). f_equal. lia.
  - intros o Hr Hne Hnot. rewrite length_app in Hnot. rewrite (w_out _ _ _ _ _ _ W2), (w_out _ _ _ _ _ _ W1); try done; try lia.
    rewrite (w_blocks _ _ _ _ _ _ W1); [done|by apply block_in_file|done].
  - intros Hne. rewrite (w_ind _ _ _ _ _ _ W2), (w_ind _ _ _ _ _ _ W1) by (done || by rewrite (w_ind _ _ _ _ _ _ W1)). done.
  - intros x Hx Hu Hn. pose proof (datastart_le sk (a_layout _ _ (w_alloc _ _ _ _ _ _ W1))) as Hds.
    rewrite (w_else _ _ _ _ _ _ W2), (w_else _ _ _ _ _ _ W1); try done.
    + apply (w_used _ _ _ _ _ _ W1); [lia|done].
    + intros Hown. destruct (w_owned _ _ _ _ _ _ W1 x Hown); [done|congruence].
  - intros x Hx. by rewrite (w_fixed _ _ _ _ _ _ W2), (w_fixed _ _ _ _ _ _ W1).
  - intros x Hx Hu. apply (w_used _ _ _ _ _ _ W2); [done|]. by apply (w_used _ _ _ _ _ _ W1).
  - intros x Hown. destruct (w_owned _ _ _ _ _ _ W2 x Hown) as [H1|H1]; [by apply (w_owned _ _ _ _ _ _ W1)|right].
    destruct (free_bit sk C x) eqn:E; [done|].
    destruct (f_owned _ _ _ (w_file _ _ _ _ _ _ W2) x Hown) as [Hr _].
    pose proof (datastart_le sk (a_layout _ _ (w_alloc _ _ _ _ _ _ W1))) as Hds.
    rewrite (w_used _ _ _ _ _ _ W1) in H1; [done|lia|done].
  - intros Hall. rewrite length_app in Hall. assert (i1 = i) as -> by (apply (w_same _ _ _ _ _ _ W1); intros o Hr; apply Hall; lia).
    apply (w_same _ _ _ _ _ _ W2). intros o Hr. rewrite (w_blocks _ _ _ _ _ _ W1); [apply Hall; lia|apply block_in_file; lia|apply Hall; lia].
Qed.

(** A data block of the file gets another content. *)
Lemma fblock_data C i bn v bn' :
  file_ok sk C i -> in_file bn -> fblock C i bn <> 0 -> fblock (<[fblock C i bn := v]> C) i bn' = fblock C i bn'.
Proof.
  intros Hf Hin Hne. pose proof (f_ind _ _ _ Hf bn Hin Hne) as Hni. revert Hni. set (a := fblock C i bn). intros Hni.
  unfold fblock. destruct (bn' <? NDIRECT); [done|]. destruct (addr_of i NDIRECT =? 0); [done|].
  by rewrite lookup_insert_ne.
Qed.

Lemma data_block_upd C i bn v :
  file_ok sk C i -> alloc_ok sk C -> in_file bn -> fblock C i bn <> 0 -> is_block v ->
  file_ok sk (<[fblock C i bn := v]> C) i /\ alloc_ok sk (<[fblock C i bn := v]> C) /\
  (forall x, 0 <= x < sb_size sk -> free_bit sk (<[fblock C i bn := v]> C) x = free_bit sk C x) /\
  (forall x, owns (<[fblock C i bn := v]> C) i x <-> owns C i x).
Proof.
  intros Hf Ha Hin Hne Hv. pose proof (fblock_data C i bn v) as E.
  destruct (f_owned _ _ _ Hf (fblock C i bn)) as [Hr _]; [split; [done|right; eauto]|].
  pose proof (datastart_le sk (a_layout _ _ Ha)) as Hds.
  assert (Hbit : forall x, 0 <= x < sb_size sk -> free_bit sk (<[fblock C i bn := v]> C) x = free_bit sk C x).
  { intros x Hx. apply free_bit_data; [apply Ha|lia|done]. }
  assert (Hown : forall x, owns (<[fblock C i bn := v]> C) i x <-> owns C i x).
  { intros x. unfold owns. split; intros [? [?|(bn' & ? & Hb)]]; (split; [done|]); [by left|right|by left|right]; exists bn';
      (split; [done|]); [by rewrite <- (E bn')|by rewrite (E bn')]. }
  split; [|split; [|done]].
  - destruct Hf as [Hl Hs Ho Hi Hj Hu]. constructor; try done.
    + intros x Hx%Hown. destruct (Ho x Hx). split; [done|]. rewrite Hbit by lia. done.
    + intros bn' Hin'. rewrite (E bn') by done. by apply Hi.
    + intros b1 b2 H1 H2. rewrite (E b1), (E b2) by done. by apply Hj.
    + intros bn' H0 Hsz. rewrite (E bn') by done. by apply Hu.
  - apply alloc_ok_upd; [done|done|]. intros x Hx. rewrite Hbit by lia. by apply (a_fixed _ _ Ha).
Qed.

Lemma written_one C i C' i' bn a d off l :
  file_ok sk C i -> grow sk C i C' i' -> in_file bn -> fblock C' i' bn = a -> a <> 0 -> C' !! a = Some d -> is_block d ->
  0 <= off -> off / BSIZE = bn -> bytes l -> off mod BSIZE + Z.of_nat (length l) <= BSIZE -> (0 < length l)%nat ->
  (fblock C i bn <> 0 -> i' = i) ->
  written C i (<[a := splice (Z.to_nat (off mod BSIZE)) l d]> C') i' off l.
Proof.
  intros Hf G Hin Ha Hne Hd Hdb Ho Hbn Hl Hle Hpos Hsame. pose proof (Z.mod_pos_bound off BSIZE ltac:(done)) as Hr.
  pose proof (g_file _ _ _ _ _ G) as Hf'. pose proof (g_alloc _ _ _ _ _ G) as Ha'. destruct Hdb as [Hdl Hdy].
  assert (Hfit : (Z.to_nat (off mod BSIZE) + length l <= length d)%nat) by lia.
  set (v := splice (Z.to_nat (off mod BSIZE)) l d).
  assert (Hv : is_block v) by (apply splice_block; [done|done|lia]).
  pose proof (fblock_data C' i' bn v) as Efb. rewrite Ha in Efb.
  destruct (data_block_upd C' i' bn v Hf' Ha' Hin) as (Hf2 & Ha2 & Hbits & Hown); [congruence|done|]. rewrite Ha in *.
  assert (Hat : forall o, 0 <= o -> o / BSIZE = bn -> fbyte (<[a := v]> C') i' o = nth (Z.to_nat (o mod BSIZE)) v 0).
  { intros o H0 Hob. apply (fbyte_in_block _ _ bn); [done|done|]. rewrite Efb, Ha by (done || congruence). by rewrite lookup_insert_eq. }
  destruct (f_owned _ _ _ Hf' a) as [Har _]; [split; [done|right; eauto]|].
  constructor; try done.
  - apply G.
  - intros bn' Hin' Hne'. rewrite Efb by done. by apply (g_blocks _ _ _ _ _ G).
  - intros o Hor. destruct (same_block off (o - off)) as [E _]; [lia|lia|lia|]. replace (off + (o - off)) with o in E by lia.
    rewrite Efb by done. congruence.
  - intros k x Hk. pose proof (lookup_lt_Some _ _ _ Hk) as Hlt.
    destruct (same_block off (Z.of_nat k)) as [E1 E2]; [lia|lia|lia|]. rewrite Hat by (lia || congruence). rewrite E2.
    replace (Z.to_nat (off mod BSIZE + Z.of_nat k)) with (Z.to_nat (off mod BSIZE) + k)%nat by lia. by apply splice_in.
  - intros o Hor Hne' Hnot. pose proof (block_in_file o Hor) as Hin'. pose proof (g_blocks _ _ _ _ _ G _ Hin' Hne') as Egb.
    assert (Hst : C' !! fblock C i (o / BSIZE) = C !! fblock C i (o / BSIZE)).
    { destruct (f_owned _ _ _ Hf (fblock C i (o / BSIZE))) as [? ?]; [split; [done|right; eauto]|].
      apply (g_keep _ _ _ _ _ G); [done|done|]. by apply (f_ind _ _ _ Hf). }
    destruct (decide (o / BSIZE = bn)) as [E|E].
    + rewrite Hat by (done || lia). unfold fbyte. rewrite <- Hst, <- Egb, E, Ha, Hd. simpl. apply splice_out; [done|].
      pose proof (Z.div_mod o BSIZE ltac:(done)) as E1. pose proof (Z.div_mod off BSIZE ltac:(done)) as E2.
      rewrite E in E1. rewrite Hbn in E2. pose proof (Z.mod_pos_bound o BSIZE ltac:(done)). lia.
    + unfold fbyte. rewrite Efb by done. rewrite Egb. rewrite lookup_insert_ne; [by rewrite Hst|].
      rewrite <- Egb. intros Heq. apply E. apply (f_inj _ _ _ Hf'); [done|done|congruence|congruence].
  - apply G.
  - intros x Hx Hu Hn. rewrite lookup_insert_ne.
    + apply (g_keep _ _ _ _ _ G); [done|done|]. intros ->. pose proof (datastart_pos sk C' Ha').
      apply Hn. split; [lia|by left].
    + intros ->. destruct (g_owned _ _ _ _ _ G x) as [?|?]; [|done|congruence]. split; [done|right; eauto].
  - intros x Hx. assert (sb_bmapstart sk <= datastart sk).
    { unfold datastart. pose proof (l_size _ (a_layout _ _ Ha')). pose proof (bitmap_index (sb_size sk) (sb_size sk) ltac:(lia)). lia. }
    rewrite lookup_insert_ne by lia. by apply (g_fixed _ _ _ _ _ G).
  - intros x Hx Hu. rewrite Hbits by done. by apply (g_used _ _ _ _ _ G).
  - intros x Hx%Hown. by apply (g_owned _ _ _ _ _ G).
  - intros Hall. apply Hsame. rewrite <- Hbn. apply Hall. lia.
Qed.

Lemma log_step (D D1 B I : gset Z) a :
  D1 ⊆ D ∪ B ∪ I ∪ {[a]} -> (size ({[a]} ∪ D1 ∪ B ∪ I) <= size (D ∪ B ∪ I) + 1)%nat.
Proof.
  intros H. assert (Hs : {[a]} ∪ D1 ∪ B ∪ I ⊆ {[a]} ∪ (D ∪ B ∪ I)) by set_solver. apply subseteq_size in Hs.
  pose proof (size_add (D ∪ B ∪ I) a). lia.
Qed.

Lemma size_grow3 (D B I : gset Z) a : (size D <= size ({[a]} ∪ D ∪ B ∪ I))%nat.
Proof. apply subseteq_size. set_solver. Qed.

(** A transaction that puts more blocks in the log, none of them outside the
    inodes, the bitmap and the data. *)
Definition logged (D D' : gset Z) : Prop := D ⊆ D' /\ forall n, n ∈ D' -> n ∈ D \/ sb_inodestart sk <= n < sb_size sk.

Lemma logged_refl D : logged D D.
Proof. split; [done|]. by left. Qed.

Lemma logged_trans D D1 D2 : logged D D1 -> logged D1 D2 -> logged D D2.
Proof. intros [S1 H1] [S2 H2]. split; [by transitivity D1|]. intros n [Hn|Hn]%H2; [auto|by right]. Qed.

Lemma logged_map D D1 C i a :
  alloc_ok sk C -> file_ok sk C i -> owns C i a -> D ⊆ D1 -> D1 ⊆ D ∪ bitmaps sk ∪ indset i ∪ {[a]} -> logged D ({[a]} ∪ D1).
Proof.
  intros Ha Hf Hown Hs1 Hs2. split; [set_solver|]. intros n Hn. pose proof (a_layout _ _ Ha) as [L1 L2 L3 L4].
  pose proof (Z.div_pos (sb_ninodes sk) IPB ltac:(lia) ltac:(done)). pose proof (Z.div_pos (sb_size sk) BPB ltac:(lia) ltac:(done)).
  assert (Ho : forall x, owns C i x -> sb_inodestart sk <= x < sb_size sk).
  { intros x Hx. destruct (f_owned _ _ _ Hf x Hx) as [? _]. unfold datastart in *. lia. }
  assert (Hn' : n ∈ D \/ n ∈ bitmaps sk \/ n ∈ indset i \/ n = a) by set_solver.
  destruct Hn' as [?|[Hb|[Hi| ->]]]; [by left|right..].
  - apply elem_of_list_to_set, list_elem_of_fmap in Hb as (k & -> & Hk). apply elem_of_seqZ in Hk. lia.
  - apply Ho. unfold indset in Hi. destruct (decide _); [by apply not_elem_of_empty in Hi|]. apply elem_of_singleton in Hi as ->. split; [done|by left].
  - by apply Ho.
Qed.

(** One block: map it, change it, log it, release it. *)
Lemma write_block_tx s ip i C D off l A (k : M fsys A) :
  tview (lo s) C D ∅ -> sb s = sk -> alloc_ok sk C -> icache s !! ip = Some i -> i_dev i = 1 -> file_ok sk C i ->
  0 <= off < MAXFILE * BSIZE -> bytes l -> off mod BSIZE + Z.of_nat (length l) <= BSIZE -> (0 < length l)%nat ->
  Z.of_nat (size (D ∪ bitmaps sk ∪ indset i) + credit i) + 2 <= log_cap L -> (credit i + 1 <= length (free_list sk C))%nat ->
  exists i' l' C' D',
    (let* addr := bmap me ip (off / BSIZE) in
     let* bp := bread_ me 1 addr in
     let* d := data_ bp in
     set_data_ bp (splice (Z.to_nat (off mod BSIZE)) l d) ;;;
     log_write_ bp ;;;
     brelse_ me bp ;;; k) s = k (set_ip ip i' (set_lo l' s)) /\
    tview l' C' D' ∅ /\ written C i C' i' off l /\ logged D D' /\
    (size (D' ∪ bitmaps sk ∪ indset i') + credit i' <= size (D ∪ bitmaps sk ∪ indset i) + credit i + 1)%nat /\
    (length (free_list sk C) + credit i' <= length (free_list sk C') + 1 + credit i)%nat.
Proof.
  intros T Hsb Ha Hi Hdev Hf Ho Hl Hle Hpos Hcap Hfr. pose proof (block_in_file off Ho) as Hin.
  destruct (bmap_tx sk me L DK s ip i C D (off / BSIZE) T Hsb Ha Hi Hdev Hf Hin Hcap Hfr) as (a & i1 & l1 & C1 & D1 & H1 & T1 & M1).
  destruct M1 as [G Hat Hne Hsm [Hs1 Hs2] Hfree]. rewrite (bind_Ok _ _ _ _ _ H1).
  pose proof (ind_count (D ∪ bitmaps sk) i i1 (g_ind _ _ _ _ _ G)) as Hcnt.
  pose proof (log_step D D1 (bitmaps sk) (indset i1) a Hs2) as Hstep. pose proof (size_grow3 D1 (bitmaps sk) (indset i1) a) as Hsz.
  destruct (owned_block sk C1 i1 _ (g_file _ _ _ _ _ G) (g_alloc _ _ _ _ _ G) Hin) as (d & Hd & Hdb); [congruence|].
  rewrite Hat in Hd. set (s1 := set_ip ip i1 (set_lo l1 s)).
  destruct (bread_tx me L DK s1 C1 D1 ∅ a d T1 (not_elem_of_empty _) Hd) as (p & l2 & H2 & T2 & A2 & _);
    [right; apply (room_tx L); [lia|rewrite size_empty; lia]|].
  rewrite (bind_Ok _ _ _ _ _ H2), (bind_Ok _ _ _ _ _ (data_tx me (set_lo l2 s1) p a d A2)).
  destruct (update_tx me L DK (set_lo l2 s1) C1 D1 _ p a d (splice (Z.to_nat (off mod BSIZE)) l d) T2 A2) as (l3 & H3 & _ & T3 & _); [lia|].
  rewrite H3. rewrite not_held_again in T3 by apply not_elem_of_empty.
  eexists i1, l3, _, _. split; [done|]. split; [exact T3|]. split; [apply (written_one C i C1 i1 (off / BSIZE)); done || lia|].
  split; [apply (logged_map D D1 C1 i1); [apply G|apply G|split; [done|right; eauto]|done|done]|]. split; [lia|].
  assert (Hfl : free_list sk (<[a := splice (Z.to_nat (off mod BSIZE)) l d]> C1) = free_list sk C1).
  { apply free_list_ext. intros x Hx. destruct (f_owned _ _ _ (g_file _ _ _ _ _ G) a) as [? _]; [split; [done|right; eauto]|].
    apply free_bit_data; [apply (g_alloc _ _ _ _ _ G)|lia|done]. }
  rewrite Hfl. lia.
Qed.

Lemma set_ip_again ip i1 i2 l1 l2 s : set_ip ip i2 (set_lo l2 (set_ip ip i1 (set_lo l1 s))) = set_ip ip i2 (set_lo l2 s).
Proof. unfold set_ip. simpl. by rewrite list_insert_insert_eq. Qed.

Lemma writei_loop_ok fuel : forall s ip i C D off n tot src,
  tview (lo s) C D ∅ -> sb s = sk -> alloc_ok sk C -> icache s !! ip = Some i -> i_dev i = 1 -> file_ok sk C i ->
  0 <= off -> 0 <= tot <= n -> Z.of_nat (length src) = n -> bytes src -> off + (n - tot) <= MAXFILE * BSIZE ->
  (tot < n -> MAXFILE - off / BSIZE <= Z.of_nat fuel) ->
  Z.of_nat (size (D ∪ bitmaps sk ∪ indset i) + credit i) + spans off (n - tot) + 1 <= log_cap L ->
  Z.of_nat (credit i) + spans off (n - tot) <= Z.of_nat (length (free_list sk C)) ->
  exists i' l' C' D', writei_loop me fuel ip src off n tot s = Ok (off + (n - tot), set_ip ip i' (set_lo l' s)) /\
    tview l' C' D' ∅ /\ written C i C' i' off (drop (Z.to_nat tot) src) /\ logged D D' /\
    Z.of_nat (length (free_list sk C) + credit i') <= Z.of_nat (length (free_list sk C') + credit i) + spans off (n - tot) /\
    Z.of_nat (size (D' ∪ bitmaps sk ∪ indset i') + credit i') <=
      Z.of_nat (size (D ∪ bitmaps sk ∪ indset i) + credit i) + spans off (n - tot).
Proof.
  induction fuel as [|fuel IH]; intros s ip i C D off n tot src T Hsb Ha Hi Hdev Hf Ho Htot Hn Hb Hle Hfuel Hcap Hfr;
    cbn [writei_loop]; (destruct (Z.ltb_spec tot n) as [Hlt|Hge];
      [|exists i, (lo s), C, D; rewrite set_lo_id, set_ip_id by done; replace (n - tot) with 0 by lia;
        rewrite Z.add_0_r, drop_ge by lia; split_and!; try done; [by apply written_nil|apply logged_refl|unfold spans; simpl; lia..]]).
  { exfalso. pose proof (block_in_file off ltac:(lia)) as [_ ?]. lia. }
  rewrite (bind_Ok _ _ _ _ _ (get_inode_ok _ _ _ Hi)), Hdev.
  destruct (chunk_pos off n tot Hlt) as [Hm1 Hm2]. pose proof (spans_pos off (n - tot) Ho ltac:(lia)) as Hsp.
  pose proof (spans_next off n tot Ho Hlt) as Hsn. pose proof (chunk_next off n tot Ho Hlt) as Hcn. set (m := chunk off n tot) in *.
  set (l := take (Z.to_nat m) (drop (Z.to_nat tot) src)).
  assert (Hll : length l = Z.to_nat m) by (unfold l; rewrite length_take, length_drop; lia).
  destruct (write_block_tx s ip i C D off l Z (writei_loop me fuel ip src (off + m) n (tot + m)))
    as (i1 & l1 & C1 & D1 & H1 & T1 & W1 & Hs1 & Hs2 & Hf1); try done; try lia.
  { by apply Forall_take, Forall_drop. }
  rewrite H1. destruct (IH (set_ip ip i1 (set_lo l1 s)) ip i1 C1 D1 (off + m) n (tot + m) src)
    as (i2 & l2 & C2 & D2 & H2 & T2 & W2 & Hs3 & Hs5 & Hs4); try done; try lia.
  - apply W1.
  - simpl. apply list_lookup_insert_eq. by eapply lookup_lt_Some.
  - rewrite (w_meta _ _ _ _ _ _ W1). done.
  - apply W1.
  - exists i2, l2, C2, D2. rewrite H2, set_ip_again. split; [do 2 f_equal; lia|]. split; [done|]. split; [|split; [by apply (logged_trans D D1)|lia]].
    replace (drop (Z.to_nat tot) src) with (l ++ drop (Z.to_nat (tot + m)) src).
    2:{ unfold l. rewrite <- (take_drop (Z.to_nat m) (drop (Z.to_nat tot) src)) at 2. rewrite drop_drop. f_equal. f_equal. lia. }
    apply (written_app C i C1 i1); [done|rewrite length_app, length_drop; lia|done|].
    replace (off + Z.of_nat (length l)) with (off + m) by lia. done.
Qed.

End rw.
