(* ===== verification/FsInode.v ===== *)
(** * Inodes on disk and in the cache

    The on-disk inode and its copy in the inode cache: [iupdate] writes what
    [ilock] reads back.  With it, [writei] as a whole. *)

From S2P Require Import Prelude Block Sleeplock Bio Log Fs FsTx FsAlloc FsFile FsRw.

(** ** The 64 bytes of an inode *)

Definition i16_range (z : Z) : Prop := - 2 ^ 15 <= z < 2 ^ 15.

Lemma i16_u16 z : i16_range z -> i16 (z mod 2 ^ 16) = z.
Proof.
  unfold i16_range, i16. intros Hz. rewrite Z.add_mod_idemp_l by done. rewrite Z.mod_small by lia. lia.
Qed.

Lemma get_put_u16 o z b : (o + 2 <= length b)%nat -> i16_range z -> i16 (get_u16 o (put_u16 o z b)) = z.
Proof. intros H Hz. unfold get_u16, put_u16. rewrite field_set_same by done. change (256 ^ Z.of_nat 2) with (2 ^ 16). by apply i16_u16. Qed.

Lemma put_u16_length o z b : (o + 2 <= length b)%nat -> length (put_u16 o z b) = length b.
Proof. apply set_field_length. Qed.

Lemma put_u32_length o z b : (o + 4 <= length b)%nat -> length (put_u32 o z b) = length b.
Proof. apply set_field_length. Qed.

Section addrs.

Context (k : nat).

Lemma put_addrs_length l : forall j b, (DINODE * k + 12 + 4 * (j + length l) <= length b)%nat -> length (put_addrs k j l b) = length b.
Proof.
  induction l as [|a l IH]; intros j b H; cbn [put_addrs]; [done|]. cbn [length] in H.
  rewrite IH; rewrite put_u32_length; lia.
Qed.

Lemma put_addrs_bytes l : forall j b, bytes b -> bytes (put_addrs k j l b).
Proof. induction l as [|a l IH]; intros j b H; cbn [put_addrs]; [done|]. by apply IH, set_field_bytes. Qed.

Lemma put_addrs_other l : forall j b o n, (DINODE * k + 12 + 4 * (j + length l) <= length b)%nat ->
  (o + n <= DINODE * k + 12 + 4 * j \/ DINODE * k + 12 + 4 * (j + length l) <= o)%nat ->
  field o n (put_addrs k j l b) = field o n b.
Proof.
  induction l as [|a l IH]; intros j b o n H Hd; cbn [put_addrs]; [done|]. cbn [length] in H, Hd.
  rewrite IH by (rewrite ?put_u32_length; lia). unfold put_u32. apply field_set_other; lia.
Qed.

Lemma put_addrs_get l : forall j b idx a, (DINODE * k + 12 + 4 * (j + length l) <= length b)%nat ->
  l !! idx = Some a -> u32_range a -> get_u32 (DINODE * k + 12 + 4 * (j + idx)) (put_addrs k j l b) = a.
Proof.
  induction l as [|x l IH]; intros j b idx a H Hl Ha; cbn [put_addrs]; [done|]. cbn [length] in H.
  destruct idx as [|idx].
  - injection Hl as ->. rewrite Nat.add_0_r. unfold get_u32. rewrite put_addrs_other by (rewrite ?put_u32_length; lia).
    apply get_put_u32; [lia|done].
  - replace (j + S idx)%nat with (S j + idx)%nat by lia. apply IH; [rewrite put_u32_length; lia|done|done].
Qed.

End addrs.

(** An inode whose fields have the widths of their types. *)
Record inode_ok (i : inode) : Prop := {
  n_type : i16_range (i_type i);
  n_major : i16_range (i_major i);
  n_minor : i16_range (i_minor i);
  n_nlink : i16_range (i_nlink i);
  n_size : u32_range (i_size i);
  n_len : length (i_addrs i) = Z.to_nat (NDIRECT + 1);
  n_addrs : Forall u32_range (i_addrs i)
}.

Section dinode.

Context (k : nat) (i : inode) (b : block) (Hk : (DINODE * k + DINODE <= length b)%nat) (Hi : inode_ok i).

Lemma addrs_fit : (DINODE * k + 12 + 4 * (0 + length (i_addrs i)) <= length b)%nat.
Proof. rewrite (n_len _ Hi). unfold NDIRECT, DINODE in *. lia. Qed.

Lemma put_dinode_length : length (put_dinode k i b) = length b.
Proof.
  pose proof addrs_fit as Hl. unfold DINODE in *. unfold put_dinode.
  rewrite put_addrs_length; rewrite ?put_u32_length, ?put_u16_length; rewrite ?put_u32_length, ?put_u16_length;
    rewrite ?put_u16_length; rewrite ?put_u16_length; rewrite ?put_u16_length; unfold DINODE in *; lia.
Qed.

(** What is read back. *)
Ltac dlen := unfold put_u32, put_u16 in *; repeat rewrite set_field_length; pose proof addrs_fit; unfold DINODE in *; lia.

Lemma put_dinode_field o n : (o + n <= DINODE * k \/ DINODE * k + DINODE <= o)%nat -> field o n (put_dinode k i b) = field o n b.
Proof.
  intros Ho. unfold put_dinode. pose proof addrs_fit as Hl. rewrite (n_len _ Hi) in Hl.
  rewrite put_addrs_other by (rewrite ?(n_len _ Hi); unfold NDIRECT; dlen).
  unfold put_u32, put_u16. rewrite !field_set_other by dlen. done.
Qed.

Lemma load_put_dinode j :
  load_dinode k (put_dinode k i b) j =
  Inode (i_dev j) (i_inum j) (i_ref j) (i_lock j) 1 (i_type i) (i_major i) (i_minor i) (i_nlink i) (i_size i) (i_addrs i).
Proof.
  pose proof addrs_fit as Hl. destruct Hi as [H1 H2 H3 H4 H5 H6 H7]. unfold load_dinode, put_dinode. f_equal.
  - unfold di_type, get_u16. rewrite put_addrs_other by (rewrite ?H6; unfold NDIRECT; dlen).
    unfold put_u32. rewrite field_set_other by dlen. unfold put_u16. rewrite !field_set_other by dlen. apply (get_put_u16 (DINODE * k)); [dlen|done].
  - unfold di_major, get_u16. rewrite put_addrs_other by (rewrite ?H6; unfold NDIRECT; dlen).
    unfold put_u32. rewrite field_set_other by dlen. unfold put_u16. do 2 rewrite field_set_other by dlen. apply (get_put_u16 (DINODE * k + 2)); [dlen|done].
  - unfold di_minor, get_u16. rewrite put_addrs_other by (rewrite ?H6; unfold NDIRECT; dlen).
    unfold put_u32. rewrite field_set_other by dlen. unfold put_u16. rewrite field_set_other by dlen. apply (get_put_u16 (DINODE * k + 4)); [dlen|done].
  - unfold di_nlink, get_u16. rewrite put_addrs_other by (rewrite ?H6; unfold NDIRECT; dlen).
    unfold put_u32. rewrite field_set_other by dlen. apply (get_put_u16 (DINODE * k + 6)); [dlen|done].
  - unfold di_size, get_u32. rewrite put_addrs_other by (rewrite ?H6; unfold NDIRECT; dlen). apply (get_put_u32 (DINODE * k + 8)); [dlen|done].
  - unfold di_addrs. apply list_eq. intros idx. rewrite list_lookup_fmap. destruct (decide (idx < 13)%nat) as [Hlt|Hge].
    + rewrite lookup_seq_lt by (unfold NDIRECT; lia). simpl.
      destruct (lookup_lt_is_Some_2 (i_addrs i) idx) as [a Ha]; [rewrite H6; unfold NDIRECT; lia|]. rewrite Ha. f_equal.
      apply (put_addrs_get k _ 0); [dlen|done|]. by apply (proj1 (Forall_lookup _ _) H7 idx).
    + rewrite lookup_seq_ge by (unfold NDIRECT; lia). symmetry. apply lookup_ge_None. rewrite H6. unfold NDIRECT. lia.
Qed.

(** The other inodes of the block. *)
Lemma load_put_other k' j : k' <> k -> load_dinode k' (put_dinode k i b) j = load_dinode k' b j.
Proof.
  intros Hne. unfold load_dinode, di_type, di_major, di_minor, di_nlink, di_size, di_addrs, get_u16, get_u32.
  rewrite !put_dinode_field by (unfold DINODE in *; lia). f_equal.
  apply list_fmap_ext. intros x y Hy. apply lookup_seq in Hy as [-> Hx]. apply put_dinode_field. unfold DINODE, NDIRECT in *. lia.
Qed.

End dinode.

Section inode.

Context (me : Z) (L : log) (DK : bst) (sk : superblock).

Abbreviation tview := (tview me L DK).

(** Where an inode is on disk. *)
Definition islot (i : inode) : nat := Z.to_nat (i_inum i mod IPB).

Lemma IBLOCK_eq n : layout sk -> 0 <= n < sb_ninodes sk -> IBLOCK n sk = sb_inodestart sk + n / IPB /\ 1 < IBLOCK n sk < sb_bmapstart sk.
Proof.
  intros Hl Hn. destruct Hl as [Hs Hi [Hn0 Hb] Hd].
  assert (Hq : 0 <= n / IPB <= sb_ninodes sk / IPB) by (split; [apply Z.div_pos; [lia|done]|apply Z.div_le_mono; [done|lia]]).
  pose proof (bitmap_index (sb_size sk) (sb_size sk) ltac:(lia)).
  unfold IBLOCK. rewrite u32_small by (unfold u32_range; lia). lia.
Qed.

Lemma islot_fit i d : is_block d -> (DINODE * islot i + DINODE <= length d)%nat.
Proof.
  intros [Hd _]. rewrite Hd. unfold islot. pose proof (Z.mod_pos_bound (i_inum i) IPB ltac:(done)) as Hm.
  change IPB with 8 in *. unfold DINODE, BSIZE. lia.
Qed.

Lemma put_dinode_block k i d : inode_ok i -> (DINODE * k + DINODE <= length d)%nat -> is_block d -> is_block (put_dinode k i d).
Proof.
  intros Hi Hk [Hl Hb]. split; [by rewrite put_dinode_length|]. apply put_addrs_bytes. unfold put_u32, put_u16.
  by do 5 apply set_field_bytes.
Qed.

Definition inum_ok (i : inode) : Prop := i_dev i = 1 /\ 0 <= i_inum i < sb_ninodes sk.

(** The disk copy of an inode that is in use is the same as the cached one. *)
Definition synced (C : gmap Z block) (i : inode) : Prop :=
  exists d, C !! IBLOCK (i_inum i) sk = Some d /\ load_dinode (islot i) d i = i.

Lemma iblock_here C i : alloc_ok sk C -> inum_ok i -> exists d, C !! IBLOCK (i_inum i) sk = Some d /\ is_block d.
Proof.
  intros Ha [_ Hn]. apply (a_blocks _ _ Ha). destruct (IBLOCK_eq (i_inum i) (a_layout _ _ Ha) Hn) as [? ?].
  pose proof (Z.div_pos (i_inum i) IPB ltac:(lia) ltac:(done)). pose proof (datastart_le sk (a_layout _ _ Ha)). unfold datastart in *. pose proof (l_size _ (a_layout _ _ Ha)).
  pose proof (bitmap_index (sb_size sk) (sb_size sk) ltac:(lia)). lia.
Qed.

(** A block in front of the bitmap is written: the allocator and the files do not see it. *)
Lemma fixed_write C n v :
  alloc_ok sk C -> is_block v -> 0 <= n < sb_bmapstart sk ->
  alloc_ok sk (<[n := v]> C) /\ free_list sk (<[n := v]> C) = free_list sk C /\
  (forall x, 0 <= x < sb_size sk -> free_bit sk (<[n := v]> C) x = free_bit sk C x) /\
  forall j, file_ok sk C j -> file_ok sk (<[n := v]> C) j /\ fdata (<[n := v]> C) j = fdata C j /\
    (forall x, owns (<[n := v]> C) j x <-> owns C j x).
Proof.
  intros Ha Hv Hn. pose proof (a_layout _ _ Ha) as Hl. pose proof (datastart_le sk Hl) as Hds.
  assert (Hb : forall x, 0 <= x < sb_size sk -> free_bit sk (<[n := v]> C) x = free_bit sk C x).
  { intros x Hx. apply free_bit_inode; [done|lia|done]. }
  assert (Hlt : sb_bmapstart sk < datastart sk).
  { unfold datastart. pose proof (l_size _ Hl). pose proof (bitmap_index (sb_size sk) (sb_size sk) ltac:(lia)). lia. }
  split_and!; [|by apply free_list_ext|done|].
  - apply alloc_ok_upd; [done|done|]. intros x Hx. rewrite Hb by lia. by apply (a_fixed _ _ Ha).
  - intros j Hf. assert (HC : forall x, owns C j x -> <[n := v]> C !! x = C !! x).
    { intros x Hx. apply (f_owned _ _ _ Hf) in Hx as [? _]. by rewrite lookup_insert_ne by lia. }
    split; [|split; [by apply (fdata_frame sk)|]].
    + apply (file_ok_frame sk C); [done|done|]. intros x Hx. apply (f_owned _ _ _ Hf) in Hx as [? ?]. rewrite Hb by lia. done.
    + intros x. unfold owns. assert (E : forall bn, fblock (<[n := v]> C) j bn = fblock C j bn) by (intros; by apply fblock_frame).
      split; intros [? [?|(bn & ? & Hbn)]]; (split; [done|]); [by left|right|by left|right]; exists bn; (split; [done|]);
        [by rewrite <- E|by rewrite E].
Qed.

Lemma iupdate_tx s ip i C D :
  tview (lo s) C D ∅ -> sb s = sk -> alloc_ok sk C -> icache s !! ip = Some i -> inum_ok i -> inode_ok i -> i_valid i = 1 ->
  Z.of_nat (size D) < log_cap L ->
  exists l' v, iupdate me ip s = Ok (tt, set_lo l' s) /\ is_block v /\
    tview l' (<[IBLOCK (i_inum i) sk := v]> C) ({[IBLOCK (i_inum i) sk]} ∪ D) ∅ /\
    synced (<[IBLOCK (i_inum i) sk := v]> C) i /\
    exists d, C !! IBLOCK (i_inum i) sk = Some d /\ is_block d /\ v = put_dinode (islot i) i d.
Proof.
  intros T Hsb Ha Hi Hn Hok Hval Hcap. unfold iupdate. rewrite (bind_Ok _ _ _ _ _ (get_inode_ok _ _ _ Hi)).
  rewrite (bind_Ok (gets sb) _ s sk s) by (unfold gets; by rewrite Hsb).
  destruct (iblock_here C i Ha Hn) as (d & Hd & Hdb). destruct Hn as [Hdev Hn]. rewrite Hdev.
  destruct (bread_tx me L DK s C D ∅ _ d T (not_elem_of_empty _) Hd) as (p & l1 & H1 & T1 & A1 & _);
    [right; apply (room_tx L); [lia|rewrite size_empty; lia]|].
  rewrite (bind_Ok _ _ _ _ _ H1), (bind_Ok _ _ _ _ _ (data_tx me (set_lo l1 s) p _ d A1)).
  pose proof (islot_fit i d Hdb) as Hfit.
  destruct (update_tx me L DK (set_lo l1 s) C D _ p _ d (put_dinode (islot i) i d) T1 A1 Hcap) as (l2 & _ & H2 & T2 & _).
  rewrite not_held_again in T2 by apply not_elem_of_empty.
  exists l2, (put_dinode (islot i) i d). unfold islot in H2 at 1. rewrite H2. split; [done|]. split; [by apply put_dinode_block|]. split; [done|].
  split; [|by exists d]. exists (put_dinode (islot i) i d). rewrite lookup_insert_eq. split; [done|].
  rewrite load_put_dinode by done. rewrite <- Hval. by destruct i.
Qed.

Lemma file_inode_ok C i :
  alloc_ok sk C -> file_ok sk C i -> i16_range (i_type i) -> i16_range (i_major i) -> i16_range (i_minor i) -> i16_range (i_nlink i) ->
  inode_ok i.
Proof.
  intros Ha Hf H1 H2 H3 H4. constructor; try done.
  - pose proof (f_size _ _ _ Hf). change (MAXFILE * BSIZE) with 71680 in *. unfold u32_range. lia.
  - apply Hf.
  - apply Forall_lookup. intros k a Hk. pose proof (lookup_lt_Some _ _ _ Hk) as Hlt. rewrite (f_len _ _ _ Hf) in Hlt.
    assert (Hak : addr_of i (Z.of_nat k) = a) by (unfold addr_of; rewrite Nat2Z.id, nth_lookup, Hk; done).
    destruct (decide (a = 0)) as [-> |Hne]; [done|]. pose proof (l_size _ (a_layout _ _ Ha)).
    pose proof (datastart_le sk (a_layout _ _ Ha)). assert (Ho : owns C i a); [|apply (f_owned _ _ _ Hf) in Ho as [? _]; unfold u32_range; lia].
    split; [done|]. destruct (decide (Z.of_nat k < NDIRECT)) as [Hd|Hd].
    + right. exists (Z.of_nat k). split; [apply direct_in_file; lia|]. unfold fblock. by replace (Z.of_nat k <? NDIRECT) with true by blia.
    + left. rewrite <- Hak. f_equal. unfold NDIRECT in *. lia.
Qed.

(** ** [writei] *)

Lemma fdata_lookup C i k : fdata C i !! k = if decide (Z.of_nat k < i_size i) then Some (fbyte C i (Z.of_nat k)) else None.
Proof.
  unfold fdata. rewrite list_lookup_fmap. destruct (decide _) as [H|H].
  - rewrite (proj2 (lookup_seqZ 0 (i_size i) k (Z.of_nat k))) by (split; [lia|done]). done.
  - by rewrite lookup_seqZ_ge by lia.
Qed.

Lemma written_fdata C i C' i' off src :
  file_ok sk C i -> written sk C i C' i' off src -> 0 <= off <= i_size i -> off + Z.of_nat (length src) <= MAXFILE * BSIZE ->
  fdata C' (with_size (Z.max (i_size i) (off + Z.of_nat (length src))) i') = splice (Z.to_nat off) src (fdata C i).
Proof.
  intros Hf W Ho Hle. pose proof (f_size _ _ _ Hf) as Hsz. apply list_eq. intros k. rewrite fdata_lookup. simpl.
  change (fbyte C' (with_size _ i') (Z.of_nat k)) with (fbyte C' i' (Z.of_nat k)).
  assert (Hlen : length (fdata C i) = Z.to_nat (i_size i)) by (unfold fdata; by rewrite length_fmap, length_seqZ).
  assert (Hold : Z.of_nat k < i_size i -> ~ (off <= Z.of_nat k < off + Z.of_nat (length src)) ->
    fbyte C' i' (Z.of_nat k) = fbyte C i (Z.of_nat k)).
  { intros Hk Hn. apply (w_out _ _ _ _ _ _ _ W); [lia| |done].
    apply (f_full _ _ _ Hf); [apply Z.div_pos; [lia|done]|apply block_start; lia]. }
  unfold splice. destruct (decide (k < Z.to_nat off)%nat) as [H1|H1].
  { rewrite lookup_app_l, lookup_take_lt, fdata_lookup by (rewrite ?length_take; lia).
    rewrite !decide_True by lia. by rewrite Hold by lia. }
  rewrite lookup_app_r by (rewrite length_take; lia). rewrite length_take, Hlen, Nat.min_l by lia.
  destruct (decide (k < Z.to_nat off + length src)%nat) as [H2|H2].
  - rewrite decide_True by lia. rewrite lookup_app_l by lia.
    destruct (lookup_lt_is_Some_2 src (k - Z.to_nat off)) as [v Hv]; [lia|]. rewrite Hv. f_equal.
    rewrite <- (w_in _ _ _ _ _ _ _ W _ _ Hv). f_equal. lia.
  - rewrite lookup_app_r, lookup_drop, fdata_lookup by lia.
    replace (Z.to_nat off + length src + (k - Z.to_nat off - length src))%nat with k by lia.
    destruct (decide (Z.of_nat k < i_size i)); [|by rewrite decide_False by lia]. rewrite decide_True by lia. by rewrite Hold by lia.
Qed.

Lemma written_file C i C' i' off src n :
  file_ok sk C i -> written sk C i C' i' off src -> 0 <= off <= i_size i -> off + Z.of_nat (length src) <= MAXFILE * BSIZE ->
  n = Z.max (i_size i) (off + Z.of_nat (length src)) -> file_ok sk C' (with_size n i').
Proof.
  intros Hf W Ho Hle ->. pose proof (f_size _ _ _ Hf) as Hsz. pose proof (w_file _ _ _ _ _ _ _ W) as [G1 G2 G3 G4 G5 G6].
  constructor; try done; [simpl; lia|]. intros bn H0 Hb. simpl in Hb. change (fblock C' (with_size _ i') bn) with (fblock C' i' bn).
  assert (Hin : in_file bn) by (split; [done|]; unfold BSIZE in *; lia).
  destruct (Z_lt_dec (bn * BSIZE) (i_size i)) as [Hlt|Hge].
  - rewrite (w_blocks _ _ _ _ _ _ _ W); [|done|]; by apply (f_full _ _ _ Hf).
  - rewrite <- (Z.div_mul bn BSIZE) by done. apply (w_range _ _ _ _ _ _ _ W). lia.
Qed.

(** What [writei] leaves: the file's new content, all other files as they were. *)
Record wrote_file (C : gmap Z block) (i : inode) (C' : gmap Z block) (i' : inode) (off : Z) (src : list Z) : Prop := {
  wf_inode : i' = with_size (Z.max (i_size i) (off + Z.of_nat (length src))) (with_addrs (i_addrs i') i);
  wf_alloc : alloc_ok sk C';
  wf_file : file_ok sk C' i';
  wf_data : fdata C' i' = splice (Z.to_nat off) src (fdata C i);
  wf_synced : synced C i -> synced C' i';
  wf_others : forall j, file_ok sk C j -> apart C i j -> file_ok sk C' j /\ fdata C' j = fdata C j /\ apart C' i' j
}.

Lemma written_others C i C' i' off src j :
  written sk C i C' i' off src -> file_ok sk C j -> apart C i j ->
  file_ok sk C' j /\ fdata C' j = fdata C j /\ apart C' i' j.
Proof.
  intros W Hj Hap. pose proof (datastart_le sk (a_layout _ _ (w_alloc _ _ _ _ _ _ _ W))) as Hds.
  assert (HC : forall x, owns C j x -> C' !! x = C !! x).
  { intros x Hx. destruct (f_owned _ _ _ Hj x Hx). apply (w_else _ _ _ _ _ _ _ W); [done|done|]. intros Hi. by apply (Hap x). }
  split_and!.
  - apply (file_ok_frame sk C); [done|done|]. intros x Hx. destruct (f_owned _ _ _ Hj x Hx).
    apply (w_used _ _ _ _ _ _ _ W); [lia|done].
  - by apply (fdata_frame sk).
  - intros x Hx Hjx. assert (Ho : owns C j x).
    { destruct Hjx as [H0 [?|(bn & Hin & Hb)]]; (split; [done|]); [by left|right]. exists bn. split; [done|].
      by rewrite <- (fblock_frame C C' j). }
    destruct (w_owned _ _ _ _ _ _ _ W x Hx) as [Hi|Hfree]; [by apply (Hap x)|].
    destruct (f_owned _ _ _ Hj x Ho). congruence.
Qed.

Record fields_ok (i : inode) : Prop := {
  fl_type : i16_range (i_type i);
  fl_major : i16_range (i_major i);
  fl_minor : i16_range (i_minor i);
  fl_nlink : i16_range (i_nlink i)
}.

(** The size did not grow: the inode is as before. *)
Lemma wrote_inside C i C' i' off src :
  alloc_ok sk C -> file_ok sk C i -> inum_ok i -> written sk C i C' i' off src -> 0 <= off <= i_size i ->
  (src = [] \/ off + Z.of_nat (length src) <= i_size i) -> wrote_file C i C' i' off src.
Proof.
  intros Ha Hf Hn W Ho Hin. pose proof (f_size _ _ _ Hf) as Hsz.
  assert (Hle : off + Z.of_nat (length src) <= i_size i) by (destruct Hin as [-> |?]; [simpl; lia|done]).
  assert (Hsize : i_size i' = i_size i) by (rewrite (w_meta _ _ _ _ _ _ _ W); done).
  assert (Hw : with_size (Z.max (i_size i) (off + Z.of_nat (length src))) i' = i').
  { rewrite Z.max_l by lia. rewrite <- Hsize. by destruct i'. }
  assert (Hsame : i' = i).
  { apply (w_same _ _ _ _ _ _ _ W). intros o Hr. apply (f_full _ _ _ Hf); [apply Z.div_pos; [lia|done]|apply block_start; lia]. }
  constructor.
  - rewrite <- Hw at 1. rewrite Hsame. by destruct i.
  - apply W.
  - apply W.
  - rewrite <- Hw. apply written_fdata; try done. lia.
  - intros (d & Hd & Hl). rewrite Hsame. exists d. split; [|done]. rewrite (w_fixed _ _ _ _ _ _ _ W); [done|].
    destruct Hn as [_ Hn]. by apply IBLOCK_eq; [apply Ha|].
  - intros j. by apply (written_others _ _ _ _ off src).
Qed.

(** The size grew, and the inode has been written back as [v]. *)
Lemma wrote_beyond C i C' i' off src v :
  file_ok sk C i -> inum_ok i -> written sk C i C' i' off src -> 0 <= off <= i_size i ->
  off + Z.of_nat (length src) <= MAXFILE * BSIZE -> i_size i < off + Z.of_nat (length src) -> is_block v ->
  let i2 := with_size (off + Z.of_nat (length src)) i' in let C2 := <[IBLOCK (i_inum i) sk := v]> C' in
  synced C2 i2 -> wrote_file C i C2 i2 off src.
Proof.
  intros Hf [_ Hn] W Ho Hle Hgt Hv i2 C2 Hs. pose proof (w_alloc _ _ _ _ _ _ _ W) as Ha'.
  destruct (IBLOCK_eq (i_inum i) (a_layout _ _ Ha') Hn) as [_ Hib].
  destruct (fixed_write C' (IBLOCK (i_inum i) sk) v Ha' Hv ltac:(lia)) as (Ha2 & _ & _ & Hfw).
  assert (Hmax : Z.max (i_size i) (off + Z.of_nat (length src)) = off + Z.of_nat (length src)) by lia.
  pose proof (written_fdata C i C' i' off src Hf W Ho Hle) as Hd. rewrite Hmax in Hd. fold i2 in Hd.
  pose proof (written_file C i C' i' off src _ Hf W Ho Hle (eq_sym Hmax)) as Hf2. fold i2 in Hf2.
  destruct (Hfw i2 Hf2) as (Hf3 & Hd3 & Ho3).
  constructor; try done.
  - rewrite Hmax. unfold i2. rewrite (w_meta _ _ _ _ _ _ _ W). done.
  - unfold C2. by rewrite Hd3.
  - intros j Hj Hap. destruct (written_others C i C' i' off src j W Hj Hap) as (J1 & J2 & J3).
    destruct (Hfw j J1) as (J4 & J5 & J6). split; [done|]. split; [unfold C2; by rewrite J5|].
    intros x Hx Hjx. apply J6 in Hjx. apply Ho3 in Hx. by apply (J3 x).
Qed.

(** [ip->size = off; iupdate(ip);] *)
Lemma size_update_tx s ip i i1 C C1 D1 off src n :
  tview (lo s) C1 D1 ∅ -> sb s = sk -> icache s !! ip = Some i1 -> inum_ok i -> file_ok sk C i -> fields_ok i -> i_valid i = 1 ->
  written sk C i C1 i1 off src -> n = off + Z.of_nat (length src) -> 0 <= off <= i_size i -> i_size i < n <= MAXFILE * BSIZE ->
  Z.of_nat (size D1) < log_cap L ->
  exists i2 l2 C2, (upd_inode ip (with_size n) ;;; iupdate me ip) s = Ok (tt, set_ip ip i2 (set_lo l2 s)) /\
    tview l2 C2 ({[IBLOCK (i_inum i) sk]} ∪ D1) ∅ /\ wrote_file C i C2 i2 off src /\
    logged sk D1 ({[IBLOCK (i_inum i) sk]} ∪ D1) /\ free_list sk C2 = free_list sk C1 /\ credit i2 = credit i1.
Proof.
  intros T Hsb Hi1 Hn Hf Hfl Hval W Hlen Ho Hle Hcap. rewrite (bind_Ok _ _ _ _ _ (upd_inode_ok s ip i1 _ Hi1)).
  assert (Hm : i1 = with_addrs (i_addrs i1) i) by apply W. set (i2 := with_size n i1).
  assert (Hf2 : file_ok sk C1 i2) by (apply (written_file C i C1 i1 off src); done || lia).
  assert (Hok2 : inode_ok i2) by (destruct Hfl; apply (file_inode_ok C1); [apply W|done|..]; unfold i2; rewrite Hm; done).
  assert (Hi2 : icache (set_ip ip i2 s) !! ip = Some i2) by (simpl; apply list_lookup_insert_eq; by eapply lookup_lt_Some).
  assert (Hnum : i_inum i2 = i_inum i) by (unfold i2; by rewrite Hm).
  destruct (iupdate_tx (set_ip ip i2 s) ip i2 C1 D1) as (l2 & v & H2 & Hv & T2 & Hsy & _); try done.
  - apply W.
  - destruct Hn. unfold inum_ok. rewrite Hnum. split; [unfold i2; by rewrite Hm|done].
  - unfold i2. by rewrite Hm.
  - rewrite Hnum in *. exists i2, l2, (<[IBLOCK (i_inum i) sk := v]> C1). split; [by rewrite H2|]. split; [done|].
    pose proof (w_alloc _ _ _ _ _ _ _ W) as Ha1. pose proof (a_layout _ _ Ha1) as Hl. destruct Hn as [Hdev Hn].
    destruct (IBLOCK_eq (i_inum i) Hl Hn) as [Hib1 Hib2].
    split; [unfold i2 in *; rewrite Hlen in *; apply wrote_beyond; done || lia|]. split; [|split; [apply fixed_write; done || lia|done]].
    split; [set_solver|]. intros x Hx. assert (Hx' : x = IBLOCK (i_inum i) sk \/ x ∈ D1) by set_solver. destruct Hx' as [-> |?]; [right|by left].
    pose proof (Z.div_pos (i_inum i) IPB ltac:(lia) ltac:(done)). pose proof (datastart_le sk Hl). pose proof (l_data _ Hl).
    pose proof (Z.div_pos (sb_size sk) BPB ltac:(pose proof (l_size _ Hl); lia) ltac:(done)). lia.
Qed.

Lemma writei_tx devsw s ip i C D off src n :
  tview (lo s) C D ∅ -> sb s = sk -> alloc_ok sk C -> icache s !! ip = Some i -> inum_ok i -> file_ok sk C i -> fields_ok i ->
  i_valid i = 1 -> i_type i <> T_DEV -> bytes src -> n = Z.of_nat (length src) -> 0 <= off <= i_size i -> off + n <= MAXFILE * BSIZE ->
  Z.of_nat (size (D ∪ bitmaps sk ∪ indset i) + credit i) + spans off n + 1 <= log_cap L ->
  Z.of_nat (credit i) + spans off n <= Z.of_nat (length (free_list sk C)) ->
  exists i' l' C' D', writei me devsw ip src off n s = Ok (n, set_ip ip i' (set_lo l' s)) /\ tview l' C' D' ∅ /\
    wrote_file C i C' i' off src /\ logged sk D D' /\
    Z.of_nat (length (free_list sk C) + credit i') <= Z.of_nat (length (free_list sk C') + credit i) + spans off n /\
    Z.of_nat (size D') <= Z.of_nat (size (D ∪ bitmaps sk ∪ indset i) + credit i) + spans off n + 1.
Proof.
  intros T Hsb Ha Hi Hn Hf Hfl Hval Ht Hb Hlen Ho Hle Hcap Hfr. pose proof (f_size _ _ _ Hf) as Hsz.
  change (MAXFILE * BSIZE) with 71680 in *. unfold writei. rewrite (bind_Ok _ _ _ _ _ (get_inode_ok _ _ _ Hi)).
  apply Z.eqb_neq in Ht as ->. rewrite (u32_small (off + n)) by (unfold u32_range; lia).
  replace ((i_size i <? off) || (off + n <? off)) with false by (symmetry; apply orb_false_iff; split; apply Z.ltb_ge; lia).
  change (MAXFILE * BSIZE) with 71680. replace (71680 <? off + n) with false by blia.
  destruct (writei_loop_ok me L DK sk rw_fuel s ip i C D off n 0 src) as (i1 & l1 & C1 & D1 & H1 & T1 & W1 & Hs1 & Hs3 & Hs2);
    try done; try (change (MAXFILE * BSIZE) with 71680; rewrite ?Z.sub_0_r; lia); [apply Hn| |].
  { intros _. pose proof (Z.div_pos off BSIZE ltac:(lia) ltac:(done)). change (Z.of_nat rw_fuel) with 141. change MAXFILE with 140. lia. }
  rewrite (bind_Ok _ _ _ _ _ H1). rewrite Z.sub_0_r in *. rewrite drop_0 in W1. set (s1 := set_ip ip i1 (set_lo l1 s)).
  assert (Hi1 : icache s1 !! ip = Some i1) by (simpl; apply list_lookup_insert_eq; by eapply lookup_lt_Some).
  rewrite (bind_Ok _ _ _ _ _ (get_inode_ok s1 ip i1 Hi1)).
  assert (Hm : i1 = with_addrs (i_addrs i1) i) by apply W1. assert (Hsize : i_size i1 = i_size i) by (by rewrite Hm).
  assert (Hret : i32 n = n) by (apply i32_small; unfold i32_range; lia).
  assert (Hd1 : (size D1 <= size (D1 ∪ bitmaps sk ∪ indset i1))%nat).
  { etransitivity; [apply (size_sub_l D1 (bitmaps sk))|apply size_sub_l]. }
  destruct ((0 <? n) && (i_size i1 <? off + n)) eqn:Egrow.
  - apply andb_true_iff in Egrow as [E1 E2]. apply Z.ltb_lt in E1, E2.
    destruct (size_update_tx s1 ip i i1 C C1 D1 off src (off + n)) as (i2 & l2 & C2 & H2 & T2 & W2 & Hlg & Hfl2 & Hcr2);
      try done; try (change (MAXFILE * BSIZE) with 71680); try lia.
    rewrite (bind_Ok _ _ _ _ _ H2). exists i2, l2, C2, ({[IBLOCK (i_inum i) sk]} ∪ D1).
    split; [unfold ret; rewrite Hret; unfold s1; by rewrite set_ip_again|]. split; [done|]. split; [done|].
    split; [by apply (logged_trans _ _ D1)|]. rewrite Hfl2, Hcr2. pose proof (size_add D1 (IBLOCK (i_inum i) sk)). lia.
  - rewrite (bind_Ok (ret tt) _ _ tt s1 eq_refl). exists i1, l1, C1, D1. split; [unfold ret; by rewrite Hret|]. split; [done|].
    split; [|split; [done|lia]]. apply wrote_inside; try done. apply andb_false_iff in Egrow as [E|E]; apply Z.ltb_ge in E; [left|right; lia].
    apply nil_length_inv. lia.
Qed.

End inode.
