(* ===== verification/FsDir.v ===== *)
(** * Directories

    A directory is a file of 16-byte entries.  [dirlookup] and [dirlink] are
    searching that table and adding to it. *)

From S2P Require Import Prelude Block Sleeplock Bio Log CString Fs FsTx FsAlloc FsFile FsRw FsInode.

(** ** Names in fields of fixed size *)

(** The string in the field of [n] bytes at [p]: it ends at a zero byte or
    with the field. *)
Fixpoint nstr (n : nat) (a : list Z) (p : nat) : option (list Z) :=
  match n with
  | O => Some []
  | S n' =>
      match a !! p with
      | None => None
      | Some v => if v =? 0 then Some [] else option_map (cons v) (nstr n' a (S p))
      end
  end.

Lemma rd_lookup a p v : a !! p = Some v -> rd a p = Ok v.
Proof. intros H. unfold rd. by rewrite H. Qed.

Lemma bytes_lookup a p v : bytes a -> a !! p = Some v -> 0 <= v < 256.
Proof. intros Hb Hv. exact (proj1 (Forall_lookup _ _) Hb p v Hv). Qed.

Lemma strncmp_nstr n : forall a p b q l m,
  bytes a -> bytes b -> nstr n a p = Some l -> nstr n b q = Some m ->
  exists r, KString.strncmp a p b q n = Ok r /\ (r = 0 <-> l = m).
Proof.
  induction n as [|n IH]; intros a p b q l m Ha Hb Hl Hm; cbn [KString.strncmp nstr] in *.
  { exists 0. simplify_eq. done. }
  destruct (a !! p) as [x|] eqn:Ex; [|done]. destruct (b !! q) as [y|] eqn:Ey; [|done].
  pose proof (bytes_lookup _ _ _ Ha Ex). pose proof (bytes_lookup _ _ _ Hb Ey).
  rewrite (rd_lookup _ _ _ Ex), (rd_lookup _ _ _ Ey). cbn [rbind].
  destruct (Z.eqb_spec x 0) as [Ex0|Ex0], (Z.eqb_spec y 0) as [Ey0|Ey0]; cbn [negb andb] in *.
  - simplify_eq. by exists 0.
  - eexists. split; [done|]. rewrite !u8_small by done. destruct (nstr n b (S q)); simplify_eq/=. split; [lia|done].
  - destruct (Z.eqb_spec x y); [congruence|]. eexists. split; [done|]. rewrite !u8_small by done.
    destruct (nstr n a (S p)); simplify_eq/=. split; [lia|done].
  - destruct (nstr n a (S p)) as [l'|] eqn:El; [|done]. destruct (nstr n b (S q)) as [m'|] eqn:Em; [|done]. simplify_eq/=.
    destruct (Z.eqb_spec x y) as [-> |Hne].
    + destruct (IH a (S p) b (S q) l' m' Ha Hb El Em) as (r & Hr & Hiff). exists r. split; [done|]. rewrite Hiff. split; congruence.
    + eexists. split; [done|]. rewrite !u8_small by done. split; [lia|congruence].
Qed.

(** What [strncpy] leaves in a field of [n] bytes. *)
Definition padded (n : nat) (l : list Z) : list Z := l ++ replicate (n - length l) 0.

Lemma nstr_length n : forall a p l, nstr n a p = Some l -> (length l <= n)%nat.
Proof.
  induction n as [|n IH]; intros a p l H; cbn [nstr] in H; [by simplify_eq|].
  destruct (a !! p) as [v|]; [|done]. destruct (v =? 0); [simplify_eq; simpl; lia|].
  destruct (nstr n a (S p)) as [l'|] eqn:E; simplify_eq/=. apply IH in E. lia.
Qed.

Lemma nstr_nonzero n : forall a p l, nstr n a p = Some l -> Forall (fun v => v <> 0) l.
Proof.
  induction n as [|n IH]; intros a p l H; cbn [nstr] in H; [by simplify_eq|].
  destruct (a !! p) as [v|]; [|done]. destruct (Z.eqb_spec v 0); [by simplify_eq|].
  destruct (nstr n a (S p)) as [l'|] eqn:E; simplify_eq/=. constructor; [done|]. by eapply IH.
Qed.

Lemma nstr_bytes n : forall a p l, bytes a -> nstr n a p = Some l -> bytes l.
Proof.
  induction n as [|n IH]; intros a p l Ha H; cbn [nstr] in H; [simplify_eq; constructor|].
  destruct (a !! p) as [v|] eqn:Ev; [|done]. destruct (v =? 0); [simplify_eq; constructor|].
  destruct (nstr n a (S p)) as [l'|] eqn:E; simplify_eq/=. constructor; [by eapply bytes_lookup|]. by eapply IH.
Qed.

Lemma strncpy_nstr n : forall a s b t l,
  nstr n b t = Some l -> (s + n <= length a)%nat ->
  KString.strncpy_loop n a s b t = Ok (take s a ++ padded n l ++ drop (s + n) a).
Proof.
  induction n as [|n IH]; intros a s b t l Hl Hs; cbn [KString.strncpy_loop nstr] in *.
  { simplify_eq. unfold padded. simpl. by rewrite Nat.add_0_r, take_drop. }
  destruct (b !! t) as [v|] eqn:Ev; [|done]. rewrite (rd_lookup _ _ _ Ev). cbn [rbind].
  rewrite wr_Ok by lia. cbn [rbind]. destruct (Z.eqb_spec v 0) as [-> |Hv].
  - simplify_eq. rewrite zero_fill_ok by (rewrite length_insert; lia). rewrite filled_S by lia. unfold filled, padded. simpl. done.
  - destruct (nstr n b (S t)) as [l'|] eqn:El; simplify_eq/=. rewrite (IH _ _ _ _ l' El) by (rewrite length_insert; lia).
    f_equal. rewrite (take_S_r _ _ v) by (apply list_lookup_insert_eq; lia). rewrite take_insert_ge, drop_insert_lt by lia.
    rewrite <- app_assoc. unfold padded. simpl. by replace (s + S n)%nat with (S (s + n)) by lia.
Qed.

Lemma padded_length n l : (length l <= n)%nat -> length (padded n l) = n.
Proof. intros H. unfold padded. rewrite length_app, length_replicate. lia. Qed.

Lemma nstr_app n : forall pre l rest, Forall (fun v => v <> 0) l -> (length l <= n)%nat ->
  nstr n (pre ++ padded n l ++ rest) (length pre) = Some l.
Proof.
  induction n as [|n IH]; intros pre l rest Hl Hn; cbn [nstr].
  { destruct l; [done|simpl in Hn; lia]. }
  destruct l as [|v l].
  - unfold padded. simpl. by rewrite lookup_app_r, Nat.sub_diag by lia.
  - apply Forall_cons in Hl as [Hv Hl]. unfold padded. simpl. rewrite lookup_app_r, Nat.sub_diag by lia. simpl.
    destruct (Z.eqb_spec v 0); [done|]. specialize (IH (pre ++ [v]) l rest Hl ltac:(simpl in Hn; lia)).
    rewrite length_app in IH. simpl in IH. replace (length pre + 1)%nat with (S (length pre)) in IH by lia.
    unfold padded in IH. rewrite <- !app_assoc in IH. simpl in IH. rewrite <- !app_assoc. by rewrite IH.
Qed.

(** ** The table of entries *)

Definition ENT : nat := 16.

Definition dent (data : list Z) (k : nat) : list Z := take ENT (drop (ENT * k) data).

Definition dname (de : list Z) : option (list Z) := nstr DIRSIZ (de_name de) 0.

(** Entry [de] is for [name]. *)
Definition hit (name : list Z) (de : list Z) : bool := negb (de_inum de =? 0) && bool_decide (dname de = Some name).

(** The first entry for [name] among [n] from [k] on. *)
Fixpoint dir_find (n k : nat) (data name : list Z) : option nat :=
  match n with
  | O => None
  | S n' => if hit name (dent data k) then Some k else dir_find n' (S k) data name
  end.

(** The first free entry among [n] from [k] on, else the end. *)
Fixpoint dir_slot (n k : nat) (data : list Z) : nat :=
  match n with
  | O => k
  | S n' => if de_inum (dent data k) =? 0 then k else dir_slot n' (S k) data
  end.

Definition entries (data : list Z) : nat := (length data / ENT)%nat.

(** What a directory says about a name. *)
Definition dir_lookup (data name : list Z) : option nat := dir_find (entries data) 0 data name.

Lemma nstr_full n : forall a p, (p + n <= length a)%nat -> exists l, nstr n a p = Some l.
Proof.
  induction n as [|n IH]; intros a p H; cbn [nstr]; [eauto|].
  destruct (lookup_lt_is_Some_2 a p) as [v ->]; [lia|]. destruct (v =? 0); [eauto|].
  destruct (IH a (S p)) as [l ->]; [lia|]. by eexists.
Qed.

Section dir.

Context (me : Z) (L : log) (DK : bst) (sk : superblock).

Abbreviation tview := (tview me L DK).

Lemma fdata_length C i : 0 <= i_size i -> length (fdata C i) = Z.to_nat (i_size i).
Proof. intros H. unfold fdata. by rewrite length_fmap, length_seqZ. Qed.

Lemma fdata_bytes C i : alloc_ok sk C -> file_ok sk C i -> bytes (fdata C i).
Proof.
  intros Ha Hf. apply Forall_lookup. intros k v Hk. rewrite fdata_lookup in Hk. destruct (decide _) as [Hlt|]; [|done]. simplify_eq.
  pose proof (f_size _ _ _ Hf). pose proof (block_in_file (Z.of_nat k) ltac:(lia)) as Hin.
  destruct (owned_block sk C i _ Hf Ha Hin) as (d & Hd & Hb).
  { apply (f_full _ _ _ Hf); [apply Z.div_pos; [lia|done]|apply block_start; lia]. }
  unfold fbyte. rewrite Hd. simpl. apply nth_byte, Hb.
Qed.

(** A directory: a file of whole entries. *)
Record dir_ok (C : gmap Z block) (i : inode) : Prop := {
  d_file : file_ok sk C i;
  d_type : i_type i = T_DIR;
  d_whole : i_size i mod DIRENT = 0
}.

Lemma dir_entries C i : dir_ok C i -> Z.of_nat (entries (fdata C i)) * DIRENT = i_size i.
Proof.
  intros [Hf _ Hw]. pose proof (f_size _ _ _ Hf). unfold entries. rewrite fdata_length by lia.
  rewrite Nat2Z.inj_div, Z2Nat.id by lia. pose proof (Z.div_mod (i_size i) DIRENT ltac:(done)).
  change (Z.of_nat ENT) with 16. unfold DIRENT in *. lia.
Qed.

Lemma dent_length C i k : dir_ok C i -> (k < entries (fdata C i))%nat -> length (dent (fdata C i) k) = ENT.
Proof.
  intros Hd Hk. pose proof (dir_entries C i Hd). pose proof (f_size _ _ _ (d_file _ _ Hd)).
  unfold dent. rewrite length_take, length_drop, fdata_length by lia. unfold DIRENT, ENT in *. lia.
Qed.

Lemma read_entry devsw s ip i C D k :
  tview (lo s) C D ∅ -> alloc_ok sk C -> icache s !! ip = Some i -> i_dev i = 1 -> dir_ok C i -> (size D < NBUF)%nat ->
  (k < entries (fdata C i))%nat ->
  exists l', readi me devsw ip (Z.of_nat k * DIRENT) DIRENT s = Ok ((DIRENT, dent (fdata C i) k), set_lo l' s) /\ tview l' C D ∅.
Proof.
  intros T Ha Hi Hdev Hd Hroom Hk. pose proof (dir_entries C i Hd) as He. pose proof (f_size _ _ _ (d_file _ _ Hd)) as Hs.
  change (MAXFILE * BSIZE) with 71680 in Hs.
  destruct (readi_tx me L DK sk devsw s ip i C D (Z.of_nat k * DIRENT) DIRENT) as (l' & Hr & T');
    try done; try apply Hd; try (unfold DIRENT in *; lia).
  { rewrite (d_type _ _ Hd). done. }
  exists l'. split; [|done]. rewrite Hr. unfold dent. repeat f_equal; unfold DIRENT, ENT in *; lia.
Qed.

Lemma namecmp_entry C i k a name :
  alloc_ok sk C -> dir_ok C i -> (k < entries (fdata C i))%nat -> bytes a -> nstr DIRSIZ a 0 = Some name ->
  exists r, namecmp a (de_name (dent (fdata C i) k)) = Ok r /\ (r = 0 <-> dname (dent (fdata C i) k) = Some name).
Proof.
  intros Ha Hd Hk Hb Hn. pose proof (dent_length C i k Hd Hk) as Hl.
  assert (Hby : bytes (de_name (dent (fdata C i) k))).
  { apply Forall_drop, Forall_take, Forall_drop. apply fdata_bytes; [done|apply Hd]. }
  destruct (nstr_full DIRSIZ (de_name (dent (fdata C i) k)) 0) as [m Hm].
  { unfold de_name. rewrite length_drop, Hl. done. }
  destruct (strncmp_nstr DIRSIZ a 0 _ 0 name m Hb Hby Hn Hm) as (r & Hr & Hiff). exists r. split; [done|].
  unfold dname. rewrite Hm, Hiff. split; congruence.
Qed.

Lemma dirlookup_loop_ok devsw fuel : forall s ip i C D a name k,
  tview (lo s) C D ∅ -> alloc_ok sk C -> icache s !! ip = Some i -> i_dev i = 1 -> dir_ok C i -> (size D < NBUF)%nat ->
  bytes a -> nstr DIRSIZ a 0 = Some name -> (k <= entries (fdata C i) <= k + fuel)%nat ->
  exists l', tview l' C D ∅ /\
    dirlookup_loop me devsw fuel ip a (Z.of_nat k * DIRENT) s =
    match dir_find (entries (fdata C i) - k) k (fdata C i) name with
    | None => Ok (None, set_lo l' s)
    | Some j => (let* t := iget 1 (de_inum (dent (fdata C i) j)) in ret (Some (t, Z.of_nat j * DIRENT))) (set_lo l' s)
    end.
Proof.
  induction fuel as [|fuel IH]; intros s ip i C D a name k T Ha Hi Hdev Hd Hroom Hb Hn Hk; cbn [dirlookup_loop];
    rewrite (bind_Ok _ _ _ _ _ (get_inode_ok _ _ _ Hi)); pose proof (dir_entries C i Hd) as He.
  - replace (Z.of_nat k * DIRENT <? i_size i) with false by (symmetry; apply Z.ltb_ge; unfold DIRENT in *; lia).
    replace (entries (fdata C i) - k)%nat with 0%nat by lia. exists (lo s). by rewrite set_lo_id.
  - destruct (decide (k = entries (fdata C i))) as [Ek|Ek].
    { replace (Z.of_nat k * DIRENT <? i_size i) with false by (symmetry; apply Z.ltb_ge; unfold DIRENT in *; lia).
      replace (entries (fdata C i) - k)%nat with 0%nat by lia. exists (lo s). by rewrite set_lo_id. }
    replace (Z.of_nat k * DIRENT <? i_size i) with true by (symmetry; apply Z.ltb_lt; unfold DIRENT in *; lia).
    destruct (read_entry devsw s ip i C D k T Ha Hi Hdev Hd Hroom ltac:(lia)) as (l1 & H1 & T1).
    rewrite (bind_Ok _ _ _ _ _ H1). cbn [fst snd]. rewrite Z.eqb_refl. cbn [negb].
    destruct (IH (set_lo l1 s) ip i C D a name (S k)) as (l2 & T2 & H2); try done; try lia.
    replace (Z.of_nat (S k) * DIRENT) with (Z.of_nat k * DIRENT + DIRENT) in H2 by (unfold DIRENT; lia).
    replace (entries (fdata C i) - k)%nat with (S (entries (fdata C i) - S k)) by lia. cbn [dir_find]. unfold hit.
    destruct (Z.eqb_spec (de_inum (dent (fdata C i) k)) 0) as [E0|E0]; cbn [negb andb]; [by exists l2|].
    destruct (namecmp_entry C i k a name Ha Hd ltac:(lia) Hb Hn) as (r & Hr & Hiff). unfold lift.
    unfold bind at 1. rewrite Hr. cbn [rbind]. destruct (Z.eqb_spec r 0) as [Er|Er].
    + rewrite bool_decide_true by (by apply Hiff). exists l1. split; [done|]. by rewrite Hdev.
    + rewrite bool_decide_false by (by rewrite <- Hiff). by exists l2.
Qed.

Lemma dirlookup_tx devsw s ip i C D a name :
  tview (lo s) C D ∅ -> alloc_ok sk C -> icache s !! ip = Some i -> i_dev i = 1 -> dir_ok C i -> (size D < NBUF)%nat ->
  bytes a -> nstr DIRSIZ a 0 = Some name ->
  exists l', tview l' C D ∅ /\
    dirlookup me devsw ip a s =
    match dir_lookup (fdata C i) name with
    | None => Ok (None, set_lo l' s)
    | Some j => (let* t := iget 1 (de_inum (dent (fdata C i) j)) in ret (Some (t, Z.of_nat j * DIRENT))) (set_lo l' s)
    end.
Proof.
  intros T Ha Hi Hdev Hd Hroom Hb Hn. unfold dirlookup. rewrite (bind_Ok _ _ _ _ _ (get_inode_ok _ _ _ Hi)).
  rewrite (d_type _ _ Hd), Z.eqb_refl. cbn [negb].
  destruct (dirlookup_loop_ok devsw (S (Z.to_nat (i_size i / DIRENT))) s ip i C D a name 0) as (l' & T' & H'); try done.
  - pose proof (dir_entries C i Hd) as He. pose proof (f_size _ _ _ (d_file _ _ Hd)).
    assert (i_size i / DIRENT = Z.of_nat (entries (fdata C i))) as -> by (rewrite <- He; by apply Z.div_mul). lia.
  - exists l'. split; [done|]. rewrite Nat.sub_0_r in H'. exact H'.
Qed.

(** ** Adding an entry *)

Definition new_entry (inum : Z) (name : list Z) : list Z := le_enc 2 inum ++ padded DIRSIZ name.

Lemma new_entry_length inum name : (length name <= DIRSIZ)%nat -> length (new_entry inum name) = ENT.
Proof. intros H. unfold new_entry. rewrite length_app, le_enc_length, padded_length by done. done. Qed.

Lemma new_entry_inum inum name : 0 <= inum < 2 ^ 16 -> de_inum (new_entry inum name) = inum.
Proof.
  intros H. unfold de_inum, get_u16, field, new_entry. rewrite drop_0, take_app_length' by (by rewrite le_enc_length).
  rewrite le_dec_enc. by apply Z.mod_small.
Qed.

Lemma new_entry_name inum name : Forall (fun v => v <> 0) name -> (length name <= DIRSIZ)%nat -> dname (new_entry inum name) = Some name.
Proof.
  intros Hz Hl. unfold dname, de_name, new_entry. rewrite drop_app_length' by (by rewrite le_enc_length).
  pose proof (nstr_app DIRSIZ [] name [] Hz Hl) as H. by rewrite app_nil_l, app_nil_r in H.
Qed.

Section table.

Context (data e : list Z) (slot : nat).
Context (Hw : length data = (ENT * entries data)%nat) (He : length e = ENT) (Hs : (slot <= entries data)%nat).

Lemma table_length : length (splice (ENT * slot) e data) = (ENT * Nat.max (entries data) (slot + 1))%nat.
Proof. unfold splice. rewrite !length_app, length_take, length_drop, He, Hw. unfold ENT. lia. Qed.

Lemma table_entries : entries (splice (ENT * slot) e data) = Nat.max (entries data) (slot + 1).
Proof. unfold entries at 1. rewrite table_length, Nat.mul_comm. by apply Nat.div_mul. Qed.

Lemma table_at : dent (splice (ENT * slot) e data) slot = e.
Proof.
  unfold dent, splice. rewrite drop_app_length' by (rewrite length_take; unfold ENT in *; lia). by apply take_app_length'.
Qed.

Lemma table_other k : k <> slot -> dent (splice (ENT * slot) e data) k = dent data k.
Proof.
  intros Hk. unfold dent, splice. apply list_eq. intros j. destruct (decide (j < ENT)%nat) as [Hj|Hj]; [|by rewrite !lookup_take_ge by lia].
  rewrite !lookup_take_lt, !lookup_drop by lia. destruct (decide (k < slot)%nat) as [Hlt|Hge].
  - rewrite lookup_app_l by (rewrite length_take; unfold ENT in *; lia). by rewrite lookup_take_lt by (unfold ENT in *; lia).
  - rewrite lookup_app_r by (rewrite length_take; unfold ENT in *; lia). rewrite length_take.
    rewrite lookup_app_r by (rewrite He; unfold ENT in *; lia). rewrite lookup_drop, He. f_equal. unfold ENT in *. lia.
Qed.

End table.

Lemma dir_find_ext n : forall k data data' name,
  (forall j, (k <= j < k + n)%nat -> hit name (dent data' j) = hit name (dent data j)) ->
  dir_find n k data' name = dir_find n k data name.
Proof.
  induction n as [|n IH]; intros k data data' name H; cbn [dir_find]; [done|]. rewrite H by lia.
  destruct (hit name (dent data k)); [done|]. apply IH. intros j Hj. apply H. lia.
Qed.

Lemma dir_find_snoc n : forall k data name,
  dir_find (S n) k data name =
  match dir_find n k data name with Some j => Some j | None => if hit name (dent data (k + n)) then Some (k + n)%nat else None end.
Proof.
  induction n as [|n IH]; intros k data name; [cbn [dir_find]; by rewrite Nat.add_0_r|].
  cbn [dir_find] in *. destruct (hit name (dent data k)); [done|]. rewrite IH. by replace (S k + n)%nat with (k + S n)%nat by lia.
Qed.

Lemma dir_find_None n : forall k data name,
  dir_find n k data name = None <-> forall j, (k <= j < k + n)%nat -> hit name (dent data j) = false.
Proof.
  induction n as [|n IH]; intros k data name; cbn [dir_find]; [split; [intros _ j Hj; lia|done]|].
  destruct (hit name (dent data k)) eqn:E; [split; [done|intros H; specialize (H k ltac:(lia)); congruence]|].
  rewrite IH. split; intros H j Hj; [destruct (decide (j = k)) as [-> |?]; [done|apply H; lia]|apply H; lia].
Qed.

Lemma dir_find_first n : forall k data name j,
  (k <= j < k + n)%nat -> hit name (dent data j) = true -> (forall x, (k <= x < j)%nat -> hit name (dent data x) = false) ->
  dir_find n k data name = Some j.
Proof.
  induction n as [|n IH]; intros k data name j Hj Hh Hlow; [lia|]. cbn [dir_find].
  destruct (decide (j = k)) as [-> |Hne]; [by rewrite Hh|]. rewrite Hlow by lia. apply IH; [lia|done|]. intros x Hx. apply Hlow. lia.
Qed.

Lemma dir_slot_spec n : forall k data, (k <= dir_slot n k data <= k + n)%nat /\
  ((dir_slot n k data < k + n)%nat -> de_inum (dent data (dir_slot n k data)) = 0).
Proof.
  induction n as [|n IH]; intros k data; cbn [dir_slot]; [split; lia|].
  destruct (Z.eqb_spec (de_inum (dent data k)) 0) as [E|E]; [split; [lia|done]|].
  destruct (IH (S k) data) as [H1 H2]. split; [lia|]. intros H. apply H2. lia.
Qed.

(** The table with [name] added: [name] is found at the new entry, every other
    name where it was. *)
Lemma table_link data name inum :
  let slot := dir_slot (entries data) 0 data in
  let data' := splice (ENT * slot) (new_entry inum name) data in
  length data = (ENT * entries data)%nat -> (length name <= DIRSIZ)%nat -> Forall (fun v => v <> 0) name -> 0 < inum < 2 ^ 16 ->
  dir_lookup data name = None ->
  dir_lookup data' name = Some slot /\ de_inum (dent data' slot) = inum /\
  (forall name', name' <> name -> dir_lookup data' name' = dir_lookup data name') /\
  (forall k, k <> slot -> dent data' k = dent data k).
Proof.
  intros slot data' Hw Hl Hz Hi Hnone. destruct (dir_slot_spec (entries data) 0 data) as [Hslot Hfree]. fold slot in Hslot, Hfree.
  rewrite Nat.add_0_l in *. pose proof (new_entry_length inum name Hl) as He.
  pose proof (table_at data (new_entry inum name) slot Hw He ltac:(lia)) as Hat. fold data' in Hat.
  pose proof (fun k => table_other data (new_entry inum name) slot Hw He ltac:(lia) k) as Hoth. fold data' in Hoth.
  pose proof (table_entries data (new_entry inum name) slot Hw He ltac:(lia)) as Hent. fold data' in Hent.
  assert (Hold : forall nm, (slot < entries data)%nat -> hit nm (dent data slot) = false).
  { intros nm Hlt. unfold hit. by rewrite (Hfree Hlt). }
  unfold dir_lookup in *. rewrite dir_find_None in Hnone. split_and!; try done.
  - apply dir_find_first; [lia| |].
    + unfold hit. rewrite Hat, new_entry_inum, new_entry_name by (done || lia). rewrite bool_decide_true by done.
      destruct (Z.eqb_spec inum 0); [lia|done].
    + intros x Hx. rewrite Hoth by lia. apply Hnone. lia.
  - rewrite Hat. apply new_entry_inum. lia.
  - intros name' Hne. assert (Hmiss : hit name' (dent data' slot) = false).
    { unfold hit. rewrite Hat, new_entry_name by done. rewrite bool_decide_false by congruence. apply andb_false_r. }
    assert (Hsame : forall j, (j < entries data)%nat -> hit name' (dent data' j) = hit name' (dent data j)).
    { intros j Hj. destruct (decide (j = slot)) as [-> |?]; [by rewrite Hmiss, Hold|by rewrite Hoth]. }
    destruct (decide (slot = entries data)) as [Es|Es].
    + rewrite Hent. replace (entries data `max` (slot + 1))%nat with (S (entries data)) by lia. rewrite dir_find_snoc.
      rewrite (dir_find_ext _ _ data) by (intros j Hj; apply Hsame; lia). rewrite Nat.add_0_l, <- Es, Hmiss. by destruct (dir_find _ _ _ _).
    + rewrite Hent. replace (entries data `max` (slot + 1))%nat with (entries data) by lia.
      apply dir_find_ext. intros j Hj. apply Hsame. lia.
Qed.

Lemma dirlink_loop_ok devsw fuel : forall s ip i C D k de,
  tview (lo s) C D ∅ -> alloc_ok sk C -> icache s !! ip = Some i -> i_dev i = 1 -> dir_ok C i -> (size D < NBUF)%nat ->
  (k <= entries (fdata C i) <= k + fuel)%nat -> length de = ENT ->
  exists l' de', tview l' C D ∅ /\ length de' = ENT /\
    dirlink_loop me devsw fuel ip (Z.of_nat k * DIRENT) de s =
    Ok ((Z.of_nat (dir_slot (entries (fdata C i) - k) k (fdata C i)) * DIRENT, de'), set_lo l' s).
Proof.
  induction fuel as [|fuel IH]; intros s ip i C D k de T Ha Hi Hdev Hd Hroom Hk Hde; cbn [dirlink_loop];
    rewrite (bind_Ok _ _ _ _ _ (get_inode_ok _ _ _ Hi)); pose proof (dir_entries C i Hd) as He.
  - replace (Z.of_nat k * DIRENT <? i_size i) with false by (symmetry; apply Z.ltb_ge; unfold DIRENT in *; lia).
    replace (entries (fdata C i) - k)%nat with 0%nat by lia. exists (lo s), de. by rewrite set_lo_id.
  - destruct (decide (k = entries (fdata C i))) as [Ek|Ek].
    { replace (Z.of_nat k * DIRENT <? i_size i) with false by (symmetry; apply Z.ltb_ge; unfold DIRENT in *; lia).
      replace (entries (fdata C i) - k)%nat with 0%nat by lia. exists (lo s), de. by rewrite set_lo_id. }
    replace (Z.of_nat k * DIRENT <? i_size i) with true by (symmetry; apply Z.ltb_lt; unfold DIRENT in *; lia).
    destruct (read_entry devsw s ip i C D k T Ha Hi Hdev Hd Hroom ltac:(lia)) as (l1 & H1 & T1).
    rewrite (bind_Ok _ _ _ _ _ H1). cbn [fst snd]. rewrite Z.eqb_refl. cbn [negb].
    replace (entries (fdata C i) - k)%nat with (S (entries (fdata C i) - S k)) by lia. cbn [dir_slot].
    pose proof (dent_length C i k Hd ltac:(lia)) as Hl.
    destruct (Z.eqb_spec (de_inum (dent (fdata C i) k)) 0) as [E0|E0]; [by exists l1, (dent (fdata C i) k)|].
    destruct (IH (set_lo l1 s) ip i C D (S k) (dent (fdata C i) k)) as (l2 & de2 & T2 & Hl2 & H2); try done; try lia.
    replace (Z.of_nat (S k) * DIRENT) with (Z.of_nat k * DIRENT + DIRENT) in H2 by (unfold DIRENT; lia).
    by exists l2, de2.
Qed.

Lemma spans_entry k : 0 <= k -> spans (k * DIRENT) DIRENT = 1.
Proof.
  intros Hk. unfold spans. change (DIRENT <=? 0) with false. cbn iota.
  pose proof (Z.div_mod (k * DIRENT) BSIZE ltac:(done)) as E. pose proof (Z.mod_pos_bound (k * DIRENT) BSIZE ltac:(done)) as Hr.
  pose proof (Z.div_mod (k * DIRENT + DIRENT - 1) BSIZE ltac:(done)) as E'.
  pose proof (Z.mod_pos_bound (k * DIRENT + DIRENT - 1) BSIZE ltac:(done)) as Hr'. unfold DIRENT, BSIZE in *. lia.
Qed.

(** The entry that is written. *)
Lemma fill_dirent de a name inum :
  length de = ENT -> nstr DIRSIZ a 0 = Some name ->
  KString.strncpy de 2 a 0 (Z.of_nat DIRSIZ) = Ok (take 2 de ++ padded DIRSIZ name) /\
  put_u16 0 inum (take 2 de ++ padded DIRSIZ name) = new_entry inum name.
Proof.
  intros Hl Hn. split.
  - unfold KString.strncpy. rewrite Nat2Z.id, (strncpy_nstr DIRSIZ de 2 a 0 name Hn) by (rewrite Hl; done).
    rewrite (drop_ge de) by (rewrite Hl; done). by rewrite app_nil_r.
  - unfold put_u16, set_field, new_entry. rewrite take_0, app_nil_l. f_equal.
    apply drop_app_length'. rewrite length_take, Hl. done.
Qed.

Lemma dirlink_tx devsw s ip i C D a name inum :
  tview (lo s) C D ∅ -> sb s = sk -> alloc_ok sk C -> icache s !! ip = Some i -> inum_ok sk i -> dir_ok C i -> fields_ok i -> i_valid i = 1 ->
  bytes a -> nstr DIRSIZ a 0 = Some name -> dir_lookup (fdata C i) name = None -> 0 < inum < 2 ^ 16 ->
  let slot := dir_slot (entries (fdata C i)) 0 (fdata C i) in
  Z.of_nat slot * DIRENT < MAXFILE * BSIZE ->
  Z.of_nat (size (D ∪ bitmaps sk ∪ indset i) + credit i) + 2 <= log_cap L ->
  (credit i + 1 <= length (free_list sk C))%nat ->
  exists i' l' C' D', dirlink me devsw ip a inum s = Ok (0, set_ip ip i' (set_lo l' s)) /\ tview l' C' D' ∅ /\
    wrote_file sk C i C' i' (Z.of_nat slot * DIRENT) (new_entry inum name) /\ dir_ok C' i' /\
    Z.of_nat (size D') <= Z.of_nat (size (D ∪ bitmaps sk ∪ indset i) + credit i) + 2.
Proof.
  intros T Hsb Ha Hi Hn Hd Hfl Hval Hb Hname Hnone Hinum slot Hfit Hcap Hfr.
  assert (Hdev : i_dev i = 1) by apply Hn. pose proof (dir_entries C i Hd) as He. pose proof (f_size _ _ _ (d_file _ _ Hd)) as Hsz.
  assert (Hroom : (size D < NBUF)%nat).
  { pose proof (size_sub_l D (bitmaps sk)). pose proof (size_sub_l (D ∪ bitmaps sk) (indset i)).
    pose proof (log_cap_le L). unfold LOGSIZE, MAXOPBLOCKS, NBUF in *. lia. }
  destruct (dirlookup_tx devsw s ip i C D a name T Ha Hi Hdev Hd Hroom Hb Hname) as (l1 & T1 & H1). rewrite Hnone in H1.
  unfold dirlink. rewrite (bind_Ok _ _ _ _ _ H1), (bind_Ok _ _ _ _ _ (get_inode_ok (set_lo l1 s) ip i Hi)).
  destruct (dirlink_loop_ok devsw (S (Z.to_nat (i_size i / DIRENT))) (set_lo l1 s) ip i C D 0 (replicate (Z.to_nat DIRENT) 0))
    as (l2 & de & T2 & Hde & H2); try done.
  { assert (i_size i / DIRENT = Z.of_nat (entries (fdata C i))) as -> by (rewrite <- He; by apply Z.div_mul). lia. }
  rewrite Nat.sub_0_r in H2. fold slot in H2. change (Z.of_nat 0 * DIRENT) with 0 in H2. rewrite (bind_Ok _ _ _ _ _ H2).
  destruct (fill_dirent de a name inum Hde Hname) as [H3 H4]. rewrite (bind_Ok _ _ _ _ _ (lift_Ok _ _ _ H3)), H4.
  destruct (dir_slot_spec (entries (fdata C i)) 0 (fdata C i)) as [Hslot _]. fold slot in Hslot.
  pose proof (nstr_length _ _ _ _ Hname) as Hnl. pose proof (new_entry_length inum name Hnl) as Hel.
  pose proof (spans_entry (Z.of_nat slot) ltac:(lia)) as Hsp.
  destruct (writei_tx me L DK sk devsw (set_lo l2 (set_lo l1 s)) ip i C D (Z.of_nat slot * DIRENT) (new_entry inum name) DIRENT)
    as (i' & l3 & C' & D' & H5 & T5 & W & Hlog); try done; try exact (d_file _ _ Hd); try (rewrite ?Hsp; lia).
  - rewrite (d_type _ _ Hd). done.
  - apply Forall_app. split; [apply le_enc_bytes|]. apply Forall_app. split; [by eapply nstr_bytes|]. apply Forall_replicate. lia.
  - by rewrite Hel.
  - unfold DIRENT in *. lia.
  - change (MAXFILE * BSIZE) with 71680 in *. unfold DIRENT in *. lia.
  - rewrite (bind_Ok _ _ _ _ _ H5). rewrite Z.eqb_refl. cbn [negb]. exists i', l3, C', D'. split; [done|]. split; [done|]. split; [done|].
    split; [|lia]. pose proof (wf_inode _ _ _ _ _ _ _ W) as Hm. constructor; [exact (wf_file _ _ _ _ _ _ _ W)|rewrite Hm; exact (d_type _ _ Hd)|].
    rewrite Hm, Hel. simpl. rewrite <- He. change (Z.of_nat ENT) with DIRENT.
    destruct (Z.max_spec (Z.of_nat (entries (fdata C i)) * DIRENT) (Z.of_nat slot * DIRENT + DIRENT)) as [[_ ->]|[_ ->]];
      [|by apply Z.mod_mul]. replace (Z.of_nat slot * DIRENT + DIRENT) with ((Z.of_nat slot + 1) * DIRENT) by lia. by apply Z.mod_mul.
Qed.

End dir.
