(* ===== verification/FsPath.v ===== *)
(** * Path names

    [skipelem] cuts a path into its elements; [namex] walks them through the
    directories.  The reference counts in the inode cache are balanced: the
    walk keeps one reference, to the inode it returns. *)

From S2P Require Import Prelude Block Sleeplock Bio Log CString Fs FsTx FsAlloc FsFile FsRw FsInode FsDir.

(** ** Elements of a path *)

Definition slash : Z := 47.

Fixpoint strip (l : list Z) : list Z :=
  match l with [] => [] | c :: l' => if c =? slash then strip l' else l end.

(** The characters before the next slash, and the rest. *)
Fixpoint elem (l : list Z) : list Z * list Z :=
  match l with
  | [] => ([], [])
  | c :: l' => if c =? slash then ([], l) else let '(e, r) := elem l' in (c :: e, r)
  end.

(** The elements of a path; [fuel] is its length. *)
Fixpoint path_elems (fuel : nat) (l : list Z) : list (list Z) :=
  match fuel with
  | O => []
  | S f => match strip l with [] => [] | l' => let '(e, r) := elem l' in e :: path_elems f (strip r) end
  end.

Lemma skip_slashes_ok l : forall fuel a p, cstr a p l -> (length l < fuel)%nat ->
  exists q, skip_slashes fuel a p = Ok q /\ cstr a q (strip l).
Proof.
  induction l as [|c l IH]; intros [|fuel] a p Hl Hf; simpl in Hf; try lia; cbn [skip_slashes strip].
  - rewrite (cstr_nil _ _ _ Hl) by done. by exists p.
  - pose proof Hl as (Hc & _ & Hl')%cstr_cons. rewrite Hc. cbn [rbind]. unfold slash. destruct (c =? 47); [|by exists p].
    apply IH; [done|lia].
Qed.

Lemma skip_name_ok l : forall fuel a p, cstr a p l -> (length l < fuel)%nat ->
  exists q, skip_name fuel a p = Ok q /\ cstr a q (snd (elem l)) /\ (q = p + length (fst (elem l)))%nat /\
    take (length (fst (elem l))) (drop p a) = fst (elem l).
Proof.
  induction l as [|c l IH]; intros [|fuel] a p Hl Hf; simpl in Hf; try lia; cbn [skip_name elem].
  - rewrite (cstr_nil _ _ _ Hl) by done. cbn [rbind]. exists p. simpl. rewrite take_0. split_and!; try done; lia.
  - pose proof Hl as (Hc & Hr & Hl')%cstr_cons. rewrite Hc. cbn [rbind]. replace (c =? 0) with false by blia. unfold slash.
    destruct (c =? 47) eqn:E; cbn [negb andb].
    { exists p. simpl. rewrite take_0. split_and!; try done; lia. }
    destruct (IH fuel a (S p) Hl' ltac:(lia)) as (q & Hq & Hs & He & Ht). destruct (elem l) as [e r]. simpl in *.
    exists q. split_and!; try done; [lia|]. unfold rd in Hc. destruct (a !! p) as [v|] eqn:Ev; simplify_eq.
    rewrite (drop_S _ _ _ Ev). simpl. by rewrite Ht.
Qed.

Lemma strip_length l : (length (strip l) <= length l)%nat.
Proof. induction l as [|c l IH]; simpl; [lia|]. destruct (c =? slash); simpl; lia. Qed.

Lemma elem_length l : (length (fst (elem l)) + length (snd (elem l)) = length l)%nat.
Proof. induction l as [|c l IH]; simpl; [done|]. destruct (c =? slash); [done|]. destruct (elem l). simpl in *. lia. Qed.

Lemma strip_head l c l' : strip l = c :: l' -> c <> slash.
Proof. induction l as [|x l IH]; simpl; [done|]. destruct (Z.eqb_spec x slash); [done|]. intros [= <- <-]. done. Qed.

Lemma elem_nonempty l c l' : strip l = c :: l' -> (0 < length (fst (elem (c :: l'))))%nat.
Proof.
  intros H. apply strip_head in H. simpl. destruct (Z.eqb_spec c slash); [done|]. destruct (elem l'). simpl. lia.
Qed.

Lemma nstr_take n : forall l rest, Forall (fun v => v <> 0) l -> (n <= length l)%nat -> nstr n (l ++ rest) 0 = Some (take n l).
Proof.
  intros l rest Hl Hn. pose proof (nstr_app n [] (take n l) (drop n l ++ rest)) as H.
  rewrite length_take, Nat.min_l in H by lia. unfold padded in H.
  rewrite length_take, Nat.min_l, Nat.sub_diag in H by lia. simpl in H. rewrite app_nil_r, app_assoc, take_drop in H.
  apply H; [|lia]. by apply Forall_take.
Qed.

Lemma nstr_cut n : forall l rest, Forall (fun v => v <> 0) l -> (length l < n)%nat -> nstr n (l ++ 0 :: rest) 0 = Some l.
Proof.
  assert (G : forall l pre rest, Forall (fun v => v <> 0) l -> (length l < n)%nat -> nstr n (pre ++ l ++ 0 :: rest) (length pre) = Some l);
    [|intros l rest; apply (G l [] rest)].
  induction n as [|n IH]; intros l pre rest Hl Hn; [lia|]. cbn [nstr]. rewrite lookup_app_r, Nat.sub_diag by lia.
  destruct l as [|v l]; simpl; [done|]. apply Forall_cons in Hl as [Hv Hl]. destruct (Z.eqb_spec v 0); [done|].
  specialize (IH l (pre ++ [v]) rest Hl ltac:(simpl in Hn; lia)). rewrite length_app in IH. simpl in IH.
  replace (length pre + 1)%nat with (S (length pre)) in IH by lia. rewrite <- app_assoc in IH. simpl in IH. by rewrite IH.
Qed.

(** One element is cut off; only [DIRSIZ] characters of it are kept. *)
Lemma skipelem_ok a p l name :
  cstr a p l -> length name = DIRSIZ ->
  match strip l with
  | [] => skipelem a p name = Ok None
  | l' => exists q name', skipelem a p name = Ok (Some (q, name')) /\ cstr a q (strip (snd (elem l'))) /\
      length name' = DIRSIZ /\ nstr DIRSIZ name' 0 = Some (take DIRSIZ (fst (elem l'))) /\ (bytes name -> bytes name')
  end.
Proof.
  intros Hl Hn. unfold skipelem. pose proof (cstr_length _ _ _ Hl) as Hlen.
  destruct (skip_slashes_ok l (S (length a)) a p Hl ltac:(lia)) as (q & Hq & Hs). rewrite Hq. cbn [rbind].
  pose proof (elem_nonempty l) as Hne. destruct (strip l) as [|c l'] eqn:Es; [by rewrite (cstr_nil _ _ _ Hs)|]. specialize (Hne c l' eq_refl).
  pose proof Hs as (Hc & Hcr & _)%cstr_cons. rewrite Hc. cbn [rbind]. replace (c =? 0) with false by blia.
  pose proof (cstr_length _ _ _ Hs) as Hlen2.
  destruct (skip_name_ok (c :: l') (S (length a)) a q Hs ltac:(lia)) as (q2 & Hq2 & Hs2 & Eq2 & Ht). rewrite Hq2. cbn [rbind].
  pose proof (elem_length (c :: l')) as Hel. set (e := fst (elem (c :: l'))) in *. set (r := snd (elem (c :: l'))) in *.
  replace (q2 - q)%nat with (length e) by lia.
  assert (Hec : Forall (fun v => 0 < v < 256) e).
  { rewrite <- Ht. destruct Hs as [[rest Hd] Hf]. rewrite Hd. rewrite take_app_le by lia. by apply Forall_take. }
  assert (Hez : Forall (fun v => v <> 0) e) by (eapply Forall_impl; [exact Hec|]; simpl; lia).
  assert (Heb : bytes e) by (eapply Forall_impl; [exact Hec|]; simpl; lia).
  pose proof (cstr_length _ _ _ Hs2) as Hlen3.
  destruct (skip_slashes_ok r (S (length a)) a q2 Hs2 ltac:(lia)) as (q3 & Hq3 & Hs3).
  destruct (decide (DIRSIZ <= length e)%nat) as [Hbig|Hsmall].
  - assert (Et : take DIRSIZ (drop q a) = take DIRSIZ e) by (rewrite <- Ht, take_take, Nat.min_l by done; done).
    rewrite Et. cbn [rbind]. rewrite Hq3. cbn [rbind]. eexists q3, _. split; [done|]. split; [done|].
    unfold splice. rewrite take_0, app_nil_l. rewrite (drop_ge name) by (rewrite length_take; lia). rewrite app_nil_r.
    split; [rewrite length_take; lia|]. split; [|intros _; by apply Forall_take].
    pose proof (nstr_take DIRSIZ (take DIRSIZ e) []) as Hnt. rewrite app_nil_r, take_take, Nat.min_id in Hnt.
    apply Hnt; [by apply Forall_take|rewrite length_take; lia].
  - rewrite Ht. unfold splice. rewrite take_0, app_nil_l. rewrite wr_Ok by (rewrite length_app, length_drop; lia). cbn [rbind].
    rewrite Hq3. cbn [rbind]. eexists q3, _. split; [done|]. split; [done|]. rewrite insert_app_r_alt by lia. rewrite Nat.sub_diag.
    destruct (drop (0 + length e) name) as [|x xs] eqn:Ed; [apply (f_equal length) in Ed; rewrite length_drop in Ed; simpl in Ed; lia|]. change (<[0%nat := 0]> (x :: xs)) with (0 :: xs).
    pose proof (f_equal length Ed) as Hxl. rewrite length_drop in Hxl. simpl in Hxl.
    split; [rewrite length_app; simpl; lia|]. rewrite (take_ge e) by lia. split; [by apply nstr_cut; [|lia]|].
    intros Hb. apply Forall_app. split; [done|]. constructor; [lia|]. apply (Forall_drop (fun v => 0 <= v < 256) (0 + length e)) in Hb.
    rewrite Ed in Hb. by inversion Hb.
Qed.

Lemma path_elems_fuel f : forall f' l, (length l < f)%nat -> (length l < f')%nat -> path_elems f l = path_elems f' l.
Proof.
  induction f as [|f IH]; intros [|f'] l Hf Hf'; try lia. cbn [path_elems]. pose proof (strip_length l) as Hs.
  destruct (strip l) as [|c l'] eqn:E; [done|]. pose proof (elem_nonempty l c l' E) as Hne.
  pose proof (elem_length (c :: l')) as Hel. destruct (elem (c :: l')) as [e r]. simpl in *. f_equal.
  pose proof (strip_length r). apply IH; lia.
Qed.

(** ** The inode cache *)

Section cache.

Context (me : Z) (L : log) (DK : bst) (sk : superblock).

Abbreviation tview := (tview me L DK).

(** Entries in use are for distinct inodes and, once read, agree with the
    disk; [lk] is the entry that the process has locked. *)
Record ic_ok (C : gmap Z block) (lk : option nat) (ic : list inode) : Prop := {
  c_len : length ic = NINODE;
  c_ref : forall k e, ic !! k = Some e -> 0 <= i_ref e;
  c_lock : forall k e, ic !! k = Some e -> i_lock e = if decide (lk = Some k) then Sleeplock 1 me else Sleeplock 0 0;
  c_num : forall k e, ic !! k = Some e -> 0 < i_ref e -> inum_ok sk e;
  c_valid : forall k e, ic !! k = Some e -> 0 < i_ref e -> i_valid e = 0 \/ (i_valid e = 1 /\ synced sk C e);
  c_uniq : forall j k e f, ic !! j = Some e -> ic !! k = Some f -> 0 < i_ref e -> 0 < i_ref f -> i_inum e = i_inum f -> j = k
}.

(** One entry changes. *)
Lemma ic_upd C lk lk' ic ip e e' :
  ic_ok C lk ic -> ic !! ip = Some e -> 0 <= i_ref e' ->
  i_lock e' = (if decide (lk' = Some ip) then Sleeplock 1 me else Sleeplock 0 0) ->
  (forall k, k <> ip -> (lk' = Some k <-> lk = Some k)) ->
  (0 < i_ref e' -> inum_ok sk e' /\ (i_valid e' = 0 \/ (i_valid e' = 1 /\ synced sk C e'))) ->
  (0 < i_ref e' -> forall k f, k <> ip -> ic !! k = Some f -> 0 < i_ref f -> i_inum f <> i_inum e') ->
  ic_ok C lk' (<[ip := e']> ic).
Proof.
  intros [Hlen Href Hlock Hnum Hval Huniq] He Hr Hl Hlk Hok Hfresh.
  assert (Hcase : forall k f, <[ip := e']> ic !! k = Some f -> (k = ip /\ f = e') \/ (k <> ip /\ ic !! k = Some f)).
  { intros k f Hf. apply list_lookup_insert_Some in Hf as [(-> & <- & _)|[? ?]]; [by left|right]. split; [congruence|done]. }
  constructor.
  - by rewrite length_insert.
  - intros k f [[-> ->]|[_ Hf]]%Hcase; [done|eauto].
  - intros k f [[-> ->]|[Hne Hf]]%Hcase; [done|]. rewrite (Hlock k f Hf). specialize (Hlk k Hne).
    destruct (decide (lk = Some k)), (decide (lk' = Some k)); tauto || done.
  - intros k f [[-> ->]|[_ Hf]]%Hcase Hp; [by apply Hok|eauto].
  - intros k f [[-> ->]|[_ Hf]]%Hcase Hp; [by apply Hok|eauto].
  - intros j k f g Hj Hk Hf Hg E. apply Hcase in Hj as [[-> ->]|[Nj Hj]]; apply Hcase in Hk as [[-> ->]|[Nk Hk]]; try done.
    + exfalso. by apply (Hfresh Hf k g).
    + exfalso. apply (Hfresh Hg j f); done.
    + eauto.
Qed.

Lemma iget_scan_ok n l : forall i empty r,
  iget_scan 1 n l i empty = r ->
  match r with
  | (Some k, _) => exists e, (i <= k)%nat /\ l !! (k - i)%nat = Some e /\ 0 < i_ref e /\ i_dev e = 1 /\ i_inum e = n
  | (None, em) => (forall k e, l !! k = Some e -> 0 < i_ref e -> i_dev e = 1 -> i_inum e <> n) /\
      match em with
      | Some k => empty = Some k \/ (empty = None /\ (i <= k)%nat /\ exists e, l !! (k - i)%nat = Some e /\ i_ref e = 0)
      | None => empty = None /\ forall k e, l !! k = Some e -> i_ref e <> 0
      end
  end.
Proof.
  induction l as [|x l IH]; intros i empty r <-; cbn [iget_scan].
  { split; [done|]. destruct empty; [by left|done]. }
  destruct ((0 <? i_ref x) && (i_dev x =? 1) && (i_inum x =? n)) eqn:E.
  - apply andb_prop in E as [[E1%Z.ltb_lt E2%Z.eqb_eq]%andb_prop E3%Z.eqb_eq]. exists x. rewrite Nat.sub_diag. done.
  - assert (Hx : 0 < i_ref x -> i_dev x = 1 -> i_inum x <> n).
    { intros E1%Z.ltb_lt E2%Z.eqb_eq E3%Z.eqb_eq. by rewrite E1, E2, E3 in E. }
    set (em := match empty with Some _ => empty | None => _ end). specialize (IH (S i) em _ eq_refl).
    destruct (iget_scan 1 n l (S i) em) as [[k|] em'].
    + destruct IH as (e & Hk & Hl & Hrest). exists e. split; [lia|]. split; [|done].
      replace (k - i)%nat with (S (k - S i)) by lia. done.
    + destruct IH as [H1 H2]. split.
      { intros [|k] e Hk; [simpl in Hk; simplify_eq; done|exact (H1 k e Hk)]. }
      unfold em in H2. destruct em' as [k|].
      * destruct H2 as [H2|(H2 & Hk & e & Hl & He)].
        -- destruct empty as [y|]; [by left|]. destruct (Z.eqb_spec (i_ref x) 0); [|done]. simplify_eq. right.
           split; [done|]. split; [lia|]. exists x. by rewrite Nat.sub_diag.
        -- destruct empty as [y|]; [done|]. right. split; [done|]. split; [lia|]. exists e.
           split; [replace (k - i)%nat with (S (k - S i)) by lia; done|done].
      * destruct H2 as [H2 H3]. destruct empty; [done|]. destruct (Z.eqb_spec (i_ref x) 0); [done|]. split; [done|].
        intros [|k] e Hk; [simpl in Hk; by simplify_eq|exact (H3 k e Hk)].
Qed.

Lemma synced_ref C v e : synced sk C e -> synced sk C (with_ref v e).
Proof.
  intros (d & Hd & Hl). exists d. split; [done|]. change (load_dinode (islot (with_ref v e)) d (with_ref v e)) with
    (with_ref v (load_dinode (islot e) d e)). by rewrite Hl.
Qed.

Lemma synced_lock C v e : synced sk C e -> synced sk C (with_ilock v e).
Proof.
  intros (d & Hd & Hl). exists d. split; [done|]. change (load_dinode (islot (with_ilock v e)) d (with_ilock v e)) with
    (with_ilock v (load_dinode (islot e) d e)). by rewrite Hl.
Qed.

Lemma valid_ref C v e :
  i_valid e = 0 \/ (i_valid e = 1 /\ synced sk C e) ->
  i_valid (with_ref v e) = 0 \/ (i_valid (with_ref v e) = 1 /\ synced sk C (with_ref v e)).
Proof. intros [?|[? ?]]; [by left|right]. split; [done|by apply synced_ref]. Qed.

Lemma valid_lock C v e :
  i_valid e = 0 \/ (i_valid e = 1 /\ synced sk C e) ->
  i_valid (with_ilock v e) = 0 \/ (i_valid (with_ilock v e) = 1 /\ synced sk C (with_ilock v e)).
Proof. intros [?|[? ?]]; [by left|right]. split; [done|by apply synced_lock]. Qed.

(** [iget]: the entry of the inode, or a free one made to be it. *)
Lemma iget_ok s C lk n :
  ic_ok C lk (icache s) -> 0 <= n < sb_ninodes sk -> (exists k e, icache s !! k = Some e /\ i_ref e = 0) ->
  exists ip e e', iget 1 n s = Ok (ip, set_ip ip e' s) /\ icache s !! ip = Some e /\
    ic_ok C lk (icache (set_ip ip e' s)) /\ i_inum e' = n /\ i_ref e' = i_ref e + 1 /\
    (0 < i_ref e -> i_inum e = n /\ e' = with_ref (i_ref e + 1) e).
Proof.
  intros Hic Hn Hslot. unfold iget. rewrite (bind_Ok (gets icache) _ s (icache s) s) by done.
  pose proof (iget_scan_ok n (icache s) 0 None _ eq_refl) as Hs. destruct (iget_scan 1 n (icache s) 0 None) as [[ip|] em].
  - destruct Hs as (e & _ & He & Hr & Hd & Hi). rewrite Nat.sub_0_r in He.
    exists ip, e, (with_ref (i_ref e + 1) e). rewrite (bind_Ok _ _ _ _ _ (upd_inode_ok s ip e _ He)).
    split_and!; try done. apply (ic_upd C lk lk _ ip e); try done; try (simpl; lia).
    + exact (c_lock _ _ _ Hic ip e He).
    + intros _. split; [exact (c_num _ _ _ Hic ip e He Hr)|]. by apply valid_ref, (c_valid _ _ _ Hic ip).
    + intros _ k f Hne Hf Hrf Heq. apply Hne. by apply (c_uniq _ _ _ Hic k ip f e).
  - destruct Hs as [Hnone Hem]. destruct em as [ip|].
    2:{ destruct Hem as [_ Hem]. destruct Hslot as (k & e & He & Hr). by apply Hem in He. }
    destruct Hem as [?|(_ & _ & e & He & Hr)]; [done|]. rewrite Nat.sub_0_r in He.
    eexists ip, e, _. rewrite (bind_Ok _ _ _ _ _ (upd_inode_ok s ip e _ He)).
    split; [done|]. split; [done|]. split; [|simpl; split_and!; lia].
    apply (ic_upd C lk lk _ ip e); try done; try (simpl; lia).
    + exact (c_lock _ _ _ Hic ip e He).
    + intros _. split; [split; [done|simpl; lia]|]. by left.
    + intros _ k f Hne Hf Hrf Heq. apply (Hnone k f Hf Hrf); [|done]. exact (proj1 (c_num _ _ _ Hic k f Hf Hrf)).
Qed.

(** The inode [n] as it is on disk, and a copy of it. *)
Definition dnode (C : gmap Z block) (n : Z) : inode :=
  load_dinode (Z.to_nat (n mod IPB)) (default [] (C !! IBLOCK n sk)) (Inode 1 n 1 (Sleeplock 0 0) 1 0 0 0 0 0 []).

Definition copy_of (C : gmap Z block) (e : inode) : Prop :=
  i_type e = i_type (dnode C (i_inum e)) /\ i_nlink e = i_nlink (dnode C (i_inum e)) /\
  i_size e = i_size (dnode C (i_inum e)) /\ i_addrs e = i_addrs (dnode C (i_inum e)).

Lemma load_copy C d e : C !! IBLOCK (i_inum e) sk = Some d -> copy_of C (load_dinode (islot e) d e).
Proof. intros Hd. unfold copy_of, dnode. simpl. rewrite Hd. done. Qed.

Lemma synced_copy C e : synced sk C e -> copy_of C e.
Proof. intros (d & Hd & Hl). rewrite <- Hl. by apply load_copy. Qed.

Lemma load_synced C d e : C !! IBLOCK (i_inum e) sk = Some d -> synced sk C (load_dinode (islot e) d e).
Proof. intros Hd. exists d. done. Qed.

Lemma icache_set_ip ip e s : icache (set_ip ip e s) = <[ip := e]> (icache s).
Proof. done. Qed.

Lemma set_ip_set_ip ip e e' s : set_ip ip e' (set_ip ip e s) = set_ip ip e' s.
Proof. unfold set_ip. simpl. by rewrite list_insert_insert_eq. Qed.

Lemma set_ip_here ip e e' s : icache s !! ip = Some e -> icache (set_ip ip e' s) !! ip = Some e'.
Proof. intros H. simpl. apply list_lookup_insert_eq. by eapply lookup_lt_Some. Qed.

Lemma lock_inode_ok s ip e :
  icache s !! ip = Some e -> i_lock e = Sleeplock 0 0 -> lock_inode me ip s = Ok (tt, set_ip ip (with_ilock (Sleeplock 1 me) e) s).
Proof.
  intros He Hl. unfold lock_inode. rewrite (bind_Ok _ _ _ _ _ (get_inode_ok _ _ _ He)), Hl. simpl. by apply upd_inode_ok.
Qed.

Lemma unlocked C ic k e : ic_ok C None ic -> ic !! k = Some e -> i_lock e = Sleeplock 0 0.
Proof. intros Hic He. rewrite (c_lock _ _ _ Hic k e He). by rewrite decide_False. Qed.

Lemma lk_only (ip k : nat) (lk lk' : option nat) :
  k <> ip -> (lk = None \/ lk = Some ip) -> (lk' = None \/ lk' = Some ip) -> (lk' = Some k <-> lk = Some k).
Proof. intros Hk [-> | ->] [-> | ->]; split; intros; simplify_eq. Qed.

(** The entry stays for the same inode, with as many references. *)
Lemma ic_same C lk lk' ic ip e e' :
  ic_ok C lk ic -> ic !! ip = Some e -> 0 < i_ref e -> i_ref e' = i_ref e -> i_inum e' = i_inum e -> i_dev e' = 1 ->
  (lk = None \/ lk = Some ip) -> (lk' = None \/ lk' = Some ip) ->
  i_lock e' = (if decide (lk' = Some ip) then Sleeplock 1 me else Sleeplock 0 0) ->
  i_valid e' = 0 \/ (i_valid e' = 1 /\ synced sk C e') -> ic_ok C lk' (<[ip := e']> ic).
Proof.
  intros Hic He Hr Er En Ed H1 H2 Hl Hv. apply (ic_upd C lk lk' ic ip e); try done; [lia| | |].
  - intros k Hk. by apply (lk_only ip k).
  - intros _. split; [|done]. split; [done|]. rewrite En. by apply (c_num _ _ _ Hic ip e).
  - intros _ k f Hne Hf Hrf. rewrite En. intros Heq. apply Hne. by apply (c_uniq _ _ _ Hic k ip f e).
Qed.

(** An entry that has not been read is filled from its block. *)
Lemma ilock_unread s C D ip e d :
  tview (lo s) C D ∅ -> sb s = sk -> (size D < NBUF)%nat -> icache s !! ip = Some e -> i_dev e = 1 -> 0 < i_ref e ->
  i_lock e = Sleeplock 0 0 -> i_valid e = 0 -> C !! IBLOCK (i_inum e) sk = Some d -> di_type (islot e) d <> 0 ->
  exists l', ilock me (Some ip) s =
      Ok (tt, set_ip ip (load_dinode (islot e) d (with_ilock (Sleeplock 1 me) e)) (set_lo l' s)) /\ tview l' C D ∅.
Proof.
  intros T Hsb Hroom He Hdev Hr Hl Hv Hd Ht. unfold ilock. rewrite (bind_Ok _ _ _ _ _ (get_inode_ok _ _ _ He)).
  replace (i_ref e <? 1) with false by blia. rewrite (bind_Ok _ _ _ _ _ (lock_inode_ok s ip e He Hl)).
  set (e1 := with_ilock (Sleeplock 1 me) e). rewrite Hv. simpl (_ =? _). cbn iota.
  rewrite (bind_Ok (gets sb) _ _ sk _) by (unfold gets; simpl; by rewrite Hsb). rewrite Hdev.
  destruct (bread_tx me L DK (set_ip ip e1 s) C D ∅ _ d T (not_elem_of_empty _) Hd) as (p & l1 & H1 & T1 & A1 & _);
    [right; by rewrite union_empty_r_L|].
  rewrite (bind_Ok _ _ _ _ _ H1), (bind_Ok _ _ _ _ _ (data_tx me (set_lo l1 (set_ip ip e1 s)) p _ d A1)).
  pose proof (set_ip_here ip e e1 s He) as He1. set (e2 := load_dinode (islot e) d e1).
  rewrite (bind_Ok _ _ _ _ _ (upd_inode_ok (set_lo l1 (set_ip ip e1 s)) ip e1 _ He1)). fold (islot e). fold e2.
  destruct (brelse_tx me L DK (set_ip ip e2 (set_lo l1 (set_ip ip e1 s))) C D _ p _ d T1 A1) as (l2 & H2 & T2 & _).
  rewrite (bind_Ok _ _ _ _ _ H2). rewrite not_held_again in T2 by apply not_elem_of_empty.
  assert (Heq : set_lo l2 (set_ip ip e2 (set_lo l1 (set_ip ip e1 s))) = set_ip ip e2 (set_lo l2 s)).
  { unfold set_ip. simpl. by rewrite list_insert_insert_eq. }
  rewrite Heq. rewrite (bind_Ok _ _ _ _ _ (get_inode_ok (set_ip ip e2 (set_lo l2 s)) ip e2 (set_ip_here ip e e2 (set_lo l2 s) He))).
  change (i_type e2) with (di_type (islot e) d). apply Z.eqb_neq in Ht as ->. by exists l2.
Qed.

Lemma ilock_ok s C D ip e :
  tview (lo s) C D ∅ -> sb s = sk -> alloc_ok sk C -> (size D < NBUF)%nat -> ic_ok C None (icache s) ->
  icache s !! ip = Some e -> 0 < i_ref e -> i_type (dnode C (i_inum e)) <> 0 ->
  exists e' l', ilock me (Some ip) s = Ok (tt, set_ip ip e' (set_lo l' s)) /\ tview l' C D ∅ /\
    ic_ok C (Some ip) (icache (set_ip ip e' s)) /\ i_inum e' = i_inum e /\ i_ref e' = i_ref e /\ i_dev e' = 1 /\
    i_valid e' = 1 /\ copy_of C e'.
Proof.
  intros T Hsb Ha Hroom Hic He Hr Ht. pose proof (unlocked C _ ip e Hic He) as Hl. set (e1 := with_ilock (Sleeplock 1 me) e).
  pose proof (c_num _ _ _ Hic ip e He Hr) as [Hdev Hnum].
  destruct (c_valid _ _ _ Hic ip e He Hr) as [Hv|[Hv Hsy]].
  - destruct (iblock_here sk C e Ha (conj Hdev Hnum)) as (d & Hd & _). pose proof (load_copy C d e1 Hd) as (Hct & Hc).
    destruct (ilock_unread s C D ip e d T Hsb Hroom He Hdev Hr Hl Hv Hd) as (l2 & H2 & T2).
    { change (di_type (islot e) d) with (i_type (load_dinode (islot e1) d e1)). by rewrite Hct. }
    fold e1 in H2. exists (load_dinode (islot e) d e1), l2. split; [done|]. split_and!; try done.
    apply (ic_same C None (Some ip) _ ip e); try done; [by left|by right|by rewrite decide_True|].
    right. split; [done|]. exact (load_synced C d e1 Hd).
  - unfold ilock. rewrite (bind_Ok _ _ _ _ _ (get_inode_ok _ _ _ He)). replace (i_ref e <? 1) with false by blia.
    rewrite (bind_Ok _ _ _ _ _ (lock_inode_ok s ip e He Hl)). fold e1. rewrite Hv. simpl (_ =? _). cbn iota.
    exists e1, (lo s). rewrite set_lo_id. assert (Hsy1 : synced sk C e1) by (by apply synced_lock).
    pose proof (synced_copy C e1 Hsy1) as (? & ? & ? & ?). split_and!; try done.
    apply (ic_same C None (Some ip) _ ip e); try done; [by left|by right|by rewrite decide_True|by right].
Qed.

Lemma iunlock_ok s C ip e :
  ic_ok C (Some ip) (icache s) -> icache s !! ip = Some e -> 0 < i_ref e ->
  iunlock me (Some ip) s = Ok (tt, set_ip ip (with_ilock (Sleeplock 0 0) e) s) /\
  ic_ok C None (icache (set_ip ip (with_ilock (Sleeplock 0 0) e) s)).
Proof.
  intros Hic He Hr. pose proof (c_lock _ _ _ Hic ip e He) as Hl. rewrite decide_True in Hl by done. split.
  - unfold iunlock. rewrite (bind_Ok _ _ _ _ _ (get_inode_ok _ _ _ He)).
    assert (Hh : holdingsleep me (i_lock e) = true) by (rewrite Hl; unfold holdingsleep; simpl; by rewrite Z.eqb_refl).
    rewrite Hh. replace (i_ref e <? 1) with false by blia. cbn [negb orb]. unfold unlock_inode. exact (upd_inode_ok s ip e _ He).
  - destruct (c_num _ _ _ Hic ip e He Hr) as [Hdev _].
    apply (ic_same C (Some ip) None _ ip e); try done; [by right|by left|].
    apply valid_lock. exact (c_valid _ _ _ Hic ip e He Hr).
Qed.

(** [iput] of an inode that is not the locked one. *)
Lemma iput_free s C lk ip e :
  ic_ok C lk (icache s) -> lk <> Some ip -> icache s !! ip = Some e -> 0 < i_ref e -> (i_valid e = 1 -> i_nlink e <> 0) ->
  iput me ip s = Ok (tt, set_ip ip (with_ref (i_ref e - 1) e) s) /\
  ic_ok C lk (icache (set_ip ip (with_ref (i_ref e - 1) e) s)).
Proof.
  intros Hic Hlk He Hr Hn. pose proof (c_lock _ _ _ Hic ip e He) as Hl. rewrite decide_False in Hl by done. pose proof (c_valid _ _ _ Hic ip e He Hr) as Hv. split.
  - unfold iput. rewrite (bind_Ok _ _ _ _ _ (lock_inode_ok s ip e He Hl)). set (e1 := with_ilock (Sleeplock 1 me) e).
    pose proof (set_ip_here ip e e1 s He) as He1. rewrite (bind_Ok _ _ _ _ _ (get_inode_ok _ _ _ He1)).
    assert (Hcond : negb (i_valid e1 =? 0) && (i_nlink e1 =? 0) = false).
    { simpl. destruct Hv as [-> |[Hv _]]; [done|]. apply andb_false_iff. right. apply Z.eqb_neq. auto. }
    rewrite Hcond. rewrite (bind_Ok (ret tt) _ _ tt _ eq_refl). unfold unlock_inode.
    rewrite (bind_Ok _ _ _ _ _ (upd_inode_ok _ ip e1 _ He1)). rewrite set_ip_set_ip.
    rewrite (upd_inode_ok _ ip (with_ilock (releasesleep (i_lock e1)) e1)) by (by apply (set_ip_here ip e)). rewrite set_ip_set_ip.
    unfold e1, with_ref, with_ilock, releasesleep. simpl. by rewrite Hl.
  - apply (ic_upd C lk lk _ ip e); try done; try (simpl; lia).
    + simpl. by rewrite decide_False.
    + intros Hp. split; [exact (c_num _ _ _ Hic ip e He Hr)|by apply valid_ref].
    + intros Hp k f Hne Hf Hrf Heq. apply Hne. by apply (c_uniq _ _ _ Hic k ip f e).
Qed.

Lemma iput_ok s C ip e :
  ic_ok C None (icache s) -> icache s !! ip = Some e -> 0 < i_ref e -> (i_valid e = 1 -> i_nlink e <> 0) ->
  iput me ip s = Ok (tt, set_ip ip (with_ref (i_ref e - 1) e) s) /\
  ic_ok C None (icache (set_ip ip (with_ref (i_ref e - 1) e) s)).
Proof. intros Hic. by apply iput_free. Qed.

(** ** Reference counts along a walk *)

(** The entries in use in [ic0] are for the same inodes in [ic], and the
    reference counts have changed by [d]. *)
Definition refs_by (ic0 ic : list inode) (d : nat -> Z) : Prop :=
  forall k e0, ic0 !! k = Some e0 ->
    exists e, ic !! k = Some e /\ i_ref e = i_ref e0 + d k /\ (0 < i_ref e0 -> i_inum e = i_inum e0).

Definition one_at (ip k : nat) : Z := if decide (k = ip) then 1 else 0.

Lemma refs_by_upd ic0 ic d ip e e' :
  refs_by ic0 ic d -> ic !! ip = Some e -> (forall k, 0 <= d k) -> (i_inum e' = i_inum e \/ i_ref e = 0) ->
  refs_by ic0 (<[ip := e']> ic) (fun k => if decide (k = ip) then d k + (i_ref e' - i_ref e) else d k).
Proof.
  intros H He Hd Hn k e0 Hk. destruct (H k e0 Hk) as (f & Hf & Hr & Hi). destruct (decide (k = ip)) as [-> |Hne].
  - rewrite He in Hf. simplify_eq. exists e'. split; [apply list_lookup_insert_eq; by eapply lookup_lt_Some|]. split; [lia|].
    intros Hp. specialize (Hd ip). destruct Hn as [-> |?]; [by apply Hi|lia].
  - exists f. rewrite list_lookup_insert_ne by done. done.
Qed.

Lemma refs_by_ext ic0 ic d d' : (forall k, d k = d' k) -> refs_by ic0 ic d -> refs_by ic0 ic d'.
Proof. intros E H k e0 Hk. destruct (H k e0 Hk) as (e & ? & ? & ?). exists e. by rewrite <- E. Qed.

(** An update that changes neither the count nor the inode. *)
Lemma refs_by_same ic0 ic d ip e e' :
  refs_by ic0 ic d -> ic !! ip = Some e -> (forall k, 0 <= d k) -> i_inum e' = i_inum e -> i_ref e' = i_ref e ->
  refs_by ic0 (<[ip := e']> ic) d.
Proof.
  intros H He Hd Hn Hr. eapply refs_by_ext; [|apply (refs_by_upd ic0 ic d ip e e' H He Hd); by left].
  intros k. simpl. destruct (decide (k = ip)); lia.
Qed.

Definition two_free (ic : list inode) : Prop :=
  exists j k e f, j <> k /\ ic !! j = Some e /\ ic !! k = Some f /\ i_ref e = 0 /\ i_ref f = 0.

Lemma free_left ic0 ic ip : two_free ic0 -> refs_by ic0 ic (one_at ip) -> exists k e, ic !! k = Some e /\ i_ref e = 0.
Proof.
  intros (j & k & e & f & Hne & Hj & Hk & He & Hf) H. destruct (decide (j = ip)) as [-> |Hj'].
  - destruct (H k f Hk) as (g & Hg & Hr & _). exists k, g. split; [done|]. unfold one_at in Hr. rewrite decide_False in Hr by congruence. lia.
  - destruct (H j e Hj) as (g & Hg & Hr & _). exists j, g. split; [done|]. unfold one_at in Hr. rewrite decide_False in Hr by congruence. lia.
Qed.

Lemma one_at_nonneg ip k : 0 <= one_at ip k.
Proof. unfold one_at. destruct (decide _); lia. Qed.

Lemma iunlockput_ok s C ip e :
  ic_ok C (Some ip) (icache s) -> icache s !! ip = Some e -> 0 < i_ref e -> (i_valid e = 1 -> i_nlink e <> 0) ->
  let e' := with_ref (i_ref e - 1) (with_ilock (Sleeplock 0 0) e) in
  iunlockput me ip s = Ok (tt, set_ip ip e' s) /\ ic_ok C None (icache (set_ip ip e' s)).
Proof.
  intros Hic He Hr Hn e'. destruct (iunlock_ok s C ip e Hic He Hr) as [H1 Hic1].
  set (e1 := with_ilock (Sleeplock 0 0) e) in *. pose proof (set_ip_here ip e e1 s He) as He1.
  destruct (iput_ok _ C ip e1 Hic1 He1 Hr Hn) as [H2 Hic2]. unfold iunlockput. rewrite (bind_Ok _ _ _ _ _ H1), H2.
  rewrite set_ip_set_ip. split; [done|]. rewrite set_ip_set_ip in Hic2. done.
Qed.

(** ** Resolving a path *)

(** A set of inodes closed under directory entries, all in order. *)
Record closed (C : gmap Z block) (G : Z -> Prop) : Prop := {
  g_range : forall n, G n -> 0 <= n < sb_ninodes sk;
  g_type : forall n, G n -> i_type (dnode C n) <> 0;
  g_nlink : forall n, G n -> i_nlink (dnode C n) <> 0;
  g_dir : forall n, G n -> i_type (dnode C n) = T_DIR -> dir_ok sk C (dnode C n);
  g_entry : forall n k, G n -> i_type (dnode C n) = T_DIR -> (k < entries (fdata C (dnode C n)))%nat ->
    de_inum (dent (fdata C (dnode C n)) k) <> 0 -> G (de_inum (dent (fdata C (dnode C n)) k))
}.

(** Where the path [es] leads from inode [n]; with [parent], the directory
    that holds the last element. *)
Fixpoint walk (parent : bool) (C : gmap Z block) (n : Z) (es : list (list Z)) : option Z :=
  match es with
  | [] => if parent then None else Some n
  | e :: es' =>
      if i_type (dnode C n) =? T_DIR then
        match parent, es' with
        | true, [] => Some n
        | _, _ =>
            match dir_lookup (fdata C (dnode C n)) (take DIRSIZ e) with
            | Some k => walk parent C (de_inum (dent (fdata C (dnode C n)) k)) es'
            | None => None
            end
        end
      else None
  end.

Lemma fdata_copy C e f : i_size e = i_size f -> i_addrs e = i_addrs f -> fdata C e = fdata C f.
Proof. intros H1 H2. unfold fdata, fbyte, fblock, addr_of. by rewrite H1, H2. Qed.

Lemma file_ok_copy C e f : i_size e = i_size f -> i_addrs e = i_addrs f -> file_ok sk C f -> file_ok sk C e.
Proof.
  intros Hs Ha [H1 H2 H3 H4 H5 H6]. unfold owns, fblock, addr_of in *. rewrite <- Hs, <- Ha in *. constructor; unfold owns, fblock, addr_of; done.
Qed.

Lemma dir_ok_copy C e f :
  i_type e = i_type f -> i_size e = i_size f -> i_addrs e = i_addrs f -> dir_ok sk C f -> dir_ok sk C e.
Proof. intros Ht Hs Ha [H1 H2 H3]. constructor; [by eapply file_ok_copy|congruence|congruence]. Qed.

Lemma dir_lookup_Some data name k : dir_lookup data name = Some k -> (k < entries data)%nat /\ de_inum (dent data k) <> 0.
Proof.
  unfold dir_lookup. assert (G : forall n j, dir_find n j data name = Some k -> (j <= k < j + n)%nat /\ hit name (dent data k) = true).
  { induction n as [|n IH]; intros j H; cbn [dir_find] in H; [done|]. destruct (hit name (dent data j)) eqn:E; [simplify_eq; split; [lia|done]|].
    apply IH in H as [? ?]. split; [lia|done]. }
  intros H%G. destruct H as [H1 H2]. split; [lia|]. unfold hit in H2. destruct (Z.eqb_spec (de_inum (dent data k)) 0); done.
Qed.

(** What [namex] leaves: one reference more, to the inode it returns. *)
Definition outcome (ic0 : list inode) (m : option Z) (r : option nat) (ic' : list inode) : Prop :=
  match m with
  | Some m => exists q e, r = Some q /\ refs_by ic0 ic' (one_at q) /\ ic' !! q = Some e /\ i_inum e = m
  | None => r = None /\ refs_by ic0 ic' (fun _ => 0)
  end.

(** The reference to [ip] is dropped. *)
Lemma drop_ref s C ic0 ip e :
  ic_ok C (Some ip) (icache s) -> icache s !! ip = Some e -> 0 < i_ref e -> i_nlink e <> 0 -> refs_by ic0 (icache s) (one_at ip) ->
  exists ic', iunlockput me ip s = Ok (tt, set_icache ic' s) /\ ic_ok C None ic' /\ refs_by ic0 ic' (fun _ => 0).
Proof.
  intros Hic He Hr Hn Hrefs. destruct (iunlockput_ok s C ip e Hic He Hr ltac:(done)) as [H1 Hic1]. eexists. split; [exact H1|]. split; [done|].
  eapply refs_by_ext; [|apply (refs_by_upd ic0 _ (one_at ip) ip e _ Hrefs He (one_at_nonneg ip)); by left].
  intros k. simpl. unfold one_at. destruct (decide (k = ip)); lia.
Qed.

(** The next directory entry [n] replaces [ip]. *)
Lemma next_ref s C ic0 ip e n :
  ic_ok C (Some ip) (icache s) -> icache s !! ip = Some e -> 0 < i_ref e -> i_nlink e <> 0 -> refs_by ic0 (icache s) (one_at ip) ->
  two_free ic0 -> 0 <= n < sb_ninodes sk ->
  exists q ic1 ic2 f, iget 1 n s = Ok (q, set_icache ic1 s) /\ iunlockput me ip (set_icache ic1 s) = Ok (tt, set_icache ic2 s) /\
    ic_ok C None ic2 /\ refs_by ic0 ic2 (one_at q) /\ ic2 !! q = Some f /\ i_inum f = n.
Proof.
  intros Hic He Hr Hn Hrefs Htwo Hrange.
  destruct (iget_ok s C (Some ip) n Hic Hrange (free_left ic0 _ ip Htwo Hrefs)) as (q & g & g' & H1 & Hg & Hic1 & Hgn & Hgr & Hgs).
  set (ic1 := <[q := g']> (icache s)). assert (Hip : exists e1, ic1 !! ip = Some e1 /\ 0 < i_ref e1 /\ i_nlink e1 <> 0 /\
    i_ref e1 = i_ref e + one_at q ip /\ (ip = q -> i_inum e1 = n)).
  { unfold ic1, one_at. destruct (decide (ip = q)) as [<- |Hne].
    - rewrite He in Hg. simplify_eq. destruct (Hgs Hr) as [_ ->]. eexists. split; [apply list_lookup_insert_eq; by eapply lookup_lt_Some|].
      split; [simpl; lia|]. split; [done|]. simpl. done.
    - exists e. rewrite list_lookup_insert_ne by congruence. split_and!; try done; lia. }
  destruct Hip as (e1 & He1 & Hr1 & Hn1 & Er1 & Hq1).
  destruct (iunlockput_ok (set_icache ic1 s) C ip e1 Hic1 He1 Hr1 ltac:(done)) as [H2 Hic2].
  set (e2 := with_ref (i_ref e1 - 1) (with_ilock (Sleeplock 0 0) e1)) in *.
  assert (Hrefs1 : refs_by ic0 ic1 (fun k => one_at ip k + one_at q k)).
  { eapply refs_by_ext; [|apply (refs_by_upd ic0 _ (one_at ip) q g g' Hrefs Hg (one_at_nonneg ip))].
    - intros k. simpl. unfold one_at. destruct (decide (k = q)); lia.
    - pose proof (c_ref _ _ _ Hic q g Hg). destruct (decide (i_ref g = 0)); [by right|left]. destruct (Hgs ltac:(lia)) as [-> _]. done. }
  exists q, ic1, (<[ip := e2]> ic1), (if decide (ip = q) then e2 else g'). split; [done|]. split; [exact H2|]. split; [done|].
  split_and!.
  - eapply refs_by_ext; [|apply (refs_by_upd ic0 ic1 _ ip e1 e2 Hrefs1 He1)].
    + intros k. simpl. unfold one_at. destruct (decide (k = ip)), (decide (k = q)); lia.
    + intros k. pose proof (one_at_nonneg ip k). pose proof (one_at_nonneg q k). lia.
    + by left.
  - unfold ic1. destruct (decide (ip = q)) as [<- |Hne].
    + apply list_lookup_insert_eq. rewrite length_insert. by eapply lookup_lt_Some.
    + rewrite list_lookup_insert_ne by done. apply list_lookup_insert_eq. by eapply lookup_lt_Some.
  - destruct (decide (ip = q)); [simpl; auto|done].
Qed.

(** One round of the loop, [ip] being a directory and the element found. *)
Lemma namex_enter devsw s C D ic0 ip e name nm :
  tview (lo s) C D ∅ -> sb s = sk -> alloc_ok sk C -> (size D < NBUF)%nat -> ic_ok C None (icache s) ->
  icache s !! ip = Some e -> refs_by ic0 (icache s) (one_at ip) -> 0 < i_ref e -> i_type (dnode C (i_inum e)) <> 0 ->
  bytes name -> nstr DIRSIZ name 0 = Some nm ->
  exists e1 l1, ilock me (Some ip) s = Ok (tt, set_ip ip e1 (set_lo l1 s)) /\ tview l1 C D ∅ /\
    ic_ok C (Some ip) (icache (set_ip ip e1 s)) /\ refs_by ic0 (icache (set_ip ip e1 s)) (one_at ip) /\
    i_ref e1 = i_ref e /\ i_inum e1 = i_inum e /\ i_type e1 = i_type (dnode C (i_inum e)) /\ i_nlink e1 = i_nlink (dnode C (i_inum e)) /\
    (dir_ok sk C (dnode C (i_inum e)) ->
     exists l2, tview l2 C D ∅ /\ dirlookup me devsw ip name (set_ip ip e1 (set_lo l1 s)) =
       match dir_lookup (fdata C (dnode C (i_inum e))) nm with
       | None => Ok (None, set_ip ip e1 (set_lo l2 s))
       | Some j => (let* t := iget 1 (de_inum (dent (fdata C (dnode C (i_inum e))) j)) in ret (Some (t, Z.of_nat j * DIRENT)))
           (set_ip ip e1 (set_lo l2 s))
       end).
Proof.
  intros T Hsb Ha Hroom Hic He Hrefs Hr Ht Hb Hnm.
  destruct (ilock_ok s C D ip e T Hsb Ha Hroom Hic He Hr Ht) as (e1 & l1 & H1 & T1 & Hic1 & En & Er & Ed & Ev & (Ct & Cn & Cs & Ca)).
  rewrite En in *. exists e1, l1. split; [done|]. split; [done|]. split; [done|]. split; [|split_and!; try done].
  - apply (refs_by_same ic0 _ _ ip e); [done|done|apply one_at_nonneg|done|done].
  - intros Hd. pose proof (dir_ok_copy C e1 _ Ct Cs Ca Hd) as Hd1.
    destruct (dirlookup_tx me L DK sk devsw (set_ip ip e1 (set_lo l1 s)) ip e1 C D name nm T1 Ha (set_ip_here ip e e1 (set_lo l1 s) He) Ed Hd1 Hroom Hb Hnm)
      as (l2 & T2 & H2). exists l2. split; [done|]. rewrite (fdata_copy C e1 _ Cs Ca) in H2. exact H2.
Qed.

(** ** The loop of [namex] *)

Section walk.

Context (devsw : Z -> devops) (parent : bool) (C : gmap Z block) (D : gset Z) (G : Z -> Prop) (ic0 : list inode).
Context (Ha : alloc_ok sk C) (Hroom : (size D < NBUF)%nat) (HG : closed C G) (Htwo : two_free ic0).
Context (Hpos : forall k f, ic0 !! k = Some f -> 0 <= i_ref f) (Hlen : length ic0 = NINODE).

(** The walk has come to [ip], whose entry is [e]. *)
Record at_inode (s : fsys) (ip : nat) (e : inode) : Prop := {
  at_view : tview (lo s) C D ∅;
  at_sb : sb s = sk;
  at_ic : ic_ok C None (icache s);
  at_refs : refs_by ic0 (icache s) (one_at ip);
  at_entry : icache s !! ip = Some e;
  at_good : G (i_inum e)
}.

Definition namex_post (s : fsys) (m : option Z) (res : result (option nat * list Z * fsys)) : Prop :=
  exists l' ic' r name', res = Ok ((r, name'), set_icache ic' (set_lo l' s)) /\
    tview l' C D ∅ /\ ic_ok C None ic' /\ outcome ic0 m r ic'.

Lemma at_ref s ip e : at_inode s ip e -> 0 < i_ref e.
Proof.
  intros [_ _ Hic Hrefs He _]. destruct (lookup_lt_is_Some_2 ic0 ip) as [e0 He0].
  { rewrite Hlen, <- (c_len _ _ _ Hic). by eapply lookup_lt_Some. }
  destruct (Hrefs ip e0 He0) as (e' & He' & Hre & _). rewrite He in He'. simplify_eq.
  unfold one_at in Hre. rewrite decide_True in Hre by done. specialize (Hpos ip e0 He0). lia.
Qed.

Lemma namex_done s ip e name :
  at_inode s ip e ->
  namex_post s (walk parent C (i_inum e) []) ((if parent then iput me ip ;;; ret (None, name) else ret (Some ip, name)) s).
Proof.
  intros At. pose proof (at_ref s ip e At) as Hr. destruct At as [T Hsb Hic Hrefs He Hg]. cbn [walk]. destruct parent.
  - destruct (iput_ok s C ip e Hic He Hr) as [H1 Hic1].
    { intros Hv. destruct (c_valid _ _ _ Hic ip e He Hr) as [?|[_ Hsy]]; [congruence|].
      destruct (synced_copy C e Hsy) as (_ & -> & _). by apply (g_nlink _ _ HG). }
    rewrite (bind_Ok _ _ _ _ _ H1). eexists (lo s), _, None, name. rewrite set_lo_id. split; [done|]. split; [done|]. split; [exact Hic1|].
    split; [done|]. eapply refs_by_ext; [|apply (refs_by_upd ic0 _ (one_at ip) ip e _ Hrefs He (one_at_nonneg ip)); by left].
    intros k. simpl. unfold one_at. destruct (decide (k = ip)); lia.
  - exists (lo s), (icache s), (Some ip), name. rewrite set_lo_id. split; [by destruct s|]. split; [done|]. split; [done|]. by exists ip, e.
Qed.

Lemma namex_post_lo s l m res : namex_post (set_lo l s) m res -> namex_post s m res.
Proof. intros (l' & ic' & r & name' & -> & H). by exists l', ic', r, name'. Qed.

Lemma namex_post_ic s ic m res : namex_post (set_icache ic s) m res -> namex_post s m res.
Proof. intros (l' & ic' & r & name' & -> & H). by exists l', ic', r, name'. Qed.

Lemma walk_cons n el es :
  walk parent C n (el :: es) =
  if i_type (dnode C n) =? T_DIR then
    if parent && bool_decide (es = []) then Some n
    else match dir_lookup (fdata C (dnode C n)) (take DIRSIZ el) with
         | Some k => walk parent C (de_inum (dent (fdata C (dnode C n)) k)) es
         | None => None
         end
  else None.
Proof. cbn [walk]. destruct (_ =? _); [|done]. destruct parent, es; done. Qed.

(** A round on the element [nm], with [k] the rest of the walk. *)
Lemma namex_round s ip e name nm el es c (k : nat -> M fsys (option nat * list Z)) :
  at_inode s ip e -> bytes name -> nstr DIRSIZ name 0 = Some nm -> nm = take DIRSIZ el -> (c = 0 <-> es = []) ->
  (forall s' q f, at_inode s' q f -> namex_post s' (walk parent C (i_inum f) es) (k q s')) ->
  namex_post s (walk parent C (i_inum e) (el :: es))
    ((ilock me (Some ip) ;;;
      let* i := get_inode ip in
      if negb (i_type i =? T_DIR) then iunlockput me ip ;;; ret (None, name)
      else
        let* c := lift (Ok c) in
        if parent && (c =? 0) then iunlock me (Some ip) ;;; ret (Some ip, name)
        else
          let* next := dirlookup me devsw ip name in
          match next with
          | None => iunlockput me ip ;;; ret (None, name)
          | Some (next, _) => iunlockput me ip ;;; k next
          end) s).
Proof.
  intros At Hnb Hnm -> Hc Hk. pose proof (at_ref s ip e At) as Hr. destruct At as [T Hsb Hic Hrefs He Hg].
  destruct (namex_enter devsw s C D ic0 ip e name _ T Hsb Ha Hroom Hic He Hrefs Hr (g_type _ _ HG _ Hg) Hnb Hnm)
    as (e1 & l1 & H1 & T1 & Hic1 & Hrefs1 & Er1 & En1 & Et1 & El1 & Hlook).
  rewrite (bind_Ok _ _ _ _ _ H1), walk_cons. pose proof (set_ip_here ip e e1 (set_lo l1 s) He) as He1.
  rewrite (bind_Ok _ _ _ _ _ (get_inode_ok _ _ _ He1)), Et1. set (s1 := set_ip ip e1 (set_lo l1 s)) in *.
  assert (Hnl1 : i_nlink e1 <> 0) by (rewrite El1; by apply (g_nlink _ _ HG)). assert (Hr1 : 0 < i_ref e1) by lia.
  destruct (Z.eqb_spec (i_type (dnode C (i_inum e))) T_DIR) as [Ed|Ed]; cbn [negb].
  2:{ destruct (drop_ref s1 C ic0 ip e1 Hic1 He1 Hr1 Hnl1 Hrefs1) as (ic' & H2 & Hic2 & Hrefs2). rewrite (bind_Ok _ _ _ _ _ H2).
      by exists l1, ic', None, name. }
  rewrite (bind_Ok (lift (Ok c)) _ s1 c s1 eq_refl).
  replace (bool_decide (es = [])) with (c =? 0) by (destruct (Z.eqb_spec c 0); symmetry; [apply bool_decide_eq_true|apply bool_decide_eq_false]; tauto).
  destruct (parent && (c =? 0)).
  { destruct (iunlock_ok s1 C ip e1 Hic1 He1 Hr1) as [H2 Hic2]. rewrite (bind_Ok _ _ _ _ _ H2).
    eexists l1, _, (Some ip), name. split; [done|]. split; [done|]. split; [exact Hic2|].
    eexists ip, _. split; [done|]. split; [|split; [by apply (set_ip_here ip e1)|done]].
    apply (refs_by_same ic0 _ _ ip e1); [done|done|apply one_at_nonneg|done|done]. }
  destruct (Hlook (g_dir _ _ HG _ Hg Ed)) as (l2 & T2 & H2). set (s2 := set_ip ip e1 (set_lo l2 s)) in *.
  destruct (dir_lookup (fdata C (dnode C (i_inum e))) (take DIRSIZ el)) as [j|] eqn:Ej.
  2:{ rewrite (bind_Ok _ _ _ _ _ H2).
      destruct (drop_ref s2 C ic0 ip e1 Hic1 He1 Hr1 Hnl1 Hrefs1) as (ic' & H3 & Hic3 & Hrefs3). rewrite (bind_Ok _ _ _ _ _ H3).
      by exists l2, ic', None, name. }
  destruct (dir_lookup_Some _ _ _ Ej) as [Hj Hj0]. pose proof (g_entry _ _ HG _ j Hg Ed Hj Hj0) as Hgn.
  destruct (next_ref s2 C ic0 ip e1 _ Hic1 He1 Hr1 Hnl1 Hrefs1 Htwo (g_range _ _ HG _ Hgn)) as (q & ic1 & ic2 & f & H3 & H4 & Hic4 & Hrefs4 & Hf & Hfn).
  rewrite (bind_Ok _ _ _ _ _ H3) in H2. rewrite (bind_Ok _ _ _ _ _ H2), (bind_Ok _ _ _ _ _ H4), <- Hfn.
  apply (namex_post_lo s l2), (namex_post_ic (set_lo l2 s) ic2). apply Hk. constructor; try done. by rewrite Hfn.
Qed.

Lemma strip_strip l : strip (strip l) = strip l.
Proof. induction l as [|c l IH]; cbn [strip]; [done|]. destruct (c =? slash) eqn:E; [done|]. cbn [strip]. by rewrite E. Qed.

Lemma path_elems_nil f r : (length (strip r) < f)%nat -> path_elems f (strip r) = [] <-> strip r = [].
Proof.
  destruct f as [|f]; [lia|]. intros _. cbn [path_elems]. rewrite strip_strip. destruct (strip r) as [|c l]; [done|].
  destruct (elem (c :: l)). split; done.
Qed.

Lemma namex_loop_ok fuel : forall s ip e a p l name,
  at_inode s ip e -> cstr a p l -> length name = DIRSIZ -> bytes name -> (length l < fuel)%nat ->
  namex_post s (walk parent C (i_inum e) (path_elems fuel l)) (namex_loop me devsw fuel ip a p parent name s).
Proof.
  induction fuel as [|fuel IH]; intros s ip e a p l name At Hl Hnl Hnb Hfuel; [lia|].
  cbn [namex_loop path_elems]. pose proof (skipelem_ok a p l name Hl Hnl) as Hsk. pose proof (elem_nonempty l) as Hne.
  pose proof (strip_length l) as Hsl. destruct (strip l) as [|c l'] eqn:Es.
  { rewrite (bind_Ok _ _ _ _ _ (lift_Ok _ s _ Hsk)). by apply namex_done. }
  destruct Hsk as (q & name1 & Hsk & Hq & Hn1 & Hnm & Hnb1). specialize (Hne c l' eq_refl). specialize (Hnb1 Hnb).
  pose proof (elem_length (c :: l')) as Hel. destruct (elem (c :: l')) as [el r] eqn:Eel. cbn [fst snd] in *.
  rewrite (bind_Ok _ _ _ _ _ (lift_Ok _ s _ Hsk)). pose proof (strip_length r) as Hsr.
  assert (Hrd : exists ch, rd a q = Ok ch /\ (ch = 0 <-> strip r = [])).
  { destruct (strip r) as [|x xs]; [exists 0; split; [by apply (cstr_nil _ _ _ Hq)|done]|].
    apply cstr_cons in Hq as (-> & Hx & _). exists x. split; [done|]. split; [lia|done]. }
  destruct Hrd as (ch & Hrd & Hch). rewrite Hrd.
  apply (namex_round s ip e name1 _ el _ ch (fun next => namex_loop me devsw fuel next a q parent name1) At Hnb1 Hnm eq_refl).
  - rewrite path_elems_nil by (simpl in *; lia). done.
  - intros s' q' f' At'. apply IH; try done. simpl in *. lia.
Qed.

End walk.

Lemma namex_ok devsw parent s C D G cwd e0 a p l name :
  tview (lo s) C D ∅ -> sb s = sk -> alloc_ok sk C -> (size D < NBUF)%nat -> closed C G -> ic_ok C None (icache s) -> two_free (icache s) ->
  icache s !! cwd = Some e0 -> 0 < i_ref e0 -> G (i_inum e0) -> G ROOTINO -> cstr a p l -> length name = DIRSIZ -> bytes name ->
  let start := match l with c :: _ => if c =? slash then ROOTINO else i_inum e0 | [] => i_inum e0 end in
  namex_post C D (icache s) s (walk parent C start (path_elems (S (length a)) l)) (namex me devsw cwd a p parent name s).
Proof.
  intros T Hsb Ha Hroom HG Hic Htwo Hcwd Hr0 Hg0 Hroot Hl Hnl Hnb start. unfold namex.
  assert (Hrd : exists ch, rd a p = Ok ch /\ start = if ch =? 47 then ROOTINO else i_inum e0).
  { unfold start. destruct l as [|x xs]; [exists 0; split; [by apply (cstr_nil _ _ _ Hl)|done]|].
    apply cstr_cons in Hl as (-> & Hx & _). by exists x. }
  destruct Hrd as (ch & Hrd & Hst). rewrite (bind_Ok _ _ _ _ _ (lift_Ok _ s _ Hrd)).
  assert (Hget : exists ip e, (if ch =? 47 then iget ROOTDEV ROOTINO else idup cwd) s = Ok (ip, set_ip ip e s) /\
    at_inode C D G (icache s) (set_ip ip e s) ip e /\ i_inum e = start).
  { rewrite Hst. destruct (ch =? 47).
    - destruct Htwo as (j & k & f & g & _ & Hj & _ & Hf & _).
      destruct (iget_ok s C None ROOTINO Hic (g_range _ _ HG _ Hroot)) as (ip & e & e' & H1 & He & Hic1 & Hn & Hr & Hs); [eauto|].
      exists ip, e'. split; [done|]. split; [|done]. constructor; try done; [|by apply (set_ip_here ip e)|by rewrite Hn].
      assert (Hz : refs_by (icache s) (icache s) (fun _ => 0)) by (intros k' f' Hf'; exists f'; split_and!; try done; lia).
      eapply refs_by_ext; [|apply (refs_by_upd _ _ _ ip e e' Hz He ltac:(lia))].
      + intros k'. simpl. unfold one_at. destruct (decide (k' = ip)); lia.
      + pose proof (c_ref _ _ _ Hic ip e He). destruct (decide (i_ref e = 0)); [by right|left]. destruct (Hs ltac:(lia)) as [-> _]. done.
    - exists cwd, (with_ref (i_ref e0 + 1) e0). unfold idup. rewrite (bind_Ok _ _ _ _ _ (upd_inode_ok s cwd e0 _ Hcwd)).
      split; [done|]. split; [|done]. constructor; try done; [| |by apply (set_ip_here cwd e0)].
      + apply (ic_upd C None None _ cwd e0); try done; try (simpl; lia).
        * exact (unlocked C _ cwd e0 Hic Hcwd).
        * intros _. split; [exact (c_num _ _ _ Hic cwd e0 Hcwd Hr0)|]. by apply valid_ref, (c_valid _ _ _ Hic cwd).
        * intros _ k' f' Hne Hf' Hrf Heq. apply Hne. by apply (c_uniq _ _ _ Hic k' cwd f' e0).
      + assert (Hz : refs_by (icache s) (icache s) (fun _ => 0)) by (intros k' f' Hf'; exists f'; split_and!; try done; lia).
        eapply refs_by_ext; [|apply (refs_by_upd _ _ _ cwd e0 (with_ref (i_ref e0 + 1) e0) Hz Hcwd ltac:(lia)); by left].
        intros k'. simpl. unfold one_at. destruct (decide (k' = cwd)); lia. }
  destruct Hget as (ip & e & H1 & At & Hn). rewrite (bind_Ok _ _ _ _ _ H1), <- Hn.
  pose proof (cstr_length _ _ _ Hl).
  apply (namex_post_ic C D (icache s) s (<[ip := e]> (icache s))).
  apply (namex_loop_ok devsw parent C D G (icache s)); try done; try lia.
  - exact (c_ref _ _ _ Hic).
  - exact (c_len _ _ _ Hic).
Qed.

End cache.
