(* ===== verification/FsTerm.v ===== *)
(** * Termination of the file system's loops

    The loops of [balloc], [readi], [writei], [dirlookup] and [dirlink] are
    modelled with fuel.  In
    every state whatsoever, well-formed or not, the fuel given suffices: the
    code returns, panics, faults or waits for a lock, but does not run on. *)

From S2P Require Import Prelude CString Block Sleeplock Bio Log Fs FsTx FsRw.

Definition total {S A} (c : M S A) : Prop := forall s, c s <> NoFuel.

Create HintDb total.

Lemma total_bind {S A B} (c : M S A) (k : A -> M S B) : total c -> (forall a, total (k a)) -> total (bind c k).
Proof. intros Hc Hk s. unfold bind. specialize (Hc s). destruct (c s) as [[a s']| | | |]; simpl; try done. apply Hk. Qed.

Lemma total_ret {S A} (a : A) : total (@ret S A a).
Proof. done. Qed.

Lemma total_zoom {S T A} (g : S -> T) (p : T -> S -> S) (c : M T A) : total c -> total (zoom g p c).
Proof. intros Hc s. unfold zoom. specialize (Hc (g s)). destruct (c (g s)) as [[a t]| | | |]; done. Qed.

Lemma total_panic {S A} m : total (@panic S A m).
Proof. done. Qed.

Lemma total_get {S} : total (@get S).
Proof. done. Qed.

Lemma total_gets {S A} (f : S -> A) : total (gets f).
Proof. done. Qed.

Lemma total_modify {S} (f : S -> S) : total (modify f).
Proof. done. Qed.

Lemma total_spin {S A} : total (fun _ : S => @Spin (A * S)).
Proof. done. Qed.

Lemma total_get_buf i : total (get_buf i).
Proof. intros s. unfold get_buf. by destruct (bufs s !! i). Qed.

Lemma total_upd_buf i f : total (upd_buf i f).
Proof. intros s. unfold upd_buf. by destruct (bufs s !! i). Qed.

Lemma total_put_block i v : total (put_block i v).
Proof. intros s. unfold put_block. by destruct (decide _). Qed.

Lemma total_get_inode ip : total (get_inode ip).
Proof. intros s. unfold get_inode. by destruct (icache s !! ip). Qed.

Lemma total_upd_inode ip f : total (upd_inode ip f).
Proof. intros s. unfold upd_inode. by destruct (icache s !! ip). Qed.

#[export] Hint Resolve total_ret total_panic total_get total_gets total_modify total_spin total_get_buf total_upd_buf
  total_put_block total_get_inode total_upd_inode total_zoom : total.

(** Through binds, conditionals and matches. *)
Ltac total_auto :=
  repeat first
    [ progress eauto with total
    | apply total_bind; [|intros ?]
    | match goal with |- total (if ?b then _ else _) => destruct b end
    | match goal with |- total (let '(_, _) := ?x in _) => destruct x end
    | match goal with |- total (match ?x with _ => _ end) => destruct x end
    | apply total_zoom ].

Section term.

Context (me : Z).

Lemma bread_total dev n : total (bread me dev n).
Proof. unfold bread, bget, lock_buf, iderw, holding_buf. total_auto. Qed.

Lemma brelse_total i : total (brelse me i).
Proof. unfold brelse, unlock_buf, holding_buf. total_auto. Qed.

Lemma log_write_total i : total (log_write i).
Proof. unfold log_write, blockno_of, on_bio, upd_lg. total_auto. Qed.

#[local] Hint Resolve bread_total brelse_total log_write_total : total.

Lemma bread__total dev n : total (bread_ me dev n).
Proof. unfold bread_, on_lo, on_bio. total_auto. Qed.

Lemma brelse__total i : total (brelse_ me i).
Proof. unfold brelse_, on_lo, on_bio. total_auto. Qed.

Lemma log_write__total i : total (log_write_ i).
Proof. unfold log_write_, on_lo. total_auto. Qed.

Lemma data__total i : total (data_ i).
Proof. unfold data_, data_of, on_lo, on_bio. total_auto. Qed.

Lemma set_data__total i d : total (set_data_ i d).
Proof. unfold set_data_, set_data, on_lo, on_bio. total_auto. Qed.

#[local] Hint Resolve bread__total brelse__total log_write__total data__total set_data__total : total.

Lemma bzero_total dev n : total (bzero me dev n).
Proof. unfold bzero. total_auto. Qed.

#[local] Hint Resolve bzero_total : total.

(** An operation of a lower layer leaves the superblock alone. *)
Lemma on_lo_sb {A} (c : M lst A) s a s' : on_lo c s = Ok (a, s') -> sb s' = sb s.
Proof. unfold on_lo, zoom. destruct (c (lo s)) as [[x l]| | | |]; simpl; intros; by simplify_eq. Qed.

Lemma balloc_loop_total fuel : forall dev b s,
  0 <= b -> sb_size (sb s) < b + Z.of_nat fuel * BPB -> balloc_loop me fuel dev b s <> NoFuel.
Proof.
  induction fuel as [|fuel IH]; intros dev b s Hb Hf; cbn [balloc_loop]; rewrite (bind_Ok (gets sb) _ s (sb s) s eq_refl);
    (destruct (Z.ltb_spec b (sb_size (sb s))) as [Hlt|Hge]; [|done]); [lia|].
  unfold bind at 1. pose proof (bread__total dev (BBLOCK b (sb s)) s) as H1. destruct (bread_ me dev (BBLOCK b (sb s)) s) as [[bp s1]| | | |] eqn:E1; try done.
  cbn [rbind]. unfold bind at 1. pose proof (data__total bp s1) as H2. destruct (data_ bp s1) as [[d s2]| | | |] eqn:E2; try done. cbn [rbind].
  destruct (balloc_scan _ 0 d) as [bi|]; [apply total_bind; [eauto with total|intros ?; total_auto]|].
  unfold bind. pose proof (brelse__total bp s2) as H3. destruct (brelse_ me bp s2) as [[u s3]| | | |] eqn:E3; try done. cbn [rbind].
  apply IH; [unfold BPB, BSIZE; lia|]. rewrite (on_lo_sb _ _ _ _ E3), (on_lo_sb _ _ _ _ E2), (on_lo_sb _ _ _ _ E1). unfold BPB, BSIZE in *. lia.
Qed.

Lemma balloc_total dev : total (balloc me dev).
Proof.
  intros s. unfold balloc. rewrite (bind_Ok (gets sb) _ s (sb s) s eq_refl). apply balloc_loop_total; [lia|].
  pose proof (Z.div_mod (sb_size (sb s)) BPB ltac:(done)). pose proof (Z.mod_pos_bound (sb_size (sb s)) BPB ltac:(done)).
  unfold BPB, BSIZE in *. lia.
Qed.

#[local] Hint Resolve balloc_total : total.

Lemma bmap_total ip bn : total (bmap me ip bn).
Proof. unfold bmap. total_auto. Qed.

(** Behind the last block there is no block. *)
Lemma bmap_range ip bn s a s' : 0 <= bn -> bmap me ip bn s = Ok (a, s') -> bn < MAXFILE.
Proof.
  intros Hb H. unfold bmap in H. apply bind_inv in H as (i & s1 & _ & H). destruct (Z.ltb_spec bn NDIRECT) as [?|?]; [by apply Z.lt_trans with NDIRECT|].
  destruct (Z.ltb_spec (bn - NDIRECT) NINDIRECT) as [?|?]; [unfold MAXFILE; lia|done].
Qed.

(** One round of the two loops, behind [bmap]. *)
Lemma rw_round {A} fuel ip off n tot s (k : inode -> Z -> M fsys A) :
  0 <= off -> tot < n -> (MAXFILE + 1 <= off / BSIZE + Z.of_nat (S fuel)) -> 
  (forall i a, off / BSIZE < MAXFILE -> (tot + chunk off n tot < n -> MAXFILE + 1 <= (off + chunk off n tot) / BSIZE + Z.of_nat fuel /\ (1 <= fuel)%nat) ->
    forall s', k i a s' <> NoFuel) ->
  (let* i := get_inode ip in let* addr := bmap me ip (off / BSIZE) in k i addr) s <> NoFuel.
Proof.
  intros Ho Hlt Hf Hk. unfold bind at 1. pose proof (total_get_inode ip s) as H1. destruct (get_inode ip s) as [[i s1]| | | |]; try done. cbn [rbind].
  unfold bind. pose proof (bmap_total ip (off / BSIZE) s1) as H2. destruct (bmap me ip (off / BSIZE) s1) as [[a s2]| | | |] eqn:E; try done. cbn [rbind].
  assert (Hb : off / BSIZE < MAXFILE) by (eapply bmap_range; [apply Z.div_pos; [lia|done]|exact E]).
  apply Hk; [done|]. intros Hn. destruct (chunk_next off n tot Ho Hlt) as [?|Hc]; [lia|]. lia.
Qed.

Lemma readi_loop_total fuel : forall ip off n tot dst s,
  0 <= off -> (tot < n -> MAXFILE + 1 <= off / BSIZE + Z.of_nat fuel /\ (1 <= fuel)%nat) -> readi_loop me fuel ip off n tot dst s <> NoFuel.
Proof.
  induction fuel as [|fuel IH]; intros ip off n tot dst s Ho Hf; cbn [readi_loop]; (destruct (Z.ltb_spec tot n) as [Hlt|?]; [|done]).
  { specialize (Hf Hlt). lia. }
  destruct (chunk_pos off n tot Hlt) as [Hc _]. apply (rw_round fuel ip off n tot s); [done|done|by apply Hf|].
  intros i a _ Hn. apply total_bind; [eauto with total|intros ?]. apply total_bind; [eauto with total|intros d].
  apply total_bind; [eauto with total|intros _]. intros s'. apply IH; [lia|exact Hn].
Qed.

Lemma writei_loop_total fuel : forall ip src off n tot s,
  0 <= off -> (tot < n -> MAXFILE + 1 <= off / BSIZE + Z.of_nat fuel /\ (1 <= fuel)%nat) -> writei_loop me fuel ip src off n tot s <> NoFuel.
Proof.
  induction fuel as [|fuel IH]; intros ip src off n tot s Ho Hf; cbn [writei_loop]; (destruct (Z.ltb_spec tot n) as [Hlt|?]; [|done]).
  { specialize (Hf Hlt). lia. }
  destruct (chunk_pos off n tot Hlt) as [Hc _]. apply (rw_round fuel ip off n tot s); [done|done|by apply Hf|].
  intros i a _ Hn. do 5 (apply total_bind; [eauto with total|intros ?]). intros s'. apply IH; [lia|exact Hn].
Qed.

Lemma iupdate_total ip : total (iupdate me ip).
Proof. unfold iupdate. total_auto. Qed.

#[local] Hint Resolve iupdate_total : total.
(** ** Directories *)

Lemma bfree_total dev b : total (bfree me dev b).
Proof. unfold bfree. total_auto. Qed.

Lemma lift_total {S A} (r : result A) : r <> NoFuel -> total (@lift S A r).
Proof. intros Hr s. by destruct r. Qed.

#[local] Hint Resolve bfree_total lift_total : total.

Lemma itrunc_direct_total n : forall ip k, total (itrunc_direct me n ip k).
Proof. induction n as [|n IH]; intros ip k; cbn [itrunc_direct]; total_auto. Qed.

Lemma itrunc_indirect_total n : forall dev bp j, total (itrunc_indirect me n dev bp j).
Proof. induction n as [|n IH]; intros dev bp j; cbn [itrunc_indirect]; total_auto. Qed.

#[local] Hint Resolve itrunc_direct_total itrunc_indirect_total : total.

Lemma iput_total ip : total (iput me ip).
Proof. unfold iput, itrunc, lock_inode, unlock_inode. total_auto. Qed.

Lemma iget_total dev inum : total (iget dev inum).
Proof. unfold iget. total_auto. Qed.

Lemma strncmp_total n : forall a p b q, KString.strncmp a p b q n <> NoFuel.
Proof.
  induction n as [|n IH]; intros a p b q; cbn [KString.strncmp]; [done|]. unfold rd.
  destruct (a !! p) as [x|]; [|done]. cbn [rbind]. destruct (b !! q) as [y|]; cbn [rbind]; [|by destruct (x =? 0)].
  destruct (x =? 0); [done|]. by destruct (x =? y).
Qed.

Lemma wr_total a i v : wr a i v <> NoFuel.
Proof. unfold wr. by destruct (decide _). Qed.

Lemma zero_fill_total n : forall a s, KString.zero_fill n a s <> NoFuel.
Proof.
  induction n as [|n IH]; intros a s; cbn [KString.zero_fill]; [done|]. pose proof (wr_total a s 0). by destruct (wr a s 0); try done; cbn [rbind].
Qed.

Lemma strncpy_total a s b t n : KString.strncpy a s b t n <> NoFuel.
Proof.
  unfold KString.strncpy. revert a s t. induction (Z.to_nat n) as [|m IH]; intros a s t; cbn [KString.strncpy_loop]; [done|]. unfold rd.
  destruct (b !! t) as [v|]; [|done]. cbn [rbind]. pose proof (wr_total a s v). destruct (wr a s v); try done. cbn [rbind]. destruct (v =? 0); [apply zero_fill_total|done].
Qed.

#[local] Hint Resolve iput_total iget_total : total.

(** The inode [ip] is a directory of [n] bytes; operations that leave it one. *)
Definition dir_of (ip : nat) (n : Z) (s : fsys) : Prop := exists i, icache s !! ip = Some i /\ i_type i = T_DIR /\ i_size i = n.
Definition stays {A} (ip : nat) (c : M fsys A) : Prop := forall n s a s', dir_of ip n s -> c s = Ok (a, s') -> dir_of ip n s'.

Lemma stays_bind {A B} ip (c : M fsys A) (k : A -> M fsys B) : stays ip c -> (forall a, stays ip (k a)) -> stays ip (bind c k).
Proof. intros Hc Hk n s b s' Hd H. apply bind_inv in H as (a & s1 & H1 & H2). eapply Hk; [|exact H2]. by eapply Hc. Qed.

Lemma stays_ret {A} ip (a : A) : stays ip (ret a).
Proof. intros n s b s' Hd [= _ <-]. done. Qed.

Lemma stays_gets {A} ip (f : fsys -> A) : stays ip (gets f).
Proof. intros n s b s' Hd [= _ <-]. done. Qed.

Lemma stays_panic {A} ip m : stays ip (@panic _ A m).
Proof. done. Qed.

Lemma stays_nofuel {A} ip : stays ip (@nofuel _ A).
Proof. done. Qed.

Lemma stays_on_lo {A} ip (c : M lst A) : stays ip (on_lo c).
Proof. intros n s b s' Hd H. unfold on_lo, zoom in H. destruct (c (lo s)) as [[x l]| | | |]; simplify_eq/=. done. Qed.

Lemma stays_get_inode ip jp : stays ip (get_inode jp).
Proof. intros n s b s' Hd H. unfold get_inode in H. destruct (icache s !! jp); simplify_eq/=. done. Qed.

Lemma stays_upd_inode ip jp f : (forall i, i_type (f i) = i_type i /\ i_size (f i) = i_size i) -> stays ip (upd_inode jp f).
Proof.
  intros Hf n s b s' (i & Hi & Ht & Hs) H. unfold upd_inode in H. destruct (icache s !! jp) as [j|] eqn:Ej; [|done]. injection H as _ <-.
  destruct (decide (ip = jp)) as [-> |Hne].
  - exists (f i). rewrite Ej in Hi. injection Hi as ->. simpl. rewrite list_lookup_insert_eq by (by eapply lookup_lt_Some). destruct (Hf i) as [-> ->]. done.
  - exists i. simpl. by rewrite list_lookup_insert_ne.
Qed.

#[local] Hint Resolve stays_ret stays_gets stays_panic stays_nofuel stays_on_lo stays_get_inode : total.

Ltac stays_auto :=
  repeat first
    [ progress eauto with total
    | apply stays_bind; [|intros ?]
    | apply stays_upd_inode; by intros []
    | match goal with |- stays _ (if ?b then _ else _) => destruct b end
    | match goal with |- stays _ (match ?x with _ => _ end) => destruct x end ].

Lemma bzero_stays ip dev n : stays ip (bzero me dev n).
Proof. unfold bzero, bread_, set_data_, log_write_, brelse_. stays_auto. Qed.

#[local] Hint Resolve bzero_stays : total.

Lemma balloc_loop_stays ip fuel : forall dev b, stays ip (balloc_loop me fuel dev b).
Proof. induction fuel as [|fuel IH]; intros dev b; cbn [balloc_loop]; unfold bread_, data_, set_data_, log_write_, brelse_; stays_auto. Qed.

Lemma balloc_stays ip dev : stays ip (balloc me dev).
Proof. unfold balloc. apply stays_bind; [eauto with total|intros ?]. apply balloc_loop_stays. Qed.

#[local] Hint Resolve balloc_stays : total.

Lemma bmap_stays ip jp bn : stays ip (bmap me jp bn).
Proof. unfold bmap, bread_, data_, set_data_, log_write_, brelse_. stays_auto. Qed.

#[local] Hint Resolve bmap_stays : total.

Lemma readi_loop_stays ip fuel : forall jp off n tot dst, stays ip (readi_loop me fuel jp off n tot dst).
Proof. induction fuel as [|fuel IH]; intros jp off n tot dst; cbn [readi_loop]; unfold bread_, data_, brelse_; stays_auto. Qed.

(** Devices whose routines return. *)
Context (devsw : Z -> devops).

Hypothesis Hread : forall m f, d_read (devsw m) = Some f -> forall jp k, total (f jp k).
Hypothesis Hwrite : forall m f, d_write (devsw m) = Some f -> forall jp l k, total (f jp l k).

Lemma rw_fuel_enough off : 0 <= off -> MAXFILE + 1 <= off / BSIZE + Z.of_nat rw_fuel /\ (1 <= rw_fuel)%nat.
Proof.
  intros Ho. pose proof (Z.div_pos off BSIZE Ho ltac:(done)). change (Z.of_nat rw_fuel) with 141. change MAXFILE with 140. split; [lia|unfold rw_fuel; lia].
Qed.

Lemma readi_total ip off n : 0 <= off -> total (readi me devsw ip off n).
Proof.
  intros Ho. unfold readi. apply total_bind; [eauto with total|intros i]. destruct (i_type i =? T_DEV).
  { destruct (_ || _); [done|]. destruct (d_read (devsw (i_major i))) eqn:E; [by eapply Hread|done]. }
  destruct (_ || _); [done|]. apply total_bind; [|intros; done]. intros s'. apply readi_loop_total; [done|intros _; by apply rw_fuel_enough].
Qed.

Lemma writei_total ip src off n : 0 <= off -> total (writei me devsw ip src off n).
Proof.
  intros Ho. unfold writei. apply total_bind; [eauto with total|intros i]. destruct (i_type i =? T_DEV).
  { destruct (_ || _); [done|]. destruct (d_write (devsw (i_major i))) eqn:E; [by eapply Hwrite|done]. }
  destruct (_ || _); [done|]. destruct (_ <? _); [done|]. apply total_bind; [|intros; total_auto].
  intros s'. apply writei_loop_total; [done|intros _; by apply rw_fuel_enough].
Qed.

(** Reading a directory leaves it one. *)
Lemma readi_stays ip off n : stays ip (readi me devsw ip off n).
Proof.
  intros m s a s' Hd H. pose proof Hd as (i & Hi & Ht & _). unfold readi in H. rewrite (bind_Ok (get_inode ip) _ s i s) in H by (unfold get_inode; by rewrite Hi).
  rewrite Ht in H. change (T_DIR =? T_DEV) with false in H. cbn iota in H. destruct (_ || _); [by injection H as _ <-|].
  apply bind_inv in H as (dst & s1 & H1 & [= _ <-]). by eapply readi_loop_stays.
Qed.

(** The entries are read one after the other, the size does not change. *)
Lemma dirlookup_loop_ends fuel : forall ip name off m s, 0 <= off -> dir_of ip m s -> m <= off + DIRENT * Z.of_nat fuel ->
  dirlookup_loop me devsw fuel ip name off s <> NoFuel /\
  forall s', dirlookup_loop me devsw fuel ip name off s = Ok (None, s') -> dir_of ip m s'.
Proof.
  induction fuel as [|fuel IH]; intros ip name off m s Ho Hd Hm; pose proof Hd as (i & Hi & _ & Hs); cbn [dirlookup_loop];
    rewrite (bind_Ok (get_inode ip) _ s i s) by (unfold get_inode; by rewrite Hi); rewrite Hs; (destruct (Z.ltb_spec off m) as [Hlt|Hge]; [|split; [done|by intros s' [= <-]]]).
  { unfold DIRENT in Hm. lia. }
  unfold bind. pose proof (readi_total ip off DIRENT Ho s) as H1. destruct (readi me devsw ip off DIRENT s) as [[r s1]| | | |] eqn:E; cbn [rbind]; try done.
  assert (Hd1 : dir_of ip m s1) by (by eapply readi_stays). destruct (negb _); [done|].
  assert (IH1 := IH ip name (off + DIRENT) m s1 ltac:(unfold DIRENT; lia) Hd1 ltac:(unfold DIRENT in *; lia)). destruct (_ =? 0); [exact IH1|].
  unfold lift, namecmp. pose proof (strncmp_total DIRSIZ name 0 (de_name (snd r)) 0) as H2. destruct (KString.strncmp _ _ _ _ _) as [c| | | |]; try done. cbn [rbind].
  destruct (c =? 0); [|exact IH1]. pose proof (iget_total (i_dev i) (de_inum (snd r)) s1) as H3. destruct (iget _ _ s1) as [[jp s2]| | | |]; done.
Qed.

Lemma entries_fuel m : m <= DIRENT * Z.of_nat (S (Z.to_nat (m / DIRENT))).
Proof. unfold DIRENT. Z.to_euclidean_division_equations. lia. Qed.

Lemma dirlookup_ends ip name s :
  dirlookup me devsw ip name s <> NoFuel /\ forall s', dirlookup me devsw ip name s = Ok (None, s') -> exists m, dir_of ip m s'.
Proof.
  unfold dirlookup, bind, get_inode. destruct (icache s !! ip) as [i|] eqn:Ei; [|done]. cbn [rbind]. destruct (Z.eqb_spec (i_type i) T_DIR) as [Ht|]; [|done]. cbn [negb].
  destruct (dirlookup_loop_ends (S (Z.to_nat (i_size i / DIRENT))) ip name 0 (i_size i) s) as [H1 H2]; [lia|by exists i|pose proof (entries_fuel (i_size i)); lia|].
  split; [done|]. intros s' H. exists (i_size i). by apply H2.
Qed.

Lemma dirlink_loop_ends fuel : forall ip off de m s, 0 <= off -> dir_of ip m s -> m <= off + DIRENT * Z.of_nat fuel ->
  dirlink_loop me devsw fuel ip off de s <> NoFuel /\ forall r s', dirlink_loop me devsw fuel ip off de s = Ok (r, s') -> 0 <= fst r.
Proof.
  induction fuel as [|fuel IH]; intros ip off de m s Ho Hd Hm; pose proof Hd as (i & Hi & _ & Hs); cbn [dirlink_loop];
    rewrite (bind_Ok (get_inode ip) _ s i s) by (unfold get_inode; by rewrite Hi); rewrite Hs; (destruct (Z.ltb_spec off m) as [Hlt|Hge]; [|split; [done|by intros r s' [= <- <-]]]).
  { unfold DIRENT in Hm. lia. }
  unfold bind. pose proof (readi_total ip off DIRENT Ho s) as H1. destruct (readi me devsw ip off DIRENT s) as [[r s1]| | | |] eqn:E; cbn [rbind]; try done.
  assert (Hd1 : dir_of ip m s1) by (by eapply readi_stays). destruct (negb _); [done|]. destruct (_ =? 0); [split; [done|by intros r' s' [= <- <-]]|].
  apply (IH ip (off + DIRENT) (snd r) m s1); [unfold DIRENT; lia|done|unfold DIRENT in *; lia].
Qed.

Lemma dirlink_total ip name inum : total (dirlink me devsw ip name inum).
Proof.
  intros s. unfold dirlink. unfold bind at 1. destruct (dirlookup_ends ip name s) as [H1 H2]. destruct (dirlookup me devsw ip name s) as [[r s1]| | | |]; try done. cbn [rbind].
  destruct r as [[jp o]|]; [by apply total_bind; [eauto with total|]|]. destruct (H2 s1 eq_refl) as (m & Hd). pose proof Hd as (i & Hi & _ & Hs).
  rewrite (bind_Ok (get_inode ip) _ s1 i s1) by (unfold get_inode; by rewrite Hi). unfold bind at 1. rewrite Hs.
  destruct (dirlink_loop_ends (S (Z.to_nat (m / DIRENT))) ip 0 (replicate (Z.to_nat DIRENT) 0) m s1) as [H3 H4]; [lia|done|pose proof (entries_fuel m); lia|].
  destruct (dirlink_loop _ _ _ _ _ _ s1) as [[[off de] s2]| | | |]; try done. cbn [rbind]. specialize (H4 _ _ eq_refl). simpl in H4.
  apply total_bind; [apply lift_total, strncpy_total|intros de']. apply total_bind; [by apply writei_total|intros w]. by destruct (negb _).
Qed.

(** C26: in any state of the file system, also one that a
    corrupted disk image gives, [readi], [writei], [bmap], [balloc],
    [dirlookup] and [dirlink] come to an end, for all arguments that the types
    of the code allow (an offset is not negative), if the routines of the
    devices do: a file has at most [MAXFILE] blocks and a loop that has passed
    them all stops in [bmap]'s panic, and the size of a directory does not
    change while its entries are read. *)
Theorem rw_terminates ip off n bn src name inum dev s :
  0 <= off ->
  readi me devsw ip off n s <> NoFuel /\ writei me devsw ip src off n s <> NoFuel /\ bmap me ip bn s <> NoFuel /\ balloc me dev s <> NoFuel /\
  dirlookup me devsw ip name s <> NoFuel /\ dirlink me devsw ip name inum s <> NoFuel.
Proof.
  intros Ho. split_and!; [by apply readi_total|by apply writei_total|apply bmap_total|apply balloc_total|apply dirlookup_ends|apply dirlink_total].
Qed.


End term.
