(* ===== verification/FsProps.v ===== *)
(** * Properties of the file system

    The theorems about [fs.c], and a small file system on which they are
    applied. *)

From S2P Require Import Prelude Block Sleeplock Bio Log CString Fs FsTx FsAlloc FsFile FsRw FsInode FsDir FsPath.

Lemma union_size_le (X Y : gset Z) : (size (X ∪ Y) <= size X + size Y)%nat.
Proof. rewrite size_union_alt. assert (size (Y ∖ X) <= size Y)%nat by (apply subseteq_size; set_solver). lia. Qed.

Lemma ind_size (X : gset Z) i : (size (X ∪ indset i) + credit i <= size X + 1)%nat.
Proof.
  unfold indset, credit. destruct (decide _); [rewrite union_empty_r_L; lia|].
  rewrite union_comm_L. pose proof (size_add X (addr_of i NDIRECT)). lia.
Qed.

Section props.

Context (me : Z) (L : log) (DK : bst) (sk : superblock) (devsw : Z -> devops).

(** Inside a transaction, no buffer held: the blocks have content [C], those
    in [D] are in the log. *)
Record in_tx (s : fsys) (C : gmap Z block) (D : gset Z) : Prop := {
  x_view : tview me L DK (lo s) C D ∅;
  x_sb : sb s = sk;
  x_alloc : alloc_ok sk C
}.

(** Entry [ip] of the cache is a file in use, read from disk. *)
Record open_inode (s : fsys) (C : gmap Z block) (ip : nat) (i : inode) : Prop := {
  o_entry : icache s !! ip = Some i;
  o_num : inum_ok sk i;
  o_file : file_ok sk C i;
  o_fields : fields_ok i;
  o_valid : i_valid i = 1;
  o_sync : synced sk C i
}.

Lemma cap_room (D : gset Z) : Z.of_nat (size D) <= log_cap L -> (size D < NBUF)%nat.
Proof. pose proof (log_cap_le L). unfold LOGSIZE, MAXOPBLOCKS, NBUF in *. lia. Qed.

(** C21: a file is an array of bytes.  [writei] puts its
    bytes at the offset, extending the file if it must, allocating the blocks
    it needs and no others, and keeps the inode on disk the same as the one in
    the cache; every later [readi] returns the bytes of the new array; files
    that share no block with this one keep their content. *)
Theorem file_is_byte_array s C D ip i off src :
  let n := Z.of_nat (length src) in
  in_tx s C D -> open_inode s C ip i -> i_type i <> T_DEV -> bytes src -> 0 <= off <= i_size i -> off + n <= MAXFILE * BSIZE ->
  Z.of_nat (size (D ∪ bitmaps sk ∪ indset i) + credit i) + spans off n + 1 <= log_cap L ->
  Z.of_nat (credit i) + spans off n <= Z.of_nat (length (free_list sk C)) ->
  exists s1 C1 D1 i1, writei me devsw ip src off n s = Ok (n, s1) /\ in_tx s1 C1 D1 /\ open_inode s1 C1 ip i1 /\
    i_size i1 = Z.max (i_size i) (off + n) /\ fdata C1 i1 = splice (Z.to_nat off) src (fdata C i) /\
    (forall off' n', 0 <= off' <= i_size i1 -> 0 <= n' -> off' + n' < 2 ^ 32 ->
      exists s2, readi me devsw ip off' n' s1 =
        Ok ((Z.min n' (i_size i1 - off'), take (Z.to_nat n') (drop (Z.to_nat off') (splice (Z.to_nat off) src (fdata C i)))), s2) /\
        in_tx s2 C1 D1 /\ icache s2 = icache s1) /\
    (forall j, file_ok sk C j -> apart C i j -> file_ok sk C1 j /\ fdata C1 j = fdata C j /\ apart C1 i1 j).
Proof.
  intros n [T Hsb Ha] [Hi Hn Hf Hfl Hv Hsy] Ht Hb Ho Hle Hcap Hfr.
  destruct (writei_tx me L DK sk devsw s ip i C D off src n T Hsb Ha Hi Hn Hf Hfl Hv Ht Hb eq_refl Ho Hle Hcap Hfr)
    as (i1 & l1 & C1 & D1 & H1 & T1 & W & Hlog).
  pose proof (wf_inode _ _ _ _ _ _ _ W) as Hm. set (s1 := set_ip ip i1 (set_lo l1 s)) in *.
  assert (Hi1 : icache s1 !! ip = Some i1) by (by apply (set_ip_here ip i)).
  assert (Hx : in_tx s1 C1 D1) by (constructor; [done|done|exact (wf_alloc _ _ _ _ _ _ _ W)]).
  assert (Hnum : inum_ok sk i1) by (rewrite Hm; exact Hn).
  exists s1, C1, D1, i1. split; [done|]. split; [done|]. split_and!.
  - constructor; [done|done|exact (wf_file _ _ _ _ _ _ _ W)| | |exact (wf_synced _ _ _ _ _ _ _ W Hsy)]; rewrite Hm; [by destruct Hfl|done].
  - by rewrite Hm.
  - exact (wf_data _ _ _ _ _ _ _ W).
  - intros off' n' Ho' Hn' Hov.
    destruct (readi_tx me L DK sk devsw s1 ip i1 C1 D1 off' n' T1) as (l2 & H2 & T2); try done.
    + exact (wf_alloc _ _ _ _ _ _ _ W).
    + exact (proj1 Hnum).
    + exact (wf_file _ _ _ _ _ _ _ W).
    + apply cap_room. lia.
    + by rewrite Hm.
    + exists (set_lo l2 s1). rewrite H2, (wf_data _ _ _ _ _ _ _ W). split; [done|]. split; [|done].
      constructor; [done|done|exact (wf_alloc _ _ _ _ _ _ _ W)].
  - exact (wf_others _ _ _ _ _ _ _ W).
Qed.

(** An offset beyond the end of the file, a length
    that wraps around, and a write beyond the largest file are refused with -1
    and change nothing; a length that reaches beyond the end is cut. *)
Theorem rw_rejects_bad_offsets s ip i off n src :
  icache s !! ip = Some i -> i_type i <> T_DEV ->
  ((i_size i < off \/ u32 (off + n) < off) -> readi me devsw ip off n s = Ok ((-1, []), s) /\ writei me devsw ip src off n s = Ok (-1, s)) /\
  (MAXFILE * BSIZE < u32 (off + n) -> writei me devsw ip src off n s = Ok (-1, s)).
Proof.
  intros Hi Ht. apply Z.eqb_neq in Ht. unfold readi, writei. rewrite !(bind_Ok _ _ _ _ _ (get_inode_ok _ _ _ Hi)), Ht.
  assert (Hor : (i_size i < off \/ u32 (off + n) < off) -> (i_size i <? off) || (u32 (off + n) <? off) = true).
  { intros H. apply orb_true_iff. rewrite !Z.ltb_lt. done. }
  split.
  - intros H. by rewrite (Hor H).
  - intros H. apply Z.ltb_lt in H. rewrite H. by destruct (_ || _).
Qed.

(** C24: [balloc] takes the first block of the free list, marks
    it used and fills it with zeros; [bfree] puts a block back; both panic when
    there is nothing to take or to free. *)
Theorem block_allocator s C D :
  in_tx s C D -> Z.of_nat (size (D ∪ bitmaps sk)) < log_cap L ->
  match free_list sk C with
  | [] => balloc me 1 s = Panic "balloc: out of blocks"
  | b :: r => exists s' C' D', balloc me 1 s = Ok (b, s') /\ in_tx s' C' D' /\ icache s' = icache s /\
      free_list sk C' = r /\ C' !! b = Some (replicate (Z.to_nat BSIZE) 0) /\
      (forall x, x <> b -> x ∉ bitmaps sk -> C' !! x = C !! x)
  end /\
  (forall b, datastart sk <= b < sb_size sk ->
    if free_bit sk C b then bfree me 1 b s = Panic "freeing free block"
    else exists s' C' D', bfree me 1 b s = Ok (tt, s') /\ in_tx s' C' D' /\ icache s' = icache s /\
      (forall x, x ∈ free_list sk C' <-> x = b \/ x ∈ free_list sk C) /\ (forall x, x ∉ bitmaps sk -> C' !! x = C !! x)).
Proof.
  intros [T Hsb Ha] Hcap. pose proof (size_sub_l D (bitmaps sk)) as Hsz. pose proof (held_none sk C) as Hh.
  pose proof (datastart_le sk (a_layout _ _ Ha)) as Hds. split.
  - destruct (free_list sk C) as [|b r] eqn:Efl; [apply (balloc_full me L DK sk s C D ∅); try done; lia|].
    destruct (balloc_tx me L DK sk s C D ∅ b r T Hsb Ha Hh (bitmap_room sk L D C b r Ha Efl Hcap) Efl)
      as (l1 & d & HC & Hd & Hr & T1 & Hb & Hfb & Hfl & Ha1 & _).
    eexists (set_lo l1 s), _, _. split; [done|]. split; [by constructor|]. split; [done|]. split; [done|]. unfold taken.
    split; [by rewrite lookup_insert_eq|]. intros x Hx Hnb. rewrite !lookup_insert_ne; [done| |done].
    intros <-. apply Hnb. apply in_bitmaps; [exact (a_layout _ _ Ha)|lia].
  - intros b Hb. destruct (free_bit sk C b) eqn:Ef; [apply (bfree_free me L DK sk s C D ∅); try done; lia|].
    destruct (bfree_tx me L DK sk s C D ∅ b T Hsb Ha Hh ltac:(lia) Hb Ef) as (l1 & d & HC & Hd & Hr & T1 & Ha1 & Hbits & _).
    eexists (set_lo l1 s), _, _. split; [done|]. split; [by constructor|]. split; [done|]. split.
    + intros x. rewrite !elem_free. split.
      * intros [Hx Hfx]. rewrite Hbits in Hfx by done. apply orb_true_iff in Hfx as [?|?%bool_decide_eq_true]; [by right|by left].
      * intros [-> |[Hx Hfx]]; (split; [lia|]); rewrite Hbits by lia; apply orb_true_iff; [right; by apply bool_decide_eq_true|by left].
    + intros x Hnb. unfold freed. rewrite lookup_insert_ne; [done|]. intros <-. apply Hnb. apply in_bitmaps; [exact (a_layout _ _ Ha)|lia].
Qed.

(** What [iupdate] writes, [ilock] reads back.  After
    [iupdate] of an inode, [ilock] of an entry for that inode number that has
    not been read yet fills in exactly its type, device numbers, link count,
    size and addresses; the other inodes on disk, those of the same block
    included, are unchanged. *)
Theorem inode_disk_roundtrip s C D ip i :
  in_tx s C D -> icache s !! ip = Some i -> inum_ok sk i -> inode_ok i -> i_valid i = 1 -> i_type i <> 0 ->
  Z.of_nat (size D) < log_cap L ->
  exists s1 C1 D1, iupdate me ip s = Ok (tt, s1) /\ in_tx s1 C1 D1 /\ icache s1 = icache s /\
    (forall n, 0 <= n < sb_ninodes sk -> n <> i_inum i -> dnode sk C1 n = dnode sk C n) /\
    (forall s' D' jp j, in_tx s' C1 D' -> (size D' < NBUF)%nat -> icache s' !! jp = Some j ->
      i_dev j = 1 -> i_inum j = i_inum i -> 0 < i_ref j -> i_lock j = Sleeplock 0 0 -> i_valid j = 0 ->
      exists s2, ilock me (Some jp) s' = Ok (tt, s2) /\ in_tx s2 C1 D' /\
        icache s2 !! jp = Some (Inode 1 (i_inum i) (i_ref j) (Sleeplock 1 me) 1 (i_type i) (i_major i) (i_minor i) (i_nlink i) (i_size i) (i_addrs i))).
Proof.
  intros [T Hsb Ha] Hi Hn Hok Hv Ht Hcap.
  destruct (iupdate_tx me L DK sk s ip i C D T Hsb Ha Hi Hn Hok Hv Hcap) as (l1 & v & H1 & Hbv & T1 & _ & d & Hd & Hdb & ->).
  destruct (IBLOCK_eq sk (i_inum i) (a_layout _ _ Ha) (proj2 Hn)) as [_ Hib].
  destruct (fixed_write sk C (IBLOCK (i_inum i) sk) _ Ha Hbv ltac:(lia)) as (Ha1 & _).
  eexists (set_lo l1 s), _, _. split; [done|]. split; [by constructor|]. split; [done|]. split.
  - intros n Hnr Hne. unfold dnode. destruct (decide (IBLOCK n sk = IBLOCK (i_inum i) sk)) as [E|E].
    + rewrite E, lookup_insert_eq, Hd. apply load_put_other; [by apply islot_fit|done|]. unfold islot. intros Hs. apply Hne.
      destruct (IBLOCK_eq sk n (a_layout _ _ Ha) Hnr) as [E1 _]. destruct (IBLOCK_eq sk (i_inum i) (a_layout _ _ Ha) (proj2 Hn)) as [E2 _].
      pose proof (Z.div_mod n IPB ltac:(done)). pose proof (Z.div_mod (i_inum i) IPB ltac:(done)).
      pose proof (Z.mod_pos_bound n IPB ltac:(done)). pose proof (Z.mod_pos_bound (i_inum i) IPB ltac:(done)). change IPB with 8 in *. lia.
    + by rewrite lookup_insert_ne by congruence.
  - intros s' D' jp j [T' Hsb' _] Hroom Hj Hdev Hnum Hr Hl Hval. set (d1 := put_dinode (islot i) i d) in *.
    assert (Hs : islot j = islot i) by (unfold islot; by rewrite Hnum).
    pose proof (load_put_dinode (islot i) i d (islot_fit i d Hdb) Hok (with_ilock (Sleeplock 1 me) j)) as Hld. fold d1 in Hld.
    destruct (ilock_unread me L DK sk s' _ D' jp j d1 T' Hsb' Hroom Hj Hdev Hr Hl Hval) as (l2 & H2 & T2).
    + rewrite Hnum. apply lookup_insert_eq.
    + rewrite Hs. apply (f_equal i_type) in Hld. simpl in Hld. congruence.
    + rewrite Hs, Hld in H2. eexists. split; [exact H2|]. split; [by constructor|].
      rewrite (set_ip_here jp j) by done. simpl. by rewrite Hdev, Hnum.
Qed.

(** Adding a name that is not there. *)
Lemma dirlink_adds s C D ip i a name inum :
  in_tx s C D -> open_inode s C ip i -> dir_ok sk C i -> bytes a -> nstr DIRSIZ a 0 = Some name -> 0 < inum < 2 ^ 16 ->
  i_size i + DIRENT <= MAXFILE * BSIZE ->
  Z.of_nat (size (D ∪ bitmaps sk ∪ indset i) + credit i) + 2 <= log_cap L -> (credit i + 1 <= length (free_list sk C))%nat ->
  dir_lookup (fdata C i) name = None ->
  exists s1 C1 D1 i1, dirlink me devsw ip a inum s = Ok (0, s1) /\ in_tx s1 C1 D1 /\ open_inode s1 C1 ip i1 /\ dir_ok sk C1 i1 /\
    (exists k l2, dir_lookup (fdata C1 i1) name = Some k /\ de_inum (dent (fdata C1 i1) k) = inum /\
      dirlookup me devsw ip a s1 = (let* t := iget 1 inum in ret (Some (t, Z.of_nat k * DIRENT))) (set_lo l2 s1)) /\
    (forall name', name' <> name -> dir_lookup (fdata C1 i1) name' = dir_lookup (fdata C i) name') /\
    (forall k, (forall name', dir_lookup (fdata C i) name' = Some k -> dent (fdata C1 i1) k = dent (fdata C i) k)).
Proof.
  intros [T Hsb Ha] [Hi Hn Hf Hfl Hv Hsy] Hd Hb Hnm Hinum Hsize Hcap Hfr Hnone.
  pose proof (dir_entries sk C i Hd) as He. pose proof (f_size _ _ _ Hf) as Hsz.
  destruct (dir_slot_spec (entries (fdata C i)) 0 (fdata C i)) as [Hslot Hfree].
  destruct (dirlink_tx me L DK sk devsw s ip i C D a name inum T Hsb Ha Hi Hn Hd Hfl Hv Hb Hnm Hnone Hinum)
    as (i1 & l1 & C1 & D1 & H1 & T1 & W & Hd1 & Hlog); [unfold DIRENT in *; lia|done|done|].
  set (slot := dir_slot (entries (fdata C i)) 0 (fdata C i)) in *. pose proof (wf_inode _ _ _ _ _ _ _ W) as Hm.
  pose proof (wf_data _ _ _ _ _ _ _ W) as Hdata. replace (Z.to_nat (Z.of_nat slot * DIRENT)) with (ENT * slot)%nat in Hdata by (unfold DIRENT, ENT; lia).
  assert (Hwhole : length (fdata C i) = (ENT * entries (fdata C i))%nat) by (rewrite fdata_length by lia; unfold DIRENT, ENT in *; lia).
  destruct (table_link (fdata C i) name inum Hwhole (nstr_length _ _ _ _ Hnm) (nstr_nonzero _ _ _ _ Hnm) Hinum Hnone) as (K1 & K2 & K3 & K4).
  fold slot in K1, K2, K3, K4. rewrite <- Hdata in *. set (s1 := set_ip ip i1 (set_lo l1 s)) in *.
  assert (Hi1 : icache s1 !! ip = Some i1) by (by apply (set_ip_here ip i)).
  assert (Hdev1 : i_dev i1 = 1) by (rewrite Hm; apply Hn).
  pose proof (wf_alloc _ _ _ _ _ _ _ W) as Ha1.
  destruct (dirlookup_tx me L DK sk devsw s1 ip i1 C1 D1 a name T1 Ha1 Hi1 Hdev1 Hd1) as (l2 & T2 & H2); [apply cap_room; lia|done|done|].
  rewrite K1, K2 in H2. exists s1, C1, D1, i1. split; [done|]. split; [by constructor|]. split; [|split; [done|]].
  - constructor; [done|rewrite Hm; exact Hn|exact (wf_file _ _ _ _ _ _ _ W)| | |exact (wf_synced _ _ _ _ _ _ _ W Hsy)]; rewrite Hm; [by destruct Hfl|done].
  - split; [by exists slot, l2|]. split; [exact K3|]. intros k name' Hk. apply K4. intros ->.
    destruct (dir_lookup_Some _ _ _ Hk) as [Hlt Hne]. apply Hne, Hfree. lia.
Qed.

(** The entries in use are as they were. *)
Definition cache_kept (ic ic' : list inode) : Prop := forall k e, ic !! k = Some e -> 0 < i_ref e -> ic' !! k = Some e.

(** [iget] followed by [iput], of an inode that is not the locked one. *)
Lemma iget_iput s C lk n k0 e0 :
  ic_ok me sk C (Some lk) (icache s) -> 0 <= n < sb_ninodes sk -> icache s !! k0 = Some e0 -> i_ref e0 = 0 -> i_nlink (dnode sk C n) <> 0 ->
  (forall e, icache s !! lk = Some e -> 0 < i_ref e /\ i_inum e <> n) ->
  exists t s1 ic, iget 1 n s = Ok (t, s1) /\ iput me t s1 = Ok (tt, set_icache ic s) /\ ic_ok me sk C (Some lk) ic /\ cache_kept (icache s) ic.
Proof.
  intros Hic Hn H0 Hr0 Hnl Hlk. destruct (iget_ok me sk s C (Some lk) n Hic Hn) as (t & e & e' & H1 & He & Hic1 & Hin & Hre & Hused); [by eauto|].
  pose proof (c_ref _ _ _ _ _ Hic t e He) as Hpos. assert (He' : icache (set_ip t e' s) !! t = Some e') by (by apply (set_ip_here t e)).
  assert (Hne : Some lk <> Some t).
  { intros [= ->]. destruct (Hlk e He) as [Hr Hi]. apply Hi. by apply Hused. }
  assert (Hnlink : i_valid e' = 1 -> i_nlink e' <> 0).
  { intros Hv. destruct (c_valid _ _ _ _ _ Hic1 t e' He' ltac:(lia)) as [Hv0|[_ Hsy]]; [congruence|].
    destruct (synced_copy sk C e' Hsy) as (_ & -> & _). by rewrite Hin. }
  destruct (iput_free me sk _ C (Some lk) t e' Hic1 Hne He' ltac:(lia) Hnlink) as [H2 Hic2]. rewrite set_ip_set_ip in H2, Hic2.
  exists t, (set_ip t e' s). eexists. split; [exact H1|]. split; [exact H2|]. split; [exact Hic2|].
  intros k f Hf Hrf. destruct (decide (k = t)) as [-> |Hkt]; [|by rewrite list_lookup_insert_ne].
  rewrite list_lookup_insert_eq by (by eapply lookup_lt_Some). rewrite He in Hf. injection Hf as <-. destruct (Hused Hrf) as [_ ->]. f_equal.
  destruct e. unfold with_ref. simpl. f_equal. lia.
Qed.

(** [iget] followed by [iput] of the inode that the caller has locked. *)
Lemma iget_iput_locked s C lk e : ic_ok me sk C (Some lk) (icache s) -> icache s !! lk = Some e -> 0 < i_ref e ->
  exists s1, iget 1 (i_inum e) s = Ok (lk, s1) /\ iput me lk s1 = Spin.
Proof.
  intros Hic He Hr. assert (Hscan : exists em, iget_scan 1 (i_inum e) (icache s) 0 None = (Some lk, em)).
  { pose proof (iget_scan_ok (i_inum e) (icache s) 0 None _ eq_refl) as Hs. destruct (iget_scan 1 (i_inum e) (icache s) 0 None) as [[k|] em].
    - destruct Hs as (f & _ & Hf & Hrf & _ & Hif). rewrite Nat.sub_0_r in Hf. exists em. by rewrite (c_uniq _ _ _ _ _ Hic k lk f e Hf He Hrf Hr Hif).
    - destruct Hs as [Hs _]. by destruct (Hs lk e He Hr (proj1 (c_num _ _ _ _ _ Hic lk e He Hr))). }
  destruct Hscan as (em & Hscan). set (e1 := with_ref (i_ref e + 1) e). exists (set_ip lk e1 s). split.
  - unfold iget. rewrite (bind_Ok (gets icache) _ s (icache s) s) by done. rewrite Hscan. by rewrite (bind_Ok _ _ _ _ _ (upd_inode_ok s lk e _ He)).
  - pose proof (c_lock _ _ _ _ _ Hic lk e He) as Hl. rewrite decide_True in Hl by done. unfold iput, lock_inode, bind, get_inode.
    rewrite (set_ip_here lk e e1 s He). simpl. by rewrite Hl.
Qed.

(** C23: [dirlink] of a name that the directory does not
    have adds it: [dirlookup] then finds the entry and gets the inode it names,
    and every other name is found where it was, with the same entry.  A name
    that the directory has is refused: the result is -1 and no block and no
    cached inode in use has changed.  But if the entry names the directory
    itself, as "." does, [dirlink] waits for the lock that its caller holds. *)
Theorem dirlink_then_lookup s C D ip i a name inum :
  in_tx s C D -> open_inode s C ip i -> dir_ok sk C i -> bytes a -> nstr DIRSIZ a 0 = Some name -> 0 < inum < 2 ^ 16 ->
  Z.of_nat (size (D ∪ bitmaps sk ∪ indset i) + credit i) + 2 <= log_cap L ->
  match dir_lookup (fdata C i) name with
  | None =>
      i_size i + DIRENT <= MAXFILE * BSIZE -> (credit i + 1 <= length (free_list sk C))%nat ->
      exists s1 C1 D1 i1, dirlink me devsw ip a inum s = Ok (0, s1) /\ in_tx s1 C1 D1 /\ open_inode s1 C1 ip i1 /\ dir_ok sk C1 i1 /\
        (exists k l2, dir_lookup (fdata C1 i1) name = Some k /\ de_inum (dent (fdata C1 i1) k) = inum /\
          dirlookup me devsw ip a s1 = (let* t := iget 1 inum in ret (Some (t, Z.of_nat k * DIRENT))) (set_lo l2 s1)) /\
        (forall name', name' <> name -> dir_lookup (fdata C1 i1) name' = dir_lookup (fdata C i) name') /\
        (forall k, (forall name', dir_lookup (fdata C i) name' = Some k -> dent (fdata C1 i1) k = dent (fdata C i) k))
  | Some k =>
      let n := de_inum (dent (fdata C i) k) in
      ic_ok me sk C (Some ip) (icache s) -> 0 < i_ref i ->
      if decide (n = i_inum i) then dirlink me devsw ip a inum s = Spin
      else 0 <= n < sb_ninodes sk -> i_nlink (dnode sk C n) <> 0 -> (exists k0 e0, icache s !! k0 = Some e0 /\ i_ref e0 = 0) ->
        exists s1, dirlink me devsw ip a inum s = Ok (-1, s1) /\ in_tx s1 C D /\ open_inode s1 C ip i /\
          ic_ok me sk C (Some ip) (icache s1) /\ cache_kept (icache s) (icache s1)
  end.
Proof.
  intros X O Hd Hb Hnm Hinum Hcap. destruct (dir_lookup (fdata C i) name) as [k|] eqn:Hk; [|intros; by apply (dirlink_adds s C D)].
  cbv zeta. intros Hic Hr. pose proof X as [T Hsb Ha]. pose proof O as [Hi Hn Hf Hfl Hv Hsy].
  assert (Hroom : (size D < NBUF)%nat) by (pose proof (size_sub_l D (bitmaps sk)); pose proof (size_sub_l (D ∪ bitmaps sk) (indset i)); apply cap_room; lia).
  destruct (dirlookup_tx me L DK sk devsw s ip i C D a name T Ha Hi (proj1 Hn) Hd Hroom Hb Hnm) as (l1 & T1 & H1). rewrite Hk in H1.
  set (n := de_inum (dent (fdata C i) k)) in *. unfold dirlink. destruct (decide (n = i_inum i)) as [En|En].
  - destruct (iget_iput_locked (set_lo l1 s) C ip i Hic Hi Hr) as (s1 & Hg & Hp). rewrite <- En in Hg.
    rewrite (bind_Ok _ _ _ _ _ Hg) in H1. rewrite (bind_Ok _ _ _ _ _ H1). unfold bind. by rewrite Hp.
  - intros Hnr Hnl (k0 & e0 & He0 & Hr0). destruct (iget_iput (set_lo l1 s) C ip n k0 e0 Hic Hnr He0 Hr0 Hnl) as (t & s1 & ic & Hg & Hp & Hic1 & Hkept).
    { intros e He. simpl in He. rewrite Hi in He. injection He as <-. done. }
    rewrite (bind_Ok _ _ _ _ _ Hg) in H1. rewrite (bind_Ok _ _ _ _ _ H1), (bind_Ok _ _ _ _ _ Hp). eexists. split; [done|].
    split; [by constructor|]. split; [constructor; try done; by apply Hkept|done].
Qed.

(** C22: [namei] and [nameiparent] follow the directories.
    From the root or the current directory they return the inode that the
    elements of the path lead to, or the directory of the last element, and 0
    when an element is missing or not in a directory; no block changes, and
    the only reference left over is the one to the inode returned. *)
Theorem namex_resolves_path parent s C D G cwd e0 a p l name :
  in_tx s C D -> (size D < NBUF)%nat -> closed sk C G -> ic_ok me sk C None (icache s) -> two_free (icache s) ->
  icache s !! cwd = Some e0 -> 0 < i_ref e0 -> G (i_inum e0) -> G ROOTINO -> cstr a p l -> length name = DIRSIZ -> bytes name ->
  let start := match l with c :: _ => if c =? slash then ROOTINO else i_inum e0 | [] => i_inum e0 end in
  exists r name' s', namex me devsw cwd a p parent name s = Ok ((r, name'), s') /\ in_tx s' C D /\
    ic_ok me sk C None (icache s') /\
    match walk sk parent C start (path_elems (S (length a)) l) with
    | Some m => exists q e, r = Some q /\ icache s' !! q = Some e /\ i_inum e = m /\ refs_by (icache s) (icache s') (one_at q)
    | None => r = None /\ refs_by (icache s) (icache s') (fun _ => 0)
    end.
Proof.
  intros [T Hsb Ha] Hroom HG Hic Htwo Hcwd Hr Hg Hroot Hl Hnl Hnb start.
  destruct (namex_ok me L DK sk devsw parent s C D G cwd e0 a p l name T Hsb Ha Hroom HG Hic Htwo Hcwd Hr Hg Hroot Hl Hnl Hnb)
    as (l' & ic' & r & name' & H1 & T' & Hic' & Hout).
  exists r, name', (set_icache ic' (set_lo l' s)). split; [done|]. split; [by constructor|]. split; [done|].
  fold start in Hout. destruct (walk sk parent C start _) as [m|]; [|done].
  destruct Hout as (q & e & Hr' & Hrefs & He & Hm). by exists q, e.
Qed.

(** The most that [filewrite] writes in one transaction. *)
Definition MAXWRITE : Z := (MAXOPBLOCKS - 1 - 1 - 2) / 2 * 512.

Lemma one_bitmap : 0 <= sb_size sk < BPB -> (size (bitmaps sk) <= 1)%nat.
Proof.
  intros H. unfold bitmaps. rewrite Z.div_small by done. simpl.
  assert (Hs : ({[sb_bmapstart sk + 0]} ∪ ∅ : gset Z) ⊆ {[sb_bmapstart sk]}) by (rewrite Z.add_0_r; set_solver).
  apply subseteq_size in Hs. by rewrite size_singleton in Hs.
Qed.

Lemma spans_le off n : 0 <= off -> n <= 1536 -> spans off n <= 4.
Proof.
  intros Ho Hn. unfold spans. destruct (Z.leb_spec n 0) as [H|H]; [lia|].
  pose proof (Z.div_mod off BSIZE ltac:(done)). pose proof (Z.mod_pos_bound off BSIZE ltac:(done)).
  pose proof (Z.div_mod (off + n - 1) BSIZE ltac:(done)). pose proof (Z.mod_pos_bound (off + n - 1) BSIZE ltac:(done)). unfold BSIZE in *. lia.
Qed.

(** C25: a write of the size that [filewrite] cuts its work into
    never overflows the log.  On a disk with one bitmap block, when
    [begin_op] has found room for [MAXOPBLOCKS] more blocks, [writei] succeeds
    and adds at most 7 blocks: 4 data blocks, the indirect block, the bitmap
    and the inode. *)
Theorem write_fits_log s C D ip i off src :
  let n := Z.of_nat (length src) in
  in_tx s C D -> open_inode s C ip i -> i_type i <> T_DEV -> bytes src -> 0 <= off <= i_size i -> off + n <= MAXFILE * BSIZE ->
  n <= MAXWRITE -> sb_size sk < BPB -> Z.of_nat (size D) + MAXOPBLOCKS <= LOGSIZE -> LOGSIZE <= lg_size L -> 1 <= outstanding L ->
  (5 <= length (free_list sk C))%nat ->
  exists s1 C1 D1, writei me devsw ip src off n s = Ok (n, s1) /\ in_tx s1 C1 D1 /\
    lg_n (lg (lo s1)) = Z.of_nat (size D1) /\ Z.of_nat (size D1) <= Z.of_nat (size D) + 7.
Proof.
  intros n [T Hsb Ha] [Hi Hn Hf Hfl Hv Hsy] Ht Hb Ho Hle Hmax Hone Hres Hls Hout Hfr.
  change MAXWRITE with 1536 in Hmax. change LOGSIZE with 30 in *. change MAXOPBLOCKS with 10 in *.
  pose proof (one_bitmap (conj (proj1 (l_size _ (a_layout _ _ Ha))) Hone)) as H1.
  assert (Hsz : (size (D ∪ bitmaps sk ∪ indset i) + credit i <= size D + 2)%nat).
  { pose proof (union_size_le D (bitmaps sk)). pose proof (ind_size (D ∪ bitmaps sk) i). lia. }
  pose proof (spans_le off n ltac:(lia) Hmax) as Hsp.
  assert (Hcr : (credit i <= 1)%nat) by (unfold credit; destruct (decide _); lia).
  assert (Hcap : log_cap L = 29) by (unfold log_cap; replace (1 <=? outstanding L) with true by blia; change LOGSIZE with 30; lia).
  destruct (writei_tx me L DK sk devsw s ip i C D off src n T Hsb Ha Hi Hn Hf Hfl Hv Ht Hb eq_refl Ho Hle ltac:(lia) ltac:(lia))
    as (i1 & l1 & C1 & D1 & H2 & T1 & W & Hlog).
  eexists _, C1, D1. split; [exact H2|]. split; [constructor; [done|done|exact (wf_alloc _ _ _ _ _ _ _ W)]|].
  split; [symmetry; exact (t_size _ _ _ _ _ _ _ T1)|]. lia.
Qed.

End props.

Section capacity.

Context (me : Z) (L : log) (DK : bst).

(** Operations that write the blocks [ns], one after the other. *)
Fixpoint touch (ns : list Z) : M fsys unit :=
  match ns with
  | [] => ret tt
  | n :: ns' =>
      let* bp := bread_ me 1 n in
      let* d := data_ bp in
      set_data_ bp d ;;;
      log_write_ bp ;;;
      brelse_ me bp ;;;
      touch ns'
  end.

Lemma touch_ok ns : forall s C D,
  tview me L DK (lo s) C D ∅ -> lg_size L = LOGSIZE -> 1 <= outstanding L -> NoDup ns -> (forall n, n ∈ ns -> n ∉ D /\ is_Some (C !! n)) ->
  (size D + length ns <= 29)%nat ->
  exists l' C', touch ns s = Ok (tt, set_lo l' s) /\ tview me L DK l' C' (list_to_set ns ∪ D) ∅ /\ dom C' = dom C.
Proof.
  induction ns as [|n ns IH]; intros s C D T HL Hout Hnd Hin Hlen.
  { exists (lo s), C. rewrite set_lo_id. split; [done|]. split; [by rewrite list_to_set_nil, union_empty_l_L|done]. }
  cbn [touch]. apply NoDup_cons in Hnd as [Hn Hnd]. destruct (Hin n ltac:(left)) as [HnD [d Hd]]. simpl in Hlen.
  assert (Hcap : Z.of_nat (size D) < log_cap L) by (unfold log_cap; rewrite HL; replace (1 <=? outstanding L) with true by blia; change LOGSIZE with 30; lia).
  destruct (read_tx me L DK s C D ∅ n d unit (fun bp d => set_data_ bp d ;;; log_write_ bp ;;; brelse_ me bp ;;; touch ns) T (not_elem_of_empty _) Hd)
    as (i & l1 & -> & T1 & A1 & _); [right; apply (room_tx L); [done|rewrite size_empty; lia]|].
  destruct (update_tx me L DK (set_lo l1 s) C D _ i n d d T1 A1 Hcap) as (l2 & H2 & _ & T2 & _). rewrite H2.
  rewrite not_held_again in T2 by apply not_elem_of_empty. pose proof (size_add D n).
  destruct (IH (set_lo l2 (set_lo l1 s)) (<[n := d]> C) ({[n]} ∪ D)) as (l3 & C3 & H3 & T3 & Hdom); try done.
  - intros m Hm. destruct (Hin m ltac:(by right)) as [HmD Hs]. split; [set_solver|]. destruct (decide (m = n)) as [-> |?]; [done|].
    by rewrite lookup_insert_ne.
  - lia.
  - exists l3, C3. split; [done|]. split; [|rewrite Hdom; apply dom_insert_lookup_L; eauto].
    replace (list_to_set (n :: ns) ∪ D) with (list_to_set ns ∪ ({[n]} ∪ D)) by (rewrite list_to_set_cons; set_solver). done.
Qed.

Lemma touch_app xs m : forall s, touch (xs ++ [m]) s = (touch xs ;;; touch [m]) s.
Proof.
  induction xs as [|x xs IH]; intros s; [done|]. cbn [touch app]. unfold bind.
  destruct (bread_ me 1 x s) as [[bp s1]| | | |]; [cbn [rbind]|done..]. destruct (data_ bp s1) as [[d s2]| | | |]; [cbn [rbind]|done..].
  destruct (set_data_ bp d s2) as [[u s3]| | | |]; [cbn [rbind]|done..]. destruct (log_write_ bp s3) as [[u4 s4]| | | |]; [cbn [rbind]|done..].
  destruct (brelse_ me bp s4) as [[u5 s5]| | | |]; [cbn [rbind]|done..]. apply IH.
Qed.

(** With the log full, the next block written panics. *)
Lemma touch_full s C D m :
  tview me L DK (lo s) C D ∅ -> lg_size L = LOGSIZE -> size D = 29%nat -> is_Some (C !! m) ->
  touch [m] s = Panic "too big a transaction".
Proof.
  intros T HL Hsz [d Hd]. cbn [touch].
  destruct (bread_tx me L DK s C D ∅ m d T (not_elem_of_empty _) Hd) as (i & l2 & H2 & T2 & A2 & _);
    [right; rewrite union_empty_r_L, Hsz; unfold NBUF; lia|].
  rewrite (bind_Ok _ _ _ _ _ H2), (bind_Ok _ _ _ _ _ (data_tx me (set_lo l2 s) i m d A2)).
  assert (Hlg : lg_n (lg l2) = 29) by (rewrite <- (t_size _ _ _ _ _ _ _ T2), Hsz; done).
  assert (Hls : lg_size (lg l2) = 30) by (rewrite (t_log _ _ _ _ _ _ _ T2); exact HL).
  destruct (set_data_ok me (bio l2) _ _ _ i m d d (t_view _ _ _ _ _ _ _ T2) A2) as (b3 & H3 & _).
  unfold set_data_, log_write_. rewrite (bind_Ok _ _ _ _ _ (on_lo_Ok _ (set_lo l2 s) _ _ (on_bio_Ok _ _ _ _ H3))).
  unfold bind, on_lo, zoom, log_write. simpl. unfold bind, gets. simpl. by rewrite Hlg, Hls.
Qed.

(** [begin_op] admits more than the log
    holds.  It reserves [LOGSIZE] blocks, but [mkfs] makes a log of [LOGSIZE]
    blocks with the header among them.  Three operations that each stay within
    [MAXOPBLOCKS] are admitted together, and if they write 30 different blocks
    the 30th [log_write] panics; 29 are well. *)
Theorem admitted_operations_overflow_log s C ns :
  tview me L DK (lo s) C ∅ ∅ -> lg_size L = LOGSIZE -> 1 <= outstanding L -> NoDup ns -> (forall n, n ∈ ns -> is_Some (C !! n)) ->
  (forall b l, lg_n l = 0 -> committing l = 0 -> outstanding l = 0 ->
    (begin_op ;;; begin_op ;;; begin_op) (Lst b l) = Ok (tt, Lst b (with_outstanding 3 l))) /\
  (length ns = 29%nat -> exists l' C', touch ns s = Ok (tt, set_lo l' s) /\ tview me L DK l' C' (list_to_set ns) ∅) /\
  (length ns = 30%nat -> touch ns s = Panic "too big a transaction").
Proof.
  intros T HL Hout Hnd Hin. split_and!.
  - intros b l Hn Hc Ho. destruct l as [st sz o c dv n bl]. simpl in *. subst. reflexivity.
  - intros Hl. destruct (touch_ok ns s C ∅ T HL Hout Hnd) as (l' & C' & H1 & T1 & _); [intros n Hn; split; [apply not_elem_of_empty|by apply Hin]|by rewrite Hl|].
    exists l', C'. by rewrite union_empty_r_L in T1.
  - intros Hl. destruct (exists_last (l := ns)) as (ns1 & m & ->); [by destruct ns|]. rewrite length_app in Hl. simpl in Hl.
    apply NoDup_app in Hnd as (Hnd & _ & _).
    destruct (touch_ok ns1 s C ∅ T HL Hout Hnd) as (l' & C' & H1 & T1 & Hdom);
      [intros n Hn; split; [apply not_elem_of_empty|apply Hin, elem_of_app; by left]|by rewrite size_empty; lia|].
    rewrite union_empty_r_L in T1. rewrite touch_app, (bind_Ok _ _ _ _ _ H1). apply (touch_full _ C' (list_to_set ns1)); try done.
    + rewrite size_list_to_set by done. lia.
    + apply elem_of_dom. rewrite Hdom. apply elem_of_dom. apply Hin, elem_of_app. right. set_solver.
Qed.

End capacity.
