(* ===== verification/FsDemo.v ===== *)
(** * A small file system

    A disk of 32 blocks with a root directory, a file and a program, on which
    the theorems of the file system are applied. *)

From S2P Require Import Prelude Block Sleeplock Bio Log CString Console Fs FsTx FsAlloc FsFile FsRw FsInode FsDir FsPath FsTerm FsProps.

(** A file of one direct block. *)
Lemma one_block_fblock C i a bn :
  i_addrs i = a :: replicate 12 0 -> 0 <= bn -> fblock C i bn = if decide (bn = 0) then a else 0.
Proof.
  intros Ha Hb. unfold fblock, addr_of. rewrite Ha. change (nth (Z.to_nat NDIRECT) (a :: replicate 12 0) 0) with 0.
  destruct (Z.ltb_spec bn NDIRECT) as [Hlt|Hge].
  - destruct (decide (bn = 0)) as [-> |Hne]; [done|]. replace (Z.to_nat bn) with (S (Z.to_nat (bn - 1))) by lia.
    cbn [nth]. rewrite nth_lookup. destruct (replicate 12 0 !! Z.to_nat (bn - 1)) as [v|] eqn:E; [|done].
    by apply lookup_replicate in E as [-> _].
  - rewrite decide_False by (unfold NDIRECT in *; lia). done.
Qed.

Lemma one_block_file sk C i a :
  i_addrs i = a :: replicate 12 0 -> a <> 0 -> datastart sk <= a < sb_size sk -> free_bit sk C a = false -> 0 <= i_size i <= BSIZE ->
  file_ok sk C i.
Proof.
  intros Ha H0 Hr Hu Hs. pose proof (fun bn => one_block_fblock C i a bn Ha) as Hb.
  assert (Hind : addr_of i NDIRECT = 0) by (unfold addr_of; by rewrite Ha).
  constructor.
  - by rewrite Ha.
  - change (MAXFILE * BSIZE) with 71680. unfold BSIZE in Hs. lia.
  - intros x [Hx [Hi|(bn & [Hin _] & Hi)]]; [congruence|]. rewrite Hb in Hi by done. destruct (decide (bn = 0)); [by subst|congruence].
  - intros bn [Hin _]. by rewrite Hind.
  - intros bn bn' [Hin _] [Hin' _]. rewrite !Hb by done. destruct (decide (bn = 0)), (decide (bn' = 0)); congruence.
  - intros bn Hin Hlt. rewrite Hb by done. rewrite decide_True; [done|]. unfold BSIZE in *. lia.
Qed.

(** A disk with the log behind the data. *)
Definition demo_sb : superblock := Superblock 32 26 16 30 40 2 5.

Definition demo_root : inode := Inode 1 1 1 (Sleeplock 0 0) 1 T_DIR 0 0 1 48 (6 :: replicate 12 0).
Definition demo_file : inode := Inode 1 2 1 (Sleeplock 0 0) 1 T_FILE 0 0 1 5 (7 :: replicate 12 0).

Definition demo_prog : inode := Inode 1 3 1 (Sleeplock 0 0) 1 T_FILE 0 0 1 88 (8 :: replicate 12 0).

Definition zeros : block := replicate (Z.to_nat BSIZE) 0.
Definition padto (l : list Z) : block := l ++ replicate (Z.to_nat BSIZE - length l) 0.

Definition demo_inodes : block := put_dinode 3 demo_prog (put_dinode 2 demo_file (put_dinode 1 demo_root zeros)).
Definition demo_entries : block := padto (new_entry 1 [46] ++ new_entry 2 [97] ++ new_entry 3 [98]).
Definition demo_hello : block := padto [104; 101; 108; 108; 111].
Definition demo_bitmap : block := padto [255; 1].

(** A program of four bytes, loaded at 0 with four bytes of zeros behind it:
    the header, one program header, the bytes. *)
Definition demo_elf : list Z :=
  [127; 69; 76; 70] ++ replicate 20 0 ++ le_enc 4 0 ++ le_enc 4 52 ++ replicate 12 0 ++ le_enc 2 1 ++ replicate 6 0 ++
  mjoin (le_enc 4 <$> [1; 84; 0; 0; 4; 8; 0; 0]) ++ [235; 254; 144; 144].

Definition demo_block (b : Z) : block :=
  if b =? 2 then demo_inodes else if b =? 5 then demo_bitmap else if b =? 6 then demo_entries else if b =? 7 then demo_hello else if b =? 8 then padto demo_elf else zeros.

Definition demo_disk : gmap Z block := list_to_map ((fun b => (b, demo_block b)) <$> seqZ 0 72).

(** The root directory and the file are open; the other entries are free. *)
Definition free_inode : inode := Inode 0 0 0 (Sleeplock 0 0) 0 0 0 0 0 0 (replicate 13 0).
Definition demo_icache : list inode := demo_root :: demo_file :: replicate 48 free_inode.

Definition demo_log : log := Log 40 30 1 0 1 0 (replicate 30 0).
Definition demo_fs : fsys := Fsys (Lst (fresh demo_disk) demo_log) demo_sb demo_icache [].

Lemma fs_demo_lookup b : 0 <= b < 72 -> demo_disk !! b = Some (demo_block b).
Proof.
  intros Hb. apply elem_of_list_to_map_1.
  - rewrite <- list_fmap_compose. rewrite (list_fmap_ext _ id) by done. rewrite list_fmap_id. apply NoDup_seqZ.
  - apply list_elem_of_fmap. exists b. split; [done|]. apply elem_of_seqZ. lia.
Qed.

Definition is_blockb (d : block) : bool := (length d =? Z.to_nat BSIZE)%nat && forallb (fun v => (0 <=? v) && (v <? 256)) d.

Lemma is_blockb_ok d : is_blockb d = true -> is_block d.
Proof.
  intros [H1 H2]%andb_prop. split; [by apply Nat.eqb_eq|]. apply Forall_forall. intros v Hv.
  assert (Hb : (0 <=? v) && (v <? 256) = true) by (apply (proj1 (forallb_forall _ _) H2); by apply list_elem_of_In).
  apply andb_prop in Hb as [?%Z.leb_le ?%Z.ltb_lt]. lia.
Qed.

Lemma demo_block_ok b : is_block (demo_block b).
Proof. unfold demo_block. repeat (destruct (_ =? _); [apply is_blockb_ok; by vm_compute|]). apply is_blockb_ok. by vm_compute. Qed.

Lemma demo_layout : layout demo_sb.
Proof. constructor; simpl; try lia; by vm_compute. Qed.

Lemma demo_free b : 0 <= b < 32 -> free_bit demo_sb demo_disk b = negb (b <? 9).
Proof.
  intros Hb. unfold free_bit. rewrite BBLOCK_eq by (apply demo_layout || done). change (sb_bmapstart demo_sb) with 5.
  rewrite Z.div_small, Z.mod_small by (unfold BPB, BSIZE; lia). rewrite Z.add_0_r, fs_demo_lookup by lia. change (demo_block 5) with demo_bitmap.
  assert (H : forallb (fun k => Bool.eqb (bit_free k demo_bitmap) (negb (Z.of_nat k <? 9))) (seq 0 32) = true) by (by vm_compute).
  apply (proj1 (forallb_forall _ _)) with (x := Z.to_nat b) in H; [|apply in_seq; lia]. apply eqb_prop in H. rewrite H. do 2 f_equal. lia.
Qed.

Lemma demo_alloc : alloc_ok demo_sb demo_disk.
Proof.
  constructor; [apply demo_layout| |].
  - intros b Hb. exists (demo_block b). rewrite fs_demo_lookup by (simpl in Hb; lia). split; [done|apply demo_block_ok].
  - intros b Hb. change (datastart demo_sb) with 6 in Hb. rewrite demo_free by lia. by replace (b <? 9) with true by blia.
Qed.

Lemma demo_in_tx : in_tx 3 demo_log (fresh demo_disk) demo_sb demo_fs demo_disk ∅.
Proof.
  constructor; [|done|apply demo_alloc].
  constructor; try done; [apply fresh_view|by constructor].
Qed.

Lemma demo_file_ok : file_ok demo_sb demo_disk demo_file.
Proof. apply (one_block_file _ _ _ 7); try done. Qed.

Lemma demo_root_ok : file_ok demo_sb demo_disk demo_root.
Proof. apply (one_block_file _ _ _ 6); try done. Qed.

Lemma demo_iblock n : 0 <= n < 8 -> demo_disk !! IBLOCK n demo_sb = Some demo_inodes.
Proof.
  intros Hn. destruct (IBLOCK_eq demo_sb n demo_layout ltac:(simpl; lia)) as [-> _].
  rewrite Z.div_small by (change IPB with 8; lia). by rewrite fs_demo_lookup.
Qed.

Lemma demo_fields i : i = demo_root \/ i = demo_file -> fields_ok i /\ inum_ok demo_sb i /\ synced demo_sb demo_disk i.
Proof.
  intros [-> | ->]; (split; [constructor; unfold i16_range; simpl; unfold T_DIR, T_FILE; lia|split; [by split; simpl; lia|]]);
    exists demo_inodes; (split; [by apply demo_iblock|]); by vm_compute.
Qed.

Lemma demo_open_file : open_inode demo_sb demo_fs demo_disk 1 demo_file.
Proof. destruct (demo_fields demo_file) as (? & ? & ?); [by right|]. constructor; try done. apply demo_file_ok. Qed.

Lemma demo_open_root : open_inode demo_sb demo_fs demo_disk 0 demo_root.
Proof. destruct (demo_fields demo_root) as (? & ? & ?); [by left|]. constructor; try done. apply demo_root_ok. Qed.

Lemma filter_none (P : Z -> Prop) `{!forall x, Decision (P x)} (l : list Z) : (forall x, x ∈ l -> ~ P x) -> filter P l = [].
Proof.
  induction l as [|x l IH]; intros Hl; [done|]. rewrite filter_cons_False by (apply Hl; set_solver). apply IH. set_solver.
Qed.

Lemma demo_free_list : free_list demo_sb demo_disk = seqZ 9 23.
Proof.
  unfold free_list. change (sb_size demo_sb) with 32. replace 32 with (9 + 23) by done. rewrite seqZ_app by lia. rewrite filter_app.
  replace (filter _ (seqZ 0 9)) with (@nil Z).
  - rewrite app_nil_l. apply filter_all. intros x Hx%elem_of_seqZ. rewrite demo_free by lia. by replace (x <? 9) with false by blia.
  - symmetry. apply filter_none. intros x Hx%elem_of_seqZ. rewrite demo_free by lia. by replace (x <? 9) with true by blia.
Qed.

(** No devices. *)
Definition nodev (_ : Z) : devops := Devops None None.

Definition more : list Z := [32; 121; 111; 117].

Lemma demo_hello_data : fdata demo_disk demo_file = [104; 101; 108; 108; 111].
Proof. by vm_compute. Qed.

Lemma file_is_byte_array_witness :
  exists s1 C1 i1 s2, writei 3 nodev 1 more 5 4 demo_fs = Ok (4, s1) /\
    fdata C1 i1 = [104; 101; 108; 108; 111; 32; 121; 111; 117] /\
    readi 3 nodev 1 4 100 s1 = Ok ((5, [111; 32; 121; 111; 117]), s2).
Proof.
  destruct (file_is_byte_array 3 demo_log (fresh demo_disk) demo_sb nodev demo_fs demo_disk ∅ 1 demo_file 5 more demo_in_tx demo_open_file)
    as (s1 & C1 & D1 & i1 & H1 & _ & _ & H2 & H3 & H4 & _).
  - done.
  - repeat constructor; lia.
  - simpl. lia.
  - by vm_compute.
  - by vm_compute.
  - rewrite demo_free_list. by vm_compute.
  - rewrite demo_hello_data in H3, H4. destruct (H4 4 100) as (s2 & H5 & _); [rewrite H2; simpl; lia|lia|lia|].
    rewrite H2 in H5. exists s1, C1, i1, s2. split; [exact H1|]. split; [exact H3|exact H5].
Defined.

Lemma rw_rejects_bad_offsets_witness :
  readi 3 nodev 1 6 1 demo_fs = Ok ((-1, []), demo_fs) /\ writei 3 nodev 1 more 5 71676 demo_fs = Ok (-1, demo_fs).
Proof.
  destruct (rw_rejects_bad_offsets 3 nodev demo_fs 1 demo_file 6 1 more eq_refl ltac:(done)) as [H1 _].
  destruct (rw_rejects_bad_offsets 3 nodev demo_fs 1 demo_file 5 71676 more eq_refl ltac:(done)) as [_ H2].
  split; [apply H1; left; simpl; lia|apply H2; by vm_compute].
Defined.

Lemma block_allocator_witness :
  (exists s', balloc 3 1 demo_fs = Ok (9, s')) /\ bfree 3 1 10 demo_fs = Panic "freeing free block" /\
  (exists s', bfree 3 1 7 demo_fs = Ok (tt, s')).
Proof.
  destruct (block_allocator 3 demo_log (fresh demo_disk) demo_sb demo_fs demo_disk ∅ demo_in_tx) as [H1 H2]; [by vm_compute|].
  rewrite demo_free_list in H1. destruct H1 as (s' & C' & D' & H1 & _). split; [by exists s'|].
  pose proof (H2 10 ltac:(change (datastart demo_sb) with 6; simpl; lia)) as H9. rewrite demo_free in H9 by lia.
  pose proof (H2 7 ltac:(change (datastart demo_sb) with 6; simpl; lia)) as H7. rewrite demo_free in H7 by lia.
  split; [exact H9|]. destruct H7 as (s2 & _ & _ & H7 & _). by exists s2.
Defined.

Lemma inode_disk_roundtrip_witness :
  exists s1 C1 D1, iupdate 3 1 demo_fs = Ok (tt, s1) /\ in_tx 3 demo_log (fresh demo_disk) demo_sb s1 C1 D1 /\
    dnode demo_sb C1 1 = dnode demo_sb demo_disk 1.
Proof.
  destruct (demo_fields demo_file) as (Hf & Hn & _); [by right|].
  destruct (inode_disk_roundtrip 3 demo_log (fresh demo_disk) demo_sb demo_fs demo_disk ∅ 1 demo_file demo_in_tx eq_refl Hn)
    as (s1 & C1 & D1 & H1 & Hx & _ & Ho & _).
  - constructor; try apply Hf; try done. apply Forall_forall. intros x [-> |Hx]%elem_of_cons; [done|].
    apply elem_of_replicate in Hx as [-> _]. done.
  - done.
  - done.
  - by vm_compute.
  - exists s1, C1, D1. split; [exact H1|]. split; [exact Hx|]. apply Ho; simpl; lia.
Defined.

Lemma demo_dir : dir_ok demo_sb demo_disk demo_root.
Proof. constructor; [apply demo_root_ok|done|done]. Qed.

Lemma demo_root_data : fdata demo_disk demo_root = new_entry 1 [46] ++ new_entry 2 [97] ++ new_entry 3 [98].
Proof. by vm_compute. Qed.

Definition demo_inums (n : Z) : Prop := n = 1 \/ n = 2 \/ n = 3.

Lemma demo_dnode n : demo_inums n -> dnode demo_sb demo_disk n = if decide (n = 1) then demo_root else if decide (n = 2) then demo_file else demo_prog.
Proof. unfold dnode. intros [-> |[-> | ->]]; rewrite demo_iblock by lia; by vm_compute. Qed.

Lemma demo_closed : closed demo_sb demo_disk demo_inums.
Proof.
  constructor.
  - intros n [-> |[-> | ->]]; simpl; lia.
  - intros n Hn. rewrite demo_dnode by done. by destruct (decide (n = 1)), (decide (n = 2)).
  - intros n Hn. rewrite demo_dnode by done. by destruct (decide (n = 1)), (decide (n = 2)).
  - intros n Hn. rewrite demo_dnode by done. destruct (decide (n = 1)); [intros _; apply demo_dir|by destruct (decide (n = 2))].
  - intros n k Hn. rewrite demo_dnode by done. destruct (decide (n = 1)); [|by destruct (decide (n = 2))]. intros _. rewrite demo_root_data.
    change (entries (new_entry 1 [46] ++ new_entry 2 [97] ++ new_entry 3 [98])) with 3%nat. intros Hk _.
    destruct k as [|[|[|k]]]; [left; by vm_compute|right; left; by vm_compute|right; right; by vm_compute|lia].
Qed.

Lemma demo_ic_cases k e : demo_icache !! k = Some e -> (k = 0%nat /\ e = demo_root) \/ (k = 1%nat /\ e = demo_file) \/ e = free_inode.
Proof.
  destruct k as [|[|k]]; cbn [demo_icache lookup list_lookup]; [intros [= <-]; auto|intros [= <-]; auto|].
  intros [-> _]%lookup_replicate. auto.
Qed.

Lemma demo_ic : ic_ok 3 demo_sb demo_disk None demo_icache.
Proof.
  destruct (demo_fields demo_root) as (_ & Hr1 & Hr2); [by left|]. destruct (demo_fields demo_file) as (_ & Hf1 & Hf2); [by right|].
  constructor; [done| | | | |].
  - by intros k e [[-> ->]|[[-> ->]| ->]]%demo_ic_cases.
  - by intros k e [[-> ->]|[[-> ->]| ->]]%demo_ic_cases.
  - intros k e [[-> ->]|[[-> ->]| ->]]%demo_ic_cases Hr; [done|done|simpl in Hr; lia].
  - intros k e [[-> ->]|[[-> ->]| ->]]%demo_ic_cases Hr; [by right|by right|simpl in Hr; lia].
  - intros j k e f [[-> ->]|[[-> ->]| ->]]%demo_ic_cases [[-> ->]|[[-> ->]| ->]]%demo_ic_cases; simpl; done || lia.
Qed.

(** The root directory locked, as [dirlink]'s callers have it. *)
Definition demo_locked : fsys := set_icache (<[0%nat := with_ilock (Sleeplock 1 3) demo_root]> demo_icache) demo_fs.

Lemma demo_locked_ic : ic_ok 3 demo_sb demo_disk (Some 0%nat) (icache demo_locked).
Proof.
  apply (ic_same 3 demo_sb demo_disk None (Some 0%nat) _ 0 demo_root _ demo_ic); try done; [by left|by right|].
  right. split; [done|]. destruct (demo_fields demo_root) as (_ & _ & Hs); [by left|]. by apply synced_lock.
Qed.

Lemma dirlink_then_lookup_witness :
  (exists s1 C1 i1, dirlink 3 nodev 0 [99; 0] 2 demo_fs = Ok (0, s1) /\
    (exists k, dir_lookup (fdata C1 i1) [99] = Some k /\ de_inum (dent (fdata C1 i1) k) = 2) /\
    dir_lookup (fdata C1 i1) [97] = Some 1%nat) /\
  (exists s1, dirlink 3 nodev 0 [97; 0] 2 demo_locked = Ok (-1, s1)) /\ dirlink 3 nodev 0 [46; 0] 2 demo_locked = Spin.
Proof.
  set (i := with_ilock (Sleeplock 1 3) demo_root).
  assert (Hx : in_tx 3 demo_log (fresh demo_disk) demo_sb demo_locked demo_disk ∅) by (destruct demo_in_tx; by constructor).
  assert (Hf : file_ok demo_sb demo_disk i) by (destruct demo_root_ok; by constructor).
  assert (Ho : open_inode demo_sb demo_locked demo_disk 0 i) by (destruct demo_open_root as [_ ? _ [] ? ?]; constructor; try done; by apply synced_lock).
  assert (Hd : dir_ok demo_sb demo_disk i) by (by constructor).
  assert (Hcap : Z.of_nat (size (∅ ∪ bitmaps demo_sb ∪ indset demo_root) + credit demo_root) + 2 <= log_cap demo_log) by (by vm_compute).
  assert (Hb : forall c, 0 < c < 256 -> bytes [c; 0]) by (intros c Hc; repeat constructor; lia). split; [|split].
  - pose proof (dirlink_then_lookup 3 demo_log (fresh demo_disk) demo_sb nodev demo_fs demo_disk ∅ 0 demo_root [99; 0] [99] 2
              demo_in_tx demo_open_root demo_dir (Hb 99 ltac:(lia)) eq_refl ltac:(lia) Hcap) as H.
    rewrite demo_root_data in H. destruct H as (s1 & C1 & D1 & i1 & H1 & _ & _ & _ & (k & l2 & H2 & H3 & _) & H4 & _);
      [by vm_compute|rewrite demo_free_list; vm_compute; lia|].
    exists s1, C1, i1. split; [exact H1|]. split; [exists k; by split|]. rewrite H4 by done. by vm_compute.
  - pose proof (dirlink_then_lookup 3 demo_log (fresh demo_disk) demo_sb nodev demo_locked demo_disk ∅ 0 i [97; 0] [97] 2
              Hx Ho Hd (Hb 97 ltac:(lia)) eq_refl ltac:(lia) Hcap) as H.
    change (fdata demo_disk i) with (fdata demo_disk demo_root) in H. rewrite demo_root_data in H.
    destruct H as (s1 & H1 & _); [exact demo_locked_ic|by vm_compute|by vm_compute|change (i_nlink (dnode demo_sb demo_disk 2) <> 0); by rewrite demo_dnode by (right; by left)|by exists 2%nat, free_inode|].
    by exists s1.
  - pose proof (dirlink_then_lookup 3 demo_log (fresh demo_disk) demo_sb nodev demo_locked demo_disk ∅ 0 i [46; 0] [46] 2
              Hx Ho Hd (Hb 46 ltac:(lia)) eq_refl ltac:(lia) Hcap) as H.
    change (fdata demo_disk i) with (fdata demo_disk demo_root) in H. rewrite demo_root_data in H. exact (H demo_locked_ic eq_refl).
Defined.

Lemma demo_walk : walk demo_sb false demo_disk 1 [[97]] = Some 2.
Proof.
  cbn [walk]. rewrite (demo_dnode 1) by (by left). rewrite decide_True by done. rewrite demo_root_data. by vm_compute.
Qed.

Lemma namex_resolves_path_witness :
  exists q e name' s', namex 3 nodev 0 [47; 97; 0] 0 false (replicate 14 0) demo_fs = Ok ((Some q, name'), s') /\
    icache s' !! q = Some e /\ i_inum e = 2.
Proof.
  destruct (namex_resolves_path 3 demo_log (fresh demo_disk) demo_sb nodev false demo_fs demo_disk ∅ demo_inums 0 demo_root
              [47; 97; 0] 0 [47; 97] (replicate 14 0) demo_in_tx ltac:(vm_compute; lia) demo_closed demo_ic)
    as (r & name' & s' & H1 & _ & _ & H2).
  - exists 2%nat, 3%nat, free_inode, free_inode. done.
  - done.
  - simpl. lia.
  - by left.
  - by left.
  - split; [by exists []|]. repeat constructor; lia.
  - done.
  - apply Forall_replicate. lia.
  - lazymatch type of H2 with context [walk demo_sb false demo_disk ?n ?p] =>
      change (walk demo_sb false demo_disk n p) with (walk demo_sb false demo_disk 1 [[97]]) in H2 end. rewrite demo_walk in H2.
    destruct H2 as (q & e & -> & He & Hm & _). exists q, e, name', s'. split; [exact H1|]. split; [exact He|exact Hm].
Defined.

Lemma write_fits_log_witness :
  exists s1 C1 D1, writei 3 nodev 1 (replicate 1536 7) 5 (Z.of_nat (length (replicate 1536 7))) demo_fs = Ok (Z.of_nat (length (replicate 1536 7)), s1) /\
    in_tx 3 demo_log (fresh demo_disk) demo_sb s1 C1 D1 /\ Z.of_nat (size D1) <= Z.of_nat (size (∅ : gset Z)) + 7.
Proof.
  assert (Hl : Z.of_nat (length (replicate 1536 7)) = 1536) by (by rewrite length_replicate).
  destruct (write_fits_log 3 demo_log (fresh demo_disk) demo_sb nodev demo_fs demo_disk ∅ 1 demo_file 5 (replicate 1536 7) demo_in_tx demo_open_file)
    as (s1 & C1 & D1 & H1 & H2 & _ & H3).
  - done.
  - apply Forall_replicate. lia.
  - simpl. lia.
  - rewrite Hl. change (MAXFILE * BSIZE) with 71680. lia.
  - rewrite Hl. by vm_compute.
  - simpl. by vm_compute.
  - by vm_compute.
  - by vm_compute.
  - done.
  - rewrite demo_free_list, length_seqZ. lia.
  - exists s1, C1, D1. split; [exact H1|]. split; [exact H2|exact H3].
Defined.

Lemma rw_terminates_witness : readi 3 nodev 0 7 100 demo_fs <> NoFuel /\ dirlink 3 nodev 0 more 2 demo_fs <> NoFuel.
Proof.
  destruct (rw_terminates 3 nodev ltac:(done) ltac:(done) 0 7 100 0 more more 2 1 demo_fs) as (H1 & _ & _ & _ & _ & H2); [lia|]. split; [exact H1|exact H2].
Defined.

Lemma admitted_operations_overflow_log_witness :
  touch 3 (seqZ 0 30) demo_fs = Panic "too big a transaction" /\
  (exists l' C', touch 3 (seqZ 0 29) demo_fs = Ok (tt, set_lo l' demo_fs) /\ tview 3 demo_log (fresh demo_disk) l' C' (list_to_set (seqZ 0 29)) ∅).
Proof.
  assert (Hin : forall k n, k <= 32 -> n ∈ seqZ 0 k -> is_Some (demo_disk !! n)).
  { intros k n Hk Hn%elem_of_seqZ. rewrite fs_demo_lookup by lia. eauto. }
  split.
  - refine (proj2 (proj2 (admitted_operations_overflow_log 3 demo_log (fresh demo_disk) demo_fs demo_disk (seqZ 0 30) _ _ _ _ _)) _);
      [apply demo_in_tx|done|done|apply NoDup_seqZ|intros n; by apply Hin|by rewrite length_seqZ].
  - refine (proj1 (proj2 (admitted_operations_overflow_log 3 demo_log (fresh demo_disk) demo_fs demo_disk (seqZ 0 29) _ _ _ _ _)) _);
      [apply demo_in_tx|done|done|apply NoDup_seqZ|intros n; by apply Hin|by rewrite length_seqZ].
Defined.
