(* ===== verification/Vm.v ===== *)
(** * Page tables and user memory

    Models [vm.c].  Page directories and page tables are pages of the memory
    of [Kalloc], read and written a word at a time; an address is a number, 0
    the null pointer.  A load or store outside the memory of the allocator is
    a fault.  [kend] and [kdata] stand for the linker symbols [end] and
    [data]. *)

From S2P Require Import Prelude Spinlock Mmu Kalloc Console Block Bio Log Fs.

Definition KERNLINK : Z := KERNBASE + EXTMEM.

(** ** Memory accesses *)

Definition word_index (a : Z) : nat := Z.to_nat (a mod PGSIZE / 4).

Definition load_word (a : Z) : M kst Z := fun s =>
  match pages s !! PGROUNDDOWN a with
  | Some ws => match ws !! word_index a with Some w => Ok (w, s) | None => Fault end
  | None => Fault
  end.

Definition put_pages (pg : gmap Z (list Z)) (s : kst) : kst := Kst (khw s) (klock s) (use_lock s) (freelist s) pg.

Definition store_word (a w : Z) : M kst unit := fun s =>
  match pages s !! PGROUNDDOWN a with
  | Some ws =>
      if decide (word_index a < length ws)%nat then Ok (tt, put_pages (<[PGROUNDDOWN a := <[word_index a := w]> ws]> (pages s)) s)
      else Fault
  | None => Fault
  end.

(** [memset(a, c, PGSIZE)] and [memmove(a, b, PGSIZE)] on whole pages. *)
Definition fill_page (a c : Z) : M kst unit := fun s =>
  match pages s !! a with
  | Some _ => Ok (tt, put_pages (<[a := page_fill c]> (pages s)) s)
  | None => Fault
  end.

Definition copy_page (a b : Z) : M kst unit := fun s =>
  match pages s !! a, pages s !! b with
  | Some _, Some ws => Ok (tt, put_pages (<[a := ws]> (pages s)) s)
  | _, _ => Fault
  end.

(** The bytes of a page, and the words of a list of bytes. *)
Fixpoint page_bytes (ws : list Z) : list Z :=
  match ws with [] => [] | w :: ws' => le_enc 4 w ++ page_bytes ws' end.

Fixpoint words_of (n : nat) (bs : list Z) : list Z :=
  match n with O => [] | S n' => le_dec (take 4 bs) :: words_of n' (drop 4 bs) end.

(** [memmove(a, src, length src)] within one page. *)
Definition store_bytes (a : Z) (src : list Z) : M kst unit := fun s =>
  match pages s !! PGROUNDDOWN a with
  | Some ws =>
      if decide (a mod PGSIZE + Z.of_nat (length src) <= PGSIZE)
      then Ok (tt, put_pages (<[PGROUNDDOWN a := words_of PAGE_WORDS (splice (Z.to_nat (a mod PGSIZE)) src (page_bytes ws))]> (pages s)) s)
      else Fault
  | None => Fault
  end.

(** ** Page tables *)

Definition walkpgdir (pgdir va : Z) (alloc : bool) : M kst Z :=
  let pde := u32 (pgdir + 4 * PDX va) in
  let* e := load_word pde in
  if negb (Z.land e PTE_P =? 0) then
    let* pgtab := lift (P2V (PTE_ADDR e)) in
    ret (u32 (pgtab + 4 * PTX va))
  else if negb alloc then ret 0
  else
    let* pgtab := kalloc in
    if pgtab =? 0 then ret 0
    else
      fill_page pgtab 0 ;;;
      let* pa := lift (V2P pgtab) in
      store_word pde (Z.lor (Z.lor (Z.lor pa PTE_P) PTE_W) PTE_U) ;;;
      ret (u32 (pgtab + 4 * PTX va)).

(** The loop of [mappages] runs from [a] to [last] in steps of a page, modulo
    2^32: the fuel is the number of those steps. *)
Fixpoint mappages_loop (fuel : nat) (pgdir a last pa perm : Z) : M kst Z :=
  match fuel with
  | O => nofuel
  | S n =>
      let* pte := walkpgdir pgdir a true in
      if pte =? 0 then ret (-1)
      else
        let* e := load_word pte in
        if negb (Z.land e PTE_P =? 0) then panic "remap"
        else
          store_word pte (Z.lor (Z.lor pa perm) PTE_P) ;;;
          if a =? last then ret 0
          else mappages_loop n pgdir (u32 (a + PGSIZE)) last (u32 (pa + PGSIZE)) perm
  end.

Definition mappages (pgdir va size pa perm : Z) : M kst Z :=
  let a := PGROUNDDOWN va in
  let last := PGROUNDDOWN (u32 (va + size - 1)) in
  mappages_loop (S (Z.to_nat (u32 (last - a) / PGSIZE))) pgdir a last pa perm.

Section vm.

Context (kend kdata : Z).

(** Each turn of the loop of [deallocuvm] moves [a] up by a page at least. *)
Fixpoint deallocuvm_loop (fuel : nat) (pgdir a oldsz : Z) : M kst unit :=
  match fuel with
  | O => nofuel
  | S n =>
      if oldsz <=? a then ret tt
      else
        let* pte := walkpgdir pgdir a false in
        if pte =? 0 then deallocuvm_loop n pgdir (u32 (u32 (PGADDR (PDX a + 1) 0 0 - PGSIZE) + PGSIZE)) oldsz
        else
          let* e := load_word pte in
          (if negb (Z.land e PTE_P =? 0) then
             let pa := PTE_ADDR e in
             if pa =? 0 then panic "kfree"
             else
               let* v := lift (P2V pa) in
               kfree kend v ;;;
               store_word pte 0
           else ret tt) ;;;
          deallocuvm_loop n pgdir (u32 (a + PGSIZE)) oldsz
  end.

Definition deallocuvm (pgdir oldsz newsz : Z) : M kst Z :=
  if oldsz <=? newsz then ret oldsz
  else
    let a := PGROUNDUP newsz in
    deallocuvm_loop (S (Z.to_nat ((oldsz - a + PGSIZE - 1) / PGSIZE))) pgdir a oldsz ;;;
    ret newsz.

(** The page tables of the entries from [i] on, [n] of them. *)
Fixpoint freevm_loop (n : nat) (pgdir i : Z) : M kst unit :=
  match n with
  | O => ret tt
  | S n' =>
      let* e := load_word (u32 (pgdir + 4 * i)) in
      (if negb (Z.land e PTE_P =? 0) then
         let* v := lift (P2V (PTE_ADDR e)) in
         kfree kend v
       else ret tt) ;;;
      freevm_loop n' pgdir (i + 1)
  end.

Definition freevm (pgdir : Z) : M kst unit :=
  if pgdir =? 0 then panic "freevm: no pgdir"
  else
    deallocuvm pgdir KERNBASE 0 ;;;
    freevm_loop (Z.to_nat NPDENTRIES) pgdir 0 ;;;
    kfree kend pgdir.

Record kmap_entry := Kmap { virt : Z; phys_start : Z; phys_end : Z; kperm : Z }.

Definition kmap : list kmap_entry :=
  [ Kmap KERNBASE 0 EXTMEM PTE_W;
    Kmap KERNLINK (KERNLINK - KERNBASE) (kdata - KERNBASE) 0;
    Kmap kdata (kdata - KERNBASE) PHYSTOP PTE_W;
    Kmap DEVSPACE DEVSPACE 0 PTE_W ].

Fixpoint setupkvm_loop (ks : list kmap_entry) (pgdir : Z) : M kst Z :=
  match ks with
  | [] => ret pgdir
  | k :: ks' =>
      let* r := mappages pgdir (virt k) (u32 (phys_end k - phys_start k)) (phys_start k) (kperm k) in
      if r <? 0 then freevm pgdir ;;; ret 0
      else setupkvm_loop ks' pgdir
  end.

Definition setupkvm : M kst Z :=
  let* pgdir := kalloc in
  if pgdir =? 0 then ret 0
  else
    fill_page pgdir 0 ;;;
    let* top := lift (P2V PHYSTOP) in
    if DEVSPACE <? top then panic "PHYSTOP too high"
    else setupkvm_loop kmap pgdir.

(** [kpgdir] and the register CR3. *)
Record mmu := Mmu { mk : kst; kpgdir : Z; cr3 : Z }.

Definition on_mk {A} (c : M kst A) : M mmu A := zoom mk (fun k s => Mmu k (kpgdir s) (cr3 s)) c.

Definition switchkvm : M mmu unit :=
  let* p := gets kpgdir in
  let* pa := lift (V2P p) in
  modify (fun s => Mmu (mk s) (kpgdir s) pa).

Definition kvmalloc : M mmu unit :=
  let* p := on_mk setupkvm in
  modify (fun s => Mmu (mk s) p (cr3 s)) ;;;
  switchkvm.

(** ** User memory *)

Definition inituvm (pgdir : Z) (init : list Z) : M kst unit :=
  if PGSIZE <=? Z.of_nat (length init) then panic "inituvm: more than a page"
  else
    let* mem := kalloc in
    fill_page mem 0 ;;;
    let* pa := lift (V2P mem) in
    mappages pgdir 0 PGSIZE pa (Z.lor PTE_W PTE_U) ;;;
    store_bytes mem init.

(** The allocator's memory and the console output. *)
Record vst := Vst { vk : kst; vout : list Z }.

Definition on_vk {A} (c : M kst A) : M vst A := zoom vk (fun k s => Vst k (vout s)) c.

Definition vprint (msg : list Z) : M vst unit :=
  let* out := lift (cprintf (Some msg) []) in
  modify (fun s => Vst (vk s) (vout s ++ out)).

Fixpoint allocuvm_loop (fuel : nat) (pgdir oldsz newsz a : Z) : M vst Z :=
  match fuel with
  | O => nofuel
  | S n =>
      if newsz <=? a then ret newsz
      else
        let* mem := on_vk kalloc in
        if mem =? 0 then
          vprint (codes "allocuvm out of memory" ++ [NL]) ;;;
          on_vk (deallocuvm pgdir newsz oldsz) ;;;
          ret 0
        else
          on_vk (fill_page mem 0) ;;;
          let* pa := lift (V2P mem) in
          let* r := on_vk (mappages pgdir a PGSIZE pa (Z.lor PTE_W PTE_U)) in
          if r <? 0 then
            vprint (codes "allocuvm out of memory (2)" ++ [NL]) ;;;
            on_vk (deallocuvm pgdir newsz oldsz) ;;;
            on_vk (kfree kend mem) ;;;
            ret 0
          else allocuvm_loop n pgdir oldsz newsz (u32 (a + PGSIZE))
  end.

Definition allocuvm (pgdir oldsz newsz : Z) : M vst Z :=
  if KERNBASE <=? newsz then ret 0
  else if newsz <? oldsz then ret oldsz
  else
    let a := PGROUNDUP oldsz in
    allocuvm_loop (S (Z.to_nat ((newsz - a + PGSIZE - 1) / PGSIZE))) pgdir oldsz newsz a.

Definition clearpteu (pgdir uva : Z) : M kst unit :=
  let* pte := walkpgdir pgdir uva false in
  if pte =? 0 then panic "clearpteu"
  else
    let* e := load_word pte in
    store_word pte (Z.land e (Z.lnot PTE_U)).

(** The loop of [copyuvm]: [false] for [goto bad]. *)
Fixpoint copyuvm_loop (fuel : nat) (pgdir d i sz : Z) : M kst bool :=
  match fuel with
  | O => nofuel
  | S n =>
      if sz <=? i then ret true
      else
        let* pte := walkpgdir pgdir i false in
        if pte =? 0 then panic "copyuvm: pte should exist"
        else
          let* e := load_word pte in
          if Z.land e PTE_P =? 0 then panic "copyuvm: page not present"
          else
            let* mem := kalloc in
            if mem =? 0 then ret false
            else
              let* from := lift (P2V (PTE_ADDR e)) in
              copy_page mem from ;;;
              let* pa := lift (V2P mem) in
              let* r := mappages d i PGSIZE pa (PTE_FLAGS e) in
              if r <? 0 then kfree kend mem ;;; ret false
              else copyuvm_loop n pgdir d (u32 (i + PGSIZE)) sz
  end.

Definition copyuvm (pgdir sz : Z) : M kst Z :=
  let* d := setupkvm in
  if d =? 0 then ret 0
  else
    let* ok := copyuvm_loop (S (Z.to_nat ((sz + PGSIZE - 1) / PGSIZE))) pgdir d 0 sz in
    if ok : bool then ret d
    else freevm d ;;; ret 0.

(** The entry is read without looking at the pointer: a fault when there is
    no page table. *)
Definition uva2ka (pgdir uva : Z) : M kst Z :=
  let* pte := walkpgdir pgdir uva false in
  let* e := load_word pte in
  if Z.land e PTE_P =? 0 then ret 0
  else if Z.land e PTE_U =? 0 then ret 0
  else lift (P2V (PTE_ADDR e)).

(** [buf] is what is left to copy. *)
Fixpoint copyout_loop (fuel : nat) (pgdir va : Z) (buf : list Z) : M kst Z :=
  match fuel with
  | O => nofuel
  | S f =>
      if Z.of_nat (length buf) =? 0 then ret 0
      else
        let va0 := PGROUNDDOWN va in
        let* pa0 := uva2ka pgdir va0 in
        if pa0 =? 0 then ret (-1)
        else
          let n := Z.min (PGSIZE - (va - va0)) (Z.of_nat (length buf)) in
          store_bytes (pa0 + (va - va0)) (take (Z.to_nat n) buf) ;;;
          copyout_loop f pgdir (u32 (va0 + PGSIZE)) (drop (Z.to_nat n) buf)
  end.

Definition copyout (pgdir va : Z) (p : list Z) : M kst Z :=
  copyout_loop (S (S (Z.to_nat (Z.of_nat (length p) / PGSIZE) + 1))) pgdir va p.

(** ** Loading a program *)

Definition on_k {A} (c : M kst A) : M (kst * fsys) A := zoom fst (fun k s => (k, snd s)) c.
Definition on_f {A} (c : M fsys A) : M (kst * fsys) A := zoom snd (fun f s => (fst s, f)) c.

Context (me : Z) (devsw : Z -> devops).

Fixpoint loaduvm_loop (fuel : nat) (pgdir addr : Z) (ip : nat) (offset sz i : Z) : M (kst * fsys) Z :=
  match fuel with
  | O => nofuel
  | S f =>
      if sz <=? i then ret 0
      else
        let* pte := on_k (walkpgdir pgdir (u32 (addr + i)) false) in
        if pte =? 0 then panic "loaduvm: address should exist"
        else
          let* e := on_k (load_word pte) in
          let pa := PTE_ADDR e in
          let n := if sz - i <? PGSIZE then sz - i else PGSIZE in
          let* dst := lift (P2V pa) in
          let* rd := on_f (readi me devsw ip (u32 (offset + i)) n) in
          (if 0 <=? fst rd then on_k (store_bytes dst (snd rd)) else ret tt) ;;;
          if negb (fst rd =? n) then ret (-1)
          else loaduvm_loop f pgdir addr ip offset sz (u32 (i + PGSIZE))
  end.

Definition loaduvm (pgdir addr : Z) (ip : nat) (offset sz : Z) : M (kst * fsys) Z :=
  if negb (addr mod PGSIZE =? 0) then panic "loaduvm: addr must be page aligned"
  else loaduvm_loop (S (Z.to_nat ((sz + PGSIZE - 1) / PGSIZE))) pgdir addr ip offset sz 0.

End vm.
