(* ===== verification/VmPt.v ===== *)
(** * Address spaces

    [aspace pg pgdir tabs pm]: in the memory [pg], the page directory [pgdir]
    has the page tables [tabs] (by directory index) and maps exactly the
    virtual pages of [pm], each to its page table entry.  The entries below
    [KERNBASE] are user memory and own the pages they map.  The lemmas say what
    the routines that work on one entry do to it. *)

From S2P Require Import Prelude Spinlock Mmu Kalloc Block Fs Vm.

Definition NPAGES : Z := 2 ^ 20.
Definition UPAGES : Z := 2 ^ 19.

(** ** Words of page table entries *)

Lemma PTE_ADDR_eq e : PTE_ADDR e = e / PGSIZE * PGSIZE.
Proof. apply (land_lnot_ones e 12). lia. Qed.

Lemma PTE_FLAGS_eq e : PTE_FLAGS e = e mod PGSIZE.
Proof. unfold PTE_FLAGS. change 0xFFF with (Z.ones 12). by rewrite Z.land_ones. Qed.

Lemma bits_above f n : 0 <= f < PGSIZE -> 12 <= n -> Z.testbit f n = false.
Proof.
  intros Hf Hn. destruct (decide (f = 0)) as [-> |Hne]; [apply Z.bits_0|]. apply Z.bits_above_log2; [lia|].
  assert (Z.log2 f < 12) by (apply Z.log2_lt_pow2; [lia|apply Hf]). lia.
Qed.

Lemma lor_range f g : 0 <= f < PGSIZE -> 0 <= g < PGSIZE -> 0 <= Z.lor f g < PGSIZE.
Proof.
  intros Hf Hg. replace (Z.lor f g) with (Z.lor f g mod 2 ^ 12); [apply Z.mod_pos_bound; lia|].
  apply Z.bits_inj'. intros n Hn. destruct (decide (n < 12)); [by rewrite Z.mod_pow2_bits_low|].
  by rewrite Z.mod_pow2_bits_high, Z.lor_spec, !bits_above by (done || lia).
Qed.

Lemma lor_pages q f : 0 <= f < PGSIZE -> Z.lor (q * PGSIZE) f = q * PGSIZE + f.
Proof.
  intros Hf. assert (Hz : Z.land (q * PGSIZE) f = 0).
  { apply Z.bits_inj'. intros n Hn. rewrite Z.land_spec, Z.bits_0. change (q * PGSIZE) with (q * 2 ^ 12).
    destruct (decide (n < 12)) as [Hlt|Hge]; [by rewrite Z.mul_pow2_bits_low|].
    rewrite (bits_above f) by (done || lia). apply andb_false_r. }
  by rewrite Z.add_nocarry_lxor, Z.lxor_lor.
Qed.

Lemma lor_flags pa f g : pa mod PGSIZE = 0 -> 0 <= f < PGSIZE -> 0 <= g < PGSIZE -> Z.lor (Z.lor pa f) g = pa + Z.lor f g.
Proof.
  intros Hp Hf Hg. rewrite <- Z.lor_assoc. pose proof (lor_range f g Hf Hg).
  replace pa with (pa / PGSIZE * PGSIZE) at 1 by mmu_mod. rewrite lor_pages by done. mmu_mod.
Qed.

(** The entry made of the address of a page and permissions. *)
Definition mkpte (pa perm : Z) : Z := Z.lor (Z.lor pa perm) PTE_P.

Definition present (e : Z) : Prop := Z.land e PTE_P <> 0.

Definition kva (e : Z) : Z := PTE_ADDR e + KERNBASE.

Lemma present_odd e : present e <-> Z.odd e = true.
Proof.
  unfold present, PTE_P. change 1 with (Z.ones 1). rewrite Z.land_ones by lia. change (2 ^ 1) with 2. rewrite Zmod_odd.
  by destruct (Z.odd e).
Qed.

Lemma mkpte_ok pa perm :
  pa mod PGSIZE = 0 -> 0 <= pa < 2 ^ 32 -> 0 <= perm < PGSIZE ->
  u32_range (mkpte pa perm) /\ present (mkpte pa perm) /\ PTE_ADDR (mkpte pa perm) = pa /\ PTE_FLAGS (mkpte pa perm) = Z.lor perm PTE_P.
Proof.
  intros Hp Hr Hf. pose proof (lor_range perm PTE_P Hf ltac:(done)) as Hl. unfold mkpte. rewrite lor_flags by (unfold PTE_P, PGSIZE in *; lia).
  split_and!.
  - mmu_mod.
  - apply present_odd. rewrite Z.odd_add. replace (Z.odd pa) with false.
    + rewrite <- (Z.bit0_odd (Z.lor perm PTE_P)), Z.lor_spec. by rewrite orb_true_r.
    + symmetry. replace pa with (2 * (pa / 2)) by mmu_mod. by rewrite Z.odd_mul.
  - rewrite PTE_ADDR_eq. mmu_mod.
  - rewrite PTE_FLAGS_eq. mmu_mod.
Qed.

(** ** Address arithmetic of the walk *)

Lemma PDX_eq va : u32_range va -> PDX va = va / PGSIZE / 1024.
Proof.
  intros H. unfold PDX. rewrite u32_small by done. change 0x3FF with (Z.ones 10). rewrite Z.land_ones by lia.
  rewrite Z.shiftr_div_pow2 by done. change (2 ^ PDXSHIFT) with (PGSIZE * 1024). rewrite Z.div_div by done.
  apply Z.mod_small. change (2 ^ 10) with 1024. mmu_mod.
Qed.

Lemma PTX_eq va : u32_range va -> PTX va = va / PGSIZE mod 1024.
Proof.
  intros H. unfold PTX. rewrite u32_small by done. change 0x3FF with (Z.ones 10). rewrite Z.land_ones by lia.
  by rewrite Z.shiftr_div_pow2.
Qed.

(** The word [i] of a page. *)
Lemma word_at a i : a mod PGSIZE = 0 -> 0 <= a < 2 ^ 32 -> 0 <= i < 1024 ->
  u32 (a + 4 * i) = a + 4 * i /\ PGROUNDDOWN (a + 4 * i) = a /\ word_index (a + 4 * i) = Z.to_nat i.
Proof.
  intros Ha Hr Hi. rewrite u32_small by mmu_mod. rewrite PGROUNDDOWN_eq by mmu_mod. unfold word_index.
  split_and!; [done|mmu_mod|f_equal; mmu_mod].
Qed.

(** ** Address spaces *)

(** A page in memory. *)
Definition has_page (pg : gmap Z (list Z)) (a : Z) : Prop := exists ws, pg !! a = Some ws /\ length ws = PAGE_WORDS.

(** The directory entry for a page table. *)
Definition pde_of (o : option Z) : Z :=
  match o with Some t => Z.lor (Z.lor (Z.lor (t - KERNBASE) PTE_P) PTE_W) PTE_U | None => 0 end.

(** The entry of virtual page [v]. *)
Definition pte_at (pg : gmap Z (list Z)) (tabs : gmap Z Z) (v : Z) : Z :=
  match tabs !! (v / 1024) with
  | Some t => match pg !! t with Some ws => nth (Z.to_nat (v mod 1024)) ws 0 | None => 0 end
  | None => 0
  end.

Definition user (pm : gmap Z Z) : gmap Z Z := filter (fun p => p.1 < UPAGES) pm.

Definition tables (tabs : gmap Z Z) : list Z := (map_to_list tabs).*2.
Definition upages (pm : gmap Z Z) : list Z := kva <$> (map_to_list (user pm)).*2.

(** The pages of an address space. *)
Definition owned (pgdir : Z) (tabs pm : gmap Z Z) : list Z := pgdir :: tables tabs ++ upages pm.

Section aspace.

Context (kend : Z).

Record aspace (pg : gmap Z (list Z)) (pgdir : Z) (tabs pm : gmap Z Z) : Prop := {
  as_dir : exists d, pg !! pgdir = Some d /\ length d = PAGE_WORDS /\
    forall i, 0 <= i < 1024 -> d !! Z.to_nat i = Some (pde_of (tabs !! i));
  as_tab : forall i t, tabs !! i = Some t -> 0 <= i < 1024 /\ page_ok kend t /\ has_page pg t;
  as_pte : forall v, 0 <= v < NPAGES -> pte_at pg tabs v = default 0 (pm !! v);
  as_pm : forall v e, pm !! v = Some e -> 0 <= v < NPAGES /\ u32_range e /\ present e /\
    (v < UPAGES -> page_ok kend (kva e) /\ has_page pg (kva e));
  as_pgdir : page_ok kend pgdir;
  as_nodup : NoDup (owned pgdir tabs pm)
}.

Lemma elem_tables tabs t : t ∈ tables tabs <-> exists i, tabs !! i = Some t.
Proof.
  unfold tables. rewrite list_elem_of_fmap. split.
  - intros ([i x] & -> & H). exists i. by apply elem_of_map_to_list in H.
  - intros [i H]. exists (i, t). split; [done|]. by apply elem_of_map_to_list.
Qed.

Lemma user_lookup pm v e : user pm !! v = Some e <-> pm !! v = Some e /\ v < UPAGES.
Proof. unfold user. by rewrite map_lookup_filter_Some. Qed.

Lemma elem_upages pm a : a ∈ upages pm <-> exists v e, pm !! v = Some e /\ v < UPAGES /\ a = kva e.
Proof.
  unfold upages. rewrite list_elem_of_fmap. split.
  - intros (e & -> & H). apply list_elem_of_fmap in H as ([v x] & -> & H). apply elem_of_map_to_list, user_lookup in H as [H1 H2]. by exists v, x.
  - intros (v & e & H1 & H2 & ->). exists e. split; [done|]. apply list_elem_of_fmap. exists (v, e). split; [done|].
    by apply elem_of_map_to_list, user_lookup.
Qed.

Lemma elem_owned pgdir tabs pm a : a ∈ owned pgdir tabs pm <-> a = pgdir \/ a ∈ tables tabs \/ a ∈ upages pm.
Proof. unfold owned. by rewrite elem_of_cons, elem_of_app. Qed.

(** The contents of its tables matter; user pages only have to exist. *)
Lemma aspace_user pg pg' pgdir tabs pm :
  aspace pg pgdir tabs pm -> (forall a, a = pgdir \/ a ∈ tables tabs -> pg' !! a = pg !! a) -> (forall a, a ∈ upages pm -> has_page pg' a) ->
  aspace pg' pgdir tabs pm.
Proof.
  intros [Hd Ht Hp Hm Hg Hn] Hf Hu.
  assert (Htab : forall i t, tabs !! i = Some t -> pg' !! t = pg !! t).
  { intros i t Hi. apply Hf. right. apply elem_tables. eauto. }
  constructor; try done.
  - destruct Hd as (d & H1 & H2 & H3). exists d. split; [|done]. rewrite Hf; [done|]. by left.
  - intros i t Hi. destruct (Ht i t Hi) as (? & ? & ws & ? & ?). split_and!; try lia; try done. exists ws. by rewrite (Htab i t).
  - intros v Hv. rewrite <- Hp by done. unfold pte_at. destruct (tabs !! (v / 1024)) as [t|] eqn:E; [|done]. by rewrite (Htab _ _ E).
  - intros v e He. destruct (Hm v e He) as (? & ? & ? & Hlt). split_and!; try done; try lia. intros Hv. split; [by apply Hlt|].
    apply Hu, elem_upages. eauto.
Qed.

Lemma upage_has pg pgdir tabs pm a : aspace pg pgdir tabs pm -> a ∈ upages pm -> page_ok kend a /\ has_page pg a.
Proof. intros A (v & e & He & Hlt & ->)%elem_upages. destruct (as_pm _ _ _ _ A v e He) as (_ & _ & _ & H). auto. Qed.

(** Only the pages it owns matter. *)
Lemma aspace_frame pg pg' pgdir tabs pm :
  aspace pg pgdir tabs pm -> (forall a, a ∈ owned pgdir tabs pm -> pg' !! a = pg !! a) -> aspace pg' pgdir tabs pm.
Proof.
  intros A Hf. apply (aspace_user pg); [done| |].
  - intros a Ha. apply Hf, elem_owned. tauto.
  - intros a Ha. destruct (upage_has _ _ _ _ _ A Ha) as (_ & ws & Hp & Hl). exists ws. split; [|done]. rewrite Hf; [done|]. apply elem_owned. auto.
Qed.

(** Distinct roles have distinct pages. *)
Lemma tab_ne_pgdir pg pgdir tabs pm i t : aspace pg pgdir tabs pm -> tabs !! i = Some t -> t <> pgdir.
Proof.
  intros A Hi ->. pose proof (as_nodup _ _ _ _ A) as Hn. apply NoDup_cons in Hn as [Hn _]. apply Hn, elem_of_app. left. apply elem_tables. eauto.
Qed.

Lemma tabs_inj pg pgdir tabs pm i j t : aspace pg pgdir tabs pm -> tabs !! i = Some t -> tabs !! j = Some t -> i = j.
Proof.
  intros A Hi Hj. pose proof (as_nodup _ _ _ _ A) as Hn. apply NoDup_cons in Hn as [_ Hn]. apply NoDup_app in Hn as (Hn & _ & _).
  unfold tables in Hn. apply elem_of_map_to_list in Hi, Hj. apply list_elem_of_lookup in Hi as [a Ha]. apply list_elem_of_lookup in Hj as [b Hb].
  assert (a = b); [|congruence]. eapply NoDup_lookup; [exact Hn| |]; rewrite list_lookup_fmap; [by rewrite Ha|by rewrite Hb].
Qed.

Lemma tab_not_user pg pgdir tabs pm i t : aspace pg pgdir tabs pm -> tabs !! i = Some t -> t ∉ upages pm.
Proof.
  intros A Hi Ht. pose proof (as_nodup _ _ _ _ A) as Hn. apply NoDup_cons in Hn as [_ Hn]. apply NoDup_app in Hn as (_ & Hn & _).
  apply (Hn t); [apply elem_tables; eauto|done].
Qed.

(** ** The walk *)

Lemma page_ok_u32 a : page_ok kend a -> a mod PGSIZE = 0 /\ 0 <= a < 2 ^ 32 /\ KERNBASE <= a < KERNBASE + PHYSTOP.
Proof. unfold page_ok. intros (? & ? & ?). split; [done|]. mmu_lia. Qed.

Lemma load_word_ok s a i ws w :
  a mod PGSIZE = 0 -> 0 <= a < 2 ^ 32 -> 0 <= i < 1024 -> pages s !! a = Some ws -> ws !! Z.to_nat i = Some w ->
  load_word (u32 (a + 4 * i)) s = Ok (w, s).
Proof.
  intros Ha Hr Hi Hp Hw. destruct (word_at a i Ha Hr Hi) as (H1 & H2 & H3). unfold load_word. by rewrite H1, H2, Hp, H3, Hw.
Qed.

Lemma store_word_ok s a i ws w :
  a mod PGSIZE = 0 -> 0 <= a < 2 ^ 32 -> 0 <= i < 1024 -> pages s !! a = Some ws -> length ws = PAGE_WORDS ->
  store_word (u32 (a + 4 * i)) w s = Ok (tt, put_pages (<[a := <[Z.to_nat i := w]> ws]> (pages s)) s).
Proof.
  intros Ha Hr Hi Hp Hl. destruct (word_at a i Ha Hr Hi) as (H1 & H2 & H3). unfold store_word. rewrite H1, H2, Hp, H3.
  rewrite decide_True; [done|]. rewrite Hl. unfold PAGE_WORDS. lia.
Qed.

Lemma pde_fields t : page_ok kend t -> present (pde_of (Some t)) /\ PTE_ADDR (pde_of (Some t)) = t - KERNBASE.
Proof.
  intros Ht. apply page_ok_u32 in Ht as (Hm & Hr & Hk). unfold pde_of.
  replace (Z.lor (Z.lor (Z.lor (t - KERNBASE) PTE_P) PTE_W) PTE_U) with (mkpte (t - KERNBASE) 6); [|unfold mkpte; by rewrite <- !Z.lor_assoc].
  destruct (mkpte_ok (t - KERNBASE) 6) as (_ & H1 & H2 & _); [mmu_mod|mmu_lia|done|]. by split.
Qed.

Lemma pde_present t : page_ok kend t -> Z.land (pde_of (Some t)) PTE_P <> 0 /\ P2V (PTE_ADDR (pde_of (Some t))) = Ok t.
Proof.
  intros Ht. destruct (pde_fields t Ht) as [H1 H2]. split; [done|]. rewrite H2. apply page_ok_u32 in Ht as (_ & _ & Hk). unfold P2V.
  replace (KERNBASE <? t - KERNBASE) with false by (symmetry; apply Z.ltb_ge; mmu_lia). rewrite u32_small by mmu_lia. f_equal. lia.
Qed.

Lemma walk_dir s pgdir tabs pm va :
  aspace (pages s) pgdir tabs pm -> u32_range va -> load_word (u32 (pgdir + 4 * PDX va)) s = Ok (pde_of (tabs !! PDX va), s).
Proof.
  intros A Hv. destruct (as_dir _ _ _ _ A) as (d & H1 & H2 & H3). pose proof (page_ok_u32 _ (as_pgdir _ _ _ _ A)) as (? & ? & _).
  assert (0 <= PDX va < 1024) by (rewrite PDX_eq by done; mmu_mod). by apply (load_word_ok s pgdir (PDX va) d); [..|apply H3].
Qed.

(** The address of the entry of [va] in page table [t]. *)
Definition pte_ptr (t va : Z) : Z := u32 (t + 4 * PTX va).

Lemma pte_ptr_nonnull t va : page_ok kend t -> u32_range va -> (pte_ptr t va =? 0) = false.
Proof.
  intros Ht Hv. apply page_ok_u32 in Ht as (Hm & Hr & Hk). unfold pte_ptr.
  destruct (word_at t (PTX va) Hm Hr) as (-> & _); [rewrite PTX_eq by done; mmu_mod|].
  apply Z.eqb_neq. rewrite PTX_eq by done. mmu_mod.
Qed.

Lemma walk_hit s pgdir tabs pm va t alloc :
  aspace (pages s) pgdir tabs pm -> u32_range va -> tabs !! PDX va = Some t ->
  walkpgdir pgdir va alloc s = Ok (pte_ptr t va, s).
Proof.
  intros A Hv Ht. unfold walkpgdir. rewrite (bind_Ok _ _ _ _ _ (walk_dir _ _ _ _ _ A Hv)). rewrite Ht.
  destruct (as_tab _ _ _ _ A _ _ Ht) as (_ & Hok & _). destruct (pde_present t Hok) as [Hp H2].
  apply Z.eqb_neq in Hp as ->. cbn [negb]. by rewrite (bind_Ok _ _ _ _ _ (lift_Ok _ s _ H2)).
Qed.

Lemma walk_miss s pgdir tabs pm va :
  aspace (pages s) pgdir tabs pm -> u32_range va -> tabs !! PDX va = None -> walkpgdir pgdir va false s = Ok (0, s).
Proof. intros A Hv Ht. unfold walkpgdir. rewrite (bind_Ok _ _ _ _ _ (walk_dir _ _ _ _ _ A Hv)). by rewrite Ht. Qed.

(** ** Changes to memory *)

(** Only the pages [X] changed, and locks and interrupts are as before. *)
Definition touched (X : list Z) (s s' : kst) : Prop :=
  hw_sim (khw s) (khw s') /\ forall a, a ∉ X -> pages s' !! a = pages s !! a.

Lemma touched_refl X s : touched X s s.
Proof. split; [reflexivity|done]. Qed.

Lemma touched_trans X s1 s2 s3 : touched X s1 s2 -> touched X s2 s3 -> touched X s1 s3.
Proof. intros [H1 H2] [H3 H4]. split; [by etransitivity|]. intros a Ha. by rewrite H4, H2. Qed.

Lemma touched_mono X Y s s' : touched X s s' -> X ⊆ Y -> touched Y s s'.
Proof. intros [H1 H2] Hs. split; [done|]. intros a Ha. apply H2. auto. Qed.

Lemma kmem_rep_put s l a ws : kmem_rep kend s l -> a ∉ l -> kmem_rep kend (put_pages (<[a := ws]> (pages s)) s) l.
Proof. intros [Hc Hn Hp Hl Hh] Ha. constructor; try done. by apply free_chain_insert. Qed.

Lemma touched_put s a ws X : a ∈ X -> touched X s (put_pages (<[a := ws]> (pages s)) s).
Proof. intros Ha. split; [reflexivity|]. intros b Hb. simpl. rewrite lookup_insert_ne; [done|]. by intros ->. Qed.

Lemma free_not_null l a s : kmem_rep kend s l -> a ∈ l -> page_ok kend a /\ (a =? 0) = false.
Proof.
  intros Hk Ha. pose proof (kr_pages _ _ _ Hk) as Hf. apply (proj1 (Forall_forall _ _) Hf) in Ha. split; [done|].
  apply page_ok_pos in Ha. apply Z.eqb_neq. lia.
Qed.

Lemma V2P_page a : page_ok kend a -> V2P a = Ok (a - KERNBASE).
Proof.
  intros Ha. apply page_ok_u32 in Ha as (_ & _ & H). unfold V2P. replace (a <? KERNBASE) with false by blia. by rewrite u32_small by mmu_lia.
Qed.

(** [kalloc] for the routines below. *)
Lemma kalloc_take s a l :
  kmem_rep kend s (a :: l) ->
  exists s', kalloc s = Ok (a, s') /\ kmem_rep kend s' l /\ a ∉ l /\ page_ok kend a /\ (a =? 0) = false /\ has_page (pages s') a /\ touched [] s s' /\
    pages s' = pages s.
Proof.
  intros Hk. destruct (kalloc_some_ok kend s a l Hk) as (s' & H1 & H2 & H3 & H4 & n & H5). exists s'.
  destruct (free_not_null _ a _ Hk ltac:(left)) as [Ho H0]. pose proof (kr_nodup _ _ _ Hk) as Hn. apply NoDup_cons in Hn as [Hn _].
  split_and!; try done; [rewrite H4; by exists (free_page n)|]. split; [done|]. intros. by rewrite H4.
Qed.

Lemma kalloc_empty s : kmem_rep kend s [] -> exists s', kalloc s = Ok (0, s') /\ kmem_rep kend s' [] /\ touched [] s s' /\ pages s' = pages s.
Proof.
  intros Hk. destruct (kalloc_none_ok kend s Hk) as (s' & H1 & H2 & H3 & H4). exists s'. split_and!; try done. split; [done|]. intros. by rewrite H4.
Qed.

Lemma fill_page_ok s a c : has_page (pages s) a -> fill_page a c s = Ok (tt, put_pages (<[a := page_fill c]> (pages s)) s).
Proof. intros (ws & H & _). unfold fill_page. by rewrite H. Qed.

Lemma page_fill_length c : length (page_fill c) = PAGE_WORDS.
Proof. apply length_replicate. Qed.

Lemma nth_page_fill k : nth k (page_fill 0) 0 = 0.
Proof.
  unfold page_fill. change (memset_word 0) with 0. rewrite nth_lookup. destruct (replicate PAGE_WORDS 0 !! k) eqn:E; [|done].
  by apply lookup_replicate in E as [-> _].
Qed.

(** A fresh page table changes no mapping. *)
Lemma aspace_new_table pg pgdir tabs pm i t d :
  aspace pg pgdir tabs pm -> 0 <= i < 1024 -> tabs !! i = None -> page_ok kend t -> t ∉ owned pgdir tabs pm -> pg !! pgdir = Some d ->
  aspace (<[pgdir := <[Z.to_nat i := pde_of (Some t)]> d]> (<[t := page_fill 0]> pg)) pgdir (<[i := t]> tabs) pm /\
  owned pgdir (<[i := t]> tabs) pm ≡ₚ t :: owned pgdir tabs pm.
Proof.
  intros A Hi Hnone Hok Ht Hd.
  assert (Hperm : owned pgdir (<[i := t]> tabs) pm ≡ₚ t :: owned pgdir tabs pm).
  { unfold owned, tables. rewrite map_to_list_insert by done. simpl. apply perm_swap. }
  assert (Hne : t <> pgdir) by (intros ->; apply Ht, elem_owned; by left).
  assert (Htt : forall j u, tabs !! j = Some u -> u <> t).
  { intros j u Hj ->. apply Ht, elem_owned. right. left. apply elem_tables. eauto. }
  pose proof (fun j u => tab_ne_pgdir _ _ _ _ j u A) as Hgt.
  split; [|done]. destruct A as [Hd' Htab Hpte Hpm Hg Hn]. destruct Hd' as (d' & Hd1 & Hd2 & Hd3). simplify_eq. constructor; try done.
  - eexists. rewrite lookup_insert_eq. split; [done|]. rewrite length_insert. split; [done|]. intros j Hj. destruct (decide (j = i)) as [-> |Hji].
    + rewrite lookup_insert_eq. rewrite list_lookup_insert_eq; [done|]. rewrite Hd2. unfold PAGE_WORDS. lia.
    + rewrite lookup_insert_ne, list_lookup_insert_ne by lia. by apply Hd3.
  - intros j u Hj. apply lookup_insert_Some in Hj as [[<- <-]|[Hji Hj]].
    + split_and!; try lia; [done|]. eexists. rewrite lookup_insert_ne, lookup_insert_eq by done. split; [done|apply page_fill_length].
    + destruct (Htab j u Hj) as (? & ? & ws & ? & ?). split_and!; try lia; [done|]. exists ws. split; [|done].
      rewrite !lookup_insert_ne; [done|by apply not_eq_sym, (Htt j)|by apply not_eq_sym, (Hgt j)].
  - intros v Hv. rewrite <- Hpte by done. unfold pte_at. destruct (decide (v / 1024 = i)) as [<- |Hvi].
    + rewrite lookup_insert_eq, Hnone. rewrite lookup_insert_ne, lookup_insert_eq by done. apply nth_page_fill.
    + rewrite lookup_insert_ne by done. destruct (tabs !! (v / 1024)) as [u|] eqn:Eu; [|done].
      rewrite !lookup_insert_ne; [done|by apply not_eq_sym, (Htt _ u Eu)|by apply not_eq_sym, (Hgt _ u Eu)].
  - intros v e He. destruct (Hpm v e He) as (? & ? & ? & Hu). split_and!; try lia; try done. intros Hlt. destruct (Hu Hlt) as (? & ws & ? & ?).
    split; [done|]. exists ws. split; [|done]. assert (Hin : kva e ∈ upages pm) by (apply elem_upages; eauto).
    rewrite !lookup_insert_ne; [done| |]; intros Heq.
    + apply Ht, elem_owned. right. right. by rewrite Heq.
    + apply NoDup_cons in Hn as [Hn _]. apply Hn, elem_of_app. right. by rewrite Heq.
  - rewrite Hperm. by apply NoDup_cons.
Qed.

(** ** Changing one entry *)

Lemma has_page_set pg t k w ws a : pg !! t = Some ws -> has_page pg a -> has_page (<[t := <[k := w]> ws]> pg) a.
Proof.
  intros Ht (us & Ha & Hl). destruct (decide (t = a)) as [-> |Hne].
  - simplify_eq. eexists. rewrite lookup_insert_eq. split; [done|]. by rewrite length_insert.
  - exists us. by rewrite lookup_insert_ne.
Qed.

Lemma nth_upd (l : list Z) k j w : (k < length l)%nat -> nth j (<[k := w]> l) 0 = if decide (j = k) then w else nth j l 0.
Proof.
  intros Hk. rewrite !nth_lookup. destruct (decide (j = k)) as [-> |Hne]; [by rewrite list_lookup_insert_eq|by rewrite list_lookup_insert_ne].
Qed.

Lemma aspace_set pg pgdir tabs pm pm' v t ws w :
  aspace pg pgdir tabs pm -> 0 <= v < NPAGES -> tabs !! (v / 1024) = Some t -> pg !! t = Some ws ->
  (forall v', v' <> v -> pm' !! v' = pm !! v') -> w = default 0 (pm' !! v) ->
  (forall e, pm' !! v = Some e -> u32_range e /\ present e /\ (v < UPAGES -> page_ok kend (kva e) /\ has_page pg (kva e))) ->
  NoDup (owned pgdir tabs pm') ->
  aspace (<[t := <[Z.to_nat (v mod 1024) := w]> ws]> pg) pgdir tabs pm'.
Proof.
  intros A Hv Ht Hws Hsame Hw Hnew Hn. destruct (as_tab _ _ _ _ A _ _ Ht) as (_ & _ & ws' & Hws' & Hlen). simplify_eq.
  pose proof (tab_ne_pgdir _ _ _ _ _ _ A Ht) as Hg. constructor; try done.
  - destruct (as_dir _ _ _ _ A) as (d & ? & ? & ?). exists d. by rewrite lookup_insert_ne.
  - intros i u Hi. destruct (as_tab _ _ _ _ A i u Hi) as (? & ? & ?). split_and!; try lia; try done. by apply has_page_set.
  - intros v' Hv'. unfold pte_at. destruct (decide (v' = v)) as [-> |Hne].
    + rewrite Ht, lookup_insert_eq, nth_upd; [by rewrite decide_True|]. rewrite Hlen. unfold PAGE_WORDS. mmu_mod.
    + rewrite (Hsame v') by done. rewrite <- (as_pte _ _ _ _ A v') by done. unfold pte_at. destruct (tabs !! (v' / 1024)) as [u|] eqn:Eu; [|done].
      destruct (decide (u = t)) as [-> |Hut]; [|by rewrite lookup_insert_ne].
      assert (v' / 1024 = v / 1024) by (by eapply tabs_inj). rewrite lookup_insert_eq, Hws, nth_upd by (rewrite Hlen; unfold PAGE_WORDS; mmu_mod).
      rewrite decide_False; [done|]. mmu_mod.
  - intros v' e He. destruct (decide (v' = v)) as [-> |Hne].
    + destruct (Hnew e He) as (? & ? & Hu). split_and!; try lia; try done. intros Hlt. destruct (Hu Hlt). split; [done|]. by apply has_page_set.
    + rewrite Hsame in He by done. destruct (as_pm _ _ _ _ A v' e He) as (? & ? & ? & Hu). split_and!; try lia; try done.
      intros Hlt. destruct (Hu Hlt). split; [done|]. by apply has_page_set.
  - exact (as_pgdir _ _ _ _ A).
Qed.

Lemma owned_insert pgdir tabs pm v e :
  pm !! v = None -> owned pgdir tabs (<[v := e]> pm) ≡ₚ (if decide (v < UPAGES) then [kva e] else []) ++ owned pgdir tabs pm.
Proof.
  intros Hv. unfold owned, upages, user. destruct (decide (v < UPAGES)) as [Hlt|Hge].
  - rewrite map_filter_insert_True by done. rewrite map_to_list_insert by (rewrite map_lookup_filter_None; by left).
    cbn [fmap list_fmap snd app]. rewrite <- Permutation_middle. apply perm_swap.
  - rewrite map_filter_insert_not; [done|]. intros ? H. by simpl in H.
Qed.

Lemma owned_delete pgdir tabs pm v e :
  pm !! v = Some e -> v < UPAGES -> owned pgdir tabs pm ≡ₚ kva e :: owned pgdir tabs (delete v pm).
Proof.
  intros Hv Hlt. rewrite <- (insert_delete_id pm v e Hv) at 1. rewrite owned_insert by apply lookup_delete_eq.
  by rewrite decide_True.
Qed.

(** ** Entries in memory *)

(** An address space beside the free pages. *)
Record vm (s : kst) (pgdir : Z) (tabs pm : gmap Z Z) (free : list Z) : Prop := {
  vm_mem : kmem_rep kend s free;
  vm_as : aspace (pages s) pgdir tabs pm;
  vm_sep : forall a, a ∈ owned pgdir tabs pm -> a ∉ free
}.

(** Page tables were added, from the free pages, for directory entries [D]. *)
Record grown (D : Z -> Prop) (tabs : gmap Z Z) (free : list Z) (tabs' : gmap Z Z) (free' : list Z) : Prop := {
  gr_sub : tabs ⊆ tabs';
  gr_perm : tables tabs' ++ free' ≡ₚ tables tabs ++ free;
  gr_dom : forall i, is_Some (tabs' !! i) -> is_Some (tabs !! i) \/ D i
}.

Lemma grown_refl D tabs free : grown D tabs free tabs free.
Proof. constructor; auto. Qed.

Lemma grown_trans (D D' : Z -> Prop) t1 f1 t2 f2 t3 f3 :
  grown D t1 f1 t2 f2 -> grown D' t2 f2 t3 f3 -> (forall i, D i -> D' i) -> grown D' t1 f1 t3 f3.
Proof.
  intros [H1 H2 H3] [H4 H5 H6] Hs. constructor; [by etransitivity|by rewrite H5|]. intros i Hi. destruct (H6 i Hi) as [Hj|?]; [|by right].
  destruct (H3 i Hj) as [?|?]; [by left|right; auto].
Qed.

Lemma grown_weaken (D D' : Z -> Prop) t1 f1 t2 f2 : grown D t1 f1 t2 f2 -> (forall i, D i -> D' i) -> grown D' t1 f1 t2 f2.
Proof. intros H Hs. by apply (grown_trans D D' t1 f1 t2 f2 t2 f2 H (grown_refl _ _ _)). Qed.

Lemma vpn_va v : 0 <= v < NPAGES -> u32_range (v * PGSIZE) /\ PDX (v * PGSIZE) = v / 1024 /\ PTX (v * PGSIZE) = v mod 1024.
Proof.
  unfold NPAGES. intros Hv. assert (Hr : u32_range (v * PGSIZE)) by mmu_lia. rewrite PDX_eq, PTX_eq by done. by rewrite Z.div_mul.
Qed.

Lemma load_pte s pgdir tabs pm v t :
  aspace (pages s) pgdir tabs pm -> 0 <= v < NPAGES -> tabs !! (v / 1024) = Some t ->
  load_word (pte_ptr t (v * PGSIZE)) s = Ok (default 0 (pm !! v), s).
Proof.
  intros A Hv Ht. destruct (as_tab _ _ _ _ A _ _ Ht) as (_ & Hok & ws & Hws & Hl). destruct (page_ok_u32 _ Hok) as (? & ? & _).
  destruct (vpn_va v Hv) as (_ & _ & Hx). unfold pte_ptr. rewrite Hx. apply (load_word_ok s t _ ws); try done; [mmu_mod|].
  rewrite <- (as_pte _ _ _ _ A v Hv). unfold pte_at. rewrite Ht, Hws, nth_lookup.
  destruct (ws !! Z.to_nat (v mod 1024)) eqn:E; [done|]. apply lookup_ge_None in E. rewrite Hl in E. unfold PAGE_WORDS in E. mmu_mod.
Qed.

Lemma store_pte s pgdir tabs pm pm' free' v t w :
  aspace (pages s) pgdir tabs pm -> 0 <= v < NPAGES -> tabs !! (v / 1024) = Some t ->
  (forall v', v' <> v -> pm' !! v' = pm !! v') -> w = default 0 (pm' !! v) ->
  (forall e, pm' !! v = Some e -> u32_range e /\ present e /\ (v < UPAGES -> page_ok kend (kva e) /\ has_page (pages s) (kva e))) ->
  NoDup (owned pgdir tabs pm') -> (forall a, a ∈ owned pgdir tabs pm' -> a ∉ free') -> kmem_rep kend s free' ->
  exists s', store_word (pte_ptr t (v * PGSIZE)) w s = Ok (tt, s') /\ vm s' pgdir tabs pm' free' /\ touched [t] s s'.
Proof.
  intros A Hv Ht Hsame Hw Hnew Hn Hsep' Hk'. destruct (as_tab _ _ _ _ A _ _ Ht) as (_ & Hok & ws & Hws & Hl).
  destruct (page_ok_u32 _ Hok) as (? & ? & _). destruct (vpn_va v Hv) as (_ & _ & Hx). unfold pte_ptr. rewrite Hx.
  rewrite (store_word_ok s t _ ws w) by (done || mmu_mod). eexists. split; [done|]. split.
  - constructor; [|by eapply aspace_set|done]. apply kmem_rep_put; [done|]. apply Hsep', elem_owned. right. left. apply elem_tables. eauto.
  - apply touched_put. set_solver.
Qed.

(** The walk that adds a page table. *)
Lemma walk_grow s pgdir tabs pm free v :
  vm s pgdir tabs pm free -> 0 <= v < NPAGES ->
  (free = [] /\ tabs !! (v / 1024) = None /\ exists s', walkpgdir pgdir (v * PGSIZE) true s = Ok (0, s') /\ vm s' pgdir tabs pm [] /\ touched [] s s') \/
  exists t s' tabs' free', walkpgdir pgdir (v * PGSIZE) true s = Ok (pte_ptr t (v * PGSIZE), s') /\
    (pte_ptr t (v * PGSIZE) =? 0) = false /\ tabs' !! (v / 1024) = Some t /\
    vm s' pgdir tabs' pm free' /\ grown (eq (v / 1024)) tabs free tabs' free' /\ touched (pgdir :: tables tabs ++ free) s s'.
Proof.
  intros V Hv. pose proof V as [Hk A Hsep]. destruct (vpn_va v Hv) as (Hr & Hd & _).
  destruct (tabs !! (v / 1024)) as [t|] eqn:Et.
  { right. exists t, s, tabs, free. rewrite (walk_hit s pgdir tabs pm _ t) by (done || by rewrite Hd).
    destruct (as_tab _ _ _ _ A _ _ Et) as (_ & Hok & _). split_and!; try done; [by apply pte_ptr_nonnull|apply grown_refl]. }
  unfold walkpgdir. rewrite (bind_Ok _ _ _ _ _ (walk_dir _ _ _ _ _ A Hr)). rewrite Hd, Et. cbn [pde_of]. change (negb (Z.land 0 PTE_P =? 0)) with false.
  cbn [negb]. destruct free as [|t free].
  { left. split; [done|]. split; [done|]. destruct (kalloc_empty s Hk) as (s' & H1 & H2 & H3 & H4). exists s'. rewrite (bind_Ok _ _ _ _ _ H1).
    split; [done|]. split; [|done]. constructor; [done|by rewrite H4|done]. }
  right. destruct (kalloc_take s t free Hk) as (s1 & H1 & K1 & Hnf & Hok & H0 & Hp & T1 & Hpg). rewrite (bind_Ok _ _ _ _ _ H1), H0.
  rewrite (bind_Ok _ _ _ _ _ (fill_page_ok s1 t 0 Hp)), (bind_Ok _ _ _ _ _ (lift_Ok _ _ _ (V2P_page t Hok))).
  destruct (as_dir _ _ _ _ A) as (d & Hd1 & Hd2 & _). destruct (page_ok_u32 _ (as_pgdir _ _ _ _ A)) as (? & ? & _).
  assert (Hto : t ∉ owned pgdir tabs pm) by (intros Hin; apply (Hsep t Hin); left).
  assert (Htg : t <> pgdir) by (intros ->; apply Hto, elem_owned; by left).
  change (Z.lor (Z.lor (Z.lor (t - KERNBASE) PTE_P) PTE_W) PTE_U) with (pde_of (Some t)).
  erewrite bind_Ok; [|apply (store_word_ok _ pgdir _ d); [done|done|rewrite <- Hd, PDX_eq by done; mmu_mod| |done]]; [|simpl; by rewrite lookup_insert_ne, Hpg].
  set (s2 := put_pages _ _). destruct (aspace_new_table (pages s1) pgdir tabs pm (v / 1024) t d) as [A2 Hperm];
    [by rewrite Hpg|rewrite <- Hd, PDX_eq by done; mmu_mod|done|done|done|by rewrite Hpg|].
  exists t, s2, (<[v / 1024 := t]> tabs), free. split; [done|]. split; [by apply pte_ptr_nonnull|]. split; [apply lookup_insert_eq|].
  assert (Hpf : pgdir ∉ free) by (intros Hin; apply (Hsep pgdir); [apply elem_owned; by left|by right]). split_and!.
  - constructor; [|exact A2|].
    + apply (kmem_rep_put (put_pages (<[t := page_fill 0]> (pages s1)) s1)); [by apply kmem_rep_put|done].
    + intros a Ha. rewrite Hperm in Ha. apply elem_of_cons in Ha as [-> |Ha]; [done|]. intros Hin. apply (Hsep a Ha). by right.
  - constructor; [by apply insert_subseteq| |].
    + unfold tables. rewrite map_to_list_insert by done. simpl. apply Permutation_middle.
    + intros i [x Hx]. apply lookup_insert_Some in Hx as [[<- _]|[_ Hx]]; [by right|left; eauto].
  - eapply (touched_trans _ s s1); [by eapply touched_mono; [exact T1|set_solver]|].
    eapply (touched_trans _ _ (put_pages (<[t := page_fill 0]> (pages s1)) s1)); apply touched_put; set_solver.
Qed.

End aspace.
