(* ===== verification/VmMap.v ===== *)
(** * Mapping and unmapping

    What [mappages], [deallocuvm] and [freevm] do to an address space. *)

From S2P Require Import Prelude Spinlock Mmu Kalloc Block Fs Vm VmPt.

(** [n] pages from virtual page [v] and physical address [pa] on. *)
Fixpoint map_range (n : nat) (v pa perm : Z) (pm : gmap Z Z) : gmap Z Z :=
  match n with O => pm | S n' => map_range n' (v + 1) (pa + PGSIZE) perm (<[v := mkpte pa perm]> pm) end.

Lemma map_range_lookup n v pa perm pm w :
  map_range n v pa perm pm !! w = if decide (v <= w < v + Z.of_nat n) then Some (mkpte (pa + (w - v) * PGSIZE) perm) else pm !! w.
Proof.
  revert v pa pm. induction n as [|n IH]; intros v pa pm; cbn [map_range]; [by rewrite decide_False by lia|].
  rewrite IH. destruct (decide (v + 1 <= w < v + 1 + Z.of_nat n)).
  - rewrite decide_True by lia. do 2 f_equal. lia.
  - destruct (decide (w = v)) as [-> |Hne].
    + rewrite lookup_insert_eq, decide_True by lia. do 2 f_equal. lia.
    + rewrite lookup_insert_ne by done. by rewrite decide_False by lia.
Qed.

Section map.

Context (kend : Z).

Abbreviation vm := (vm kend).

(** The page an entry maps can be added to an address space. *)
Definition fresh_page (s : kst) (pgdir : Z) (tabs pm : gmap Z Z) (free : list Z) (a : Z) : Prop :=
  page_ok kend a /\ has_page (pages s) a /\ a ∉ owned pgdir tabs pm /\ a ∉ free.

Lemma owned_grown D pgdir tabs free tabs' free' pm :
  grown D tabs free tabs' free' -> owned pgdir tabs' pm ++ free' ≡ₚ owned pgdir tabs pm ++ free.
Proof.
  intros [_ Hp _]. unfold owned. cbn [app]. apply perm_skip. rewrite <- !app_assoc.
  rewrite (Permutation_app_comm (upages pm) free'), (Permutation_app_comm (upages pm) free), !app_assoc. by rewrite Hp.
Qed.

Lemma has_page_touched X s s' a : touched X s s' -> a ∉ X -> has_page (pages s) a -> has_page (pages s') a.
Proof. intros [_ H] Ha (ws & Hp & Hl). exists ws. by rewrite H. Qed.

Lemma fresh_grown D s s' pgdir tabs pm free tabs' free' a :
  fresh_page s pgdir tabs pm free a -> grown D tabs free tabs' free' -> touched (pgdir :: tables tabs ++ free) s s' ->
  fresh_page s' pgdir tabs' pm free' a.
Proof.
  intros (H1 & H2 & H3 & H4) G T. assert (Hn : a ∉ owned pgdir tabs pm ++ free) by (by apply not_elem_of_app).
  rewrite <- (owned_grown _ _ _ _ _ _ pm G) in Hn. apply not_elem_of_app in Hn as [? ?]. split_and!; try done.
  eapply has_page_touched; [done| |done]. rewrite elem_of_cons, elem_of_app. rewrite elem_owned in H3. tauto.
Qed.

Lemma kva_mkpte pa perm : pa mod PGSIZE = 0 -> 0 <= pa < 2 ^ 32 -> 0 <= perm < PGSIZE -> kva (mkpte pa perm) = pa + KERNBASE.
Proof. intros H1 H2 H3. destruct (mkpte_ok pa perm H1 H2 H3) as (_ & _ & H & _). unfold kva. by rewrite H. Qed.

(** A new entry. *)
Lemma store_new s pgdir tabs pm free v t pa perm :
  vm s pgdir tabs pm free -> 0 <= v < NPAGES -> tabs !! (v / 1024) = Some t -> pm !! v = None ->
  pa mod PGSIZE = 0 -> 0 <= pa < 2 ^ 32 -> 0 <= perm < PGSIZE ->
  (v < UPAGES -> fresh_page s pgdir tabs pm free (pa + KERNBASE)) ->
  exists s', store_word (pte_ptr t (v * PGSIZE)) (mkpte pa perm) s = Ok (tt, s') /\
    vm s' pgdir tabs (<[v := mkpte pa perm]> pm) free /\ touched [t] s s'.
Proof.
  intros V Hv Ht Hnone Hpa Hr Hperm Hf. pose proof V as [Hk A Hsep]. destruct (mkpte_ok pa perm Hpa Hr Hperm) as (? & ? & ? & ?).
  pose proof (kva_mkpte pa perm Hpa Hr Hperm) as Hkva.
  pose proof (owned_insert pgdir tabs pm v (mkpte pa perm) Hnone) as Ho. rewrite Hkva in Ho.
  apply (store_pte kend s pgdir tabs pm (<[v := mkpte pa perm]> pm)); try done.
  - intros v' Hne. by rewrite lookup_insert_ne.
  - by rewrite lookup_insert_eq.
  - intros e He. rewrite lookup_insert_eq in He. simplify_eq. split_and!; try done. intros Hlt. destruct (Hf Hlt) as (? & ? & _). by rewrite Hkva.
  - rewrite Ho. destruct (decide (v < UPAGES)) as [Hlt|_]; simpl; [|exact (as_nodup _ _ _ _ _ A)]. apply NoDup_cons. split; [by apply Hf|].
    exact (as_nodup _ _ _ _ _ A).
  - intros a Ha. rewrite Ho in Ha. destruct (decide (v < UPAGES)) as [Hlt|_]; simpl in Ha; [|by apply Hsep].
    apply elem_of_cons in Ha as [-> |Ha]; [by apply Hf|by apply Hsep].
Qed.

(** One turn of the loop of [mappages]. *)
Lemma map_turn n s pgdir tabs pm free v last pa perm :
  vm s pgdir tabs pm free -> 0 <= v < NPAGES -> pm !! v = None ->
  pa mod PGSIZE = 0 -> 0 <= pa < 2 ^ 32 -> 0 <= perm < PGSIZE ->
  (v < UPAGES -> fresh_page s pgdir tabs pm free (pa + KERNBASE)) ->
  (free = [] /\ tabs !! (v / 1024) = None /\ exists s', mappages_loop (S n) pgdir (v * PGSIZE) last pa perm s = Ok (-1, s') /\ vm s' pgdir tabs pm [] /\ touched [] s s') \/
  exists s' tabs' free',
    mappages_loop (S n) pgdir (v * PGSIZE) last pa perm s =
      (if v * PGSIZE =? last then ret 0 else mappages_loop n pgdir (u32 (v * PGSIZE + PGSIZE)) last (u32 (pa + PGSIZE)) perm) s' /\
    vm s' pgdir tabs' (<[v := mkpte pa perm]> pm) free' /\ grown (eq (v / 1024)) tabs free tabs' free' /\
    touched (pgdir :: tables tabs ++ free) s s'.
Proof.
  intros V Hv Hnone Hpa Hr Hperm Hf. cbn [mappages_loop].
  destruct (walk_grow kend s pgdir tabs pm free v V Hv) as [(He & Hmiss & s' & H1 & V1 & T1)|(t & s1 & tabs' & free' & H1 & H0 & Ht & V1 & G & T1)].
  { left. split; [done|]. split; [done|]. exists s'. by rewrite (bind_Ok _ _ _ _ _ H1). }
  right. rewrite (bind_Ok _ _ _ _ _ H1), H0, (bind_Ok _ _ _ _ _ (load_pte _ _ _ _ _ _ _ (vm_as _ _ _ _ _ _ V1) Hv Ht)), Hnone. cbn [default].
  change (negb (Z.land 0 PTE_P =? 0)) with false. cbn iota.
  destruct (store_new s1 pgdir tabs' pm free' v t pa perm V1 Hv Ht Hnone Hpa Hr Hperm) as (s2 & H2 & V2 & T2).
  { intros Hlt. eapply fresh_grown; [by apply Hf|done|done]. }
  exists s2, tabs', free'. rewrite (bind_Ok _ _ _ _ _ H2). split_and!; try done. eapply touched_trans; [done|]. eapply touched_mono; [done|].
  intros a Ha%list_elem_of_singleton. subst a. right. rewrite <- (gr_perm _ _ _ _ _ G). apply elem_of_app. left. apply elem_tables. eauto.
Qed.

Lemma map_turn_remap n s pgdir tabs pm free v last pa perm e :
  vm s pgdir tabs pm free -> 0 <= v < NPAGES -> pm !! v = Some e -> mappages_loop (S n) pgdir (v * PGSIZE) last pa perm s = Panic "remap".
Proof.
  intros V Hv He. pose proof V as [_ A _]. destruct (as_pm _ _ _ _ _ A v e He) as (_ & _ & Hp & _).
  assert (Ht : exists t, tabs !! (v / 1024) = Some t).
  { destruct (tabs !! (v / 1024)) eqn:E; [eauto|]. pose proof (as_pte _ _ _ _ _ A v Hv) as H. unfold pte_at in H. rewrite E, He in H. simpl in H. by subst. }
  destruct Ht as [t Ht]. destruct (vpn_va v Hv) as (Hr & Hd & _). cbn [mappages_loop].
  rewrite (bind_Ok _ _ _ _ _ (walk_hit kend s pgdir tabs pm _ t true A Hr ltac:(by rewrite Hd))).
  destruct (as_tab _ _ _ _ _ A _ _ Ht) as (_ & Hok & _). rewrite (pte_ptr_nonnull kend) by done.
  rewrite (bind_Ok _ _ _ _ _ (load_pte _ _ _ _ _ _ _ A Hv Ht)), He. change (default 0 (Some e)) with e. by apply Z.eqb_neq in Hp as ->.
Qed.

Lemma user_insert_kernel pm v e : UPAGES <= v -> user (<[v := e]> pm) = user pm.
Proof. intros Hv. unfold user. apply map_filter_insert_not. intros y H. simpl in H. lia. Qed.

Lemma owned_user pgdir tabs pm pm' : user pm' = user pm -> owned pgdir tabs pm' = owned pgdir tabs pm.
Proof. intros H. unfold owned, upages. by rewrite H. Qed.

(** A range of the kernel part. *)
Lemma map_kernel_loop n : forall s pgdir tabs pm free v pa perm,
  vm s pgdir tabs pm free -> UPAGES <= v -> v + Z.of_nat (S n) <= NPAGES -> (forall w, v <= w < v + Z.of_nat (S n) -> pm !! w = None) ->
  pa mod PGSIZE = 0 -> 0 <= pa -> pa + Z.of_nat (S n) * PGSIZE <= 2 ^ 32 -> 0 <= perm < PGSIZE ->
  exists r s' tabs' pm' free',
    mappages_loop (S n) pgdir (v * PGSIZE) ((v + Z.of_nat n) * PGSIZE) pa perm s = Ok (r, s') /\ vm s' pgdir tabs' pm' free' /\
    grown (fun i => v / 1024 <= i <= (v + Z.of_nat n) / 1024) tabs free tabs' free' /\ touched (pgdir :: tables tabs ++ free) s s' /\
    user pm' = user pm /\ ((r = 0 /\ pm' = map_range (S n) v pa perm pm) \/
    (r = -1 /\ free' = [] /\ exists i, v / 1024 <= i <= (v + Z.of_nat n) / 1024 /\ tabs' !! i = None)).
Proof.
  assert (Hout : forall n s pgdir tabs pm free v pa perm,
    vm s pgdir tabs pm free -> UPAGES <= v -> v + Z.of_nat (S n) <= NPAGES -> (forall w, v <= w < v + Z.of_nat (S n) -> pm !! w = None) ->
    pa mod PGSIZE = 0 -> 0 <= pa -> pa + Z.of_nat (S n) * PGSIZE <= 2 ^ 32 -> 0 <= perm < PGSIZE -> _)
    by exact (fun n s pgdir tabs pm free v pa perm V Hv Hle Hnone Hpa H0 Htop Hperm =>
      map_turn n s pgdir tabs pm free v ((v + Z.of_nat n) * PGSIZE) pa perm V ltac:(unfold UPAGES in *; lia) (Hnone v ltac:(lia)) Hpa
        ltac:(mmu_lia) Hperm ltac:(lia)).
  induction n as [|n IH]; intros s pgdir tabs pm free v pa perm V Hv Hle Hnone Hpa H0 Htop Hperm;
    destruct (Hout _ s pgdir tabs pm free v pa perm V Hv Hle Hnone Hpa H0 Htop Hperm) as [(-> & Hmiss & s' & H1 & V1 & T1)|(s1 & tabs1 & free1 & H1 & V1 & G1 & T1)].
  1,3: exists (-1), s', tabs, pm, []; split_and!; try done; [apply grown_refl|eapply touched_mono; [done|set_solver]|]; right; split_and!; [done|done|exists (v / 1024); split_and!; [lia|apply Z.div_le_mono; lia|done]].
  - exists 0, s1, tabs1, (<[v := mkpte pa perm]> pm), free1. rewrite H1, Z.add_0_r, Z.eqb_refl. split_and!; try done; [| |by left].
    + eapply grown_weaken; [done|]. intros i <-. lia.
    + by apply user_insert_kernel.
  - rewrite H1. replace (v * PGSIZE =? (v + Z.of_nat (S n)) * PGSIZE) with false by (symmetry; apply Z.eqb_neq; unfold PGSIZE; lia).
    unfold NPAGES, UPAGES in *. rewrite !u32_small by mmu_lia. replace (v * PGSIZE + PGSIZE) with ((v + 1) * PGSIZE) by lia.
    replace (v + Z.of_nat (S n)) with (v + 1 + Z.of_nat n) by lia.
    destruct (IH s1 pgdir tabs1 (<[v := mkpte pa perm]> pm) free1 (v + 1) (pa + PGSIZE) perm) as (r & s2 & tabs2 & pm2 & free2 & H2 & V2 & G2 & T2 & U2 & Hres);
      try done; try (unfold NPAGES, UPAGES in *; lia); try mmu_mod.
    { intros w Hw. rewrite lookup_insert_ne by lia. apply Hnone. lia. }
    exists r, s2, tabs2, pm2, free2. split; [done|]. split; [done|]. split.
    { eapply grown_trans; [exact G1|eapply grown_weaken; [exact G2|]|]; [|intros i <-; split; [lia|apply Z.div_le_mono; lia]].
      intros i [Ha Hb]. split; [|done]. etransitivity; [|exact Ha]. apply Z.div_le_mono; lia. }
    split; [|split; [by rewrite U2, user_insert_kernel|]].
    2:{ destruct Hres as [?|(? & ? & i & [Ha Hb] & ?)]; [by left|right]. split_and!; try done. exists i. split_and!; try done.
      etransitivity; [|exact Ha]. apply Z.div_le_mono; lia. }
    eapply touched_trans; [done|]. eapply touched_mono; [done|].
    intros a Ha. apply elem_of_cons in Ha as [-> |Ha]; [left|right]. by rewrite <- (gr_perm _ _ _ _ _ G1).
Qed.

Lemma mappages_pages s pgdir v n pa perm : 0 <= v -> v + Z.of_nat (S n) <= NPAGES ->
  mappages pgdir (v * PGSIZE) (u32 (Z.of_nat (S n) * PGSIZE)) pa perm s = mappages_loop (S n) pgdir (v * PGSIZE) ((v + Z.of_nat n) * PGSIZE) pa perm s.
Proof.
  unfold NPAGES. intros Hv Hle. unfold mappages.
  assert (Hlast : PGROUNDDOWN (u32 (v * PGSIZE + u32 (Z.of_nat (S n) * PGSIZE) - 1)) = (v + Z.of_nat n) * PGSIZE).
  { replace (v * PGSIZE + u32 (Z.of_nat (S n) * PGSIZE) - 1) with (v * PGSIZE - 1 + u32 (Z.of_nat (S n) * PGSIZE)) by lia.
    rewrite u32_add_r, u32_small by mmu_lia. rewrite PGROUNDDOWN_eq by mmu_lia. mmu_mod. }
  rewrite Hlast, PGROUNDDOWN_eq by mmu_lia. rewrite Z.div_mul by done. rewrite u32_small by mmu_lia.
  replace ((v + Z.of_nat n) * PGSIZE - v * PGSIZE) with (Z.of_nat n * PGSIZE) by lia. rewrite Z.div_mul by done. by rewrite Nat2Z.id.
Qed.

(** One user page. *)
Lemma map_user s pgdir tabs pm free v pa perm :
  vm s pgdir tabs pm free -> 0 <= v < UPAGES -> pm !! v = None -> pa mod PGSIZE = 0 -> 0 <= pa < 2 ^ 32 -> 0 <= perm < PGSIZE ->
  fresh_page s pgdir tabs pm free (pa + KERNBASE) ->
  (free = [] /\ tabs !! (v / 1024) = None /\ exists s', mappages pgdir (v * PGSIZE) PGSIZE pa perm s = Ok (-1, s') /\ vm s' pgdir tabs pm [] /\ touched [] s s') \/
  exists s' tabs' free', mappages pgdir (v * PGSIZE) PGSIZE pa perm s = Ok (0, s') /\
    vm s' pgdir tabs' (<[v := mkpte pa perm]> pm) free' /\ grown (eq (v / 1024)) tabs free tabs' free' /\
    touched (pgdir :: tables tabs ++ free) s s'.
Proof.
  intros V Hv Hnone Hpa Hr Hperm Hf. change PGSIZE with (u32 (Z.of_nat 1 * PGSIZE)) at 2 4. rewrite !mappages_pages by (unfold UPAGES, NPAGES in *; lia).
  change (v + Z.of_nat 0) with (v + 0). rewrite Z.add_0_r.
  destruct (map_turn 0 s pgdir tabs pm free v (v * PGSIZE) pa perm V) as [(-> & Hmiss & s' & H1 & V1 & T1)|(s1 & tabs1 & free1 & H1 & V1 & G1 & T1)];
    try done; [unfold UPAGES, NPAGES in *; lia|left; eauto 10|right]. rewrite Z.eqb_refl in H1. exists s1, tabs1, free1. by rewrite H1.
Qed.

(** ** Unmapping *)

Definition unmap (v top : Z) (pm : gmap Z Z) : gmap Z Z := filter (fun p => ~ (v <= p.1 < top)) pm.

Lemma unmap_lookup v top pm w : unmap v top pm !! w = if decide (v <= w < top) then None else pm !! w.
Proof.
  unfold unmap. rewrite map_lookup_filter. destruct (pm !! w) as [e|]; simpl; [|by destruct (decide _)].
  destruct (decide (v <= w < top)); [by rewrite option_guard_False by tauto|by rewrite option_guard_True].
Qed.

Lemma unmap_empty v top pm : top <= v -> unmap v top pm = pm.
Proof. intros H. apply map_eq. intros w. rewrite unmap_lookup. by rewrite decide_False by lia. Qed.

Lemma unmap_absent v v' top pm : v <= v' -> (forall w, v <= w < v' -> pm !! w = None) -> unmap v top pm = unmap v' top pm.
Proof.
  intros Hle Hnone. apply map_eq. intros w. rewrite !unmap_lookup. destruct (decide (v <= w < top)), (decide (v' <= w < top)); try done; try lia.
  symmetry. apply Hnone. lia.
Qed.

Lemma unmap_step v top pm : v < top -> unmap v top pm = unmap (v + 1) top (delete v pm).
Proof.
  intros Hle. apply map_eq. intros w. rewrite !unmap_lookup. destruct (decide (w = v)) as [-> |Hne].
  - rewrite decide_True, decide_False by lia. by rewrite lookup_delete_eq.
  - rewrite lookup_delete_ne by done. destruct (decide (v <= w < top)), (decide (v + 1 <= w < top)); try done; lia.
Qed.

(** No page table, no mapping. *)
Lemma no_table_no_page pg pgdir tabs pm v w :
  aspace kend pg pgdir tabs pm -> tabs !! (v / 1024) = None -> v / 1024 = w / 1024 -> pm !! w = None.
Proof.
  intros A Hn Hw. destruct (pm !! w) as [e|] eqn:E; [|done]. destruct (as_pm _ _ _ _ _ A w e E) as (Hr & _ & Hp & _).
  pose proof (as_pte _ _ _ _ _ A w Hr) as H. unfold pte_at in H. rewrite <- Hw, Hn, E in H. simpl in H. by subst.
Qed.

(** A page of user memory is freed and its entry cleared. *)
Lemma free_user s pgdir tabs pm free v t e :
  vm s pgdir tabs pm free -> 0 <= v < UPAGES -> tabs !! (v / 1024) = Some t -> pm !! v = Some e ->
  exists s1 s', kfree kend (kva e) s = Ok (tt, s1) /\ store_word (pte_ptr t (v * PGSIZE)) 0 s1 = Ok (tt, s') /\
    vm s' pgdir tabs (delete v pm) (kva e :: free) /\ touched [t; kva e] s s'.
Proof.
  intros [Hk A Hsep] Hv Ht He. destruct (as_pm _ _ _ _ _ A v e He) as (Hr & _ & _ & Hu). destruct (Hu ltac:(lia)) as [Hok Hp].
  assert (Hin : kva e ∈ upages pm) by (apply elem_upages; exists v, e; split_and!; [done|lia|done]).
  destruct (kfree_frame kend s (kva e) free Hk Hok) as (s1 & H1 & K1 & Hs1 & Hf1); [apply Hsep, elem_owned; auto|].
  pose proof (as_nodup _ _ _ _ _ A) as Hn.
  assert (Hpk : has_page (pages s1) (kva e)).
  { destruct (kr_chain _ _ _ K1) as (_ & n & Hx & _). by exists (free_page n). }
  assert (Hnt : forall a, a = pgdir \/ a ∈ tables tabs -> a <> kva e).
  { intros a Ha ->. unfold owned in Hn. apply NoDup_cons in Hn as [Hg Hn]. apply NoDup_app in Hn as (_ & Hd & _).
    destruct Ha as [Ha|Ha]; [apply Hg, elem_of_app; right; by rewrite <- Ha|by apply (Hd (kva e))]. }
  assert (A1 : aspace kend (pages s1) pgdir tabs pm).
  { apply (aspace_user kend (pages s)); [done|intros a Ha; apply Hf1; by apply Hnt|]. intros a Ha.
    destruct (decide (a = kva e)) as [-> |Hne]; [done|]. destruct (upage_has _ _ _ _ _ _ A Ha) as (_ & ws & ? & ?). exists ws. by rewrite Hf1. }
  rewrite (owned_delete pgdir tabs pm v e He ltac:(lia)) in Hn. apply NoDup_cons in Hn as [Hnk Hn].
  destruct (store_pte kend s1 pgdir tabs pm (delete v pm) (kva e :: free) v t 0) as (s' & H2 & V2 & T2); try done.
  - intros v' Hne. by rewrite lookup_delete_ne.
  - by rewrite lookup_delete_eq.
  - intros x Hx. by rewrite lookup_delete_eq in Hx.
  - intros a Ha Hin'. apply elem_of_cons in Hin' as [-> |Hin']; [done|]. apply (Hsep a); [|done].
    rewrite (owned_delete pgdir tabs pm v e He ltac:(lia)). by right.
  - exists s1, s'. split_and!; try done. destruct T2 as [Hs2 Hf2]. split; [by etransitivity|].
    intros a Ha. rewrite Hf2, Hf1; [done|set_solver..].
Qed.

(** The kernel image occupies the pages at [KERNBASE]. *)
Hypothesis kend_above : KERNBASE < kend.

Lemma P2V_kva e : page_ok kend (kva e) -> P2V (PTE_ADDR e) = Ok (kva e) /\ (PTE_ADDR e =? 0) = false.
Proof.
  intros (Hm & He & Hr). unfold kva in *. unfold P2V. replace (KERNBASE <? PTE_ADDR e) with false by (symmetry; apply Z.ltb_ge; mmu_lia).
  rewrite u32_small by mmu_lia. split; [done|]. apply Z.eqb_neq. lia.
Qed.

Lemma next_table v : 0 <= v < UPAGES ->
  u32 (u32 (PGADDR (PDX (v * PGSIZE) + 1) 0 0 - PGSIZE) + PGSIZE) = (v / 1024 + 1) * 1024 * PGSIZE.
Proof.
  intros Hv. destruct (vpn_va v) as (_ & -> & _); [unfold UPAGES, NPAGES in *; lia|]. unfold UPAGES in Hv.
  unfold PGADDR. rewrite Z.shiftl_0_l, !Z.lor_0_r, Z.shiftl_mul_pow2 by done. change (2 ^ PDXSHIFT) with (1024 * PGSIZE).
  rewrite u32_add_l, Z.sub_add, u32_u32, u32_small by mmu_mod. lia.
Qed.

Lemma page_below v oldsz : 0 <= v -> (oldsz <=? v * PGSIZE) = ((oldsz + PGSIZE - 1) / PGSIZE <=? v).
Proof. intros Hv. apply eq_true_iff_eq. rewrite !Z.leb_le. mmu_mod. Qed.

(** The turn of [deallocuvm] for a page that has a page table. *)
Lemma dealloc_turn s pgdir tabs pm free v t (k : M kst unit) :
  vm s pgdir tabs pm free -> 0 <= v < UPAGES -> tabs !! (v / 1024) = Some t ->
  exists s' free',
    (let* e := load_word (pte_ptr t (v * PGSIZE)) in
     (if negb (Z.land e PTE_P =? 0) then
        if PTE_ADDR e =? 0 then panic "kfree"
        else let* w := lift (P2V (PTE_ADDR e)) in kfree kend w ;;; store_word (pte_ptr t (v * PGSIZE)) 0
      else ret tt) ;;; k) s = k s' /\
    vm s' pgdir tabs (delete v pm) free' /\ owned pgdir tabs (delete v pm) ++ free' ≡ₚ owned pgdir tabs pm ++ free /\
    free ⊆ free' /\ touched (tables tabs ++ free') s s'.
Proof.
  intros V Hv Et. pose proof V as [Hk A Hsep]. assert (Hvn : 0 <= v < NPAGES) by (unfold UPAGES, NPAGES in *; lia).
  rewrite (bind_Ok _ _ _ _ _ (load_pte _ _ _ _ _ _ _ A Hvn Et)). destruct (pm !! v) as [e|] eqn:Ee; cbn [from_option id].
  - destruct (as_pm _ _ _ _ _ A v e Ee) as (_ & _ & Hp & Hu). destruct (Hu ltac:(lia)) as [Hek _]. destruct (P2V_kva e Hek) as [Hpv Hp0].
    apply Z.eqb_neq in Hp as ->. cbn [negb]. rewrite Hp0.
    destruct (free_user s pgdir tabs pm free v t e V Hv Et Ee) as (s1 & s2 & H1 & H2 & V2 & T2). exists s2, (kva e :: free).
    split; [|split; [done|split; [|split]]].
    + apply seq_Ok with (a := tt). rewrite (bind_Ok _ _ _ _ _ (lift_Ok _ s _ Hpv)), (bind_Ok _ _ _ _ _ H1). exact H2.
    + rewrite (owned_delete pgdir tabs pm v e Ee ltac:(lia)). symmetry. apply Permutation_middle.
    + set_solver.
    + eapply touched_mono; [done|]. intros a Ha. apply elem_of_app.
      apply elem_of_cons in Ha as [-> |Ha%list_elem_of_singleton]; [left; apply elem_tables; eauto|subst a; right; left].
  - change (negb (Z.land 0 PTE_P =? 0)) with false. cbn iota. rewrite (bind_Ok _ _ _ _ _ (eq_refl (ret tt s))).
    rewrite delete_id by done. exists s, free. split_and!; done || apply touched_refl.
Qed.

Lemma dealloc_loop fuel : forall s pgdir tabs pm free v oldsz,
  vm s pgdir tabs pm free -> 0 <= v <= UPAGES -> (oldsz + PGSIZE - 1) / PGSIZE <= UPAGES ->
  Z.max 0 ((oldsz + PGSIZE - 1) / PGSIZE - v) < Z.of_nat fuel ->
  exists s' free', deallocuvm_loop kend fuel pgdir (v * PGSIZE) oldsz s = Ok (tt, s') /\
    vm s' pgdir tabs (unmap v ((oldsz + PGSIZE - 1) / PGSIZE) pm) free' /\
    owned pgdir tabs (unmap v ((oldsz + PGSIZE - 1) / PGSIZE) pm) ++ free' ≡ₚ owned pgdir tabs pm ++ free /\
    free ⊆ free' /\ touched (tables tabs ++ free') s s'.
Proof.
  induction fuel as [|fuel IH]; intros s pgdir tabs pm free v oldsz V Hv Htop Hfuel; [lia|].
  cbn [deallocuvm_loop]. rewrite page_below by lia.
  destruct (Z.leb_spec ((oldsz + PGSIZE - 1) / PGSIZE) v) as [Hle|Hlt].
  { rewrite unmap_empty by done. exists s, free. split_and!; try done; apply touched_refl. }
  assert (Hvu : 0 <= v < UPAGES) by lia. assert (Hvn : 0 <= v < NPAGES) by (unfold UPAGES, NPAGES in *; lia).
  destruct (vpn_va v Hvn) as (Hr & Hd & _). pose proof V as [Hk A Hsep].
  destruct (tabs !! (v / 1024)) as [t|] eqn:Et.
  - rewrite (bind_Ok _ _ _ _ _ (walk_hit kend s pgdir tabs pm _ t false A Hr ltac:(by rewrite Hd))).
    destruct (as_tab _ _ _ _ _ A _ _ Et) as (_ & Hok & _). rewrite (pte_ptr_nonnull kend) by done.
    rewrite (u32_small (v * PGSIZE + PGSIZE)) by (unfold UPAGES in *; mmu_lia).
    replace (v * PGSIZE + PGSIZE) with ((v + 1) * PGSIZE) by lia.
    destruct (dealloc_turn s pgdir tabs pm free v t (deallocuvm_loop kend fuel pgdir ((v + 1) * PGSIZE) oldsz) V Hvu Et)
      as (s1 & free1 & H1 & V1 & P1 & S1 & T1). rewrite H1.
    destruct (IH s1 pgdir tabs (delete v pm) free1 (v + 1) oldsz V1) as (s' & free' & H3 & V3 & P3 & S3 & T3); [lia|done|lia|].
    rewrite unmap_step by done. exists s', free'. split_and!; try done; [by rewrite P3|set_solver|].
    eapply touched_trans; [|done]. eapply touched_mono; [done|]. set_solver.
  - rewrite (bind_Ok _ _ _ _ _ (walk_miss kend s pgdir tabs pm _ A Hr ltac:(by rewrite Hd))). cbn [Z.eqb]. rewrite next_table by done.
    destruct (IH s pgdir tabs pm free ((v / 1024 + 1) * 1024) oldsz V) as (s' & free' & H1 & V1 & P1 & S1 & T1); [unfold UPAGES in *; mmu_mod|done|mmu_mod|].
    rewrite (unmap_absent v ((v / 1024 + 1) * 1024)); [eauto 10|mmu_mod|].
    intros w Hw. apply (no_table_no_page _ _ _ _ v w A Et). mmu_mod.
Qed.

Lemma pages_of_sz sz : 0 <= sz <= KERNBASE -> PGROUNDUP sz = (sz + PGSIZE - 1) / PGSIZE * PGSIZE /\ 0 <= (sz + PGSIZE - 1) / PGSIZE <= UPAGES.
Proof. intros H. rewrite PGROUNDUP_eq by mmu_lia. split; [done|]. unfold UPAGES. mmu_mod. Qed.

(** [deallocuvm] unmaps the pages between the sizes and gives them back. *)
Lemma deallocuvm_ok s pgdir tabs pm free oldsz newsz :
  vm s pgdir tabs pm free -> 0 <= newsz <= KERNBASE -> 0 <= oldsz <= KERNBASE ->
  let pm' := unmap ((newsz + PGSIZE - 1) / PGSIZE) ((oldsz + PGSIZE - 1) / PGSIZE) pm in
  exists s' free', deallocuvm kend pgdir oldsz newsz s = Ok (Z.min oldsz newsz, s') /\ vm s' pgdir tabs pm' free' /\
    owned pgdir tabs pm' ++ free' ≡ₚ owned pgdir tabs pm ++ free /\ free ⊆ free' /\ touched (tables tabs ++ free') s s'.
Proof.
  intros V Hn Ho pm'. subst pm'. destruct (pages_of_sz newsz Hn) as [Hr Hb]. destruct (pages_of_sz oldsz Ho) as [_ Hb']. unfold deallocuvm.
  destruct (Z.leb_spec oldsz newsz) as [Hle|Hlt].
  - rewrite unmap_empty by (apply Z.div_le_mono; [done|lia]). exists s, free. rewrite Z.min_l by done. split_and!; done || apply touched_refl.
  - rewrite Hr. destruct (dealloc_loop (S (Z.to_nat ((oldsz - (newsz + PGSIZE - 1) / PGSIZE * PGSIZE + PGSIZE - 1) / PGSIZE))) s pgdir tabs pm free
      ((newsz + PGSIZE - 1) / PGSIZE) oldsz V) as (s' & free' & H1 & H2); [done|lia| |].
    { replace (oldsz - (newsz + PGSIZE - 1) / PGSIZE * PGSIZE + PGSIZE - 1) with (oldsz + PGSIZE - 1 + (- ((newsz + PGSIZE - 1) / PGSIZE)) * PGSIZE) by lia.
      rewrite Z.div_add by done. lia. }
    exists s', free'. rewrite (bind_Ok _ _ _ _ _ H1). by rewrite Z.min_r by lia.
Qed.

(** ** Freeing an address space *)

Definition tables_from (tabs : gmap Z Z) (i : Z) (n : nat) : list Z := omap (fun j => tabs !! j) (seqZ i (Z.of_nat n)).

Lemma tables_from_S tabs i n :
  tables_from tabs i (S n) = (match tabs !! i with Some t => [t] | None => [] end) ++ tables_from tabs (i + 1) n.
Proof.
  unfold tables_from. rewrite seqZ_cons by lia. cbn [omap list_omap]. replace (Z.pred (Z.of_nat (S n))) with (Z.of_nat n) by lia.
  by destruct (tabs !! i).
Qed.

Lemma NoDup_omap_inj {A B} (f : A -> option B) l :
  NoDup l -> (forall x y b, f x = Some b -> f y = Some b -> x = y) -> NoDup (omap f l).
Proof.
  intros Hl Hinj. induction Hl as [|x l Hx Hl IH]; cbn [omap list_omap]; [constructor|]. destruct (f x) as [b|] eqn:E; [|done].
  apply NoDup_cons. split; [|done]. intros (y & Hy & Hb)%list_elem_of_omap. by rewrite (Hinj x y b E Hb) in Hx.
Qed.

Lemma tables_from_all pg pgdir tabs pm : aspace kend pg pgdir tabs pm -> tables_from tabs 0 1024 ≡ₚ tables tabs.
Proof.
  intros A. apply NoDup_Permutation.
  - unfold tables_from. apply NoDup_omap_inj; [apply NoDup_seqZ|]. intros i j t Hi Hj. by eapply tabs_inj.
  - pose proof (as_nodup _ _ _ _ _ A) as Hn. apply NoDup_cons in Hn as [_ Hn]. by apply NoDup_app in Hn as [Hn _].
  - intros t. unfold tables_from. rewrite elem_tables, list_elem_of_omap. split; [intros (i & _ & Hi); eauto|].
    intros [i Hi]. exists i. split; [|done]. apply elem_of_seqZ. destruct (as_tab _ _ _ _ _ A i t Hi). lia.
Qed.

Lemma freevm_loop_ok n : forall s pgdir tabs free i d,
  kmem_rep kend s free -> page_ok kend pgdir -> pages s !! pgdir = Some d ->
  (forall j, 0 <= j < 1024 -> d !! Z.to_nat j = Some (pde_of (tabs !! j))) -> (forall j t, tabs !! j = Some t -> page_ok kend t /\ t <> pgdir) ->
  0 <= i -> i + Z.of_nat n = 1024 -> NoDup (tables_from tabs i n ++ free) ->
  exists s' free', freevm_loop kend n pgdir i s = Ok (tt, s') /\ kmem_rep kend s' free' /\ free' ≡ₚ tables_from tabs i n ++ free /\
    touched (tables_from tabs i n) s s'.
Proof.
  induction n as [|n IH]; intros s pgdir tabs free i d Hk Hg Hd Hent Htab Hi Hn Hnd; [exists s, free; split_and!; done || apply touched_refl|].
  cbn [freevm_loop]. destruct (page_ok_u32 _ _ Hg) as (? & ? & _). rewrite tables_from_S in *.
  rewrite (bind_Ok _ _ _ _ _ (load_word_ok s pgdir i d _ ltac:(done) ltac:(done) ltac:(lia) Hd (Hent i ltac:(lia)))).
  destruct (tabs !! i) as [t|] eqn:Et; cbn [app] in *.
  - destruct (Htab i t Et) as [Hok Hne]. destruct (pde_present kend t Hok) as [Hp Hpv]. apply Z.eqb_neq in Hp as ->. cbn [negb].
    apply NoDup_cons in Hnd as [Hnt Hnd]. apply not_elem_of_app in Hnt as [Hnt Hnf].
    destruct (kfree_frame kend s t free Hk Hok Hnf) as (s1 & H1 & K1 & Hs1 & Hf1).
    assert (Hrun : (let* v := lift (P2V (PTE_ADDR (pde_of (Some t)))) in kfree kend v) s = Ok (tt, s1))
      by (by rewrite (bind_Ok _ _ _ _ _ (lift_Ok _ s _ Hpv))).
    rewrite (bind_Ok _ _ _ _ _ Hrun). destruct (IH s1 pgdir tabs (t :: free) (i + 1) d) as (s' & free' & H2 & K2 & P2 & [Hs2 Hf2]);
      try done; try lia; [by rewrite Hf1|rewrite <- Permutation_middle; apply NoDup_cons; split; [by apply not_elem_of_app|done]|].
    exists s', free'. split_and!; try done; [by rewrite P2, <- Permutation_middle|]. split; [by etransitivity|].
    intros a Ha. apply not_elem_of_cons in Ha as [? ?]. by rewrite Hf2, Hf1.
  - change (negb (Z.land (pde_of None) PTE_P =? 0)) with false. cbn iota. rewrite (bind_Ok _ _ _ _ _ (eq_refl (ret tt s))).
    by apply (IH s pgdir tabs free (i + 1) d); try lia.
Qed.

(** [freevm] gives back every page of the address space. *)
Lemma freevm_ok s pgdir tabs pm free :
  vm s pgdir tabs pm free ->
  exists s' free', freevm kend pgdir s = Ok (tt, s') /\ kmem_rep kend s' free' /\ free' ≡ₚ owned pgdir tabs pm ++ free /\
    touched (owned pgdir tabs pm ++ free) s s'.
Proof.
  intros V. pose proof (as_pgdir _ _ _ _ _ (vm_as _ _ _ _ _ _ V)) as Hg. unfold freevm.
  replace (pgdir =? 0) with false by (symmetry; apply Z.eqb_neq; apply page_ok_pos in Hg; lia).
  destruct (deallocuvm_ok s pgdir tabs pm free KERNBASE 0 V ltac:(done) ltac:(done)) as (s1 & free1 & H1 & V1 & P1 & S1 & T1).
  rewrite (bind_Ok _ _ _ _ _ H1). set (pm1 := unmap _ _ _) in *. destruct V1 as [K1 A1 Hsep1].
  assert (Hu : upages pm1 = []).
  { unfold upages. replace (user pm1) with (∅ : gmap Z Z); [by rewrite map_to_list_empty|]. apply map_eq. intros w. rewrite lookup_empty. symmetry.
    unfold user. apply map_lookup_filter_None. right. intros e He Hlt. unfold pm1 in He. rewrite unmap_lookup in He.
    destruct (decide _) as [|Hn]; [done|]. destruct (as_pm _ _ _ _ _ (vm_as _ _ _ _ _ _ V) w e He) as (? & _). apply Hn.
    change ((0 + PGSIZE - 1) / PGSIZE) with 0. change ((KERNBASE + PGSIZE - 1) / PGSIZE) with UPAGES. simpl in Hlt. lia. }
  assert (Hown : owned pgdir tabs pm1 ≡ₚ pgdir :: tables tabs) by (unfold owned; by rewrite Hu, app_nil_r).
  destruct (as_dir _ _ _ _ _ A1) as (d & Hd & _ & Hent). pose proof (tables_from_all _ _ _ _ A1) as Hall.
  assert (Hnd : NoDup (pgdir :: tables tabs ++ free1)).
  { change (NoDup ((pgdir :: tables tabs) ++ free1)). rewrite <- Hown. apply NoDup_app. split_and!; [apply A1|apply Hsep1|apply (kr_nodup _ _ _ K1)]. }
  apply NoDup_cons in Hnd as [Hgn Hnd].
  destruct (freevm_loop_ok 1024 s1 pgdir tabs free1 0 d K1 Hg Hd Hent) as (s2 & free2 & H2 & K2 & P2 & T2); try done; [|by rewrite Hall|].
  { intros j t Hj. split; [by apply (as_tab _ _ _ _ _ A1 j)|by eapply tab_ne_pgdir]. }
  change (Z.to_nat NPDENTRIES) with 1024%nat. rewrite (bind_Ok _ _ _ _ _ H2). rewrite Hall in P2.
  destruct (kfree_frame kend s2 pgdir free2 K2 Hg) as (s3 & H3 & K3 & Hs3 & Hf3); [by rewrite P2|].
  exists s3, (pgdir :: free2). assert (Hfin : pgdir :: free2 ≡ₚ owned pgdir tabs pm ++ free) by (rewrite <- P1, Hown, P2; done).
  split_and!; try done. eapply (touched_trans _ s s1); [eapply touched_mono; [done|]|]; [|eapply (touched_trans _ s1 s2); [eapply touched_mono; [done|]|]].
  - intros a Ha. rewrite <- P1, Hown. by right.
  - intros a Ha. rewrite Hall in Ha. apply elem_of_app. left. apply elem_owned. auto.
  - split; [done|]. intros a Ha. apply Hf3. intros ->. apply Ha. apply elem_of_app. left. apply elem_owned. auto.
Qed.

End map.
