(* ===== verification/VmKern.v ===== *)
(** * The kernel's mappings

    What [setupkvm] builds: every page table maps the kernel in the same way,
    and building one takes 65 pages: the directory, 56 tables for physical
    memory and 8 for the devices. *)

From S2P Require Import Prelude Spinlock Mmu Kalloc Block Fs Vm VmPt VmMap.

(** A stretch of [n] pages: first virtual page, physical address, permissions. *)
Record seg := Seg { g_v : Z; g_n : nat; g_pa : Z; g_perm : Z }.

Definition seg_entry (g : seg) : kmap_entry :=
  Kmap (g_v g * PGSIZE) (g_pa g) (g_pa g + Z.of_nat (S (g_n g)) * PGSIZE) (g_perm g).

Definition seg_map (g : seg) (pm : gmap Z Z) : gmap Z Z := map_range (S (g_n g)) (g_v g) (g_pa g) (g_perm g) pm.

Definition seg_ok (g : seg) : Prop :=
  UPAGES <= g_v g /\ g_v g + Z.of_nat (S (g_n g)) <= NPAGES /\ g_pa g mod PGSIZE = 0 /\ 0 <= g_pa g /\
  g_pa g + Z.of_nat (S (g_n g)) * PGSIZE <= 2 ^ 32 /\ 0 <= g_perm g < PGSIZE.

(** In order, each stretch is unmapped when it is its turn. *)
Fixpoint segs_ok (gs : list seg) (pm : gmap Z Z) : Prop :=
  match gs with
  | [] => True
  | g :: gs' => seg_ok g /\ (forall w, g_v g <= w < g_v g + Z.of_nat (S (g_n g)) -> pm !! w = None) /\ segs_ok gs' (seg_map g pm)
  end.

Definition seg_dir (g : seg) (i : Z) : Prop := g_v g / 1024 <= i <= (g_v g + Z.of_nat (g_n g)) / 1024.

(** The entries of [kmap] are given with the physical end; the last one ends
    at 2^32, which is 0. *)
Definition same_entry (k : kmap_entry) (g : seg) : Prop :=
  virt k = virt (seg_entry g) /\ phys_start k = phys_start (seg_entry g) /\ u32 (phys_end k - phys_start k) = u32 (Z.of_nat (S (g_n g)) * PGSIZE) /\
  kperm k = kperm (seg_entry g).

Section kern.

Context (kend : Z).

Hypothesis kend_above : KERNBASE < kend.

Lemma setup_segs ks gs : forall s pgdir tabs pm pm' free (D : Z -> Prop),
  pm' = foldl (fun pm g => seg_map g pm) pm gs -> Forall2 same_entry ks gs -> vm kend s pgdir tabs pm free -> segs_ok gs pm ->
  (forall g i, g ∈ gs -> seg_dir g i -> D i) -> (forall i, is_Some (tabs !! i) -> D i) ->
  exists r s', setupkvm_loop kend ks pgdir s = Ok (r, s') /\ touched (owned pgdir tabs pm ++ free) s s' /\
    ((r = pgdir /\ exists tabs' free', vm kend s' pgdir tabs' pm' free' /\
        grown D tabs free tabs' free' /\ user pm' = user pm) \/
     (r = 0 /\ exists free' tabs', kmem_rep kend s' free' /\ free' ≡ₚ owned pgdir tabs pm ++ free /\
        grown D tabs free tabs' [] /\ exists i, D i /\ tabs' !! i = None)).
Proof.
  revert gs. induction ks as [|k ks IH]; intros gs s pgdir tabs pm pm' free D Hpm' Hks V Hok HD Htabs; inversion Hks as [|? g ? gs' Hsame Hks']; subst.
  { exists pgdir, s. split; [done|]. split; [apply touched_refl|]. left. split; [done|]. exists tabs, free. split_and!; [done|apply grown_refl|done]. }
  destruct Hok as ((Hv & Hn & Hpa & H0 & Htop & Hperm) & Hnone & Hok). destruct Hsame as (Evirt & Ephys & Esize & Eperm). simpl in Evirt, Ephys, Eperm.
  cbn [setupkvm_loop]. rewrite Evirt, Esize, Ephys, Eperm.
  destruct (map_kernel_loop kend (g_n g) s pgdir tabs pm free (g_v g) (g_pa g) (g_perm g)) as (r & s1 & tabs1 & pm1 & free1 & H1 & V1 & G1 & T1 & U1 & Hres); try done.
  rewrite <- (mappages_pages s) in H1 by (unfold UPAGES in *; lia || done). rewrite (bind_Ok _ _ _ _ _ H1).
  assert (GD : grown D tabs free tabs1 free1) by (eapply grown_weaken; [done|]; intros i Hi; by apply (HD g i ltac:(left))).
  assert (Hperm1 : owned pgdir tabs1 pm1 ++ free1 ≡ₚ owned pgdir tabs pm ++ free) by (rewrite (owned_user _ _ pm pm1 U1); by eapply owned_grown).
  assert (T1' : touched (owned pgdir tabs pm ++ free) s s1).
  { eapply touched_mono; [done|]. intros a. rewrite elem_of_cons, !elem_of_app, elem_owned. tauto. }
  destruct Hres as [[-> ->]|(-> & -> & i & Hi & Hmiss)].
  - change (0 <? 0) with false. cbn iota. destruct (IH gs' s1 pgdir tabs1 (seg_map g pm) _ free1 D eq_refl Hks' V1 Hok) as (r & s2 & H2 & T2 & Hres).
    { intros g' i Hg'. apply HD. by right. }
    { intros i Hi. destruct (gr_dom _ _ _ _ _ GD i Hi) as [?|?]; auto. }
    exists r, s2. split; [done|]. split; [eapply touched_trans; [done|]; eapply touched_mono; [done|]; intros a; by rewrite Hperm1|].
    destruct Hres as [(-> & tabs2 & free2 & V2 & G2 & U2)|(-> & free2 & tabs2 & K2 & P2 & G2 & Hm2)]; [left|right]; (split; [done|]).
    + exists tabs2, free2. split_and!; [done|by eapply grown_trans|]. cbn [foldl]. rewrite U2. exact U1.
    + exists free2, tabs2. split_and!; [done|by rewrite P2|by eapply grown_trans|done].
  - change (-1 <? 0) with true. cbn iota. destruct (freevm_ok kend kend_above s1 pgdir tabs1 pm1 [] V1) as (s2 & free2 & H2 & K2 & P2 & T2).
    exists 0, s2. rewrite (bind_Ok _ _ _ _ _ H2). split; [done|]. split.
    { eapply touched_trans; [done|]. eapply touched_mono; [done|]. intros a. by rewrite Hperm1. }
    right. split; [done|]. exists free2, tabs1. split_and!; [done|by rewrite P2|done|]. exists i. split; [|done]. by apply (HD g i ltac:(left)).
Qed.

Lemma aspace_empty pg pgdir : page_ok kend pgdir -> pg !! pgdir = Some (page_fill 0) -> aspace kend pg pgdir ∅ ∅.
Proof.
  intros Hok Hp. constructor; try done.
  - exists (page_fill 0). split; [done|]. split; [apply page_fill_length|]. intros i Hi. rewrite lookup_empty. unfold page_fill.
    apply lookup_replicate. split; [done|]. unfold PAGE_WORDS. lia.
  - apply NoDup_singleton.
Qed.

Context (kdata : Z).

(** [kernel.ld] puts [data] on a page boundary behind the text. *)
Hypothesis kdata_page : kdata mod PGSIZE = 0.
Hypothesis kdata_range : KERNLINK < kdata < KERNBASE + PHYSTOP.

Definition kernel_segs : list seg :=
  [ Seg UPAGES 255 0 PTE_W;
    Seg (KERNLINK / PGSIZE) (Z.to_nat ((kdata - KERNLINK) / PGSIZE - 1)) EXTMEM 0;
    Seg (kdata / PGSIZE) (Z.to_nat ((KERNBASE + PHYSTOP - kdata) / PGSIZE - 1)) (kdata - KERNBASE) PTE_W;
    Seg (DEVSPACE / PGSIZE) 8191 DEVSPACE PTE_W ].

Definition kernel_map : gmap Z Z := foldl (fun pm g => seg_map g pm) ∅ kernel_segs.

Lemma kernel_map_eq : kernel_map = foldl (fun pm g => seg_map g pm) ∅ kernel_segs.
Proof. unfold kernel_map. reflexivity. Qed.

(** The mapping of a kernel page, as the comment before [kmap] has it. *)
Definition kernel_pte (w : Z) : option Z :=
  let va := w * PGSIZE in
  if decide (KERNBASE <= va < KERNLINK) then Some (mkpte (va - KERNBASE) PTE_W)
  else if decide (KERNLINK <= va < kdata) then Some (mkpte (va - KERNBASE) 0)
  else if decide (kdata <= va < KERNBASE + PHYSTOP) then Some (mkpte (va - KERNBASE) PTE_W)
  else if decide (DEVSPACE <= va < 2 ^ 32) then Some (mkpte va PTE_W)
  else None.

Lemma kdata_eq : exists q, kdata = q * PGSIZE /\ 524544 < q < 581632.
Proof. exists (kdata / PGSIZE). unfold KERNLINK in kdata_range. clear kend_above. split; mmu_mod. Qed.

Lemma kernel_map_lookup w : kernel_map !! w = kernel_pte w.
Proof.
  destruct kdata_eq as (q & Hq & Hr). unfold kernel_map, kernel_segs, seg_map. cbn [foldl g_v g_n g_pa g_perm]. rewrite !map_range_lookup, lookup_empty.
  unfold kernel_pte. rewrite Hq. change (KERNLINK / PGSIZE) with 524544. change (DEVSPACE / PGSIZE) with 1040384. rewrite Z.div_mul by done.
  replace ((q * PGSIZE - KERNLINK) / PGSIZE - 1) with (q - 524545) by (unfold KERNLINK; mmu_mod).
  replace ((KERNBASE + PHYSTOP - q * PGSIZE) / PGSIZE - 1) with (581632 - q - 1) by mmu_mod.
  replace (Z.of_nat (S (Z.to_nat (q - 524545)))) with (q - 524544) by lia.
  replace (Z.of_nat (S (Z.to_nat (581632 - q - 1)))) with (581632 - q) by lia.
  change (Z.of_nat (S 255)) with 256. change (Z.of_nat (S 8191)) with 8192. change UPAGES with 524288. unfold KERNLINK.
  destruct (decide (1040384 <= w < 1040384 + 8192)) as [H1|H1].
  { rewrite !decide_False by mmu_lia. rewrite decide_True by mmu_lia. do 2 f_equal. mmu_lia. }
  destruct (decide (q <= w < q + (581632 - q))) as [H2|H2].
  { rewrite !decide_False by mmu_lia. rewrite decide_True by mmu_lia. do 2 f_equal. mmu_lia. }
  destruct (decide (524544 <= w < 524544 + (q - 524544))) as [H3|H3].
  { rewrite decide_False by mmu_lia. rewrite decide_True by mmu_lia. do 2 f_equal. mmu_lia. }
  destruct (decide (524288 <= w < 524288 + 256)) as [H4|H4].
  { rewrite decide_True by mmu_lia. do 2 f_equal. mmu_lia. }
  by rewrite !decide_False by mmu_lia.
Qed.

#[local] Opaque kernel_map.

Lemma kernel_segs_entries : Forall2 same_entry (kmap kdata) kernel_segs.
Proof.
  destruct kdata_eq as (q & Hq & Hr). unfold kmap, kernel_segs. rewrite Hq. change (KERNLINK / PGSIZE) with 524544. rewrite Z.div_mul by done.
  replace ((q * PGSIZE - KERNLINK) / PGSIZE - 1) with (q - 524545) by (unfold KERNLINK; mmu_mod).
  replace ((KERNBASE + PHYSTOP - q * PGSIZE) / PGSIZE - 1) with (581632 - q - 1) by mmu_mod.
  repeat constructor; simpl; try done.
  - f_equal. unfold KERNLINK. mmu_lia.
  - f_equal. mmu_lia.
Qed.

Lemma kernel_segs_ok : segs_ok kernel_segs ∅.
Proof.
  destruct kdata_eq as (q & Hq & Hr). unfold kernel_segs. rewrite Hq. change (KERNLINK / PGSIZE) with 524544. rewrite Z.div_mul by done.
  replace ((q * PGSIZE - KERNLINK) / PGSIZE - 1) with (q - 524545) by (unfold KERNLINK; mmu_mod).
  replace ((KERNBASE + PHYSTOP - q * PGSIZE) / PGSIZE - 1) with (581632 - q - 1) by mmu_mod.
  cbn [segs_ok]. unfold seg_ok, seg_map. cbn [g_v g_n g_pa g_perm]. change UPAGES with 524288. change NPAGES with 1048576. change (DEVSPACE / PGSIZE) with 1040384.
  change (Z.of_nat (S 255)) with 256. change (Z.of_nat (S 8191)) with 8192.
  split_and!; try done; try (unfold PTE_W, PTE_P in *; mmu_mod); intros w Hw; rewrite ?map_range_lookup, ?lookup_empty;
    repeat (rewrite decide_False by lia); done.
Qed.

(** The directory entries of the kernel part. *)
Definition kernel_dir (i : Z) : Prop := 512 <= i < 568 \/ 1016 <= i < 1024.

Lemma kernel_segs_dir g i : g ∈ kernel_segs -> seg_dir g i -> kernel_dir i.
Proof.
  destruct kdata_eq as (q & Hq & Hr). unfold kernel_segs. rewrite Hq. change (KERNLINK / PGSIZE) with 524544. rewrite Z.div_mul by done.
  replace ((q * PGSIZE - KERNLINK) / PGSIZE - 1) with (q - 524545) by (unfold KERNLINK; mmu_mod).
  replace ((KERNBASE + PHYSTOP - q * PGSIZE) / PGSIZE - 1) with (581632 - q - 1) by mmu_mod.
  unfold seg_dir, kernel_dir. change UPAGES with 524288. change (DEVSPACE / PGSIZE) with 1040384.
  rewrite !elem_of_cons, elem_of_nil. intros [-> |[-> |[-> |[-> |[]]]]]; cbn [g_v g_n]; intros [H1 H2]; clear -Hr H1 H2;
    [change (Z.of_nat 255) with 255 in H2| | |change (Z.of_nat 8191) with 8191 in H2]; Z.to_euclidean_division_equations; lia.
Qed.

Definition kernel_dirs : list Z := seqZ 512 56 ++ seqZ 1016 8.

Lemma kernel_dirs_elem i : i ∈ kernel_dirs <-> kernel_dir i.
Proof. unfold kernel_dirs, kernel_dir. rewrite elem_of_app, !elem_of_seqZ. lia. Qed.

Lemma kernel_dirs_nodup : NoDup kernel_dirs.
Proof. apply NoDup_app. split_and!; [apply NoDup_seqZ| |apply NoDup_seqZ]. intros i. rewrite !elem_of_seqZ. lia. Qed.

Lemma kernel_dirs_length : length kernel_dirs = 64%nat.
Proof. done. Qed.

Lemma tables_empty : tables ∅ = [].
Proof. unfold tables. by rewrite map_to_list_empty. Qed.

(** How many tables fit in a set of directory entries. *)
Lemma tabs_size (tabs : gmap Z Z) (l : list Z) : NoDup l -> (forall i, is_Some (tabs !! i) -> i ∈ l) -> (length (tables tabs) <= length l)%nat.
Proof.
  intros Hn H. unfold tables. rewrite length_fmap, length_map_to_list, <- size_dom, <- (size_list_to_set (C := gset Z) l Hn).
  apply subseteq_size. intros i Hi. apply elem_of_list_to_set, H. by apply elem_of_dom.
Qed.

Lemma tabs_size_ge (tabs : gmap Z Z) (l : list Z) : NoDup l -> (forall i, i ∈ l -> is_Some (tabs !! i)) -> (length l <= length (tables tabs))%nat.
Proof.
  intros Hn H. unfold tables. rewrite length_fmap, length_map_to_list, <- size_dom, <- (size_list_to_set (C := gset Z) l Hn).
  apply subseteq_size. intros i Hi. apply elem_of_dom, H. by apply elem_of_list_to_set in Hi.
Qed.

(** One of the entries is missing. *)
Lemma tabs_size_miss (tabs : gmap Z Z) (l : list Z) i :
  NoDup l -> (forall j, is_Some (tabs !! j) -> j ∈ l) -> i ∈ l -> tabs !! i = None -> (length (tables tabs) < length l)%nat.
Proof.
  intros Hn H Hi Hmiss. apply list_elem_of_split in Hi as (l1 & l2 & ->).
  assert (length (tables tabs) <= length (l1 ++ l2))%nat; [|rewrite !length_app in *; simpl; lia].
  rewrite <- Permutation_middle in Hn. apply NoDup_cons in Hn as [_ Hn]. apply tabs_size; [done|]. intros j Hj.
  pose proof (H j Hj) as Hin. rewrite elem_of_app, elem_of_cons in Hin. rewrite elem_of_app. destruct Hin as [?|[-> |?]]; auto.
  rewrite Hmiss in Hj. by destruct Hj.
Qed.

Lemma kernel_pte_some w : 524288 <= w < 581632 \/ 1040384 <= w < 1048576 -> is_Some (kernel_pte w).
Proof.
  intros Hw. unfold kernel_pte, KERNLINK in *. repeat destruct (decide _); eauto. exfalso. destruct kdata_eq as (q & -> & Hq). mmu_lia.
Qed.

Lemma kernel_tables pg pgdir tabs pm i :
  aspace kend pg pgdir tabs pm -> (forall w, UPAGES <= w -> pm !! w = kernel_pte w) -> kernel_dir i -> is_Some (tabs !! i).
Proof.
  intros A Hpm Hi. destruct (tabs !! i) eqn:E; [eauto|]. exfalso. assert (Hd : i * 1024 / 1024 = i) by (by apply Z.div_mul).
  pose proof (no_table_no_page kend pg pgdir tabs pm (i * 1024) (i * 1024) A) as Hn. rewrite Hd in Hn. specialize (Hn E eq_refl).
  unfold kernel_dir in Hi. rewrite Hpm in Hn by (unfold UPAGES; lia). destruct (kernel_pte_some (i * 1024)) as [e He]; [lia|congruence].
Qed.

Lemma kernel_map_user : user kernel_map = ∅.
Proof.
  apply map_eq. intros w. rewrite lookup_empty. unfold user. apply map_lookup_filter_None. right. intros e He Hlt. simpl in Hlt.
  rewrite kernel_map_lookup in He. unfold kernel_pte, KERNLINK, UPAGES in *.
  destruct kdata_eq as (q & Hq & Hr). rewrite Hq in He.
  repeat (destruct (decide _) as [Hd|_] in He; [clear -Hd Hlt Hr; mmu_lia|]). done.
Qed.

Lemma kernel_owned pgdir tabs : owned pgdir tabs kernel_map = pgdir :: tables tabs.
Proof. unfold owned, upages. by rewrite kernel_map_user, map_to_list_empty, app_nil_r. Qed.

(** The outcome of [setupkvm]. *)
Lemma setupkvm_ok s free :
  kmem_rep kend s free ->
  exists r s', setupkvm kend kdata s = Ok (r, s') /\ touched free s s' /\
    ((65 <= length free)%nat /\ r <> 0 /\ (exists tabs free', vm kend s' r tabs kernel_map free' /\ owned r tabs kernel_map ++ free' ≡ₚ free /\
        forall i, is_Some (tabs !! i) <-> kernel_dir i) \/
     (length free < 65)%nat /\ r = 0 /\ exists free', kmem_rep kend s' free' /\ free' ≡ₚ free).
Proof.
  intros Hk. unfold setupkvm. destruct free as [|pgdir free].
  { destruct (kalloc_empty kend s Hk) as (s' & H1 & K1 & T1 & _). exists 0, s'. rewrite (bind_Ok _ _ _ _ _ H1). split; [done|]. split; [done|].
    right. split; [simpl; lia|]. split; [done|]. by exists []. }
  destruct (kalloc_take kend s pgdir free Hk) as (s1 & H1 & K1 & Hnf & Hok & H0 & Hp & T1 & _). rewrite (bind_Ok _ _ _ _ _ H1), H0.
  rewrite (bind_Ok _ _ _ _ _ (fill_page_ok s1 pgdir 0 Hp)). rewrite (bind_Ok _ _ _ _ _ (lift_Ok (P2V PHYSTOP) _ (KERNBASE + PHYSTOP) eq_refl)).
  change (DEVSPACE <? KERNBASE + PHYSTOP) with false. cbn iota. set (s2 := put_pages _ s1).
  assert (V2 : vm kend s2 pgdir ∅ ∅ free).
  { constructor; [by apply kmem_rep_put|apply aspace_empty; [done|apply lookup_insert_eq]|]. intros a Ha. unfold owned in Ha.
    apply list_elem_of_singleton in Ha. by subst a. }
  destruct (setup_segs (kmap kdata) kernel_segs s2 pgdir ∅ ∅ kernel_map free kernel_dir kernel_map_eq kernel_segs_entries V2 kernel_segs_ok kernel_segs_dir) as (r & s3 & H3 & T3 & Hres).
  { intros i [x Hx]. by rewrite lookup_empty in Hx. }
  exists r, s3. split; [done|]. split.
  { clear Hres H3. apply (touched_trans _ s s1); [eapply touched_mono; [done|set_solver]|]. apply (touched_trans _ s1 s2); [apply touched_put; left|].
    eapply touched_mono; [done|]. intros a Ha. exact Ha. }
  destruct Hres as [(-> & tabs & free' & V3 & G & _)|(-> & free' & tabs & K3 & P3 & G & i & Hi & Hmiss)].
  - left. assert (Hd : forall i, is_Some (tabs !! i) <-> kernel_dir i).
    { intros i. split; [|apply (kernel_tables (pages s3) pgdir tabs kernel_map); [apply V3|intros w _; apply kernel_map_lookup]].
      intros Hi. destruct (gr_dom _ _ _ _ _ G i Hi) as [[x Hx]|?]; [by rewrite lookup_empty in Hx|done]. }
    assert (Hperm : owned pgdir tabs kernel_map ++ free' ≡ₚ pgdir :: free).
    { rewrite kernel_owned. simpl. apply perm_skip. rewrite (gr_perm _ _ _ _ _ G). done. }
    split; [|split; [by apply Z.eqb_neq|eauto 10]]. rewrite <- Hperm, kernel_owned, length_app. simpl.
    assert (64 <= length (tables tabs))%nat; [|lia]. rewrite <- kernel_dirs_length. apply (tabs_size_ge _ _ kernel_dirs_nodup).
    intros i Hi. by apply Hd, kernel_dirs_elem.
  - right. assert (Hdom : forall j, is_Some (tabs !! j) -> j ∈ kernel_dirs).
    { intros j Hj. apply kernel_dirs_elem. destruct (gr_dom _ _ _ _ _ G j Hj) as [[x Hx]|?]; [by rewrite lookup_empty in Hx|done]. }
    split; [|split; [done|exists free'; split; [done|]; rewrite P3; done]].
    pose proof (Permutation_length (gr_perm _ _ _ _ _ G)) as Hlen. rewrite app_nil_r, tables_empty in Hlen. simpl in Hlen |- *. rewrite <- Hlen.
    pose proof (tabs_size_miss tabs kernel_dirs i kernel_dirs_nodup Hdom ltac:(by apply kernel_dirs_elem) Hmiss) as Hlt.
    rewrite kernel_dirs_length in Hlt. lia.
Qed.

End kern.
