(* ===== verification/VmUser.v ===== *)
(** * Growing and copying user memory

    What [allocuvm] and [copyuvm] do to address spaces. *)

From S2P Require Import Prelude Spinlock Mmu Kalloc Console Block Fs Vm VmPt VmMap VmKern.

(** Tables added for directory entries in [l] only, all of them or not. *)
Lemma tables_bound (tabs tabs' : gmap Z Z) (l : list Z) :
  (forall i, is_Some (tabs' !! i) -> is_Some (tabs !! i) \/ i ∈ l) -> (length (tables tabs') <= length (tables tabs) + length l)%nat.
Proof.
  intros H. unfold tables. rewrite !length_fmap, !length_map_to_list, <- !size_dom.
  assert (Hsub : (dom tabs' : gset Z) ⊆ dom tabs ∪ list_to_set l).
  { intros i Hi. apply elem_of_union. rewrite elem_of_list_to_set, elem_of_dom. apply H. by apply elem_of_dom. }
  apply subseteq_size in Hsub. etransitivity; [exact Hsub|]. rewrite size_union_alt. apply Nat.add_le_mono_l.
  etransitivity; [apply subseteq_size, subseteq_difference_l; reflexivity|].
  clear. induction l as [|x l IH]; [by rewrite list_to_set_nil, size_empty|]. rewrite list_to_set_cons, size_union_alt, size_singleton.
  simpl. assert (size (list_to_set l ∖ {[x]} : gset Z) <= size (list_to_set l : gset Z))%nat by (apply subseteq_size; set_solver). lia.
Qed.

Lemma tables_bound_miss (tabs tabs' : gmap Z Z) (l : list Z) i :
  (forall j, is_Some (tabs' !! j) -> is_Some (tabs !! j) \/ j ∈ l) -> i ∈ l -> tabs' !! i = None -> tabs ⊆ tabs' ->
  (length (tables tabs') < length (tables tabs) + length l)%nat.
Proof.
  intros H Hi Hmiss Hsub. apply list_elem_of_split in Hi as (l1 & l2 & ->).
  assert (length (tables tabs') <= length (tables tabs) + length (l1 ++ l2))%nat; [|rewrite !length_app in *; simpl; lia].
  apply tables_bound. intros j Hj. destruct (H j Hj) as [?|Hin]; [by left|]. right. rewrite elem_of_app, elem_of_cons in Hin. rewrite elem_of_app.
  destruct Hin as [?|[-> |?]]; auto. rewrite Hmiss in Hj. by destruct Hj.
Qed.

Lemma seqZ_length_nat a n : 0 <= n -> length (seqZ a n) = Z.to_nat n.
Proof. intros. by rewrite length_seqZ. Qed.

Section user.

Context (kend : Z).

Hypothesis kend_above : KERNBASE < kend.

Abbreviation vm := (vm kend).

(** User pages are neither tables nor free. *)
Lemma upage_apart s pgdir tabs pm free a : vm s pgdir tabs pm free -> a ∈ upages pm -> a ∉ pgdir :: tables tabs ++ free.
Proof.
  intros [_ A Hsep] Hu Ha. pose proof (as_nodup _ _ _ _ _ A) as Hn. unfold owned in Hn. apply NoDup_cons in Hn as [Hg Hn].
  apply NoDup_app in Hn as (_ & Hd & _). rewrite elem_of_cons, elem_of_app in Ha. destruct Ha as [-> |[Ha|Ha]].
  - apply Hg, elem_of_app. by right.
  - by apply (Hd a).
  - apply (Hsep a); [apply elem_owned; auto|done].
Qed.

(** The pages a change may touch, in terms of where they were at the start. *)
Lemma not_kept s pgdir tabs pm free tabs0 pm0 free0 :
  vm s pgdir tabs pm free -> owned pgdir tabs pm ++ free ≡ₚ owned pgdir tabs0 pm0 ++ free0 -> upages pm0 ⊆ upages pm ->
  pgdir :: tables tabs ++ free ⊆ pgdir :: tables tabs0 ++ free0.
Proof.
  intros V Hp Hsub a Ha. assert (Hnu : a ∉ upages pm0) by (intros Hu%Hsub; by apply (upage_apart _ _ _ _ _ _ V Hu)).
  assert (Hin : a ∈ owned pgdir tabs0 pm0 ++ free0).
  { rewrite <- Hp. rewrite elem_of_cons, elem_of_app in Ha. rewrite elem_of_app, elem_owned. tauto. }
  rewrite elem_of_app, elem_owned in Hin. rewrite elem_of_cons, elem_of_app. tauto.
Qed.

Lemma upages_insert pm v e : pm !! v = None -> upages pm ⊆ upages (<[v := e]> pm).
Proof.
  intros Hn a. rewrite !elem_upages. intros (w & x & Hw & Hlt & ->). exists w, x. split; [|done]. rewrite lookup_insert_ne; [done|]. congruence.
Qed.

Lemma kva_sub a : page_ok kend a -> (a - KERNBASE) mod PGSIZE = 0 /\ 0 <= a - KERNBASE < 2 ^ 32 /\ a - KERNBASE + KERNBASE = a.
Proof. intros (? & ? & ?). split; [mmu_mod|]. split; [mmu_lia|lia]. Qed.

(** A page from the allocator is filled and mapped at user page [v]; [fill]
    is what happens to the page in between. *)
Lemma map_fresh s pgdir tabs pm a free v perm (ws : list Z) :
  vm s pgdir tabs pm free -> 0 <= v < UPAGES -> pm !! v = None -> 0 <= perm < PGSIZE -> page_ok kend a -> a ∉ free ->
  a ∉ owned pgdir tabs pm -> length ws = PAGE_WORDS ->
  let s1 := put_pages (<[a := ws]> (pages s)) s in
  (free = [] /\ tabs !! (v / 1024) = None /\
     exists s', mappages pgdir (v * PGSIZE) PGSIZE (a - KERNBASE) perm s1 = Ok (-1, s') /\ vm s' pgdir tabs pm [] /\ touched [a] s s') \/
  exists s' tabs' free', mappages pgdir (v * PGSIZE) PGSIZE (a - KERNBASE) perm s1 = Ok (0, s') /\
    vm s' pgdir tabs' (<[v := mkpte (a - KERNBASE) perm]> pm) free' /\ grown (eq (v / 1024)) tabs free tabs' free' /\
    touched (a :: pgdir :: tables tabs ++ free) s s' /\ pages s' !! a = Some ws /\
    owned pgdir tabs' (<[v := mkpte (a - KERNBASE) perm]> pm) ++ free' ≡ₚ a :: owned pgdir tabs pm ++ free.
Proof.
  intros V Hv Hnone Hperm Hok Hnf Hno Hl s1. pose proof V as [Hk A Hsep]. destruct (kva_sub a Hok) as (Hm & Hr & Hk').
  assert (V1 : vm s1 pgdir tabs pm free).
  { constructor; [by apply kmem_rep_put| |done]. apply (aspace_frame kend (pages s)); [done|]. intros b Hb. simpl. rewrite lookup_insert_ne; [done|].
    by intros ->. }
  assert (T1 : touched [a] s s1) by (apply touched_put; left).
  assert (Ha : pages s1 !! a = Some ws) by apply lookup_insert_eq.
  destruct (map_user kend s1 pgdir tabs pm free v (a - KERNBASE) perm V1 Hv Hnone Hm Hr Hperm)
    as [(-> & Hmiss & s2 & H2 & V2 & T2)|(s2 & tabs2 & free2 & H2 & V2 & G2 & T2)].
  - rewrite Hk'. split_and!; try done. by exists ws.
  - left. split; [done|]. split; [done|]. exists s2. split_and!; try done. eapply touched_trans; [done|]. eapply touched_mono; [done|set_solver].
  - right. exists s2, tabs2, free2. split_and!; try done.
    + eapply touched_trans; (eapply touched_mono; [done|]); [intros b Hb%list_elem_of_singleton; subst b; left|intros b Hb; by right].
    + destruct T2 as [_ Hf]. rewrite Hf; [done|]. rewrite elem_of_cons, elem_of_app. rewrite elem_owned in Hno. tauto.
    + rewrite (owned_insert _ _ _ _ _ Hnone), decide_True by lia. rewrite kva_mkpte by done. rewrite Hk'. simpl. apply perm_skip. by eapply owned_grown.
Qed.

(** ** allocuvm *)

(** The user pages [v0 .. v) were added to the space [tabs0], [pm0], each
    writable by the user and filled with zeros. *)
Record growing (pgdir : Z) (tabs0 pm0 : gmap Z Z) (free0 : list Z) (v0 top v : Z) (s : kst) (tabs pm : gmap Z Z) (free : list Z) : Prop := {
  gw_vm : vm s pgdir tabs pm free;
  gw_old : forall w, ~ (v0 <= w < v) -> pm !! w = pm0 !! w;
  gw_new : forall w, v0 <= w < v -> exists a, pm !! w = Some (mkpte (a - KERNBASE) (Z.lor PTE_W PTE_U)) /\ page_ok kend a /\ pages s !! a = Some (page_fill 0);
  gw_perm : owned pgdir tabs pm ++ free ≡ₚ owned pgdir tabs0 pm0 ++ free0;
  gw_sub : tabs0 ⊆ tabs;
  gw_dom : forall i, is_Some (tabs !! i) -> is_Some (tabs0 !! i) \/ i ∈ seqZ (v0 / 1024) ((top - 1) / 1024 - v0 / 1024 + 1);
  gw_count : (length (upages pm) = length (upages pm0) + Z.to_nat (v - v0))%nat
}.

Lemma growing_upages pgdir tabs0 pm0 free0 v0 top v s tabs pm free :
  (forall w, v0 <= w < top -> pm0 !! w = None) -> v <= top ->
  growing pgdir tabs0 pm0 free0 v0 top v s tabs pm free -> upages pm0 ⊆ upages pm.
Proof.
  intros Hnone Hv G a. rewrite !elem_upages. intros (w & e & Hw & Hlt & ->). exists w, e. split; [|done]. rewrite (gw_old _ _ _ _ _ _ _ _ _ _ _ G); [done|].
  intros Hr. rewrite Hnone in Hw by lia. done.
Qed.

Lemma upages_length_insert pm v e : pm !! v = None -> v < UPAGES -> length (upages (<[v := e]> pm)) = S (length (upages pm)).
Proof.
  intros Hn Hv. unfold upages, user. rewrite map_filter_insert_True by done. rewrite !length_fmap, !length_map_to_list.
  apply map_size_insert_None. apply map_lookup_filter_None. by left.
Qed.

Lemma V2P_lift {A} (a : Z) (s : A) : page_ok kend a -> lift (V2P a) s = Ok (a - KERNBASE, s).
Proof. intros H. by apply lift_Ok, (V2P_page kend). Qed.

(** One page more. *)
Lemma growing_step pgdir tabs0 pm0 free0 v0 top v s tabs pm a free :
  growing pgdir tabs0 pm0 free0 v0 top v s tabs pm (a :: free) -> 0 <= v0 <= v -> v < top <= UPAGES -> (forall w, v0 <= w < top -> pm0 !! w = None) ->
  exists s1, kalloc s = Ok (a, s1) /\ (a =? 0) = false /\ page_ok kend a /\
    fill_page a 0 s1 = Ok (tt, put_pages (<[a := page_fill 0]> (pages s1)) s1) /\
    ((free = [] /\ tabs !! (v / 1024) = None /\
      exists s', mappages pgdir (v * PGSIZE) PGSIZE (a - KERNBASE) (Z.lor PTE_W PTE_U) (put_pages (<[a := page_fill 0]> (pages s1)) s1) = Ok (-1, s') /\
       vm s' pgdir tabs pm [] /\ a ∉ owned pgdir tabs pm /\ touched [a] s s') \/
     exists s' tabs' pm' free',
       mappages pgdir (v * PGSIZE) PGSIZE (a - KERNBASE) (Z.lor PTE_W PTE_U) (put_pages (<[a := page_fill 0]> (pages s1)) s1) = Ok (0, s') /\
       growing pgdir tabs0 pm0 free0 v0 top (v + 1) s' tabs' pm' free' /\ touched (pgdir :: tables tabs ++ a :: free) s s').
Proof.
  intros G Hv0 Hv Hnone0. pose proof (gw_vm _ _ _ _ _ _ _ _ _ _ _ G) as V. pose proof V as [Hk A Hsep].
  destruct (kalloc_take kend s a free Hk) as (s1 & H1 & K1 & Hnf & Hok & H0 & Hp & T1 & Hpg). exists s1.
  assert (Hno : a ∉ owned pgdir tabs pm) by (intros Hin; apply (Hsep a Hin); left).
  assert (Hnone : pm !! v = None) by (rewrite (gw_old _ _ _ _ _ _ _ _ _ _ _ G) by lia; apply Hnone0; lia).
  assert (V1 : vm s1 pgdir tabs pm free).
  { constructor; [done|by rewrite Hpg|]. intros b Hb Hin. apply (Hsep b Hb). by right. }
  split_and!; try done; [by apply fill_page_ok|].
  destruct (map_fresh s1 pgdir tabs pm a free v (Z.lor PTE_W PTE_U) (page_fill 0) V1) as
    [(-> & Hmiss & s2 & H2 & V2 & T2)|(s2 & tabs2 & free2 & H2 & V2 & G2 & T2 & Hz & Hperm)]; try done; [lia|left|right].
  - split; [done|]. split; [done|]. exists s2. split_and!; try done. eapply touched_trans; [|done]. eapply touched_mono; [done|set_solver].
  - exists s2, tabs2, (<[v := mkpte (a - KERNBASE) (Z.lor PTE_W PTE_U)]> pm), free2. split; [done|]. split.
    2:{ eapply touched_trans; [eapply touched_mono; [done|set_solver]|]. eapply touched_mono; [done|]. intros b.
      rewrite !elem_of_cons, !elem_of_app, !elem_of_cons. tauto. }
    destruct G as [_ Hold Hnew Hpm Hsub Hdom Hcnt]. constructor; try done.
    + intros w Hw. rewrite lookup_insert_ne by lia. apply Hold. lia.
    + intros w Hw. destruct (decide (w = v)) as [-> |Hne]; [exists a; by rewrite lookup_insert_eq|]. rewrite lookup_insert_ne by done.
      destruct (Hnew w) as (b & Hb & Hbo & Hbz); [lia|]. exists b. split; [done|]. split; [done|].
      assert (Hbu : b ∈ upages pm).
      { apply elem_upages. exists w, (mkpte (b - KERNBASE) (Z.lor PTE_W PTE_U)). destruct (kva_sub b Hbo) as (? & ? & ?). rewrite kva_mkpte by done.
        split_and!; [done|lia|done]. }
      destruct T2 as [_ Hf]. rewrite Hf, Hpg; [done|]. pose proof (upage_apart _ _ _ _ _ _ V Hbu) as Hap.
      rewrite elem_of_cons, elem_of_app, elem_of_cons in Hap. rewrite !elem_of_cons, elem_of_app. tauto.
    + rewrite Hperm, <- Hpm. apply Permutation_middle.
    + etransitivity; [exact Hsub|]. apply (gr_sub _ _ _ _ _ G2).
    + intros i Hi. destruct (gr_dom _ _ _ _ _ G2 i Hi) as [?|<-]; [by apply Hdom|]. right. apply elem_of_seqZ.
      pose proof (Z.div_le_mono v0 v 1024). pose proof (Z.div_le_mono v (top - 1) 1024). lia.
    + rewrite upages_length_insert by (done || lia). rewrite Hcnt. lia.
Qed.

Lemma on_vk_Ok {A} (c : M kst A) s x k : c (vk s) = Ok (x, k) -> on_vk c s = Ok (x, Vst k (vout s)).
Proof. exact (zoom_Ok vk (fun k s => Vst k (vout s)) c s x k). Qed.

Lemma vprint_seq {A} (msg out : list Z) (k : M vst A) s : cprintf (Some msg) [] = Ok out -> (vprint msg ;;; k) s = k (Vst (vk s) (vout s ++ out)).
Proof. intros H. unfold vprint, bind, lift, modify. by rewrite H. Qed.

(** The way back: what was added is unmapped again. *)
Lemma growing_undo pgdir tabs0 pm0 free0 oldsz newsz v s tabs pm free :
  let v0 := (oldsz + PGSIZE - 1) / PGSIZE in let top := (newsz + PGSIZE - 1) / PGSIZE in
  growing pgdir tabs0 pm0 free0 v0 top v s tabs pm free -> 0 <= oldsz <= newsz -> newsz <= KERNBASE -> v <= top ->
  (forall w, v0 <= w < top -> pm0 !! w = None) ->
  forall s1 free1, vm s1 pgdir tabs pm free1 ->
  exists s' free', deallocuvm kend pgdir newsz oldsz s1 = Ok (oldsz, s') /\ vm s' pgdir tabs pm0 free' /\
    owned pgdir tabs pm0 ++ free' ≡ₚ owned pgdir tabs pm ++ free1 /\ free1 ⊆ free' /\ touched (tables tabs ++ free') s1 s'.
Proof.
  intros v0 top G Ho Hn Hv Hnone s1 free1 V1. destruct (deallocuvm_ok kend kend_above s1 pgdir tabs pm free1 newsz oldsz V1) as (s' & free' & H); [lia..|].
  assert (Hun : unmap v0 top pm = pm0).
  { apply map_eq. intros w. rewrite unmap_lookup. destruct (decide (v0 <= w < top)) as [Hw|Hw]; [by rewrite Hnone|].
    apply (gw_old _ _ _ _ _ _ _ _ _ _ _ G). lia. }
  fold v0 top in H. rewrite Hun, Z.min_r in H by lia. eauto.
Qed.

(** How many pages are needed at most. *)
Lemma growing_short pgdir tabs0 pm0 free0 v0 top v s tabs pm free :
  growing pgdir tabs0 pm0 free0 v0 top v s tabs pm free -> 0 <= v0 <= v -> v < top ->
  (free = [] \/ length free = 1%nat /\ tabs !! (v / 1024) = None) ->
  (length free0 < Z.to_nat (top - v0) + Z.to_nat ((top - 1) / 1024 - v0 / 1024 + 1))%nat.
Proof.
  intros [_ _ _ Hp Hsub Hdom Hcnt] Hv0 Hv Ha. apply Permutation_length in Hp. unfold owned in Hp. rewrite !length_app in Hp. simpl in Hp.
  rewrite !length_app in Hp. assert (Hnn : 0 <= (top - 1) / 1024 - v0 / 1024 + 1) by (pose proof (Z.div_le_mono v0 (top - 1) 1024); lia).
  destruct Ha as [-> |[Hl Hmiss]].
  - pose proof (tables_bound _ _ _ Hdom) as Hb. rewrite length_seqZ in Hb. simpl in Hp. lia.
  - pose proof (tables_bound_miss _ _ _ (v / 1024) Hdom) as Hb. rewrite length_seqZ in Hb.
    assert (Hin : v / 1024 ∈ seqZ (v0 / 1024) ((top - 1) / 1024 - v0 / 1024 + 1)).
    { apply elem_of_seqZ. pose proof (Z.div_le_mono v0 v 1024). pose proof (Z.div_le_mono v (top - 1) 1024). lia. }
    specialize (Hb Hin Hmiss Hsub). lia.
Qed.

Definition grow_need (v0 top : Z) : nat := Z.to_nat (top - v0) + Z.to_nat ((top - 1) / 1024 - v0 / 1024 + 1).

(** No memory for a page table: the pages are given back, the new one too. *)
Lemma alloc_fail pgdir tabs0 pm0 free0 oldsz newsz v s0 tabs pm a s :
  let v0 := (oldsz + PGSIZE - 1) / PGSIZE in let top := (newsz + PGSIZE - 1) / PGSIZE in
  growing pgdir tabs0 pm0 free0 v0 top v s0 tabs pm [a] -> 0 <= oldsz <= newsz -> newsz <= KERNBASE -> v <= top ->
  (forall w, v0 <= w < top -> pm0 !! w = None) -> vm (vk s) pgdir tabs pm [] -> a ∉ owned pgdir tabs pm -> page_ok kend a ->
  exists s' free', (on_vk (deallocuvm kend pgdir newsz oldsz) ;;; on_vk (kfree kend a) ;;; ret 0) s = Ok (0, s') /\
    vm (vk s') pgdir tabs pm0 free' /\ owned pgdir tabs pm0 ++ free' ≡ₚ owned pgdir tabs0 pm0 ++ free0 /\
    touched (pgdir :: tables tabs0 ++ free0) (vk s) (vk s').
Proof.
  intros v0 top G Ho Hn Hv Hnone V Hao Hok.
  destruct (growing_undo _ _ _ _ _ _ _ _ _ _ _ G Ho Hn Hv Hnone (vk s) [] V) as (k3 & free3 & H3 & V3 & P3 & _ & T3).
  rewrite (bind_Ok _ _ _ _ _ (on_vk_Ok _ _ _ _ H3)). rewrite app_nil_r in P3.
  assert (Haf : a ∉ owned pgdir tabs pm0 ++ free3) by (by rewrite P3). apply not_elem_of_app in Haf as [Hao3 Haf3].
  destruct (kfree_frame kend k3 a free3 (vm_mem _ _ _ _ _ _ V3) Hok Haf3) as (k4 & H4 & K4 & Hs4 & Hf4).
  rewrite (bind_Ok _ _ _ _ _ (on_vk_Ok _ (Vst _ _) _ _ H4)). eexists _, (a :: free3). split; [done|]. cbn [vk].
  assert (V4 : vm k4 pgdir tabs pm0 (a :: free3)).
  { constructor; [done|apply (aspace_frame kend (pages k3)); [apply V3|]|].
    - intros b Hb. apply Hf4. by intros ->.
    - intros b Hb. apply not_elem_of_cons. split; [by intros ->|by apply V3]. }
  assert (P4 : owned pgdir tabs pm0 ++ a :: free3 ≡ₚ owned pgdir tabs0 pm0 ++ free0).
  { rewrite <- Permutation_middle, P3, <- (gw_perm _ _ _ _ _ _ _ _ _ _ _ G), <- Permutation_middle, app_nil_r. done. }
  split; [done|]. split; [done|]. pose proof (not_kept k4 pgdir tabs pm0 (a :: free3) tabs0 pm0 free0 V4 P4 ltac:(done)) as Hk4.
  eapply (touched_trans _ _ k3); [eapply touched_mono; [done|]; intros b Hb; apply Hk4; set_solver|].
  split; [done|]. intros b Hb. apply Hf4. intros ->. apply Hb, Hk4. set_solver.
Qed.

Lemma alloc_loop fuel : forall s pgdir tabs0 pm0 free0 oldsz newsz v tabs pm free,
  let v0 := (oldsz + PGSIZE - 1) / PGSIZE in let top := (newsz + PGSIZE - 1) / PGSIZE in
  growing pgdir tabs0 pm0 free0 v0 top v (vk s) tabs pm free -> 0 <= oldsz <= newsz -> newsz < KERNBASE -> v0 <= v <= top ->
  (forall w, v0 <= w < top -> pm0 !! w = None) -> top - v < Z.of_nat fuel ->
  exists r s' tabs' free', allocuvm_loop kend fuel pgdir oldsz newsz (v * PGSIZE) s = Ok (r, s') /\
    touched (pgdir :: tables tabs0 ++ free0) (vk s) (vk s') /\
    ((r = newsz /\ exists pm', growing pgdir tabs0 pm0 free0 v0 top top (vk s') tabs' pm' free') \/
     (r = 0 /\ vm (vk s') pgdir tabs' pm0 free' /\ owned pgdir tabs' pm0 ++ free' ≡ₚ owned pgdir tabs0 pm0 ++ free0 /\ tabs0 ⊆ tabs' /\
      (length free0 < grow_need v0 top)%nat)).
Proof.
  induction fuel as [|fuel IH]; intros s pgdir tabs0 pm0 free0 oldsz newsz v tabs pm free v0 top G Ho Hn Hv Hnone Hfuel; [lia|].
  destruct (pages_of_sz oldsz) as [_ Hb0]; [lia|]. destruct (pages_of_sz newsz) as [_ Hb1]; [lia|]. fold v0 in Hb0. fold top in Hb1.
  pose proof (gw_vm _ _ _ _ _ _ _ _ _ _ _ G) as V. pose proof (gw_perm _ _ _ _ _ _ _ _ _ _ _ G) as P.
  assert (Hkeep : pgdir :: tables tabs ++ free ⊆ pgdir :: tables tabs0 ++ free0).
  { eapply not_kept; [done|done|]. by eapply growing_upages; [|apply Hv|]. }
  cbn [allocuvm_loop]. rewrite page_below by lia. fold top. destruct (Z.leb_spec top v) as [Hle|Hlt].
  { exists newsz, s, tabs, free. split; [done|]. split; [apply touched_refl|]. left. split; [done|]. exists pm. by replace top with v at 2 by lia. }
  destruct free as [|a free].
  - destruct (kalloc_empty kend (vk s) (vm_mem _ _ _ _ _ _ V)) as (k1 & H1 & K1 & T1 & Hpg).
    rewrite (bind_Ok _ _ _ _ _ (on_vk_Ok _ _ _ _ H1)). cbn [Z.eqb]. erewrite vprint_seq by (vm_compute; reflexivity). cbn [vk vout].
    assert (V1 : vm k1 pgdir tabs pm []) by (constructor; [done|rewrite Hpg; apply V|apply V]).
    destruct (growing_undo _ _ _ _ _ _ _ _ _ _ _ G Ho ltac:(lia) ltac:(lia) Hnone k1 [] V1) as (k2 & free2 & H2 & V2 & P2 & _ & T2).
    erewrite (bind_Ok (on_vk _)) by (by apply on_vk_Ok). eexists 0, _, tabs, free2. split; [done|]. cbn [vk]. split.
    + eapply touched_trans; (eapply touched_mono; [done|]); [set_solver|].
      intros b Hb. eapply (not_kept k2 pgdir tabs pm0 free2 tabs0 pm0 free0 V2); [by rewrite P2|done|by right].
    + right. split_and!; try done; [by rewrite P2|exact (gw_sub _ _ _ _ _ _ _ _ _ _ _ G)|]. eapply growing_short; [done|lia|done|by left].
  - destruct (growing_step _ _ _ _ _ _ _ _ _ _ _ _ G) as (k1 & H1 & H0 & Hok & Hfill & Hres); [lia|lia|done|].
    rewrite (bind_Ok _ _ _ _ _ (on_vk_Ok _ _ _ _ H1)), H0. erewrite (bind_Ok (on_vk _)) by (by apply on_vk_Ok).
    rewrite (bind_Ok _ _ _ _ _ (V2P_lift a _ Hok)).
    destruct Hres as [(-> & Hmiss & k2 & H2 & V2 & Hao & T2)|(k2 & tabs2 & pm2 & free2 & H2 & G2 & T2)].
    + rewrite (bind_Ok _ _ _ _ _ (on_vk_Ok _ (Vst _ _) _ _ H2)). change (-1 <? 0) with true. cbn iota. erewrite vprint_seq by (vm_compute; reflexivity). cbn [vk vout].
      lazymatch goal with |- context [Vst k2 ?o] =>
        destruct (alloc_fail _ _ _ _ _ _ _ _ _ _ _ (Vst k2 o) G Ho ltac:(lia) ltac:(lia) Hnone V2 Hao Hok) as (s' & free3 & H3 & V3 & P3 & T3) end.
      rewrite H3. exists 0, s', tabs, free3. split; [done|]. split.
      * eapply touched_trans; [|done]. eapply touched_mono; [done|]. intros b Hb%list_elem_of_singleton. subst b. apply Hkeep. set_solver.
      * right. split_and!; try done; [exact (gw_sub _ _ _ _ _ _ _ _ _ _ _ G)|]. eapply growing_short; [done|lia|done|by right].
    + rewrite (bind_Ok _ _ _ _ _ (on_vk_Ok _ (Vst _ _) _ _ H2)). change (0 <? 0) with false. cbn iota.
      rewrite u32_small by (unfold UPAGES in *; mmu_lia). replace (v * PGSIZE + PGSIZE) with ((v + 1) * PGSIZE) by lia.
      destruct (IH (Vst k2 (vout s)) pgdir tabs0 pm0 free0 oldsz newsz (v + 1) tabs2 pm2 free2 G2) as (r & s' & tabs' & free' & H3 & T3 & Hres); try done; try lia.
      exists r, s', tabs', free'. split; [done|]. split; [|done]. eapply touched_trans; [|done]. eapply touched_mono; [done|]. done.
Qed.

(** ** copyuvm *)

#[local] Opaque kernel_map.

Context (kdata : Z).

Hypothesis kdata_page : kdata mod PGSIZE = 0.
Hypothesis kdata_range : KERNLINK < kdata < KERNBASE + PHYSTOP.

Definition user_dirs (n : Z) : list Z := seqZ 0 ((n - 1) / 1024 + 1).

(** The pages a copy of [n] pages takes: the kernel's 65, the pages, and their
    tables. *)
Definition copy_need (n : Z) : nat := 65 + Z.to_nat n + Z.to_nat ((n - 1) / 1024 + 1).

(** [d] is a copy of the first [v] user pages of [pm] as they are in [s0], made
    from the free pages [free0]. *)
Record copying (s0 : kst) (pm : gmap Z Z) (free0 : list Z) (n v d : Z) (s : kst) (tabsd pmd : gmap Z Z) (free : list Z) : Prop := {
  cp_vm : vm s d tabsd pmd free;
  cp_user : forall w, 0 <= w < v -> exists e a, pm !! w = Some e /\ pmd !! w = Some (mkpte (a - KERNBASE) (PTE_FLAGS e)) /\ page_ok kend a /\
    pages s !! a = pages s0 !! kva e;
  cp_rest : forall w, ~ (0 <= w < v) -> pmd !! w = kernel_pte kdata w;
  cp_perm : owned d tabsd pmd ++ free ≡ₚ free0;
  cp_dom : forall i, is_Some (tabsd !! i) -> i ∈ kernel_dirs ++ user_dirs n;
  cp_count : length (upages pmd) = Z.to_nat v;
  cp_touched : touched free0 s0 s
}.

Lemma kernel_pte_user w : w < UPAGES -> kernel_pte kdata w = None.
Proof.
  intros Hw. pose proof (kernel_map_user kdata kdata_page kdata_range) as Hu.
  assert (H : user (kernel_map kdata) !! w = None) by (by rewrite Hu, lookup_empty).
  unfold user in H. apply map_lookup_filter_None in H as [H|H].
  - by rewrite <- (kernel_map_lookup kdata kdata_page kdata_range).
  - rewrite <- (kernel_map_lookup kdata kdata_page kdata_range). destruct (kernel_map kdata !! w) as [e|] eqn:E; [|done].
    exfalso. by apply (H e).
Qed.

Lemma dirs_nodup n : n <= UPAGES -> NoDup (kernel_dirs ++ user_dirs n).
Proof.
  intros Hn. apply NoDup_app. split_and!; [apply kernel_dirs_nodup| |apply NoDup_seqZ]. intros i Hi%kernel_dirs_elem. unfold user_dirs, kernel_dir, UPAGES in *.
  rewrite elem_of_seqZ. Z.to_euclidean_division_equations. lia.
Qed.

Lemma dirs_length n : length (kernel_dirs ++ user_dirs n) = (64 + Z.to_nat ((n - 1) / 1024 + 1))%nat.
Proof. rewrite length_app, kernel_dirs_length. unfold user_dirs. by rewrite length_seqZ. Qed.

(** The pages that were there: directory, tables, user pages and free ones. *)
Lemma copying_length s0 pm free0 n v d s tabsd pmd free :
  copying s0 pm free0 n v d s tabsd pmd free -> length free0 = (S (length (tables tabsd) + Z.to_nat v + length free))%nat.
Proof.
  intros [_ _ _ Hp _ Hc _]. apply Permutation_length in Hp. rewrite <- Hp. unfold owned. rewrite length_app. simpl. by rewrite length_app, Hc.
Qed.

Lemma copying_short s0 pm free0 n v d s tabsd pmd free :
  copying s0 pm free0 n v d s tabsd pmd free -> 0 <= v < n -> n <= UPAGES ->
  (free = [] \/ length free = 1%nat /\ tabsd !! (v / 1024) = None) -> (length free0 < copy_need n)%nat.
Proof.
  intros C Hv Hn Hf. rewrite (copying_length _ _ _ _ _ _ _ _ _ _ C). pose proof (cp_dom _ _ _ _ _ _ _ _ _ _ C) as Hd. unfold copy_need.
  destruct Hf as [-> |[Hl Hmiss]].
  - pose proof (tabs_size tabsd _ (dirs_nodup n Hn) Hd) as Hs. rewrite dirs_length in Hs. simpl. lia.
  - pose proof (tabs_size_miss tabsd _ (v / 1024) (dirs_nodup n Hn) Hd) as Hs. rewrite dirs_length in Hs.
    assert (Hin : v / 1024 ∈ kernel_dirs ++ user_dirs n).
    { apply elem_of_app. right. unfold user_dirs. apply elem_of_seqZ. pose proof (Z.div_le_mono v (n - 1) 1024). Z.to_euclidean_division_equations. lia. }
    specialize (Hs Hin Hmiss). lia.
Qed.

Lemma copying_enough s0 pm free0 n d s tabsd pmd free :
  copying s0 pm free0 n n d s tabsd pmd free -> 0 <= n <= UPAGES -> (copy_need n <= length free0)%nat.
Proof.
  intros C Hn. rewrite (copying_length _ _ _ _ _ _ _ _ _ _ C). unfold copy_need.
  assert (Hge : (length (kernel_dirs ++ user_dirs n) <= length (tables tabsd))%nat); [|rewrite dirs_length in Hge; lia].
  pose proof (vm_as _ _ _ _ _ _ (cp_vm _ _ _ _ _ _ _ _ _ _ C)) as A. apply tabs_size_ge; [apply dirs_nodup; lia|]. intros i Hi.
  apply elem_of_app in Hi as [Hi%kernel_dirs_elem|Hi].
  - apply (kernel_tables kend kdata kdata_page kdata_range (pages s) d tabsd pmd i A); [|done]. intros w Hw. apply (cp_rest _ _ _ _ _ _ _ _ _ _ C). lia.
  - unfold user_dirs in Hi. apply elem_of_seqZ in Hi. destruct (tabsd !! i) eqn:E; [eauto|]. exfalso.
    assert (Hd : i * 1024 / 1024 = i) by (by apply Z.div_mul).
    pose proof (no_table_no_page kend (pages s) d tabsd pmd (i * 1024) (i * 1024) A) as Hno. rewrite Hd in Hno. specialize (Hno E eq_refl).
    destruct (cp_user _ _ _ _ _ _ _ _ _ _ C (i * 1024)) as (e & a & _ & He & _); [Z.to_euclidean_division_equations; lia|congruence].
Qed.

Lemma parent_frame s0 s pgdir tabs pm free0 :
  aspace kend (pages s0) pgdir tabs pm -> (forall a, a ∈ owned pgdir tabs pm -> a ∉ free0) -> touched free0 s0 s ->
  aspace kend (pages s) pgdir tabs pm.
Proof. intros A Hd [_ Hf]. apply (aspace_frame kend (pages s0)); [done|]. intros a Ha. by apply Hf, Hd. Qed.

Lemma table_of pg pgdir tabs pm v e : aspace kend pg pgdir tabs pm -> pm !! v = Some e -> exists t, tabs !! (v / 1024) = Some t /\ page_ok kend t.
Proof.
  intros A He. destruct (tabs !! (v / 1024)) as [t|] eqn:E.
  - exists t. split; [done|]. by apply (as_tab _ _ _ _ _ A (v / 1024)).
  - by rewrite (no_table_no_page kend pg pgdir tabs pm v v A E eq_refl) in He.
Qed.

(** Reading the entry of a mapped page. *)
Lemma walk_load s pgdir tabs pm v e :
  aspace kend (pages s) pgdir tabs pm -> pm !! v = Some e ->
  exists ptr, walkpgdir pgdir (v * PGSIZE) false s = Ok (ptr, s) /\ (ptr =? 0) = false /\ load_word ptr s = Ok (e, s).
Proof.
  intros As He. destruct (table_of _ _ _ _ _ _ As He) as (t & Ht & Hok). destruct (as_pm _ _ _ _ _ As v e He) as (Hv & _).
  destruct (vpn_va v Hv) as (Hr & Hd & _). exists (pte_ptr t (v * PGSIZE)). split_and!.
  - apply (walk_hit kend s pgdir tabs pm); [done|done|by rewrite Hd].
  - by apply (pte_ptr_nonnull kend).
  - rewrite (load_pte kend s pgdir tabs pm v t As Hv Ht). by rewrite He.
Qed.

Lemma flags_range e : 0 <= PTE_FLAGS e < PGSIZE.
Proof. rewrite PTE_FLAGS_eq. apply Z.mod_pos_bound. done. Qed.

(** The copy with one page more, which [map_fresh] has added. *)
Lemma copying_next s0 pgdir tabs pm free0 n v d s s1 s3 tabsd pmd a free tabs3 free3 e ws :
  (forall b, b ∈ owned pgdir tabs pm -> b ∉ free0) -> copying s0 pm free0 n v d s tabsd pmd (a :: free) -> 0 <= v < n -> n <= UPAGES ->
  pm !! v = Some e -> page_ok kend a -> pages s !! kva e = Some ws -> pages s1 = pages s -> touched free0 s0 s1 ->
  vm s3 d tabs3 (<[v := mkpte (a - KERNBASE) (PTE_FLAGS e)]> pmd) free3 -> grown (eq (v / 1024)) tabsd free tabs3 free3 ->
  touched (a :: d :: tables tabsd ++ free) s1 s3 -> pages s3 !! a = Some ws ->
  owned d tabs3 (<[v := mkpte (a - KERNBASE) (PTE_FLAGS e)]> pmd) ++ free3 ≡ₚ a :: owned d tabsd pmd ++ free ->
  copying s0 pm free0 n (v + 1) d s3 tabs3 (<[v := mkpte (a - KERNBASE) (PTE_FLAGS e)]> pmd) free3.
Proof.
  intros Hdis C Hv Hn He Hok Hws Hpg T1' V3 G3 T3 Hz Hperm. destruct C as [V Hu Hr Hp Hd Hc Ht].
  assert (Hin : forall b, b ∈ owned d tabsd pmd ++ a :: free -> b ∈ free0) by (intros b; by rewrite Hp).
  assert (Hnone : pmd !! v = None) by (rewrite Hr by lia; apply kernel_pte_user; lia).
  assert (Hsame : forall b, b ∈ upages pmd -> pages s3 !! b = pages s !! b).
  { intros b Hb. destruct T3 as [_ Hf]. rewrite Hf, Hpg; [done|]. pose proof (upage_apart _ _ _ _ _ _ V Hb) as Hap.
      rewrite elem_of_cons, elem_of_app, elem_of_cons in Hap. rewrite !elem_of_cons, elem_of_app. tauto. }
  constructor; try done.
  - intros w Hw. destruct (decide (w = v)) as [-> |Hne].
    + exists e, a. rewrite lookup_insert_eq. split_and!; try done. rewrite Hz. destruct Ht as [_ Hf]. rewrite <- Hws. apply Hf, Hdis, elem_owned.
        right. right. apply elem_upages. exists v, e. split_and!; [done|lia|done].
    + rewrite lookup_insert_ne by done. destruct (Hu w) as (e' & b & H5 & H6 & H7 & H8); [lia|]. exists e', b. split_and!; try done.
        rewrite Hsame; [done|]. apply elem_upages. eexists w, _. split; [done|]. split; [lia|]. destruct (kva_sub b H7) as (? & ? & ?).
        by rewrite kva_mkpte by (done || apply flags_range).
  - intros w Hw. rewrite lookup_insert_ne by lia. apply Hr. lia.
  - rewrite Hperm, <- Hp. apply Permutation_middle.
  - intros i Hi. destruct (gr_dom _ _ _ _ _ G3 i Hi) as [?|<-]; [by apply Hd|]. apply elem_of_app. right. apply elem_of_seqZ.
      pose proof (Z.div_le_mono v (n - 1) 1024). Z.to_euclidean_division_equations. lia.
  - rewrite upages_length_insert by (done || lia). rewrite Hc. lia.
  - eapply touched_trans; [done|]. eapply touched_mono; [done|]. intros b Hb. apply Hin. rewrite !elem_of_cons, !elem_of_app in Hb.
      rewrite elem_of_app, elem_owned, elem_of_cons. tauto.
Qed.

(** One page of the copy. *)
Lemma copy_step s0 pgdir tabs pm free0 n v d s tabsd pmd a free e :
  aspace kend (pages s0) pgdir tabs pm -> (forall b, b ∈ owned pgdir tabs pm -> b ∉ free0) ->
  copying s0 pm free0 n v d s tabsd pmd (a :: free) -> 0 <= v < n -> n <= UPAGES -> pm !! v = Some e ->
  exists s1 s2, kalloc s = Ok (a, s1) /\ (a =? 0) = false /\ page_ok kend a /\ P2V (PTE_ADDR e) = Ok (kva e) /\ copy_page a (kva e) s1 = Ok (tt, s2) /\
    ((free = [] /\ tabsd !! (v / 1024) = None /\
      exists s3 s', mappages d (v * PGSIZE) PGSIZE (a - KERNBASE) (PTE_FLAGS e) s2 = Ok (-1, s3) /\ kfree kend a s3 = Ok (tt, s') /\
       vm s' d tabsd pmd [a] /\ touched free0 s0 s') \/
     exists s' tabsd' pmd' free', mappages d (v * PGSIZE) PGSIZE (a - KERNBASE) (PTE_FLAGS e) s2 = Ok (0, s') /\
       copying s0 pm free0 n (v + 1) d s' tabsd' pmd' free').
Proof.
  intros A0 Hdis C Hv Hn He. pose proof (cp_vm _ _ _ _ _ _ _ _ _ _ C) as V. pose proof V as [Hk A Hsep]. pose proof (cp_rest _ _ _ _ _ _ _ _ _ _ C) as Hr.
  pose proof (cp_perm _ _ _ _ _ _ _ _ _ _ C) as Hp. pose proof (cp_touched _ _ _ _ _ _ _ _ _ _ C) as Ht.
  pose proof (parent_frame _ _ _ _ _ _ A0 Hdis Ht) as Ap. destruct (as_pm _ _ _ _ _ Ap v e He) as (_ & _ & _ & Hup).
  destruct (Hup ltac:(lia)) as [Hek (ws & Hws & Hl)]. destruct (P2V_kva kend kend_above e Hek) as [Hpv _].
  assert (Hin : forall b, b ∈ owned d tabsd pmd ++ a :: free -> b ∈ free0) by (intros b; by rewrite Hp).
  destruct (kalloc_take kend s a free Hk) as (s1 & H1 & K1 & Hnf & Hok & H0 & (wa & Hwa & _) & T1 & Hpg).
  exists s1, (put_pages (<[a := ws]> (pages s1)) s1). split_and!; try done; [unfold copy_page; by rewrite Hwa, Hpg, Hws|].
  assert (Hno : a ∉ owned d tabsd pmd) by (intros Hx; apply (Hsep a Hx); left).
  assert (V1 : vm s1 d tabsd pmd free).
  { constructor; [done|by rewrite Hpg|]. intros b Hb Hx. apply (Hsep b Hb). by right. }
  assert (T1' : touched free0 s0 s1) by (eapply touched_trans; [done|eapply touched_mono; [done|set_solver]]).
  assert (Hnone : pmd !! v = None) by (rewrite Hr by lia; apply kernel_pte_user; lia).
  destruct (map_fresh s1 d tabsd pmd a free v (PTE_FLAGS e) ws V1) as
    [(-> & Hmiss & s3 & H3 & V3 & T3)|(s3 & tabs3 & free3 & H3 & V3 & G3 & T3 & Hz & Hperm)]; try done; [lia|apply flags_range|left|right].
  - split; [done|]. split; [done|]. destruct (kfree_frame kend s3 a [] (vm_mem _ _ _ _ _ _ V3) Hok ltac:(set_solver)) as (s4 & H4 & K4 & Hs4 & Hf4).
    exists s3, s4. split_and!; try done.
    + constructor; [done| |]. { apply (aspace_frame kend (pages s3)); [apply V3|]. intros b Hb. apply Hf4. by intros ->. }
      intros b Hb Hx%list_elem_of_singleton. by subst b.
    + assert (Ha0 : a ∈ free0) by (apply Hin, elem_of_app; right; left).
      eapply (touched_trans _ s0 s3); [eapply touched_trans; [done|eapply touched_mono; [done|]]|].
      * intros b Hb%list_elem_of_singleton. by subst b.
      * split; [done|]. intros b Hb. apply Hf4. by intros ->.
  - exists s3, tabs3, (<[v := mkpte (a - KERNBASE) (PTE_FLAGS e)]> pmd), free3. split; [done|].
    by eapply copying_next.
Qed.

Lemma copy_loop fuel : forall s0 pgdir tabs pm free0 sz v d s tabsd pmd free,
  let n := (sz + PGSIZE - 1) / PGSIZE in
  aspace kend (pages s0) pgdir tabs pm -> (forall b, b ∈ owned pgdir tabs pm -> b ∉ free0) ->
  copying s0 pm free0 n v d s tabsd pmd free -> 0 <= v <= n -> 0 <= sz <= KERNBASE -> (forall w, 0 <= w < n -> is_Some (pm !! w)) ->
  n - v < Z.of_nat fuel ->
  exists ok s' tabsd' pmd' free', copyuvm_loop kend fuel pgdir d (v * PGSIZE) sz s = Ok (ok, s') /\
    ((ok = true /\ copying s0 pm free0 n n d s' tabsd' pmd' free') \/
     (ok = false /\ vm s' d tabsd' pmd' free' /\ owned d tabsd' pmd' ++ free' ≡ₚ free0 /\ touched free0 s0 s' /\ (length free0 < copy_need n)%nat)).
Proof.
  induction fuel as [|fuel IH]; intros s0 pgdir tabs pm free0 sz v d s tabsd pmd free n A0 Hdis C Hv Hsz Hpres Hfuel; [lia|].
  destruct (pages_of_sz sz Hsz) as [_ Hn]. fold n in Hn. cbn [copyuvm_loop]. rewrite page_below by lia. fold n. destruct (Z.leb_spec n v) as [Hle|Hlt].
  { exists true, s, tabsd, pmd, free. split; [done|]. left. split; [done|]. by replace v with n in C by lia. }
  destruct (Hpres v) as [e He]; [lia|]. pose proof (cp_touched _ _ _ _ _ _ _ _ _ _ C) as Ht. pose proof (cp_vm _ _ _ _ _ _ _ _ _ _ C) as V.
  pose proof (parent_frame _ _ _ _ _ _ A0 Hdis Ht) as Ap. destruct (as_pm _ _ _ _ _ Ap v e He) as (_ & _ & Hpr & _).
  destruct (walk_load s pgdir tabs pm v e Ap He) as (ptr & Hw & Hp0 & Hload). rewrite (bind_Ok _ _ _ _ _ Hw), Hp0, (bind_Ok _ _ _ _ _ Hload).
  apply Z.eqb_neq in Hpr as ->. destruct free as [|a free].
  - destruct (kalloc_empty kend s (vm_mem _ _ _ _ _ _ V)) as (s1 & H1 & K1 & T1 & Hpg). exists false, s1, tabsd, pmd, []. rewrite (bind_Ok _ _ _ _ _ H1).
    split; [done|]. right. split; [done|]. split; [constructor; [done|rewrite Hpg; apply V|apply V]|]. split; [by apply C|]. split.
    + eapply touched_trans; [done|]. eapply touched_mono; [done|set_solver].
    + eapply copying_short; [exact C|lia|lia|by left].
  - destruct (copy_step s0 pgdir tabs pm free0 n v d s tabsd pmd a free e A0 Hdis C) as (s1 & s2 & H1 & H0 & Hok & Hpv & H2 & Hres); [lia|lia|done|].
    rewrite (bind_Ok _ _ _ _ _ H1), H0, (bind_Ok _ _ _ _ _ (lift_Ok _ _ _ Hpv)), (bind_Ok _ _ _ _ _ H2), (bind_Ok _ _ _ _ _ (V2P_lift a _ Hok)).
    destruct Hres as [(-> & Hmiss & s3 & s4 & H3 & H4 & V4 & T4)|(s3 & tabs3 & pm3 & free3 & H3 & C3)]; rewrite (bind_Ok _ _ _ _ _ H3).
    + change (-1 <? 0) with true. cbn iota. exists false, s4, tabsd, pmd, [a]. rewrite (bind_Ok _ _ _ _ _ H4). split; [done|]. right.
      split_and!; try done; [by apply C|]. eapply copying_short; [exact C|lia|lia|by right].
    + change (0 <? 0) with false. cbn iota. rewrite u32_small by (unfold UPAGES in *; mmu_lia).
      replace (v * PGSIZE + PGSIZE) with ((v + 1) * PGSIZE) by lia. by apply (IH s0 pgdir tabs pm free0 sz (v + 1) d s3 tabs3 pm3 free3); try lia.
Qed.

(** The outcome of [copyuvm]. *)
Lemma copyuvm_ok s pgdir tabs pm free sz :
  let n := (sz + PGSIZE - 1) / PGSIZE in
  vm s pgdir tabs pm free -> 0 <= sz <= KERNBASE -> (forall w, 0 <= w < n -> is_Some (pm !! w)) ->
  exists r s', copyuvm kend kdata pgdir sz s = Ok (r, s') /\ touched free s s' /\
    ((copy_need n <= length free)%nat /\ r <> 0 /\ (exists tabsd pmd free', copying s pm free n n r s' tabsd pmd free') \/
     (length free < copy_need n)%nat /\ r = 0 /\ exists free', kmem_rep kend s' free' /\ free' ≡ₚ free).
Proof.
  intros n [Hk A Hsep] Hsz Hpres. destruct (pages_of_sz sz Hsz) as [_ Hn]. fold n in Hn. unfold copyuvm.
  destruct (setupkvm_ok kend kend_above kdata kdata_page kdata_range s free Hk) as (d & s1 & H1 & T1 & Hres). rewrite (bind_Ok _ _ _ _ _ H1).
  destruct Hres as [(Hlen & Hd & tabsd & free1 & V1 & P1 & Hdom)|(Hlen & -> & free1 & K1 & P1)].
  2:{ exists 0, s1. split; [done|]. split; [done|]. right. split; [unfold copy_need; lia|]. split; [done|]. by exists free1. }
  pose proof Hd as Hd0. apply Z.eqb_neq in Hd0 as ->.
  assert (C1 : copying s pm free n 0 d s1 tabsd (kernel_map kdata) free1).
  { constructor; [exact V1|intros w Hw; lia|intros w _; by apply kernel_map_lookup|exact P1| | |exact T1].
    - intros i Hi. apply elem_of_app. left. by apply kernel_dirs_elem, Hdom.
    - unfold upages. by rewrite kernel_map_user, map_to_list_empty. }
  destruct (copy_loop (S (Z.to_nat n)) s pgdir tabs pm free sz 0 d s1 tabsd (kernel_map kdata) free1 A Hsep C1) as (ok & s2 & tabs2 & pm2 & free2 & H2 & Hres);
    [lia|done|done|lia|]. fold n. change (0 * PGSIZE) with 0 in H2. rewrite (bind_Ok _ _ _ _ _ H2). destruct Hres as [[-> C2]|(-> & V2 & P2 & T2 & Hlt)].
  - exists d, s2. split; [done|]. split; [exact (cp_touched _ _ _ _ _ _ _ _ _ _ C2)|]. left. split; [by eapply copying_enough|eauto 10].
  - destruct (freevm_ok kend kend_above s2 d tabs2 pm2 free2 V2) as (s3 & free3 & H3 & K3 & P3 & T3). exists 0, s3. rewrite (bind_Ok _ _ _ _ _ H3).
    split; [done|]. split; [eapply touched_trans; [done|]; eapply touched_mono; [done|]; intros b; by rewrite P2|]. right. split_and!; try done.
    exists free3. split; [done|]. by rewrite P3.
Qed.

End user.
