(* ===== verification/VmCopy.v ===== *)
(** * User memory as bytes

    What [copyout] does to the bytes of user memory, and what the hardware
    sees of an address space. *)

From S2P Require Import Prelude Spinlock Mmu Kalloc Console Block Fs FsRw Vm VmPt VmMap VmKern VmUser.

(** ** Bytes of a page *)

Lemma page_bytes_length ws : length (page_bytes ws) = (4 * length ws)%nat.
Proof.
  induction ws as [|w ws IH]; [done|]. cbn [page_bytes]. rewrite length_app, le_enc_length, IH. simpl. lia.
Qed.

Lemma page_bytes_bytes ws : bytes (page_bytes ws).
Proof. induction ws as [|w ws IH]; [constructor|]. cbn [page_bytes]. apply Forall_app. split; [apply le_enc_bytes|done]. Qed.

Lemma words_of_length n bs : length (words_of n bs) = n.
Proof. revert bs. induction n as [|n IH]; intros bs; simpl; [done|]. by rewrite IH. Qed.

Lemma page_bytes_words n bs : bytes bs -> length bs = (4 * n)%nat -> page_bytes (words_of n bs) = bs.
Proof.
  revert bs. induction n as [|n IH]; intros bs Hb Hl; [by destruct bs|]. cbn [words_of page_bytes].
  rewrite IH by (try apply Forall_drop; rewrite ?length_drop; done || lia).
  replace 4%nat with (length (take 4 bs)) at 1 by (rewrite length_take; lia). rewrite le_enc_dec by (by apply Forall_take). apply take_drop.
Qed.

Lemma zero_bytes k : (k < 4 * PAGE_WORDS)%nat -> page_bytes (page_fill 0) !! k = Some 0.
Proof.
  intros Hk. unfold page_fill. change (memset_word 0) with 0. assert (H : forall n, page_bytes (replicate n 0) = replicate (4 * n) 0).
  { induction n as [|n IH]; [done|]. replace (4 * S n)%nat with (4 + 4 * n)%nat by lia. rewrite replicate_add. cbn [replicate page_bytes]. by rewrite IH. }
  rewrite H. revert Hk. generalize (4 * PAGE_WORDS)%nat. intros n Hk. by apply lookup_replicate_2.
Qed.

Lemma splice_lookup (o : nat) (l d : list Z) k :
  (o + length l <= length d)%nat -> splice o l d !! k = if decide (o <= k < o + length l)%nat then l !! (k - o)%nat else d !! k.
Proof.
  intros H. unfold splice. destruct (decide _) as [Hk|Hk].
  - rewrite lookup_app_r by (rewrite length_take; lia). rewrite length_take. replace (o `min` length d)%nat with o by lia. rewrite lookup_app_l by lia. done.
  - destruct (decide (k < o)%nat) as [Hlt|Hge].
    + rewrite lookup_app_l by (rewrite length_take; lia). by rewrite lookup_take_lt.
    + rewrite lookup_app_r by (rewrite length_take; lia). rewrite length_take. replace (o `min` length d)%nat with o by lia.
      rewrite lookup_app_r by lia. rewrite lookup_drop. f_equal. lia.
Qed.

(** ** The bytes of user memory *)

Definition ubyte (pg : gmap Z (list Z)) (pm : gmap Z Z) (x : Z) : option Z :=
  match pm !! (x / PGSIZE) with
  | Some e => match pg !! kva e with Some ws => page_bytes ws !! Z.to_nat (x mod PGSIZE) | None => None end
  | None => None
  end.

(** The page table walk of the processor, from the physical address of the
    directory: the entry of the page, if it is present. *)
Definition mmu_walk (pg : gmap Z (list Z)) (dir va : Z) : option Z :=
  d ← pg !! (dir + KERNBASE);
  pde ← d !! Z.to_nat (va / 2 ^ 22);
  if Z.odd pde : bool then
    t ← pg !! (pde / 2 ^ 12 * 2 ^ 12 + KERNBASE);
    e ← t !! Z.to_nat (va / 2 ^ 12 mod 2 ^ 10);
    if Z.odd e : bool then Some e else None
  else None.

Section copy.

Context (kend : Z).

Hypothesis kend_above : KERNBASE < kend.

(** It finds exactly the mappings of the address space. *)
Lemma mmu_walk_ok pg pgdir tabs pm va :
  aspace kend pg pgdir tabs pm -> u32_range va -> mmu_walk pg (pgdir - KERNBASE) va = pm !! (va / PGSIZE).
Proof.
  intros A Hva. set (v := va / PGSIZE). assert (Hv : 0 <= v < NPAGES) by (unfold v, NPAGES; mmu_mod).
  destruct (as_dir _ _ _ _ _ A) as (d & Hd & _ & Hent). unfold mmu_walk. replace (pgdir - KERNBASE + KERNBASE) with pgdir by lia. rewrite Hd. simpl.
  replace (va / 2 ^ 22) with (v / 1024) by (unfold v; rewrite Z.div_div by done; reflexivity). rewrite Hent by (unfold NPAGES in Hv; mmu_mod). simpl.
  destruct (tabs !! (v / 1024)) as [t|] eqn:Et.
  - destruct (as_tab _ _ _ _ _ A _ _ Et) as (_ & Hok & ws & Hws & Hl). destruct (pde_fields kend t Hok) as [Hp Hpa].
    rewrite (proj1 (present_odd _) Hp).
    change (pde_of (Some t) / 2 ^ 12 * 2 ^ 12) with (pde_of (Some t) / PGSIZE * PGSIZE). rewrite <- PTE_ADDR_eq, Hpa, Z.sub_add, Hws. simpl.
    change (va / 2 ^ 12 mod 2 ^ 10) with (v mod 1024). pose proof (as_pte _ _ _ _ _ A v Hv) as Hpte. unfold pte_at in Hpte. rewrite Et, Hws in Hpte.
    rewrite nth_lookup in Hpte. destruct (ws !! Z.to_nat (v mod 1024)) as [e|] eqn:Ee.
    + simpl in Hpte |- *. subst e. destruct (pm !! v) as [e|] eqn:Epm; [|done]. simpl.
      destruct (as_pm _ _ _ _ _ A v e Epm) as (_ & _ & Hpr & _). by rewrite (proj1 (present_odd _) Hpr).
    + apply lookup_ge_None in Ee. rewrite Hl in Ee. unfold PAGE_WORDS in Ee. exfalso. clear -Ee. mmu_mod.
  - simpl. symmetry. by apply (no_table_no_page kend pg pgdir tabs pm v v).
Qed.

(** A present entry keeps its flags when it is made again. *)
Lemma flags_present e : present e -> Z.lor (PTE_FLAGS e) PTE_P = PTE_FLAGS e.
Proof.
  intros Hp%present_odd. apply Z.bits_inj'. intros n Hn. rewrite Z.lor_spec. destruct (decide (n = 0)) as [-> |Hne].
  - unfold PTE_FLAGS. rewrite Z.land_spec, (Z.bit0_odd e), Hp. done.
  - unfold PTE_P. replace (Z.testbit 1 n) with false by (symmetry; apply Z.bits_above_log2; simpl; lia). apply orb_false_r.
Qed.

(** ** copyout *)

Definition user_bit (e : Z) : Prop := Z.land e PTE_U <> 0.

Lemma uva2ka_ok s pgdir tabs pm v e :
  aspace kend (pages s) pgdir tabs pm -> pm !! v = Some e -> v < UPAGES -> user_bit e -> uva2ka pgdir (v * PGSIZE) s = Ok (kva e, s).
Proof.
  intros A He Hlt Hu. destruct (as_pm _ _ _ _ _ A v e He) as (_ & _ & Hp & Hk). destruct (Hk Hlt) as [Hok _]. unfold uva2ka.
  destruct (walk_load kend s pgdir tabs pm v e A He) as (ptr & Hw & _ & Hl). rewrite (bind_Ok _ _ _ _ _ Hw), (bind_Ok _ _ _ _ _ Hl).
  apply Z.eqb_neq in Hp as ->. apply Z.eqb_neq in Hu as ->. apply lift_Ok. by apply (P2V_kva kend kend_above).
Qed.

Lemma upages_inj pg pgdir tabs pm v w e e' :
  aspace kend pg pgdir tabs pm -> pm !! v = Some e -> pm !! w = Some e' -> v < UPAGES -> w < UPAGES -> kva e = kva e' -> v = w.
Proof.
  intros A Hv Hw Hvu Hwu Hk. pose proof (as_nodup _ _ _ _ _ A) as Hn. apply NoDup_cons in Hn as [_ Hn]. apply NoDup_app in Hn as (_ & _ & Hn).
  unfold upages in Hn. rewrite <- list_fmap_compose in Hn.
  assert (Hiv : (v, e) ∈ map_to_list (user pm)) by (by apply elem_of_map_to_list, user_lookup).
  assert (Hiw : (w, e') ∈ map_to_list (user pm)) by (by apply elem_of_map_to_list, user_lookup).
  apply list_elem_of_lookup in Hiv as [i Hi]. apply list_elem_of_lookup in Hiw as [j Hj].
  assert (i = j); [|congruence]. eapply NoDup_lookup; [exact Hn| |]; rewrite list_lookup_fmap; [rewrite Hi; reflexivity|rewrite Hj; simpl; by rewrite <- Hk].
Qed.

(** Bytes stored into a mapped user page. *)
Lemma store_user s pgdir tabs pm free v e o src :
  vm kend s pgdir tabs pm free -> pm !! v = Some e -> v < UPAGES -> bytes src -> 0 <= o < PGSIZE -> o + Z.of_nat (length src) <= PGSIZE ->
  exists s', store_bytes (kva e + o) src s = Ok (tt, s') /\ vm kend s' pgdir tabs pm free /\ touched [kva e] s s' /\
    forall x, 0 <= x < KERNBASE -> ubyte (pages s') pm x =
      if decide (x / PGSIZE = v /\ o <= x mod PGSIZE < o + Z.of_nat (length src)) then src !! Z.to_nat (x mod PGSIZE - o) else ubyte (pages s) pm x.
Proof.
  intros V He Hlt Hb Ho Hsz. pose proof V as [Hk A Hsep]. destruct (as_pm _ _ _ _ _ A v e He) as (_ & _ & _ & Hu). destruct (Hu Hlt) as [Hok (ws & Hws & Hl)].
  destruct (page_ok_u32 _ _ Hok) as (Hm & Hr & _). assert (Hin : kva e ∈ upages pm) by (apply elem_upages; eauto).
  unfold store_bytes. replace (PGROUNDDOWN (kva e + o)) with (kva e) by (rewrite PGROUNDDOWN_eq by mmu_mod; mmu_mod).
  replace ((kva e + o) mod PGSIZE) with o by mmu_mod. rewrite Hws, decide_True by done. eexists. split; [done|].
  set (ws' := words_of PAGE_WORDS _). assert (Hb' : page_bytes ws' = splice (Z.to_nat o) src (page_bytes ws)).
  { assert (Hpl : length (page_bytes ws) = 4096%nat) by (rewrite page_bytes_length, Hl; reflexivity).
    apply page_bytes_words; [|rewrite splice_length; [rewrite Hpl; reflexivity|rewrite Hpl; mmu_lia]].
    apply Forall_app. split; [apply Forall_take, page_bytes_bytes|]. apply Forall_app. split; [done|apply Forall_drop, page_bytes_bytes]. }
  split; [|split; [apply touched_put; left|]].
  - constructor; [by apply kmem_rep_put, Hsep, elem_owned; auto| |done]. apply (aspace_user kend (pages s)); [done| |].
    + intros a Ha. simpl. rewrite lookup_insert_ne; [done|]. intros <-. apply (upage_apart _ _ _ _ _ _ _ V Hin). rewrite elem_of_cons, elem_of_app. tauto.
    + intros a Ha. destruct (decide (a = kva e)) as [-> |Hne].
      * exists ws'. split; [apply lookup_insert_eq|apply words_of_length].
      * destruct (upage_has _ _ _ _ _ _ A Ha) as (_ & us & ? & ?). exists us. simpl. by rewrite lookup_insert_ne.
  - intros x Hx. unfold ubyte. destruct (decide (x / PGSIZE = v)) as [-> |Hne].
    + rewrite He. simpl. rewrite lookup_insert_eq, Hws, Hb'. rewrite splice_lookup by (rewrite page_bytes_length, Hl; unfold PAGE_WORDS; mmu_lia).
      destruct (decide (v = v /\ _)) as [[_ Hd]|Hd]; [rewrite decide_True by mmu_mod; f_equal; mmu_mod|rewrite decide_False; [done|]].
      intros Hn. apply Hd. split; [done|]. mmu_mod.
    + rewrite (decide_False (P := x / PGSIZE = v /\ _)) by tauto. destruct (pm !! (x / PGSIZE)) as [e'|] eqn:E'; [|done].
      simpl. rewrite lookup_insert_ne; [done|]. intros Hkv. apply Hne. eapply upages_inj; [exact A|exact E'|exact He| |done|done]. unfold UPAGES. mmu_mod.
Qed.

(** The addresses are mapped for the user. *)
Definition user_range (pm : gmap Z Z) (va len : Z) : Prop :=
  forall x, va <= x < va + len -> exists e, pm !! (x / PGSIZE) = Some e /\ user_bit e.

Lemma copyout_loop_ok fuel : forall s pgdir tabs pm free va buf,
  let len := Z.of_nat (length buf) in
  vm kend s pgdir tabs pm free -> bytes buf -> 0 <= va -> va + len <= KERNBASE -> user_range pm va len ->
  (va mod PGSIZE + len + PGSIZE - 1) / PGSIZE < Z.of_nat fuel ->
  exists s', copyout_loop fuel pgdir va buf s = Ok (0, s') /\ vm kend s' pgdir tabs pm free /\ touched (upages pm) s s' /\
    forall x, 0 <= x < KERNBASE -> ubyte (pages s') pm x = if decide (va <= x < va + len) then buf !! Z.to_nat (x - va) else ubyte (pages s) pm x.
Proof.
  induction fuel as [|fuel IH]; intros s pgdir tabs pm free va buf len V Hb Hva Htop Hu Hfuel.
  { exfalso. subst len. mmu_mod. }
  cbn [copyout_loop]. fold len. destruct (Z.eqb_spec len 0) as [H0|H0].
  { exists s. split_and!; try done. intros x Hx. by rewrite decide_False by lia. }
  assert (Hlen : 0 < len) by lia. set (v := va / PGSIZE). assert (Hvu : v < UPAGES) by (unfold v, UPAGES; mmu_mod).
  destruct (Hu va) as (e & He & Hue); [lia|]. fold v in He. pose proof (vm_as _ _ _ _ _ _ V) as A.
  destruct (as_pm _ _ _ _ _ A v e He) as (_ & _ & _ & Hk). destruct (Hk Hvu) as [Hok _].
  rewrite PGROUNDDOWN_eq by mmu_mod. fold v. rewrite (bind_Ok _ _ _ _ _ (uva2ka_ok s pgdir tabs pm v e A He Hvu Hue)).
  replace (kva e =? 0) with false by (symmetry; apply Z.eqb_neq; apply page_ok_pos in Hok; lia).
  replace (va - v * PGSIZE) with (va mod PGSIZE) by (unfold v; mmu_mod). set (o := va mod PGSIZE). set (n := Z.min (PGSIZE - o) len).
  assert (Ho : 0 <= o < PGSIZE) by (unfold o; mmu_mod). assert (Hn : 0 < n <= PGSIZE - o) by lia.
  assert (Htk : Z.of_nat (length (take (Z.to_nat n) buf)) = n) by (rewrite length_take; lia).
  destruct (store_user s pgdir tabs pm free v e o (take (Z.to_nat n) buf) V He Hvu) as (s1 & H1 & V1 & T1 & U1); [by apply Forall_take|done|lia|].
  rewrite (bind_Ok _ _ _ _ _ H1). rewrite Htk in U1. rewrite u32_small by (unfold UPAGES in *; mmu_mod).
  assert (Hdl : Z.of_nat (length (drop (Z.to_nat n) buf)) = len - n) by (rewrite length_drop; lia).
  assert (Hnext : v * PGSIZE + PGSIZE = va + (PGSIZE - o)) by (unfold v, o; mmu_mod).
  assert (Hcase : n = len \/ n = PGSIZE - o) by lia. rewrite Hnext.
  destruct (IH s1 pgdir tabs pm free (va + (PGSIZE - o)) (drop (Z.to_nat n) buf) V1) as (s2 & H2 & V2 & T2 & U2).
  - by apply Forall_drop.
  - lia.
  - rewrite Hdl. clear -Hcase Htop Hvu Hnext. unfold UPAGES in Hvu. mmu_lia.
  - rewrite Hdl. intros x Hx. apply Hu. lia.
  - rewrite Hdl. replace ((va + (PGSIZE - o)) mod PGSIZE) with 0 by (subst o; mmu_mod). clear -Hfuel Hlen Hcase Ho. subst o. mmu_mod.
  - rewrite Hdl in U2. exists s2. split; [done|]. split; [done|]. split.
    + eapply touched_trans; [|done]. eapply touched_mono; [done|]. intros a Ha%list_elem_of_singleton. subst a. apply elem_upages. eauto.
    + intros x Hx. rewrite U2, U1 by done. rewrite lookup_drop. destruct (decide (va + (PGSIZE - o) <= x < va + (PGSIZE - o) + (len - n))) as [Hr|Hr].
      * rewrite decide_True by lia. f_equal. lia.
      * destruct (decide (va <= x < va + len)) as [Hr'|Hr'].
        -- rewrite decide_True by (subst v o; mmu_mod). rewrite lookup_take_lt by (subst v o; mmu_mod). f_equal. subst v o. mmu_mod.
        -- rewrite decide_False; [done|]. subst v o. mmu_mod.
Qed.

(** A page that is not mapped for the user stops the copy; where there is not
    even a page table, [uva2ka] follows a null pointer. *)
Lemma copyout_refused s pgdir tabs pm free va buf :
  vm kend s pgdir tabs pm free -> 0 <= va < KERNBASE -> buf <> [] -> pages s !! 0 = None ->
  (forall e, pm !! (va / PGSIZE) = Some e -> ~ user_bit e) ->
  copyout pgdir va buf s = if decide (is_Some (tabs !! (va / PGSIZE / 1024))) then Ok (-1, s) else Fault.
Proof.
  intros [Hk A Hsep] Hva Hbuf Hnull Hno. unfold copyout. cbn [copyout_loop].
  replace (Z.of_nat (length buf) =? 0) with false by (symmetry; apply Z.eqb_neq; destruct buf; [done|simpl; lia]).
  rewrite PGROUNDDOWN_eq by mmu_mod. set (v := va / PGSIZE) in *. assert (Hv : 0 <= v < NPAGES) by (unfold v, NPAGES; mmu_mod).
  destruct (vpn_va v Hv) as (Hr & Hd & _). unfold bind at 1. unfold uva2ka. destruct (tabs !! (v / 1024)) as [t|] eqn:Et.
  - rewrite decide_True by eauto. rewrite (bind_Ok _ _ _ _ _ (walk_hit kend s pgdir tabs pm _ t false A Hr ltac:(by rewrite Hd))).
    rewrite (bind_Ok _ _ _ _ _ (load_pte kend s pgdir tabs pm v t A Hv Et)). destruct (pm !! v) as [e|] eqn:Ee; [|done].
    change (default 0 (Some e)) with e. destruct (as_pm _ _ _ _ _ A v e Ee) as (_ & _ & Hp & _). apply Z.eqb_neq in Hp as ->.
    assert (Hu : Z.land e PTE_U = 0) by (destruct (decide (Z.land e PTE_U = 0)); [done|by destruct (Hno e eq_refl)]). by rewrite Hu.
  - rewrite decide_False by (intros [? ?]; done). rewrite (bind_Ok _ _ _ _ _ (walk_miss kend s pgdir tabs pm _ A Hr ltac:(by rewrite Hd))).
    unfold bind, load_word. change (PGROUNDDOWN 0) with 0. by rewrite Hnull.
Qed.

End copy.
