(* ===== verification/VmProps.v ===== *)
(** * Properties of address spaces

    The theorems about [vm.c], in terms of what the processor finds when it
    walks the page tables ([mmu_walk]). *)

From S2P Require Import Prelude Spinlock Mmu Kalloc Console Block Fs Vm VmPt VmMap VmKern VmUser VmCopy.

#[local] Opaque kernel_map.

Section user.

Context (kend : Z).

Hypothesis kend_above : KERNBASE < kend.

(** C28: growing user memory from [oldsz] to
    [newsz].  Either [allocuvm] returns the new size, the new pages are
    writable user memory that reads as zero, and [deallocuvm] back to the old
    size gives the old address space; or it returns 0, which happens only when
    there are not enough free pages for the memory and its page tables, and
    the mappings are the old ones.  In each case pages are neither lost nor
    shared, and the old user memory keeps its content.  A size in the kernel's
    range is refused, a smaller size changes nothing. *)
Theorem allocuvm_grows_deallocuvm_shrinks s pgdir tabs pm free oldsz newsz :
  let v0 := (oldsz + PGSIZE - 1) / PGSIZE in let top := (newsz + PGSIZE - 1) / PGSIZE in
  vm kend (vk s) pgdir tabs pm free -> 0 <= oldsz -> 0 <= newsz -> (forall w, v0 <= w < top -> pm !! w = None) ->
  exists r s' tabs' pm' free', allocuvm kend pgdir oldsz newsz s = Ok (r, s') /\ vm kend (vk s') pgdir tabs' pm' free' /\
    owned pgdir tabs' pm' ++ free' ≡ₚ owned pgdir tabs pm ++ free /\ (forall a, a ∈ upages pm -> pages (vk s') !! a = pages (vk s) !! a) /\
    if decide (KERNBASE <= newsz) then r = 0 /\ s' = s
    else if decide (newsz < oldsz) then r = oldsz /\ s' = s
    else (r = newsz /\
        (forall w, ~ (v0 <= w < top) -> pm' !! w = pm !! w) /\
        (forall x, v0 * PGSIZE <= x < top * PGSIZE -> ubyte (pages (vk s')) pm' x = Some 0 /\
           exists a, pm' !! (x / PGSIZE) = Some (mkpte (a - KERNBASE) (Z.lor PTE_W PTE_U))) /\
        exists k'' free'', deallocuvm kend pgdir newsz oldsz (vk s') = Ok (oldsz, k'') /\ vm kend k'' pgdir tabs' pm free'' /\
          owned pgdir tabs' pm ++ free'' ≡ₚ owned pgdir tabs pm ++ free) \/
      (r = 0 /\ pm' = pm /\ (length free < grow_need v0 top)%nat).
Proof.
  intros v0 top V Ho Hn Hnone. unfold allocuvm. destruct (decide (KERNBASE <= newsz)) as [Hk|Hk].
  { apply Z.leb_le in Hk as ->. by exists 0, s, tabs, pm, free. }
  replace (KERNBASE <=? newsz) with false by (symmetry; apply Z.leb_gt; lia). destruct (decide (newsz < oldsz)) as [Hlt|Hge].
  { apply Z.ltb_lt in Hlt as ->. by exists oldsz, s, tabs, pm, free. }
  replace (newsz <? oldsz) with false by (symmetry; apply Z.ltb_ge; lia).
  destruct (pages_of_sz oldsz) as [Hr0 Hb0]; [lia|]. destruct (pages_of_sz newsz) as [_ Hb1]; [lia|]. fold v0 in Hr0, Hb0. fold top in Hb1.
  assert (Hle : v0 <= top) by (apply Z.div_le_mono; [done|lia]).
  assert (G0 : growing kend pgdir tabs pm free v0 top v0 (vk s) tabs pm free).
  { constructor; try done; [intros w Hw; lia|intros i Hi; by left|]. rewrite Z.sub_diag. simpl. lia. }
  rewrite Hr0. destruct (alloc_loop kend kend_above (S (Z.to_nat ((newsz - v0 * PGSIZE + PGSIZE - 1) / PGSIZE))) s pgdir tabs pm free oldsz newsz v0 tabs pm free G0)
    as (r & s' & tabs' & free' & H1 & [_ Hf] & Hres); [lia|lia|done|done| |].
  { replace (newsz - v0 * PGSIZE + PGSIZE - 1) with (newsz + PGSIZE - 1 + (- v0) * PGSIZE) by lia. rewrite Z.div_add by done. fold top. lia. }
  assert (Hold : forall a, a ∈ upages pm -> pages (vk s') !! a = pages (vk s) !! a) by (intros a Ha; apply Hf; by apply (upage_apart _ _ _ _ _ _ _ V)).
  destruct Hres as [(-> & pm' & G)|(-> & V' & P & _ & Hshort)].
  - exists newsz, s', tabs', pm', free'. pose proof G as [V' Hsame Hnew P _ _ _]. split_and!; try done. left. split_and!; try done.
    + intros x Hx. assert (Hw : v0 <= x / PGSIZE < top) by mmu_mod. destruct (Hnew _ Hw) as (a & Ha & Hok & Hz). split; [|eauto].
      destruct (kva_sub kend a Hok) as (? & ? & Hka). unfold ubyte. rewrite Ha, kva_mkpte, Hka, Hz by done. apply zero_bytes. clear -Hx. unfold PAGE_WORDS. mmu_mod.
    + destruct (growing_undo kend kend_above _ _ _ _ _ _ _ _ _ _ _ G ltac:(lia) ltac:(lia) ltac:(fold top; lia) Hnone (vk s') free' V') as (k & fr & H2 & V2 & P2 & _).
      exists k, fr. split_and!; try done. by rewrite P2.
  - exists 0, s', tabs', pm, free'. split_and!; try done. by right.
Qed.

(** [freevm] frees the page directory, the page
    tables and the user pages of an address space, each exactly once, and
    nothing else; the next address space can be built from them. *)
Theorem freevm_returns_every_page s pgdir tabs pm free :
  vm kend s pgdir tabs pm free ->
  exists s' free', freevm kend pgdir s = Ok (tt, s') /\ kmem_rep kend s' free' /\ free' ≡ₚ owned pgdir tabs pm ++ free /\ NoDup free' /\
    hw_sim (khw s) (khw s') /\ forall a, a ∉ owned pgdir tabs pm ++ free -> pages s' !! a = pages s !! a.
Proof.
  intros V. destruct (freevm_ok kend kend_above s pgdir tabs pm free V) as (s' & free' & H1 & K & P & [Hs Hf]). exists s', free'.
  split_and!; try done. exact (kr_nodup _ _ _ K).
Qed.

(** [copyout] to mapped user memory writes
    exactly the bytes given, across page boundaries, and no other byte of user
    memory.  Where the first page is not mapped for the user it returns -1 and
    writes nothing, provided its directory entry has a page table; where there
    is no page table, [uva2ka] follows the null pointer that [walkpgdir]
    returns. *)
Theorem copyout_writes_user_memory s pgdir tabs pm free va buf :
  let len := Z.of_nat (length buf) in
  vm kend s pgdir tabs pm free -> bytes buf -> buf <> [] -> 0 <= va -> va + len <= KERNBASE -> pages s !! 0 = None ->
  (user_range pm va len ->
     exists s', copyout pgdir va buf s = Ok (0, s') /\ vm kend s' pgdir tabs pm free /\
       (forall x, 0 <= x < KERNBASE -> ubyte (pages s') pm x = if decide (va <= x < va + len) then buf !! Z.to_nat (x - va) else ubyte (pages s) pm x) /\
       forall a, a ∉ upages pm -> pages s' !! a = pages s !! a) /\
  ((forall e, pm !! (va / PGSIZE) = Some e -> ~ user_bit e) ->
     copyout pgdir va buf s = if decide (is_Some (tabs !! (va / PGSIZE / 1024))) then Ok (-1, s) else Fault).
Proof.
  intros len V Hb Hne Hva Htop Hnull. split.
  - intros Hu. destruct (copyout_loop_ok kend kend_above (S (S (Z.to_nat (len / PGSIZE) + 1))) s pgdir tabs pm free va buf V Hb Hva Htop Hu) as (s' & H1 & V1 & [_ Hf] & U1).
    { fold len. assert (0 <= len) by lia. clear -H. mmu_mod. }
    exists s'. by split_and!.
  - intros Hno. apply (copyout_refused kend s pgdir tabs pm free); try done. split; [done|]. destruct buf; [done|]. subst len. simpl in Htop. lia.
Qed.

End user.

Section kernel.

Context (kend kdata : Z).

Hypothesis kend_above : KERNBASE < kend.
Hypothesis kdata_page : kdata mod PGSIZE = 0.
Hypothesis kdata_range : KERNLINK < kdata < KERNBASE + PHYSTOP.

(** C29: with 65 free pages or more, [setupkvm] builds an
    address space in which the processor finds exactly the kernel's mappings,
    the text read-only, the rest of memory and the devices writable, nothing
    for the user; it takes 65 pages.  With fewer it returns 0 and every page
    is free again. *)
Theorem setupkvm_maps_kernel s free :
  kmem_rep kend s free ->
  exists r s' free', setupkvm kend kdata s = Ok (r, s') /\ kmem_rep kend s' free' /\ hw_sim (khw s) (khw s') /\
    (forall a, a ∉ free -> pages s' !! a = pages s !! a) /\
    if decide (65 <= length free)%nat then
      r <> 0 /\ (length free' + 65 = length free)%nat /\
      forall va, u32_range va -> mmu_walk (pages s') (r - KERNBASE) va = kernel_pte kdata (va / PGSIZE)
    else r = 0 /\ free' ≡ₚ free.
Proof.
  intros Hk. destruct (setupkvm_ok kend kend_above kdata kdata_page kdata_range s free Hk) as (r & s' & H1 & [Hs Hf] & Hres). exists r, s'.
  destruct Hres as [(Hl & Hr & tabs & free' & V & P & Hd)|(Hl & -> & free' & K & P)]; exists free'.
  - rewrite decide_True by done. pose proof V as [K A _]. split_and!; try done.
    + apply Permutation_length in P. rewrite (kernel_owned kdata kdata_page kdata_range), length_app in P. simpl in P.
      pose proof (tabs_size tabs kernel_dirs kernel_dirs_nodup ltac:(intros i Hi; by apply kernel_dirs_elem, Hd)) as H2.
      pose proof (tabs_size_ge tabs kernel_dirs kernel_dirs_nodup ltac:(intros i Hi; by apply Hd, kernel_dirs_elem)) as H3.
      rewrite kernel_dirs_length in H2, H3. lia.
    + intros va Hva. rewrite (mmu_walk_ok kend _ _ _ _ _ A Hva). by apply kernel_map_lookup.
  - rewrite decide_False by lia. by split_and!.
Qed.

(** C27: [copyuvm] of an address space whose first [sz]
    bytes are mapped.  With enough free pages it returns a new address space
    with the kernel's mappings and a copy of the user memory: the same bytes
    under the same permissions, in pages the parent does not have; freeing it
    with [freevm] makes every page free again.  With fewer pages it returns 0
    and every page is free again.  The parent's address space stays as it
    is. *)
Theorem copyuvm_copies_memory s pgdir tabs pm free sz :
  let n := (sz + PGSIZE - 1) / PGSIZE in
  vm kend s pgdir tabs pm free -> 0 <= sz <= KERNBASE -> (forall w, 0 <= w < n -> is_Some (pm !! w)) ->
  exists d s' free', copyuvm kend kdata pgdir sz s = Ok (d, s') /\ vm kend s' pgdir tabs pm free' /\
    (forall a, a ∈ owned pgdir tabs pm -> pages s' !! a = pages s !! a) /\
    if decide (copy_need n <= length free)%nat then
      exists tabsd pmd, vm kend s' d tabsd pmd free' /\ owned d tabsd pmd ++ free' ≡ₚ free /\
        (forall w, n <= w -> pmd !! w = kernel_pte kdata w) /\
        (forall x, 0 <= x < n * PGSIZE -> ubyte (pages s') pmd x = ubyte (pages s) pm x /\
          exists e e', pm !! (x / PGSIZE) = Some e /\ pmd !! (x / PGSIZE) = Some e' /\ PTE_FLAGS e' = PTE_FLAGS e) /\
        exists s'' free'', freevm kend d s' = Ok (tt, s'') /\ kmem_rep kend s'' free'' /\ free'' ≡ₚ free
    else d = 0 /\ free' ≡ₚ free.
Proof.
  intros n V Hsz Hpres. pose proof V as [Hk A Hsep]. destruct (copyuvm_ok kend kend_above kdata kdata_page kdata_range s pgdir tabs pm free sz V Hsz Hpres) as (d & s' & H1 & T & Hres).
  fold n in Hres. pose proof (parent_frame kend _ _ _ _ _ _ A Hsep T) as Ap. destruct T as [_ Hf].
  assert (Hsame : forall a, a ∈ owned pgdir tabs pm -> pages s' !! a = pages s !! a) by (intros a Ha; by apply Hf, Hsep).
  exists d, s'. destruct Hres as [(Hl & Hd & tabsd & pmd & free' & C)|(Hl & -> & free' & K & P)]; exists free'.
  - rewrite decide_True by done. pose proof C as [V' Hu Hr P _ _ _]. split; [done|]. split.
    { constructor; [apply V'|done|]. intros a Ha Hin. apply (Hsep a Ha). rewrite <- P. apply elem_of_app. by right. }
    split; [done|]. exists tabsd, pmd. split; [done|]. split; [done|]. split; [intros w Hw; apply Hr; lia|]. split.
    + intros x Hx. assert (Hw : 0 <= x / PGSIZE < n) by (clear -Hx; mmu_mod). destruct (Hu _ Hw) as (e & a & He & Hm & Hok & Hp).
      destruct (kva_sub kend a Hok) as (? & ? & Hka). destruct (mkpte_ok (a - KERNBASE) (PTE_FLAGS e)) as (_ & _ & _ & Hfl); [done|done|apply flags_range|].
      split; [unfold ubyte; rewrite He, Hm, kva_mkpte, Hka, Hp by (done || apply flags_range); done|]. eexists e, _. split; [done|]. split; [done|].
      rewrite Hfl. destruct (as_pm _ _ _ _ _ A _ e He) as (_ & _ & Hpr & _). by apply flags_present.
    + destruct (freevm_ok kend kend_above s' d tabsd pmd free' V') as (s'' & free'' & H2 & K2 & P2 & _). exists s'', free''. split_and!; try done. by rewrite P2.
  - rewrite decide_False by lia. split_and!; try done. constructor; [done|done|]. intros a Ha. rewrite P. by apply Hsep.
Qed.

End kernel.
