(* ===== verification/VmDemo.v ===== *)
(** * A small memory

    Three hundred pages behind a small kernel, on which the theorems of
    [VmProps] are applied. *)

From S2P Require Import Prelude Spinlock Mmu Kalloc Console Block Fs Vm VmPt VmMap VmKern VmUser VmCopy VmProps.

#[local] Opaque kernel_map.

Definition demo_data : Z := KERNLINK + 4 * PGSIZE.

Definition demo_mem : kst := after (kinit1 demo_end demo_end (demo_end + 300 * PGSIZE)) demo_k0.

Lemma demo_mem_rep : kmem_rep demo_end demo_mem (demo_pages 300).
Proof.
  destruct (kinit1_ok demo_end demo_end (demo_end + 300 * PGSIZE) boot_hw (Spinlock 0 None) 0 ∅ 0 (Cpu 0 0 0 None) boot_hw_ok) as (s' & H & _ & Hrep);
    [vm_compute; intuition discriminate..|].
  unfold demo_mem, demo_k0. rewrite (after_Ok _ _ _ _ H). exact Hrep.
Qed.

Lemma demo_mem_null : pages demo_mem !! 0 = None.
Proof. by vm_compute. Qed.

Lemma demo_kend : KERNBASE < demo_end.
Proof. done. Qed.

Lemma demo_data_page : demo_data mod PGSIZE = 0.
Proof. done. Qed.

Lemma demo_data_range : KERNLINK < demo_data < KERNBASE + PHYSTOP.
Proof. done. Qed.

Lemma setupkvm_maps_kernel_witness :
  exists r s', setupkvm demo_end demo_data demo_mem = Ok (r, s') /\ r <> 0 /\ mmu_walk (pages s') (r - KERNBASE) 0 = None /\
    mmu_walk (pages s') (r - KERNBASE) KERNLINK = Some (mkpte EXTMEM 0) /\
    mmu_walk (pages s') (r - KERNBASE) demo_data = Some (mkpte (EXTMEM + 4 * PGSIZE) PTE_W).
Proof.
  destruct (setupkvm_maps_kernel demo_end demo_data demo_kend demo_data_page demo_data_range demo_mem (demo_pages 300) demo_mem_rep)
    as (r & s' & free' & H1 & _ & _ & _ & Hres). rewrite decide_True in Hres by (rewrite demo_pages_length; lia).
  destruct Hres as (Hr & _ & Hw). exists r, s'. split; [exact H1|]. split; [exact Hr|]. clear H1 Hr.
  split; [|split]; (rewrite Hw; [vm_compute; reflexivity|vm_compute; split; [discriminate|reflexivity]]).
Defined.

(** An address space of the kernel alone, and one with user memory. *)
Lemma demo_space : exists s pgdir tabs free, vm demo_end s pgdir tabs (kernel_map demo_data) free /\ length free = 235%nat /\ pages s !! 0 = None.
Proof.
  destruct (setupkvm_ok demo_end demo_kend demo_data demo_data_page demo_data_range demo_mem (demo_pages 300) demo_mem_rep) as (r & s & H1 & [_ Hf] & Hres).
  rewrite demo_pages_length in Hres. destruct Hres as [(_ & _ & tabs & free & V & P & Hd)|(Hl & _)]; [|lia]. exists s, r, tabs, free. split; [done|]. split.
  - apply Permutation_length in P. rewrite (kernel_owned _ demo_data_page demo_data_range), length_app, demo_pages_length in P. simpl in P.
    pose proof (tabs_size tabs kernel_dirs kernel_dirs_nodup ltac:(intros i Hi; by apply kernel_dirs_elem, Hd)) as H2.
    pose proof (tabs_size_ge tabs kernel_dirs kernel_dirs_nodup ltac:(intros i Hi; by apply Hd, kernel_dirs_elem)) as H3.
    rewrite kernel_dirs_length in H2, H3. lia.
  - rewrite Hf; [apply demo_mem_null|]. intros Hin. pose proof (kr_pages _ _ _ demo_mem_rep) as Hp. apply (proj1 (Forall_forall _ _) Hp) in Hin.
    apply page_ok_pos in Hin. lia.
Qed.

Lemma demo_user : exists s pgdir tabs pm free, vm demo_end s pgdir tabs pm free /\ (200 <= length free)%nat /\ pages s !! 0 = None /\
  (forall w, 0 <= w < 2 -> exists a, pm !! w = Some (mkpte (a - KERNBASE) 6) /\ page_ok demo_end a).
Proof.
  destruct demo_space as (s & pgdir & tabs & free & V & Hl & H0).
  destruct (alloc_loop demo_end demo_kend 3 (Vst s []) pgdir tabs (kernel_map demo_data) free 0 5000 0 tabs (kernel_map demo_data) free)
    as (r & s' & tabs' & free' & _ & [_ Hf] & Hres); [|lia|vm_compute; reflexivity|vm_compute; intuition discriminate| |vm_compute; reflexivity|].
  - constructor; [exact V|reflexivity|intros w Hw; change ((0 + PGSIZE - 1) / PGSIZE) with 0 in Hw; lia|reflexivity|reflexivity|intros i Hi; by left|change (Z.to_nat _) with 0%nat; lia].
  - intros w Hw. rewrite kernel_map_lookup by (apply demo_data_page || apply demo_data_range). change ((5000 + PGSIZE - 1) / PGSIZE) with 2 in Hw.
    apply kernel_pte_user; [apply demo_data_page|apply demo_data_range|unfold UPAGES; lia].
  - destruct Hres as [(_ & pm' & G)|(_ & _ & _ & _ & Hs)]; [|change (grow_need _ _) with 3%nat in Hs; lia]. exists (vk s'), pgdir, tabs', pm', free'. split; [apply G|]. split; [|split].
    + pose proof (Permutation_length (gw_perm _ _ _ _ _ _ _ _ _ _ _ _ G)) as HP. pose proof (tables_bound _ _ _ (gw_dom _ _ _ _ _ _ _ _ _ _ _ _ G)) as HT.
      pose proof (gw_count _ _ _ _ _ _ _ _ _ _ _ _ G) as HC. unfold owned in HP. rewrite !length_app in HP. simpl in HP. rewrite !length_app in HP. rewrite length_seqZ in HT.
      change (Z.to_nat _) with 2%nat in HC. change (Z.to_nat _) with 1%nat in HT. lia.
    + rewrite Hf; [done|]. intros Hin. apply elem_of_cons in Hin as [<- |Hin].
      * pose proof (as_pgdir _ _ _ _ _ (vm_as _ _ _ _ _ _ V)) as Hp. apply page_ok_pos in Hp. lia.
      * apply elem_of_app in Hin as [[i Hi]%elem_tables|Hin].
        -- destruct (as_tab _ _ _ _ _ (vm_as _ _ _ _ _ _ V) i 0 Hi) as (_ & Hp & _). apply page_ok_pos in Hp. lia.
        -- pose proof (kr_pages _ _ _ (vm_mem _ _ _ _ _ _ V)) as Hp. apply (proj1 (Forall_forall _ _) Hp) in Hin. apply page_ok_pos in Hin. lia.
    + intros w Hw. destruct (gw_new _ _ _ _ _ _ _ _ _ _ _ _ G w) as (a & Ha & Hok & _); [exact Hw|]. exists a. by split.
Qed.

Lemma allocuvm_grows_deallocuvm_shrinks_witness :
  exists s pgdir s' pm', allocuvm demo_end pgdir 0 5000 s = Ok (5000, s') /\ ubyte (pages (vk s')) pm' 4999 = Some 0.
Proof.
  destruct demo_space as (k & pgdir & tabs & free & V & Hl & _).
  destruct (allocuvm_grows_deallocuvm_shrinks demo_end demo_kend (Vst k []) pgdir tabs (kernel_map demo_data) free 0 5000 V) as
    (r & s' & tabs' & pm' & free' & H1 & _ & _ & _ & Hres).
  - lia.
  - lia.
  - intros w Hw. change ((5000 + PGSIZE - 1) / PGSIZE) with 2 in Hw. rewrite kernel_map_lookup by (apply demo_data_page || apply demo_data_range).
    apply kernel_pte_user; [apply demo_data_page|apply demo_data_range|unfold UPAGES; lia].
  - rewrite !decide_False in Hres by (unfold KERNBASE; lia). destruct Hres as [(-> & _ & Hz & _)|(_ & _ & Hs)]; [|change (grow_need _ _) with 3%nat in Hs; lia].
    exists (Vst k []), pgdir, s', pm'. split; [exact H1|]. apply Hz. vm_compute. split; [discriminate|reflexivity].
Defined.

Lemma copyuvm_copies_memory_witness :
  exists s pgdir d s' pm pmd, copyuvm demo_end demo_data pgdir 5000 s = Ok (d, s') /\ ubyte (pages s') pmd 4999 = ubyte (pages s) pm 4999.
Proof.
  destruct demo_user as (s & pgdir & tabs & pm & free & V & Hl & _ & Hm).
  destruct (copyuvm_copies_memory demo_end demo_data demo_kend demo_data_page demo_data_range s pgdir tabs pm free 5000 V) as (d & s' & free' & H1 & _ & _ & Hres).
  - unfold KERNBASE. lia.
  - intros w Hw. change ((5000 + PGSIZE - 1) / PGSIZE) with 2 in Hw. destruct (Hm w Hw) as (a & Ha & _). eauto.
  - rewrite decide_True in Hres by (change (copy_need _) with 68%nat; lia). destruct Hres as (tabsd & pmd & _ & _ & _ & Hb & _).
    exists s, pgdir, d, s', pm, pmd. split; [exact H1|]. apply Hb. vm_compute. split; [discriminate|reflexivity].
Defined.

Lemma freevm_returns_every_page_witness :
  exists s pgdir s' free', freevm demo_end pgdir s = Ok (tt, s') /\ kmem_rep demo_end s' free' /\ (236 <= length free')%nat.
Proof.
  destruct demo_space as (k & pgdir & tabs & free & V & Hl & _).
  destruct (freevm_returns_every_page demo_end demo_kend k pgdir tabs (kernel_map demo_data) free V) as (s' & free' & H1 & H2 & P & _).
  exists k, pgdir, s', free'. split; [exact H1|]. split; [exact H2|]. apply Permutation_length in P.
  rewrite (kernel_owned _ demo_data_page demo_data_range), length_app in P. simpl in P. lia.
Defined.

(** Ten bytes across the boundary of two pages. *)
Lemma copyout_writes_user_memory_witness :
  exists s pgdir s' pm, copyout pgdir 4090 [1; 2; 3; 4; 5; 6; 7; 8; 9; 10] s = Ok (0, s') /\
    ubyte (pages s') pm 4095 = Some 6 /\ ubyte (pages s') pm 4096 = Some 7 /\ ubyte (pages s') pm 4100 = ubyte (pages s) pm 4100.
Proof.
  destruct demo_user as (s & pgdir & tabs & pm & free & V & _ & H0 & Hm).
  destruct (copyout_writes_user_memory demo_end demo_kend s pgdir tabs pm free 4090 [1; 2; 3; 4; 5; 6; 7; 8; 9; 10] V) as [H _].
  - repeat constructor; lia.
  - discriminate.
  - lia.
  - vm_compute. discriminate.
  - exact H0.
  - destruct H as (s' & H1 & _ & Hb & _).
    + intros x Hx. change (Z.of_nat _) with 10 in Hx. destruct (Hm (x / PGSIZE)) as (a & Ha & Hok); [mmu_mod|]. eexists. split; [exact Ha|].
      destruct (kva_sub demo_end a Hok) as (? & ? & _). unfold user_bit, mkpte. rewrite lor_flags by done.
      replace (a - KERNBASE + Z.lor 6 PTE_P) with ((a - KERNBASE) / PGSIZE * PGSIZE + 7) by (change (Z.lor 6 PTE_P) with 7; mmu_mod).
      rewrite <- lor_pages by done. unfold PTE_U. rewrite Z.land_lor_distr_l. intros [_ Hz]%Z.lor_eq_0_iff. done.
    + exists s, pgdir, s', pm. split; [exact H1|]. split; [|split]; rewrite Hb by (unfold KERNBASE; lia); reflexivity.
Defined.
