(* ===== verification/Syscall.v ===== *)
(** * System call arguments

    Models the argument fetching of [syscall.c].  The kernel runs on the page
    table of the process, so it reads user memory through the processor's page
    table walk; an address that is not mapped, or a store to a page without
    write permission ([CR0_WP] is set), is a fault.  A return of -1 is
    [None]. *)

From S2P Require Import Prelude Spinlock Mmu Kalloc Block Fs Vm VmPt VmCopy VmDemo.

(** What the routines use of [myproc()]: [pgdir], [sz] and [tf->esp]. *)
Record uctx := Uctx { u_pgdir : Z; u_sz : Z; u_esp : Z }.

(** A byte of user memory. *)
Definition load_ubyte (pg : gmap Z (list Z)) (u : uctx) (va : Z) : result Z :=
  match mmu_walk pg (u_pgdir u - KERNBASE) va with
  | Some e =>
      match pg !! kva e with
      | Some ws => match page_bytes ws !! Z.to_nat (va mod PGSIZE) with Some b => Ok b | None => Fault end
      | None => Fault
      end
  | None => Fault
  end.

Definition store_ubyte (u : uctx) (va b : Z) : M kst unit := fun s =>
  match mmu_walk (pages s) (u_pgdir u - KERNBASE) va with
  | Some e => if Z.land e PTE_W =? 0 then Fault else store_bytes (kva e + va mod PGSIZE) [b] s
  | None => Fault
  end.

(** [n] bytes from [va] on. *)
Fixpoint load_ubytes (pg : gmap Z (list Z)) (u : uctx) (n : nat) (va : Z) : result (list Z) :=
  match n with
  | O => Ok []
  | S n' =>
      let? b := load_ubyte pg u va in
      let? bs := load_ubytes pg u n' (u32 (va + 1)) in
      Ok (b :: bs)
  end.

Fixpoint store_ubytes (u : uctx) (va : Z) (bs : list Z) : M kst unit :=
  match bs with
  | [] => ret tt
  | b :: bs' => store_ubyte u va b ;;; store_ubytes u (u32 (va + 1)) bs'
  end.

Definition fetchint (pg : gmap Z (list Z)) (u : uctx) (addr : Z) : result (option Z) :=
  if (u_sz u <=? addr) || (u_sz u <? u32 (addr + 4)) then Ok None
  else
    let? bs := load_ubytes pg u 4 addr in
    Ok (Some (i32 (le_dec bs))).

(** The loop of [fetchstr]: the string from [s] on, if it ends below [ep]. *)
Fixpoint fetchstr_loop (pg : gmap Z (list Z)) (u : uctx) (fuel : nat) (s : Z) : result (option (list Z)) :=
  match fuel with
  | O => NoFuel
  | S n =>
      if s <? u_sz u then
        let? b := load_ubyte pg u s in
        if b =? 0 then Ok (Some [])
        else
          let? r := fetchstr_loop pg u n (s + 1) in
          match r with Some l => Ok (Some (b :: l)) | None => Ok None end
      else Ok None
  end.

(** The string stands for the pointer [*pp], which is [addr]. *)
Definition fetchstr (pg : gmap Z (list Z)) (u : uctx) (addr : Z) : result (option (list Z)) :=
  if u_sz u <=? addr then Ok None
  else fetchstr_loop pg u (S (Z.to_nat (u_sz u - addr))) addr.

Definition argint (pg : gmap Z (list Z)) (u : uctx) (n : Z) : result (option Z) :=
  fetchint pg u (u32 (u_esp u + 4 + 4 * n)).

Definition argptr (pg : gmap Z (list Z)) (u : uctx) (n size : Z) : result (option Z) :=
  let? i := argint pg u n in
  match i with
  | None => Ok None
  | Some i => if (size <? 0) || (u_sz u <=? u32 i) || (u_sz u <? u32 (u32 i + size)) then Ok None else Ok (Some (u32 i))
  end.

Definition argstr (pg : gmap Z (list Z)) (u : uctx) (n : Z) : result (option (list Z)) :=
  let? addr := argint pg u n in
  match addr with
  | None => Ok None
  | Some addr => fetchstr pg u (u32 addr)
  end.

(** ** Dispatch *)

Definition SYS_fork : Z := 1.
Definition SYS_exit : Z := 2.
Definition SYS_wait : Z := 3.
Definition SYS_pipe : Z := 4.
Definition SYS_read : Z := 5.
Definition SYS_kill : Z := 6.
Definition SYS_exec : Z := 7.
Definition SYS_fstat : Z := 8.
Definition SYS_chdir : Z := 9.
Definition SYS_dup : Z := 10.
Definition SYS_getpid : Z := 11.
Definition SYS_sbrk : Z := 12.
Definition SYS_sleep : Z := 13.
Definition SYS_uptime : Z := 14.
Definition SYS_open : Z := 15.
Definition SYS_write : Z := 16.
Definition SYS_mknod : Z := 17.
Definition SYS_unlink : Z := 18.
Definition SYS_link : Z := 19.
Definition SYS_mkdir : Z := 20.
Definition SYS_close : Z := 21.
Definition SYS_yield : Z := 22.
Definition SYS_shutdown : Z := 23.
Definition SYS_nicefork : Z := 24.
Definition SYS_schedlog : Z := 25.

(** ** Properties *)

(** A process: its address space, with all of its memory mapped. *)
Record process (kend : Z) (s : kst) (u : uctx) (tabs pm : gmap Z Z) (free : list Z) : Prop := {
  pr_vm : vm kend s (u_pgdir u) tabs pm free;
  pr_sz : 0 <= u_sz u <= KERNBASE;
  pr_mapped : forall x, 0 <= x < u_sz u -> is_Some (pm !! (x / PGSIZE))
}.

Section args.

Context (kend : Z).

Lemma load_ubyte_ok s u tabs pm free x :
  process kend s u tabs pm free -> 0 <= x < u_sz u -> exists b, ubyte (pages s) pm x = Some b /\ load_ubyte (pages s) u x = Ok b /\ 0 <= b < 256.
Proof.
  intros [[_ A _] Hsz Hm] Hx. destruct (Hm x Hx) as [e He]. assert (Hlt : x / PGSIZE < UPAGES) by (unfold UPAGES; clear -Hx Hsz; mmu_mod).
  destruct (as_pm _ _ _ _ _ A _ e He) as (_ & _ & _ & Hu). destruct (Hu Hlt) as (_ & ws & Hws & Hl).
  assert (Hi : (Z.to_nat (x mod PGSIZE) < length (page_bytes ws))%nat) by (rewrite page_bytes_length, Hl; unfold PAGE_WORDS; clear; mmu_mod).
  apply lookup_lt_is_Some in Hi as [b Hb]. exists b. unfold ubyte, load_ubyte. rewrite (mmu_walk_ok kend _ _ _ _ _ A) by (unfold u32_range; clear -Hx Hsz; mmu_lia).
  rewrite He, Hws, Hb. split_and!; try done; apply (proj1 (Forall_lookup _ _) (page_bytes_bytes ws) _ _ Hb).
Qed.

(** The [n] bytes of user memory from [a] on are [bs]. *)
Definition holds_bytes (s : kst) (pm : gmap Z Z) (a : Z) (bs : list Z) : Prop :=
  forall k b, bs !! k = Some b -> ubyte (pages s) pm (a + Z.of_nat k) = Some b.

Lemma holds_bytes_cons s pm a b bs : ubyte (pages s) pm a = Some b -> holds_bytes s pm (a + 1) bs -> holds_bytes s pm a (b :: bs).
Proof.
  intros Hb H [|k] x Hx; [simplify_eq/=; by rewrite Z.add_0_r|]. simpl in Hx. apply H in Hx. by replace (a + Z.of_nat (S k)) with (a + 1 + Z.of_nat k) by lia.
Qed.

Lemma load_ubytes_ok s u tabs pm free n : forall a,
  process kend s u tabs pm free -> 0 <= a -> a + Z.of_nat n <= u_sz u ->
  exists bs, load_ubytes (pages s) u n a = Ok bs /\ length bs = n /\ holds_bytes s pm a bs.
Proof.
  induction n as [|n IH]; intros a P Ha Hn; [by exists []|]. cbn [load_ubytes]. pose proof (pr_sz _ _ _ _ _ _ P) as Hsz.
  destruct (load_ubyte_ok s u tabs pm free a P) as (b & Hb & Hl & _); [lia|]. rewrite Hl. cbn [rbind]. rewrite u32_small by (unfold u32_range; mmu_lia).
  destruct (IH (a + 1) P) as (bs & H1 & H2 & H3); [lia|lia|]. rewrite H1. exists (b :: bs). split_and!; try done; [simpl; lia|].
  by apply holds_bytes_cons.
Qed.

Lemma fetchstr_loop_ok s u tabs pm free fuel : forall a,
  process kend s u tabs pm free -> 0 <= a <= u_sz u -> u_sz u - a < Z.of_nat fuel ->
  (exists l, fetchstr_loop (pages s) u fuel a = Ok (Some l) /\ a + Z.of_nat (length l) < u_sz u /\ 0 ∉ l /\ holds_bytes s pm a (l ++ [0])) \/
  (fetchstr_loop (pages s) u fuel a = Ok None /\ forall x, a <= x < u_sz u -> ubyte (pages s) pm x <> Some 0).
Proof.
  induction fuel as [|fuel IH]; intros a P Ha Hf; [lia|]. cbn [fetchstr_loop]. destruct (Z.ltb_spec a (u_sz u)) as [Hlt|Hge].
  2:{ right. split; [done|]. intros x Hx. lia. }
  destruct (load_ubyte_ok s u tabs pm free a P) as (b & Hb & Hl & _); [lia|]. rewrite Hl. cbn [rbind]. destruct (Z.eqb_spec b 0) as [-> |Hne].
  { left. exists []. split_and!; try done; [simpl; lia|set_solver|]. by apply holds_bytes_cons. }
  destruct (IH (a + 1) P) as [(l & H1 & H2 & H3 & H4)|[H1 H2]]; [lia|lia| |]; rewrite H1; cbn [rbind].
  - left. exists (b :: l). split_and!; try done; [simpl; lia|rewrite elem_of_cons; intros [?|?]; [by apply Hne|done]|]. by apply holds_bytes_cons.
  - right. split; [done|]. intros x Hx. destruct (decide (x = a)) as [-> |?]; [rewrite Hb; congruence|]. apply H2. lia.
Qed.

(** C31: for a process whose memory is
    mapped, fetching arguments never faults.  [fetchint] reads the four bytes
    at an address if they all lie below [sz] and answers -1 otherwise;
    [argptr] accepts a block exactly if it lies in the memory of the process,
    with no way around by wrapping the sum; [fetchstr] finds the string that
    ends at the first zero below [sz], and answers -1 when there is none. *)
Theorem syscall_arguments_stay_in_user_memory s u tabs pm free :
  process kend s u tabs pm free ->
  (forall addr, u32_range addr ->
     if decide (addr + 4 <= u_sz u) then exists bs, fetchint (pages s) u addr = Ok (Some (i32 (le_dec bs))) /\ length bs = 4%nat /\ holds_bytes s pm addr bs
     else fetchint (pages s) u addr = Ok None) /\
  (forall n size, i32_range size ->
     (argint (pages s) u n = Ok None /\ argptr (pages s) u n size = Ok None) \/
     exists i, argint (pages s) u n = Ok (Some i) /\
       argptr (pages s) u n size = Ok (if decide (0 <= size /\ u32 i < u_sz u /\ u32 i + size <= u_sz u) then Some (u32 i) else None)) /\
  (forall addr, u32_range addr ->
     (exists l, fetchstr (pages s) u addr = Ok (Some l) /\ addr + Z.of_nat (length l) < u_sz u /\ 0 ∉ l /\ holds_bytes s pm addr (l ++ [0])) \/
     (fetchstr (pages s) u addr = Ok None /\ forall x, addr <= x < u_sz u -> ubyte (pages s) pm x <> Some 0)).
Proof.
  intros P. pose proof (pr_sz _ _ _ _ _ _ P) as Hsz.
  assert (Hint : forall addr, u32_range addr ->
    if decide (addr + 4 <= u_sz u) then exists bs, fetchint (pages s) u addr = Ok (Some (i32 (le_dec bs))) /\ length bs = 4%nat /\ holds_bytes s pm addr bs
    else fetchint (pages s) u addr = Ok None).
  { intros addr Ha. unfold fetchint. destruct (decide (addr + 4 <= u_sz u)) as [Hin|Hout].
    - rewrite u32_small by (unfold u32_range in *; mmu_lia). replace (u_sz u <=? addr) with false by blia. replace (u_sz u <? addr + 4) with false by blia. cbn [orb].
      destruct (load_ubytes_ok s u tabs pm free 4 addr P) as (bs & H1 & H2 & H3); [apply Ha|lia|]. rewrite H1. eauto.
    - destruct (Z.leb_spec (u_sz u) addr) as [|Hlt]; [done|]. rewrite u32_small by (unfold u32_range in *; mmu_lia).
      by replace (u_sz u <? addr + 4) with true by blia. }
  split; [exact Hint|]. split.
  - intros n size Hs. unfold argptr, argint. specialize (Hint (u32 (u_esp u + 4 + 4 * n)) (u32_bound _)).
    destruct (decide (u32 (u_esp u + 4 + 4 * n) + 4 <= u_sz u)); [|left; by rewrite Hint]. destruct Hint as (bs & H1 & _). right. eexists. split; [exact H1|].
    rewrite H1. cbn [rbind]. set (i := u32 (i32 _)). assert (Hi : u32_range i) by apply u32_bound. unfold u32_range, i32_range in *.
    destruct (decide _) as [(H2 & H3 & H4)|Hno].
    + replace (size <? 0) with false by blia. replace (u_sz u <=? i) with false by blia. rewrite u32_small by (unfold u32_range; mmu_lia).
      by replace (u_sz u <? i + size) with false by blia.
    + destruct (Z.ltb_spec size 0); [done|]. destruct (Z.leb_spec (u_sz u) i); [done|]. cbn [orb]. rewrite u32_small by (unfold u32_range; mmu_lia).
      by replace (u_sz u <? i + size) with true by blia.
  - intros addr Ha. unfold fetchstr. unfold u32_range in Ha. destruct (Z.leb_spec (u_sz u) addr) as [|Hlt]; [right; split; [done|]; intros x Hx; lia|].
    apply (fetchstr_loop_ok s u tabs pm free); [done|lia|lia].
Qed.

End args.

Lemma syscall_arguments_stay_in_user_memory_witness :
  exists s u, u_sz u = 5000 /\ fetchint (pages s) u 4997 = Ok None /\ exists v, fetchint (pages s) u 4996 = Ok (Some v).
Proof.
  destruct demo_user as (s & pgdir & tabs & pm & free & V & _ & _ & Hm).
  assert (P : process demo_end s (Uctx pgdir 5000 4900) tabs pm free).
  { constructor; [exact V|vm_compute; split; discriminate|]. cbn [u_sz]. intros x Hx. destruct (Hm (x / PGSIZE)) as (a & Ha & _); [mmu_mod|eauto]. }
  destruct (syscall_arguments_stay_in_user_memory demo_end s _ tabs pm free P) as [H _]. exists s, (Uctx pgdir 5000 4900). split; [reflexivity|]. split.
  - apply (H 4997). vm_compute. split; [discriminate|reflexivity].
  - destruct (H 4996) as (bs & Hb & _); [vm_compute; split; [discriminate|reflexivity]|]. eauto.
Defined.
