(* ===== verification/File.v ===== *)
(** * Open files

    Models [file.c] and [pipealloc] of [pipe.c], run by one process at a time:
    a call that would sleep waits for good.  A pointer to a [struct file] is
    its index in [ftable.file]; a pointer to a pipe is the address of its page,
    and the pipes in use are kept by that address.  The [wakeup]s that the pipe
    code makes are collected in [wakes]. *)

From S2P Require Import Prelude Spinlock Mmu Kalloc Block Sleeplock Bio Log Fs Vm Pipe Syscall.

Definition NFILE : nat := 100.

Inductive ftype := FD_NONE | FD_PIPE | FD_INODE.

Record file := File {
  f_type : ftype;
  f_ref : Z;
  f_readable : Z;
  f_writable : Z;
  f_pipe : Z;
  f_ip : nat;
  f_off : Z
}.

Definition with_fref v f := File (f_type f) v (f_readable f) (f_writable f) (f_pipe f) (f_ip f) (f_off f).
Definition with_foff v f := File (f_type f) (f_ref f) (f_readable f) (f_writable f) (f_pipe f) (f_ip f) v.

(** The files, and what the calling process has: [ofile], [cwd], [killed] and
    its memory. *)
Record kern := Kern {
  fsy : fsys;
  ftab : list file;
  pipes : gmap Z pipe;
  mem : kst;
  ofile : list (option nat);
  cwdir : nat;
  killed : bool;
  uc : uctx;
  wakes : list (Z * pchan)
}.

Definition set_fsy v s := Kern v (ftab s) (pipes s) (mem s) (ofile s) (cwdir s) (killed s) (uc s) (wakes s).
Definition set_ftab v s := Kern (fsy s) v (pipes s) (mem s) (ofile s) (cwdir s) (killed s) (uc s) (wakes s).
Definition set_pipes v s := Kern (fsy s) (ftab s) v (mem s) (ofile s) (cwdir s) (killed s) (uc s) (wakes s).
Definition set_mem v s := Kern (fsy s) (ftab s) (pipes s) v (ofile s) (cwdir s) (killed s) (uc s) (wakes s).
Definition set_ofile v s := Kern (fsy s) (ftab s) (pipes s) (mem s) v (cwdir s) (killed s) (uc s) (wakes s).
Definition set_cwdir v s := Kern (fsy s) (ftab s) (pipes s) (mem s) (ofile s) v (killed s) (uc s) (wakes s).
Definition add_wakes p l s := Kern (fsy s) (ftab s) (pipes s) (mem s) (ofile s) (cwdir s) (killed s) (uc s) (wakes s ++ map (pair p) l).

Definition on_fs {A} (c : M fsys A) : M kern A := zoom fsy set_fsy c.
Definition on_mem {A} (c : M kst A) : M kern A := zoom mem set_mem c.

Definition get_file (f : nat) : M kern file := fun s =>
  match ftab s !! f with Some x => Ok (x, s) | None => Fault end.

Definition upd_file (f : nat) (g : file -> file) : M kern unit := fun s =>
  match ftab s !! f with Some x => Ok (tt, set_ftab (<[f := g x]> (ftab s)) s) | None => Fault end.

Definition get_pipe (p : Z) : M kern pipe := fun s =>
  match pipes s !! p with Some x => Ok (x, s) | None => Fault end.

Definition put_pipe (p : Z) (x : pipe) : M kern unit := modify (fun s => set_pipes (<[p := x]> (pipes s)) s).

Section code.

Context (me kend : Z) (devsw : Z -> devops).

Definition begin_op_ : M kern unit := on_fs (on_lo begin_op).
Definition end_op_ : M kern unit := on_fs (on_lo (end_op me)).

(** ** Pipes *)

(** [pipeclose] on a pipe in use. *)
Definition pipeclose_ (p : Z) (writable : bool) : M kern unit :=
  let* x := get_pipe p in
  let '(x', w, gone) := pipeclose writable x in
  modify (add_wakes p w) ;;;
  if gone : bool then modify (fun s => set_pipes (delete p (pipes s)) s) ;;; on_mem (kfree kend p)
  else put_pipe p x'.

Definition piperead_ (p : Z) (n : Z) : M kern (Z * list Z) :=
  let* x := get_pipe p in
  let* k := gets killed in
  let* r := lift (piperead k (Z.to_nat n) x) in
  let '(x', e, w, l) := r in
  put_pipe p x' ;;;
  modify (add_wakes p w) ;;;
  match e with SRet v => ret (v, l) | SSleep _ _ => fun _ => Spin end.

Definition pipewrite_ (p : Z) (addr : list Z) : M kern Z :=
  let* x := get_pipe p in
  let* k := gets killed in
  let* r := lift (pipewrite k addr x) in
  let '(x', e, w) := r in
  put_pipe p x' ;;;
  modify (add_wakes p w) ;;;
  match e with SRet v => ret v | SSleep _ _ => fun _ => Spin end.

(** ** file.c *)

(** The first entry of the table that is not in use. *)
Fixpoint free_file (l : list file) (i : nat) : option nat :=
  match l with
  | [] => None
  | f :: l' => if f_ref f =? 0 then Some i else free_file l' (S i)
  end.

Definition filealloc : M kern (option nat) :=
  let* l := gets ftab in
  match free_file l 0 with
  | Some f => upd_file f (with_fref 1) ;;; ret (Some f)
  | None => ret None
  end.

Definition filedup (f : nat) : M kern nat :=
  let* x := get_file f in
  if f_ref x <? 1 then panic "filedup"
  else upd_file f (with_fref (f_ref x + 1)) ;;; ret f.

Definition fileclose (f : nat) : M kern unit :=
  let* x := get_file f in
  if f_ref x <? 1 then panic "fileclose"
  else
    let r := f_ref x - 1 in
    if 0 <? r then upd_file f (with_fref r)
    else
      upd_file f (fun x => File FD_NONE 0 (f_readable x) (f_writable x) (f_pipe x) (f_ip x) (f_off x)) ;;;
      match f_type x with
      | FD_PIPE => pipeclose_ (f_pipe x) (negb (f_writable x =? 0))
      | FD_INODE =>
          begin_op_ ;;;
          on_fs (iput me (f_ip x)) ;;;
          end_op_
      | FD_NONE => ret tt
      end.

Definition filestat (f : nat) : M kern (option stat) :=
  let* x := get_file f in
  match f_type x with
  | FD_INODE =>
      on_fs (ilock me (Some (f_ip x))) ;;;
      let* st := on_fs (stati (f_ip x)) in
      on_fs (iunlock me (Some (f_ip x))) ;;;
      ret (Some st)
  | _ => ret None
  end.

(** The return value and the bytes stored at [addr]. *)
Definition fileread (f : nat) (n : Z) : M kern (Z * list Z) :=
  let* x := get_file f in
  if f_readable x =? 0 then ret (-1, [])
  else
    match f_type x with
    | FD_PIPE => piperead_ (f_pipe x) n
    | FD_INODE =>
        on_fs (ilock me (Some (f_ip x))) ;;;
        let* r := on_fs (readi me devsw (f_ip x) (f_off x) n) in
        (if 0 <? fst r then upd_file f (fun x => with_foff (u32 (f_off x + fst r)) x) else ret tt) ;;;
        on_fs (iunlock me (Some (f_ip x))) ;;;
        ret r
    | FD_NONE => panic "fileread"
    end.

(** [max] of [filewrite]. *)
Definition MAXCHUNK : Z := (MAXOPBLOCKS - 1 - 1 - 2) / 2 * 512.

(** The loop of [filewrite]: [i] bytes are written; the value of [i] at the
    end.  Every turn but the last writes [MAXCHUNK] bytes. *)
Fixpoint filewrite_loop (fuel : nat) (f : nat) (addr : list Z) (n i : Z) : M kern Z :=
  match fuel with
  | O => nofuel
  | S fuel' =>
      if i <? n then
        let n1 := if MAXCHUNK <? n - i then MAXCHUNK else n - i in
        begin_op_ ;;;
        let* x := get_file f in
        on_fs (ilock me (Some (f_ip x))) ;;;
        let* r := on_fs (writei me devsw (f_ip x) (take (Z.to_nat n1) (drop (Z.to_nat i) addr)) (f_off x) n1) in
        (if 0 <? r then upd_file f (fun x => with_foff (u32 (f_off x + r)) x) else ret tt) ;;;
        on_fs (iunlock me (Some (f_ip x))) ;;;
        end_op_ ;;;
        if r <? 0 then ret i
        else if negb (r =? n1) then panic "short filewrite"
        else filewrite_loop fuel' f addr n (i + r)
      else ret i
  end.

Definition filewrite (f : nat) (addr : list Z) (n : Z) : M kern Z :=
  let* x := get_file f in
  if f_writable x =? 0 then ret (-1)
  else
    match f_type x with
    | FD_PIPE => pipewrite_ (f_pipe x) (take (Z.to_nat n) addr)
    | FD_INODE =>
        let* i := filewrite_loop (S (S (Z.to_nat (n / MAXCHUNK)))) f addr n 0 in
        ret (if i =? n then n else -1)
    | FD_NONE => panic "filewrite"
    end.

(** ** pipealloc *)

(** [sizeof(struct spinlock)], where the data of a pipe begins. *)
Definition PIPEDATA : nat := 52.

Definition file_as_pipe (r w p : Z) (f : file) : file := File FD_PIPE (f_ref f) r w p (f_ip f) (f_off f).

(** [None] for -1, with the files closed that were opened. *)
Definition pipealloc : M kern (option (nat * nat)) :=
  let bad (f0 f1 : option nat) : M kern (option (nat * nat)) :=
    match f0 with Some f => fileclose f | None => ret tt end ;;;
    match f1 with Some f => fileclose f | None => ret tt end ;;;
    ret None in
  let* f0 := filealloc in
  match f0 with
  | None => bad None None
  | Some a =>
      let* f1 := filealloc in
      match f1 with
      | None => bad (Some a) None
      | Some b =>
          let* p := on_mem kalloc in
          if p =? 0 then bad (Some a) (Some b)
          else
            let* pg := gets (fun s => default [] (pages (mem s) !! p)) in
            put_pipe p (pipe_init (take (Z.to_nat PIPESIZE) (drop PIPEDATA (page_bytes pg)))) ;;;
            upd_file a (file_as_pipe 1 0 p) ;;;
            upd_file b (file_as_pipe 0 1 p) ;;;
            ret (Some (a, b))
      end
  end.

End code.
