(* ===== verification/Sysfile.v ===== *)
(** * File system calls

    Models [sysfile.c]: argument checking and the calls into [file.c] and
    [fs.c].  A null pointer is [None]; the local array [name] of a call starts
    out as [junk], whatever is on the stack. *)

From S2P Require Import Prelude Spinlock Mmu Kalloc Console Block Sleeplock Bio Log CString Fs Vm Pipe Syscall File.

Definition O_RDONLY : Z := 0.
Definition O_WRONLY : Z := 1.
Definition O_RDWR : Z := 2.
Definition O_CREATE : Z := 0x200.

Section code.

Context (me kend : Z) (devsw : Z -> devops) (junk : list Z).

Definition arg {A} (f : gmap Z (list Z) -> uctx -> result A) : M kern A := fun s => rbind (f (pages (mem s)) (uc s)) (fun a => Ok (a, s)).

Definition argint_ (n : Z) : M kern (option Z) := arg (fun pg u => argint pg u n).
Definition argptr_ (n size : Z) : M kern (option Z) := arg (fun pg u => argptr pg u n size).
Definition argstr_ (n : Z) : M kern (option (list Z)) := arg (fun pg u => argstr pg u n).

(** ** Descriptors *)

Definition argfd (n : Z) : M kern (option (nat * nat)) :=
  let* r := argint_ n in
  match r with
  | None => ret None
  | Some fd =>
      let* l := gets ofile in
      if (fd <? 0) || (Z.of_nat NOFILE <=? fd) then ret None
      else
        match l !! Z.to_nat fd with
        | Some (Some f) => ret (Some (Z.to_nat fd, f))
        | Some None => ret None
        | None => fault
        end
  end.

(** The first descriptor that is free. *)
Fixpoint free_fd (l : list (option nat)) (i : nat) : option nat :=
  match l with
  | [] => None
  | None :: _ => Some i
  | Some _ :: l' => free_fd l' (S i)
  end.

Definition set_fd (fd : nat) (v : option nat) : M kern unit := modify (fun s => set_ofile (<[fd := v]> (ofile s)) s).

Definition fdalloc (f : nat) : M kern (option nat) :=
  let* l := gets ofile in
  match free_fd (take NOFILE l) 0 with
  | Some fd => set_fd fd (Some f) ;;; ret (Some fd)
  | None => ret None
  end.

Definition sys_dup : M kern Z :=
  let* r := argfd 0 in
  match r with
  | None => ret (-1)
  | Some (_, f) =>
      let* fd := fdalloc f in
      match fd with
      | None => ret (-1)
      | Some fd => filedup f ;;; ret (Z.of_nat fd)
      end
  end.

(** [argfd(0, 0, &f) < 0 || argint(2, &n) < 0 || argptr(1, &p, n) < 0] *)
Definition rw_args : M kern (option (nat * Z * Z)) :=
  let* r := argfd 0 in
  match r with
  | None => ret None
  | Some (_, f) =>
      let* n := argint_ 2 in
      match n with
      | None => ret None
      | Some n =>
          let* p := argptr_ 1 n in
          match p with
          | None => ret None
          | Some p => ret (Some (f, n, p))
          end
      end
  end.

Definition store_user (p : Z) (bs : list Z) : M kern unit :=
  let* u := gets uc in on_mem (store_ubytes u p bs).

Definition sys_read : M kern Z :=
  let* a := rw_args in
  match a with
  | None => ret (-1)
  | Some (f, n, p) =>
      let* r := fileread me devsw f n in
      store_user p (snd r) ;;;
      ret (fst r)
  end.

Definition sys_write : M kern Z :=
  let* a := rw_args in
  match a with
  | None => ret (-1)
  | Some (f, n, p) =>
      let* bs := arg (fun pg u => load_ubytes pg u (Z.to_nat n) p) in
      filewrite me devsw f bs n
  end.

Definition sys_close : M kern Z :=
  let* r := argfd 0 in
  match r with
  | None => ret (-1)
  | Some (fd, f) =>
      set_fd fd None ;;;
      fileclose me kend f ;;;
      ret 0
  end.

(** [struct stat] in memory: [short type; int dev; uint ino; short nlink; uint
    size], with the compiler's padding left as it is. *)
Definition STATSIZE : Z := 20.

Definition store_stat (p : Z) (st : stat) : M kern unit :=
  store_user p (le_enc 2 (st_type st)) ;;;
  store_user (u32 (p + 4)) (le_enc 4 (st_dev st)) ;;;
  store_user (u32 (p + 8)) (le_enc 4 (st_ino st)) ;;;
  store_user (u32 (p + 12)) (le_enc 2 (st_nlink st)) ;;;
  store_user (u32 (p + 16)) (le_enc 4 (st_size st)).

Definition sys_fstat : M kern Z :=
  let* r := argfd 0 in
  match r with
  | None => ret (-1)
  | Some (_, f) =>
      let* p := argptr_ 1 STATSIZE in
      match p with
      | None => ret (-1)
      | Some p =>
          let* st := filestat me f in
          match st with
          | Some st => store_stat p st ;;; ret 0
          | None => ret (-1)
          end
      end
  end.

(** ** Paths *)

(** A string argument as the path routines take it, with its final 0. *)
Definition namei_ (path : list Z) : M kern (option nat) :=
  let* c := gets cwdir in on_fs (namei me devsw c (path ++ [0]) 0).

Definition nameiparent_ (path : list Z) : M kern (option nat * list Z) :=
  let* c := gets cwdir in on_fs (nameiparent me devsw c (path ++ [0]) 0 junk).

Definition fail : M kern Z := end_op_ me ;;; ret (-1).

Definition put_fail (ip : nat) : M kern Z := on_fs (iunlockput me ip) ;;; fail.

Definition sys_link : M kern Z :=
  let bad (ip : nat) : M kern Z :=
    on_fs (ilock me (Some ip)) ;;;
    on_fs (upd_inode ip (fun i => with_nlink (i16 (i_nlink i - 1)) i)) ;;;
    on_fs (iupdate me ip) ;;;
    put_fail ip in
  let* old := argstr_ 0 in
  match old with
  | None => ret (-1)
  | Some old =>
  let* new := argstr_ 1 in
  match new with
  | None => ret (-1)
  | Some new =>
      begin_op_ ;;;
      let* o := namei_ old in
      match o with
      | None => fail
      | Some ip =>
          on_fs (ilock me (Some ip)) ;;;
          let* i := on_fs (get_inode ip) in
          if i_type i =? T_DIR then put_fail ip
          else
            on_fs (upd_inode ip (fun i => with_nlink (i16 (i_nlink i + 1)) i)) ;;;
            on_fs (iupdate me ip) ;;;
            on_fs (iunlock me (Some ip)) ;;;
            let* d := nameiparent_ new in
            match d with
            | (None, _) => bad ip
            | (Some dp, name) =>
                on_fs (ilock me (Some dp)) ;;;
                let* dd := on_fs (get_inode dp) in
                let* i := on_fs (get_inode ip) in
                let* linked :=
                  (if negb (i_dev dd =? i_dev i) then ret false
                   else let* r := on_fs (dirlink me devsw dp name (i_inum i)) in ret (0 <=? r)) in
                if negb linked then on_fs (iunlockput me dp) ;;; bad ip
                else
                  on_fs (iunlockput me dp) ;;;
                  on_fs (iput me ip) ;;;
                  end_op_ me ;;;
                  ret 0
            end
      end
  end end.

(** From [off] on; the entries are 16 bytes, so the fuel is enough. *)
Fixpoint isdirempty_loop (fuel : nat) (dp : nat) (off : Z) : M fsys bool :=
  match fuel with
  | O => nofuel
  | S n =>
      let* d := get_inode dp in
      if off <? i_size d then
        let* r := readi me devsw dp off DIRENT in
        if negb (fst r =? DIRENT) then panic "isdirempty: readi"
        else if negb (de_inum (snd r) =? 0) then ret false
        else isdirempty_loop n dp (off + DIRENT)
      else ret true
  end.

Definition isdirempty (dp : nat) : M fsys bool :=
  let* d := get_inode dp in
  isdirempty_loop (S (Z.to_nat (i_size d / DIRENT + 1))) dp (2 * DIRENT).

Definition sys_unlink : M kern Z :=
  let* path := argstr_ 0 in
  match path with
  | None => ret (-1)
  | Some path =>
      begin_op_ ;;;
      let* d := nameiparent_ path in
      match d with
      | (None, _) => fail
      | (Some dp, name) =>
          on_fs (ilock me (Some dp)) ;;;
          let* c1 := lift (namecmp name (codes "." ++ [0])) in
          let* c2 := (if c1 =? 0 then ret 0 else lift (namecmp name (codes ".." ++ [0]))) in
          if (c1 =? 0) || (c2 =? 0) then put_fail dp
          else
            let* e := on_fs (dirlookup me devsw dp name) in
            match e with
            | None => put_fail dp
            | Some (ip, off) =>
                on_fs (ilock me (Some ip)) ;;;
                let* i := on_fs (get_inode ip) in
                if i_nlink i <? 1 then panic "unlink: nlink < 1"
                else
                  let* full := (if i_type i =? T_DIR then let* em := on_fs (isdirempty ip) in ret (negb em) else ret false) in
                  if full : bool then on_fs (iunlockput me ip) ;;; put_fail dp
                  else
                    let* w := on_fs (writei me devsw dp (replicate (Z.to_nat DIRENT) 0) off DIRENT) in
                    if negb (w =? DIRENT) then panic "unlink: writei"
                    else
                      (if i_type i =? T_DIR then
                         on_fs (upd_inode dp (fun d => with_nlink (i16 (i_nlink d - 1)) d)) ;;;
                         on_fs (iupdate me dp)
                       else ret tt) ;;;
                      on_fs (iunlockput me dp) ;;;
                      on_fs (upd_inode ip (fun i => with_nlink (i16 (i_nlink i - 1)) i)) ;;;
                      on_fs (iupdate me ip) ;;;
                      on_fs (iunlockput me ip) ;;;
                      end_op_ me ;;;
                      ret 0
            end
      end
  end.

(** ** create *)

(** The inode is returned locked. *)
Definition create (path : list Z) (type major minor : Z) : M kern (option nat) :=
  let* d := nameiparent_ path in
  match d with
  | (None, _) => ret None
  | (Some dp, name) =>
      on_fs (ilock me (Some dp)) ;;;
      let* e := on_fs (dirlookup me devsw dp name) in
      match e with
      | Some (ip, _) =>
          on_fs (iunlockput me dp) ;;;
          on_fs (ilock me (Some ip)) ;;;
          let* i := on_fs (get_inode ip) in
          if (type =? T_FILE) && (i_type i =? T_FILE) then ret (Some ip)
          else on_fs (iunlockput me ip) ;;; ret None
      | None =>
          let* d := on_fs (get_inode dp) in
          let* ip := on_fs (ialloc me (i_dev d) type) in
          on_fs (ilock me (Some ip)) ;;;
          on_fs (upd_inode ip (fun i => Inode (i_dev i) (i_inum i) (i_ref i) (i_lock i) (i_valid i) (i_type i) major minor 1 (i_size i) (i_addrs i))) ;;;
          on_fs (iupdate me ip) ;;;
          let* i := on_fs (get_inode ip) in
          (if type =? T_DIR then
             on_fs (upd_inode dp (fun d => with_nlink (i16 (i_nlink d + 1)) d)) ;;;
             on_fs (iupdate me dp) ;;;
             let* r1 := on_fs (dirlink me devsw ip (codes "." ++ [0]) (i_inum i)) in
             if r1 <? 0 then panic "create dots"
             else
               let* r2 := on_fs (dirlink me devsw ip (codes ".." ++ [0]) (i_inum d)) in
               if r2 <? 0 then panic "create dots" else ret tt
           else ret tt) ;;;
          let* r := on_fs (dirlink me devsw dp name (i_inum i)) in
          if r <? 0 then panic "create: dirlink"
          else
            on_fs (iunlockput me dp) ;;;
            ret (Some ip)
      end
  end.

(** The part of [sys_open] behind the lookup, with [ip] locked. *)
Definition open_inode_ (ip : nat) (omode : Z) : M kern Z :=
  let* f := filealloc in
  match f with
  | None => put_fail ip
  | Some f =>
      let* fd := fdalloc f in
      match fd with
      | None => fileclose me kend f ;;; put_fail ip
      | Some fd =>
          on_fs (iunlock me (Some ip)) ;;;
          end_op_ me ;;;
          upd_file f (fun x => File FD_INODE (f_ref x) (if Z.land omode O_WRONLY =? 0 then 1 else 0)
            (if (Z.land omode O_WRONLY =? 0) && (Z.land omode O_RDWR =? 0) then 0 else 1) (f_pipe x) ip 0) ;;;
          ret (Z.of_nat fd)
      end
  end.

Definition sys_open : M kern Z :=
  let* path := argstr_ 0 in
  match path with
  | None => ret (-1)
  | Some path =>
  let* omode := argint_ 1 in
  match omode with
  | None => ret (-1)
  | Some omode =>
      begin_op_ ;;;
      if negb (Z.land omode O_CREATE =? 0) then
        let* o := create path T_FILE 0 0 in
        match o with
        | None => fail
        | Some ip => open_inode_ ip omode
        end
      else
        let* o := namei_ path in
        match o with
        | None => fail
        | Some ip =>
            on_fs (ilock me (Some ip)) ;;;
            let* i := on_fs (get_inode ip) in
            if (i_type i =? T_DIR) && negb (omode =? O_RDONLY) then put_fail ip
            else open_inode_ ip omode
        end
  end end.

Definition sys_mkdir : M kern Z :=
  begin_op_ ;;;
  let* path := argstr_ 0 in
  match path with
  | None => fail
  | Some path =>
      let* o := create path T_DIR 0 0 in
      match o with
      | None => fail
      | Some ip =>
          on_fs (iunlockput me ip) ;;;
          end_op_ me ;;;
          ret 0
      end
  end.

Definition sys_mknod : M kern Z :=
  begin_op_ ;;;
  let* path := argstr_ 0 in
  match path with
  | None => fail
  | Some path =>
  let* major := argint_ 1 in
  match major with
  | None => fail
  | Some major =>
  let* minor := argint_ 2 in
  match minor with
  | None => fail
  | Some minor =>
      let* o := create path T_DEV (i16 major) (i16 minor) in
      match o with
      | None => fail
      | Some ip =>
          on_fs (iunlockput me ip) ;;;
          end_op_ me ;;;
          ret 0
      end
  end end end.

Definition sys_chdir : M kern Z :=
  begin_op_ ;;;
  let* path := argstr_ 0 in
  match path with
  | None => fail
  | Some path =>
      let* o := namei_ path in
      match o with
      | None => fail
      | Some ip =>
          on_fs (ilock me (Some ip)) ;;;
          let* i := on_fs (get_inode ip) in
          if negb (i_type i =? T_DIR) then put_fail ip
          else
            on_fs (iunlock me (Some ip)) ;;;
            let* c := gets cwdir in
            on_fs (iput me c) ;;;
            end_op_ me ;;;
            modify (set_cwdir ip) ;;;
            ret 0
      end
  end.

Definition MAXARG : nat := 32.

(** The loop of [sys_exec]: the strings of [argv] from index [i] on. *)
Fixpoint fetch_args (pg : gmap Z (list Z)) (u : uctx) (n : nat) (i uargv : Z) : result (option (list (list Z))) :=
  match n with
  | O => Ok None
  | S n' =>
      let? a := fetchint pg u (u32 (uargv + 4 * i)) in
      match a with
      | None => Ok None
      | Some a =>
          if a =? 0 then Ok (Some [])
          else
            let? s := fetchstr pg u (u32 a) in
            match s with
            | None => Ok None
            | Some s =>
                let? l := fetch_args pg u n' (i + 1) uargv in
                match l with Some l => Ok (Some (s :: l)) | None => Ok None end
            end
      end
  end.

(** [exec] is the routine of [exec.c]. *)
Definition sys_exec (exec : list Z -> list (list Z) -> M kern Z) : M kern Z :=
  let* path := argstr_ 0 in
  match path with
  | None => ret (-1)
  | Some path =>
  let* uargv := argint_ 1 in
  match uargv with
  | None => ret (-1)
  | Some uargv =>
      let* argv := arg (fun pg u => fetch_args pg u MAXARG 0 (u32 uargv)) in
      match argv with
      | None => ret (-1)
      | Some argv => exec path argv
      end
  end end.

Definition sys_pipe : M kern Z :=
  let* p := argptr_ 0 8 in
  match p with
  | None => ret (-1)
  | Some p =>
      let* r := pipealloc me kend in
      match r with
      | None => ret (-1)
      | Some (rf, wf) =>
          let* fd0 := fdalloc rf in
          match fd0 with
          | None => fileclose me kend rf ;;; fileclose me kend wf ;;; ret (-1)
          | Some fd0 =>
              let* fd1 := fdalloc wf in
              match fd1 with
              | None => set_fd fd0 None ;;; fileclose me kend rf ;;; fileclose me kend wf ;;; ret (-1)
              | Some fd1 =>
                  store_user p (le_enc 4 (Z.of_nat fd0)) ;;;
                  store_user (u32 (p + 4)) (le_enc 4 (Z.of_nat fd1)) ;;;
                  ret 0
              end
          end
      end
  end.

End code.
