(* ===== verification/FileProps.v ===== *)
(** * Descriptors, files and pipes: the reference counts

    Any number of processes run the system calls of [sysfile.c] one after
    another, fork and exit.  A file of the table is in use exactly as long as a
    descriptor of some process refers to it, and a pipe, or one end of it, as
    long as there is such a file. *)

From S2P Require Import Prelude Spinlock Mmu Kalloc Console Block Sleeplock Bio Log CString Fs Vm Pipe Syscall File Sysfile.

(** ** The part of the state this is about *)

(** [c] leaves descriptors, files and pipes alone. *)
Definition keeps {A} (c : M kern A) : Prop :=
  forall s r s', c s = Ok (r, s') -> ofile s' = ofile s /\ ftab s' = ftab s /\ pipes s' = pipes s.

Create HintDb files.

Lemma keeps_ret {A} (a : A) : keeps (ret a).
Proof. intros s r s' [=]. by subst. Qed.

Lemma keeps_bind {A B} (c : M kern A) (k : A -> M kern B) : keeps c -> (forall a, keeps (k a)) -> keeps (bind c k).
Proof.
  intros H1 H2 s r s' H. apply bind_inv in H as (a & s1 & Ha & Hk).
  apply H1 in Ha as (? & ? & ?). apply H2 in Hk as (? & ? & ?). split_and!; congruence.
Qed.

Lemma keeps_panic {A} m : keeps (panic m : M kern A).
Proof. by intros s r s'. Qed.

Lemma keeps_fault {A} : keeps (fault : M kern A).
Proof. by intros s r s'. Qed.

Lemma keeps_gets {A} (f : kern -> A) : keeps (gets f).
Proof. intros s r s' [=]. by subst. Qed.

Lemma keeps_lift {A} (x : result A) : keeps (lift x).
Proof. intros s r s'. unfold lift. destruct x; simpl; intros [=]. by subst. Qed.

Lemma keeps_arg {A} (f : gmap Z (list Z) -> uctx -> result A) : keeps (arg f).
Proof. intros s r s'. unfold arg. destruct (f _ _); simpl; intros [=]. by subst. Qed.

Lemma keeps_on_fs {A} (c : M fsys A) : keeps (on_fs c).
Proof. intros s r s'. unfold on_fs, zoom. destruct (c _) as [[??]| | | |]; simpl; intros [=]. by subst. Qed.

Lemma keeps_on_mem {A} (c : M kst A) : keeps (on_mem c).
Proof. intros s r s'. unfold on_mem, zoom. destruct (c _) as [[??]| | | |]; simpl; intros [=]. by subst. Qed.

Lemma keeps_cwd ip : keeps (modify (set_cwdir ip)).
Proof. intros s r s' [=]. by subst. Qed.

Lemma keeps_get_file f : keeps (get_file f).
Proof. intros s r s'. unfold get_file. destruct (ftab s !! f); intros [=]. by subst. Qed.

#[export] Hint Resolve keeps_get_file keeps_ret keeps_panic keeps_fault keeps_gets keeps_lift keeps_arg keeps_on_fs keeps_on_mem keeps_cwd : files.

(** Take a routine apart into the operations of the file system. *)
Ltac keep :=
  repeat first
    [ solve [auto with files]
    | apply keeps_bind; [|intros ?]
    | match goal with |- keeps (match ?x with _ => _ end) => destruct x end
    | match goal with |- keeps (if ?x then _ else _) => destruct x end ].

Section calls.

Context (me kend : Z) (devsw : Z -> devops) (junk : list Z).

Lemma keeps_create path ty ma mi : keeps (create me devsw junk path ty ma mi).
Proof. unfold create, nameiparent_. keep. Qed.

Lemma keeps_path_calls c :
  c ∈ [sys_link me devsw junk; sys_unlink me devsw junk; sys_mkdir me devsw junk; sys_mknod me devsw junk; sys_chdir me devsw; sys_fstat me] -> keeps c.
Proof.
  pose proof keeps_create as Hc. intros H. repeat (apply elem_of_cons in H as [->|H]); [..|by apply elem_of_nil in H].
  all: unfold sys_link, sys_unlink, sys_mkdir, sys_mknod, sys_chdir, sys_fstat, argfd, filestat, store_stat, store_user, namei_, nameiparent_, put_fail, fail,
    begin_op_, end_op_, argstr_, argint_, argptr_; keep.
Qed.

End calls.

Lemma keeps_store_user p l : keeps (store_user p l).
Proof. unfold store_user. keep. Qed.

(** ** Counting references *)

Definition is_ref (f : nat) (o : option nat) : Z := if decide (o = Some f) then 1 else 0.

(** The descriptors of one process, of all processes, that refer to [f]. *)
Fixpoint refs_in (f : nat) (l : list (option nat)) : Z :=
  match l with [] => 0 | o :: l' => is_ref f o + refs_in f l' end.

Fixpoint uses (f : nat) (tabs : list (list (option nat))) : Z :=
  match tabs with [] => 0 | l :: tabs' => refs_in f l + uses f tabs' end.

Lemma is_ref_nonneg f o : 0 <= is_ref f o.
Proof. unfold is_ref. case_decide; lia. Qed.

Lemma refs_in_nonneg f l : 0 <= refs_in f l.
Proof. induction l as [|o l IH]; simpl; [lia|]. pose proof (is_ref_nonneg f o). lia. Qed.

Lemma uses_nonneg f tabs : 0 <= uses f tabs.
Proof. induction tabs as [|l tabs IH]; simpl; [lia|]. pose proof (refs_in_nonneg f l). lia. Qed.

Lemma refs_insert f l i o v : l !! i = Some o -> refs_in f (<[i := v]> l) = refs_in f l - is_ref f o + is_ref f v.
Proof.
  revert i. induction l as [|a l IH]; intros [|i] Hi; simplify_eq/=; [lia|]. rewrite (IH _ Hi). lia.
Qed.

Lemma refs_in_pos f l i : l !! i = Some (Some f) -> 1 <= refs_in f l.
Proof.
  intros Hi. pose proof (refs_insert f l i _ None Hi) as H. pose proof (refs_in_nonneg f (<[i := None]> l)).
  unfold is_ref in H. rewrite decide_True, decide_False in H by done. lia.
Qed.

Lemma uses_pos f tabs l : l ∈ tabs -> Some f ∈ l -> 1 <= uses f tabs.
Proof.
  intros Hl Hf. apply list_elem_of_lookup in Hf as [i Hi]. apply refs_in_pos in Hi. induction tabs as [|l' tabs IH]; simpl; [by apply elem_of_nil in Hl|].
  pose proof (uses_nonneg f tabs). pose proof (refs_in_nonneg f l'). apply elem_of_cons in Hl as [->|Hl]; [lia|]. specialize (IH Hl). lia.
Qed.

Lemma uses_app f t1 t2 : uses f (t1 ++ t2) = uses f t1 + uses f t2.
Proof. induction t1; simpl; lia. Qed.

Lemma refs_none f n : refs_in f (replicate n None) = 0.
Proof. induction n; simpl; auto. Qed.

(** ** The invariant *)

(** [x] is in use as the end of pipe [p] that is written, or read. *)
Definition is_end (x : file) (p : Z) (w : bool) : Prop :=
  0 < f_ref x /\ f_type x = FD_PIPE /\ f_pipe x = p /\ negb (f_writable x =? 0) = w.

Definition end_open (q : pipe) (w : bool) : Prop := (if w then writeopen q else readopen q) <> 0.

(** An end of a pipe is open exactly as long as the one file for it is in use,
    and a pipe with no open end is gone. *)
Record pipes_ok (ft : list file) (ps : gmap Z pipe) : Prop := {
  po_one : forall f g x y p w, ft !! f = Some x -> ft !! g = Some y -> is_end x p w -> is_end y p w -> f = g;
  po_open : forall p w, (exists f x, ft !! f = Some x /\ is_end x p w) <-> exists q, ps !! p = Some q /\ end_open q w;
  po_live : forall p q, ps !! p = Some q -> exists w, end_open q w
}.

(** With [tabs] the descriptor tables of the other processes.  [adj] is what
    the count of a file is ahead of the descriptors, and [new] the files that
    are allocated and not filled in; between calls there is neither. *)
Record files_ok (adj : nat -> Z) (new : list nat) (tabs : list (list (option nat))) (s : kern) : Prop := {
  fi_ref : forall f x, ftab s !! f = Some x -> f_ref x = uses f (ofile s :: tabs) + adj f;
  fi_in : forall f t, t ∈ ofile s :: tabs -> Some f ∈ t -> is_Some (ftab s !! f);
  fi_type : forall f x, ftab s !! f = Some x -> f ∉ new -> (f_type x = FD_NONE <-> f_ref x = 0);
  fi_new : forall f x, ftab s !! f = Some x -> f ∈ new -> f_type x = FD_NONE /\ f_ref x = 1;
  fi_pipes : pipes_ok (ftab s) (pipes s)
}.

Definition none : nat -> Z := fun _ => 0.

Definition bump (f : nat) (d : Z) (adj : nat -> Z) : nat -> Z := fun g => if decide (g = f) then adj g + d else adj g.

Lemma files_ok_ext adj adj' new tabs s : (forall f, adj f = adj' f) -> files_ok adj new tabs s -> files_ok adj' new tabs s.
Proof. intros He [H1 H2 H3 H4 H5]. split; try done. intros f x Hf. rewrite <- He. auto. Qed.

(** For [adj] built up and taken back. *)
Ltac adjust := eapply files_ok_ext; [|eassumption]; intros ?; unfold bump, none; repeat case_decide; subst; try lia; try done.

Lemma files_ok_keep adj new tabs s s' :
  ofile s' = ofile s -> ftab s' = ftab s -> pipes s' = pipes s -> files_ok adj new tabs s -> files_ok adj new tabs s'.
Proof. intros Eo Ef Ep [H1 H2 H3 H4 H5]. split; rewrite ?Eo, ?Ef, ?Ep; auto. Qed.

Lemma keeps_ok {A} (c : M kern A) adj new tabs s r s' :
  keeps c -> c s = Ok (r, s') -> files_ok adj new tabs s -> files_ok adj new tabs s'.
Proof. intros Hk Hr. apply Hk in Hr as (? & ? & ?). by apply files_ok_keep. Qed.

(** ** Single changes *)

(** A file that is the same end of the same pipe as before, or none. *)
Lemma pipes_ok_same ft ps f x x' :
  ft !! f = Some x -> (forall p w, is_end x' p w <-> is_end x p w) -> pipes_ok ft ps -> pipes_ok (<[f := x']> ft) ps.
Proof.
  intros Hf Hx [H1 H2 H3].
  assert (Hl : forall g y p w, <[f := x']> ft !! g = Some y -> is_end y p w -> exists y', ft !! g = Some y' /\ is_end y' p w).
  { intros g y p w Hg He. apply list_lookup_insert_Some in Hg as [(<- & <- & _)|[_ Hg]]; [|eauto]. exists x. by rewrite <- Hx. }
  split; [|intros p w; rewrite <- H2; split|done].
  - intros g h y z p w Hg Hh Hy Hz. destruct (Hl _ _ _ _ Hg Hy) as (y' & ? & ?), (Hl _ _ _ _ Hh Hz) as (z' & ? & ?). eauto.
  - intros (g & y & Hg & He). destruct (Hl _ _ _ _ Hg He) as (y' & ? & ?). eauto.
  - intros (g & y & Hg & He). destruct (decide (g = f)) as [->|Hn]; simplify_eq.
    + exists f, x'. rewrite list_lookup_insert_eq by eauto using lookup_lt_Some. by rewrite Hx.
    + exists g, y. by rewrite list_lookup_insert_ne.
Qed.

Lemma pipes_ok_ref ft ps f x r :
  ft !! f = Some x -> 0 < f_ref x -> 0 < r -> pipes_ok ft ps -> pipes_ok (<[f := with_fref r x]> ft) ps.
Proof. intros Hf Hx Hr. apply pipes_ok_same with x; [done|]. intros p w. unfold is_end. simpl. tauto. Qed.

Lemma pipes_ok_other ft ps f x x' :
  ft !! f = Some x -> (forall p w, ~ is_end x p w) -> (forall p w, ~ is_end x' p w) -> pipes_ok ft ps -> pipes_ok (<[f := x']> ft) ps.
Proof. intros Hf Hx Hx'. apply pipes_ok_same with x; [done|]. intros p w. by split; intros H%Hx || intros H%Hx'. Qed.

(** A pipe with other bytes in it. *)
Lemma pipes_ok_data ft ps p q q' :
  ps !! p = Some q -> readopen q' = readopen q -> writeopen q' = writeopen q -> pipes_ok ft ps -> pipes_ok ft (<[p := q']> ps).
Proof.
  intros Hp Hr Hw [H1 H2 H3]. assert (He : forall w, end_open q' w <-> end_open q w) by (intros []; unfold end_open; by rewrite ?Hr, ?Hw).
  split; [done| |].
  - intros p' w. rewrite H2. split; intros (r & Hr' & Ho).
    + destruct (decide (p' = p)) as [->|Hn]; [|exists r; by rewrite lookup_insert_ne]. simplify_eq. exists q'. by rewrite lookup_insert_eq, He.
    + apply lookup_insert_Some in Hr' as [[<- <-]|[_ Hr']]; [|eauto]. exists q. by rewrite <- He.
  - intros p' r Hr'. apply lookup_insert_Some in Hr' as [[<- <-]|[_ Hr']]; [|eauto]. destruct (H3 _ _ Hp) as [w Ho]. exists w. by rewrite He.
Qed.

Lemma end_has_type x p w : is_end x p w -> f_type x = FD_PIPE.
Proof. by intros (_ & ? & _). Qed.

(** A change of one file, its count by [d]. *)
Lemma files_ok_upd adj new new' tabs s s' f x x' d :
  ftab s !! f = Some x -> ofile s' = ofile s -> ftab s' = <[f := x']> (ftab s) ->
  f_ref x' = f_ref x + d -> (forall g, g <> f -> g ∈ new' <-> g ∈ new) ->
  (f ∉ new' -> f_type x' = FD_NONE <-> f_ref x' = 0) -> (f ∈ new' -> f_type x' = FD_NONE /\ f_ref x' = 1) ->
  pipes_ok (ftab s') (pipes s') ->
  files_ok adj new tabs s -> files_ok (bump f d adj) new' tabs s'.
Proof.
  intros Hf Eo Ef Er Hn Ht Hw Hp [H1 H2 H3 H4 H5].
  assert (Hl : (f < length (ftab s))%nat) by eauto using lookup_lt_Some. split; [..|done]; rewrite ?Eo, ?Ef.
  - intros g y Hg. unfold bump. apply list_lookup_insert_Some in Hg as [(<- & <- & _)|[Hne Hg]].
    + rewrite decide_True by done. rewrite Er, (H1 _ _ Hf). lia.
    + rewrite decide_False by done. auto.
  - intros g t Hin Hg. destruct (H2 g t Hin Hg) as [y Hy]. destruct (decide (g = f)) as [->|Hne].
    + rewrite list_lookup_insert_eq by done. eauto.
    + rewrite list_lookup_insert_ne by done. eauto.
  - intros g y Hg Hgn. apply list_lookup_insert_Some in Hg as [(<- & <- & _)|[Hne Hg]]; [auto|]. apply (H3 g); [done|]. by rewrite <- Hn.
  - intros g y Hg Hgn. apply list_lookup_insert_Some in Hg as [(<- & <- & _)|[Hne Hg]]; [auto|]. apply (H4 g); [done|]. by rewrite <- Hn.
Qed.

(** A change of one descriptor. *)
Lemma files_ok_fd adj new tabs s fd o v :
  ofile s !! fd = Some o -> (forall f, v = Some f -> is_Some (ftab s !! f)) -> files_ok adj new tabs s ->
  files_ok (fun f => adj f + is_ref f o - is_ref f v) new tabs (set_ofile (<[fd := v]> (ofile s)) s).
Proof.
  intros Ho Hv [H1 H2 H3 H4 H5]. split; simpl; try done.
  - intros f x Hf. rewrite (H1 _ _ Hf). simpl. rewrite (refs_insert _ _ _ _ _ Ho). lia.
  - intros f t Hin Hf. apply elem_of_cons in Hin as [->|Hin]; [|apply (H2 f t); [by right|done]].
    apply list_elem_of_lookup in Hf as [i Hi]. apply list_lookup_insert_Some in Hi as [(_ & Hi & _)|[_ Hi]]; [by apply Hv|].
    apply (H2 f (ofile s)); [by left|]. by apply list_elem_of_lookup_2 in Hi.
Qed.

(** ** The operations of [file.c] *)

Lemma free_file_spec l i k : free_file l i = Some k -> exists j x, k = (i + j)%nat /\ l !! j = Some x /\ f_ref x = 0.
Proof.
  revert i. induction l as [|x l IH]; intros i; simpl; [done|]. destruct (f_ref x =? 0) eqn:Ex.
  - intros [= <-]. exists 0%nat, x. split_and!; [lia|done|lia].
  - intros H. destruct (IH _ H) as (j & y & -> & ? & ?). exists (S j), y. split_and!; [lia|done|done].
Qed.

Lemma upd_file_inv f g s r s' : upd_file f g s = Ok (r, s') -> exists x, ftab s !! f = Some x /\ s' = set_ftab (<[f := g x]> (ftab s)) s.
Proof. unfold upd_file. destruct (ftab s !! f) as [x|]; intros [=]. eauto. Qed.

Lemma get_file_inv f s x s' : get_file f s = Ok (x, s') -> ftab s !! f = Some x /\ s' = s.
Proof. unfold get_file. destruct (ftab s !! f) as [y|]; intros [=]. by subst. Qed.

Lemma filealloc_ok adj new tabs s r s' :
  filealloc s = Ok (r, s') -> files_ok adj new tabs s ->
  match r with
  | Some f => f ∉ new /\ is_Some (ftab s' !! f) /\ files_ok (bump f 1 adj) (f :: new) tabs s' /\ ofile s' = ofile s /\ pipes s' = pipes s /\ mem s' = mem s
  | None => s' = s
  end.
Proof.
  unfold filealloc. intros H Hok. apply bind_inv in H as (l & s1 & [= <- <-] & H).
  destruct (free_file (ftab s) 0) as [f|] eqn:Ef; [|by inv_ok H]. apply bind_inv in H as ([] & s1 & H & [= <- <-]).
  apply free_file_spec in Ef as (j & x & -> & Hx & Hr). simpl in *. apply upd_file_inv in H as (y & Hy & ->). simplify_eq.
  assert (Hj : j ∉ new). { intros Hj. destruct (fi_new _ _ _ _ Hok _ _ Hx Hj). lia. }
  pose proof (proj2 (fi_type _ _ _ _ Hok _ _ Hx Hj) Hr) as Ht.
  split_and!; [done|simpl; rewrite list_lookup_insert_eq by eauto using lookup_lt_Some; eauto| |done..].
  eapply (files_ok_upd adj new); [exact Hx|done|done|simpl; lia|set_solver|simpl; set_solver|by intros _; split; [exact Ht|]| |done].
  simpl. eapply pipes_ok_other; [exact Hx| | |apply (fi_pipes _ _ _ _ Hok)]; intros p w He; apply end_has_type in He; simpl in *; congruence.
Qed.

Lemma filedup_ok adj new tabs s f r s' :
  filedup f s = Ok (r, s') -> f ∉ new -> files_ok adj new tabs s -> files_ok (bump f 1 adj) new tabs s' /\ ofile s' = ofile s.
Proof.
  unfold filedup. intros H Hn Hok. apply bind_inv in H as (x & s1 & Hx & H). apply get_file_inv in Hx as [Hx ->].
  destruct (f_ref x <? 1) eqn:Er; [done|].
  apply bind_inv in H as ([] & s1 & H & [= <- <-]). apply upd_file_inv in H as (y & Hy & ->). simplify_eq.
  split; [|done]. eapply (files_ok_upd adj new); [exact Hx|done|done|done|done| |done| |done].
  - intros _. simpl. rewrite (fi_type _ _ _ _ Hok _ _ Hx Hn). lia.
  - simpl. apply pipes_ok_ref; [done|lia|lia|apply (fi_pipes _ _ _ _ Hok)].
Qed.

(** The last reference to an end of a pipe goes. *)
Lemma close_end_file ft ps f x x' p w :
  ft !! f = Some x -> is_end x p w -> f_ref x' = 0 -> pipes_ok ft ps ->
  forall p' w', (exists g y, <[f := x']> ft !! g = Some y /\ is_end y p' w') <-> (exists g y, ft !! g = Some y /\ is_end y p' w') /\ (p', w') <> (p, w).
Proof.
  intros Hf He Hx' Hok p' w'. split.
  - intros (g & y & Hg & Hy). apply list_lookup_insert_Some in Hg as [(<- & <- & _)|[Hne Hg]]; [destruct Hy; lia|].
    split; [eauto|]. intros [= -> ->]. apply Hne. by eapply po_one.
  - intros [(g & y & Hg & Hy) Hne]. exists g, y. split; [|done]. rewrite list_lookup_insert_ne; [done|].
    intros ->. simplify_eq. apply Hne. destruct He as (_ & _ & <- & <-), Hy as (_ & _ & <- & <-). done.
Qed.

Lemma close_end_pipe (ps : gmap Z pipe) p w q q' l (gone : bool) :
  ps !! p = Some q -> pipeclose w q = (q', l, gone) ->
  forall p' w', (exists r, (if gone then delete p ps else <[p := q']> ps) !! p' = Some r /\ end_open r w') <->
    (exists r, ps !! p' = Some r /\ end_open r w') /\ (p', w') <> (p, w).
Proof.
  intros Hq Hc p' w'. assert (Hopen : end_open q' w' <-> end_open q w' /\ w' <> w).
  { unfold pipeclose in Hc. destruct w; simplify_eq; unfold end_open; destruct w'; simpl; split; try (intros [? ?]); try done; split; try done; lia. }
  assert (Hgone : gone = true -> ~ end_open q' w').
  { unfold pipeclose in Hc. destruct w; simplify_eq; unfold end_open; destruct w'; simpl; lia. }
  destruct (decide (p' = p)) as [->|Hne].
  - assert (Hr : (exists r, (if gone then delete p ps else <[p := q']> ps) !! p = Some r /\ end_open r w') <-> gone = false /\ end_open q' w').
    { destruct gone; [rewrite lookup_delete_eq|rewrite lookup_insert_eq]; (split; [intros (r & ? & ?)|intros [? ?]]); simplify_eq; eauto. }
    rewrite Hr, Hopen. split.
    + intros (_ & ? & ?). split; [eauto|congruence].
    + intros [(r & Hr' & He) Hw]. simplify_eq. assert (w' <> w) by congruence. split_and!; [|done..]. destruct gone; [|done]. tauto.
  - destruct gone; [rewrite lookup_delete_ne by done|rewrite lookup_insert_ne by done]; (split; [intros H; split; [done|congruence]|by intros [? _]]).
Qed.

Lemma pipes_ok_close ft ps f x x' p w q q' l (gone : bool) :
  ft !! f = Some x -> is_end x p w -> f_ref x' = 0 -> ps !! p = Some q -> pipeclose w q = (q', l, gone) -> pipes_ok ft ps ->
  pipes_ok (<[f := x']> ft) (if gone then delete p ps else <[p := q']> ps).
Proof.
  intros Hf He Hx' Hq Hc Hok. split.
  - intros g h y z p' w' Hg Hh Hy Hz.
    apply list_lookup_insert_Some in Hg as [(<- & <- & _)|[_ Hg]]; [destruct Hy; lia|].
    apply list_lookup_insert_Some in Hh as [(<- & <- & _)|[_ Hh]]; [destruct Hz; lia|]. by eapply (po_one _ _ Hok).
  - intros p' w'. rewrite (close_end_file ft ps f x x' p w), (close_end_pipe ps p w q q' l gone), (po_open _ _ Hok); done.
  - intros p' r Hr. destruct gone; [apply lookup_delete_Some in Hr as [_ Hr]; by apply (po_live _ _ Hok p')|].
    apply lookup_insert_Some in Hr as [[<- <-]|[_ Hr]]; [|by apply (po_live _ _ Hok p')].
    unfold pipeclose in Hc. destruct w; simplify_eq; [exists false|exists true]; unfold end_open; simpl in *; lia.
Qed.

Section ops.

Context (me kend : Z) (devsw : Z -> devops) (junk : list Z).

Lemma pipeclose_inv p w s r s' :
  pipeclose_ kend p w s = Ok (r, s') ->
  exists q q' l gone, pipes s !! p = Some q /\ pipeclose w q = (q', l, gone) /\ ofile s' = ofile s /\ ftab s' = ftab s /\
    pipes s' = (if gone : bool then delete p (pipes s) else <[p := q']> (pipes s)).
Proof.
  unfold pipeclose_. intros H. apply bind_inv in H as (q & s1 & Hq & H). unfold get_pipe in Hq.
  destruct (pipes s !! p) as [q0|] eqn:Ep; [|done]. injection Hq as -> <-. exists q.
  destruct (pipeclose w q) as [[q' l] gone] eqn:Ec. exists q', l, gone. apply bind_inv in H as ([] & s2 & [= <-] & H).
  destruct gone.
  - apply bind_inv in H as ([] & s3 & [= <-] & H). apply keeps_on_mem in H as (-> & -> & ->). done.
  - injection H as _ <-. done.
Qed.

Lemma fileclose_ok adj new tabs s f r s' :
  fileclose me kend f s = Ok (r, s') -> files_ok adj new tabs s ->
  files_ok (bump f (-1) adj) (filter (.≠ f) new) tabs s' /\ ofile s' = ofile s.
Proof.
  clear devsw junk. unfold fileclose. intros H Hok. apply bind_inv in H as (x & s1 & Hx & H). apply get_file_inv in Hx as [Hx ->].
  destruct (f_ref x <? 1) eqn:E1; [done|]. cbv zeta in H.
  assert (Hn : forall g, g <> f -> g ∈ filter (.≠ f) new <-> g ∈ new) by (intros g; rewrite list_elem_of_filter; tauto).
  assert (Hf : f ∉ filter (.≠ f) new) by (rewrite list_elem_of_filter; tauto).
  destruct (0 <? f_ref x - 1) eqn:E2.
  - apply upd_file_inv in H as (y & Hy & ->). simplify_eq. split; [|done].
    assert (f ∉ new). { intros Hin. destruct (fi_new _ _ _ _ Hok _ _ Hx Hin). lia. }
    eapply (files_ok_upd adj new); [exact Hx|done|done|done|done| |done| |done].
    + intros _. simpl. rewrite (fi_type _ _ _ _ Hok _ _ Hx) by done. lia.
    + simpl. apply pipes_ok_ref; [done|lia|lia|apply (fi_pipes _ _ _ _ Hok)].
  - apply bind_inv in H as ([] & s1 & Hu & H). apply upd_file_inv in Hu as (y & Hy & ->). simplify_eq. simpl in H.
    assert (Hfin : forall s', ofile s' = ofile s -> ftab s' = <[f := File FD_NONE 0 (f_readable x) (f_writable x) (f_pipe x) (f_ip x) (f_off x)]> (ftab s) ->
        pipes_ok (ftab s') (pipes s') -> files_ok (bump f (-1) adj) (filter (.≠ f) new) tabs s' /\ ofile s' = ofile s).
    { intros t Ho Ef Hp. split; [|done]. eapply (files_ok_upd adj new); [exact Hx|done|done|simpl; lia|done|done|done|done|done]. }
    pose proof (fi_pipes _ _ _ _ Hok) as Hp. destruct (f_type x) eqn:Et.
    2: { apply pipeclose_inv in H as (q & q' & l & gone & Hq & Hc & ? & Ef & Ep). apply Hfin; [done|done|]. rewrite Ef, Ep.
         eapply pipes_ok_close; [exact Hx| |done|done|exact Hc|done]. split_and!; [lia|done..]. }
    all: match type of H with ?c _ = _ => assert (Hk : keeps c) by (unfold begin_op_, end_op_; keep) end; apply Hk in H;
      destruct H as (? & Ef & Ep); apply Hfin; [done|done|]; rewrite Ef, Ep;
      eapply pipes_ok_other; [exact Hx| | |done]; intros p w He; apply end_has_type in He; simpl in He; congruence.
Qed.

(** ** Reading and writing *)

Lemma put_opens c q q' : put c q = Ok q' -> readopen q' = readopen q /\ writeopen q' = writeopen q.
Proof. unfold put. case_decide; intros [=]. by subst. Qed.

Lemma pipewrite_opens k n rest q q' e l :
  pipewrite_seg k n rest q = Ok (q', e, l) -> readopen q' = readopen q /\ writeopen q' = writeopen q.
Proof.
  revert q. induction rest as [|c rest IH]; intros q; simpl; [intros [=]; by subst|].
  destruct (full q).
  - destruct (_ || _); intros [=]; by subst.
  - intros H. apply rbind_inv in H as (q1 & Hp & H). apply put_opens in Hp as [<- <-]. auto.
Qed.

Lemma piperead_copy_opens n q l q' : piperead_copy n q = Ok (l, q') -> readopen q' = readopen q /\ writeopen q' = writeopen q.
Proof.
  revert q l. induction n as [|n IH]; intros q l; simpl; [intros [=]; by subst|]. destruct (empty q); [intros [=]; by subst|].
  intros H. apply rbind_inv in H as ([c q1] & Ht & H). apply rbind_inv in H as ([l1 q2] & Hc & [= <- <-]).
  apply IH in Hc as [-> ->]. unfold take_byte in Ht. destruct (data q !! _); simplify_eq. done.
Qed.

Lemma piperead_opens k n q q' e w l : piperead k n q = Ok (q', e, w, l) -> readopen q' = readopen q /\ writeopen q' = writeopen q.
Proof.
  unfold piperead, piperead_seg. destruct (_ && _); [destruct k; intros [=]; by subst|].
  intros H. apply rbind_inv in H as ([l1 q1] & Hc & [= <- <- <- <-]). by apply piperead_copy_opens in Hc.
Qed.

Lemma files_ok_pipes adj new tabs s s' :
  ofile s' = ofile s -> ftab s' = ftab s -> pipes_ok (ftab s) (pipes s') -> files_ok adj new tabs s -> files_ok adj new tabs s'.
Proof. intros Eo Ef Hp [H1 H2 H3 H4 H5]. split; rewrite ?Eo, ?Ef; auto. Qed.

Lemma piperead_ok adj new tabs p n s r s' : piperead_ p n s = Ok (r, s') -> files_ok adj new tabs s -> files_ok adj new tabs s'.
Proof.
  unfold piperead_. intros H Hok. apply bind_inv in H as (q & s1 & Hq & H). unfold get_pipe in Hq.
  destruct (pipes s !! p) as [q0|] eqn:Ep; [|done]. injection Hq as -> <-.
  apply bind_inv in H as (k & s1 & [= <- <-] & H). apply bind_inv in H as ([[[q' e] w] l] & s1 & Hr & H).
  apply rbind_inv in Hr as (y & Hr & [= -> <-]). apply piperead_opens in Hr as [Ho1 Ho2].
  apply bind_inv in H as ([] & s1 & [= <-] & H). apply bind_inv in H as ([] & s2 & [= <-] & H).
  destruct e; [done|]. injection H as _ <-. apply (files_ok_pipes _ _ _ s); [done|done| |done]. simpl.
  eapply pipes_ok_data; eauto. apply (fi_pipes _ _ _ _ Hok).
Qed.

Lemma pipewrite_ok adj new tabs p l s r s' : pipewrite_ p l s = Ok (r, s') -> files_ok adj new tabs s -> files_ok adj new tabs s'.
Proof.
  unfold pipewrite_. intros H Hok. apply bind_inv in H as (q & s1 & Hq & H). unfold get_pipe in Hq.
  destruct (pipes s !! p) as [q0|] eqn:Ep; [|done]. injection Hq as -> <-.
  apply bind_inv in H as (k & s1 & [= <- <-] & H). apply bind_inv in H as ([[q' e] w] & s1 & Hr & H).
  apply rbind_inv in Hr as (y & Hr & [= -> <-]). apply pipewrite_opens in Hr as [Ho1 Ho2].
  apply bind_inv in H as ([] & s1 & [= <-] & H). apply bind_inv in H as ([] & s2 & [= <-] & H).
  destruct e; [done|]. injection H as _ <-. apply (files_ok_pipes _ _ _ s); [done|done| |done]. simpl.
  eapply pipes_ok_data; eauto. apply (fi_pipes _ _ _ _ Hok).
Qed.

(** [f->off += r] *)
Lemma advance_ok adj new tabs f (b : bool) n s r s' :
  (if b then upd_file f (fun x => with_foff (u32 (f_off x + n)) x) else ret tt) s = Ok (r, s') -> files_ok adj new tabs s -> files_ok adj new tabs s'.
Proof.
  destruct b; [|intros [=]; by subst]. intros H Hok. apply upd_file_inv in H as (x & Hx & ->).
  assert (files_ok (bump f 0 adj) new tabs (set_ftab (<[f := with_foff (u32 (f_off x + n)) x]> (ftab s)) s)).
  { eapply (files_ok_upd adj new); [exact Hx|done|done|simpl; lia|done|exact (fi_type _ _ _ _ Hok _ _ Hx)|exact (fi_new _ _ _ _ Hok _ _ Hx)| |done].
    eapply pipes_ok_same; [exact Hx|done|apply (fi_pipes _ _ _ _ Hok)]. }
  adjust.
Qed.

(** A run of [c] keeps the invariant, in the middle of a call as well. *)
Definition keeps_files {A} (c : M kern A) : Prop :=
  forall adj new tabs s r s', c s = Ok (r, s') -> files_ok adj new tabs s -> files_ok adj new tabs s'.

Lemma keeps_files_keeps {A} (c : M kern A) : keeps c -> keeps_files c.
Proof. intros Hk adj new tabs s r s'. by apply keeps_ok. Qed.

Lemma keeps_files_bind {A B} (c : M kern A) (k : A -> M kern B) : keeps_files c -> (forall a, keeps_files (k a)) -> keeps_files (bind c k).
Proof. intros H1 H2 adj new tabs s r s' H Hok. apply bind_inv in H as (a & s1 & Ha & Hb). eapply H2, H1; eauto. Qed.

Lemma keeps_files_nofuel {A} : keeps_files (nofuel : M kern A).
Proof. by intros adj new tabs s r s'. Qed.

Ltac keepf :=
  repeat first
    [ solve [apply keeps_files_keeps; auto with files]
    | solve [intros ??????; apply advance_ok]
    | solve [intros ??????; apply piperead_ok]
    | solve [intros ??????; apply pipewrite_ok]
    | apply keeps_files_bind; [|intros ?]
    | match goal with |- keeps_files (match ?x with _ => _ end) => destruct x end
    | match goal with |- keeps_files (if ?x then _ else _) => destruct x end ].

Lemma filewrite_loop_ok fuel f l n i : keeps_files (filewrite_loop me devsw fuel f l n i).
Proof.
  revert i. induction fuel as [|fuel IH]; intros i; simpl; [apply keeps_files_nofuel|].
  unfold begin_op_, end_op_. keepf. apply IH.
Qed.

Lemma sys_read_ok : keeps_files (sys_read me devsw).
Proof. unfold sys_read, rw_args, argfd, argint_, argptr_, fileread, store_user. keepf. Qed.

Lemma sys_write_ok : keeps_files (sys_write me devsw).
Proof. unfold sys_write, rw_args, argfd, argint_, argptr_, filewrite. keepf. apply filewrite_loop_ok. Qed.

(** ** Opening and closing descriptors *)

Lemma free_fd_spec l i k : free_fd l i = Some k -> exists j, k = (i + j)%nat /\ l !! j = Some None.
Proof.
  revert i. induction l as [|[f|] l IH]; intros i; simpl; [done| |].
  - intros H. destruct (IH _ H) as (j & -> & ?). exists (S j). split; [lia|done].
  - intros [= <-]. exists 0%nat. split; [lia|done].
Qed.

Lemma fdalloc_ok adj new tabs f s r s' :
  fdalloc f s = Ok (r, s') -> is_Some (ftab s !! f) -> files_ok adj new tabs s ->
  match r with
  | Some fd => ofile s !! fd = Some None /\ s' = set_ofile (<[fd := Some f]> (ofile s)) s /\ files_ok (bump f (-1) adj) new tabs s'
  | None => s' = s
  end.
Proof.
  unfold fdalloc. intros H Hf Hok. apply bind_inv in H as (l & s1 & [= <- <-] & H).
  destruct (free_fd _ 0) as [fd|] eqn:Ef; [|by injection H as <- <-]. apply bind_inv in H as ([] & s1 & [= <-] & [= <- <-]).
  apply free_fd_spec in Ef as (j & -> & Hj). apply lookup_take_Some in Hj as [Hj _]. simpl. split_and!; [done|done|].
  assert (Hok' := Hok). apply (files_ok_fd _ _ _ _ j None (Some f) Hj) in Hok'; [|by intros ? [= <-]].
  eapply files_ok_ext; [|exact Hok']. intros g. unfold bump, is_ref. rewrite decide_False by done. repeat case_decide; simplify_eq; lia.
Qed.

Lemma clear_fd_ok adj new tabs fd f s :
  ofile s !! fd = Some (Some f) -> files_ok adj new tabs s -> files_ok (bump f 1 adj) new tabs (set_ofile (<[fd := None]> (ofile s)) s).
Proof.
  intros Hfd Hok. apply (files_ok_fd _ _ _ _ fd _ None Hfd) in Hok; [|done]. eapply files_ok_ext; [|exact Hok].
  intros g. unfold bump, is_ref. rewrite (decide_False (P := None = Some g)) by done. repeat case_decide; simplify_eq; lia.
Qed.

Lemma argfd_inv n s r s' :
  argfd n s = Ok (r, s') -> s' = s /\ forall fd f, r = Some (fd, f) -> ofile s !! fd = Some (Some f).
Proof.
  unfold argfd. intros H. apply bind_inv in H as (o & s1 & Ho & H). unfold argint_, arg in Ho.
  apply rbind_inv in Ho as (o' & _ & [= -> <-]). destruct o as [fd|]; [|by injection H as <- <-].
  apply bind_inv in H as (l & s1 & [= <- <-] & H). destruct (_ || _); [by injection H as <- <-|].
  destruct (ofile s !! Z.to_nat fd) as [[f|]|] eqn:E; [injection H as <- <-; split; [done|by intros ? ? [= <- <-]]|by injection H as <- <-|done].
Qed.

(** A file that a descriptor refers to. *)
Lemma fd_file adj new tabs s fd f : files_ok adj new tabs s -> ofile s !! fd = Some (Some f) -> is_Some (ftab s !! f).
Proof. intros Hok Hf. eapply (fi_in _ _ _ _ Hok f (ofile s)); [by left|]. by apply list_elem_of_lookup_2 in Hf. Qed.

Lemma sys_dup_ok tabs s r s' : sys_dup s = Ok (r, s') -> files_ok none [] tabs s -> files_ok none [] tabs s'.
Proof.
  unfold sys_dup. intros H Hok. apply bind_inv in H as (o & s1 & Ho & H). apply argfd_inv in Ho as [-> Ho].
  destruct o as [[fd f]|]; [|by injection H as <- <-]. specialize (Ho _ _ eq_refl). apply bind_inv in H as (o & s1 & Hd & H).
  apply (fdalloc_ok none [] tabs) in Hd; [|by eapply fd_file|done]. destruct o as [fd'|]; [|subst; by injection H as <- <-].
  destruct Hd as (_ & _ & Hd). apply bind_inv in H as (? & s2 & H & [= <- <-]).
  eapply filedup_ok in H as [H _]; [|by apply not_elem_of_nil|exact Hd]. adjust.
Qed.

Lemma sys_close_ok tabs s r s' : sys_close me kend s = Ok (r, s') -> files_ok none [] tabs s -> files_ok none [] tabs s'.
Proof.
  unfold sys_close. intros H Hok. apply bind_inv in H as (o & s1 & Ho & H). apply argfd_inv in Ho as [-> Ho].
  destruct o as [[fd f]|]; [|by injection H as <- <-]. specialize (Ho _ _ eq_refl). apply bind_inv in H as ([] & s1 & [= <-] & H).
  apply bind_inv in H as ([] & s2 & H & [= <- <-]). eapply fileclose_ok in H as [H _]; [|by apply clear_fd_ok]. adjust.
Qed.

Lemma keeps_put_fail ip : keeps (put_fail me ip).
Proof. unfold put_fail, fail, end_op_. keep. Qed.

Lemma open_inode_ok ip omode tabs s r s' : open_inode_ me kend ip omode s = Ok (r, s') -> files_ok none [] tabs s -> files_ok none [] tabs s'.
Proof.
  unfold open_inode_. intros H Hok. apply bind_inv in H as (o & s1 & Hf & H). apply (filealloc_ok none [] tabs) in Hf; [|done].
  destruct o as [f|]; [|subst; eapply keeps_ok; [apply keeps_put_fail|exact H|done]].
  destruct Hf as (_ & Hex & Hf & Hof & _). apply bind_inv in H as (o & s2 & Hd & H). eapply fdalloc_ok in Hd; [|done|exact Hf].
  destruct o as [fd|].
  - destruct Hd as (_ & -> & Hd). apply bind_inv in H as ([] & s3 & H1 & H). eapply keeps_ok in Hd; [|apply keeps_on_fs|exact H1].
    apply bind_inv in H as ([] & s4 & H2 & H). eapply keeps_ok in Hd; [|apply keeps_on_fs|exact H2].
    apply bind_inv in H as ([] & s5 & H3 & [= <- <-]). apply upd_file_inv in H3 as (x & Hx & ->).
    destruct (fi_new _ _ _ _ Hd _ _ Hx) as [Ht Hr]; [by left|].
    eapply files_ok_ext; [|eapply (files_ok_upd _ [f] [] tabs s4 _ f x _ 0); [exact Hx|done|done|simpl; lia|set_solver|intros _; simpl; split; [done|lia]|by intros ?%not_elem_of_nil| |exact Hd]].
    + intros g. unfold bump, none. repeat case_decide; subst; lia.
    + simpl. eapply pipes_ok_other; [exact Hx| | |apply (fi_pipes _ _ _ _ Hd)]; intros p w He; apply end_has_type in He; simpl in He; congruence.
  - subst. apply bind_inv in H as ([] & s2 & H1 & H). eapply fileclose_ok in H1 as [H1 _]; [|exact Hf].
    eapply keeps_ok in H1; [|apply keeps_put_fail|exact H]. rewrite filter_cons_False in H1 by tauto. adjust.
Qed.

Lemma sys_open_ok tabs s r s' : sys_open me kend devsw junk s = Ok (r, s') -> files_ok none [] tabs s -> files_ok none [] tabs s'.
Proof.
  unfold sys_open. intros H Hok.
  assert (Hk : forall A (c : M kern A) k s, keeps c -> (forall a s1, k a s1 = Ok (r, s') -> files_ok none [] tabs s1 -> files_ok none [] tabs s') ->
    bind c k s = Ok (r, s') -> files_ok none [] tabs s -> files_ok none [] tabs s').
  { intros A c k t Hc Hn Hr Ht. apply bind_inv in Hr as (a & s1 & Ha & Hr). eapply Hn; [exact Hr|]. by eapply keeps_ok. }
  assert (Hp : forall A (c : M kern A) s1 v, keeps c -> c s1 = Ok (v, s') -> files_ok none [] tabs s1 -> files_ok none [] tabs s') by (intros; by eapply keeps_ok).
  revert H Hok. unfold argstr_, argint_, fail, namei_. apply Hk; [apply keeps_arg|]. intros [path|] s1; [|by apply Hp; keep].
  apply Hk; [apply keeps_arg|]. intros [omode|] s2; [|by apply Hp; keep]. apply Hk; [unfold begin_op_; keep|]. intros _ s3.
  destruct (negb _).
  - apply Hk; [apply keeps_create|]. intros [ip|] s4; [apply open_inode_ok|]. apply Hp. unfold end_op_. keep.
  - apply Hk; [keep|]. intros [ip|] s4; [|apply Hp; unfold end_op_; keep]. apply Hk; [keep|]. intros _ s5. apply Hk; [keep|]. intros i s6.
    destruct (_ && _); [apply Hp, keeps_put_fail|apply open_inode_ok].
Qed.

(** The two files of a new pipe. *)
Lemma pipes_ok_new ft ps a b x y p q :
  a <> b -> ft !! a = Some x -> ft !! b = Some y -> f_type x = FD_NONE -> f_type y = FD_NONE -> 0 < f_ref x -> 0 < f_ref y ->
  ps !! p = None -> readopen q = 1 -> writeopen q = 1 -> pipes_ok ft ps ->
  pipes_ok (<[b := file_as_pipe 0 1 p y]> (<[a := file_as_pipe 1 0 p x]> ft)) (<[p := q]> ps).
Proof.
  intros Hab Ha Hb Tx Ty Rx Ry Hp Hr Hw [H1 H2 H3].
  set (ft' := <[b := file_as_pipe 0 1 p y]> (<[a := file_as_pipe 1 0 p x]> ft)).
  assert (Hl : forall g z p' w, ft' !! g = Some z /\ is_end z p' w <->
     (p' = p /\ ((g = a /\ w = false /\ z = file_as_pipe 1 0 p x) \/ (g = b /\ w = true /\ z = file_as_pipe 0 1 p y))) \/ (p' <> p /\ ft !! g = Some z /\ is_end z p' w)).
  { intros g z p' w. assert (Hnp : forall h u v, ft !! h = Some u -> ~ is_end u p v).
    { intros h u v Hh Hu. destruct (proj1 (H2 p v)) as (? & ? & _); [eauto|congruence]. }
    assert (Hla : (a < length ft)%nat) by eauto using lookup_lt_Some. assert (Hlb : (b < length ft)%nat) by eauto using lookup_lt_Some.
    unfold ft'. split.
    - intros [Hg He]. apply list_lookup_insert_Some in Hg as [(<- & <- & _)|[Hgb Hg]]; [destruct He as (_ & _ & <- & <-); left; simpl; auto|].
      apply list_lookup_insert_Some in Hg as [(<- & <- & _)|[Hga Hg]]; [destruct He as (_ & _ & <- & <-); left; simpl; auto|].
      right. split_and!; [|done..]. intros ->. by eapply Hnp.
    - intros [(-> & [(-> & -> & ->)|(-> & -> & ->)])|(Hne & Hg & He)].
      + rewrite list_lookup_insert_ne, list_lookup_insert_eq by done. by repeat split.
      + rewrite list_lookup_insert_eq by (by rewrite length_insert). by repeat split.
      + pose proof (end_has_type _ _ _ He). rewrite !list_lookup_insert_ne; [done|..]; intros ->; congruence. }
  split.
  - intros f g u v p' w Hf Hg Hu Hv. pose proof (proj1 (Hl _ _ _ _) (conj Hf Hu)) as K1. pose proof (proj1 (Hl _ _ _ _) (conj Hg Hv)) as K2.
    destruct K1 as [(-> & K1)|(? & ? & ?)], K2 as [(? & K2)|(? & ? & ?)]; try done; [|by eapply H1]. naive_solver.
  - intros p' w. destruct (decide (p' = p)) as [->|Hne].
    + rewrite lookup_insert_eq. split; [intros _; exists q; split; [done|destruct w; unfold end_open; lia]|]. intros _.
      destruct w; [exists b, (file_as_pipe 0 1 p y)|exists a, (file_as_pipe 1 0 p x)]; apply Hl; naive_solver.
    + rewrite lookup_insert_ne, <- H2 by done. split; intros (g & z & K); exists g, z; [apply Hl in K; naive_solver|apply Hl; naive_solver].
  - intros p' r Hr'. apply lookup_insert_Some in Hr' as [[<- <-]|[_ Hr']]; [|eauto]. exists true. unfold end_open. lia.
Qed.

(** Files that were allocated are filled in. *)
Lemma files_ok_fill adj new new' tabs s s' :
  ofile s' = ofile s -> (forall f, is_Some (ftab s !! f) -> is_Some (ftab s' !! f)) ->
  (forall f x', ftab s' !! f = Some x' -> exists x, ftab s !! f = Some x /\ f_ref x' = f_ref x /\
     ((f_type x' = f_type x /\ (f ∈ new' <-> f ∈ new)) \/ (f ∈ new /\ f ∉ new' /\ f_type x' <> FD_NONE))) ->
  pipes_ok (ftab s') (pipes s') -> files_ok adj new tabs s -> files_ok adj new' tabs s'.
Proof.
  intros Eo Hd Hx Hp [H1 H2 H3 H4 H5]. split; [..|done]; rewrite ?Eo.
  - intros f x' Hf. destruct (Hx _ _ Hf) as (x & Hf' & -> & _). auto.
  - intros f t Hin Hf. apply Hd. eauto.
  - intros f x' Hf Hn. destruct (Hx _ _ Hf) as (x & Hf' & -> & [[-> Hi]|(Hi & _ & Ht)]); [apply (H3 f); [done|by rewrite <- Hi]|].
    destruct (H4 _ _ Hf' Hi) as [_ ->]. by split.
  - intros f x' Hf Hn. destruct (Hx _ _ Hf) as (x & Hf' & -> & [[-> Hi]|(_ & Hi & _)]); [apply (H4 f); [done|by rewrite <- Hi]|done].
Qed.

(** A page that [kalloc] hands out is not that of a pipe. *)
Definition page_is_new (s : kern) : Prop := forall p s', on_mem kalloc s = Ok (p, s') -> p = 0 \/ pipes s !! p = None.

(** So it is when the pages of pipes are not on the free list. *)
Lemma free_page_is_new s free : kmem_rep kend (mem s) free -> (forall p, is_Some (pipes s !! p) -> p ∉ free) -> page_is_new s.
Proof.
  intros Hr Hf p s'. unfold on_mem, zoom. destruct free as [|x free].
  - destruct (kalloc_none_ok kend _ Hr) as (k & -> & _). intros [= <- _]. by left.
  - destruct (kalloc_some_ok kend _ _ _ Hr) as (k & -> & _). intros [= <- _]. right. apply eq_None_not_Some. intros Hp.
    apply (Hf x Hp). by left.
Qed.

Lemma pipealloc_ok tabs s r s' :
  pipealloc me kend s = Ok (r, s') -> page_is_new s -> files_ok none [] tabs s ->
  match r with
  | Some (a, b) => a <> b /\ is_Some (ftab s' !! a) /\ is_Some (ftab s' !! b) /\ ofile s' = ofile s /\ files_ok (bump b 1 (bump a 1 none)) [] tabs s'
  | None => files_ok none [] tabs s'
  end.
Proof.
  unfold pipealloc. intros H Hnew Hok. apply bind_inv in H as (o & s1 & Ha & H). apply (filealloc_ok none [] tabs) in Ha; [|done].
  destruct o as [a|]; [|subst; by injection H as <- <-]. destruct Ha as (_ & Hea & Ha & Oa & Pa & Ma).
  apply bind_inv in H as (o & s2 & Hb & H). eapply filealloc_ok in Hb; [|exact Ha].
  assert (Hn1 : filter (.≠ a) [a] = []) by (rewrite filter_cons_False by tauto; done).
  destruct o as [b|].
  2: { subst. simpl in H. apply bind_inv in H as ([] & s2 & Hc & [= <- <-]). eapply fileclose_ok in Hc as [Hc _]; [|exact Ha].
       rewrite Hn1 in Hc. adjust. }
  destruct Hb as (Hab & Heb & Hb & Ob & Pb & Mb). assert (a <> b) by set_solver.
  apply bind_inv in H as (p & s3 & Hp & H).
  assert (Hpn : p = 0 \/ pipes s !! p = None).
  { unfold on_mem, zoom in Hp. rewrite Mb, Ma in Hp. apply rbind_inv in Hp as ([p' t] & Hk & [= -> <-]).
    apply (Hnew p (set_mem t s)). unfold on_mem, zoom. by rewrite Hk. }
  pose proof (keeps_on_mem kalloc _ _ _ Hp) as (O3 & F3 & P3). eapply keeps_ok in Hb; [|apply keeps_on_mem|exact Hp].
  destruct (p =? 0) eqn:Ep.
  - simpl in H. apply bind_inv in H as ([] & s4 & Hc & H). eapply fileclose_ok in Hc as [Hc _]; [|exact Hb].
    apply bind_inv in H as ([] & s5 & Hc' & [= <- <-]). eapply fileclose_ok in Hc' as [Hc' _]; [|exact Hc].
    rewrite (filter_cons_True (.≠ a) b), Hn1, (filter_cons_False (.≠ b)) in Hc' by (tauto || congruence). adjust.
  - destruct Hpn as [->|Hpn]; [done|]. apply bind_inv in H as (pg & s4 & [= _ <-] & H). apply bind_inv in H as ([] & s4 & [= <-] & H).
    apply bind_inv in H as ([] & s5 & Hu & H). apply upd_file_inv in Hu as (x & Hx & ->). simpl in Hx.
    apply bind_inv in H as ([] & s5 & Hu & [= <- <-]). apply upd_file_inv in Hu as (y & Hy & ->). simpl in Hy. rewrite list_lookup_insert_ne in Hy by done.
    destruct (fi_new _ _ _ _ Hb _ _ Hx) as [Tx Rx]; [set_solver|]. destruct (fi_new _ _ _ _ Hb _ _ Hy) as [Ty Ry]; [set_solver|].
    assert (a < length (ftab s3))%nat by eauto using lookup_lt_Some. assert (b < length (ftab s3))%nat by eauto using lookup_lt_Some.
    assert (Hdom : forall f, is_Some (ftab s3 !! f) -> is_Some (<[b := file_as_pipe 0 1 p y]> (<[a := file_as_pipe 1 0 p x]> (ftab s3)) !! f)).
    { intros f Hf. apply lookup_lt_is_Some. rewrite !length_insert. by apply lookup_lt_is_Some. }
    simpl. split_and!; [done|apply Hdom; eauto..|congruence|]. apply (files_ok_fill _ [b; a] [] tabs s3); simpl; [done|done| | |done].
    + intros f z Hf. apply list_lookup_insert_Some in Hf as [(<- & <- & _)|[? Hf]]; [exists y; split_and!; [done..|right; set_solver]|].
      apply list_lookup_insert_Some in Hf as [(<- & <- & _)|[? Hf]]; [exists x; split_and!; [done..|right; set_solver]|].
      exists z. split_and!; [done..|left; set_solver].
    + apply pipes_ok_new; try done; [lia|lia|congruence|apply (fi_pipes _ _ _ _ Hb)].
Qed.

Lemma sys_pipe_ok tabs s r s' : sys_pipe me kend s = Ok (r, s') -> page_is_new s -> files_ok none [] tabs s -> files_ok none [] tabs s'.
Proof.
  unfold sys_pipe. intros H Hnew Hok. apply bind_inv in H as (o & s1 & Ho & H). apply rbind_inv in Ho as (o' & _ & [= -> <-]).
  destruct o as [p|]; [|by injection H as <- <-]. apply bind_inv in H as (o & s1 & Hp & H). apply (pipealloc_ok tabs) in Hp; [|done..].
  destruct o as [[a b]|]; [|by injection H as <- <-]. destruct Hp as (Hab & Hea & Heb & _ & Hp).
  apply bind_inv in H as (o & s2 & Hd & H). eapply fdalloc_ok in Hd; [|done|exact Hp]. destruct o as [fd0|].
  2: { subst. apply bind_inv in H as ([] & s2 & Hc & H). eapply fileclose_ok in Hc as [Hc _]; [|exact Hp].
       apply bind_inv in H as ([] & s3 & Hc' & [= <- <-]). eapply fileclose_ok in Hc' as [Hc' _]; [|exact Hc]. simpl in Hc'. adjust. }
  destruct Hd as (Hfd & -> & Hd). apply bind_inv in H as (o & s2 & Hd' & H). eapply fdalloc_ok in Hd'; [|exact Heb|exact Hd].
  destruct o as [fd1|].
  - destruct Hd' as (_ & _ & Hd'). apply bind_inv in H as ([] & s3 & Hs & H). eapply keeps_ok in Hd'; [|apply keeps_store_user|exact Hs].
    apply bind_inv in H as ([] & s4 & Hs' & [= <- <-]). eapply keeps_ok in Hd'; [|apply keeps_store_user|exact Hs']. adjust.
  - subst. apply bind_inv in H as ([] & s3 & [= <-] & H). eapply clear_fd_ok in Hd; [|simpl; rewrite list_lookup_insert_eq by eauto using lookup_lt_Some; done].
    apply bind_inv in H as ([] & s3 & Hc & H). eapply fileclose_ok in Hc as [Hc _]; [|exact Hd].
    apply bind_inv in H as ([] & s4 & Hc' & [= <- <-]). eapply fileclose_ok in Hc' as [Hc' _]; [|exact Hc]. simpl in Hc'. adjust.
Qed.

End ops.

(** ** All processes *)

(** The loop of [nicefork] over the descriptors [l]: the child's. *)
Fixpoint fork_files (l : list (option nat)) : M kern (list (option nat)) :=
  match l with
  | [] => ret []
  | o :: l' =>
      let* o' := match o with Some f => let* g := filedup f in ret (Some g) | None => ret None end in
      let* r := fork_files l' in
      ret (o' :: r)
  end.

(** The loop of [exit], [n] descriptors from [fd] on. *)
Fixpoint exit_files (me kend : Z) (n fd : nat) : M kern unit :=
  match n with
  | O => ret tt
  | S n' =>
      let* l := gets ofile in
      match l !! fd with
      | Some (Some f) => fileclose me kend f ;;; set_fd fd None
      | _ => ret tt
      end ;;;
      exit_files me kend n' (S fd)
  end.

Section processes.

Context (me kend : Z) (devsw : Z -> devops) (junk : list Z).

Definition file_calls : list (M kern Z) :=
  [sys_link me devsw junk; sys_unlink me devsw junk; sys_mkdir me devsw junk; sys_mknod me devsw junk; sys_chdir me devsw; sys_fstat me] ++
  [sys_dup; sys_read me devsw; sys_write me devsw; sys_close me kend; sys_open me kend devsw junk; sys_pipe me kend].

(** The running process and the descriptor tables of the others. *)
Inductive fstep : kern * list (list (option nat)) -> kern * list (list (option nat)) -> Prop :=
| fs_call c r s s' tabs : c ∈ file_calls -> page_is_new s -> c s = Ok (r, s') -> fstep (s, tabs) (s', tabs)
| fs_fork s l s' tabs : fork_files (ofile s) s = Ok (l, s') -> fstep (s, tabs) (s', l :: tabs)
| fs_exit s r s' tabs : exit_files me kend NOFILE 0 s = Ok (r, s') -> fstep (s, tabs) (s', tabs)
| fs_switch s s' t1 t t2 : ftab s' = ftab s -> pipes s' = pipes s -> ofile s' = t -> fstep (s, t1 ++ t :: t2) (s', t1 ++ ofile s :: t2)
| fs_other s s' tabs : ofile s' = ofile s -> ftab s' = ftab s -> pipes s' = pipes s -> fstep (s, tabs) (s', tabs).

Lemma fork_files_ok l tabs adj s r s' :
  fork_files l s = Ok (r, s') -> (forall f, Some f ∈ l -> is_Some (ftab s !! f)) -> files_ok adj [] tabs s ->
  r = l /\ ofile s' = ofile s /\ files_ok (fun f => adj f + refs_in f l) [] tabs s'.
Proof.
  revert adj s r. induction l as [|o l IH]; intros adj s r H Hl Hok; simpl in H.
  - injection H as <- <-. split_and!; [done..|]. eapply files_ok_ext; [|done]. intros f. simpl. lia.
  - apply bind_inv in H as (o' & s1 & Ho & H). apply bind_inv in H as (r' & s2 & Hr & [= <- <-]).
    assert (H1 : o' = o /\ ofile s1 = ofile s /\ (forall f, is_Some (ftab s !! f) -> is_Some (ftab s1 !! f)) /\ files_ok (fun f => adj f + is_ref f o) [] tabs s1).
    { destruct o as [f|].
      - apply bind_inv in Ho as (g & s3 & Hd & [= <- <-]). assert (Hd' := Hd). apply (filedup_ok adj [] tabs) in Hd as [Hd ?]; [|by apply not_elem_of_nil|done].
        unfold filedup in Hd'. apply bind_inv in Hd' as (x & s4 & Hx & Hd'). apply get_file_inv in Hx as [Hx ->]. destruct (_ <? _); [done|].
        apply bind_inv in Hd' as ([] & s4 & Hu & [= <- <-]). apply upd_file_inv in Hu as (y & Hy & ->). split_and!; [done..| |].
        + intros h. rewrite !lookup_lt_is_Some. simpl. by rewrite length_insert.
        + eapply files_ok_ext; [|done]. intros h. unfold bump, is_ref. repeat case_decide; simplify_eq; lia.
      - injection Ho as <- <-. split_and!; [done..|]. eapply files_ok_ext; [|done]. intros f. unfold is_ref. rewrite decide_False by done. lia. }
    destruct H1 as (-> & Ho1 & Hd1 & H1). apply (IH _ _ _ Hr) in H1 as (-> & Ho2 & H2); [|intros f Hf; apply Hd1, Hl; by right].
    split_and!; [done|congruence|]. eapply files_ok_ext; [|done]. intros f. simpl. lia.
Qed.

Lemma exit_files_ok n fd tabs s r s' : exit_files me kend n fd s = Ok (r, s') -> files_ok none [] tabs s -> files_ok none [] tabs s'.
Proof.
  revert fd s. induction n as [|n IH]; intros fd s H Hok; simpl in H; [by injection H as <- <-|].
  apply bind_inv in H as (l & s1 & [= <- <-] & H). apply bind_inv in H as ([] & s1 & H1 & H). eapply IH; [exact H|].
  destruct (ofile s !! fd) as [[f|]|] eqn:Ef; [|by injection H1 as <-..].
  apply bind_inv in H1 as ([] & s2 & Hc & [= <-]). apply (fileclose_ok me kend none [] tabs) in Hc as [Hc Ho]; [|done].
  eapply (clear_fd_ok _ _ _ fd f) in Hc; [|by rewrite Ho]. adjust.
Qed.

Lemma files_ok_tabs adj new tabs tabs' s s' :
  ftab s' = ftab s -> pipes s' = pipes s -> (forall f, uses f (ofile s' :: tabs') = uses f (ofile s :: tabs)) ->
  (forall t, t ∈ ofile s' :: tabs' -> t ∈ ofile s :: tabs) -> files_ok adj new tabs s -> files_ok adj new tabs' s'.
Proof. intros Ef Ep Hu Ht [H1 H2 H3 H4 H5]. split; rewrite ?Ef, ?Ep; [intros f x Hf; rewrite Hu; auto|eauto|done..]. Qed.

Lemma fstep_ok x y : files_ok none [] (snd x) (fst x) -> fstep x y -> files_ok none [] (snd y) (fst y).
Proof.
  intros Hok Hs. revert Hok.
  destruct Hs as [c r s s' tabs Hc Hn Hr|s l s' tabs H|s r s' tabs H|s s' t1 t t2 Ef Ep Eo|s s' tabs Eo Ef Ep]; simpl; intros Hok.
  - apply elem_of_app in Hc as [Hc|Hc]; [eapply keeps_ok; [eapply keeps_path_calls, Hc|exact Hr|done]|].
    repeat (apply elem_of_cons in Hc as [->|Hc]); [..|by apply elem_of_nil in Hc];
      [by eapply sys_dup_ok|by eapply sys_read_ok|by eapply sys_write_ok|by eapply sys_close_ok|by eapply sys_open_ok|by eapply sys_pipe_ok].
  - apply (fork_files_ok _ tabs none) in H as (-> & Ho & H); [|intros f Hf; eapply (fi_in _ _ _ _ Hok); [by left|done]|done].
    destruct H as [H1 H2 H3 H4 H5]. split; try done.
    + intros f x Hf. rewrite (H1 _ _ Hf). simpl. unfold none. lia.
    + intros f t Hin. apply elem_of_cons in Hin as [->|Hin]; [apply H2; by left|]. apply elem_of_cons in Hin as [->|Hin]; [|apply H2; by right].
      apply H2. rewrite Ho. by left.
  - by eapply exit_files_ok.
  - apply (files_ok_tabs _ _ (t1 ++ t :: t2) _ s); [done|done| | |done].
    + intros f. subst t. simpl. rewrite !uses_app. simpl. lia.
    + intros u. subst t. set_solver.
  - by eapply files_ok_keep.
Qed.

Lemma uses_inv f tabs : 0 < uses f tabs -> exists t, t ∈ tabs /\ Some f ∈ t.
Proof.
  induction tabs as [|t tabs IH]; simpl; [lia|]. intros H. destruct (decide (Some f ∈ t)) as [Ht|Ht]; [exists t; set_solver|].
  assert (refs_in f t = 0); [|destruct IH as (t' & ? & ?); [lia|exists t'; set_solver]].
  clear H IH. induction t as [|o t IH]; simpl; [done|]. unfold is_ref. rewrite decide_False by set_solver. rewrite IH; set_solver.
Qed.

(** Every process has closed everything. *)
Definition no_files (s : kern) (tabs : list (list (option nat))) : Prop :=
  (forall f x, ftab s !! f = Some x -> f_type x = FD_NONE /\ f_ref x = 0) /\ pipes s = ∅ /\ forall t f, t ∈ ofile s :: tabs -> Some f ∉ t.

Lemma no_files_ok s tabs : no_files s tabs -> files_ok none [] tabs s.
Proof.
  intros (Hf & Hp & Ht). split.
  - intros f x Hx. destruct (Hf _ _ Hx) as [_ ->]. unfold none. pose proof (uses_nonneg f (ofile s :: tabs)).
    destruct (decide (0 < uses f (ofile s :: tabs))) as [Hu|Hu]; [|lia]. apply uses_inv in Hu as (t & Hin & Hu). by apply Ht in Hu.
  - intros f t Hin Hi. by apply Ht in Hi.
  - intros f x Hx _. destruct (Hf _ _ Hx) as [-> ->]. done.
  - by intros f x _ ?%not_elem_of_nil.
  - rewrite Hp. split.
    + intros f g x y p w Hx _ [? _] _. destruct (Hf _ _ Hx). lia.
    + intros p w. split; [intros (f & x & Hx & ? & _); destruct (Hf _ _ Hx); lia|intros (q & Hq & _); by rewrite lookup_empty in Hq].
    + intros p q Hq. by rewrite lookup_empty in Hq.
Qed.

(** C30: whatever file system calls any number of
    processes make, in any order and with forks and exits, the count of every
    file is the number of descriptors that refer to it; a descriptor refers to
    a file in use, and if that is an end of a pipe, the pipe exists and the end
    is open; and an end of a pipe is open only as long as some descriptor
    refers to it. *)
Theorem references_match_descriptors s0 tabs0 s tabs :
  no_files s0 tabs0 -> rtc fstep (s0, tabs0) (s, tabs) ->
  (forall f x, ftab s !! f = Some x -> f_ref x = uses f (ofile s :: tabs)) /\
  (forall t f, t ∈ ofile s :: tabs -> Some f ∈ t -> exists x, ftab s !! f = Some x /\ 1 <= f_ref x /\ f_type x <> FD_NONE /\
     (f_type x = FD_PIPE -> exists q, pipes s !! f_pipe x = Some q /\ end_open q (negb (f_writable x =? 0)))) /\
  (forall p q w, pipes s !! p = Some q -> end_open q w ->
     exists t f x, t ∈ ofile s :: tabs /\ Some f ∈ t /\ ftab s !! f = Some x /\ is_end x p w).
Proof.
  intros H0 Hr. assert (Hok : files_ok none [] tabs s).
  { pose proof (rtc_invariant fstep (fun x => files_ok none [] (snd x) (fst x)) (s0, tabs0) (s, tabs)) as Hi.
    apply Hi; [|by apply no_files_ok|done]. intros a b Ha Hab. by apply (fstep_ok a b). }
  assert (Href : forall f x, ftab s !! f = Some x -> f_ref x = uses f (ofile s :: tabs)).
  { intros f x Hx. rewrite (fi_ref _ _ _ _ Hok _ _ Hx). unfold none. lia. }
  destruct Hok as [_ H2 H3 _ [_ P2 _]]. split_and!; [done| |].
  - intros t f Hin Hf. destruct (H2 _ _ Hin Hf) as [x Hx]. pose proof (uses_pos f _ t Hin Hf) as Hu. rewrite <- (Href _ _ Hx) in Hu.
    exists x. split_and!; [done|done| |].
    + rewrite (H3 _ _ Hx) by apply not_elem_of_nil. lia.
    + intros Ht. apply P2. exists f, x. split; [done|]. split_and!; [lia|done..].
  - intros p q w Hq Ho. destruct (proj2 (P2 p w)) as (f & x & Hx & He); [eauto|].
    destruct (uses_inv f (ofile s :: tabs)) as (t & Hin & Hf); [rewrite <- (Href _ _ Hx); apply He|]. eauto 10.
Qed.

End processes.
