(* ===== verification/FileWrite.v ===== *)
(** * Writing a file, transaction by transaction

    [filewrite] cuts a write into pieces that each fit a transaction.  Between
    the pieces nothing is outstanding and the disk is what the cache shows;
    each piece either reaches the disk as a whole or not at all. *)

From S2P Require Import Prelude Spinlock Mmu Kalloc Block Sleeplock Bio Log LogCrash Fs FsTx FsAlloc FsFile FsRw FsInode FsDir FsPath FsProps Vm Pipe Syscall File.

Section write.

Context (me : Z) (sk : superblock) (devsw : Z -> devops).

(** No operation is outstanding; the log is empty and has a place of its own
    on the disk, which has content [C]. *)
Record quiet (l : lst) (C : gmap Z block) : Prop := {
  q_view : bview me (bio l) C ∅ ∅;
  q_idle : outstanding (lg l) = 0 /\ committing (lg l) = 0 /\ lg_n (lg l) = 0;
  q_conf : lg_dev (lg l) = 1 /\ lg_size (lg l) = LOGSIZE /\ length (lg_block (lg l)) = Z.to_nat LOGSIZE;
  q_head : exists h, C !! lg_start (lg l) = Some h /\ length h = Z.to_nat BSIZE /\ head_says h [];
  q_area : forall n, area (lg l) n -> is_Some (C !! n);
  q_home : forall n, sb_inodestart sk <= n < sb_size sk -> ~ area (lg l) n
}.

Lemma quiet_disk l C : quiet l C -> disk (bio l) = C.
Proof. intros Q. apply map_eq. intros n. symmetry. apply (v_disk _ _ _ _ _ (q_view _ _ Q)); apply not_elem_of_empty. Qed.

(** The log while the one operation is outstanding. *)
Definition busy (l : lst) : log := with_outstanding 1 (lg l).

Lemma begin_quiet l C : quiet l C -> begin_op l = Ok (tt, set_lg (busy l) l) /\ tview me (busy l) (bio l) (set_lg (busy l) l) C ∅ ∅.
Proof.
  intros Q. destruct (q_idle _ _ Q) as (Ho & Hc & Hn), (q_conf _ _ Q) as (Hd & Hs & Hl). split.
  - unfold begin_op, bind, gets, upd_lg, modify, busy. simpl. by rewrite Ho, Hc, Hn.
  - constructor; simpl; try done.
    + apply Q.
    + intros n _. by rewrite (quiet_disk _ _ Q).
    + rewrite Hn. unfold LOGSIZE, MAXOPBLOCKS. lia.
    + by rewrite Hn.
    + rewrite Hn. constructor.
Qed.

(** The blocks [ns] with their content. *)
Definition entries_of (C : gmap Z block) (ns : list Z) : list (Z * block) := (fun n => (n, default [] (C !! n))) <$> ns.

Lemma entries_fst C ns : (entries_of C ns).*1 = ns.
Proof. unfold entries_of. rewrite <- list_fmap_compose. by apply list_fmap_id. Qed.

Lemma entries_in C ns e : (forall n, n ∈ ns -> is_Some (C !! n)) -> e ∈ entries_of C ns -> e.1 ∈ ns /\ C !! e.1 = Some e.2.
Proof. intros Hs He. apply list_elem_of_fmap in He as (n & -> & Hn). split; [done|]. simpl. destruct (Hs n Hn) as [d ->]. done. Qed.

(** The content [d] outside the log. *)
Definition agree (l : log) (d C : gmap Z block) : Prop := forall n, ~ area l n -> d !! n = C !! n.

(** The disk was [d0] and the writes [tr] were to make it [C]; a crash after
    some of them, and after more crashes in the recoveries that follow, the
    recovery that completes leaves [d0] or [C]. *)
Definition all_or_nothing (l : log) (d0 C : gmap Z block) (tr : list (Z * block)) : Prop :=
  forall pre r lr, pre `prefix_of` tr -> rtc (cut_recovery me l) (apply_writes pre d0) (disk r) ->
    bview me r (disk r) ∅ ∅ -> lg_dev lr = 1 -> lg_start lr = lg_start l -> length (lg_block lr) = Z.to_nat LOGSIZE ->
    exists r' lr', recover_from_log me (Lst r lr) = Ok (tt, Lst r' lr') /\ (agree l (disk r') d0 \/ agree l (disk r') C).

(** Only the place of the log matters. *)
Lemma cut_recovery_start l l' d d' : lg_start l = lg_start l' -> cut_recovery me l d d' -> cut_recovery me l' d d'.
Proof. intros E [b lb b' lb' tr pre V Hd Hs Hl Hr Hw Hp]. econstructor; eauto. congruence. Qed.

Lemma all_or_nothing_start l l' d0 C tr : lg_start l = lg_start l' -> all_or_nothing l d0 C tr -> all_or_nothing l' d0 C tr.
Proof.
  intros E H pre r lr Hp Hc V Hd Hs Hl. unfold agree, area in *. rewrite <- E in *. apply (H pre r lr); try done.
  revert Hc. apply rtc_subrel. intros x y. by apply cut_recovery_start.
Qed.

(** The entries of the log at the end of a transaction. *)
Lemma tx_entries l l1 C C1 D1 (es := entries_of C1 (take (Z.to_nat (lg_n (lg l1))) (lg_block (lg l1)))) :
  quiet l C -> layout sk -> tview me (busy l) (bio l) l1 C1 D1 ∅ -> logged sk ∅ D1 -> Z.of_nat (size D1) < LOGSIZE ->
  D1 = list_to_set es.*1 /\ (forall e, e ∈ es -> C1 !! e.1 = Some e.2) /\ length es = Z.to_nat (lg_n (lg l1)) /\
  forall l', lg_start l' = lg_start (lg l) -> lg_dev l' = 1 -> lg_n l' = lg_n (lg l1) -> lg_block l' = lg_block (lg l1) -> holds l' es /\ entries_ok l' C1 es.
Proof.
  intros Q Hl T [_ Hlog] Hsz. set (ns := take (Z.to_nat (lg_n (lg l1))) (lg_block (lg l1))) in *.
  pose proof (t_n _ _ _ _ _ _ _ T) as Hn. pose proof (t_len _ _ _ _ _ _ _ T) as Hlen. pose proof (t_size _ _ _ _ _ _ _ T) as Hsize.
  assert (Hfst : es.*1 = ns) by apply entries_fst. assert (Hle : length es = Z.to_nat (lg_n (lg l1))).
  { unfold es, entries_of, ns. rewrite length_fmap, length_take. lia. }
  pose proof (t_logged _ _ _ _ _ _ _ T) as HD. fold ns in HD.
  assert (Hdom : dom C1 = dom C). { rewrite (v_dom _ _ _ _ _ (t_view _ _ _ _ _ _ _ T)), (t_disk _ _ _ _ _ _ _ T). by rewrite (quiet_disk _ _ Q). }
  assert (Hin : forall n, n ∈ ns -> n ∈ D1 /\ is_Some (C1 !! n)).
  { intros n Hi. assert (n ∈ D1) by (rewrite HD; by apply elem_of_list_to_set). split; [done|].
    destruct (v_cached _ _ _ _ _ (t_view _ _ _ _ _ _ _ T) n) as (i & b & Hb & Hd & <-); [set_solver|].
    rewrite (v_data _ _ _ _ _ (t_view _ _ _ _ _ _ _ T) i b Hb Hd). eauto. }
  assert (Hes : forall e, e ∈ es -> e.1 ∈ ns /\ C1 !! e.1 = Some e.2) by (intros e; apply entries_in; intros n Hi; by apply Hin).
  split_and!; [by rewrite Hfst|by intros e He; apply Hes|done|]. intros l' Es Ed En Eb. split.
  - split_and!; [done|rewrite En, Hle; lia| |by rewrite Eb]. intros k e Hk. rewrite Eb. simpl.
    assert (Hk' : es.*1 !! k = Some e.1) by (by rewrite list_lookup_fmap, Hk). rewrite Hfst in Hk'. apply lookup_take_Some in Hk'. apply Hk'.
  - pose proof (areas_le sk Hl). pose proof (l_size _ Hl). constructor.
    + rewrite Hfst. apply T.
    + rewrite Hfst. apply Forall_forall. intros n Hi. destruct (Hlog n (proj1 (Hin n Hi))) as [?%not_elem_of_empty|?]; [done|].
      unfold i32_range. lia.
    + rewrite Hle. lia.
    + intros e He. destruct (Hes e He) as [Hi Hc]. split; [eauto|]. destruct (Hlog _ (proj1 (Hin _ Hi))) as [?%not_elem_of_empty|?]; [done|].
      unfold area. rewrite Es. by apply (q_home _ _ Q).
    + intros k Hk. apply elem_of_dom. rewrite Hdom. apply elem_of_dom, (q_area _ _ Q).
      replace (logblk l' k) with (logblk (lg l) k) by (unfold logblk; congruence). apply logblk_area. lia.
Qed.

(** The last write of [commit] clears the header. *)
Lemma commit_clears l h es C :
  holds l es -> length h = Z.to_nat BSIZE -> Forall i32_range es.*1 -> (length es < Z.to_nat LOGSIZE)%nat ->
  exists h', apply_writes (commit_writes l h es) C !! lg_start l = Some h' /\ length h' = Z.to_nat BSIZE /\ head_says h' [].
Proof.
  intros Hh Hlh Hr Hlen. unfold LOGSIZE, MAXOPBLOCKS in Hlen. destruct (header_says l es h Hh Hlh Hr) as [_ Hl1]; [lia|].
  assert (Hh0 : holds (with_n 0 l) []) by (destruct Hh as (? & _ & _ & ?); by split_and!).
  destruct (header_says (with_n 0 l) [] (header l h) Hh0 Hl1) as [Hs2 Hl2]; [constructor|simpl; lia|].
  eexists. split; [|done]. unfold commit_writes. rewrite apply_writes_app. change (?w :: es ++ ?t) with (([w] ++ es) ++ t).
  rewrite apply_writes_app. apply lookup_insert_eq.
Qed.

Lemma writes_dom_same (tr : list (Z * block)) (d : gmap Z block) n : is_Some (d !! n) -> is_Some (apply_writes tr d !! n).
Proof. intros Hs. destruct (apply_writes_last tr n d) as [-> |(c & _ & ->)]; eauto. Qed.

(** [end_op] of the only operation: what it logged is on the disk. *)
Lemma end_quiet l l1 C C1 D1 :
  quiet l C -> layout sk -> tview me (busy l) (bio l) l1 C1 D1 ∅ -> logged sk ∅ D1 -> Z.of_nat (size D1) < LOGSIZE ->
  exists l2 C2 tr, end_op me l1 = Ok (tt, l2) /\ quiet l2 C2 /\ lg_start (lg l2) = lg_start (lg l) /\ agree (lg l) C2 C1 /\
    wlog (bio l2) = wlog (bio l) ++ tr /\ apply_writes tr C = C2 /\ all_or_nothing (lg l) C C1 tr.
Proof.
  intros Q Hl T Hlog Hsz. destruct (tx_entries l l1 C C1 D1 Q Hl T Hlog Hsz) as (HD & HC & Hle & Hent).
  set (es := entries_of C1 _) in *. pose proof (quiet_disk _ _ Q) as Hdisk. destruct (q_conf _ _ Q) as (Qd & Qs & Ql), (q_idle _ _ Q) as (Qo & Qc & Qn).
  pose proof (t_log _ _ _ _ _ _ _ T) as Elg. unfold busy in Elg. cbn [lg_start lg_size outstanding committing lg_dev with_outstanding] in Elg.
  set (lc := Log (lg_start (lg l)) (lg_size (lg l)) 0 1 (lg_dev (lg l)) (lg_n (lg l1)) (lg_block (lg l1))).
  destruct (Hent lc eq_refl Qd eq_refl eq_refl) as [Hh He].
  assert (Hrun : forall b' l', commit me (Lst (bio l1) lc) = Ok (tt, Lst b' l') -> end_op me l1 = Ok (tt, Lst b' (with_committing 0 l'))).
  { intros b' l' Hc. destruct l1 as [b1 g1]. cbn [lg bio] in *. unfold end_op, bind, upd_lg, modify, gets. rewrite Elg.
    cbn [rbind lg set_lg bio with_outstanding with_committing outstanding committing lg_start lg_size lg_dev lg_n lg_block]. rewrite Qc.
    change (1 - 1) with 0. change (0 =? 0) with true. cbn [negb]. unfold lc in Hc. rewrite Elg in Hc. cbn [lg_n lg_block] in Hc. match type of Hc with ?c = _ => change (commit me _) with c end. rewrite Hc. done. }
  destruct (q_head _ _ Q) as (h & Hst & Hlh & Hs).
  assert (Hst1 : C1 !! lg_start (lg l) = Some h).
  { rewrite (t_clean _ _ _ _ _ _ _ T), Hdisk; [done|]. intros Hin. destruct Hlog as [_ Hlog]. destruct (Hlog _ Hin) as [?%not_elem_of_empty|Hr]; [done|].
    apply (q_home _ _ Q _ Hr), start_area. }
  assert (Hcrash : all_or_nothing (lg l) C C1 (commit_writes lc h es)).
  { apply (all_or_nothing_start lc); [done|]. intros pre r lr Hp Hc. rewrite <- Hdisk in Hc |- *. rewrite <- (t_disk _ _ _ _ _ _ _ T) in Hc |- *.
    eapply (crash_recovers me (bio l1) lc C1 h es); try done. rewrite <- HD. apply T. }
  destruct (decide (es = [])) as [Hnil|Hne].
  - assert (Hn0 : lg_n (lg l1) = 0) by (pose proof (t_n _ _ _ _ _ _ _ T); rewrite Hnil in Hle; simpl in Hle; lia).
    assert (HD0 : D1 = ∅) by (rewrite HD, Hnil; done).
    assert (Hc : commit me (Lst (bio l1) lc) = Ok (tt, Lst (bio l1) lc)) by (unfold commit, bind, gets, lc; cbn [lg lg_n rbind]; by rewrite Hn0).
    assert (EC : C1 = C) by (apply map_eq; intros n; rewrite (t_clean _ _ _ _ _ _ _ T), Hdisk; [done|rewrite HD0; apply not_elem_of_empty]).
    exists (Lst (bio l1) (with_committing 0 lc)), C, []. split; [by apply Hrun|]. split; [|split_and!; try done].
    + pose proof (t_view _ _ _ _ _ _ _ T) as V1. rewrite EC, HD0 in V1. destruct Q. constructor; simpl; try done. split_and!; try done. apply T.
    + by rewrite EC.
    + simpl. by rewrite app_nil_r, (t_wlog _ _ _ _ _ _ _ T).
    + intros pre r lr Hp. apply Hcrash. apply prefix_nil_inv in Hp as ->. apply prefix_nil.
  - destruct (commit_ok me (bio l1) lc C1 h es) as (b2 & Hc & V2 & [Hd2 Hw2]); [rewrite <- HD; apply T|done..|].
    assert (Hlen : (length es < Z.to_nat LOGSIZE)%nat) by (apply (e_len _ _ _ He)).
    exists (Lst b2 (with_committing 0 (with_n 0 lc))), (apply_writes (commit_writes lc h es) C1), (commit_writes lc h es).
    split; [by apply Hrun|]. split; [|split_and!; try done].
    + destruct Q as [_ _ _ _ Qa Qh]. constructor; simpl; try done; [split_and!; [done..|apply T]| |].
      * apply (commit_clears lc h es); [done|done|apply He|done].
      * intros n Hn. apply writes_dom_same. apply elem_of_dom.
        rewrite (v_dom _ _ _ _ _ (t_view _ _ _ _ _ _ _ T)), (t_disk _ _ _ _ _ _ _ T), Hdisk. by apply elem_of_dom, Qa.
    + intros n Hn. by apply commit_home.
    + simpl. by rewrite Hw2, (t_wlog _ _ _ _ _ _ _ T).
    + apply map_eq. intros n. rewrite <- Hdisk, <- (t_disk _ _ _ _ _ _ _ T), <- Hd2. symmetry. apply (v_disk _ _ _ _ _ V2); apply not_elem_of_empty.
Qed.

(** ** Contents that differ in the log only *)

Definition same_home (C C' : gmap Z block) : Prop := forall n, sb_inodestart sk <= n < sb_size sk -> C' !! n = C !! n.

Lemma free_bit_same C C' x : layout sk -> same_home C C' -> 0 <= x < sb_size sk -> free_bit sk C' x = free_bit sk C x.
Proof.
  intros Hl H Hx. unfold free_bit. rewrite H; [done|]. pose proof (areas_le sk Hl). pose proof (datastart_le sk Hl). pose proof (BBLOCK_fixed sk Hl x Hx).
  rewrite BBLOCK_eq in * by done. pose proof (Z.div_pos x BPB ltac:(lia) ltac:(done)). lia.
Qed.

Lemma alloc_ok_same C C' : same_home C C' -> alloc_ok sk C -> alloc_ok sk C'.
Proof.
  intros H [Hl Hb Hf]. constructor; [done|intros b Hr; rewrite H by done; auto|].
  intros b Hr. pose proof (datastart_le sk Hl). rewrite (free_bit_same C) by (done || lia). auto.
Qed.

Lemma free_list_same C C' : layout sk -> same_home C C' -> free_list sk C' = free_list sk C.
Proof. intros Hl H. apply free_list_ext. intros x. by apply free_bit_same. Qed.

Lemma owned_same C C' i : layout sk -> file_ok sk C i -> same_home C C' -> forall x, owns C i x -> C' !! x = C !! x.
Proof. intros Hl Hf H x Hx. pose proof (areas_le sk Hl). destruct (f_owned _ _ _ Hf x Hx). apply H. lia. Qed.

Lemma file_ok_same C C' i : layout sk -> same_home C C' -> file_ok sk C i -> file_ok sk C' i /\ fdata C' i = fdata C i.
Proof.
  intros Hl H Hf. pose proof (owned_same C C' i Hl Hf H). split; [|by apply (fdata_frame sk)]. apply (file_ok_frame sk C); [done|done|].
  intros x Hx. destruct (f_owned _ _ _ Hf x Hx). pose proof (datastart_le sk Hl). rewrite (free_bit_same C) by (done || lia). done.
Qed.

Lemma synced_same C C' i : layout sk -> inum_ok sk i -> same_home C C' -> synced sk C i -> synced sk C' i.
Proof.
  intros Hl [_ Hn] H (d & Hd & Hi). exists d. split; [|done]. rewrite H; [done|]. destruct (IBLOCK_eq sk (i_inum i) Hl Hn) as [E1 E2].
  pose proof (Z.div_pos (i_inum i) IPB ltac:(lia) ltac:(done)). pose proof (areas_le sk Hl). pose proof (datastart_le sk Hl). lia.
Qed.

(** The file that inode [num] of the disk [d] stands for. *)
Definition stored (d : gmap Z block) (num : Z) (data : list Z) : Prop :=
  exists j, i_inum j = num /\ i_type j <> 0 /\ inum_ok sk j /\ synced sk d j /\ file_ok sk d j /\ fdata d j = data.

Lemma stored_same C C' num data : layout sk -> same_home C C' -> stored C num data -> stored C' num data.
Proof.
  intros Hl H (j & Hj & Ht & Hn & Hs & Hf & Hd). destruct (file_ok_same C C' j Hl H Hf) as [Hf' Hd'].
  exists j. split_and!; [done|done|done|by apply (synced_same C)|done|congruence].
Qed.

Lemma splice_app (o : nat) (l1 l2 d : list Z) :
  (o <= length d)%nat -> splice (o + length l1) l2 (splice o l1 d) = splice o (l1 ++ l2) d.
Proof.
  intros Ho. unfold splice.
  assert (Ht : length (take o d) = o) by (rewrite length_take; lia).
  rewrite (app_assoc (take o d) l1). rewrite take_app_ge by (rewrite length_app; lia). rewrite length_app, Ht.
  replace (o + length l1 - (o + length l1))%nat with 0%nat by lia. rewrite take_0, app_nil_r, <- !app_assoc. do 2 f_equal.
  rewrite length_app. rewrite (app_assoc (take o d) l1). rewrite drop_app_ge by (rewrite length_app; lia). rewrite length_app, Ht, drop_drop. f_equal. f_equal. lia.
Qed.

(** ** One piece *)

(** Between the pieces: file [f] is open at offset [off] on entry [ip] of the
    inode cache, which holds the inode [i]. *)
Record opened (s : kern) (f ip : nat) (off : Z) (C : gmap Z block) (i : inode) : Prop := {
  op_file : exists x, ftab s !! f = Some x /\ f_ip x = ip /\ f_off x = off;
  op_quiet : quiet (lo (fsy s)) C;
  op_sb : sb (fsy s) = sk;
  op_alloc : alloc_ok sk C;
  op_inode : open_inode sk (fsy s) C ip i;
  op_ref : 0 < i_ref i;
  op_lock : i_lock i = Sleeplock 0 0;
  op_type : i_type i <> T_DEV /\ i_type i <> 0
}.

Lemma opened_stored s f ip off C i : opened s f ip off C i -> stored C (i_inum i) (fdata C i).
Proof. intros H. destruct (op_inode _ _ _ _ _ _ H). exists i. split_and!; try done. apply (op_type _ _ _ _ _ _ H). Qed.

Lemma open_inode_lock s C ip i v :
  open_inode sk s C ip i -> open_inode sk (set_ip ip (with_ilock v i) s) C ip (with_ilock v i).
Proof.
  intros [H1 H2 H3 H4 H5 H6]. constructor; try done.
  - simpl. apply list_lookup_insert_eq. by eapply lookup_lt_Some.
  - by destruct H3.
  - by destruct H4.
  - by apply synced_lock.
Qed.

(** [ilock] of an entry that has been read, and [iunlock]. *)
Lemma ilock_valid s ip i :
  icache s !! ip = Some i -> 0 < i_ref i -> i_lock i = Sleeplock 0 0 -> i_valid i = 1 ->
  ilock me (Some ip) s = Ok (tt, set_ip ip (with_ilock (Sleeplock 1 me) i) s).
Proof.
  intros Hi Hr Hl Hv. unfold ilock. rewrite (bind_Ok _ _ _ _ _ (get_inode_ok _ _ _ Hi)). replace (i_ref i <? 1) with false by blia.
  rewrite (bind_Ok _ _ _ _ _ (lock_inode_ok me s ip i Hi Hl)), Hv. done.
Qed.

Lemma iunlock_held s ip i :
  icache s !! ip = Some i -> 0 < i_ref i -> i_lock i = Sleeplock 1 me -> iunlock me (Some ip) s = Ok (tt, set_ip ip (with_ilock (Sleeplock 0 0) i) s).
Proof.
  intros Hi Hr Hl. unfold iunlock. rewrite (bind_Ok _ _ _ _ _ (get_inode_ok _ _ _ Hi)).
  assert (Hh : holdingsleep me (i_lock i) = true) by (rewrite Hl; unfold holdingsleep; simpl; by rewrite Z.eqb_refl).
  rewrite Hh. replace (i_ref i <? 1) with false by blia. cbn [negb orb]. unfold unlock_inode. rewrite (upd_inode_ok s ip i _ Hi), Hl. done.
Qed.

(** The transaction of one piece, on the file system. *)
Lemma piece_fs s C ip i off l :
  let n := Z.of_nat (length l) in
  quiet (lo s) C -> sb s = sk -> alloc_ok sk C -> open_inode sk s C ip i -> 0 < i_ref i -> i_lock i = Sleeplock 0 0 -> i_type i <> T_DEV ->
  bytes l -> 0 <= off <= i_size i -> off + n <= MAXFILE * BSIZE -> n <= MAXWRITE -> sb_size sk < BPB -> (credit i + 4 <= length (free_list sk C))%nat ->
  exists s1 s2 s3 s4 s5 C' i' tr,
    on_lo begin_op s = Ok (tt, s1) /\ ilock me (Some ip) s1 = Ok (tt, s2) /\ writei me devsw ip l off n s2 = Ok (n, s3) /\
    iunlock me (Some ip) s3 = Ok (tt, s4) /\ on_lo (end_op me) s4 = Ok (tt, s5) /\
    quiet (lo s5) C' /\ sb s5 = sk /\ alloc_ok sk C' /\ open_inode sk s5 C' ip i' /\ i_ref i' = i_ref i /\ i_lock i' = Sleeplock 0 0 /\
    i_type i' = i_type i /\ i_inum i' = i_inum i /\ i_size i' = Z.max (i_size i) (off + n) /\ fdata C' i' = splice (Z.to_nat off) l (fdata C i) /\
    (length (free_list sk C) + credit i' <= length (free_list sk C') + credit i + 4)%nat /\ lg_start (lg (lo s5)) = lg_start (lg (lo s)) /\
    wlog (bio (lo s5)) = wlog (bio (lo s)) ++ tr /\ apply_writes tr C = C' /\ all_or_nothing (lg (lo s)) C C' tr.
Proof.
  intros n Q Hsb Ha Hop Hr Hlk Ht Hb Ho Hle Hmax Hone Hfr. destruct (begin_quiet _ _ Q) as [Hbeg T0].
  set (s1 := set_lo (set_lg (busy (lo s)) (lo s)) s). set (i1 := with_ilock (Sleeplock 1 me) i).
  assert (H1 : on_lo begin_op s = Ok (tt, s1)) by (by apply on_lo_Ok).
  pose proof (o_entry _ _ _ _ _ Hop) as Hi. pose proof (ilock_valid s1 ip i Hi Hr Hlk (o_valid _ _ _ _ _ Hop)) as H2.
  pose proof (open_inode_lock s1 C ip i (Sleeplock 1 me)) as Hop1. fold i1 in Hop1, H2. destruct Hop1 as [Hi1 Hn1 Hf1 Hfl1 Hv1 Hsy1]; [by destruct Hop|].
  pose proof (a_layout _ _ Ha) as Hlay. change MAXWRITE with 1536 in Hmax.
  assert (Hcap : log_cap (busy (lo s)) = 29).
  { unfold log_cap, busy. simpl. destruct (q_conf _ _ Q) as (_ & -> & _). done. }
  pose proof (one_bitmap sk devsw (conj (proj1 (l_size _ Hlay)) Hone)) as Hbm. pose proof (spans_le off n ltac:(lia) Hmax) as Hsp.
  assert (Hsz : (size (∅ ∪ bitmaps sk ∪ indset i1) + credit i1 <= 2)%nat).
  { pose proof (union_size_le ∅ (bitmaps sk)) as Hu. rewrite size_empty in Hu. pose proof (ind_size (∅ ∪ bitmaps sk) i1). lia. }
  assert (Hcr : credit i1 = credit i) by done.
  destruct (writei_tx me (busy (lo s)) (bio (lo s)) sk devsw (set_ip ip i1 s1) ip i1 C ∅ off l n T0 Hsb Ha Hi1 Hn1 Hf1 Hfl1 Hv1 Ht Hb eq_refl Ho Hle)
    as (i2 & l2 & C2 & D2 & H3 & T2 & W & Hlog & Hfl & Hsz2); [lia|lia|].
  set (s3 := set_ip ip i2 (set_lo l2 (set_ip ip i1 s1))). set (i3 := with_ilock (Sleeplock 0 0) i2).
  destruct W as [Wi Wa Wf Wd Ws _]. assert (Hm : i_ref i2 = i_ref i /\ i_lock i2 = Sleeplock 1 me /\ i_type i2 = i_type i /\ i_inum i2 = i_inum i /\
    i_size i2 = Z.max (i_size i) (off + n) /\ i_valid i2 = 1 /\ i_dev i2 = 1 /\ fields_ok i2).
  { rewrite Wi. split_and!; try done; [apply Hn1|by destruct Hfl1]. }
  destruct Hm as (Mr & Ml & Mt & Mn & Ms & Mv & Md & Mf).
  assert (Hi3 : icache s3 !! ip = Some i2) by (simpl; apply list_lookup_insert_eq; rewrite length_insert; by eapply lookup_lt_Some).
  pose proof (iunlock_held s3 ip i2 Hi3 ltac:(lia) Ml) as H4.
  destruct (end_quiet (lo s) l2 C C2 D2 Q Hlay T2 Hlog) as (l5 & C5 & tr & H5 & Q5 & Hst & Hag & Hw & Happ & Haon).
  { change LOGSIZE with 30. lia. }
  assert (Hsame : same_home C2 C5) by (intros x Hx; apply Hag; by apply (q_home _ _ Q)).
  destruct (file_ok_same C2 C5 i2 Hlay Hsame Wf) as [Hf5 Hd5].
  assert (Hnum : inum_ok sk i2) by (split; [done|rewrite Mn; apply (o_num _ _ _ _ _ Hop)]).
  exists s1, (set_ip ip i1 s1), s3, (set_ip ip i3 s3), (set_lo l5 (set_ip ip i3 s3)), C5, i3, tr. split_and!; try done.
  - by apply on_lo_Ok.
  - by apply (alloc_ok_same C2).
  - constructor; try done; [simpl; apply list_lookup_insert_eq; rewrite !length_insert; by eapply lookup_lt_Some|by destruct Hf5|by destruct Mf|].
    apply synced_lock. apply (synced_same C2); try done. by apply Ws.
  - change (fdata C5 i3) with (fdata C5 i2). rewrite Hd5. exact Wd.
  - rewrite (free_list_same C2 C5) by done. change (credit i3) with (credit i2). change (credit i) with (credit i1). lia.
  - intros pre r lr Hp Hc Vr H6 H7 H8. destruct (Haon pre r lr Hp Hc Vr H6 H7 H8) as (r' & lr' & Hrec & Hor). exists r', lr'. split; [done|].
    destruct Hor as [Hor|Hor]; [by left|right]. intros x Hx. rewrite Hor, Hag by done. done.
Qed.

(** A crash during the writes [tr] on the disk [d0], and recovery, leave a disk
    with [P]. *)
Definition crash_safe (l : log) (d0 : gmap Z block) (tr : list (Z * block)) (P : gmap Z block -> Prop) : Prop :=
  forall pre r lr, pre `prefix_of` tr -> rtc (cut_recovery me l) (apply_writes pre d0) (disk r) ->
    bview me r (disk r) ∅ ∅ -> lg_dev lr = 1 -> lg_start lr = lg_start l -> length (lg_block lr) = Z.to_nat LOGSIZE ->
    exists r' lr', recover_from_log me (Lst r lr) = Ok (tt, Lst r' lr') /\ P (disk r').

Lemma crash_safe_start l l' d0 tr P : lg_start l = lg_start l' -> crash_safe l d0 tr P -> crash_safe l' d0 tr P.
Proof.
  intros E H pre r lr Hp Hc V Hd Hs Hl. apply (H pre r lr); try done; [|congruence].
  revert Hc. apply rtc_subrel. intros x y. by apply cut_recovery_start.
Qed.

Lemma crash_safe_app l d0 t1 t2 P : crash_safe l d0 t1 P -> crash_safe l (apply_writes t1 d0) t2 P -> crash_safe l d0 (t1 ++ t2) P.
Proof.
  intros H1 H2 pre r lr Hp Hc. apply prefix_app_cases in Hp as [Hp|(p & Hp & ->)]; [by apply (H1 pre)|].
  rewrite apply_writes_app in Hc. by apply (H2 p).
Qed.

(** The log of a quiet disk is empty: recovery changes nothing. *)
Lemma quiet_safe l C num data : layout sk -> quiet l C -> stored C num data -> crash_safe (lg l) C [] (fun d => stored d num data).
Proof.
  intros Hl Q Hst pre r lr Hp Hc V Hd Hs Hlen. destruct (q_head _ _ Q) as (h & Hh & Hhl & Hhs), (q_conf _ _ Q) as (Qd & _ & Qlen), (q_idle _ _ Q) as (_ & _ & Qn).
  apply prefix_nil_inv in Hp as ->. rewrite <- (quiet_disk _ _ Q) in Hc.
  assert (Hno : forall e : Z * block, e ∉ []) by (intros e; apply not_elem_of_nil).
  assert (Hh0 : holds (lg l) []) by (split_and!; [done|done|intros k e Hk; by rewrite lookup_nil in Hk|done]).
  assert (He0 : entries_ok (lg l) C []).
  { constructor; [constructor|constructor|simpl; unfold LOGSIZE, MAXOPBLOCKS; lia|intros e He; by apply Hno in He|simpl; lia]. }
  destruct (crash_recovers me (bio l) (lg l) C h [] [] r lr) as (r' & lr' & Hr & Hor); try done; [apply Q|intros e He; by apply Hno in He|apply prefix_nil|].
  exists r', lr'. split; [done|]. apply (stored_same C); [done| |done]. rewrite (quiet_disk _ _ Q) in Hor.
  intros x Hx. pose proof (q_home _ _ Q x Hx). by destruct Hor as [-> | ->].
Qed.

Lemma piece_safe l C C' tr num data data' P :
  layout sk -> quiet l C -> all_or_nothing (lg l) C C' tr -> stored C num data -> stored C' num data' ->
  (forall d, stored d num data -> P d) -> (forall d, stored d num data' -> P d) -> crash_safe (lg l) C tr P.
Proof.
  intros Hl Q Ha H1 H2 P1 P2 pre r lr Hp Hc V Hd Hs Hlen. destruct (Ha pre r lr Hp Hc V Hd Hs Hlen) as (r' & lr' & Hr & Hor).
  exists r', lr'. split; [done|].
  destruct Hor as [Hor|Hor]; [apply P1, (stored_same C); try done|apply P2, (stored_same C'); try done]; intros x Hx; by apply Hor, (q_home _ _ Q).
Qed.

Lemma set_fsy_twice a b s : set_fsy a (set_fsy b s) = set_fsy a s.
Proof. done. Qed.

(** One turn of the loop of [filewrite]. *)
Lemma piece_ok fuel s f x ip off C i addr n k (n1 := if MAXCHUNK <? n - k then MAXCHUNK else n - k)
    (l := take (Z.to_nat n1) (drop (Z.to_nat k) addr)) :
  ftab s !! f = Some x -> f_ip x = ip -> f_off x = off -> opened s f ip off C i -> bytes addr -> Z.of_nat (length addr) = n -> 0 <= k < n ->
  0 <= off <= i_size i -> off + n1 <= MAXFILE * BSIZE -> sb_size sk < BPB -> (credit i + 4 <= length (free_list sk C))%nat ->
  exists fs C' i' tr,
    filewrite_loop me devsw (S fuel) f addr n k s =
      filewrite_loop me devsw fuel f addr n (k + n1) (set_fsy fs (set_ftab (<[f := with_foff (off + n1) x]> (ftab s)) s)) /\
    opened (set_fsy fs (set_ftab (<[f := with_foff (off + n1) x]> (ftab s)) s)) f ip (off + n1) C' i' /\
    i_inum i' = i_inum i /\ i_size i' = Z.max (i_size i) (off + n1) /\ fdata C' i' = splice (Z.to_nat off) l (fdata C i) /\
    (length (free_list sk C) + credit i' <= length (free_list sk C') + credit i + 4)%nat /\
    lg_start (lg (lo fs)) = lg_start (lg (lo (fsy s))) /\
    wlog (bio (lo fs)) = wlog (bio (lo (fsy s))) ++ tr /\ apply_writes tr C = C' /\ all_or_nothing (lg (lo (fsy s))) C C' tr.
Proof.
  intros Hx Hip Hoff [Hfile Q Hsb Ha Hop Hr Hlk [Ht Ht0]] Hb Hn Hk Ho Hle Hone Hfr. change (MAXFILE * BSIZE) with 71680 in *.
  assert (Hn1 : 0 < n1 <= 1536 /\ n1 <= n - k). { unfold n1. change MAXCHUNK with 1536. destruct (Z.ltb_spec 1536 (n - k)); lia. }
  assert (Hl : Z.of_nat (length l) = n1) by (unfold l; rewrite length_take, length_drop; lia).
  destruct (piece_fs (fsy s) C ip i off l Q Hsb Ha Hop Hr Hlk Ht) as (s1 & s2 & s3 & s4 & s5 & C' & i' & tr & H1 & H2 & H3 & H4 & H5 & R); rewrite ?Hl; try done.
  { by apply Forall_take, Forall_drop. }
  { change MAXWRITE with 1536. lia. }
  rewrite Hl in H3, R. destruct R as (Q' & Hsb' & Ha' & Hop' & Mr & Ml & Mt & Mn & Ms & Md & Mf & Mst & Mw & Mtr & Maon).
  exists s5, C', i', tr. split; [|split_and!; try done].
  - cbn [filewrite_loop]. replace (k <? n) with true by blia. fold n1. fold l. unfold begin_op_, end_op_, on_fs.
    rewrite (bind_Ok _ _ _ _ _ (zoom_Ok _ _ _ s _ _ H1)).
    rewrite (bind_Ok (get_file f) _ _ x (set_fsy s1 s)) by (unfold get_file; simpl; by rewrite Hx). rewrite Hip, Hoff.
    rewrite (bind_Ok _ _ _ _ _ (zoom_Ok fsy set_fsy _ (set_fsy s1 s) _ _ H2)). rewrite (bind_Ok _ _ _ _ _ (zoom_Ok fsy set_fsy _ (set_fsy s2 s) _ _ H3)).
    replace (0 <? n1) with true by blia. set (y := with_foff (off + n1) x).
    assert (Hu : upd_file f (fun x => with_foff (u32 (f_off x + n1)) x) (set_fsy s3 s) = Ok (tt, set_fsy s3 (set_ftab (<[f := y]> (ftab s)) s))).
    { unfold upd_file. simpl. rewrite Hx. unfold y. rewrite Hoff, u32_small by (unfold u32_range; lia). done. }
    rewrite (bind_Ok _ _ _ _ _ Hu). rewrite (bind_Ok _ _ _ _ _ (zoom_Ok fsy set_fsy _ (set_fsy s3 (set_ftab (<[f := y]> (ftab s)) s)) _ _ H4)). rewrite set_fsy_twice.
    rewrite (bind_Ok _ _ _ _ _ (zoom_Ok fsy set_fsy _ (set_fsy s4 (set_ftab (<[f := y]> (ftab s)) s)) _ _ H5)).
    replace (n1 <? 0) with false by blia. rewrite Z.eqb_refl. done.
  - constructor; try done; [|lia|by rewrite Mt]. exists (with_foff (off + n1) x). simpl. split; [|done].
    apply list_lookup_insert_eq. by eapply lookup_lt_Some.
Qed.

(** ** The whole write *)

(** The number of pieces for [m] bytes. *)
Definition pieces (m : Z) : Z := (m + (MAXCHUNK - 1)) / MAXCHUNK.

Lemma pieces_step m n1 : 0 < m -> n1 = (if MAXCHUNK <? m then MAXCHUNK else m) -> 0 <= pieces (m - n1) /\ pieces (m - n1) + 1 <= pieces m.
Proof.
  unfold pieces. change MAXCHUNK with 1536. intros Hm ->. destruct (Z.ltb_spec 1536 m).
  - split; [apply Z.div_pos; lia|]. replace (m + (1536 - 1)) with (m - 1536 + (1536 - 1) + 1 * 1536) by lia. rewrite Z.div_add by lia. lia.
  - replace (m - m) with 0 by lia. split; [done|]. change ((0 + (1536 - 1)) / 1536) with 0. apply Z.div_le_lower_bound; lia.
Qed.

Lemma loop_ok fuel : forall s f x ip off0 C i addr n k data num,
  ftab s !! f = Some x -> f_ip x = ip -> f_off x = off0 + k -> opened s f ip (off0 + k) C i -> i_inum i = num ->
  bytes addr -> Z.of_nat (length addr) = n -> 0 <= k <= n ->
  0 <= off0 <= Z.of_nat (length data) -> off0 + k <= i_size i -> off0 + n <= MAXFILE * BSIZE -> sb_size sk < BPB ->
  fdata C i = splice (Z.to_nat off0) (take (Z.to_nat k) addr) data ->
  pieces (n - k) < Z.of_nat fuel -> Z.of_nat (credit i) + 4 * pieces (n - k) <= Z.of_nat (length (free_list sk C)) ->
  exists fs C' i' tr (s' := set_fsy fs (set_ftab (<[f := with_foff (off0 + n) x]> (ftab s)) s)),
    filewrite_loop me devsw fuel f addr n k s = Ok (n, s') /\ opened s' f ip (off0 + n) C' i' /\ i_inum i' = num /\
    off0 + n <= i_size i' /\ fdata C' i' = splice (Z.to_nat off0) addr data /\ wlog (bio (lo fs)) = wlog (bio (lo (fsy s))) ++ tr /\
    lg_start (lg (lo fs)) = lg_start (lg (lo (fsy s))) /\
    crash_safe (lg (lo (fsy s))) C tr (fun d => exists m, 0 <= m <= n /\ stored d num (splice (Z.to_nat off0) (take (Z.to_nat m) addr) data)).
Proof.
  induction fuel as [|fuel IH]; intros s f x ip off0 C i addr n k data num Hx Hip Hoff Hop Hnum Hb Hn Hk Ho Hoi Hle Hone Hdata Hfuel Hfree.
  { assert (0 <= pieces (n - k)) by (apply Z.div_pos; [change MAXCHUNK with 1536; lia|done]). lia. }
  pose proof (a_layout _ _ (op_alloc _ _ _ _ _ _ Hop)) as Hlay. pose proof (opened_stored _ _ _ _ _ _ Hop) as Hsto.
  assert (Hst : stored C num (splice (Z.to_nat off0) (take (Z.to_nat k) addr) data)) by congruence.
  destruct (decide (k = n)) as [->|Hne].
  - exists (fsy s), C, i, []. cbn [filewrite_loop]. rewrite Z.ltb_irrefl.
    assert (Es : set_fsy (fsy s) (set_ftab (<[f := with_foff (off0 + n) x]> (ftab s)) s) = s).
    { unfold with_foff. rewrite <- Hoff. destruct x, s. simpl in *. by rewrite list_insert_id. }
    cbv zeta. rewrite Es. rewrite take_ge in Hdata by lia. split_and!; try done; [by rewrite app_nil_r|].
    intros pre r lr Hp Hc V H1 H2 H3. destruct (quiet_safe _ C num _ Hlay (op_quiet _ _ _ _ _ _ Hop) Hst pre r lr Hp Hc V H1 H2 H3) as (r' & lr' & ? & ?).
    exists r', lr'. split; [done|]. exists n. split; [lia|done].
  - set (n1 := if MAXCHUNK <? n - k then MAXCHUNK else n - k) in *.
    destruct (pieces_step (n - k) n1 ltac:(lia) eq_refl) as [Hp1 Hp2].
    assert (Hn1 : 0 < n1 <= n - k) by (unfold n1; change MAXCHUNK with 1536; destruct (Z.ltb_spec 1536 (n - k)); lia).
    destruct (piece_ok fuel s f x ip (off0 + k) C i addr n k Hx Hip Hoff Hop Hb Hn ltac:(lia) ltac:(lia)) as (fs & C1 & i1 & tr & H1 & Hop1 & Mn & Ms & Md & Mf & Mst & Mw & Mtr & Maon);
      [fold n1; lia|done|lia|]. fold n1 in H1, Hop1, Ms, Md. rewrite H1. clear H1.
    set (s1 := set_fsy fs (set_ftab (<[f := with_foff (off0 + k + n1) x]> (ftab s)) s)) in *.
    rewrite <- (Z.add_assoc off0 k n1) in Hop1.
    assert (Hdata1 : fdata C1 i1 = splice (Z.to_nat off0) (take (Z.to_nat (k + n1)) addr) data).
    { rewrite Md, Hdata. replace (Z.to_nat (off0 + k)) with (Z.to_nat off0 + length (take (Z.to_nat k) addr))%nat by (rewrite length_take; lia).
      rewrite splice_app by lia. f_equal. rewrite <- (take_drop (Z.to_nat k) (take (Z.to_nat (k + n1)) addr)).
      rewrite take_take, Nat.min_l by lia. f_equal. rewrite skipn_firstn_comm. f_equal. lia. }
    destruct (IH s1 f (with_foff (off0 + k + n1) x) ip off0 C1 i1 addr n (k + n1) data num) as (fs2 & C2 & i2 & tr2 & H2 & Hop2 & Mn2 & Ms2 & Md2 & Mw2 & Mst2 & Hsafe); try done; try lia.
    + unfold s1. simpl. apply list_lookup_insert_eq. by eapply lookup_lt_Some.
    + simpl. lia.
    + replace (n - (k + n1)) with (n - k - n1) by lia. lia.
    + replace (n - (k + n1)) with (n - k - n1) by lia. lia.
    + unfold s1 in H2, Hop2. simpl in H2, Hop2. rewrite list_insert_insert_eq in H2, Hop2.
      exists fs2, C2, i2, (tr ++ tr2). split_and!; try done; [rewrite Mw2; simpl; by rewrite Mw, app_assoc|rewrite Mst2; done|].
      apply crash_safe_app.
      * apply (piece_safe (lo (fsy s)) C C1 tr num (splice (Z.to_nat off0) (take (Z.to_nat k) addr) data) (splice (Z.to_nat off0) (take (Z.to_nat (k + n1)) addr) data)); try done.
        -- apply (op_quiet _ _ _ _ _ _ Hop).
        -- rewrite <- Hdata1, <- Hnum, <- Mn. by apply (opened_stored _ _ _ _ _ _ Hop1).
        -- intros d Hd. exists k. split; [lia|done].
        -- intros d Hd. exists (k + n1). split; [lia|done].
      * rewrite Mtr. apply (crash_safe_start (lg (lo (fsy s1)))); done.
Qed.

(** ** Reading *)

(** A quiet disk as the view of an operation that logs nothing. *)
Lemma quiet_view l C : quiet l C -> tview me (lg l) (bio l) l C ∅ ∅.
Proof.
  intros Q. pose proof (quiet_disk _ _ Q) as Hd. destruct Q as [Qv (Q1 & Q2 & Q3) (Q4 & Q5 & Q6) _ _ _]. constructor; try done.
  - intros n _. by rewrite Hd.
  - by destruct (lg l).
  - rewrite Q3. unfold LOGSIZE, MAXOPBLOCKS. lia.
  - by rewrite Q3.
  - rewrite Q3. constructor.
Qed.

Lemma fileread_quiet s g y C i m :
  ftab s !! g = Some y -> f_type y = FD_INODE -> f_readable y <> 0 -> opened s g (f_ip y) (f_off y) C i -> 0 <= f_off y <= i_size i -> 0 <= m ->
  f_off y + m < 2 ^ 32 ->
  exists s', fileread me devsw g m s = Ok ((Z.min m (i_size i - f_off y), take (Z.to_nat m) (drop (Z.to_nat (f_off y)) (fdata C i))), s').
Proof.
  intros Hy Hty Hrd [_ Q Hsb Ha Hop Hr Hlk [Ht _]] Ho Hm Hov. unfold fileread.
  rewrite (bind_Ok (get_file g) _ _ y s) by (unfold get_file; by rewrite Hy). apply Z.eqb_neq in Hrd as ->. rewrite Hty. unfold on_fs.
  pose proof (o_entry _ _ _ _ _ Hop) as Hi. pose proof (ilock_valid (fsy s) (f_ip y) i Hi Hr Hlk (o_valid _ _ _ _ _ Hop)) as H1.
  rewrite (bind_Ok _ _ _ _ _ (zoom_Ok fsy set_fsy _ s _ _ H1)).
  pose proof (open_inode_lock (fsy s) C (f_ip y) i (Sleeplock 1 me) Hop) as Hop1. set (i1 := with_ilock (Sleeplock 1 me) i) in *. set (s1 := set_ip (f_ip y) i1 (fsy s)) in *.
  destruct (readi_tx me (lg (lo (fsy s))) (bio (lo (fsy s))) sk devsw s1 (f_ip y) i1 C ∅ (f_off y) m) as (l2 & H2 & _); try done; try apply Hop1.
  { apply quiet_view. exact Q. }
  { rewrite size_empty. unfold NBUF. lia. }
  change (i_size i1) with (i_size i) in H2. change (fdata C i1) with (fdata C i) in H2. set (r := (Z.min m (i_size i - f_off y), _)) in H2 |- *.
  rewrite (bind_Ok _ _ _ _ _ (zoom_Ok fsy set_fsy _ (set_fsy s1 s) _ _ H2)).
  assert (Hu : exists t, (if 0 <? fst r then upd_file g (fun x => with_foff (u32 (f_off x + fst r)) x) else ret tt) (set_fsy (set_lo l2 s1) s) = Ok (tt, set_fsy (set_lo l2 s1) t)).
  { destruct (0 <? fst r); [|by exists s]. unfold upd_file. simpl. rewrite Hy. by eexists (set_ftab _ s). }
  destruct Hu as [t Hu]. rewrite (bind_Ok _ _ _ _ _ Hu).
  assert (H3 : iunlock me (Some (f_ip y)) (set_lo l2 s1) = Ok (tt, set_ip (f_ip y) (with_ilock (Sleeplock 0 0) i1) (set_lo l2 s1))) by (apply iunlock_held; [apply Hop1|done|done]).
  rewrite (bind_Ok _ _ _ _ _ (zoom_Ok fsy set_fsy _ (set_fsy (set_lo l2 s1) t) _ _ H3)). by eexists.
Qed.

(** C32: [filewrite] of any length on an open file, with
    enough free blocks, writes everything: it returns [n], the offset moves on,
    and every descriptor on the file then reads the bytes of the file with the
    new ones in place.  They are on the disk.  And if the machine stops after
    any of the disk writes on the way, and again during any recovery, the
    recovery that completes finds the file with the first [m] bytes written,
    for some [m], and otherwise as it was. *)
Theorem filewrite_is_durable s f x C i src :
  let n := Z.of_nat (length src) in let off := f_off x in let data := fdata C i in
  ftab s !! f = Some x -> f_type x = FD_INODE -> f_writable x <> 0 -> opened s f (f_ip x) off C i -> bytes src ->
  0 <= off <= i_size i -> off + n <= MAXFILE * BSIZE -> sb_size sk < BPB ->
  Z.of_nat (credit i) + 4 * pieces n <= Z.of_nat (length (free_list sk C)) ->
  exists s' C' i' tr, filewrite me devsw f src n s = Ok (n, s') /\
    opened s' f (f_ip x) (off + n) C' i' /\ fdata C' i' = splice (Z.to_nat off) src data /\
    disk (bio (lo (fsy s'))) = C' /\ stored C' (i_inum i) (splice (Z.to_nat off) src data) /\
    (forall g y m, ftab s' !! g = Some y -> f_type y = FD_INODE -> f_readable y <> 0 -> f_ip y = f_ip x -> 0 <= f_off y <= i_size i' ->
      0 <= m -> f_off y + m < 2 ^ 32 -> exists s'', fileread me devsw g m s' =
        Ok ((Z.min m (i_size i' - f_off y), take (Z.to_nat m) (drop (Z.to_nat (f_off y)) (splice (Z.to_nat off) src data))), s'')) /\
    wlog (bio (lo (fsy s'))) = wlog (bio (lo (fsy s))) ++ tr /\
    crash_safe (lg (lo (fsy s))) (disk (bio (lo (fsy s)))) tr
      (fun d => exists m, 0 <= m <= n /\ stored d (i_inum i) (splice (Z.to_nat off) (take (Z.to_nat m) src) data)).
Proof.
  intros n off data Hx Hty Hw Hop Hb Ho Hle Hone Hfree. pose proof (o_file _ _ _ _ _ (op_inode _ _ _ _ _ _ Hop)) as Hf.
  assert (Hlen : Z.of_nat (length data) = i_size i) by (unfold data; rewrite fdata_length by lia; pose proof (f_size _ _ _ Hf); lia).
  destruct (loop_ok (S (S (Z.to_nat (n / MAXCHUNK)))) s f x (f_ip x) off C i src n 0 data (i_inum i)) as (fs & C' & i' & tr & H1 & Hop' & Mn & Ms & Md & Mw & _ & Hsafe);
    try done; try (rewrite ?Z.add_0_r, ?Z.sub_0_r; done || lia).
  - unfold data, splice. rewrite take_0. simpl. by rewrite Nat.add_0_r, take_drop.
  - rewrite Z.sub_0_r. unfold pieces. change MAXCHUNK with 1536. assert (0 <= n) by lia.
    assert ((n + (1536 - 1)) / 1536 <= n / 1536 + 1) by (Z.to_euclidean_division_equations; lia). pose proof (Z.div_pos n 1536 ltac:(lia) ltac:(lia)). lia.
  - set (s' := set_fsy fs _) in *. exists s', C', i', tr. pose proof (op_quiet _ _ _ _ _ _ Hop') as Q'.
    split; [unfold filewrite; rewrite (bind_Ok (get_file f) _ _ x s) by (unfold get_file; by rewrite Hx); apply Z.eqb_neq in Hw as ->; rewrite Hty;
            rewrite (bind_Ok _ _ _ _ _ H1), Z.eqb_refl; done|].
    split_and!; try done.
    + by apply quiet_disk.
    + rewrite <- Md, <- Mn. by apply (opened_stored _ _ _ _ _ _ Hop').
    + intros g y m Hy Ht Hr Hip Ho' Hm Hov. rewrite <- Md. apply fileread_quiet; try done. rewrite Hip. destruct Hop'. constructor; try done. eauto.
    + by rewrite (quiet_disk _ _ (op_quiet _ _ _ _ _ _ Hop)).
Qed.

End write.
