(* ===== verification/FileDemo.v ===== *)
(** * A running process with files

    A process with one page of memory on the example disk; the witnesses for
    the theorems on files. *)

From S2P Require Import Prelude Spinlock Mmu Kalloc Block Sleeplock Bio Log Fs Vm VmPt VmCopy Pipe Syscall File Sysfile FileProps FileWrite LogCrash FsTx FsAlloc FsFile FsRw FsInode FsProps FsDemo.

(** Page directory, page table, user page, and free pages behind them. *)
Definition demo_kva (n : Z) : Z := demo_end + n * PGSIZE.

Definition demo_word (l : list (nat * Z)) : list Z := foldr (fun iv ws => <[fst iv := snd iv]> ws) (replicate PAGE_WORDS 0) l.

Definition demo_umem (l : list (nat * Z)) : kst :=
  Kst boot_hw (Spinlock 0 None) 0 (demo_kva 3)
    (list_to_map [(demo_kva 0, demo_word [(0%nat, demo_kva 1 - KERNBASE + 7)]); (demo_kva 1, demo_word [(0%nat, demo_kva 2 - KERNBASE + 7)]);
                  (demo_kva 2, demo_word l); (demo_kva 3, demo_word [])]).

Definition no_file : file := File FD_NONE 0 0 0 0 0 0.

(** The stack at 0 holds the arguments of a call. *)
Definition demo_kern (fs : fsys) (l : list (nat * Z)) : kern :=
  Kern fs (replicate NFILE no_file) ∅ (demo_umem l) (replicate NOFILE None) 0 false (Uctx (demo_kva 0) 4096 0) [].

Definition demo_piped : kern := after (sys_pipe 3 demo_end) (demo_kern demo_fs [(1%nat, 256)]).

Lemma demo_no_files fs l : no_files (demo_kern fs l) [].
Proof.
  split_and!; [|done|].
  - intros f x Hf. apply lookup_replicate in Hf as [-> _]. done.
  - intros t f Ht. apply list_elem_of_singleton in Ht as ->. intros Hf. apply elem_of_replicate in Hf as [? _]. done.
Qed.

Lemma demo_new_page fs l : page_is_new (demo_kern fs l).
Proof. right. apply lookup_empty. Qed.

(** A process opens a pipe and forks: both ends have two references. *)
Lemma references_match_descriptors_witness :
  exists s t, ofile s = t /\ take 3 t = [Some 0; Some 1; None]%nat /\
    forall f x, ftab s !! f = Some x -> f_ref x = uses f [t; t].
Proof.
  set (s := after (fork_files (ofile demo_piped)) demo_piped). exists s, (ofile s). split; [reflexivity|]. split; [vm_compute; reflexivity|].
  destruct (references_match_descriptors 3 demo_end nodev [] (demo_kern demo_fs [(1%nat, 256)]) [] s [ofile s] (demo_no_files _ _)) as [H _]; [|exact H].
  apply rtc_l with (demo_piped, []).
  - apply (fs_call _ _ _ _ (sys_pipe 3 demo_end) 0); [apply elem_of_app; right; do 5 right; left|apply demo_new_page|vm_compute; reflexivity].
  - apply rtc_once. apply fs_fork. vm_compute. reflexivity.
Defined.

(** ** A write *)

Definition demo_idle : fsys := Fsys (Lst (fresh demo_disk) (Log 40 30 0 0 1 0 (replicate 30 0))) demo_sb demo_icache [].

(** The file of the example disk, open for reading and writing at its end. *)
Definition demo_open : file := File FD_INODE 1 1 1 0 1 5.

Definition demo_wkern : kern :=
  Kern demo_idle (demo_open :: replicate 99 no_file) ∅ (demo_umem []) (Some 0%nat :: replicate 15 None) 0 false (Uctx (demo_kva 0) 4096 0) [].

Lemma demo_quiet : quiet 3 demo_sb (lo demo_idle) demo_disk.
Proof.
  constructor; try done; [apply fresh_view| | |].
  - exists zeros. split_and!; [by rewrite fs_demo_lookup|done|]. split; [by vm_compute|]. intros k v Hk. by rewrite lookup_nil in Hk.
  - intros n [H1 H2]. rewrite fs_demo_lookup; [eauto|]. simpl in H1, H2. unfold LOGSIZE, MAXOPBLOCKS in H2. lia.
  - intros n Hn. unfold area. simpl in *. lia.
Qed.

Lemma filewrite_is_durable_witness :
  exists s' C', filewrite 3 nodev 0 more 4 demo_wkern = Ok (4, s') /\ disk (bio (lo (fsy s'))) = C' /\
    stored demo_sb C' 2 [104; 101; 108; 108; 111; 32; 121; 111; 117].
Proof.
  destruct (filewrite_is_durable 3 demo_sb nodev demo_wkern 0 demo_open demo_disk demo_file more) as (s' & C' & i' & tr & H1 & _ & _ & H2 & H3 & _).
  - reflexivity.
  - reflexivity.
  - discriminate.
  - constructor; try done; [by exists demo_open|apply demo_quiet|apply demo_alloc|].
    destruct demo_open_file. by constructor.
  - repeat constructor; lia.
  - simpl. lia.
  - by vm_compute.
  - by vm_compute.
  - rewrite demo_free_list, length_seqZ. by vm_compute.
  - exists s', C'. split; [exact H1|]. split; [exact H2|]. rewrite demo_hello_data in H3. exact H3.
Defined.
