(* ===== verification/Sh.v ===== *)
(** * The shell

    Models the parser of [sh.c].  A [char*] into the command line is an index
    of the buffer, a [struct cmd*] an index of the table of the structures
    allocated so far; [room] is how many [malloc] can supply, and behind that
    the constructor follows a null pointer.  The parser keeps the [execcmd] it
    fills while [redircmd]s are already put around it, so the structures are
    kept in the table and changed there. *)

From S2P Require Import Prelude Console CString Sysfile.

Definition MAXARGS : nat := 20.

(** [struct execcmd], [redircmd], [pipecmd], [listcmd], [backcmd]. *)
Inductive cmd :=
| EXEC (argv eargv : list (option nat))
| REDIR (c : nat) (file efile : nat) (mode fd : Z)
| PIPE (left right : nat)
| LIST (left right : nat)
| BACK (c : nat).

(** Where the parser is, [*ps], and the structures. *)
Record pst := Pst { ps : nat; cmds : list cmd }.

Definition set_ps v s := Pst v (cmds s).
Definition set_cmds v s := Pst (ps s) v.

Definition whitespace : list Z := [32; 9; 13; 10; 11].
Definition symbols : list Z := codes "<|>&;()".

(** [strchr(set, c)], of a string constant. *)
Definition strchr_ (set : list Z) (c : Z) : result bool :=
  let? r := ULib.strchr (set ++ [0]) 0 c in
  Ok (match r with Some _ => true | None => false end).

Section parser.

(** The buffer, the end of the command line in it, the memory for structures. *)
Context (buf : list Z) (es room : nat).

(** ** Constructors *)

Definition new_cmd (c : cmd) : M pst nat := fun s =>
  if decide (length (cmds s) < room)%nat then Ok (length (cmds s), set_cmds (cmds s ++ [c]) s) else Fault.

Definition execcmd : M pst nat := new_cmd (EXEC (replicate MAXARGS None) (replicate MAXARGS None)).
Definition redircmd (subcmd : nat) (file efile : nat) (mode fd : Z) : M pst nat := new_cmd (REDIR subcmd file efile mode fd).
Definition pipecmd (left right : nat) : M pst nat := new_cmd (PIPE left right).
Definition listcmd (left right : nat) : M pst nat := new_cmd (LIST left right).
Definition backcmd (subcmd : nat) : M pst nat := new_cmd (BACK subcmd).

(** ** Tokens *)

(** [while(s < es && strchr(whitespace, *s)) s++;] *)
Fixpoint skip_space (fuel s : nat) : result nat :=
  if decide (s < es)%nat then
    match fuel with
    | O => NoFuel
    | S f =>
        let? c := rd buf s in
        let? w := strchr_ whitespace c in
        if w : bool then skip_space f (S s) else Ok s
    end
  else Ok s.

(** [while(s < es && !strchr(whitespace, *s) && !strchr(symbols, *s)) s++;] *)
Fixpoint skip_word (fuel s : nat) : result nat :=
  if decide (s < es)%nat then
    match fuel with
    | O => NoFuel
    | S f =>
        let? c := rd buf s in
        let? w := strchr_ whitespace c in
        let? y := strchr_ symbols c in
        if (w || y) : bool then Ok s else skip_word f (S s)
    end
  else Ok s.

(** The token, where it starts and ends, and where the next one starts. *)
Definition gettoken_at (s : nat) : result (Z * nat * nat * nat) :=
  let? q := skip_space es s in
  let? c := rd buf q in
  let? r :=
    (if c =? 0 then Ok (c, q)
     else if forallb (fun x => negb (c =? x)) (codes "|();&<") then
       if c =? 62 then
         let? d := rd buf (S q) in
         if d =? 62 then Ok (43, S (S q)) else Ok (c, S q)
       else let? e := skip_word es q in Ok (97, e)
     else Ok (c, S q)) in
  let '(tok, eq) := r in
  let? n := skip_space es eq in
  Ok (tok, q, eq, n).

Definition gettoken : M pst (Z * nat * nat) := fun s =>
  let? r := gettoken_at (ps s) in
  let '(tok, q, eq, n) := r in
  Ok (tok, q, eq, set_ps n s).

Definition peek (toks : list Z) : M pst bool := fun s =>
  let? n := skip_space es (ps s) in
  let? c := rd buf n in
  if c =? 0 then Ok (false, set_ps n s)
  else let? b := strchr_ toks c in Ok (b, set_ps n s).

(** ** The parser *)

(** The loop of [parseredirs]. *)
Fixpoint parseredirs (fuel : nat) (c : nat) : M pst nat :=
  match fuel with
  | O => nofuel
  | S f =>
      let* b := peek (codes "<>") in
      if b : bool then
        let* t := gettoken in
        let '(tok, _, _) := t in
        let* u := gettoken in
        let '(tok2, q, eq) := u in
        if negb (tok2 =? 97) then panic "missing file for redirection"
        else
          let* c :=
            (if tok =? 60 then redircmd c q eq O_RDONLY 0
             else if tok =? 62 then redircmd c q eq (Z.lor O_WRONLY O_CREATE) 1
             else if tok =? 43 then redircmd c q eq (Z.lor O_WRONLY O_CREATE) 1
             else ret c) in
          parseredirs f c
      else ret c
  end.

(** [cmd->argv[i] = q; cmd->eargv[i] = eq] *)
Definition set_arg (c i : nat) (q eq : option nat) : M pst unit := fun s =>
  match cmds s !! c with
  | Some (EXEC a e) =>
      if decide (i < MAXARGS)%nat then Ok (tt, set_cmds (<[c := EXEC (<[i := q]> a) (<[i := eq]> e)]> (cmds s)) s) else Fault
  | _ => Fault
  end.

(** The loop of [parseexec]: [c] is the [execcmd], [r] what is around it. *)
Fixpoint parseargs (fuel : nat) (c r argc : nat) : M pst nat :=
  match fuel with
  | O => nofuel
  | S f =>
      let finish : M pst nat := set_arg c argc None None ;;; ret r in
      let* b := peek (codes "|)&;") in
      if b : bool then finish
      else
        let* t := gettoken in
        let '(tok, q, eq) := t in
        if tok =? 0 then finish
        else if negb (tok =? 97) then panic "syntax"
        else
          set_arg c argc (Some q) (Some eq) ;;;
          if decide (MAXARGS <= S argc)%nat then panic "too many args"
          else
            let* r := parseredirs f r in
            parseargs f c r (S argc)
  end.

(** The loop [while(peek(ps, es, "&"))] of [parseline]. *)
Fixpoint parsebacks (fuel : nat) (c : nat) : M pst nat :=
  match fuel with
  | O => nofuel
  | S f =>
      let* b := peek (codes "&") in
      if b : bool then
        gettoken ;;;
        let* c := backcmd c in
        parsebacks f c
      else ret c
  end.

Fixpoint parseline (fuel : nat) : M pst nat :=
  match fuel with
  | O => nofuel
  | S f =>
      let* c := parsepipe f in
      let* c := parsebacks f c in
      let* b := peek (codes ";") in
      if b : bool then
        gettoken ;;;
        let* d := parseline f in
        listcmd c d
      else ret c
  end
with parsepipe (fuel : nat) : M pst nat :=
  match fuel with
  | O => nofuel
  | S f =>
      let* c := parseexec f in
      let* b := peek (codes "|") in
      if b : bool then
        gettoken ;;;
        let* d := parsepipe f in
        pipecmd c d
      else ret c
  end
with parseexec (fuel : nat) : M pst nat :=
  match fuel with
  | O => nofuel
  | S f =>
      let* b := peek (codes "(") in
      if b : bool then parseblock f
      else
        let* c := execcmd in
        let* r := parseredirs f c in
        parseargs f c r 0
  end
with parseblock (fuel : nat) : M pst nat :=
  match fuel with
  | O => nofuel
  | S f =>
      let* b := peek (codes "(") in
      if negb b then panic "parseblock"
      else
        gettoken ;;;
        let* c := parseline f in
        let* b := peek (codes ")") in
        if negb b then panic "syntax - missing )"
        else
          gettoken ;;;
          parseredirs f c
  end.

End parser.

(** ** nulterminate *)

(** [*p = 0] *)
Definition zero_at (p : nat) (b : list Z) : result (list Z) :=
  if decide (p < length b)%nat then Ok (<[p := 0]> b) else Fault.

(** [for(i = 0; ecmd->argv[i]; i++) *ecmd->eargv[i] = 0;] *)
Fixpoint zero_args (fuel i : nat) (argv eargv : list (option nat)) (b : list Z) : result (list Z) :=
  match fuel with
  | O => NoFuel
  | S f =>
      match argv !! i with
      | Some (Some _) =>
          match eargv !! i with
          | Some (Some p) => let? b := zero_at p b in zero_args f (S i) argv eargv b
          | _ => Fault
          end
      | Some None => Ok b
      | None => Fault
      end
  end.

(** A structure only points to older ones, so its index bounds the depth. *)
Fixpoint nulterminate (fuel : nat) (cs : list cmd) (c : nat) (b : list Z) : result (list Z) :=
  match fuel with
  | O => NoFuel
  | S f =>
      match cs !! c with
      | None => Fault
      | Some (EXEC a e) => zero_args (S MAXARGS) 0 a e b
      | Some (REDIR d _ efile _ _) => let? b := nulterminate f cs d b in zero_at efile b
      | Some (PIPE l r) => let? b := nulterminate f cs l b in nulterminate f cs r b
      | Some (LIST l r) => let? b := nulterminate f cs l b in nulterminate f cs r b
      | Some (BACK d) => nulterminate f cs d b
      end
  end.

(** Every call of the parser on the way down to the next token takes one unit
    of fuel, and there are at most four. *)
Definition parse_fuel (es : nat) : nat := 4 * es + 8.

(** The command, the structures and the buffer with the strings terminated. *)
Definition parsecmd (room : nat) (buf : list Z) : result (nat * list cmd * list Z) :=
  let? n := ULib.strlen buf 0 in
  let es := Z.to_nat n in
  let? r := parseline buf es room (parse_fuel es) (Pst 0 []) in
  let '(c, s) := r in
  let? p := peek buf es [] s in
  let '(_, s) := p in
  if negb (ps s =? es)%nat then Panic "syntax"
  else
    let? b := nulterminate (S c) (cmds s) c buf in
    Ok (c, cmds s, b).
