(* ===== verification/ShLex.v ===== *)
(** * Tokens of the shell

    The tokens of a command line as a function of its text, and what [peek]
    and [gettoken] do in terms of them. *)

From S2P Require Import Prelude Console CString Grep Sysfile Sh.

Definition is_in (set : list Z) (c : Z) : bool := bool_decide (c ∈ set).

Lemma strchr_is_in set c : Forall (fun v => 0 < v < 256) set -> strchr_ set c = Ok (is_in set c).
Proof.
  intros Hs. assert (Hc : cstr (set ++ [0]) 0 set) by (split; [by exists []|done]).
  unfold strchr_, ULib.strchr, is_in. rewrite length_app. simpl length. case_bool_decide as Hin.
  - destruct (list_elem_of_split_l _ _ Hin) as (u & v & -> & Hu). by rewrite (strchr_loop_some _ c u v) by (rewrite ?length_app; done || lia).
  - by rewrite (strchr_loop_none _ c set) by (done || lia).
Qed.

Lemma whitespace_ok : Forall (fun v => 0 < v < 256) whitespace.
Proof. repeat constructor; lia. Qed.

Lemma symbols_ok : Forall (fun v => 0 < v < 256) symbols.
Proof. repeat constructor; vm_compute; done. Qed.

Definition is_space (c : Z) : bool := is_in whitespace c.
Definition in_word (c : Z) : bool := negb (is_in whitespace c || is_in symbols c).

(** A symbol, [>>], or a word. *)
Inductive token := Sym (c : Z) | App | Word (w : list Z).

Fixpoint ltrim (l : list Z) : list Z :=
  match l with [] => [] | c :: r => if is_space c then ltrim r else l end.

Fixpoint take_word (l : list Z) : list Z :=
  match l with [] => [] | c :: r => if in_word c then c :: take_word r else [] end.

Fixpoint drop_word (l : list Z) : list Z :=
  match l with [] => [] | c :: r => if in_word c then drop_word r else l end.

Lemma take_drop_word l : take_word l ++ drop_word l = l.
Proof. induction l as [|c l IH]; simpl; [done|]. destruct (in_word c); simpl; [by rewrite IH|done]. Qed.

(** The first token of a text without leading space, and what follows it. *)
Definition next (l : list Z) : option (token * list Z) :=
  match l with
  | [] => None
  | c :: r =>
      if is_in (codes "|();&<") c then Some (Sym c, r)
      else if c =? 62 then
        match r with
        | d :: r' => if d =? 62 then Some (App, r') else Some (Sym 62, r)
        | [] => Some (Sym 62, r)
        end
      else Some (Word (take_word l), drop_word l)
  end.

Inductive lexes : list Z -> list token -> Prop :=
| lex_end l : ltrim l = [] -> lexes l []
| lex_next l t r ts : next (ltrim l) = Some (t, r) -> lexes r ts -> lexes l (t :: ts).

Lemma ltrim_ltrim l : ltrim (ltrim l) = ltrim l.
Proof. induction l as [|c l IH]; simpl; [done|]. destruct (is_space c) eqn:E; [done|]. simpl. by rewrite E. Qed.

Lemma ltrim_length l : (length (ltrim l) <= length l)%nat.
Proof. induction l as [|c l IH]; simpl; [done|]. destruct (is_space c); simpl; lia. Qed.

Lemma ltrim_hd c l r : ltrim l = c :: r -> is_space c = false.
Proof. induction l as [|d l IH]; simpl; [done|]. destruct (is_space d) eqn:E; [done|]. by intros [= <- <-]. Qed.

Lemma lexes_ltrim l ts : lexes l ts <-> lexes (ltrim l) ts.
Proof.
  split; intros H.
  - destruct H; econstructor; rewrite ?ltrim_ltrim; eauto.
  - remember (ltrim l) as m eqn:E. destruct H; subst; rewrite ltrim_ltrim in *; econstructor; eauto.
Qed.

(** A character with which a word starts. *)
Lemma word_start c l r : ltrim l = c :: r -> is_in (codes "|();&<") c = false -> c <> 62 -> in_word c = true.
Proof.
  intros Hl Hs Hc. apply ltrim_hd in Hl. unfold in_word. unfold is_space in Hl. rewrite Hl. simpl. apply negb_true_iff.
  unfold is_in in *. apply bool_decide_eq_false. apply bool_decide_eq_false in Hs. intros Hin. apply Hs. vm_compute in Hin |- *.
  repeat (apply elem_of_cons in Hin as [->|Hin]); [..|by apply elem_of_nil in Hin]; try done; repeat (first [left|right]).
Qed.

Lemma take_word_start c l r : ltrim l = c :: r -> is_in (codes "|();&<") c = false -> c <> 62 -> take_word (ltrim l) <> [].
Proof. intros Hl Hs Hc. rewrite Hl. simpl. by rewrite (word_start c l r). Qed.

Lemma next_shorter l t r : next (ltrim l) = Some (t, r) -> (length r < length l)%nat.
Proof.
  intros Hn. pose proof (ltrim_length l) as Hl. destruct (ltrim l) as [|c m] eqn:E; [done|]. unfold next in Hn. simpl in Hl.
  destruct (is_in _ c) eqn:Es; [by simplify_eq|]. destruct (c =? 62) eqn:E62.
  - destruct m as [|d m]; [|destruct (d =? 62)]; simplify_eq; simpl in *; lia.
  - pose proof (take_word_start c l m E Es ltac:(lia)) as Hw. rewrite E in Hw. pose proof (take_drop_word (c :: m)) as Ht. injection Hn as _ <-.
    apply (f_equal length) in Ht. rewrite length_app in Ht. destruct (take_word (c :: m)); [done|]. simpl in Ht |- *. lia.
Qed.

(** The tokens of a text. *)
Fixpoint lex (n : nat) (l : list Z) : list token :=
  match n with
  | O => []
  | S n => match next (ltrim l) with Some (t, r) => t :: lex n r | None => [] end
  end.

Definition tokens (l : list Z) : list token := lex (length l) l.

Lemma lex_lexes n l : (length l <= n)%nat -> lexes l (lex n l) /\ (length (lex n l) <= length l)%nat.
Proof.
  revert l. induction n as [|n IH]; intros l Hn; simpl.
  - destruct l; [|simpl in Hn; lia]. split; [by constructor|done].
  - destruct (next (ltrim l)) as [[t r]|] eqn:E.
    + pose proof (next_shorter _ _ _ E). destruct (IH r) as [H1 H2]; [lia|]. split; [by econstructor|simpl; lia].
    + split; [|simpl; lia]. constructor. unfold next in E. destruct (ltrim l) as [|c m]; [done|]. by repeat case_match.
Qed.


Section line.

(** The buffer holds the command line [l]. *)
Context (buf l : list Z) (Hbuf : cstr buf 0 l).

Notation es := (length l).

Lemma text p : (p <= es)%nat -> cstr buf p (drop p l).
Proof.
  intros Hp. destruct Hbuf as [[r E] Hl]. rewrite drop_0 in E. split; [|by apply Forall_drop].
  exists r. by rewrite E, drop_app_le.
Qed.

Lemma text_cons p c m : drop p l = c :: m -> rd buf p = Ok c /\ 0 < c < 256 /\ drop (S p) l = m /\ (p < es)%nat.
Proof.
  intros E. assert (Hp : (p < es)%nat). { apply (f_equal length) in E. rewrite length_drop in E. simpl in E. lia. }
  pose proof (text p ltac:(lia)) as Ht. rewrite E in Ht. apply cstr_cons in Ht as (? & ? & _). split; [done|]. split; [done|]. split; [|done].
  by apply rd_drop in E as [_ ->].
Qed.

Lemma text_nil p : (p <= es)%nat -> drop p l = [] -> p = es /\ rd buf p = Ok 0.
Proof.
  intros Hp E. split; [apply (f_equal length) in E; rewrite length_drop in E; simpl in E; lia|]. by apply (cstr_nil _ _ _ (text p Hp)).
Qed.

Lemma skip_space_ok fuel p : (p <= es)%nat -> (es - p <= fuel)%nat ->
  exists n, skip_space buf es fuel p = Ok n /\ (p <= n <= es)%nat /\ drop n l = ltrim (drop p l).
Proof.
  revert p. induction fuel as [|f IH]; intros p Hp Hf; simpl.
  - rewrite decide_False by lia. exists p. split; [done|]. split; [lia|]. by rewrite drop_ge by lia.
  - destruct (decide _) as [Hl|Hl]; [|exists p; split; [done|]; split; [lia|]; by rewrite drop_ge by lia].
    destruct (drop p l) as [|c m] eqn:E; [apply text_nil in E; lia|]. destruct (text_cons _ _ _ E) as (-> & Hc & Hm & _). simpl.
    rewrite (strchr_is_in _ _ whitespace_ok). simpl. fold (is_space c). destruct (is_space c); [|by exists p; rewrite E].
    destruct (IH (S p)) as (n & Hn & Hb & Hd); [lia..|]. exists n. rewrite <- Hm, <- Hd. split; [done|]. split; [lia|done].
Qed.

Lemma skip_word_ok fuel p : (p <= es)%nat -> (es - p <= fuel)%nat ->
  exists e, skip_word buf es fuel p = Ok e /\ (e <= es)%nat /\ drop e l = drop_word (drop p l) /\ e = (p + length (take_word (drop p l)))%nat.
Proof.
  revert p. induction fuel as [|f IH]; intros p Hp Hf; simpl.
  - rewrite decide_False by lia. exists p. rewrite drop_ge by lia. split; [done|]. split; [lia|]. simpl. split; [done|lia].
  - destruct (decide _) as [Hl|Hl]; [|exists p; split; [done|]; split; [lia|]; rewrite drop_ge by lia; simpl; split; [done|lia]].
    destruct (drop p l) as [|c m] eqn:E; [apply text_nil in E; lia|]. destruct (text_cons _ _ _ E) as (-> & Hc & Hm & _). simpl.
    rewrite (strchr_is_in _ _ whitespace_ok), (strchr_is_in _ _ symbols_ok). simpl. unfold in_word. destruct (is_in whitespace c || is_in symbols c); simpl.
    { exists p. rewrite E. split; [done|]. split; [lia|]. split; [done|lia]. }
    destruct (IH (S p)) as (n & Hn & Hb & Hd & He); [lia..|]. exists n. rewrite <- Hm, <- Hd. split; [done|]. split; [lia|]. split; [done|]. lia.
Qed.

(** The parser is in front of the tokens [ts]. *)
Definition at_ (s : pst) (ts : list token) : Prop := (ps s <= es)%nat /\ lexes (drop (ps s) l) ts.

(** Between [q] and [e] is the word [w], and it ends there. *)
Definition word_at (q e : nat) (w : list Z) : Prop :=
  (q <= es)%nat /\ w = take_word (drop q l) /\ w <> [] /\ e = (q + length w)%nat.

(** The character [peek] looks at, and the value of [gettoken]. *)
Definition tok_in (toks : list Z) (ts : list token) : bool :=
  match ts with
  | Sym c :: _ => is_in toks c
  | App :: _ => is_in toks 62
  | _ => false
  end.

Definition code (ts : list token) : Z :=
  match ts with [] => 0 | Sym c :: _ => c | App :: _ => 43 | Word _ :: _ => 97 end.

Lemma sym_subset toks c : toks ⊆ symbols -> is_in toks c = true -> in_word c = false.
Proof.
  intros Hs Hi. unfold is_in in Hi. apply bool_decide_eq_true in Hi. apply Hs in Hi. unfold in_word, is_in.
  rewrite (bool_decide_eq_true_2 (c ∈ symbols)) by done. by rewrite orb_true_r.
Qed.

(** The first character of the text says which kind of token comes next. *)
Lemma lexes_hd m ts toks : toks ⊆ symbols -> lexes m ts ->
  match ltrim m with [] => ts = [] | c :: _ => ts <> [] /\ tok_in toks ts = is_in toks c end.
Proof.
  intros Hs H. destruct H as [m E|m t r ts E _]; [by rewrite E|]. destruct (ltrim m) as [|c k] eqn:Em; [done|]. split; [done|].
  unfold next in E. destruct (is_in (codes _) c) eqn:E1; [by simplify_eq|]. destruct (c =? 62) eqn:E2.
  { apply Z.eqb_eq in E2 as ->. destruct k as [|d k]; [|destruct (d =? 62)]; by simplify_eq. }
  injection E as <- <-. simpl. destruct (is_in toks c) eqn:E3; [|done]. apply sym_subset in E3; [|done].
  rewrite (word_start c m k) in E3; [done..|lia].
Qed.

Lemma set_ps_at s n ts : (n <= es)%nat -> lexes (drop n l) ts -> at_ (set_ps n s) ts.
Proof. intros. by split. Qed.

Lemma peek_ok toks s ts : toks ⊆ symbols -> at_ s ts ->
  exists n, peek buf es toks s = Ok (tok_in toks ts, set_ps n s) /\ at_ (set_ps n s) ts /\ (n = es <-> ts = []).
Proof.
  intros Hs [Hp Hl]. destruct (skip_space_ok es (ps s)) as (n & Hn & Hb & Hd); [done|lia|]. exists n.
  assert (Ht : at_ (set_ps n s) ts). { split; [simpl; lia|]. simpl. rewrite Hd. by apply lexes_ltrim in Hl. }
  pose proof (lexes_hd _ _ toks Hs Hl) as Hh. rewrite <- Hd in Hh. unfold peek. rewrite Hn. cbn [rbind].
  destruct (drop n l) as [|c m] eqn:E.
  - apply text_nil in E as [-> ->]; [|lia]. subst ts. done.
  - destruct Hh as [Hts Hh]. apply text_cons in E as (-> & Hc & _ & Hlt). cbn [rbind]. rewrite (proj2 (Z.eqb_neq c 0)) by lia.
    rewrite strchr_is_in. 2:{ apply Forall_forall. intros x Hx. apply Hs in Hx. revert x Hx. apply Forall_forall, symbols_ok. }
    cbn [rbind]. rewrite Hh. split; [done|]. split; [done|]. split; [lia|done].
Qed.

(** The token [t] is at [q], ends at [e] and the text behind it is [r]. *)
Definition token_at (q e : nat) (t : token) (r : list Z) : Prop :=
  (e <= es)%nat /\ drop e l = r /\ match t with Word w => word_at q e w | _ => True end.

Lemma token_ok q t r : (q <= es)%nat -> ltrim (drop q l) = drop q l -> next (drop q l) = Some (t, r) ->
  exists e, (let? c := rd buf q in
    (if c =? 0 then Ok (c, q)
     else if forallb (fun x => negb (c =? x)) (codes "|();&<") then
       if c =? 62 then
         let? d := rd buf (S q) in
         if d =? 62 then Ok (43, S (S q)) else Ok (c, S q)
       else let? e := skip_word buf es es q in Ok (97, e)
     else Ok (c, S q))) = Ok (code [t], e) /\ token_at q e t r.
Proof.
  intros Hq Ht Hn. destruct (drop q l) as [|c m] eqn:E; [done|]. destruct (text_cons _ _ _ E) as (Hr & Hc & Hm & Hlt). rewrite Hr. cbn [rbind].
  rewrite (proj2 (Z.eqb_neq c 0)) by lia. unfold next in Hn.
  assert (Hi : forallb (fun x => negb (c =? x)) (codes "|();&<") = negb (is_in (codes "|();&<") c)).
  { unfold is_in. case_bool_decide as Hin; cbn [negb].
    - apply not_true_is_false. rewrite forallb_forall. intros Hf. apply list_elem_of_In in Hin. specialize (Hf _ Hin). by rewrite Z.eqb_refl in Hf.
    - apply forallb_forall. intros x Hx. apply list_elem_of_In in Hx. apply negb_true_iff, Z.eqb_neq. by intros ->. }
  rewrite Hi. destruct (is_in _ c) eqn:E1; cbn [negb].
  { injection Hn as <- <-. exists (S q). split; [done|]. split; [lia|]. done. }
  destruct (c =? 62) eqn:E2.
  - apply Z.eqb_eq in E2 as ->. destruct m as [|d m].
    + injection Hn as <- <-. destruct (text_nil (S q)) as [_ Hz]; [lia|done|]. rewrite Hz. simpl. exists (S q). split; [done|]. split; [lia|]. by rewrite Hm.
    + destruct (text_cons (S q) d m) as (-> & _ & Hm2 & Hlt2); [done|]. cbn [rbind]. destruct (d =? 62); injection Hn as <- <-.
      * exists (S (S q)). split; [done|]. split; [lia|done].
      * exists (S q). split; [done|]. split; [lia|done].
  - injection Hn as <- <-. destruct (skip_word_ok es q) as (e & -> & He & Hd & Heq); [lia..|]. cbn [rbind]. exists e. rewrite E in Hd, Heq. split; [done|].
    split; [done|]. split; [done|]. split; [lia|]. rewrite E. split; [done|]. split; [|done].
    pose proof (take_word_start c (c :: m) m Ht E1 ltac:(lia)) as Hne. by rewrite Ht in Hne.
Qed.

Lemma gettoken_ok s ts : at_ s ts ->
  exists q e n, gettoken buf es s = Ok (code ts, q, e, set_ps n s) /\ at_ (set_ps n s) (tail ts) /\
    match ts with Word w :: _ => word_at q e w | _ => True end.
Proof.
  intros [Hp Hl]. destruct (skip_space_ok es (ps s)) as (q & Hq & Hb & Hd); [done|lia|].
  unfold gettoken, gettoken_at. rewrite Hq. cbn [rbind]. destruct Hl as [m E|m t r ts E Hl].
  - destruct (text_nil q) as [-> ->]; [lia|congruence|]. cbn. destruct (skip_space_ok es es) as (n & -> & Hb2 & Hd2); [lia..|]. cbn.
    exists es, es, n. split; [done|]. split; [|done]. apply set_ps_at; [lia|]. rewrite drop_ge by lia. by constructor.
  - destruct (token_ok q t r) as (e & He & Hle & Hr & Hw); [lia|by rewrite Hd, ltrim_ltrim|by rewrite Hd|].
    destruct (rd buf q) as [c| | | |]; try done. cbn [rbind] in He |- *. rewrite He. cbn [rbind].
    destruct (skip_space_ok es e) as (n & -> & Hb2 & Hd2); [lia..|]. cbn [rbind]. exists q, e, n. split; [by destruct t|].
    split; [|done]. apply set_ps_at; [lia|]. rewrite Hd2, Hr. by apply lexes_ltrim in Hl.
Qed.

End line.
