(* ===== verification/ShGrammar.v ===== *)
(** * The grammar of the shell

    The commands the shell knows, as a grammar of token lists, and a parser of
    token lists that has the structure of the one in [sh.c].  The parser
    accepts exactly the grammar, and it has an answer if it gets four units of
    fuel for each token. *)

From S2P Require Import Prelude Console CString Sysfile Sh ShLex.

Notation word := (list Z).

Inductive tree :=
| TExec (argv : list word)
| TRedir (t : tree) (file : word) (mode fd : Z)
| TPipe (left right : tree)
| TList (left right : tree)
| TBack (t : tree).

Notation redir := (word * Z * Z)%type.

(** The mode and the descriptor of a redirection. *)
Definition redir_of (t : token) : option (Z * Z) :=
  match t with
  | Sym c => if c =? 60 then Some (O_RDONLY, 0) else if c =? 62 then Some (Z.lor O_WRONLY O_CREATE, 1) else None
  | App => Some (Z.lor O_WRONLY O_CREATE, 1)
  | Word _ => None
  end.

Definition wrap (t : tree) (rs : list redir) : tree :=
  fold_left (fun t '(w, mode, fd) => TRedir t w mode fd) rs t.

(** ** The grammar

<<
  line   = pipe "&"* | pipe "&"* ";" line
  pipe   = exec | exec "|" pipe
  exec   = redirs (word redirs)* | "(" line ")" redirs
  redirs = (("<" | ">" | ">>") word)*
>> *)

Inductive g_redirs : list token -> list redir -> Prop :=
| gr_nil : g_redirs [] []
| gr_cons t mode fd w ts rs : redir_of t = Some (mode, fd) -> g_redirs ts rs -> g_redirs (t :: Word w :: ts) ((w, mode, fd) :: rs).

Inductive g_args : list token -> list word -> list redir -> Prop :=
| ga_nil : g_args [] [] []
| ga_cons w ts1 rs1 ts2 ws rs2 : g_redirs ts1 rs1 -> g_args ts2 ws rs2 -> g_args (Word w :: ts1 ++ ts2) (w :: ws) (rs1 ++ rs2).

Notation backs n := (replicate n (Sym 38)).

Inductive g_line : list token -> tree -> Prop :=
| gl_one ts t n : g_pipe ts t -> g_line (ts ++ backs n) (Nat.iter n TBack t)
| gl_list ts1 t1 n ts2 t2 : g_pipe ts1 t1 -> g_line ts2 t2 -> g_line (ts1 ++ backs n ++ Sym 59 :: ts2) (TList (Nat.iter n TBack t1) t2)
with g_pipe : list token -> tree -> Prop :=
| gp_one ts t : g_exec ts t -> g_pipe ts t
| gp_pipe ts1 t1 ts2 t2 : g_exec ts1 t1 -> g_pipe ts2 t2 -> g_pipe (ts1 ++ Sym 124 :: ts2) (TPipe t1 t2)
with g_exec : list token -> tree -> Prop :=
| ge_exec ts1 rs1 ts2 ws rs2 : g_redirs ts1 rs1 -> g_args ts2 ws rs2 -> (length ws < MAXARGS)%nat -> g_exec (ts1 ++ ts2) (wrap (TExec ws) (rs1 ++ rs2))
| ge_block ts1 t ts2 rs : g_line ts1 t -> g_redirs ts2 rs -> g_exec (Sym 40 :: ts1 ++ Sym 41 :: ts2) (wrap t rs).

Scheme g_line_ind' := Minimality for g_line Sort Prop
with g_pipe_ind' := Minimality for g_pipe Sort Prop
with g_exec_ind' := Minimality for g_exec Sort Prop.
Combined Scheme g_mut from g_line_ind', g_pipe_ind', g_exec_ind'.

(** ** The parser of token lists *)

Fixpoint p_redirs (fuel : nat) (ts : list token) : result (list redir * list token) :=
  match fuel with
  | O => NoFuel
  | S f =>
      match ts with
      | t :: r =>
          match redir_of t with
          | Some (mode, fd) =>
              match r with
              | Word w :: r => let? x := p_redirs f r in let '(rs, r) := x in Ok ((w, mode, fd) :: rs, r)
              | _ => Panic "missing file for redirection"
              end
          | None => Ok ([], ts)
          end
      | [] => Ok ([], ts)
      end
  end.

Fixpoint p_args (fuel : nat) (argc : nat) (ts : list token) : result (list word * list redir * list token) :=
  match fuel with
  | O => NoFuel
  | S f =>
      if tok_in (codes "|)&;") ts then Ok ([], [], ts)
      else
        match ts with
        | [] => Ok ([], [], ts)
        | Word w :: r =>
            if decide (MAXARGS <= S argc)%nat then Panic "too many args"
            else
              let? x := p_redirs f r in
              let '(rs, r) := x in
              let? y := p_args f (S argc) r in
              let '(ws, rs2, r) := y in
              Ok (w :: ws, rs ++ rs2, r)
        | _ => Panic "syntax"
        end
  end.

Fixpoint p_backs (fuel : nat) (t : tree) (ts : list token) : result (tree * list token) :=
  match fuel with
  | O => NoFuel
  | S f => if tok_in (codes "&") ts then p_backs f (TBack t) (tail ts) else Ok (t, ts)
  end.

Fixpoint p_line (fuel : nat) (ts : list token) : result (tree * list token) :=
  match fuel with
  | O => NoFuel
  | S f =>
      let? x := p_pipe f ts in
      let '(t, r) := x in
      let? y := p_backs f t r in
      let '(t, r) := y in
      if tok_in (codes ";") r then
        let? z := p_line f (tail r) in
        let '(u, r) := z in
        Ok (TList t u, r)
      else Ok (t, r)
  end
with p_pipe (fuel : nat) (ts : list token) : result (tree * list token) :=
  match fuel with
  | O => NoFuel
  | S f =>
      let? x := p_exec f ts in
      let '(t, r) := x in
      if tok_in (codes "|") r then
        let? z := p_pipe f (tail r) in
        let '(u, r) := z in
        Ok (TPipe t u, r)
      else Ok (t, r)
  end
with p_exec (fuel : nat) (ts : list token) : result (tree * list token) :=
  match fuel with
  | O => NoFuel
  | S f =>
      if tok_in (codes "(") ts then p_block f ts
      else
        let? x := p_redirs f ts in
        let '(rs, r) := x in
        let? y := p_args f 0 r in
        let '(ws, rs2, r) := y in
        Ok (wrap (TExec ws) (rs ++ rs2), r)
  end
with p_block (fuel : nat) (ts : list token) : result (tree * list token) :=
  match fuel with
  | O => NoFuel
  | S f =>
      if negb (tok_in (codes "(") ts) then Panic "parseblock"
      else
        let? x := p_line f (tail ts) in
        let '(t, r) := x in
        if negb (tok_in (codes ")") r) then Panic "syntax - missing )"
        else
          let? y := p_redirs f (tail r) in
          let '(rs, r) := y in
          Ok (wrap t rs, r)
  end.

Lemma tok_in_one c ts : c <> 62 -> tok_in [c] ts = true -> exists r, ts = Sym c :: r.
Proof.
  intros Hc. destruct ts as [|[d| |w] ts]; simpl; [done| |unfold is_in; case_bool_decide as H; set_solver|done].
  unfold is_in. case_bool_decide as H; [|done]. apply list_elem_of_singleton in H as ->. by exists ts.
Qed.

(** ** Every answer is one of the grammar *)

Lemma p_redirs_sound f ts rs r : p_redirs f ts = Ok (rs, r) -> exists ts1, ts = ts1 ++ r /\ g_redirs ts1 rs.
Proof.
  revert ts rs. induction f as [|f IH]; intros ts rs H; [done|]. simpl in H. destruct ts as [|t ts].
  { injection H as <- <-. exists []. split; [done|constructor]. }
  destruct (redir_of t) as [[mode fd]|] eqn:Et.
  - destruct ts as [|[| |w] ts]; try done. apply rbind_inv in H as ([rs1 r1] & H1 & H2). injection H2 as <- <-.
    destruct (IH _ _ H1) as (ts1 & -> & Hg). exists (t :: Word w :: ts1). split; [done|by constructor].
  - injection H as <- <-. exists []. split; [done|constructor].
Qed.

Lemma p_args_sound f argc ts ws rs r : (argc < MAXARGS)%nat -> p_args f argc ts = Ok (ws, rs, r) ->
  exists ts1, ts = ts1 ++ r /\ g_args ts1 ws rs /\ (argc + length ws < MAXARGS)%nat.
Proof.
  revert argc ts ws rs. induction f as [|f IH]; intros argc ts ws rs Ha H; [done|]. cbn [p_args] in H.
  assert (Hz : Ok ([], [], ts) = Ok (ws, rs, r) -> exists ts1, ts = ts1 ++ r /\ g_args ts1 ws rs /\ (argc + length ws < MAXARGS)%nat).
  { intros [= <- <- <-]. exists []. split; [done|]. split; [constructor|simpl; lia]. }
  destruct (tok_in _ _); [by apply Hz|]. destruct ts as [|[| |w] ts]; [by apply Hz|done|done|]. clear Hz.
  destruct (decide _); [done|]. apply rbind_inv in H as ([rs1 r1] & H1 & H). apply rbind_inv in H as ([[ws2 rs2] r2] & H2 & H). injection H as <- <- <-.
  apply p_redirs_sound in H1 as (ts1 & -> & Hr). apply IH in H2 as (ts2 & -> & Hg & Hl); [|lia].
  exists (Word w :: ts1 ++ ts2). split; [by rewrite <- app_comm_cons, <- app_assoc|]. split; [by constructor|simpl; lia].
Qed.

Lemma p_backs_sound f t ts t' r : p_backs f t ts = Ok (t', r) -> exists n, ts = backs n ++ r /\ t' = Nat.iter n TBack t.
Proof.
  revert t ts. induction f as [|f IH]; intros t ts H; [done|]. cbn [p_backs] in H. destruct (tok_in _ ts) eqn:E.
  - apply IH in H as (n & Ht & ->). exists (S n). apply tok_in_one in E as [? ->]; [|done]. simpl in Ht |- *. rewrite Ht. split; [done|]. by rewrite Nat.iter_swap.
  - injection H as <- <-. by exists 0%nat.
Qed.

Definition sound_at (f : nat) : Prop := forall ts t r,
  (p_line f ts = Ok (t, r) -> exists ts1, ts = ts1 ++ r /\ g_line ts1 t) /\
  (p_pipe f ts = Ok (t, r) -> exists ts1, ts = ts1 ++ r /\ g_pipe ts1 t) /\
  (p_exec f ts = Ok (t, r) -> exists ts1, ts = ts1 ++ r /\ g_exec ts1 t) /\
  (p_block f ts = Ok (t, r) -> exists ts1, ts = ts1 ++ r /\ g_exec ts1 t).

Lemma p_sound f : sound_at f.
Proof.
  induction f as [|f IH]; intros ts t r; [done|]. split_and!; intros H.
  - cbn [p_line] in H. apply rbind_inv in H as ([t1 r1] & H1 & H). apply rbind_inv in H as ([t2 r2] & H2 & H).
    apply IH in H1 as (ts1 & -> & Hg). apply p_backs_sound in H2 as (n & -> & ->). destruct (tok_in _ r2) eqn:E.
    + apply tok_in_one in E as [? ->]; [|done]. apply rbind_inv in H as ([u r3] & H3 & H). simpl in H3. apply IH in H3 as (ts2 & -> & Hg2). injection H as <- <-.
      exists (ts1 ++ backs n ++ Sym 59 :: ts2). split; [by rewrite <- !app_assoc|by constructor].
    + injection H as <- <-. exists (ts1 ++ backs n). split; [by rewrite <- app_assoc|by constructor].
  - cbn [p_pipe] in H. apply rbind_inv in H as ([t1 r1] & H1 & H). apply IH in H1 as (ts1 & -> & Hg). destruct (tok_in _ r1) eqn:E.
    + apply tok_in_one in E as [? ->]; [|done]. apply rbind_inv in H as ([u r3] & H3 & H). simpl in H3. apply IH in H3 as (ts2 & -> & Hg2). injection H as <- <-.
      exists (ts1 ++ Sym 124 :: ts2). split; [by rewrite <- app_assoc|by constructor].
    + injection H as <- <-. exists ts1. split; [done|by constructor].
  - cbn [p_exec] in H. destruct (tok_in _ ts); [by apply IH in H|]. apply rbind_inv in H as ([rs1 r1] & H1 & H). apply rbind_inv in H as ([[ws rs2] r2] & H2 & H).
    injection H as <- <-. apply p_redirs_sound in H1 as (ts1 & -> & Hr). apply p_args_sound in H2 as (ts2 & -> & Ha & Hl); [|unfold MAXARGS; lia].
    exists (ts1 ++ ts2). split; [by rewrite <- app_assoc|by constructor].
  - cbn [p_block] in H. destruct (tok_in _ ts) eqn:E; [|done]. apply tok_in_one in E as [? ->]; [|done]. cbn [negb tail] in H.
    apply rbind_inv in H as ([t1 r1] & H1 & H). apply IH in H1 as (ts1 & Hts & Hg). destruct (tok_in _ r1) eqn:E; [|done].
    apply tok_in_one in E as [r3 ->]; [|done]. cbn [negb tail] in H. apply rbind_inv in H as ([rs r2] & H2 & H). injection H as <- <-.
    apply p_redirs_sound in H2 as (ts2 & Ht2 & Hr). exists (Sym 40 :: ts1 ++ Sym 41 :: ts2).
    split; [rewrite Hts, Ht2; cbn; by rewrite <- app_assoc|by constructor].
Qed.

(** ** There is always an answer *)

Definition answers {A} (x : result A) : Prop := match x with Ok _ | Panic _ => True | _ => False end.

Lemma answers_bind {A B} (c : result A) (k : A -> result B) : answers c -> (forall a, c = Ok a -> answers (k a)) -> answers (rbind c k).
Proof. destruct c; simpl; auto. Qed.

Lemma p_redirs_answers f ts : (length ts < f)%nat -> answers (p_redirs f ts).
Proof.
  revert ts. induction f as [|f IH]; intros ts Hf; [lia|]. cbn [p_redirs]. destruct ts as [|t ts]; [done|].
  destruct (redir_of t) as [[? ?]|]; [|done]. destruct ts as [|[| |w] ts]; [done..|]. simpl in Hf.
  apply answers_bind; [apply IH; lia|]. by intros [rs r] _.
Qed.

Lemma p_args_answers f argc ts : (argc < MAXARGS)%nat -> (length ts < f)%nat -> answers (p_args f argc ts).
Proof.
  revert argc ts. induction f as [|f IH]; intros argc ts Ha Hf; [lia|]. cbn [p_args]. destruct (tok_in _ _); [done|].
  destruct ts as [|[| |w] ts]; [done..|]. simpl in Hf. destruct (decide _); [done|]. apply answers_bind; [apply p_redirs_answers; lia|].
  intros [rs r] Hr. apply p_redirs_sound in Hr as (ts1 & -> & _). rewrite length_app in Hf. apply answers_bind; [apply IH; lia|]. by intros [[ws rs2] r2] _.
Qed.

Lemma p_backs_answers f t ts : (length ts < f)%nat -> answers (p_backs f t ts).
Proof.
  revert t ts. induction f as [|f IH]; intros t ts Hf; [lia|]. cbn [p_backs]. destruct (tok_in _ ts) eqn:E; [|done].
  apply tok_in_one in E as [? ->]; [|done]. simpl in *. apply IH. lia.
Qed.

Definition answers_at (f : nat) : Prop := forall ts,
  ((4 * length ts + 4 <= f)%nat -> answers (p_line f ts)) /\
  ((4 * length ts + 3 <= f)%nat -> answers (p_pipe f ts)) /\
  ((4 * length ts + 2 <= f)%nat -> answers (p_exec f ts)) /\
  ((4 * length ts + 1 <= f)%nat -> answers (p_block f ts)).

(** What the parser leaves is the end of what it got. *)
Lemma p_shrinks f ts t r : p_line f ts = Ok (t, r) \/ p_pipe f ts = Ok (t, r) \/ p_exec f ts = Ok (t, r) -> (length r <= length ts)%nat.
Proof.
  intros H. destruct (p_sound f ts t r) as (H1 & H2 & H3 & _).
  assert (exists ts1, ts = ts1 ++ r) as [ts1 ->]; [|rewrite length_app; lia]. destruct H as [H|[H|H]]; naive_solver.
Qed.

Lemma p_answers f : answers_at f.
Proof.
  induction f as [|f IH]; intros ts; [lia|]. split_and!; intros Hf.
  - cbn [p_line]. apply answers_bind; [apply IH; lia|]. intros [t r] H1. pose proof (p_shrinks f ts t r ltac:(tauto)).
    apply answers_bind; [apply p_backs_answers; lia|]. intros [t2 r2] H2. apply p_backs_sound in H2 as (n & -> & ->). rewrite length_app in *.
    destruct (tok_in _ r2) eqn:E; [|done]. apply tok_in_one in E as [? ->]; [|done]. simpl in *. apply answers_bind; [apply IH; lia|]. by intros [u r3] _.
  - cbn [p_pipe]. apply answers_bind; [apply IH; lia|]. intros [t r] H1. pose proof (p_shrinks f ts t r ltac:(tauto)).
    destruct (tok_in _ r) eqn:E; [|done]. apply tok_in_one in E as [? ->]; [|done]. simpl in *. apply answers_bind; [apply IH; lia|]. by intros [u r3] _.
  - cbn [p_exec]. destruct (tok_in _ ts); [apply IH; lia|]. apply answers_bind; [apply p_redirs_answers; lia|]. intros [rs r] Hr.
    apply p_redirs_sound in Hr as (ts1 & -> & _). rewrite length_app in Hf. apply answers_bind; [apply p_args_answers; unfold MAXARGS; lia|]. by intros [[ws rs2] r2] _.
  - cbn [p_block]. destruct (tok_in _ ts) eqn:E; [|done]. apply tok_in_one in E as [? ->]; [|done]. simpl in Hf |- *.
    apply answers_bind; [apply IH; lia|]. intros [t r] H1. pose proof (p_shrinks f _ t r (or_introl H1)).
    destruct (tok_in _ r) eqn:E; [|done]. apply tok_in_one in E as [? ->]; [|done]. simpl in *. apply answers_bind; [apply p_redirs_answers; lia|]. by intros [rs r2] _.
Qed.

(** ** Every sentence of the grammar is parsed *)

(** The answer is [a], unless the fuel is used up. *)
Definition fits {A} (x : result A) (a : A) : Prop := x = NoFuel \/ x = Ok a.

Lemma fits_bind {A B} (c : result A) (k : A -> result B) a b : fits c a -> fits (k a) b -> fits (rbind c k) b.
Proof. intros [-> | ->]; simpl; [by left|done]. Qed.

Lemma fits_ok {A} (a : A) : fits (Ok a) a.
Proof. by right. Qed.

Hint Resolve fits_ok : kernel.

(** What can follow a command, a pipeline and a line. *)
Definition follow (toks : list Z) (r : list token) : Prop := r = [] \/ tok_in toks r = true.

Lemma follow_sub toks toks' r : toks ⊆ toks' -> follow toks r -> follow toks' r.
Proof.
  intros Hs [H|H]; [by left|right]. destruct r as [|[c| |w] r]; simpl in *; [done| | |done];
    unfold is_in in *; apply bool_decide_eq_true in H; apply bool_decide_eq_true; by apply Hs.
Qed.

(** Characters that start neither a redirection nor a word nor a block. *)
Lemma follow_cases r : follow (codes "|)&;") r -> r = [] \/ exists c r', r = Sym c :: r' /\ c ∈ codes "|)&;".
Proof.
  intros [H|H]; [by left|right]. destruct r as [|[c| |w] r]; simpl in H; [done| |done|done]. exists c, r. split; [done|].
  unfold is_in in H. by apply bool_decide_eq_true in H.
Qed.

Definition no_redir (r : list token) : Prop := match r with t :: _ => redir_of t = None | [] => True end.

Lemma follow_no_redir r : follow (codes "|)&;") r -> no_redir r.
Proof.
  intros H. destruct (follow_cases _ H) as [->|(c & r' & -> & Hc)]; [done|]. vm_compute in Hc. simpl.
  repeat (apply elem_of_cons in Hc as [->|Hc]; [done|]). by apply elem_of_nil in Hc.
Qed.

Lemma p_redirs_fits f ts rs r : g_redirs ts rs -> no_redir r -> fits (p_redirs f (ts ++ r)) (rs, r).
Proof.
  intros H Hr. revert f. induction H as [|t mode fd w ts rs Ht H IH]; intros [|f]; [by left| |by left|]; simpl.
  - destruct r as [|t r]; [by right|]. simpl in Hr. rewrite Hr. by right.
  - rewrite Ht. eapply fits_bind; [apply IH|by right].
Qed.

Lemma args_no_redir ts ws rs r : g_args ts ws rs -> no_redir r -> no_redir (ts ++ r).
Proof. by intros [|]. Qed.

Lemma p_args_fits f argc ts ws rs r : g_args ts ws rs -> follow (codes "|)&;") r -> (argc + length ws < MAXARGS)%nat ->
  fits (p_args f argc (ts ++ r)) (ws, rs, r).
Proof.
  intros H Hr. revert f argc. induction H as [|w ts1 rs1 ts2 ws rs2 Hr1 H IH]; intros [|f] argc Ha; [by left| |by left|]; cbn [p_args app].
  - destruct (tok_in _ r) eqn:E; [by right|]. destruct Hr as [->|Hr]; [by right|congruence].
  - change (tok_in (codes "|)&;") (Word w :: (ts1 ++ ts2) ++ r)) with false. cbn iota. simpl in Ha. rewrite decide_False by lia. rewrite <- app_assoc.
    eapply fits_bind; [apply p_redirs_fits; [done|]; eapply args_no_redir; [done|by apply follow_no_redir]|]. cbn iota beta.
    eapply fits_bind; [apply IH; lia|]. by right.
Qed.

Lemma p_backs_fits f n t r : tok_in (codes "&") r = false -> fits (p_backs f t (backs n ++ r)) (Nat.iter n TBack t, r).
Proof.
  intros Hr. revert f t. induction n as [|n IH]; intros [|f] t; [by left| |by left|]; cbn [p_backs replicate app].
  - rewrite Hr. by right.
  - change (tok_in (codes "&") (Sym 38 :: backs n ++ r)) with true. cbn [tail]. simpl Nat.iter. rewrite <- Nat.iter_swap. apply IH.
Qed.

Lemma tok_in_one_false c c' r toks : follow toks r -> c <> 62 -> 62 ∉ toks -> c ∉ toks -> c' = [c] -> tok_in c' r = false.
Proof.
  intros [->|H] Hc H62 Hn ->; [done|]. destruct r as [|[d| |w] r]; simpl in *; [done| |unfold is_in in *; by rewrite bool_decide_eq_true in H|done].
  unfold is_in in *. apply bool_decide_eq_true in H. apply bool_decide_eq_false. set_solver.
Qed.

(** An [exec] is a block only if it starts with a parenthesis. *)
Lemma exec_no_block ts1 rs1 ts2 ws rs2 r : g_redirs ts1 rs1 -> g_args ts2 ws rs2 -> follow (codes "|)&;") r ->
  tok_in (codes "(") (ts1 ++ ts2 ++ r) = false.
Proof.
  intros H1 H2 Hr. destruct H1 as [|t mode fd w ts rs Ht H1]; simpl.
  - destruct H2; simpl; [|done]. apply (tok_in_one_false 40 _ _ (codes "|)&;")); done || by vm_compute; set_solver.
  - destruct t as [c| |w']; simpl in *; [|done..]. unfold is_in. apply bool_decide_eq_false. intros Hin. vm_compute in Hin.
    apply list_elem_of_singleton in Hin as ->. done.
Qed.

Lemma p_complete :
  (forall ts t, g_line ts t -> forall f r, follow (codes ")") r -> fits (p_line f (ts ++ r)) (t, r)) /\
  (forall ts t, g_pipe ts t -> forall f r, follow (codes ")&;") r -> fits (p_pipe f (ts ++ r)) (t, r)) /\
  (forall ts t, g_exec ts t -> forall f r, follow (codes "|)&;") r -> fits (p_exec f (ts ++ r)) (t, r)).
Proof.
  apply g_mut.
  - intros ts t n _ IH [|f] r Hr; [by left|]. cbn [p_line]. rewrite <- app_assoc.
    eapply fits_bind; [apply IH|]. { destruct n; [|by right]. eapply follow_sub; [|done]. vm_compute; set_solver. }
    cbn iota beta. eapply fits_bind; [apply p_backs_fits|]. { by apply (tok_in_one_false 38 _ _ (codes ")")); vm_compute; set_solver. }
    cbn iota beta. rewrite (tok_in_one_false 59 _ _ (codes ")")); [by right|done|done|vm_compute; set_solver..|done].
  - intros ts1 t1 n ts2 t2 _ IH1 _ IH2 [|f] r Hr; [by left|]. cbn [p_line]. rewrite <- !app_assoc. cbn [app].
    eapply fits_bind; [apply IH1; by destruct n; right|]. cbn iota beta. eapply fits_bind; [by apply p_backs_fits|]. cbn iota beta.
    change (tok_in (codes ";") (Sym 59 :: ts2 ++ r)) with true. cbn iota. cbn [tail]. eapply fits_bind; [by apply IH2|by right].
  - intros ts t _ IH [|f] r Hr; [by left|]. cbn [p_pipe]. eapply fits_bind; [apply IH; eapply follow_sub; [|done]; vm_compute; set_solver|].
    cbn iota beta. rewrite (tok_in_one_false 124 _ _ (codes ")&;")); [by right|done|done|vm_compute; set_solver..|done].
  - intros ts1 t1 ts2 t2 _ IH1 _ IH2 [|f] r Hr; [by left|]. cbn [p_pipe]. rewrite <- app_assoc. cbn [app]. eapply fits_bind; [apply IH1; by right|].
    cbn iota beta. change (tok_in (codes "|") (Sym 124 :: ts2 ++ r)) with true. cbn iota. cbn [tail]. eapply fits_bind; [by apply IH2|by right].
  - intros ts1 rs1 ts2 ws rs2 H1 H2 Hl [|f] r Hr; [by left|]. cbn [p_exec]. rewrite <- app_assoc. rewrite (exec_no_block ts1 rs1 ts2 ws rs2 r) by done.
    eapply fits_bind; [apply p_redirs_fits; [done|]; eapply args_no_redir; [done|by apply follow_no_redir]|]. cbn iota beta.
    eapply fits_bind; [by apply p_args_fits|by right].
  - intros ts1 t ts2 rs _ IH H2 [|[|f]] r Hr; [by left..|]. cbn [p_exec p_block app].
    change (tok_in (codes "(") (Sym 40 :: (ts1 ++ Sym 41 :: ts2) ++ r)) with true. cbn iota. cbn [negb tail]. rewrite <- app_assoc. cbn [app].
    eapply fits_bind; [apply IH; by right|]. cbn iota beta. change (tok_in (codes ")") (Sym 41 :: ts2 ++ r)) with true. cbn [negb tail]. cbn iota.
    eapply fits_bind; [apply p_redirs_fits; [done|by apply follow_no_redir]|by right].
Qed.

(** The parser, with fuel enough, decides the grammar. *)
Lemma p_line_spec f ts : (4 * length ts + 4 <= f)%nat ->
  (forall t, g_line ts t <-> p_line f ts = Ok (t, [])) /\ answers (p_line f ts).
Proof.
  intros Hf. assert (Ha : answers (p_line f ts)) by (by apply p_answers). split; [|done]. intros t. split; intros H.
  - pose proof (proj1 p_complete ts t H f [] (or_introl eq_refl)) as Hc. rewrite app_nil_r in Hc. destruct Hc as [Hc|Hc]; [|done]. by rewrite Hc in Ha.
  - apply p_sound in H as (ts1 & -> & H). by rewrite app_nil_r.
Qed.
