(* ===== verification/ShParse.v ===== *)
(** * The parser of the shell

    The parser of [sh.c] builds, from the characters of a command line and in
    the table of structures, the tree that the parser of token lists builds
    from its tokens, and [nulterminate] turns every word of the tree into a
    string of its own. *)

From S2P Require Import Prelude Console CString Grep Sysfile Sh ShLex ShGrammar.

(** ** Trees in the table of structures *)

Section trees.

(** How a word is kept between two pointers. *)
Context (W : nat -> nat -> word -> Prop).

(** The first [length ws] arguments are the words [ws]. *)
Definition filled (a e : list (option nat)) (ws : list word) : Prop :=
  length a = MAXARGS /\ length e = MAXARGS /\
  forall i w, ws !! i = Some w -> exists q p, a !! i = Some (Some q) /\ e !! i = Some (Some p) /\ W q p w.

(** The structure [c] stands for a tree; it was allocated after its parts. *)
Inductive rep (cs : list cmd) : nat -> tree -> Prop :=
| rep_exec c a e ws : cs !! c = Some (EXEC a e) -> filled a e ws -> a !! length ws = Some None -> rep cs c (TExec ws)
| rep_redir c d q p mode fd w t : cs !! c = Some (REDIR d q p mode fd) -> (d < c)%nat -> W q p w -> rep cs d t -> rep cs c (TRedir t w mode fd)
| rep_pipe c x y t u : cs !! c = Some (PIPE x y) -> (x < c)%nat -> (y < c)%nat -> rep cs x t -> rep cs y u -> rep cs c (TPipe t u)
| rep_list c x y t u : cs !! c = Some (LIST x y) -> (x < c)%nat -> (y < c)%nat -> rep cs x t -> rep cs y u -> rep cs c (TList t u)
| rep_back c d t : cs !! c = Some (BACK d) -> (d < c)%nat -> rep cs d t -> rep cs c (TBack t).

(** From [c] outwards to [d] are the redirections [rs]. *)
Inductive chain (cs : list cmd) : nat -> nat -> list redir -> Prop :=
| ch_nil c : chain cs c c []
| ch_cons c x d q p mode fd w rs : cs !! x = Some (REDIR c q p mode fd) -> (c < x)%nat -> W q p w -> chain cs x d rs -> chain cs c d ((w, mode, fd) :: rs).

Lemma rep_prefix cs cs' c t : cs `prefix_of` cs' -> rep cs c t -> rep cs' c t.
Proof. intros Hp. induction 1; econstructor; eauto using prefix_lookup_Some. Qed.

Lemma chain_prefix cs cs' c d rs : cs `prefix_of` cs' -> chain cs c d rs -> chain cs' c d rs.
Proof. intros Hp. induction 1; econstructor; eauto using prefix_lookup_Some. Qed.

Lemma chain_app cs c d x rs rs' : chain cs c d rs -> chain cs d x rs' -> chain cs c x (rs ++ rs').
Proof. induction 1; intros Hc; [done|]. econstructor; eauto. Qed.

(** The structures around [c] are not the one at [c] or an older one. *)
Lemma chain_insert cs c d rs x v : (x <= c)%nat -> chain cs c d rs -> chain (<[x := v]> cs) c d rs.
Proof.
  intros Hx H. induction H as [|c y d q p mode fd w rs Hy Hlt Hw H IH]; [constructor|]. econstructor; [|done..|apply IH; lia].
  by rewrite list_lookup_insert_ne by lia.
Qed.

Lemma chain_rep cs c d rs t : chain cs c d rs -> rep cs c t -> rep cs d (wrap t rs).
Proof. intros H. revert t. induction H; intros t Ht; [done|]. simpl. apply IHchain. by econstructor. Qed.

Lemma filled_snoc a e ws w q p : filled a e ws -> (length ws < MAXARGS)%nat -> W q p w ->
  filled (<[length ws := Some q]> a) (<[length ws := Some p]> e) (ws ++ [w]).
Proof.
  intros (Ha & He & Hw) Hl Hq. split; [by rewrite length_insert|]. split; [by rewrite length_insert|]. intros i v Hv.
  apply lookup_snoc_Some in Hv as [[Hi Hv]|[-> ->]].
  - rewrite !list_lookup_insert_ne by lia. by apply Hw.
  - exists q, p. by rewrite !list_lookup_insert_eq by lia.
Qed.

Lemma filled_end a e ws : filled a e ws -> (length ws < MAXARGS)%nat ->
  filled (<[length ws := None]> a) (<[length ws := None]> e) ws /\ <[length ws := None]> a !! length ws = Some None.
Proof.
  intros (Ha & He & Hw) Hl. split; [|by apply list_lookup_insert_eq; lia]. split; [by rewrite length_insert|]. split; [by rewrite length_insert|]. intros i v Hv.
  apply lookup_lt_Some in Hv as Hi. rewrite !list_lookup_insert_ne by lia. by apply Hw.
Qed.

End trees.

(** ** The two parsers *)

(** The run [x] goes like the run [y], with results related by [P]. *)
Definition agrees {A B} (P : A -> B -> Prop) (x : result A) (y : result B) : Prop :=
  match y with
  | Ok b => exists a, x = Ok a /\ P a b
  | Panic m => x = Panic m
  | NoFuel => x = NoFuel
  | _ => False
  end.

Lemma agrees_bind {S A B C D} (P : A * S -> B -> Prop) (Q : C * S -> D -> Prop) (c : M S A) (k : A -> M S C) s (y : result B) k' :
  agrees P (c s) y -> (forall a s' b, P (a, s') b -> agrees Q (k a s') (k' b)) -> agrees Q (bind c k s) (rbind y k').
Proof.
  intros H Hk. unfold bind. destruct y as [b|m| | |]; simpl in *; try done.
  - destruct H as ([a s'] & -> & HP). simpl. by apply Hk.
  - by rewrite H.
  - by rewrite H.
Qed.

Lemma agrees_ret {A B S} (P : A * S -> B -> Prop) a s b : P (a, s) b -> agrees P (ret a s) (Ok b).
Proof. intros H. by exists (a, s). Qed.

Section run.

Context (buf l : list Z) (Hbuf : cstr buf 0 l) (room : nat).

Notation es := (length l).
Notation W := (word_at l).

(** What the parser has built: the tree, behind everything there was before. *)
Definition built (s : pst) (ts : list token) (x : nat * pst) (y : tree * list token) : Prop :=
  let '(c, s') := x in let '(t, r) := y in
  at_ l s' r /\ rep W (cmds s') c t /\ cmds s `prefix_of` cmds s' /\
  (length (cmds s') + 2 * length r <= length (cmds s) + 2 * length ts + 1)%nat.

Definition wrapped (c : nat) (s : pst) (ts : list token) (x : nat * pst) (y : list redir * list token) : Prop :=
  let '(d, s') := x in let '(rs, r) := y in
  at_ l s' r /\ chain W (cmds s') c d rs /\ cmds s `prefix_of` cmds s' /\
  (length (cmds s') + 2 * length r <= length (cmds s) + 2 * length ts)%nat.

Lemma at_cmds s ts cs : at_ l s ts -> at_ l (set_cmds cs s) ts.
Proof. done. Qed.

Lemma lexes_sym m ts : lexes m ts -> Forall (fun t => match t with Sym c => c ∈ symbols | _ => True end) ts.
Proof.
  induction 1 as [|m t r ts E _ IH]; constructor; [|done]. unfold next in E. destruct (ltrim m) as [|c k]; [done|].
  destruct (is_in _ c) eqn:Ei; [|repeat case_match; simplify_eq; done || by vm_compute; set_solver].
  injection E as <- <-. unfold is_in in Ei. apply bool_decide_eq_true in Ei. vm_compute in Ei |- *. set_solver.
Qed.

Lemma at_sym s c ts : at_ l s (Sym c :: ts) -> c ∈ symbols.
Proof. intros [_ H]. apply lexes_sym in H. by apply Forall_cons in H as [? _]. Qed.

Lemma new_cmd_ok v s : (length (cmds s) < room)%nat -> new_cmd room v s = Ok (length (cmds s), set_cmds (cmds s ++ [v]) s).
Proof. intros H. unfold new_cmd. by rewrite decide_True. Qed.

Ltac toks := vm_compute; set_solver.

(** Both parsers look at the next token. *)
Ltac peeked H :=
  lazymatch type of H with
  | at_ _ ?s ?ts =>
      lazymatch goal with
      | |- context [bind (peek _ _ ?t) _ s] =>
          let n := fresh "n" in let Hp := fresh "Hp" in let H' := fresh "Hat" in
          destruct (peek_ok buf l Hbuf t s ts ltac:(toks) H) as (n & Hp & H' & _); rewrite (bind_Ok _ _ _ _ _ Hp); clear Hp
      end
  end.

Ltac took H :=
  lazymatch type of H with
  | at_ _ ?s ?ts =>
      let q := fresh "q" in let e := fresh "e" in let n := fresh "n" in let Hg := fresh "Hg" in let H' := fresh "Hat" in let Hw := fresh "Hw" in
      destruct (gettoken_ok buf l Hbuf s ts H) as (q & e & n & Hg & H' & Hw); rewrite (bind_Ok _ _ _ _ _ Hg); clear Hg; cbn [tail] in H'
  end.

Lemma redir_of_tok ts : tok_in (codes "<>") ts = match ts with t :: _ => match redir_of t with Some _ => true | None => false end | [] => false end.
Proof.
  destruct ts as [|[c| |w] ts]; [done| |done|done]. simpl. unfold is_in. case_bool_decide as H.
  - vm_compute in H. repeat (apply elem_of_cons in H as [->|H]; [done|]). by apply elem_of_nil in H.
  - destruct (c =? 60) eqn:E1; [exfalso; apply H; vm_compute; set_solver by lia|].
    destruct (c =? 62) eqn:E2; [exfalso; apply H; vm_compute; set_solver by lia|done].
Qed.

(** The [switch] of [parseredirs] allocates one structure. *)
Lemma redir_switch t ts c q e s mode fd : redir_of t = Some (mode, fd) -> (length (cmds s) < room)%nat ->
  (if code (t :: ts) =? 60 then redircmd room c q e O_RDONLY 0
   else if code (t :: ts) =? 62 then redircmd room c q e (Z.lor O_WRONLY O_CREATE) 1
   else if code (t :: ts) =? 43 then redircmd room c q e (Z.lor O_WRONLY O_CREATE) 1 else ret c) s
  = Ok (length (cmds s), set_cmds (cmds s ++ [REDIR c q e mode fd]) s).
Proof.
  intros Ht Hr. unfold redircmd. destruct t as [d| |w]; simpl in *; [|by simplify_eq; apply new_cmd_ok|done].
  destruct (d =? 60); [by simplify_eq; apply new_cmd_ok|]. destruct (d =? 62); [by simplify_eq; apply new_cmd_ok|done].
Qed.

Lemma redirs_agree f c s ts : at_ l s ts -> (c < length (cmds s))%nat -> (length (cmds s) + 2 * length ts <= room)%nat ->
  agrees (wrapped c s ts) (parseredirs buf es room f c s) (p_redirs f ts).
Proof.
  revert c s ts. induction f as [|f IH]; intros c s ts Ha Hc Hr; [done|]. cbn [parseredirs p_redirs]. peeked Ha. rewrite redir_of_tok.
  assert (Hz : agrees (wrapped c s ts) (ret c (set_ps n s)) (Ok ([], ts))).
  { apply agrees_ret. split; [done|]. split; [constructor|]. split; [done|simpl; lia]. }
  destruct ts as [|t ts]; [done|]. destruct (redir_of t) as [[mode fd]|] eqn:Et; [|done]. clear Hz.
  took Hat. took Hat0. destruct ts as [|[d| |w] ts]; [done| |done|].
  { cbn [code]. apply at_sym in Hat0. destruct (d =? 97) eqn:E; [|done]. apply Z.eqb_eq in E as ->. exfalso. vm_compute in Hat0. set_solver. }
  cbn [code]. change (negb (97 =? 97)) with false. cbn iota. rewrite (bind_Ok _ _ _ _ _ (redir_switch t (Word w :: ts) c q0 e0 (set_ps n1 (set_ps n0 (set_ps n s))) mode fd Et ltac:(simpl in *; lia))).
  cbn [tail] in Hat1. specialize (IH (length (cmds s)) (set_cmds (cmds s ++ [REDIR c q0 e0 mode fd]) (set_ps n1 (set_ps n0 (set_ps n s)))) ts).
  cbn [set_ps set_cmds cmds] in IH |- *. rewrite length_app in IH. simpl length in *.
  specialize (IH Hat1 ltac:(lia) ltac:(lia)).
  destruct (p_redirs f ts) as [[rs r]| | | |]; cbn [rbind]; try done. destruct IH as ([d s'] & -> & Ha' & Hch & Hpre & Hl).
  exists (d, s'). split; [done|]. cbn [cmds] in *. split; [done|]. split.
  { econstructor; [|exact Hc|exact Hw0|exact Hch]. eapply prefix_lookup_Some; [|exact Hpre]. cbn [cmds]. by apply list_lookup_middle. }
  split; [etransitivity; [|done]; by apply prefix_app_r|]. simpl in *. rewrite length_app in Hl. simpl in Hl. lia.
Qed.

(** ** Arguments *)

(** The loop of [parseexec] has the words [ws] in the structure [c], and the
    redirections [rs] around it. *)
Record filling (s : pst) (c d : nat) (a e : list (option nat)) (ws : list word) (rs : list redir) : Prop := {
  fl_node : cmds s !! c = Some (EXEC a e);
  fl_args : filled W a e ws;
  fl_chain : chain W (cmds s) c d rs;
}.

Lemma set_arg_ok s c d a e ws rs q p : filling s c d a e ws rs -> (length ws < MAXARGS)%nat ->
  set_arg c (length ws) q p s = Ok (tt, set_cmds (<[c := EXEC (<[length ws := q]> a) (<[length ws := p]> e)]> (cmds s)) s).
Proof. intros Hf Hl. unfold set_arg. rewrite (fl_node _ _ _ _ _ _ _ Hf). by rewrite decide_True. Qed.

(** An argument is added. *)
Lemma filling_word s c d a e ws rs q p w : filling s c d a e ws rs -> (length ws < MAXARGS)%nat -> W q p w ->
  filling (set_cmds (<[c := EXEC (<[length ws := Some q]> a) (<[length ws := Some p]> e)]> (cmds s)) s) c d
    (<[length ws := Some q]> a) (<[length ws := Some p]> e) (ws ++ [w]) rs.
Proof.
  intros [Hn Ha Hc] Hl Hw. split; simpl.
  - apply list_lookup_insert_eq. by apply lookup_lt_Some in Hn.
  - by apply filled_snoc.
  - by apply chain_insert.
Qed.

(** Redirections are put around it. *)
Lemma filling_wrap s c d a e ws rs ts d' s' rs' r : filling s c d a e ws rs -> wrapped d s ts (d', s') (rs', r) ->
  filling s' c d' a e ws (rs ++ rs').
Proof.
  intros [Hn Ha Hc] (_ & Hch & Hp & _). split; [by eapply prefix_lookup_Some|done|].
  eapply chain_app; [by eapply chain_prefix|done].
Qed.

Lemma filling_start s c a e ws rs d : filling s c d a e ws rs -> (c <= d < length (cmds s))%nat.
Proof.
  intros [Hn _ Hc]. apply lookup_lt_Some in Hn. revert Hn. induction Hc as [|c x d q p mode fd w rs Hx Hlt Hw Hc IH]; intros Hn; [lia|].
  apply lookup_lt_Some in Hx. lia.
Qed.

(** What the loop leaves: the whole command, everything older untouched. *)
Definition filled_in (c : nat) (s : pst) (ts : list token) (ws : list word) (rs : list redir) (x : nat * pst) (y : list word * list redir * list token) : Prop :=
  let '(d, s') := x in let '(ws', rs', r) := y in
  at_ l s' r /\ rep W (cmds s') c (TExec (ws ++ ws')) /\ chain W (cmds s') c d (rs ++ rs') /\ take c (cmds s) `prefix_of` cmds s' /\
  (length (cmds s') + 2 * length r <= length (cmds s) + 2 * length ts)%nat.

Lemma filling_done s c d a e ws rs ts : at_ l s ts -> filling s c d a e ws rs -> (length ws < MAXARGS)%nat ->
  agrees (filled_in c s ts ws rs) ((set_arg c (length ws) None None ;;; ret d) s) (Ok ([], [], ts)).
Proof.
  intros Ht Hf Hl. rewrite (bind_Ok _ _ _ _ _ (set_arg_ok _ _ _ _ _ _ _ None None Hf Hl)). apply agrees_ret.
  destruct Hf as [Hn Ha Hc]. destruct (filled_end _ _ _ _ Ha Hl) as [Hf He]. split; [done|]. rewrite !app_nil_r. simpl. apply lookup_lt_Some in Hn as Hlt. split.
  { econstructor; [|exact Hf|exact He]. by apply list_lookup_insert_eq. }
  split; [by apply chain_insert|]. rewrite length_insert. split; [|lia].
  rewrite <- (take_insert_ge (cmds s) c c (EXEC (<[length ws:=None]> a) (<[length ws:=None]> e))) by lia. apply prefix_take.
Qed.

Lemma args_agree f s c d a e ws rs ts : at_ l s ts -> filling s c d a e ws rs -> (length ws < MAXARGS)%nat -> (length (cmds s) + 2 * length ts <= room)%nat ->
  agrees (filled_in c s ts ws rs) (parseargs buf es room f c d (length ws) s) (p_args f (length ws) ts).
Proof.
  revert s d a e ws rs ts. induction f as [|f IH]; intros s d a e ws rs ts Ha Hf Hl Hr; [done|]. cbn [parseargs p_args]. peeked Ha.
  assert (Hz : forall n', at_ l (set_ps n' s) ts -> agrees (filled_in c s ts ws rs) ((set_arg c (length ws) None None ;;; ret d) (set_ps n' s)) (Ok ([], [], ts))).
  { intros n' Hn'. apply (filling_done (set_ps n' s) c d a e ws rs ts); [done| |done]. by destruct Hf. }
  destruct (tok_in _ ts); [by apply Hz|]. took Hat. destruct ts as [|[x| |w] ts]; [by apply (Hz n0)| |done|].
  { cbn [code]. apply at_sym in Hat. destruct (x =? 0) eqn:E; [apply Z.eqb_eq in E as ->; exfalso; vm_compute in Hat; set_solver|].
    destruct (x =? 97) eqn:E1; [apply Z.eqb_eq in E1 as ->; exfalso; vm_compute in Hat; set_solver|done]. }
  clear Hz. cbn [code]. change (97 =? 0) with false. change (negb (97 =? 97)) with false. cbn iota. set (s0 := set_ps n0 (set_ps n s)) in *.
  assert (Hf0 : filling s0 c d a e ws rs) by (by destruct Hf). rewrite (bind_Ok _ _ _ _ _ (set_arg_ok _ _ _ _ _ _ _ _ _ Hf0 Hl)).
  pose proof (filling_word _ _ _ _ _ _ _ _ _ _ Hf0 Hl Hw) as Hf1. set (s1 := set_cmds _ s0) in *. destruct (decide _) as [Hm|Hm]; [done|].
  assert (Hlen : length (cmds s1) = length (cmds s)) by (unfold s1; simpl; by rewrite length_insert).
  assert (Hpre : take c (cmds s1) = take c (cmds s)) by (unfold s1; simpl; by rewrite take_insert_ge by lia). cbn [tail length] in *.
  eapply agrees_bind; [apply (redirs_agree f d s1 ts); [done|pose proof (filling_start _ _ _ _ _ _ _ Hf1); lia|lia]|].
  intros d2 s2 [rs2 r] Hwr. pose proof (filling_wrap _ _ _ _ _ _ _ _ _ _ _ _ Hf1 Hwr) as Hf2. destruct Hwr as (Ha2 & _ & Hp2 & Hl2).
  specialize (IH s2 d2 _ _ _ _ r Ha2 Hf2). rewrite length_app, Nat.add_comm in IH. simpl in IH. specialize (IH ltac:(lia) ltac:(lia)).
  destruct (p_args f (S (length ws)) r) as [[[ws3 rs3] r3]| | | |]; cbn [rbind]; try done. destruct IH as ([d3 s3] & -> & Ha3 & Hrep & Hch & Hp3 & Hl3).
  exists (d3, s3). split; [done|]. split; [done|]. rewrite <- !app_assoc in *. split; [done|]. split; [done|]. split; [|simpl; lia].
  rewrite <- Hpre. apply (filling_start _ _ _ _ _ _ _) in Hf1 as Hc. destruct Hp2 as [k E]. rewrite E, take_app_le in Hp3 by lia. done.
Qed.

(** ** Commands *)

Lemma rep_lt cs c t : rep W cs c t -> (c < length cs)%nat.
Proof. by inversion 1; subst; eapply lookup_lt_Some. Qed.

Definition backed (s : pst) (ts : list token) (x : nat * pst) (y : tree * list token) : Prop :=
  let '(c, s') := x in let '(t, r) := y in
  at_ l s' r /\ rep W (cmds s') c t /\ cmds s `prefix_of` cmds s' /\ (length (cmds s') + 2 * length r <= length (cmds s) + 2 * length ts)%nat.

Lemma backs_agree f c t s ts : at_ l s ts -> rep W (cmds s) c t -> (length (cmds s) + 2 * length ts <= room)%nat ->
  agrees (backed s ts) (parsebacks buf es room f c s) (p_backs f t ts).
Proof.
  revert c t s ts. induction f as [|f IH]; intros c t s ts Ha Hc Hr; [done|]. cbn [parsebacks p_backs]. peeked Ha.
  destruct (tok_in _ ts) eqn:E; [|by apply agrees_ret].
  apply tok_in_one in E as [r ->]; [|done]. took Hat. cbn [tail length] in *. unfold backcmd.
  erewrite bind_Ok by (apply new_cmd_ok; simpl; lia).
  change (agrees (backed s (Sym 38 :: r)) (parsebacks buf es room f (length (cmds s)) (Pst n0 (cmds s ++ [BACK c]))) (p_backs f (TBack t) r)).
  specialize (IH (length (cmds s)) (TBack t) (Pst n0 (cmds s ++ [BACK c])) r Hat0). cbn [cmds] in IH. rewrite length_app in IH.
  assert (Hp : cmds s `prefix_of` cmds s ++ [BACK c]) by (by apply prefix_app_r).
  assert (Hrep : rep W (cmds s ++ [BACK c]) (length (cmds s)) (TBack t)).
  { eapply rep_back; [by apply list_lookup_middle|by eapply rep_lt|by eapply rep_prefix]. }
  specialize (IH Hrep ltac:(simpl; lia)). destruct (p_backs f (TBack t) r) as [[t' r']| | | |]; try done.
  destruct IH as ([c' s'] & -> & Ha' & Hr' & Hp' & Hl). exists (c', s'). split; [done|]. split; [done|]. split; [done|].
  split; [by etransitivity|]. cbn [cmds] in Hl. rewrite length_app in Hl. simpl in *. lia.
Qed.

(** A command that joins two. *)
Lemma joined s ts1 ts2 s1 s2 r c1 c2 t1 t2 v t :
  cmds s `prefix_of` cmds s1 -> rep W (cmds s1) c1 t1 -> (length (cmds s1) + 2 * S (length ts2) <= length (cmds s) + 2 * length ts1 + 1)%nat ->
  built s1 ts2 (c2, s2) (t2, r) -> (length (cmds s) + 2 * length ts1 + 1 <= room)%nat ->
  (forall cs c, cs !! c = Some v -> (c1 < c)%nat -> (c2 < c)%nat -> rep W cs c1 t1 -> rep W cs c2 t2 -> rep W cs c t) ->
  agrees (built s ts1) (new_cmd room v s2) (Ok (t, r)).
Proof.
  intros Hp Hr1 Hl (Ha2 & Hr2 & Hp2 & Hl2) Hroom Hv. eexists. split; [apply new_cmd_ok; lia|]. cbn [set_cmds cmds].
  assert (Hq : cmds s2 `prefix_of` cmds s2 ++ [v]) by (by apply prefix_app_r). split; [done|]. split.
  { apply Hv; [by apply list_lookup_middle| |by eapply rep_lt| |by eapply rep_prefix].
    - eapply rep_lt. by eapply rep_prefix.
    - eapply rep_prefix; [|done]. by etransitivity. }
  cbn [set_cmds cmds]. split; [by etransitivity; [|etransitivity]|]. rewrite length_app. simpl. lia.
Qed.

Definition agree_at (f : nat) : Prop := forall s ts, at_ l s ts -> (length (cmds s) + 2 * length ts + 1 <= room)%nat ->
  agrees (built s ts) (parseline buf es room f s) (p_line f ts) /\
  agrees (built s ts) (parsepipe buf es room f s) (p_pipe f ts) /\
  agrees (built s ts) (parseexec buf es room f s) (p_exec f ts) /\
  agrees (built s ts) (parseblock buf es room f s) (p_block f ts).

Lemma line_agree f s ts : agree_at f -> at_ l s ts -> (length (cmds s) + 2 * length ts + 1 <= room)%nat ->
  agrees (built s ts) (parseline buf es room (S f) s) (p_line (S f) ts).
Proof.
  intros IH Ha Hr. cbn [parseline p_line]. eapply agrees_bind; [by apply IH|]. intros c s1 [t r] (Ha1 & Hr1 & Hp1 & Hl1).
  eapply agrees_bind; [apply backs_agree; [done..|lia]|]. intros c2 s2 [t2 r2] (Ha2 & Hr2 & Hp2 & Hl2).
  peeked Ha2. destruct (tok_in _ r2) eqn:E.
  - apply tok_in_one in E as [r3 ->]; [|done]. took Hat. cbn [tail length] in *. set (s3 := set_ps n0 _) in *.
    eapply agrees_bind; [apply (proj1 (IH s3 r3 Hat0 ltac:(simpl; lia)))|]. intros c4 s4 [u r4] Hb.
    eapply (joined s ts r3 s3 s4 r4 c2 c4 t2 u); [by etransitivity|done|simpl; lia|done|lia|]. intros; by eapply rep_list.
  - apply agrees_ret. split; [done|]. split; [done|]. split; [by etransitivity|simpl; lia].
Qed.

Lemma pipe_agree f s ts : agree_at f -> at_ l s ts -> (length (cmds s) + 2 * length ts + 1 <= room)%nat ->
  agrees (built s ts) (parsepipe buf es room (S f) s) (p_pipe (S f) ts).
Proof.
  intros IH Ha Hr. cbn [parsepipe p_pipe]. eapply agrees_bind; [by apply IH|]. intros c2 s2 [t2 r2] (Ha2 & Hr2 & Hp2 & Hl2).
  peeked Ha2. destruct (tok_in _ r2) eqn:E.
  - apply tok_in_one in E as [r3 ->]; [|done]. took Hat. cbn [tail length] in *. set (s3 := set_ps n0 _) in *.
    destruct (IH s3 r3 Hat0 ltac:(simpl; lia)) as (_ & Hpipe & _). eapply agrees_bind; [exact Hpipe|]. intros c4 s4 [u r4] Hb.
    eapply (joined s ts r3 s3 s4 r4 c2 c4 t2 u); [done|done|simpl; lia|done|lia|]. intros; by eapply rep_pipe.
  - by apply agrees_ret.
Qed.

Lemma exec_agree f s ts : agree_at f -> at_ l s ts -> (length (cmds s) + 2 * length ts + 1 <= room)%nat ->
  agrees (built s ts) (parseexec buf es room (S f) s) (p_exec (S f) ts).
Proof.
  intros IH Ha Hr. cbn [parseexec p_exec]. peeked Ha. destruct (tok_in _ ts); [by apply (IH (set_ps n s) ts)|]. unfold execcmd.
  erewrite bind_Ok by (apply new_cmd_ok; simpl; lia). set (v := EXEC _ _). set (s1 := set_cmds _ _).
  assert (Hf : filling s1 (length (cmds s)) (length (cmds s)) (replicate MAXARGS None) (replicate MAXARGS None) [] []).
  { split; [by apply list_lookup_middle| |constructor]. split; [done|]. split; [done|]. intros i w Hi. done. }
  assert (Hl1 : length (cmds s1) = S (length (cmds s))) by (unfold s1; simpl; rewrite length_app; simpl; lia).
  cbn [set_ps cmds]. eapply agrees_bind; [apply (redirs_agree f _ s1 ts); [done|lia..]|]. intros d s2 [rs r] Hw.
  pose proof (filling_wrap _ _ _ _ _ _ _ _ _ _ _ _ Hf Hw) as Hf2. destruct Hw as (Ha2 & _ & Hp2 & Hl2).
  pose proof (args_agree f s2 _ _ _ _ _ _ r Ha2 Hf2 ltac:(simpl; unfold MAXARGS; lia) ltac:(lia)) as Hargs. cbn [length app] in Hargs.
  destruct (p_args f 0 r) as [[[ws rs2] r2]| | | |]; cbn [rbind]; try done. destruct Hargs as ([d3 s3] & -> & Ha3 & Hrep & Hch & Hp3 & Hl3).
  exists (d3, s3). split; [done|]. split; [done|]. split; [by eapply chain_rep|]. split; [|lia].
  destruct Hp2 as [k E]. rewrite E in Hp3. unfold s1 in Hp3. cbn [set_cmds set_ps cmds] in Hp3. rewrite <- app_assoc, take_app_length in Hp3. done.
Qed.

Lemma block_agree f s ts : agree_at f -> at_ l s ts -> (length (cmds s) + 2 * length ts + 1 <= room)%nat ->
  agrees (built s ts) (parseblock buf es room (S f) s) (p_block (S f) ts).
Proof.
  intros IH Ha Hr. cbn [parseblock p_block]. peeked Ha. destruct (tok_in _ ts) eqn:E; cbn [negb]; [|done].
  apply tok_in_one in E as [r ->]; [|done]. took Hat. cbn [tail length] in *. set (s1 := set_ps n0 _) in *.
  eapply agrees_bind; [apply (proj1 (IH s1 r Hat0 ltac:(simpl; lia)))|]. intros c s2 [t r2] (Ha2 & Hr2 & Hp2 & Hl2). peeked Ha2.
  destruct (tok_in _ r2) eqn:E; cbn [negb]; [|done]. apply tok_in_one in E as [r3 ->]; [|done]. took Hat1. cbn [tail length] in *. set (s3 := set_ps n2 _) in *.
  pose proof (redirs_agree f c s3 r3 Hat2 (rep_lt _ _ _ Hr2) ltac:(simpl in *; lia)) as Hred.
  destruct (p_redirs f r3) as [[rs r4]| | | |]; cbn [rbind]; try done. destruct Hred as ([d s4] & -> & Ha4 & Hch & Hp4 & Hl4).
  exists (d, s4). split; [done|]. split; [done|]. split; [eapply chain_rep; [done|]; by eapply rep_prefix|]. split; [by etransitivity|simpl in *; lia].
Qed.

Lemma parse_agree f : agree_at f.
Proof.
  induction f as [|f IH]; intros s ts Ha Hr; [done|].
  split_and!; [by apply line_agree|by apply pipe_agree|by apply exec_agree|by apply block_agree].
Qed.

(** ** nulterminate *)

(** Where a word can end. *)
Definition boundary (i : nat) : Prop := i = es \/ exists v, l !! i = Some v /\ in_word v = false.

(** The buffer with some of the ends of words set to zero. *)
Definition cut (b : list Z) : Prop :=
  length b = length buf /\ forall i, b !! i = buf !! i \/ (b !! i = Some 0 /\ boundary i).

Definition zeros (b b' : list Z) : Prop := forall i, b !! i = Some 0 -> b' !! i = Some 0.

Lemma drop_word_hd m v r : drop_word m = v :: r -> in_word v = false.
Proof. induction m as [|c m IH]; simpl; [done|]. destruct (in_word c) eqn:E; [done|]. by intros [= <- <-]. Qed.

Lemma word_end q e w : W q e w -> (e <= es)%nat /\ boundary e /\ drop q l = w ++ drop e l.
Proof.
  intros (Hq & Hw & Hn & He). pose proof (take_drop_word (drop q l)) as Ht. rewrite <- Hw in Ht.
  assert (Hd : drop e l = drop_word (drop q l)). { rewrite He, <- drop_drop, <- Ht at 1. by rewrite drop_app_length. }
  rewrite Hd. assert (Hle : (e <= es)%nat). { apply (f_equal length) in Ht. rewrite length_app, length_drop in Ht. lia. }
  split; [done|]. split; [|done]. destruct (drop_word (drop q l)) as [|v r] eqn:E.
  - left. apply (f_equal length) in Hd. rewrite length_drop in Hd. simpl in Hd. lia.
  - right. exists v. split; [|by eapply drop_word_hd]. rewrite <- (Nat.add_0_r e), <- lookup_drop, Hd. done.
Qed.

Lemma zero_at_ok q e w b : W q e w -> cut b -> exists b', zero_at e b = Ok b' /\ cut b' /\ zeros b b' /\ b' !! e = Some 0.
Proof.
  intros Hw [Hl Hc]. destruct (word_end _ _ _ Hw) as (He & Hb & _). pose proof (cstr_length _ _ _ Hbuf) as Hlen. simpl in Hlen.
  unfold zero_at. rewrite decide_True by lia. eexists. split; [done|]. split.
  - split; [by rewrite length_insert|]. intros i. destruct (decide (i = e)) as [->|Hi]; [right|].
    + by rewrite list_lookup_insert_eq by lia.
    + rewrite list_lookup_insert_ne by done. apply Hc.
  - split; [|by apply list_lookup_insert_eq; lia]. intros i Hi. destruct (decide (i = e)) as [->|Hie]; [by apply list_lookup_insert_eq; lia|by rewrite list_lookup_insert_ne].
Qed.

(** Whatever was cut, a word whose end is cut is a string. *)
Lemma word_cstr q e w b : W q e w -> cut b -> b !! e = Some 0 -> cstr b q w.
Proof.
  intros Hw [Hl Hc] He. destruct (word_end _ _ _ Hw) as (Hle & _ & Hd). destruct Hw as (Hq & Hw & Hn & ->).
  assert (Hin : Forall (fun v => in_word v = true) w).
  { rewrite Hw. clear. induction (drop q l) as [|c m IH]; simpl; [done|]. destruct (in_word c) eqn:E; by constructor. }
  destruct Hbuf as [[rest E] Hf]. rewrite drop_0 in E.
  split. 2:{ apply (Forall_drop _ q) in Hf. rewrite Hd in Hf. by apply Forall_app in Hf as [? _]. }
  exists (drop (S (q + length w)) b). rewrite <- (drop_S _ _ _ He), <- drop_drop.
  assert (Ht : take (length w) (drop q b) = w); [|rewrite <- (take_drop (length w) (drop q b)) at 1; by rewrite Ht].
  apply list_eq_same_length with (length w); [done|rewrite length_take, length_drop; apply lookup_lt_Some in He; lia|].
  intros i x y Hi Hx Hy. rewrite lookup_take_lt in Hx by lia. rewrite lookup_drop in Hx.
  assert (Hli : l !! (q + i)%nat = Some y) by (by rewrite <- lookup_drop, Hd, lookup_app_l by lia).
  destruct (Hc (q + i)%nat) as [Hb|[Hb [Hb2|(v & Hv & Hiv)]]].
  - rewrite Hb, E, lookup_app_l in Hx by (by eapply lookup_lt_Some). congruence.
  - apply lookup_lt_Some in Hli. lia.
  - rewrite Hli in Hv. injection Hv as <-. eapply Forall_lookup_1 in Hin; [|exact Hy]. congruence.
Qed.

Lemma rep_mono (W1 W2 : nat -> nat -> word -> Prop) cs c t : (forall q e w, W1 q e w -> W2 q e w) -> rep W1 cs c t -> rep W2 cs c t.
Proof.
  intros HW. induction 1 as [c a e ws Hc (Ha & He & Hw) Hn| | | |]; [|econstructor; eauto..]. econstructor; [done| |done].
  split; [done|]. split; [done|]. intros i w Hi. destruct (Hw i w Hi) as (q & p & ? & ? & ?). eauto 6.
Qed.

(** The words of the tree end in a zero in [b]. *)
Notation ended b := (fun q e w => W q e w /\ b !! e = Some 0).

Lemma ended_mono b b' cs c t : zeros b b' -> rep (ended b) cs c t -> rep (ended b') cs c t.
Proof. intros Hz. apply rep_mono. intros q e w [? ?]. split; [done|by apply Hz]. Qed.

(** The loop over the arguments. *)
Lemma zero_args_ok fuel i a e ws b : filled W a e ws -> a !! length ws = Some None -> (i <= length ws)%nat -> (length ws - i < fuel)%nat -> cut b ->
  exists b', zero_args fuel i a e b = Ok b' /\ cut b' /\ zeros b b' /\
    forall j w, (i <= j)%nat -> ws !! j = Some w -> exists q p, a !! j = Some (Some q) /\ e !! j = Some (Some p) /\ W q p w /\ b' !! p = Some 0.
Proof.
  intros Hf Hn. revert i b. induction fuel as [|f IH]; intros i b Hi Hfu Hc; [lia|]. cbn [zero_args].
  destruct (decide (i = length ws)) as [->|Hne].
  { rewrite Hn. exists b. split; [done|]. split; [done|]. split; [by intros ?|]. intros j w Hj Hw. apply lookup_lt_Some in Hw. lia. }
  destruct (lookup_lt_is_Some_2 ws i) as [w Hw]; [lia|]. destruct Hf as (_ & _ & Hf). destruct (Hf i w Hw) as (q & p & Ha & He & Hqp). rewrite Ha, He.
  destruct (zero_at_ok q p w b Hqp Hc) as (b1 & -> & Hc1 & Hz1 & Hp). cbn [rbind].
  destruct (IH (S i) b1) as (b2 & -> & Hc2 & Hz2 & Hj); [lia|lia|done|]. exists b2. split; [done|]. split; [done|].
  split; [intros j Hj0; by apply Hz2, Hz1|]. intros j v Hij Hv. destruct (decide (j = i)) as [->|Hji]; [|by apply (Hj j v); [lia|]].
  exists q, p. split; [done|]. split; [done|]. rewrite Hw in Hv. injection Hv as <-. split; [done|by apply Hz2].
Qed.

Lemma nulterminate_ok cs c t : rep W cs c t -> forall f b, (c < f)%nat -> cut b ->
  exists b', nulterminate f cs c b = Ok b' /\ cut b' /\ zeros b b' /\ rep (ended b') cs c t.
Proof.
  induction 1 as [c a e ws Hc Hf Hn|c d q p mode fd w t Hc Hd Hw H IH|c x y t u Hc Hx Hy Ht IHt Hu IHu|c x y t u Hc Hx Hy Ht IHt Hu IHu|c d t Hc Hd H IH];
    intros [|f] b Hfu Hb; try lia; cbn [nulterminate]; rewrite Hc.
  - assert (Hl : (length ws < MAXARGS)%nat) by (apply lookup_lt_Some in Hn; by destruct Hf as [<- _]).
    destruct (zero_args_ok (S MAXARGS) 0 a e ws b Hf Hn) as (b' & Hz & Hc' & Hzs & Hj); [lia|lia|done|]. exists b'. split; [done|]. split; [done|]. split; [done|].
    econstructor; [done| |done]. destruct Hf as (? & ? & _). split; [done|]. split; [done|]. intros i w Hi. destruct (Hj i w) as (q & p & ? & ? & ? & ?); [lia|done|]. eauto 8.
  - destruct (IH f b) as (b1 & -> & Hc1 & Hz1 & Hr1); [lia|done|]. cbn [rbind]. destruct (zero_at_ok q p w b1 Hw Hc1) as (b2 & -> & Hc2 & Hz2 & Hp).
    exists b2. split; [done|]. split; [done|]. split; [intros i Hi; by apply Hz2, Hz1|]. econstructor; [done..|by eapply ended_mono].
  - destruct (IHt f b) as (b1 & -> & Hc1 & Hz1 & Hr1); [lia|done|]. cbn [rbind]. destruct (IHu f b1) as (b2 & -> & Hc2 & Hz2 & Hr2); [lia|done|].
    exists b2. split; [done|]. split; [done|]. split; [intros i Hi; by apply Hz2, Hz1|]. eapply rep_pipe; [done..|by eapply ended_mono|done].
  - destruct (IHt f b) as (b1 & -> & Hc1 & Hz1 & Hr1); [lia|done|]. cbn [rbind]. destruct (IHu f b1) as (b2 & -> & Hc2 & Hz2 & Hr2); [lia|done|].
    exists b2. split; [done|]. split; [done|]. split; [intros i Hi; by apply Hz2, Hz1|]. eapply rep_list; [done..|by eapply ended_mono|done].
  - destruct (IH f b) as (b1 & -> & Hc1 & Hz1 & Hr1); [lia|done|]. exists b1. split; [done|]. split; [done|]. split; [done|]. by econstructor.
Qed.

Lemma start_at : at_ l (Pst 0 []) (tokens l).
Proof. split; [simpl; lia|]. simpl. rewrite drop_0. by apply lex_lexes. Qed.

Lemma parsecmd_run : (2 * length (tokens l) + 1 <= room)%nat ->
  match p_line (parse_fuel es) (tokens l) with
  | Ok (t, []) => exists c cs b, parsecmd room buf = Ok (c, cs, b) /\ rep (fun q _ w => cstr b q w) cs c t /\ length b = length buf
  | Ok (_, _) => parsecmd room buf = Panic "syntax"
  | Panic m => parsecmd room buf = Panic m
  | _ => True
  end.
Proof.
  intros Hr. unfold parsecmd, ULib.strlen. rewrite (strlen_ok _ _ _ Hbuf). cbn [rbind]. rewrite Nat2Z.id.
  destruct (parse_agree (parse_fuel es) (Pst 0 []) (tokens l) start_at ltac:(simpl; lia)) as (Hp & _).
  destruct (p_line (parse_fuel es) (tokens l)) as [[t r]|m| | |]; try done; [|simpl in Hp; by rewrite Hp].
  destruct Hp as ([c s] & -> & Ha & Hrep & _). cbn [rbind]. destruct (peek_ok buf l Hbuf [] s r ltac:(set_solver) Ha) as (n & -> & Ha' & Hn). cbn [rbind ps cmds set_ps].
  destruct r as [|k r].
  - rewrite (proj2 (Nat.eqb_eq n es)) by (by apply Hn). cbn [negb]. destruct (nulterminate_ok _ _ _ Hrep (S c) buf) as (b & -> & Hc & _ & Hb); [lia| |].
    { split; [done|]. intros i. by left. }
    cbn [rbind]. exists c, (cmds s), b. split; [done|]. split; [|by destruct Hc]. eapply rep_mono; [|exact Hb]. intros q e w [Hw He]. by eapply word_cstr.
  - rewrite (proj2 (Nat.eqb_neq n es)); [done|]. intros E. apply Hn in E. done.
Qed.

End run.

(** C33: a command line that is a sentence of the grammar has one
    tree, and [parsecmd], with memory for two structures per token and one
    more, returns that tree: every structure is allocated after its parts, the
    arguments of a command are followed by a null pointer, and each argument
    and file name is a string of its own in the buffer.  On any other line
    the shell panics; it never follows a bad pointer, reads outside the buffer
    or runs forever. *)
Theorem parsecmd_accepts_exactly_the_grammar room buf l :
  cstr buf 0 l -> (2 * length (tokens l) + 1 <= room)%nat ->
  (forall t, g_line (tokens l) t ->
     (exists c cs b, parsecmd room buf = Ok (c, cs, b) /\ rep (fun q _ w => cstr b q w) cs c t /\ length b = length buf) /\
     (forall t', g_line (tokens l) t' -> t' = t)) /\
  ((forall t, ~ g_line (tokens l) t) -> exists msg, parsecmd room buf = Panic msg).
Proof.
  intros Hb Hr. pose proof (parsecmd_run buf l Hb room Hr) as Hrun. destruct (p_line_spec (parse_fuel (length l)) (tokens l)) as [Hs Ha].
  { unfold parse_fuel, tokens. pose proof (proj2 (lex_lexes (length l) l ltac:(lia))). lia. }
  split.
  - intros t Ht. apply Hs in Ht as E. rewrite E in Hrun. split; [done|]. intros t' Ht'. apply Hs in Ht'. congruence.
  - intros Hn. destruct (p_line _ _) as [[t [|k r]]|m| | |] eqn:E; try done; [|eauto..]. exfalso. apply (Hn t). by apply Hs.
Qed.

Definition demo_line : list Z := codes "(ls <a; b c)>> d | e &".
Definition demo_tree : tree :=
  TBack (TPipe (TRedir (TList (TRedir (TExec [codes "ls"]) (codes "a") 0 0) (TExec [codes "b"; codes "c"])) (codes "d") 513 1) (TExec [codes "e"])).

Lemma parsecmd_accepts_exactly_the_grammar_witness :
  exists c cs b, parsecmd 40 (demo_line ++ [0]) = Ok (c, cs, b) /\ rep (fun q _ w => cstr b q w) cs c demo_tree.
Proof.
  assert (Hc : cstr (demo_line ++ [0]) 0 demo_line) by (split; [by exists []|vm_compute; repeat constructor]).
  destruct (parsecmd_accepts_exactly_the_grammar 40 (demo_line ++ [0]) demo_line Hc) as [H _]; [apply Nat.leb_le; vm_compute; reflexivity|].
  assert (Hg : g_line (tokens demo_line) demo_tree).
  { destruct (p_line_spec 100 (tokens demo_line)) as [Hs _]; [apply Nat.leb_le; vm_compute; reflexivity|]. apply (Hs demo_tree). vm_compute. reflexivity. }
  destruct (H demo_tree Hg) as [(c & cs & b & E & Hr & _) _]. exists c, cs, b. exact (conj E Hr).
Defined.
