(* ===== verification/Umalloc.v ===== *)
(** * The user-level allocator

    Models [umalloc.c], the allocator of Kernighan and Ritchie, on top of
    [sbrk].  The memory is the headers that have been stored in it, by their
    byte address; a header that was never stored reads as zero, as the kernel
    hands out zeroed pages, and an access above the size of the process, or
    between the program's data and its heap, faults. *)

From S2P Require Import Prelude Mmu.

(** [union header] *)
Record hdr := Hdr { ptr : Z; size : Z }.

Definition HEADER : Z := 8.

(** [freep], the headers in memory, [proc->sz], and how often [sbrk] was called. *)
Record ust := Ust { freep : Z; cells : gmap Z hdr; brk : Z; calls : nat }.

Definition set_freep v s := Ust v (cells s) (brk s) (calls s).
Definition set_cells v s := Ust (freep s) v (brk s) (calls s).
Definition set_brk v s := Ust (freep s) (cells s) v (calls s).
Definition count s := Ust (freep s) (cells s) (brk s) (S (calls s)).

Section umalloc.

(** The address of [base], the end of the program before any [sbrk], and which
    calls of [sbrk] find enough pages. *)
Context (base lo : Z) (can : nat -> bool).

(** ** Headers *)

Definition mapped (s : ust) (p : Z) : bool := (p =? base) || ((lo <=? p) && (p + HEADER <=? brk s)).

Definition load (p : Z) : M ust hdr := fun s =>
  if mapped s p then Ok (default (Hdr 0 0) (cells s !! p), s) else Fault.

Definition store (p : Z) (h : hdr) : M ust unit := fun s =>
  if mapped s p then Ok (tt, set_cells (<[p := h]> (cells s)) s) else Fault.

Definition store_ptr (p v : Z) : M ust unit := let* h := load p in store p (Hdr v (size h)).
Definition store_size (p v : Z) : M ust unit := let* h := load p in store p (Hdr (ptr h) v).

(** [p + n], of a [Header*]. *)
Definition padd (p n : Z) : Z := u32 (p + HEADER * n).

(** ** sbrk *)

(** [sys_sbrk] and [growproc]: the old size, or -1. *)
Definition sbrk (n : Z) : M ust Z := fun s =>
  let sz := brk s in
  let new := u32 (sz + n) in
  if 0 <? n then
    if (KERNBASE <=? new) || negb (can (calls s)) then Ok (u32 (-1), count s)
    else Ok (sz, set_brk (Z.max sz new) (count s))
  else if n <? 0 then
    if sz <=? new then Ok (sz, count s)
    else if new =? 0 then Ok (u32 (-1), count s)
    else Ok (sz, set_cells (filter (fun '(a, _) => a < PGROUNDUP new) (cells s)) (set_brk new (count s)))
  else Ok (sz, count s).

(** ** free *)

(** The loop that looks for the neighbours of [bp]. *)
Fixpoint free_loop (fuel : nat) (bp p : Z) : M ust Z :=
  match fuel with
  | O => nofuel
  | S f =>
      let* h := load p in
      if (p <? bp) && (bp <? ptr h) then ret p
      else if (ptr h <=? p) && ((p <? bp) || (bp <? ptr h)) then ret p
      else free_loop f bp (ptr h)
  end.

(** As many headers as there can be, and one round of the list. *)
Definition list_fuel (s : ust) : nat := 2 * Z.to_nat (brk s / HEADER) + 4.

Definition free (ap : Z) : M ust unit :=
  let bp := ap - HEADER in
  let* s := get in
  let* p := free_loop (list_fuel s) bp (freep s) in
  let* hp := load p in
  let* hb := load bp in
  (if padd bp (size hb) =? ptr hp then
     let* hn := load (ptr hp) in
     store_size bp (u32 (size hb + size hn)) ;;;
     let* hp := load p in
     let* hn := load (ptr hp) in
     store_ptr bp (ptr hn)
   else store_ptr bp (ptr hp)) ;;;
  let* hp := load p in
  let* hb := load bp in
  (if padd p (size hp) =? bp then
     store_size p (u32 (size hp + size hb)) ;;;
     let* hb := load bp in
     store_ptr p (ptr hb)
   else store_ptr p bp) ;;;
  modify (set_freep p).

(** ** malloc *)

Definition morecore (nu : Z) : M ust Z :=
  let nu := if nu <? 4096 then 4096 else nu in
  let* p := sbrk (i32 (u32 (nu * HEADER))) in
  if p =? u32 (-1) then ret 0
  else
    store_size p nu ;;;
    free (p + HEADER) ;;;
    gets freep.

Fixpoint malloc_loop (fuel : nat) (nunits prevp p : Z) : M ust Z :=
  match fuel with
  | O => nofuel
  | S f =>
      let* h := load p in
      if nunits <=? size h then
        let* q :=
          (if size h =? nunits then store_ptr prevp (ptr h) ;;; ret p
           else
             store_size p (u32 (size h - nunits)) ;;;
             let q := padd p (u32 (size h - nunits)) in
             store_size q nunits ;;;
             ret q) in
        modify (set_freep prevp) ;;;
        ret (q + HEADER)
      else
        let* s := get in
        let* p := (if p =? freep s then morecore nunits else ret p) in
        if p =? 0 then ret 0
        else
          let* h := load p in
          malloc_loop f nunits p (ptr h)
  end.

Definition nunits_of (nbytes : Z) : Z := u32 (nbytes + HEADER - 1) / HEADER + 1.

Definition malloc (nbytes : Z) : M ust Z :=
  let nunits := nunits_of nbytes in
  let* s := get in
  let* prevp :=
    (if freep s =? 0 then
       store base (Hdr base 0) ;;;
       modify (set_freep base) ;;;
       ret base
     else ret (freep s)) in
  let* h := load prevp in
  let* s := get in
  malloc_loop (list_fuel s) nunits prevp (ptr h).

End umalloc.
