(* ===== verification/UmallocProps.v ===== *)
(** * What the user-level allocator keeps

    The free blocks form a ring in the order of their addresses, no two of
    them adjacent; together with the blocks in use they tile the heap. *)

From Stdlib Require Import Sorted.
From S2P Require Import Prelude Mmu Umalloc.

(** A block: the address of its header and its size in headers. *)
Notation blk := (Z * Z)%type.

Definition hd_addr (l : list blk) (last : Z) : Z := match l with (a, _) :: _ => a | [] => last end.

(** The blocks [l] are linked, the last one to [last]. *)
Fixpoint seg (m : gmap Z hdr) (l : list blk) (last : Z) : Prop :=
  match l with
  | [] => True
  | (a, z) :: r => m !! a = Some (Hdr (hd_addr r last) z) /\ seg m r last
  end.

Definition ring (m : gmap Z hdr) (l : list blk) : Prop := seg m l (hd_addr l 0).

(** [y] lies behind [x] and does not touch it. *)
Definition apart (x y : blk) : Prop := x.1 + HEADER * x.2 < y.1.

Definition within (b : blk) (x : Z) : Prop := b.1 <= x < b.1 + HEADER * b.2.

Definition in_free (l : list blk) (x : Z) : Prop := exists b, b ∈ l /\ within b x.
Definition in_live (live : gmap Z Z) (x : Z) : Prop := exists a z, live !! a = Some z /\ within (a, z) x.

(** ** Lists of blocks *)

Lemma hd_addr_app l l' last : hd_addr (l ++ l') last = hd_addr l (hd_addr l' last).
Proof. by destruct l as [|[a z] l]. Qed.

Lemma seg_app m l l' last : seg m (l ++ l') last <-> seg m l (hd_addr l' last) /\ seg m l' last.
Proof. induction l as [|[a z] l IH]; simpl; [tauto|]. rewrite IH, hd_addr_app. tauto. Qed.

Lemma seg_insert m l last a h : a ∉ l.*1 -> seg m l last -> seg (<[a := h]> m) l last.
Proof.
  induction l as [|[b z] l IH]; simpl; [done|]. intros Hn [H1 H2]. split; [|apply IH; [set_solver|done]].
  rewrite lookup_insert_ne; [done|]. set_solver.
Qed.

Lemma ring_rotate m l l' : l <> [] -> l' <> [] -> ring m (l ++ l') -> ring m (l' ++ l).
Proof.
  intros H1 H2. unfold ring. rewrite !seg_app, !hd_addr_app. destruct l as [|[a z] l], l' as [|[b y] l']; try done. simpl. tauto.
Qed.

Lemma ss_app (l l' : list blk) : StronglySorted apart (l ++ l') <-> StronglySorted apart l /\ StronglySorted apart l' /\ forall x y, x ∈ l -> y ∈ l' -> apart x y.
Proof.
  induction l as [|x l IH]; simpl.
  - split; [|by intros (_ & ? & _)]. intros H. split; [constructor|]. split; [done|]. intros x y Hx. by apply elem_of_nil in Hx.
  - split.
    + intros H. apply StronglySorted_inv in H as [H Hf]. apply IH in H as (H1 & H2 & H3). rewrite Forall_app in Hf. destruct Hf as [Hf1 Hf2].
      split; [by constructor|]. split; [done|]. intros y w Hy Hw. apply elem_of_cons in Hy as [->|Hy]; [|by apply H3]. rewrite Forall_forall in Hf2. by apply Hf2.
    + intros (H1 & H2 & H3). apply StronglySorted_inv in H1 as [H1 Hf]. constructor; [apply IH; split; [done|]; split; [done|]; set_solver|].
      apply Forall_app. split; [done|]. apply Forall_forall. intros w Hw. apply H3; [left|done].
Qed.

Lemma in_free_app l l' x : in_free (l ++ l') x <-> in_free l x \/ in_free l' x.
Proof. unfold in_free. split; [intros (b & Hb & H); apply elem_of_app in Hb as [?|?]; eauto|]. intros [(b & ? & ?)|(b & ? & ?)]; exists b; (split; [apply elem_of_app; auto|done]). Qed.

Lemma in_free_cons b l x : in_free (b :: l) x <-> within b x \/ in_free l x.
Proof. unfold in_free. split; [intros (c & Hc & H); apply elem_of_cons in Hc as [->|?]; eauto|]. intros [?|(c & ? & ?)]; [exists b|exists c]; (split; [apply elem_of_cons; auto|done]). Qed.

Lemma in_live_delete live a z x : live !! a = Some z -> (forall b y, live !! b = Some y -> b <> a -> a + HEADER * z <= b \/ b + HEADER * y <= a) ->
  in_live (delete a live) x <-> in_live live x /\ ~ within (a, z) x.
Proof.
  intros Ha Hd. split.
  - intros (b & y & Hb & Hw). apply lookup_delete_Some in Hb as [Hne Hb]. split; [by exists b, y|]. unfold within in *. simpl in *. destruct (Hd b y Hb); [done|lia..].
  - intros [(b & y & Hb & Hw) Hn]. exists b, y. split; [|done]. destruct (decide (b = a)) as [->|Hne]; [naive_solver|by rewrite lookup_delete_ne].
Qed.

Lemma in_live_insert live a z x : live !! a = None -> in_live (<[a := z]> live) x <-> within (a, z) x \/ in_live live x.
Proof.
  intros Ha. split.
  - intros (b & y & Hb & Hw). apply lookup_insert_Some in Hb as [[<- <-]|[Hne Hb]]; [by left|right; by exists b, y].
  - intros [Hw|(b & y & Hb & Hw)]; [exists a, z; by rewrite lookup_insert_eq|]. exists b, y. split; [|done]. rewrite lookup_insert_ne; [done|]. congruence.
Qed.

Section heap.

Context (base lo : Z) (can : nat -> bool).
Context (Hbase : 0 < base) (Hlo : base + HEADER <= lo).

Notation mapped := (mapped base lo).
Notation load := (load base lo).
Notation store_ptr := (store_ptr base lo).
Notation store_size := (store_size base lo).
Notation free_loop := (free_loop base lo).
Notation free := (free base lo).

(** ** The invariant *)

(** The free blocks [fl] and the blocks in use [live], headers included. *)
Record heap (s : ust) (fl : list blk) (live : gmap Z Z) : Prop := {
  h_ring : ring (cells s) ((base, 0) :: fl);
  h_sorted : StronglySorted apart ((base, 0) :: fl);
  h_pos : Forall (fun b => 0 < b.2) fl;
  h_freep : freep s ∈ ((base, 0) :: fl).*1;
  h_live : forall a z, live !! a = Some z -> 0 < z /\ exists h, cells s !! a = Some h /\ size h = z;
  h_cover : forall x, lo <= x < brk s <-> in_free fl x \/ in_live live x;
  h_excl : forall x, in_free fl x -> in_live live x -> False;
  h_disj : forall a z b y, live !! a = Some z -> live !! b = Some y -> b <> a -> a + HEADER * z <= b \/ b + HEADER * y <= a;
  h_brk : lo <= brk s < KERNBASE;
}.

Ltac u := unfold within, apart, HEADER, KERNBASE in *; simpl fst in *; simpl snd in *.

Lemma free_bounds s fl live a z : heap s fl live -> (a, z) ∈ fl -> 0 < z /\ lo <= a /\ a + HEADER * z <= brk s.
Proof.
  intros H Hin. pose proof (proj1 (Forall_forall _ _) (h_pos _ _ _ H) _ Hin) as Hz. simpl in Hz.
  assert (H1 : lo <= a < brk s). { apply (h_cover _ _ _ H). left. exists (a, z). split; [done|]. u. lia. }
  assert (H2 : lo <= a + HEADER * z - 1 < brk s). { apply (h_cover _ _ _ H). left. exists (a, z). split; [done|]. u. lia. }
  lia.
Qed.

Lemma live_bounds s fl live a z : heap s fl live -> live !! a = Some z -> 0 < z /\ lo <= a /\ a + HEADER * z <= brk s.
Proof.
  intros H Ha. destruct (h_live _ _ _ H _ _ Ha) as [Hz _].
  assert (H1 : lo <= a < brk s). { apply (h_cover _ _ _ H). right. exists a, z. split; [done|]. u. lia. }
  assert (H2 : lo <= a + HEADER * z - 1 < brk s). { apply (h_cover _ _ _ H). right. exists a, z. split; [done|]. u. lia. }
  lia.
Qed.

Lemma free_live_apart s fl live a z b y : heap s fl live -> (a, z) ∈ fl -> live !! b = Some y -> a + HEADER * z <= b \/ b + HEADER * y <= a.
Proof.
  intros H Ha Hb. destruct (free_bounds _ _ _ _ _ H Ha) as [Hz _]. destruct (live_bounds _ _ _ _ _ H Hb) as [Hy _].
  destruct (decide (a + HEADER * z <= b \/ b + HEADER * y <= a)) as [|Hn]; [done|]. exfalso.
  apply (h_excl _ _ _ H (Z.max a b)); [exists (a, z)|exists b, y]; (split; [done|]); u; lia.
Qed.

Lemma full_cases (fl : list blk) a z : (a, z) ∈ (base, 0) :: fl -> (a = base /\ z = 0) \/ (a, z) ∈ fl.
Proof. intros H. apply elem_of_cons in H as [[= -> ->]|H]; auto. Qed.

(** A header of the ring. *)
Lemma node_ok s fl live pre a z post : heap s fl live -> (base, 0) :: fl = pre ++ (a, z) :: post ->
  cells s !! a = Some (Hdr (hd_addr post base) z) /\ mapped s a = true /\ base <= a < KERNBASE /\ 0 <= z /\ a + HEADER * z < KERNBASE.
Proof.
  intros H E. pose proof (h_ring _ _ _ H) as Hr. unfold ring in Hr. simpl hd_addr in Hr. rewrite E in Hr. apply seg_app in Hr as [_ [Hc _]].
  split; [done|]. assert (Hin : (a, z) ∈ (base, 0) :: fl) by (rewrite E; set_solver). pose proof (h_brk _ _ _ H) as Hk.
  unfold Umalloc.mapped. apply full_cases in Hin as [[-> ->]|Hin].
  - rewrite Z.eqb_refl. u. split; [done|lia].
  - destruct (free_bounds _ _ _ _ _ H Hin) as (Hz & Ha & He). u. split; [|lia]. apply orb_true_iff. right. apply andb_true_iff. lia.
Qed.

Lemma hload_ok s p h : cells s !! p = Some h -> mapped s p = true -> load p s = Ok (h, s).
Proof. intros H1 H2. unfold Umalloc.load. by rewrite H2, H1. Qed.

Lemma store_ptr_ok s p h v : cells s !! p = Some h -> mapped s p = true -> store_ptr p v s = Ok (tt, set_cells (<[p := Hdr v (size h)]> (cells s)) s).
Proof. intros H1 H2. unfold Umalloc.store_ptr. rewrite (bind_Ok _ _ _ _ _ (hload_ok _ _ _ H1 H2)). unfold Umalloc.store. by rewrite H2. Qed.

Lemma store_size_ok s p h v : cells s !! p = Some h -> mapped s p = true -> store_size p v s = Ok (tt, set_cells (<[p := Hdr (ptr h) v]> (cells s)) s).
Proof. intros H1 H2. unfold Umalloc.store_size. rewrite (bind_Ok _ _ _ _ _ (hload_ok _ _ _ H1 H2)). unfold Umalloc.store. by rewrite H2. Qed.

Lemma live_mapped s fl live a z : heap s fl live -> live !! a = Some z -> mapped s a = true.
Proof. intros H Ha. destruct (live_bounds _ _ _ _ _ H Ha) as (? & ? & ?). unfold Umalloc.mapped. apply orb_true_iff. right. apply andb_true_iff. u. lia. Qed.

(** ** Where free looks *)

Lemma loop_up s fl live bp bz fuel pre q z post : heap s fl live -> live !! bp = Some bz ->
  (base, 0) :: fl = pre ++ (q, z) :: post -> q < bp -> (length post < fuel)%nat ->
  exists pre' p ps post', (base, 0) :: fl = pre' ++ (p, ps) :: post' /\ p < bp /\ (forall b, b ∈ post' -> bp < b.1) /\ free_loop fuel bp q s = Ok (p, s).
Proof.
  intros H Hbp. destruct (live_bounds _ _ _ _ _ H Hbp) as (Hbz & Hb1 & _).
  revert fuel pre q z. induction post as [|[r y] post IH]; intros [|f] pre q z E Hq Hf; simpl in Hf; try lia; cbn [Umalloc.free_loop];
    destruct (node_ok _ _ _ _ _ _ _ H E) as (Hc & Hm & Hqb & _); rewrite (bind_Ok _ _ _ _ _ (hload_ok _ _ _ Hc Hm)); cbn [ptr hd_addr].
  - exists pre, q, z, []. split; [done|]. split; [done|]. split; [set_solver|]. rewrite (proj2 (Z.ltb_lt q bp)), (proj2 (Z.ltb_ge bp base)), (proj2 (Z.leb_le base q)) by (u; lia). done.
  - assert (Hs := h_sorted _ _ _ H). rewrite E in Hs. apply ss_app in Hs as (_ & Hs & _). apply StronglySorted_inv in Hs as [Hs1 Hs2].
    assert (Hqr : q < r). { apply Forall_cons in Hs2 as [Hs2 _]. destruct (node_ok _ _ _ _ _ _ _ H E) as (_ & _ & _ & Hz & _). u. lia. }
    assert (Hr : (r, y) ∈ fl). { destruct (full_cases fl r y) as [[-> _]|Hr]; [rewrite E; set_solver|lia|done]. }
    destruct (free_live_apart _ _ _ _ _ _ _ H Hr Hbp) as [Hd|Hd]; destruct (free_bounds _ _ _ _ _ H Hr) as (Hy & _ & _).
    + destruct (IH f (pre ++ [(q, z)]) r y) as (pre' & p & ps & post' & E' & Hp & Hb & Hrun); [by rewrite <- app_assoc|u; lia|lia|].
      exists pre', p, ps, post'. split; [done|]. split; [done|]. split; [done|].
      rewrite (proj2 (Z.ltb_lt q bp)), (proj2 (Z.ltb_ge bp r)), (proj2 (Z.leb_gt r q)) by (u; lia). done.
    + exists pre, q, z, ((r, y) :: post). split; [done|]. split; [done|]. rewrite (proj2 (Z.ltb_lt q bp)), (proj2 (Z.ltb_lt bp r)) by (u; lia). split; [|done].
      apply StronglySorted_inv in Hs1 as [_ Hs1]. intros b Hb. apply elem_of_cons in Hb as [->|Hb]; [u; lia|].
      rewrite Forall_forall in Hs1. specialize (Hs1 _ Hb). u. lia.
Qed.

Lemma loop_wrap s fl live bp bz fuel pre q z post : heap s fl live -> live !! bp = Some bz ->
  (base, 0) :: fl = pre ++ (q, z) :: post -> bp <= q -> free_loop (S (length post) + fuel) bp q s = free_loop fuel bp base s.
Proof.
  intros H Hbp. destruct (live_bounds _ _ _ _ _ H Hbp) as (Hbz & Hb1 & _).
  revert pre q z. induction post as [|[r y] post IH]; intros pre q z E Hq; cbn [length Nat.add Umalloc.free_loop];
    destruct (node_ok _ _ _ _ _ _ _ H E) as (Hc & Hm & Hqb & _); rewrite (bind_Ok _ _ _ _ _ (hload_ok _ _ _ Hc Hm)); cbn [ptr hd_addr].
  - rewrite (proj2 (Z.ltb_ge q bp)), (proj2 (Z.ltb_ge bp base)), (proj2 (Z.leb_le base q)) by (u; lia). done.
  - assert (Hs := h_sorted _ _ _ H). rewrite E in Hs. apply ss_app in Hs as (_ & Hs & _). apply StronglySorted_inv in Hs as [Hs1 Hs2].
    assert (Hqr : q < r). { apply Forall_cons in Hs2 as [Hs2 _]. destruct (node_ok _ _ _ _ _ _ _ H E) as (_ & _ & _ & Hz & _). u. lia. }
    rewrite (proj2 (Z.ltb_ge q bp)), (proj2 (Z.leb_gt r q)) by (u; lia). cbn [andb]. apply (IH (pre ++ [(q, z)])  r y); [by rewrite <- app_assoc|lia].
Qed.

(** The loop of [free] finds the free block in front of the one to be freed. *)
Lemma free_loop_ok s fl live bp bz fuel : heap s fl live -> live !! bp = Some bz -> (2 * S (length fl) <= fuel)%nat ->
  exists pre p ps post, (base, 0) :: fl = pre ++ (p, ps) :: post /\ p < bp /\ (forall b, b ∈ post -> bp < b.1) /\ free_loop fuel bp (freep s) s = Ok (p, s).
Proof.
  intros H Hbp Hf. destruct (live_bounds _ _ _ _ _ H Hbp) as (Hbz & Hb1 & _). pose proof (h_freep _ _ _ H) as Hfr.
  apply list_elem_of_fmap in Hfr as ([q z] & -> & Hq). apply list_elem_of_split in Hq as (pre & post & E). simpl.
  assert (Hlen : (length post <= length fl)%nat). { apply (f_equal length) in E. rewrite length_app in E. simpl in E. lia. }
  destruct (decide (q < bp)) as [Hlt|Hge]; [eapply loop_up; [done..|lia]|].
  replace fuel with (S (length post) + (fuel - S (length post)))%nat by lia. setoid_rewrite (loop_wrap _ _ _ _ _ _ _ _ _ _ H Hbp E ltac:(lia)).
  eapply (loop_up s fl live bp bz _ []); [done..|u; lia|lia].
Qed.

(** ** free *)

Lemma padd_small p n : 0 <= p + HEADER * n < KERNBASE -> padd p n = p + HEADER * n.
Proof. intros H. unfold padd. apply u32_small. unfold u32_range. u. lia. Qed.

(** The free blocks behind the one to be freed: the first is joined to it if
    it touches it. *)
Definition join_upper (bp z : Z) (post : list blk) : Z * list blk :=
  match post with
  | (r, y) :: rest => if bp + HEADER * z =? r then (z + y, rest) else (z, post)
  | [] => (z, post)
  end.

Definition join_lower (p ps bp z : Z) (post : list blk) : list blk :=
  if p + HEADER * ps =? bp then (p, ps + z) :: post else (p, ps) :: (bp, z) :: post.

Lemma upper_run s fl live bp bz pre p ps post hb : heap s fl live -> live !! bp = Some bz ->
  (base, 0) :: fl = pre ++ (p, ps) :: post -> cells s !! bp = Some hb -> size hb = bz -> p < bp ->
  let '(z1, post1) := join_upper bp bz post in
  (if padd bp (size hb) =? hd_addr post base then
     let* hn := load (hd_addr post base) in
     store_size bp (u32 (size hb + size hn)) ;;;
     let* hp := load p in
     let* hn := load (ptr hp) in
     store_ptr bp (ptr hn)
   else store_ptr bp (hd_addr post base)) s = Ok (tt, set_cells (<[bp := Hdr (hd_addr post1 base) z1]> (cells s)) s).
Proof.
  intros H Hbp E Hc Hz Hp. destruct (live_bounds _ _ _ _ _ H Hbp) as (Hbz & Hb1 & Hb2). pose proof (h_brk _ _ _ H) as Hk.
  rewrite Hz, padd_small by (u; lia). pose proof (live_mapped _ _ _ _ _ H Hbp) as Hm. unfold join_upper. destruct post as [|[r y] post]; cbn [hd_addr].
  { rewrite (proj2 (Z.eqb_neq _ base)) by (u; lia). rewrite (store_ptr_ok _ _ _ _ Hc Hm), Hz. done. }
  destruct (bp + HEADER * bz =? r) eqn:Er; [|rewrite (store_ptr_ok _ _ _ _ Hc Hm), Hz; done]. apply Z.eqb_eq in Er.
  assert (E2 : (base, 0) :: fl = (pre ++ [(p, ps)]) ++ (r, y) :: post) by (by rewrite <- app_assoc).
  destruct (node_ok _ _ _ _ _ _ _ H E2) as (Hcr & Hmr & Hr & Hy & Hry). destruct (node_ok _ _ _ _ _ _ _ H E) as (Hcp & Hmp & _).
  rewrite (bind_Ok _ _ _ _ _ (hload_ok _ _ _ Hcr Hmr)). cbn [size ptr]. rewrite u32_small by (unfold u32_range; u; lia).
  rewrite (bind_Ok _ _ _ _ _ (store_size_ok _ _ _ _ Hc Hm)). set (s1 := set_cells _ s).
  rewrite (bind_Ok _ _ _ _ _ (hload_ok s1 p _ ltac:(unfold s1; simpl; rewrite lookup_insert_ne by lia; exact Hcp) Hmp)). cbn [ptr hd_addr].
  rewrite (bind_Ok _ _ _ _ _ (hload_ok s1 r _ ltac:(unfold s1; simpl; rewrite lookup_insert_ne by (u; lia); exact Hcr) Hmr)). cbn [ptr].
  rewrite (store_ptr_ok s1 bp (Hdr (ptr hb) (bz + y)) _ ltac:(unfold s1; simpl; by rewrite lookup_insert_eq) Hm). unfold s1. simpl.
  rewrite insert_insert_eq. done.
Qed.

Lemma lower_run s p ps bp z nxt nxt1 : cells s !! p = Some (Hdr nxt ps) -> cells s !! bp = Some (Hdr nxt1 z) -> mapped s p = true -> mapped s bp = true ->
  p < bp -> 0 <= ps -> 0 <= z -> 0 <= p -> p + HEADER * ps < KERNBASE -> ps + z < 2 ^ 32 ->
  (if padd p ps =? bp then
     store_size p (u32 (ps + z)) ;;;
     let* hb := load bp in
     store_ptr p (ptr hb)
   else store_ptr p bp) s
  = Ok (tt, set_cells (<[p := if p + HEADER * ps =? bp then Hdr nxt1 (ps + z) else Hdr bp ps]> (cells s)) s).
Proof.
  intros Hcp Hcb Hmp Hmb Hlt H1 H2 H3 H4 H5. rewrite padd_small by (u; lia). destruct (_ =? _) eqn:E.
  - rewrite u32_small by (unfold u32_range; lia). rewrite (bind_Ok _ _ _ _ _ (store_size_ok _ _ _ _ Hcp Hmp)). set (s1 := set_cells _ s).
    rewrite (bind_Ok _ _ _ _ _ (hload_ok s1 bp _ ltac:(unfold s1; simpl; rewrite lookup_insert_ne by lia; exact Hcb) Hmb)). cbn [ptr].
    rewrite (store_ptr_ok s1 p (Hdr nxt (ps + z)) _ ltac:(unfold s1; simpl; by rewrite lookup_insert_eq) Hmp). unfold s1. simpl. by rewrite insert_insert_eq.
  - by rewrite (store_ptr_ok _ _ _ _ Hcp Hmp).
Qed.

(** The list with the block put in. *)
Definition put_back (pre : list blk) (p ps bp z : Z) (post : list blk) : list blk :=
  let '(z1, post1) := join_upper bp z post in pre ++ join_lower p ps bp z1 post1.

Lemma upper_ok bp z post : StronglySorted apart post -> Forall (fun b => 0 < b.2) post -> (forall b, b ∈ post -> bp + HEADER * z <= b.1) -> 0 < z ->
  let '(z1, post1) := join_upper bp z post in
  StronglySorted apart ((bp, z1) :: post1) /\ z <= z1 /\ Forall (fun b => 0 < b.2) post1 /\
  (forall x, within (bp, z1) x \/ in_free post1 x <-> within (bp, z) x \/ in_free post x) /\ (forall b, b ∈ post1 -> b ∈ post).
Proof.
  intros Hs Hp Ha Hz. unfold join_upper. destruct post as [|[r y] post]; [split_and!; [by repeat constructor|lia|done|done|done]|].
  pose proof (Ha (r, y) ltac:(left)) as Hr. apply StronglySorted_inv in Hs as Hs2. destruct Hs2 as [Hs1 Hs2]. rewrite Forall_forall in Hs2.
  apply Forall_cons in Hp as Hp2. destruct Hp2 as [Hy Hp2]. destruct (_ =? r) eqn:E.
  - apply Z.eqb_eq in E. split_and!; [|u; lia|done| |by right].
    + constructor; [done|]. apply Forall_forall. intros b Hb. specialize (Hs2 _ Hb). u. lia.
    + intros x. rewrite in_free_cons. u. assert (bp <= x < bp + 8 * (z + y) <-> bp <= x < bp + 8 * z \/ r <= x < r + 8 * y) by lia. tauto.
  - split_and!; [|lia|done|done|done]. constructor; [done|]. apply Z.eqb_neq in E. apply Forall_forall. intros b Hb. apply elem_of_cons in Hb as [->|Hb]; [u; lia|].
    specialize (Hs2 _ Hb). u. lia.
Qed.

Lemma split_full (fl pre : list blk) p ps post : (base, 0) :: fl = pre ++ (p, ps) :: post ->
  (pre = [] /\ p = base /\ ps = 0 /\ post = fl) \/ exists pre', pre = (base, 0) :: pre' /\ fl = pre' ++ (p, ps) :: post.
Proof. destruct pre as [|x pre]; simpl; intros E; [left|right; exists pre]; by simplify_eq. Qed.

Lemma put_back_ok fl pre p ps bp z post : (base, 0) :: fl = pre ++ (p, ps) :: post -> StronglySorted apart ((base, 0) :: fl) -> Forall (fun b => 0 < b.2) fl ->
  p < bp -> p + HEADER * ps <= bp -> (forall b, b ∈ post -> bp + HEADER * z <= b.1) -> 0 < z -> base + HEADER <= bp ->
  exists fl', put_back pre p ps bp z post = (base, 0) :: fl' /\ StronglySorted apart ((base, 0) :: fl') /\ Forall (fun b => 0 < b.2) fl' /\
    (forall x, in_free fl' x <-> in_free fl x \/ within (bp, z) x) /\ (exists b, b ∈ fl' /\ z <= b.2) /\ p ∈ ((base, 0) :: fl').*1.
Proof.
  intros E Hs Hpos Hlt Hle Hpost Hz Hb. rewrite E in Hs. apply ss_app in Hs as (Hs1 & Hs2 & Hs3). apply StronglySorted_inv in Hs2 as [Hs2 Hs4].
  assert (Hpp : Forall (fun b : blk => 0 < b.2) post) by (destruct (split_full _ _ _ _ _ E) as [(_ & _ & _ & ->)|(pre' & _ & ->)]; [done|apply Forall_app in Hpos as [_ Hpos]; by apply Forall_cons in Hpos as [_ ?]]).
  pose proof (upper_ok bp z post Hs2 Hpp Hpost Hz) as Hu. unfold put_back. destruct (join_upper bp z post) as [z1 post1]. destruct Hu as (Hu1 & Hu2 & Hu3 & Hu4 & Hu5).
  apply StronglySorted_inv in Hu1 as Hu6. destruct Hu6 as [Hu6 Hu7].
  assert (Hps : 0 <= ps). { destruct (split_full _ _ _ _ _ E) as [(_ & _ & -> & _)|(pre' & _ & ->)]; [lia|]. apply Forall_app in Hpos as [_ Hpos]. apply Forall_cons in Hpos as [? _]. simpl in *; lia. }
  rewrite Forall_forall in Hs4, Hu7. rewrite !Forall_forall in Hu3.
  assert (Hcov : forall x, in_free ((base, 0) :: fl) x <-> in_free fl x) by (intros x; rewrite in_free_cons; u; assert (~ base <= x < base + 8 * 0) by lia; tauto).
  assert (Hx : forall x, in_free (pre ++ join_lower p ps bp z1 post1) x <-> in_free fl x \/ within (bp, z) x).
  { intros x. rewrite <- Hcov, E, !in_free_app, !in_free_cons. specialize (Hu4 x). unfold join_lower. destruct (_ =? bp) eqn:Eb; rewrite !in_free_cons; [|tauto].
    apply Z.eqb_eq in Eb. assert (within (p, ps + z1) x <-> within (p, ps) x \/ within (bp, z1) x) by (u; lia). tauto. }
  assert (Hsort : StronglySorted apart (pre ++ join_lower p ps bp z1 post1)).
  { apply ss_app. split; [done|]. unfold join_lower. destruct (_ =? bp) eqn:Eb.
    - apply Z.eqb_eq in Eb. split; [constructor; [done|]; apply Forall_forall; intros b Hb0; specialize (Hu7 _ Hb0); u; lia|].
      intros a b Ha Hb0. apply elem_of_cons in Hb0 as [->|Hb0]; [specialize (Hs3 a (p, ps) Ha ltac:(left)); u; lia|apply Hs3; [done|right; by apply Hu5]].
    - apply Z.eqb_neq in Eb. split; [constructor; [done|]; apply Forall_forall; intros b Hb0; apply elem_of_cons in Hb0 as [->|Hb0]; [u; lia|apply Hs4; by apply Hu5]|].
      intros a b Ha Hb0. apply elem_of_cons in Hb0 as [->|Hb0]; [apply Hs3; [done|left]|]. specialize (Hs3 a (p, ps) Ha ltac:(left)).
      apply elem_of_cons in Hb0 as [->|Hb0]; [u; lia|]. specialize (Hu7 _ Hb0). u. lia. }
  assert (Hfl : exists fl', pre ++ join_lower p ps bp z1 post1 = (base, 0) :: fl' /\ Forall (fun b => 0 < b.2) fl').
  { destruct (split_full _ _ _ _ _ E) as [(-> & -> & -> & _)|(pre' & -> & ->)]; simpl.
    - unfold join_lower. rewrite (proj2 (Z.eqb_neq _ bp)) by (u; lia). eexists. split; [done|]. constructor; [simpl; lia|by apply Forall_forall].
    - eexists. split; [done|]. apply Forall_app in Hpos as [Hp1 Hp2]. apply Forall_app. split; [done|]. apply Forall_cons in Hp2 as [Hp2 _]. simpl in Hp2.
      unfold join_lower. destruct (_ =? bp); repeat constructor; simpl; try lia; by apply Forall_forall. }
  destruct Hfl as (fl' & Hfl & Hpos'). exists fl'. rewrite Hfl in Hsort. split; [done|]. split; [done|]. split; [done|].
  assert (Hx' : forall x, in_free fl' x <-> in_free fl x \/ within (bp, z) x).
  { intros x. rewrite <- Hx, Hfl, in_free_cons. u. assert (~ base <= x < base + 8 * 0) by lia. tauto. }
  split; [done|]. rewrite <- Hfl. split; [|unfold join_lower; destruct (_ =? bp); rewrite fmap_app; simpl; set_solver].
  assert (Hbig : exists b, b ∈ pre ++ join_lower p ps bp z1 post1 /\ z <= b.2).
  { unfold join_lower. destruct (_ =? bp); [exists (p, ps + z1)|exists (bp, z1)]; (split; [set_solver|simpl; lia]). }
  destruct Hbig as (b & Hb1 & Hb2). exists b. split; [|done]. rewrite Hfl in Hb1. apply elem_of_cons in Hb1 as [->|]; [simpl in Hb2; lia|done].
Qed.

Lemma put_back_ring m fl pre p ps bp z post : ring m ((base, 0) :: fl) -> (base, 0) :: fl = pre ++ (p, ps) :: post ->
  (forall b, b ∈ pre -> b.1 < p) -> p < bp -> (forall b, b ∈ post -> bp < b.1) ->
  let '(z1, post1) := join_upper bp z post in
  ring (<[p := if p + HEADER * ps =? bp then Hdr (hd_addr post1 base) (ps + z1) else Hdr bp ps]> (<[bp := Hdr (hd_addr post1 base) z1]> m)) (put_back pre p ps bp z post).
Proof.
  intros Hr E Hpre Hlt Hpost. unfold put_back. unfold ring in Hr. simpl hd_addr in Hr. rewrite E in Hr. apply seg_app in Hr as [Hr1 [Hr2 Hr3]]. simpl in Hr1.
  assert (Hu : seg m (join_upper bp z post).2 base /\ forall b, b ∈ (join_upper bp z post).2 -> bp < b.1).
  { unfold join_upper. destruct post as [|[r y] post]; [done|]. destruct Hr3 as [? Hr3]. destruct (_ =? r); [|done]. split; [done|]. intros b Hb. apply Hpost. by right. }
  destruct (join_upper bp z post) as [z1 post1]. simpl in Hu. destruct Hu as [Hu1 Hu2].
  assert (Hhd : hd_addr (pre ++ join_lower p ps bp z1 post1) 0 = base).
  { destruct (split_full _ _ _ _ _ E) as [(-> & -> & _)|(pre' & -> & _)]; [|done]. unfold join_lower. by destruct (_ =? bp). }
  unfold ring. rewrite Hhd. apply seg_app. split.
  - replace (hd_addr (join_lower p ps bp z1 post1) base) with p by (unfold join_lower; by destruct (_ =? bp)).
    apply seg_insert; [|apply seg_insert; [|done]]; intros Hin; apply list_elem_of_fmap in Hin as (b & Hb & Hin); apply Hpre in Hin; lia.
  - assert (Hs : forall h1 h2, seg (<[p := h1]> (<[bp := h2]> m)) post1 base).
    { intros h1 h2. apply seg_insert; [|apply seg_insert; [|done]]; intros Hin; apply list_elem_of_fmap in Hin as (b & Hb & Hin); apply Hu2 in Hin; lia. }
    unfold join_lower. destruct (_ =? bp) eqn:Eb; simpl; rewrite lookup_insert_eq; [done|].
    split; [done|]. rewrite lookup_insert_ne, lookup_insert_eq by lia. done.
Qed.

Lemma free_count s fl live : heap s fl live -> (S (length fl) <= Z.to_nat (brk s / HEADER) + 1)%nat.
Proof.
  intros H. pose proof (h_sorted _ _ _ H) as Hs. pose proof (h_pos _ _ _ H) as Hp.
  assert (Hlast : forall l r y, StronglySorted apart ((r, y) :: l) -> 0 < y -> Forall (fun b => 0 < b.2) l -> exists b, b ∈ (r, y) :: l /\ r + HEADER * Z.of_nat (length l) <= b.1).
  { clear. induction l as [|[r' y'] l IH]; intros r y Hs Hy Hp; [exists (r, y); split; [left|u; simpl; lia]|].
    apply StronglySorted_inv in Hs as [Hs1 Hs2]. apply Forall_cons in Hs2 as [Hs2 _]. apply Forall_cons in Hp as [Hy' Hp].
    destruct (IH r' y' Hs1 Hy' Hp) as (b & Hb & Hl). exists b. split; [by right|]. simpl length. u. lia. }
  destruct fl as [|[r y] fl]; [simpl; lia|]. apply StronglySorted_inv in Hs as [Hs _]. apply Forall_cons in Hp as [Hy Hp].
  destruct (Hlast _ _ _ Hs Hy Hp) as ([b y'] & Hb & Hl). destruct (free_bounds _ _ _ _ _ H Hb) as (? & ? & ?). destruct (free_bounds _ _ _ r y H ltac:(left)) as (_ & ? & _).
  assert (Z.of_nat (length ((r, y) :: fl)) <= brk s / HEADER); [|lia]. u. apply Z.div_le_lower_bound; [lia|]. simpl length in *. lia.
Qed.

(** The tiling with a block moved from the blocks in use to the free ones. *)
Lemma heap_freed s fl live bp z s' fl' : heap s fl live -> live !! bp = Some z -> brk s' = brk s ->
  ring (cells s') ((base, 0) :: fl') -> StronglySorted apart ((base, 0) :: fl') -> Forall (fun b => 0 < b.2) fl' -> freep s' ∈ ((base, 0) :: fl').*1 ->
  (forall x, in_free fl' x <-> in_free fl x \/ within (bp, z) x) ->
  (forall a, lo <= a -> ~ in_free fl a -> ~ within (bp, z) a -> cells s' !! a = cells s !! a) -> heap s' fl' (delete bp live).
Proof.
  intros H Hbp Hbrk Hring Hsort Hpos Hfr Hcov Hframe. pose proof (live_bounds _ _ _ _ _ H Hbp) as (Hz & _).
  assert (Hdel : forall x, in_live (delete bp live) x <-> in_live live x /\ ~ within (bp, z) x).
  { intros x. apply in_live_delete; [done|]. intros b y Hb Hne. by apply (h_disj _ _ _ H). }
  assert (Hw : forall x, within (bp, z) x -> in_live live x) by (intros x Hx; by exists bp, z).
  split; try done.
  - intros a y Ha. apply lookup_delete_Some in Ha as [Hne Ha]. destruct (h_live _ _ _ H _ _ Ha) as (Hy & h & Hc & Hs). split; [done|]. exists h. split; [|done].
    destruct (live_bounds _ _ _ _ _ H Ha) as (_ & Hlo' & _). rewrite Hframe; [done|done| |].
    + intros Hf. apply (h_excl _ _ _ H _ Hf). exists a, y. split; [done|]. u. lia.
    + destruct (h_disj _ _ _ H _ _ _ _ Hbp Ha ltac:(done)); u; lia.
  - intros x. rewrite Hbrk, (h_cover _ _ _ H x), Hcov, Hdel. specialize (Hw x). assert (within (bp, z) x \/ ~ within (bp, z) x) by (u; lia). tauto.
  - intros x. rewrite Hcov, Hdel. pose proof (h_excl _ _ _ H x). tauto.
  - intros a y b w Ha Hb. apply lookup_delete_Some in Ha as [_ Ha]. apply lookup_delete_Some in Hb as [_ Hb]. by apply (h_disj _ _ _ H).
  - rewrite Hbrk. apply (h_brk _ _ _ H).
Qed.

Lemma put_back_length (fl : list blk) pre p ps bp z post fl' : (base, 0) :: fl = pre ++ (p, ps) :: post -> put_back pre p ps bp z post = (base, 0) :: fl' ->
  (length fl' <= S (length fl))%nat.
Proof.
  intros E E'. apply (f_equal length) in E, E'. unfold put_back, join_upper, join_lower in E'. rewrite length_app in E. simpl in E.
  destruct post as [|[r y] post]; [|destruct (_ =? r)]; rewrite length_app in E'; destruct (_ =? bp); simpl in *; lia.
Qed.

(** The free blocks on both sides of the block to be freed do not overlap it. *)
Lemma neighbours s fl live bp z pre p ps post : heap s fl live -> live !! bp = Some z -> (base, 0) :: fl = pre ++ (p, ps) :: post ->
  p < bp -> (forall b, b ∈ post -> bp < b.1) ->
  (forall b, b ∈ post -> b ∈ fl) /\ (forall b, b ∈ post -> bp + HEADER * z <= b.1) /\ p + HEADER * ps <= bp /\ (forall b, b ∈ pre -> b.1 < p).
Proof.
  intros H Hbp E Hp Hpost. pose proof (live_bounds _ _ _ _ _ H Hbp) as (Hz & Hb1 & _).
  assert (Hfree : forall b, b ∈ post -> b ∈ fl). { intros b Hb. destruct (split_full _ _ _ _ _ E) as [(_ & _ & _ & <-)|(pre' & _ & ->)]; set_solver. }
  assert (Hupper : forall b, b ∈ post -> bp + HEADER * z <= b.1).
  { intros [r y] Hb. destruct (free_live_apart _ _ _ _ _ _ _ H (Hfree _ Hb) Hbp) as [Hd|Hd]; [|done]. specialize (Hpost _ Hb). destruct (free_bounds _ _ _ _ _ H (Hfree _ Hb)). u. lia. }
  assert (Hlower : p + HEADER * ps <= bp).
  { destruct (split_full _ _ _ _ _ E) as [(_ & -> & -> & _)|(pre' & _ & E')]; [u; lia|]. assert (Hin : (p, ps) ∈ fl) by (rewrite E'; set_solver).
    destruct (free_live_apart _ _ _ _ _ _ _ H Hin Hbp); [done|u; lia]. }
  split; [done|]. split; [done|]. split; [done|].
  intros [r y] Hb. pose proof (h_sorted _ _ _ H) as Hs. rewrite E in Hs. apply ss_app in Hs as (_ & _ & Hs). specialize (Hs (r, y) (p, ps) Hb ltac:(left)).
    assert (Hy : 0 <= y); [|u; lia]. destruct (full_cases fl r y) as [[_ ->]|Hin]; [rewrite E; set_solver|lia|]. destruct (free_bounds _ _ _ _ _ H Hin). lia.
Qed.

(** What [free] does: the block is free, possibly joined to others. *)
Lemma free_ok s fl live bp z : heap s fl live -> live !! bp = Some z ->
  exists s' fl', free (bp + HEADER) s = Ok (tt, s') /\ heap s' fl' (delete bp live) /\ brk s' = brk s /\ calls s' = calls s /\
    (forall x, in_free fl' x <-> in_free fl x \/ within (bp, z) x) /\ (exists b, b ∈ fl' /\ z <= b.2) /\
    (forall a, lo <= a -> ~ in_free fl a -> ~ within (bp, z) a -> cells s' !! a = cells s !! a) /\ (length fl' <= S (length fl))%nat.
Proof.
  intros H Hbp. destruct (live_bounds _ _ _ _ _ H Hbp) as (Hz & Hb1 & Hb2). destruct (h_live _ _ _ H _ _ Hbp) as (_ & hb & Hcb & Hsz).
  pose proof (h_brk _ _ _ H) as Hk. pose proof (live_mapped _ _ _ _ _ H Hbp) as Hmb.
  destruct (free_loop_ok s fl live bp z (list_fuel s) H Hbp) as (pre & p & ps & post & E & Hp & Hpost & Hrun).
  { pose proof (free_count _ _ _ H). unfold list_fuel. lia. }
  destruct (node_ok _ _ _ _ _ _ _ H E) as (Hcp & Hmp & Hpb & Hps & Hpk).
  destruct (neighbours _ _ _ _ _ _ _ _ _ H Hbp E Hp Hpost) as (Hfree & Hupper & Hlower & Hpre).
  destruct (put_back_ok fl pre p ps bp z post E (h_sorted _ _ _ H) (h_pos _ _ _ H) Hp Hlower Hupper Hz ltac:(u; lia)) as (fl' & Efl & Hsort & Hpos & Hcov & Hbig & Hin).
  pose proof (put_back_ring (cells s) fl pre p ps bp z post (h_ring _ _ _ H) E Hpre Hp Hpost) as Hring.
  pose proof (upper_run s fl live bp z pre p ps post hb H Hbp E Hcb Hsz Hp) as Hup.
  pose proof (upper_ok bp z post) as Huk. destruct (join_upper bp z post) as [z1 post1].
  destruct Huk as (_ & Hz1 & _ & Hzw & _).
  { pose proof (h_sorted _ _ _ H) as Hs. rewrite E in Hs. apply ss_app in Hs as (_ & Hs & _). by apply StronglySorted_inv in Hs as [? _]. }
  { apply Forall_forall. intros b Hb. by apply (proj1 (Forall_forall _ _) (h_pos _ _ _ H)), Hfree. }
  { done. } { done. }
  assert (Hz1k : z1 < KERNBASE).
  { assert (Hw : within (bp, z) (bp + HEADER * z1 - 1) \/ in_free post (bp + HEADER * z1 - 1)) by (apply Hzw; left; u; lia).
    assert (bp + HEADER * z1 - 1 < brk s); [|u; lia]. destruct Hw as [Hw|([r y] & Hb & Hw)]; [u; lia|]. destruct (free_bounds _ _ _ _ _ H (Hfree _ Hb)). u. lia. }
  eexists. exists fl'. split.
  { unfold Umalloc.free. replace (bp + HEADER - HEADER) with bp by lia. rewrite (bind_Ok get _ s s s eq_refl). rewrite (bind_Ok _ _ _ _ _ Hrun).
    rewrite (bind_Ok _ _ _ _ _ (hload_ok _ _ _ Hcp Hmp)), (bind_Ok _ _ _ _ _ (hload_ok _ _ _ Hcb Hmb)). cbn [ptr].
    rewrite (bind_Ok _ _ _ _ _ Hup). set (s1 := set_cells _ s).
    assert (Hc1 : cells s1 !! p = Some (Hdr (hd_addr post base) ps)) by (unfold s1; simpl; rewrite lookup_insert_ne by lia; exact Hcp).
    assert (Hc2 : cells s1 !! bp = Some (Hdr (hd_addr post1 base) z1)) by (unfold s1; simpl; by rewrite lookup_insert_eq).
    rewrite (bind_Ok _ _ _ _ _ (hload_ok _ _ _ Hc1 Hmp)), (bind_Ok _ _ _ _ _ (hload_ok _ _ _ Hc2 Hmb)). cbn [ptr size].
    rewrite (bind_Ok _ _ _ _ _ (lower_run s1 p ps bp z1 _ _ Hc1 Hc2 Hmp Hmb Hp Hps ltac:(lia) ltac:(lia) Hpk ltac:(u; lia))). reflexivity. }
  rewrite Efl in Hring.
  assert (Hframe : forall a, lo <= a -> ~ in_free fl a -> ~ within (bp, z) a ->
    (<[p := if p + HEADER * ps =? bp then Hdr (hd_addr post1 base) (ps + z1) else Hdr bp ps]> (<[bp := Hdr (hd_addr post1 base) z1]> (cells s))) !! a = cells s !! a).
  { intros a Ha Hnf Hnw. rewrite !lookup_insert_ne; [done|intros ->; apply Hnw; u; lia|]. intros ->. destruct (split_full _ _ _ _ _ E) as [(_ & -> & _)|(pre' & _ & E')]; [u; lia|].
    assert (Hin' : (a, ps) ∈ fl) by (rewrite E'; set_solver). apply Hnf. exists (a, ps). split; [done|]. destruct (free_bounds _ _ _ _ _ H Hin'). u. lia. }
  split; [|split; [done|split; [done|split; [done|split; [done|split; [exact Hframe|by eapply put_back_length]]]]]].
  by apply (heap_freed s fl live bp z).
Qed.

(** ** morecore *)

Notation morecore := (morecore base lo can).
Notation sbrk := (sbrk can).

(** The headers of the blocks in use and everything in them. *)
Definition same_live (live : gmap Z Z) (s s' : ust) : Prop := forall x, in_live live x -> cells s' !! x = cells s !! x.

Lemma same_live_trans live s1 s2 s3 : same_live live s1 s2 -> same_live live s2 s3 -> same_live live s1 s3.
Proof. intros H1 H2 x Hx. by rewrite (H2 x Hx), (H1 x Hx). Qed.

(** The kernel gives [n] more bytes, or refuses. *)
Lemma sbrk_ok s n : 0 < n -> 0 <= brk s -> brk s + n < 2 ^ 32 -> exists r s', sbrk n s = Ok (r, s') /\ freep s' = freep s /\ cells s' = cells s /\ calls s' = S (calls s) /\
  ((r = u32 (-1) /\ brk s' = brk s /\ (can (calls s) = false \/ KERNBASE <= brk s + n)) \/ (r = brk s /\ brk s' = brk s + n /\ brk s + n < KERNBASE)).
Proof.
  intros Hn Hb Hbn. unfold Umalloc.sbrk. rewrite (proj2 (Z.ltb_lt 0 n)) by done. rewrite u32_small by (unfold u32_range; lia).
  destruct (KERNBASE <=? brk s + n) eqn:E1; cbn [orb].
  { eexists _, _. split; [done|]. split; [done|]. split; [done|]. split; [done|]. left. split; [done|]. split; [done|]. right. lia. }
  destruct (can (calls s)); cbn [negb]; eexists _, _; (split; [done|]); (split; [done|]); (split; [done|]); (split; [done|]); [right|left; auto].
  split; [done|]. simpl. lia.
Qed.

(** New memory is a block in use until it is freed. *)
Lemma heap_grown s fl live n s' h : heap s fl live -> 0 < n -> brk s' = brk s + HEADER * n -> brk s' < KERNBASE -> size h = n ->
  cells s' = <[brk s := h]> (cells s) -> freep s' = freep s -> heap s' fl (<[brk s := n]> live) /\ live !! brk s = None.
Proof.
  intros H Hn Hb Hk Hh Hc Hf. pose proof (h_brk _ _ _ H) as Hbk.
  assert (Hnone : live !! brk s = None). { destruct (live !! brk s) as [z|] eqn:E; [|done]. destruct (live_bounds _ _ _ _ _ H E). u. lia. }
  assert (Hlim : forall x, in_free fl x \/ in_live live x -> lo <= x < brk s) by (intros x Hx; by apply (h_cover _ _ _ H)).
  split; [|done]. split; try apply H.
  - rewrite Hc. apply seg_insert; [|apply H]. intros Hin. apply list_elem_of_fmap in Hin as ([a z] & Ha & Hin). simpl in Ha. subst a.
    apply full_cases in Hin as [[? _]|Hin]; [u; lia|]. destruct (free_bounds _ _ _ _ _ H Hin). u. lia.
  - rewrite Hf. apply H.
  - intros a z Ha. rewrite Hc. apply lookup_insert_Some in Ha as [[<- <-]|[Hne Ha]].
    + split; [done|]. exists h. by rewrite lookup_insert_eq.
    + rewrite lookup_insert_ne by done. by apply (h_live _ _ _ H).
  - intros x. rewrite in_live_insert by done. pose proof (h_cover _ _ _ H x) as Hx. rewrite Hb. assert (lo <= x < brk s + HEADER * n <-> lo <= x < brk s \/ within (brk s, n) x) by (u; lia). tauto.
  - intros x Hx. rewrite in_live_insert by done. intros [Hw|Hl]; [|by eapply (h_excl _ _ _ H)]. specialize (Hlim x (or_introl Hx)). u. lia.
  - intros a z b y Ha Hb0 Hne. apply lookup_insert_Some in Ha as [[<- <-]|[_ Ha]]; apply lookup_insert_Some in Hb0 as [[<- <-]|[_ Hb0]]; [done| | |by apply (h_disj _ _ _ H)].
    + destruct (live_bounds _ _ _ _ _ H Hb0). right. lia.
    + destruct (live_bounds _ _ _ _ _ H Ha). left. lia.
  - u. lia.
Qed.

Lemma heap_same s s' fl live : heap s fl live -> freep s' = freep s -> cells s' = cells s -> brk s' = brk s -> heap s' fl live.
Proof. intros [] E1 E2 E3. split; rewrite ?E1, ?E2, ?E3; done. Qed.

Lemma store_size_new s p v : mapped s p = true -> store_size p v s = Ok (tt, set_cells (<[p := Hdr (ptr (default (Hdr 0 0) (cells s !! p))) v]> (cells s)) s).
Proof. intros Hm. unfold Umalloc.store_size, bind, Umalloc.load. rewrite Hm. simpl. unfold Umalloc.store. by rewrite Hm. Qed.

Definition MAXUNITS : Z := 2 ^ 28 - 2.

Lemma morecore_ok s fl live n : heap s fl live -> 0 < n <= MAXUNITS ->
  exists r s' fl', morecore n s = Ok (r, s') /\ heap s' fl' live /\ same_live live s s' /\ (length fl' <= S (length fl))%nat /\
    ((r = 0 /\ fl' = fl /\ (can (calls s) = false \/ KERNBASE <= brk s + HEADER * Z.max n 4096)) \/
     (r = freep s' /\ exists b, b ∈ fl' /\ n <= b.2)).
Proof.
  intros H Hn. unfold MAXUNITS in Hn. unfold Umalloc.morecore. replace (if n <? 4096 then 4096 else n) with (Z.max n 4096) by (destruct (n <? 4096) eqn:E; lia).
  set (nu := Z.max n 4096). assert (Hnu : 4096 <= nu <= 2 ^ 28 - 2 /\ n <= nu) by lia. pose proof (h_brk _ _ _ H) as Hbk.
  replace (i32 (u32 (nu * HEADER))) with (HEADER * nu). 2:{ rewrite i32_u32, i32_small by (unfold i32_range; u; lia). lia. }
  destruct (sbrk_ok s (HEADER * nu)) as (r & s1 & Hr & Hf1 & Hc1 & _ & Hcase); [u; lia..|]. rewrite (bind_Ok _ _ _ _ _ Hr).
  destruct Hcase as [(-> & Hb1 & Hwhy)|(-> & Hb1 & Hlim)].
  { change (u32 (-1) =? u32 (-1)) with true. cbn iota. exists 0, s1, fl. split; [done|]. split; [by eapply heap_same|]. split; [intros x _; by rewrite Hc1|]. split; [lia|]. left. auto. }
  rewrite (proj2 (Z.eqb_neq (brk s) (u32 (-1)))) by (vm_compute (u32 (-1)); u; lia).
  assert (Hm : mapped s1 (brk s) = true) by (unfold Umalloc.mapped; apply orb_true_iff; right; apply andb_true_iff; u; lia).
  rewrite (bind_Ok (store_size (brk s) nu) _ s1 tt _ (store_size_new s1 _ _ Hm)). set (s2 := set_cells _ s1).
  destruct (heap_grown s fl live nu s2 (Hdr (ptr (default (Hdr 0 0) (cells s1 !! brk s))) nu) H) as [H2 Hnone]; [lia|done|unfold s2; simpl; u; lia|done|unfold s2; simpl; by rewrite Hc1|done|].
  destruct (free_ok s2 fl _ (brk s) nu H2 ltac:(by rewrite lookup_insert_eq)) as (s3 & fl' & Hrun & H3 & Hb3 & _ & Hcov & (b & Hbin & Hbig) & Hframe & Hlen).
  rewrite (bind_Ok _ _ _ _ _ Hrun). rewrite delete_insert_id in H3 by done.
  exists (freep s3), s3, fl'. split; [done|]. split; [done|]. split; [|split; [done|right; split; [done|exists b; split; [done|lia]]]].
  intros x Hx. assert (Hlx : lo <= x < brk s) by (apply (h_cover _ _ _ H); by right). rewrite Hframe; [|lia| |u; lia].
  - unfold s2. simpl. rewrite Hc1, lookup_insert_ne by lia. done.
  - intros Hf. by apply (h_excl _ _ _ H x).
Qed.

(** ** malloc *)

Notation malloc_loop := (malloc_loop base lo can).
Notation malloc := (malloc base lo can).

(** The tiling with a block moved from the free ones to the blocks in use. *)
Lemma heap_taken s fl live q n s' fl' : heap s fl live -> 0 < n -> brk s' = brk s ->
  ring (cells s') ((base, 0) :: fl') -> StronglySorted apart ((base, 0) :: fl') -> Forall (fun b => 0 < b.2) fl' -> freep s' ∈ ((base, 0) :: fl').*1 ->
  (forall x, in_free fl x <-> in_free fl' x \/ within (q, n) x) -> (forall x, in_free fl' x -> ~ within (q, n) x) ->
  same_live live s s' -> (exists h, cells s' !! q = Some h /\ size h = n) -> heap s' fl' (<[q := n]> live) /\ live !! q = None.
Proof.
  intros H Hn Hbrk Hring Hsort Hpos Hfr Hcov Hdis Hsame Hq.
  assert (Hsep : forall a z, live !! a = Some z -> a + HEADER * z <= q \/ q + HEADER * n <= a).
  { intros a z Ha. destruct (live_bounds _ _ _ _ _ H Ha) as [Hz _]. destruct (decide (a + HEADER * z <= q \/ q + HEADER * n <= a)) as [|Hno]; [done|]. exfalso.
    apply (h_excl _ _ _ H (Z.max a q)); [apply Hcov; right; u; lia|exists a, z; split; [done|u; lia]]. }
  assert (Hnone : live !! q = None). { destruct (live !! q) as [z|] eqn:E; [|done]. destruct (live_bounds _ _ _ _ _ H E). destruct (Hsep _ _ E); u; lia. }
  split; [|done]. split; try done.
  - intros a z Ha. apply lookup_insert_Some in Ha as [[<- <-]|[Hne Ha]]; [done|]. destruct (h_live _ _ _ H _ _ Ha) as (Hz & h & Hc & Hs). split; [done|]. exists h.
    rewrite (Hsame a); [done|]. exists a, z. split; [done|]. u. lia.
  - intros x. rewrite in_live_insert by done. rewrite Hbrk, (h_cover _ _ _ H x), Hcov. tauto.
  - intros x Hx. rewrite in_live_insert by done. intros [Hw|Hl]; [by apply (Hdis x)|]. apply (h_excl _ _ _ H x); [|done]. apply Hcov. by left.
  - intros a z b y Ha Hb Hne. apply lookup_insert_Some in Ha as [[<- <-]|[_ Ha]]; apply lookup_insert_Some in Hb as [[<- <-]|[_ Hb]]; [done| | |by apply (h_disj _ _ _ H)].
    + destruct (Hsep _ _ Hb); auto.
    + destruct (Hsep _ _ Ha); auto.
  - rewrite Hbrk. apply (h_brk _ _ _ H).
Qed.

(** The ring without a block, or with a block shortened. *)
Definition shrink (p z n : Z) : list blk := if z =? n then [] else [(p, z - n)].

Lemma shrink_ok (f : list blk) p z f2 n : StronglySorted apart ((base, 0) :: f ++ (p, z) :: f2) -> Forall (fun b => 0 < b.2) (f ++ (p, z) :: f2) -> 0 < n <= z ->
  StronglySorted apart ((base, 0) :: f ++ shrink p z n ++ f2) /\ Forall (fun b => 0 < b.2) (f ++ shrink p z n ++ f2) /\
  (forall x, in_free (f ++ (p, z) :: f2) x <-> in_free (f ++ shrink p z n ++ f2) x \/ within (p + HEADER * (z - n), n) x) /\
  (forall x, in_free (f ++ shrink p z n ++ f2) x -> ~ within (p + HEADER * (z - n), n) x).
Proof.
  intros Hs Hpos Hn. rewrite app_comm_cons in Hs. apply ss_app in Hs as (Hs1 & Hs2 & Hs3). apply StronglySorted_inv in Hs2 as [Hs2 Hs4].
  apply Forall_app in Hpos as [Hp1 Hp2]. apply Forall_cons in Hp2 as [Hz Hp2]. simpl in Hz. rewrite Forall_forall in Hs4.
  assert (Hx : forall x, in_free (shrink p z n) x <-> p <= x < p + HEADER * (z - n)).
  { intros x. unfold shrink, in_free. destruct (z =? n) eqn:Ez; [split; [by intros (b & Hb & _); apply elem_of_nil in Hb|u; lia]|].
    split; [intros (b & Hb & Hw); apply list_elem_of_singleton in Hb as ->; by u|]. intros Hx. exists (p, z - n). split; [left|by u]. }
  assert (Hsh : forall b, b ∈ shrink p z n -> b = (p, z - n) /\ n < z) by (unfold shrink; destruct (z =? n) eqn:Ez; intros b Hb; [by apply elem_of_nil in Hb|apply list_elem_of_singleton in Hb as ->; split; [done|lia]]).
  split; [|split; [|split]].
  - rewrite app_comm_cons. apply ss_app. split; [done|]. split.
    + apply ss_app. split; [unfold shrink; destruct (z =? n); repeat constructor|]. split; [done|]. intros b c Hb Hc. apply Hsh in Hb as [-> ?]. specialize (Hs4 _ Hc). u. lia.
    + intros b c Hb Hc. apply elem_of_app in Hc as [Hc|Hc]; [apply Hsh in Hc as [-> _]; by apply (Hs3 b (p, z)); [|left]|apply Hs3; [done|by right]].
  - apply Forall_app. split; [done|]. apply Forall_app. split; [|done]. apply Forall_forall. intros b Hb. apply Hsh in Hb as [-> ?]. simpl. lia.
  - intros x. rewrite !in_free_app, in_free_cons, Hx. assert (within (p, z) x <-> p <= x < p + HEADER * (z - n) \/ within (p + HEADER * (z - n), n) x) by (u; lia). tauto.
  - intros x. rewrite !in_free_app, Hx. intros [([b y] & Hb & Hw)|[Hw|([b y] & Hb & Hw)]]; [|u; lia|specialize (Hs4 _ Hb); u; lia].
    specialize (Hs3 (b, y) (p, z) ltac:(by right) ltac:(left)). u. lia.
Qed.

(** The header in front of a block of the ring. *)
Lemma pred_split s fl live prevp h p z : heap s fl live -> prevp ∈ ((base, 0) :: fl).*1 -> cells s !! prevp = Some h -> ptr h = p -> (p, z) ∈ (base, 0) :: fl -> 0 < z ->
  exists f1 pz f2, (base, 0) :: fl = f1 ++ (prevp, pz) :: (p, z) :: f2.
Proof.
  intros H Hin Hc Hp Hpz Hz. apply list_elem_of_fmap in Hin as ([a pz] & -> & Hin). apply list_elem_of_split in Hin as (f1 & g & E). simpl in Hc.
  destruct (node_ok _ _ _ _ _ _ _ H E) as (Hc' & _). rewrite Hc in Hc'. injection Hc' as ->. simpl in Hp.
  apply full_cases in Hpz as [[_ ->]|Hpz]; [lia|]. destruct (free_bounds _ _ _ _ _ H Hpz) as (_ & Hpl & _).
  destruct g as [|[r y] f2]; simpl in Hp; [u; lia|]. subst r. exists f1, pz, f2. rewrite E. simpl. repeat f_equal.
  assert (E2 : (base, 0) :: fl = (f1 ++ [(a, pz)]) ++ (p, y) :: f2) by (by rewrite <- app_assoc). destruct (node_ok _ _ _ _ _ _ _ H E2) as (Hcy & _).
  apply list_elem_of_split in Hpz as (g1 & g2 & Eg). assert (E3 : (base, 0) :: fl = ((base, 0) :: g1) ++ (p, z) :: g2) by (by rewrite Eg). destruct (node_ok _ _ _ _ _ _ _ H E3) as (Hcz & _). congruence.
Qed.

Lemma sorted_nodup (l : list blk) : StronglySorted apart l -> Forall (fun b => 0 <= b.2) l -> NoDup l.*1.
Proof.
  induction l as [|[a z] l IH]; intros Hs Hp; [constructor|]. apply StronglySorted_inv in Hs as [Hs1 Hs2]. apply Forall_cons in Hp as [Hz Hp]. simpl.
  constructor; [|by apply IH]. intros Hin. apply list_elem_of_fmap in Hin as ([b y] & Hb & Hin). rewrite Forall_forall in Hs2. specialize (Hs2 _ Hin). u. lia.
Qed.

Lemma full_nodup s fl live : heap s fl live -> NoDup ((base, 0) :: fl).*1.
Proof.
  intros H. apply sorted_nodup; [apply H|]. constructor; [simpl; lia|]. eapply Forall_impl; [apply H|]. intros b Hb. simpl in Hb. lia.
Qed.

(** Taking a block out of the ring, or the end of it. *)
Lemma take_ring m f1 prevp pz p z (f2 : list blk) n nxt : seg m (f1 ++ (prevp, pz) :: (p, z) :: f2) base -> NoDup (f1 ++ (prevp, pz) :: (p, z) :: f2).*1 ->
  (forall b, b ∈ f1 ++ (prevp, pz) :: (p, z) :: f2 -> z <> n -> b.1 <> p + HEADER * (z - n)) ->
  seg (if z =? n then <[prevp := Hdr (hd_addr f2 base) pz]> m else <[p + HEADER * (z - n) := Hdr nxt n]> (<[p := Hdr (hd_addr f2 base) (z - n)]> m))
    (f1 ++ (prevp, pz) :: shrink p z n ++ f2) base.
Proof.
  intros Hs Hnd Hq. rewrite fmap_app in Hnd. apply NoDup_app in Hnd as (_ & Hn1 & Hn2). simpl in Hn1, Hn2. apply NoDup_cons in Hn2 as [Hn2 Hn3]. apply NoDup_cons in Hn3 as [Hn3 _].
  apply seg_app in Hs as [Hs1 [Hs2 [Hs3 Hs4]]]. simpl in Hs1, Hs2. unfold shrink. destruct (z =? n) eqn:Ez; apply seg_app.
  - split; [apply seg_insert; [|done]; set_solver|]. simpl. rewrite lookup_insert_eq. split; [done|]. apply seg_insert; [|done]. set_solver.
  - apply Z.eqb_neq in Ez. assert (Hq' : forall b, b ∈ f1 ++ (prevp, pz) :: (p, z) :: f2 -> b.1 <> p + HEADER * (z - n)) by auto. set (q := p + HEADER * (z - n)) in *.
    assert (Hqi : forall l : list blk, (forall b, b ∈ l -> b ∈ f1 ++ (prevp, pz) :: (p, z) :: f2) -> q ∉ l.*1).
    { intros l Hl Hin. apply list_elem_of_fmap in Hin as (b & Hb & Hin). by apply (Hq' b (Hl b Hin)). }
    simpl. split; [apply seg_insert; [apply Hqi; set_solver|]; apply seg_insert; [set_solver|done]|].
    rewrite lookup_insert_ne by (intros E; apply (Hq' (prevp, pz)); [set_solver|done]). rewrite lookup_insert_ne by set_solver. split; [done|].
    rewrite lookup_insert_ne by (intros E; apply (Hq' (p, z)); [set_solver|done]). rewrite lookup_insert_eq. split; [done|].
    apply seg_insert; [apply Hqi; set_solver|]. apply seg_insert; [set_solver|done].
Qed.

Definition take_body (n prevp p : Z) (h : hdr) : M ust Z :=
  let* q :=
    (if size h =? n then store_ptr prevp (ptr h) ;;; ret p
     else
       store_size p (u32 (size h - n)) ;;;
       let q := padd p (u32 (size h - n)) in
       store_size q n ;;;
       ret q) in
  modify (set_freep prevp) ;;;
  ret (q + HEADER).

Lemma take_run s prevp pz p z n nxt : cells s !! prevp = Some (Hdr p pz) -> cells s !! p = Some (Hdr nxt z) -> mapped s prevp = true -> mapped s p = true ->
  mapped s (p + HEADER * (z - n)) = true -> 0 < n <= z -> 0 <= p -> p + HEADER * z < KERNBASE ->
  exists old, take_body n prevp p (Hdr nxt z) s = Ok (p + HEADER * (z - n) + HEADER,
    set_freep prevp (set_cells (if z =? n then <[prevp := Hdr nxt pz]> (cells s) else <[p + HEADER * (z - n) := Hdr old n]> (<[p := Hdr nxt (z - n)]> (cells s))) s)).
Proof.
  intros Hc1 Hc2 Hm1 Hm2 Hm3 Hn Hp Hpz. unfold take_body. cbn [size ptr]. destruct (z =? n) eqn:Ez.
  - apply Z.eqb_eq in Ez as ->. exists 0. replace (p + HEADER * (n - n)) with p by lia. unfold bind at 1. rewrite (bind_Ok _ _ _ _ _ (store_ptr_ok _ _ _ _ Hc1 Hm1)). reflexivity.
  - rewrite u32_small by (unfold u32_range; u; lia). rewrite padd_small by (u; lia). unfold bind at 1. rewrite (bind_Ok _ _ _ _ _ (store_size_ok _ _ _ _ Hc2 Hm2)). cbn [ptr].
    rewrite (bind_Ok _ _ _ _ _ (store_size_new (set_cells _ s) _ n Hm3)). eexists. reflexivity.
Qed.

Lemma take_ok s fl live prevp h0 p z n h : heap s fl live -> prevp ∈ ((base, 0) :: fl).*1 -> cells s !! prevp = Some h0 -> ptr h0 = p ->
  (p, z) ∈ (base, 0) :: fl -> cells s !! p = Some h -> 0 < n <= size h ->
  exists q s' fl', take_body n prevp p h s = Ok (q + HEADER, s') /\ heap s' fl' (<[q := n]> live) /\ live !! q = None /\ same_live live s s'.
Proof.
  intros H Hin Hc0 Hp Hpz Hc Hn. destruct (list_elem_of_split _ _ Hpz) as (g1 & g2 & Eg). destruct (node_ok _ _ _ _ _ _ _ H Eg) as (Hcz & Hmp & Hpb & _ & Hpk).
  rewrite Hc in Hcz. injection Hcz as ->. simpl in Hn. clear Eg.
  destruct (pred_split _ _ _ _ _ _ _ H Hin Hc0 Hp Hpz ltac:(lia)) as (f1 & pz & f2 & E).
  assert (E2 : (base, 0) :: fl = (f1 ++ [(prevp, pz)]) ++ (p, z) :: f2) by (by rewrite <- app_assoc).
  destruct (node_ok _ _ _ _ _ _ _ H E) as (Hcv & Hmv & _). destruct (node_ok _ _ _ _ _ _ _ H E2) as (Hcp & _). rewrite Hc in Hcp. injection Hcp as Hg.
  destruct (split_full _ _ _ _ _ E2) as [(Hbad & _)|(f & Ef & Efl)]; [by destruct f1|].
  assert (Hpf : (p, z) ∈ fl) by (rewrite Efl; apply elem_of_app; right; left). destruct (free_bounds _ _ _ _ _ H Hpf) as (_ & Hpl & Hpe).
  pose proof (h_sorted _ _ _ H) as Hs. pose proof (h_pos _ _ _ H) as Hpos. rewrite Efl in Hs, Hpos.
  destruct (shrink_ok f p z f2 n Hs Hpos Hn) as (Hs' & Hpos' & Hcov & Hdis). rewrite <- Efl in Hcov.
  assert (Hlist : (base, 0) :: f ++ shrink p z n ++ f2 = f1 ++ (prevp, pz) :: shrink p z n ++ f2) by (rewrite app_comm_cons, <- Ef, <- app_assoc; done).
  set (q := p + HEADER * (z - n)) in *. assert (Hfq : in_free fl q) by (apply Hcov; right; unfold q; u; lia).
  destruct (take_run s prevp pz p z n (hd_addr f2 base)) as (old & Hrun); [exact Hcv|by rewrite <- Hg|done|done| |done|lia|lia|].
  { unfold Umalloc.mapped. apply orb_true_iff. right. apply andb_true_iff. fold q. unfold q. u. lia. }
  rewrite Hg. exists q. eexists. exists (f ++ shrink p z n ++ f2). split; [exact Hrun|].
  assert (Hsame : same_live live s (set_freep prevp (set_cells (if z =? n then <[prevp := Hdr (hd_addr f2 base) pz]> (cells s) else <[q := Hdr old n]> (<[p := Hdr (hd_addr f2 base) (z - n)]> (cells s))) s))).
  { intros x Hx. assert (Hnf : ~ in_free fl x) by (intros Hf; by apply (h_excl _ _ _ H x)). assert (Hxl : lo <= x) by (apply (h_cover _ _ _ H); by right).
    assert (Hnode : forall a y, (a, y) ∈ (base, 0) :: fl -> x <> a).
    { intros a y Ha ->. apply full_cases in Ha as [[-> _]|Ha]; [u; lia|]. apply Hnf. exists (a, y). split; [done|]. destruct (free_bounds _ _ _ _ _ H Ha). u. lia. }
    simpl. destruct (z =? n); [rewrite lookup_insert_ne; [done|]; intros Eq; apply (Hnode prevp pz); [rewrite E; apply elem_of_app; right; left|done]|].
    rewrite lookup_insert_ne by (intros Eq; apply Hnf; by rewrite <- Eq). rewrite lookup_insert_ne by (intros Eq; by apply (Hnode p z)). done. }
  enough (heap (set_freep prevp (set_cells (if z =? n then <[prevp := Hdr (hd_addr f2 base) pz]> (cells s) else <[q := Hdr old n]> (<[p := Hdr (hd_addr f2 base) (z - n)]> (cells s))) s)) (f ++ shrink p z n ++ f2) (<[q := n]> live) /\ live !! q = None) as [? ?] by done.
  apply (heap_taken s fl); try done.
  - lia.
  - unfold ring. simpl hd_addr. rewrite Hlist. apply take_ring; [pose proof (h_ring _ _ _ H) as Hr; unfold ring in Hr; simpl hd_addr in Hr; by rewrite <- E|rewrite <- E; by eapply full_nodup|].
    intros [b y] Hb Hne Hbq. simpl in Hbq. rewrite <- E in Hb. apply full_cases in Hb as [[-> _]|Hb]; [unfold q in *; u; lia|].
    destruct (free_bounds _ _ _ _ _ H Hb) as (Hy & _). destruct (decide (b = p)) as [->|Hbp]; [u; lia|].
    apply (Hdis b); [|unfold within, q in *; u; lia]. rewrite Efl in Hb. exists (b, y). split; [|u; lia].
    apply elem_of_app in Hb as [Hb|Hb]; [apply elem_of_app; by left|]. apply elem_of_cons in Hb as [[= -> ->]|Hb]; [done|]. apply elem_of_app. right. apply elem_of_app. by right.
  - simpl freep. rewrite Hlist, fmap_app. apply elem_of_app. right. left.
  - simpl cells. unfold q. destruct (z =? n) eqn:Ez.
    + apply Z.eqb_eq in Ez as ->. replace (p + HEADER * (n - n)) with p by lia. exists (Hdr (hd_addr f2 base) n). split; [|done].
      rewrite lookup_insert_ne; [by rewrite <- Hg|]. intros ->. pose proof (full_nodup _ _ _ H) as Hnd. rewrite E, fmap_app in Hnd. apply NoDup_app in Hnd as (_ & _ & Hnd). simpl in Hnd. apply NoDup_cons in Hnd as [Hnd _]. apply Hnd. left.
    + eexists. by rewrite lookup_insert_eq.
Qed.

(** The loop of [malloc] goes along [r], which ends in [freep]: it comes to a
    block that is large enough, or to the end. *)
Lemma scan s fl live n : heap s fl live -> forall (r : list blk) fuel prevp h0 p last fz, seg (cells s) r last -> hd_addr r last = p -> NoDup r.*1 ->
  (exists r0, r = r0 ++ [(freep s, fz)]) -> (forall b, b ∈ r -> b ∈ (base, 0) :: fl) -> (length r <= fuel)%nat ->
  prevp ∈ ((base, 0) :: fl).*1 -> cells s !! prevp = Some h0 -> ptr h0 = p ->
  (exists fuel' prevp' h0' p' z, malloc_loop fuel n prevp p s = malloc_loop (S fuel') n prevp' p' s /\ (p', z) ∈ (base, 0) :: fl /\ n <= z /\
     prevp' ∈ ((base, 0) :: fl).*1 /\ cells s !! prevp' = Some h0' /\ ptr h0' = p') \/
  (Forall (fun b => b.2 < n) r /\ exists prevp', malloc_loop fuel n prevp p s = malloc_loop (S (fuel - length r)) n prevp' (freep s) s).
Proof.
  intros H. induction r as [|[a z] r IH]; intros fuel prevp h0 p last fz Hs Hp Hnd [r0 Hr] Hin Hf Hpin Hpc Hpp; [by destruct r0|]. simpl in Hp. subst a.
  destruct Hs as [Hc Hs]. assert (Hin0 : (p, z) ∈ (base, 0) :: fl) by (apply Hin; left). destruct (list_elem_of_split _ _ Hin0) as (g1 & g2 & Eg).
  destruct (node_ok _ _ _ _ _ _ _ H Eg) as (_ & Hm & Hpb & _). simpl in Hf. destruct fuel as [|f]; [lia|].
  destruct (decide (n <= z)) as [Hle|Hlt]; [left; exists f, prevp, h0, p, z; done|].
  destruct r as [|[b y] r].
  - right. split; [constructor; [simpl; lia|done]|]. exists prevp. destruct r0 as [|? [|? ?]]; try done. injection Hr as <- _. replace (S f - length [(p, z)])%nat with f by (simpl; lia). done.
  - assert (Hne : p <> freep s).
    { intros ->. destruct r0 as [|c r0]; [done|]. injection Hr as _ Hr. simpl in Hnd. apply NoDup_cons in Hnd as [Hnd _]. apply Hnd. change (freep s ∈ ((b, y) :: r).*1). rewrite Hr, fmap_app. set_solver. }
    assert (Hstep : malloc_loop (S f) n prevp p s = malloc_loop f n p b s).
    { cbn [Umalloc.malloc_loop]. rewrite (bind_Ok _ _ _ _ _ (hload_ok _ _ _ Hc Hm)). cbn [size]. rewrite (proj2 (Z.leb_gt n z)) by lia.
      rewrite (bind_Ok get _ s s s eq_refl). rewrite (proj2 (Z.eqb_neq p (freep s))) by done. rewrite (bind_Ok (ret p) _ s p s eq_refl).
      rewrite (proj2 (Z.eqb_neq p 0)) by lia. rewrite (bind_Ok _ _ _ _ _ (hload_ok _ _ _ Hc Hm)). done. }
    rewrite Hstep. destruct (IH f p (Hdr b z) b last fz) as [Hfound|(Hall & prevp' & Hrun)]; try done.
    + apply NoDup_cons in Hnd as [_ Hnd]. done.
    + destruct r0 as [|c r0]; [done|]. injection Hr as _ Hr. by exists r0.
    + intros c Hc0. apply Hin. by right.
    + simpl in *. lia.
    + apply list_elem_of_fmap. by exists (p, z).
    + by left.
    + right. split; [constructor; [simpl; lia|done]|]. exists prevp'. rewrite Hrun. f_equal.
Qed.

(** The whole ring, behind [freep] first. *)
Lemma scan_all s fl live n fuel h : heap s fl live -> (S (length fl) <= fuel)%nat -> cells s !! freep s = Some h ->
  (exists fuel' prevp' h0' p' z, malloc_loop fuel n (freep s) (ptr h) s = malloc_loop (S fuel') n prevp' p' s /\ (p', z) ∈ (base, 0) :: fl /\ n <= z /\
     prevp' ∈ ((base, 0) :: fl).*1 /\ cells s !! prevp' = Some h0' /\ ptr h0' = p') \/
  (Forall (fun b => b.2 < n) fl /\ exists prevp', malloc_loop fuel n (freep s) (ptr h) s = malloc_loop (S (fuel - S (length fl))) n prevp' (freep s) s).
Proof.
  intros H Hf Hc. pose proof (h_freep _ _ _ H) as Hfr. assert (Hfr2 := Hfr). apply list_elem_of_fmap in Hfr2 as ([a fz] & Ha & Hin). simpl in Ha. subst a.
  destruct (list_elem_of_split _ _ Hin) as (l1 & l2 & E). destruct (node_ok _ _ _ _ _ _ _ H E) as (Hc' & _). rewrite Hc in Hc'. injection Hc' as ->. cbn [ptr].
  pose proof (h_ring _ _ _ H) as Hring. assert (Hnd := full_nodup _ _ _ H). rewrite E in Hring, Hnd.
  assert (Hperm : (l2 ++ l1 ++ [(freep s, fz)]) ≡ₚ (base, 0) :: fl) by (rewrite E, app_assoc, (Permutation_app_comm (l2 ++ l1)), (Permutation_app_comm l2 l1); simpl; by rewrite Permutation_middle).
  assert (Hlen : length (l2 ++ l1 ++ [(freep s, fz)]) = S (length fl)) by (by rewrite Hperm).
  assert (Hseg : seg (cells s) (l2 ++ l1 ++ [(freep s, fz)]) (hd_addr l2 base) /\ hd_addr (l2 ++ l1 ++ [(freep s, fz)]) (hd_addr l2 base) = hd_addr l2 base).
  { unfold ring in Hring. rewrite hd_addr_app in Hring. apply seg_app in Hring as [H1 [H2 H3]]. simpl in *. rewrite !seg_app, !hd_addr_app. simpl.
    assert (Hb : hd_addr l1 (freep s) = base) by (destruct (split_full _ _ _ _ _ E) as [(-> & -> & _)|(f & -> & _)]; done). rewrite Hb in *. split; [done|]. by destruct l2 as [|[? ?] ?]. }
  destruct Hseg as [Hseg Hhd].
  destruct (scan s fl live n H (l2 ++ l1 ++ [(freep s, fz)]) fuel (freep s) (Hdr (hd_addr l2 base) fz) (hd_addr l2 base) _ fz Hseg Hhd) as [Hl|[Hall Hr]]; try done.
  - rewrite Hperm. by eapply full_nodup.
  - exists (l2 ++ l1). by rewrite app_assoc.
  - intros b Hb. by rewrite <- Hperm.
  - lia.
  - by left.
  - right. rewrite Hlen in Hr. split; [|done]. rewrite Hperm in Hall. by apply Forall_cons in Hall as [_ ?].
Qed.

Lemma found_run s fl live n fuel prevp h0 p z : heap s fl live -> (p, z) ∈ (base, 0) :: fl -> 0 < n <= z ->
  prevp ∈ ((base, 0) :: fl).*1 -> cells s !! prevp = Some h0 -> ptr h0 = p ->
  exists q s' fl', malloc_loop (S fuel) n prevp p s = Ok (q + HEADER, s') /\ heap s' fl' (<[q := n]> live) /\ live !! q = None /\ same_live live s s'.
Proof.
  intros H Hin Hn Hpin Hpc Hpp. destruct (list_elem_of_split _ _ Hin) as (g1 & g2 & Eg). destruct (node_ok _ _ _ _ _ _ _ H Eg) as (Hc & Hm & _).
  destruct (take_ok s fl live prevp h0 p z n _ H Hpin Hpc Hpp Hin Hc Hn) as (q & s' & fl' & Hrun & Hrest). exists q, s', fl'. split; [|done].
  cbn [Umalloc.malloc_loop]. rewrite (bind_Ok _ _ _ _ _ (hload_ok _ _ _ Hc Hm)). cbn [size]. rewrite (proj2 (Z.leb_le n z)) by lia. exact Hrun.
Qed.

(** What a request is answered: a block of its own, or, only if no free block
    is large enough and the kernel has no more memory, a null pointer. *)
Definition answered (live : gmap Z Z) (n : Z) (s : ust) (fl : list blk) (a : Z) (s' : ust) : Prop :=
  exists fl', same_live live s s' /\
  ((a = 0 /\ heap s' fl' live /\ Forall (fun b => b.2 < n) fl /\ (can (calls s) = false \/ KERNBASE <= brk s + HEADER * Z.max n 4096)) \/
   (exists q, a = q + HEADER /\ heap s' fl' (<[q := n]> live) /\ live !! q = None)).

Lemma malloc_loop_ok s fl live n fuel h : heap s fl live -> 0 < n <= MAXUNITS -> (2 * length fl + 3 <= fuel)%nat -> cells s !! freep s = Some h ->
  exists a s', malloc_loop fuel n (freep s) (ptr h) s = Ok (a, s') /\ answered live n s fl a s'.
Proof.
  intros H Hn Hf Hc. destruct (scan_all s fl live n fuel h H ltac:(lia) Hc) as [(f' & pv & hv & p & z & -> & Hin & Hz & Hpin & Hpc & Hpp)|(Hall & pv & ->)].
  { destruct (found_run s fl live n f' pv hv p z H Hin ltac:(lia) Hpin Hpc Hpp) as (q & s' & fl' & Hrun & H' & Hnone & Hsame).
    exists (q + HEADER), s'. split; [done|]. exists fl'. split; [done|]. right. by exists q. }
  pose proof (h_freep _ _ _ H) as Hfr. apply list_elem_of_fmap in Hfr as ([a fz] & Ha & Hin). simpl in Ha. subst a. destruct (list_elem_of_split _ _ Hin) as (l1 & l2 & E).
  destruct (node_ok _ _ _ _ _ _ _ H E) as (Hc' & Hm & _). rewrite Hc in Hc'. injection Hc' as ->.
  assert (Hfz : fz < n). { apply full_cases in Hin as [[_ ->]|Hin]; [lia|]. rewrite Forall_forall in Hall. by apply (Hall _ Hin). }
  set (k := (fuel - S (length fl))%nat) in *. cbn [Umalloc.malloc_loop]. rewrite (bind_Ok _ _ _ _ _ (hload_ok _ _ _ Hc Hm)). cbn [size]. rewrite (proj2 (Z.leb_gt n fz)) by lia.
  rewrite (bind_Ok get _ s s s eq_refl), Z.eqb_refl. destruct (morecore_ok s fl live n H Hn) as (r & s1 & fl1 & Hmore & H1 & Hsame & Hlen & Hcase). rewrite (bind_Ok _ _ _ _ _ Hmore).
  destruct Hcase as [(-> & -> & Hwhy)|(-> & b & Hb & Hbig)].
  { exists 0, s1. split; [done|]. exists fl. split; [done|]. left. auto. }
  pose proof (h_freep _ _ _ H1) as Hfr1. apply list_elem_of_fmap in Hfr1 as ([a fz1] & Ha & Hin1). simpl in Ha. subst a. destruct (list_elem_of_split _ _ Hin1) as (k1 & k2 & E1).
  destruct (node_ok _ _ _ _ _ _ _ H1 E1) as (Hc1 & Hm1 & Hb1 & _). rewrite (proj2 (Z.eqb_neq (freep s1) 0)) by lia. rewrite (bind_Ok _ _ _ _ _ (hload_ok _ _ _ Hc1 Hm1)).
  destruct (scan_all s1 fl1 live n k _ H1 ltac:(lia) Hc1) as [(f' & pv' & hv & p & z & -> & Hin' & Hz & Hpin & Hpc & Hpp)|(Hno & _)].
  2:{ rewrite Forall_forall in Hno. specialize (Hno _ Hb). simpl in Hno. lia. }
  destruct (found_run s1 fl1 live n f' pv' hv p z H1 Hin' ltac:(lia) Hpin Hpc Hpp) as (q & s' & fl' & Hrun & H' & Hnone & Hsame').
  exists (q + HEADER), s'. split; [done|]. exists fl'. split; [by eapply same_live_trans|]. right. by exists q.
Qed.

(** Before the first call there is no ring. *)
Definition fresh (s : ust) : Prop := freep s = 0 /\ brk s = lo /\ lo < KERNBASE.

Lemma fresh_heap s : fresh s -> heap (set_freep base (set_cells (<[base := Hdr base 0]> (cells s)) s)) [] ∅.
Proof.
  intros (Hf & Hb & Hk). split; simpl; try done.
  - split; [by rewrite lookup_insert_eq|done].
  - repeat constructor.
  - left.
  - intros x. rewrite Hb. split; [lia|]. intros [(b & Hin & _)|(a & z & Hin & _)]; [by apply elem_of_nil in Hin|done].
  - intros x (b & Hin & _). by apply elem_of_nil in Hin.
  - rewrite Hb. lia.
Qed.

Lemma nunits_ok nbytes : 0 <= nbytes <= 2 ^ 31 - 24 -> 0 < nunits_of nbytes <= MAXUNITS /\ nbytes <= HEADER * (nunits_of nbytes - 1) < nbytes + HEADER.
Proof.
  intros H. unfold nunits_of, MAXUNITS. rewrite u32_small by (unfold u32_range; u; lia). u. pose proof (Z.div_mod (nbytes + 8 - 1) 8 ltac:(lia)). pose proof (Z.mod_pos_bound (nbytes + 8 - 1) 8 ltac:(lia)). lia.
Qed.

Lemma malloc_ok s fl live nbytes : heap s fl live -> 0 <= nbytes <= 2 ^ 31 - 24 ->
  exists a s', malloc nbytes s = Ok (a, s') /\ answered live (nunits_of nbytes) s fl a s'.
Proof.
  intros H Hn. destruct (nunits_ok nbytes Hn) as [Hnu _]. pose proof (h_freep _ _ _ H) as Hfr. apply list_elem_of_fmap in Hfr as ([a fz] & Ha & Hin). simpl in Ha. subst a.
  destruct (list_elem_of_split _ _ Hin) as (l1 & l2 & E). destruct (node_ok _ _ _ _ _ _ _ H E) as (Hc & Hm & Hb & _).
  unfold Umalloc.malloc. rewrite (bind_Ok get _ s s s eq_refl). rewrite (proj2 (Z.eqb_neq (freep s) 0)) by lia. rewrite (bind_Ok (ret _) _ s (freep s) s eq_refl).
  rewrite (bind_Ok _ _ _ _ _ (hload_ok _ _ _ Hc Hm)). rewrite (bind_Ok get _ s s s eq_refl). apply malloc_loop_ok; try done. pose proof (free_count _ _ _ H). unfold list_fuel. lia.
Qed.

Lemma malloc_fresh s nbytes : fresh s -> exists s0, heap s0 [] ∅ /\ malloc nbytes s = malloc nbytes s0 /\ brk s0 = brk s /\ calls s0 = calls s.
Proof.
  intros H. exists (set_freep base (set_cells (<[base := Hdr base 0]> (cells s)) s)). split; [by apply fresh_heap|]. split; [|done]. destruct H as (Hf & Hb & Hk).
  assert (Hm : forall s, mapped s base = true) by (intros ?; unfold Umalloc.mapped; by rewrite Z.eqb_refl).
  unfold Umalloc.malloc. rewrite !(bind_Ok get _ _ _ _ eq_refl). rewrite Hf. simpl freep. rewrite (proj2 (Z.eqb_neq base 0)) by lia. change (0 =? 0) with true. cbn iota.
  unfold bind at 1. unfold Umalloc.store at 1. unfold bind at 1. rewrite Hm. reflexivity.
Qed.

(** ** Programs that use the allocator *)

(** A program calls [malloc] and [free], and writes what it likes into its
    blocks; [live] are the blocks it has, by the address of their header. *)
Inductive ustep : ust * gmap Z Z -> ust * gmap Z Z -> Prop :=
| u_malloc n a s s' live : 0 <= n <= 2 ^ 31 - 24 -> malloc n s = Ok (a, s') ->
    ustep (s, live) (s', if a =? 0 then live else <[a - HEADER := nunits_of n]> live)
| u_free a z s s' live : live !! (a - HEADER) = Some z -> free a s = Ok (tt, s') -> ustep (s, live) (s', delete (a - HEADER) live)
| u_write a z x h s live : live !! a = Some z -> a + HEADER <= x < a + HEADER * z -> ustep (s, live) (set_cells (<[x := h]> (cells s)) s, live).

Definition heap_ok (p : ust * gmap Z Z) : Prop := (exists fl, heap p.1 fl p.2) \/ (fresh p.1 /\ p.2 = ∅).

Lemma malloc_any s live n : heap_ok (s, live) -> 0 <= n <= 2 ^ 31 - 24 ->
  exists a s' s0 fl, malloc n s = Ok (a, s') /\ answered live (nunits_of n) s0 fl a s' /\ same_live live s s0 /\ brk s0 = brk s /\ calls s0 = calls s.
Proof.
  intros [(fl & H)|[H E]] Hn; simpl in *; [|subst live].
  - destruct (malloc_ok s fl live n H Hn) as (a & s' & Hrun & Ha). exists a, s', s, fl. split; [done|]. split; [done|]. split; [by intros ?|done].
  - destruct (malloc_fresh s n H) as (s0 & H0 & -> & Hb & Hc). destruct (malloc_ok s0 [] ∅ n H0 Hn) as (a & s' & Hrun & Ha). exists a, s', s0, []. split; [done|]. split; [done|].
    split; [|done]. by intros x (b & z & Hbz & _).
Qed.

Lemma heap_write s fl live a z x h : heap s fl live -> live !! a = Some z -> a + HEADER <= x < a + HEADER * z -> heap (set_cells (<[x := h]> (cells s)) s) fl live.
Proof.
  intros H Ha Hx. destruct (live_bounds _ _ _ _ _ H Ha) as (Hz & Hl & Hb). split; try apply H.
  - apply seg_insert; [|apply H]. intros Hin. apply list_elem_of_fmap in Hin as ([b y] & Hb0 & Hin). simpl in Hb0. subst b.
    apply full_cases in Hin as [[-> _]|Hin]; [u; lia|]. destruct (free_bounds _ _ _ _ _ H Hin). destruct (free_live_apart _ _ _ _ _ _ _ H Hin Ha); u; lia.
  - intros b y Hb0. simpl. rewrite lookup_insert_ne; [by apply (h_live _ _ _ H)|]. intros ->. destruct (live_bounds _ _ _ _ _ H Hb0) as (Hy & _).
    destruct (decide (b = a)) as [->|Hne]; [u; lia|]. destruct (h_disj _ _ _ H _ _ _ _ Ha Hb0 Hne); u; lia.
Qed.

Lemma ustep_ok p p' : heap_ok p -> ustep p p' -> heap_ok p'.
Proof.
  intros Hok Hstep. revert Hok. destruct Hstep as [n a s s' live Hn Hrun|a z s s' live Ha Hrun|a z x h s live Ha Hx]; intros Hok.
  - destruct (malloc_any s live n Hok Hn) as (a' & s1 & s0 & fl & Hrun' & (fl' & _ & Hcase) & _). rewrite Hrun in Hrun'. injection Hrun' as <- <-. left. simpl.
    destruct Hcase as [(-> & H & _)|(q & -> & H & _)]; [by exists fl'|]. exists fl'. replace (q + HEADER - HEADER) with q by lia.
    destruct (live_bounds _ _ _ q (nunits_of n) H ltac:(by rewrite lookup_insert_eq)) as (_ & Hq & _). rewrite (proj2 (Z.eqb_neq (q + HEADER) 0)) by (u; lia). done.
  - destruct Hok as [(fl & H)|[_ E]]; simpl in *; [|by rewrite E in Ha]. destruct (free_ok s fl live _ z H Ha) as (s1 & fl' & Hrun' & H' & _).
    replace (a - HEADER + HEADER) with a in Hrun' by lia. rewrite Hrun in Hrun'. injection Hrun' as <-. left. by exists fl'.
  - destruct Hok as [(fl & H)|[_ E]]; simpl in *; [|by rewrite E in Ha]. left. exists fl. by eapply heap_write.
Qed.

(** If nothing is in use, all memory is one free block. *)
Lemma heap_empty s fl : heap s fl ∅ -> lo < brk s -> fl = [(lo, (brk s - lo) / HEADER)].
Proof.
  intros H Hb. assert (Hin : forall x, lo <= x < brk s -> in_free fl x).
  { intros x Hx. apply (h_cover _ _ _ H) in Hx as [|(a & z & Ha & _)]; done. }
  pose proof (h_sorted _ _ _ H) as Hs. apply StronglySorted_inv in Hs as [Hs _].
  destruct (Hin lo ltac:(lia)) as ([a0 z0] & Ha0 & Hw0). destruct (free_bounds _ _ _ _ _ H Ha0) as (Hz0 & Hla0 & _).
  destruct fl as [|[a z] fl]; [by apply elem_of_nil in Ha0|]. apply StronglySorted_inv in Hs as [Hs1 Hs2]. rewrite Forall_forall in Hs2.
  destruct (free_bounds _ _ _ a z H ltac:(left)) as (Hz & Hla & Hae).
  assert (a = lo). { apply elem_of_cons in Ha0 as [[= -> ->]|Ha0]; [u; lia|]. specialize (Hs2 _ Ha0). u. lia. } subst a.
  destruct fl as [|[b y] fl].
  - assert (Hend : lo + HEADER * z = brk s).
    { destruct (decide (lo + HEADER * z = brk s)) as [|Hne]; [done|]. destruct (Hin (lo + HEADER * z) ltac:(u; lia)) as ([c w] & Hc & Hw). apply list_elem_of_singleton in Hc as [= -> ->]. u. lia. }
    rewrite <- Hend. repeat f_equal. u. replace (lo + 8 * z - lo) with (z * 8) by lia. by rewrite Z.div_mul.
  - exfalso. destruct (free_bounds _ _ _ b y H ltac:(right; left)) as (Hy & _ & Hbe). specialize (Hs2 (b, y) ltac:(left)). apply StronglySorted_inv in Hs1 as [_ Hs1]. rewrite Forall_forall in Hs1.
    destruct (Hin (lo + HEADER * z)) as ([c w] & Hc & Hw); [u; lia|]. apply elem_of_cons in Hc as [[= -> ->]|Hc]; [u; lia|]. apply elem_of_cons in Hc as [[= -> ->]|Hc]; [u; lia|].
    specialize (Hs1 _ Hc). u. lia.
Qed.

End heap.

(** C34: whatever a program that asks for at most 2^31-24 bytes at a time does
    with [malloc], [free] and the insides of its blocks,
    the blocks it has lie in the heap and do not overlap, and their contents
    are never touched by the allocator.  Such a request
    always returns: with a new block that is large enough and overlaps no
    other, or with a null pointer, and that only if the kernel refuses to
    grow the process.  Freeing a block returns.  Once everything is freed the
    whole heap is again a single free block. *)
Theorem malloc_keeps_blocks_apart base lo can s0 s live :
  0 < base -> base + HEADER <= lo -> fresh lo s0 -> rtc (ustep base lo can) (s0, ∅) (s, live) ->
  (forall a z, live !! a = Some z -> lo <= a /\ a + HEADER * z <= brk s /\
     forall b y, live !! b = Some y -> b <> a -> a + HEADER * z <= b \/ b + HEADER * y <= a) /\
  (forall n, 0 <= n <= 2 ^ 31 - 24 -> exists p s', malloc base lo can n s = Ok (p, s') /\ same_live live s s' /\
     ((p = 0 /\ (can (calls s) = false \/ KERNBASE <= brk s + HEADER * Z.max (nunits_of n) 4096)) \/
      (lo + HEADER <= p /\ p + n <= brk s' /\ forall a z, live !! a = Some z -> a + HEADER * z <= p - HEADER \/ p + n <= a))) /\
  (forall p z, live !! (p - HEADER) = Some z -> exists s', free base lo p s = Ok (tt, s') /\ same_live (delete (p - HEADER) live) s s') /\
  (live = ∅ -> freep s <> 0 -> lo < brk s -> cells s !! base = Some (Hdr lo 0) /\ cells s !! lo = Some (Hdr base ((brk s - lo) / HEADER))).
Proof.
  intros Hbase Hlo Hf Hr. assert (Hok : heap_ok base lo (s, live)). { apply (rtc_invariant (ustep base lo can) (heap_ok base lo) (s0, ∅)); [intros a b; by apply ustep_ok|by right|done]. }
  split; [|split; [|split]].
  - intros a z Ha. destruct Hok as [(fl & H)|[_ E]]; simpl in *; [|by rewrite E in Ha]. destruct (live_bounds _ _ _ _ _ _ _ H Ha) as (_ & ? & ?). split; [done|]. split; [done|].
    intros b y Hb Hne. by apply (h_disj _ _ _ _ _ H).
  - intros n Hn. destruct (malloc_any base lo can Hbase Hlo s live n Hok Hn) as (p & s' & s1 & fl & Hrun & (fl' & Hsame & Hcase) & Hsame0 & Hb & Hc). exists p, s'.
    split; [done|]. split; [by eapply same_live_trans|]. rewrite <- Hb, <- Hc. destruct Hcase as [(-> & _ & _ & Hwhy)|(q & -> & H & Hnone)]; [by left|right].
    destruct (live_bounds _ _ _ _ _ q (nunits_of n) H ltac:(by rewrite lookup_insert_eq)) as (_ & Hq & Hqe). destruct (nunits_ok n Hn) as [_ Hnu].
    split; [lia|]. split; [lia|]. intros a z Ha. assert (a <> q) by congruence.
    destruct (h_disj _ _ _ _ _ H q (nunits_of n) a z) as [Hd|Hd]; [by rewrite lookup_insert_eq|by rewrite lookup_insert_ne|done|right; lia|left; lia].
  - intros p z Hp. destruct Hok as [(fl & H)|[_ E]]; simpl in *; [|by rewrite E in Hp]. destruct (free_ok _ _ can Hbase Hlo s fl live _ z H Hp) as (s' & fl' & Hrun & H' & Hb & _ & Hcov & _ & Hframe & _).
    replace (p - HEADER + HEADER) with p in Hrun by lia. exists s'. split; [done|]. intros x Hx.
    apply (in_live_delete live _ z) in Hx as [Hx Hnw]; [|done|intros b y Hb0 Hne; by apply (h_disj _ _ _ _ _ H)].
    apply Hframe; [apply (h_cover _ _ _ _ _ H); by right| |done]. intros Hfr. by apply (h_excl _ _ _ _ _ H x).
  - intros -> Hfr Hb. destruct Hok as [(fl & H)|[(E & _) _]]; simpl in *; [|done]. pose proof (heap_empty _ _ s fl H Hb) as ->. pose proof (h_ring _ _ _ _ _ H) as (H1 & H2 & _). done.
Qed.

Definition demo_ust : ust := Ust 0 ∅ 4096 0.
Definition demo_run {A} (c : M ust A) (s : ust) : ust := after c s.
Definition demo_ust1 : ust := Eval vm_compute in demo_run (malloc 8 4096 (fun _ => true) 20) demo_ust.
Definition demo_ust2 : ust := Eval vm_compute in demo_run (malloc 8 4096 (fun _ => true) 100) demo_ust1.
Definition demo_ust3 : ust := Eval vm_compute in demo_run (free 8 4096 36840) demo_ust2.

Lemma malloc_keeps_blocks_apart_witness : exists p s', malloc 8 4096 (fun _ => true) 5000 demo_ust3 = Ok (p, s') /\ p + 5000 <= brk s' /\ p + 5000 <= 36720.
Proof.
  assert (Hr : rtc (ustep 8 4096 (fun _ => true)) (demo_ust, ∅) (demo_ust3, {[ 36720 := 14 ]})).
  { eapply rtc_l; [apply (u_malloc 8 4096 _ 20 36840 demo_ust demo_ust1); [lia|vm_compute; reflexivity]|].
    eapply rtc_l; [apply (u_malloc 8 4096 _ 100 36728 demo_ust1 demo_ust2); [lia|vm_compute; reflexivity]|].
    eapply rtc_l; [apply (u_free 8 4096 _ 36840 4 demo_ust2 demo_ust3); [vm_compute; reflexivity|vm_compute; reflexivity]|]. vm_compute. apply rtc_refl. }
  destruct (malloc_keeps_blocks_apart 8 4096 (fun _ => true) demo_ust demo_ust3 _ ltac:(lia) ltac:(done) ltac:(done) Hr) as (_ & H & _).
  destruct (H 5000) as (p & s' & Hrun & _ & [(_ & [Hc|Hk])|(_ & Hb & Hd)]); [lia|done|vm_compute in Hk; done|].
  exists p, s'. split; [done|]. split; [done|]. destruct (Hd 36720 14 ltac:(reflexivity)) as [Hd'|Hd']; [|lia]. vm_compute in Hrun. injection Hrun as <- <-. unfold HEADER in Hd'. lia.
Defined.

(** Above two gigabytes the arithmetic wraps: the largest request gets a block
    without room for a single byte, and half of it makes [morecore] call
    [sbrk] with a negative number, which succeeds and adds no memory, and then
    write behind the end of the process. *)
Lemma malloc_huge_requests :
  (exists p s', malloc 8 4096 (fun _ => true) (2 ^ 32 - 1) demo_ust1 = Ok (p, s') /\ p <> 0 /\ size (default (Hdr 0 0) (cells s' !! (p - HEADER))) = 1) /\
  malloc 8 4096 (fun _ => true) (2 ^ 31) demo_ust1 = Fault.
Proof. split; [eexists _, _; split; [vm_compute; reflexivity|]; split; [done|vm_compute; reflexivity]|vm_compute; reflexivity]. Qed.
