(* ===== verification/Ide.v ===== *)
(** * The disk driver

    Models [ide.c].  The drive is hardware: [Ata] lists the port operations the
    driver uses and what of the drive can be observed, and [AtaLaws] what the
    interface promises for them (registers, the two commands, the data port,
    the status), also when a command fails.  [idelock] makes each call, up to its return or a [sleep], one
    step; a machine of any number of processes and the drive interleaves the
    steps. *)

From S2P Require Import Prelude Block Sleeplock Bio.

Definition FSSIZE : Z := 2000.
Definition SECTOR_SIZE : Z := 512.
Definition IDE_BSY : Z := 0x80.
Definition IDE_DRDY : Z := 0x40.
Definition IDE_DF : Z := 0x20.
Definition IDE_ERR : Z := 0x01.
Definition IDE_CMD_READ : Z := 0x20.
Definition IDE_CMD_WRITE : Z := 0x30.
Definition IDE_CMD_RDMUL : Z := 0xc4.
Definition IDE_CMD_WRMUL : Z := 0xc5.

(** ** The drive *)

(** What the drive is doing: nothing, reading a sector, waiting for the data of
    a sector to write, writing it, handing out the data it has read; or nothing
    after a command that failed. *)
Inductive phase :=
| Idle
| Reading (drv lba : Z)
| Filling (drv lba : Z)
| Writing (drv lba : Z) (b : block)
| Sending (b : block)
| Failed.

Record view := View { reg : Z -> Z; media : Z -> Z -> block; doing : phase }.

(** [finish] is what the drive does before it interrupts. *)
Class Ata (D : Type) := {
  inb : Z -> D -> Z * D;
  outb : Z -> Z -> D -> D;
  outsl : Z -> block -> D -> D;
  insl : Z -> Z -> D -> block * D;
  finish : D -> D;
  see : D -> view
}.

(** The sector and the drive the registers select. *)
Definition lba_of (r : Z -> Z) : Z := r 0x1f3 + 256 * r 0x1f4 + 65536 * r 0x1f5 + 16777216 * (Z.land (r 0x1f6) 15).
Definition drv_of (r : Z -> Z) : Z := Z.land (Z.shiftr (r 0x1f6) 4) 1.

Definition fn_insert {B} (f : Z -> B) (k : Z) (v : B) : Z -> B := fun x => if x =? k then v else f x.

(** Polling the status register until the drive is ready. *)
Fixpoint poll {D} `{Ata D} (fuel : nat) (d : D) : result (Z * D) :=
  match fuel with
  | O => NoFuel
  | S f =>
      let '(r, d) := inb 0x1f7 d in
      if Z.land r (Z.lor IDE_BSY IDE_DRDY) =? IDE_DRDY then Ok (r, d) else poll f d
  end.

(** No command is under way. *)
Definition at_rest (p : phase) : Prop := p = Idle \/ p = Failed.

(** What the error bits of the status say. *)
Definition status_ok (p : phase) (r : Z) : Prop :=
  match p with
  | Sending _ => Z.land r (Z.lor IDE_DF IDE_ERR) = 0
  | Failed => Z.land r (Z.lor IDE_DF IDE_ERR) <> 0
  | _ => True
  end.

(** A command is carried out or fails, as the drive likes; a write that failed
    leaves anything in its sector. *)
Class AtaLaws (D : Type) `{Ata D} (patience : nat) : Prop := {
  ata_poll d : at_rest (doing (see d)) \/ (exists b, doing (see d) = Sending b) ->
    exists r d', poll patience d = Ok (r, d') /\ see d' = see d /\ status_ok (doing (see d)) r;
  ata_reg p v d : 0x1f2 <= p <= 0x1f6 -> see (outb p v d) = View (fn_insert (reg (see d)) p v) (media (see d)) (doing (see d));
  ata_control d : see (outb 0x3f6 0 d) = see d;
  ata_read d : at_rest (doing (see d)) -> reg (see d) 0x1f2 = 1 ->
    see (outb 0x1f7 IDE_CMD_READ d) = View (reg (see d)) (media (see d)) (Reading (drv_of (reg (see d))) (lba_of (reg (see d))));
  ata_write d : at_rest (doing (see d)) -> reg (see d) 0x1f2 = 1 ->
    see (outb 0x1f7 IDE_CMD_WRITE d) = View (reg (see d)) (media (see d)) (Filling (drv_of (reg (see d))) (lba_of (reg (see d))));
  ata_outsl d drv lba b : doing (see d) = Filling drv lba -> length b = 512%nat ->
    see (outsl 0x1f0 b d) = View (reg (see d)) (media (see d)) (Writing drv lba b);
  ata_finish_read d drv lba : doing (see d) = Reading drv lba ->
    see (finish d) = View (reg (see d)) (media (see d)) (Sending (media (see d) drv lba)) \/
    see (finish d) = View (reg (see d)) (media (see d)) Failed;
  ata_finish_write d drv lba b : doing (see d) = Writing drv lba b ->
    see (finish d) = View (reg (see d)) (fn_insert (media (see d)) drv (fn_insert (media (see d) drv) lba b)) Idle \/
    exists x, see (finish d) = View (reg (see d)) (fn_insert (media (see d)) drv (fn_insert (media (see d) drv) lba x)) Failed;
  ata_insl d b : doing (see d) = Sending b ->
    exists d', insl 0x1f0 128 d = (b, d') /\ see d' = View (reg (see d)) (media (see d)) Idle
}.

(** ** The driver *)

(** The buffers with their [qnext], [idequeue], [havedisk1] and the drive. *)
Record ist (D : Type) := Ist {
  ibufs : list buf;
  qnext : list (option nat);
  idequeue : option nat;
  havedisk1 : bool;
  ata : D
}.
Arguments Ist {D} _ _ _ _ _. Arguments ibufs {D} _. Arguments qnext {D} _. Arguments idequeue {D} _. Arguments havedisk1 {D} _. Arguments ata {D} _.

Section driver.

Context {D : Type} `{Ata D} (patience : nat).

Definition set_ibufs v (s : ist D) := Ist v (qnext s) (idequeue s) (havedisk1 s) (ata s).
Definition set_qnext v (s : ist D) := Ist (ibufs s) v (idequeue s) (havedisk1 s) (ata s).
Definition set_idequeue v (s : ist D) := Ist (ibufs s) (qnext s) v (havedisk1 s) (ata s).
Definition set_havedisk1 v (s : ist D) := Ist (ibufs s) (qnext s) (idequeue s) v (ata s).
Definition set_ata (v : D) (s : ist D) : ist D := Ist (ibufs s) (qnext s) (idequeue s) (havedisk1 s) v.

Definition ibuf (i : nat) : M (ist D) buf := fun s => match ibufs s !! i with Some b => Ok (b, s) | None => Fault end.

Definition upd_ibuf (i : nat) (f : buf -> buf) : M (ist D) unit := fun s =>
  match ibufs s !! i with Some b => Ok (tt, set_ibufs (<[i := f b]> (ibufs s)) s) | None => Fault end.

Definition get_qnext (i : nat) : M (ist D) (option nat) := fun s => match qnext s !! i with Some q => Ok (q, s) | None => Fault end.

Definition put_qnext (i : nat) (q : option nat) : M (ist D) unit := fun s =>
  if decide (i < length (qnext s))%nat then Ok (tt, set_qnext (<[i := q]> (qnext s)) s) else Fault.

Definition out (p v : Z) : M (ist D) unit := modify (fun s => set_ata (outb p v (ata s)) s).

Definition idewait (checkerr : bool) : M (ist D) Z := fun s =>
  let? x := poll patience (ata s) in
  let '(r, d) := x in
  Ok (if checkerr && negb (Z.land r (Z.lor IDE_DF IDE_ERR) =? 0) then -1 else 0, set_ata d s).

(** [for(i=0; i<1000; i++) if(inb(0x1f7) != 0){ havedisk1 = 1; break; }] *)
Fixpoint find_disk1 (n : nat) : M (ist D) unit :=
  match n with
  | O => ret tt
  | S n => fun s =>
      let '(r, d) := inb 0x1f7 (ata s) in
      if negb (r =? 0) then Ok (tt, set_havedisk1 true (set_ata d s)) else find_disk1 n (set_ata d s)
  end.

Definition ideinit : M (ist D) unit :=
  idewait false ;;;
  out 0x1f6 (Z.lor 0xe0 (Z.shiftl 1 4)) ;;;
  find_disk1 1000 ;;;
  out 0x1f6 (Z.lor 0xe0 (Z.shiftl 0 4)).

Definition idestart (o : option nat) : M (ist D) unit :=
  match o with
  | None => panic "idestart"
  | Some i =>
      let* b := ibuf i in
      if FSSIZE <=? b_blockno b then panic "incorrect blockno"
      else
        let sector_per_block := BSIZE / SECTOR_SIZE in
        let sector := i32 (b_blockno b * sector_per_block) in
        let read_cmd := if sector_per_block =? 1 then IDE_CMD_READ else IDE_CMD_RDMUL in
        let write_cmd := if sector_per_block =? 1 then IDE_CMD_WRITE else IDE_CMD_WRMUL in
        if 7 <? sector_per_block then panic "idestart"
        else
          idewait false ;;;
          out 0x3f6 0 ;;;
          out 0x1f2 sector_per_block ;;;
          out 0x1f3 (Z.land sector 0xff) ;;;
          out 0x1f4 (Z.land (Z.shiftr sector 8) 0xff) ;;;
          out 0x1f5 (Z.land (Z.shiftr sector 16) 0xff) ;;;
          out 0x1f6 (Z.lor (Z.lor 0xe0 (Z.shiftl (Z.land (b_dev b) 1) 4)) (Z.land (Z.shiftr sector 24) 0x0f)) ;;;
          if flag B_DIRTY b then
            out 0x1f7 write_cmd ;;;
            modify (fun s => set_ata (outsl 0x1f0 (b_data b) (ata s)) s)
          else out 0x1f7 read_cmd
  end.

(** The buffer whose processes are woken up. *)
Definition ideintr : M (ist D) (option nat) :=
  let* o := gets idequeue in
  match o with
  | None => ret None
  | Some i =>
      let* q := get_qnext i in
      modify (set_idequeue q) ;;;
      let* b := ibuf i in
      (if negb (flag B_DIRTY b) then
         let* r := idewait true in
         if 0 <=? r then
           fun s => let '(v, d) := insl 0x1f0 (BSIZE / 4) (ata s) in upd_ibuf i (with_data v) (set_ata d s)
         else ret tt
       else ret tt) ;;;
      upd_ibuf i (fun b => with_flags (Z.lor (b_flags b) B_VALID) b) ;;;
      upd_ibuf i (fun b => with_flags (Z.land (b_flags b) (Z.lnot B_DIRTY)) b) ;;;
      let* q := gets idequeue in
      (if q then idestart q else ret tt) ;;;
      ret (Some i)
  end.

(** The loop that appends to the queue, with [pp] the link of a buffer, or
    [idequeue] itself. *)
Fixpoint append_queue (fuel : nat) (pp : option nat) (i : nat) : M (ist D) unit :=
  match fuel with
  | O => nofuel
  | S f =>
      let* v := (match pp with Some p => get_qnext p | None => gets idequeue end) in
      match v with
      | Some p => append_queue f (Some p) i
      | None => match pp with Some p => put_qnext p (Some i) | None => modify (set_idequeue (Some i)) end
      end
  end.

(** The [while] is left. *)
Definition idle_done (b : buf) : bool := Z.land (b_flags b) (Z.lor B_VALID B_DIRTY) =? B_VALID.

(** Up to the [while]. *)
Definition iderw_start (pid : Z) (i : nat) : M (ist D) unit :=
  let* b := ibuf i in
  let* s := get in
  if negb (holdingsleep pid (b_lock b)) then panic "iderw: buf not locked"
  else if idle_done b then panic "iderw: nothing to do"
  else if negb (b_dev b =? 0) && negb (havedisk1 s) then panic "iderw: ide disk 1 not present"
  else
    put_qnext i None ;;;
    append_queue (S (length (ibufs s))) None i ;;;
    let* o := gets idequeue in
    if bool_decide (o = Some i) then idestart (Some i) else ret tt.

(** The test of the [while], behind the first part and behind each [sleep]. *)
Definition iderw_done (i : nat) : M (ist D) bool := let* b := ibuf i in ret (idle_done b).

End driver.
