(* ===== verification/IdeProps.v ===== *)
(** * What the disk driver promises

    Requests are served in the order in which they were made, and each
    interrupt has the effect that a call of the routine of the memory disk has
    on the first of them: the driver, with its queue, its sleeping processes
    and its drive, refines the memory disk with a queue of requests. *)

From S2P Require Import Prelude Block Sleeplock Bio Ide.

(** ** The queue *)

Fixpoint linked (qn : list (option nat)) (q : list nat) : Prop :=
  match q with
  | [] => True
  | i :: r => qn !! i = Some (head r) /\ linked qn r
  end.

Lemma linked_insert qn q i v : i ∉ q -> linked qn q -> linked (<[i := v]> qn) q.
Proof.
  induction q as [|j q IH]; simpl; [done|]. intros Hi [H1 H2]. rewrite list_lookup_insert_ne by set_solver. split; [done|]. apply IH; [set_solver|done].
Qed.

Lemma linked_snoc qn q i : linked qn q -> NoDup q -> i ∉ q -> qn !! i = Some None ->
  linked (match last q with Some p => <[p := Some i]> qn | None => qn end) (q ++ [i]).
Proof.
  induction q as [|j q IH]; intros Hl Hn Hi Hq; [done|]. destruct Hl as [Hj Hl]. apply NoDup_cons in Hn as [Hjq Hn]. destruct q as [|k q].
  - simpl. rewrite list_lookup_insert_eq by (by eapply lookup_lt_Some). split; [done|]. rewrite list_lookup_insert_ne by set_solver. done.
  - rewrite last_cons_cons. specialize (IH Hl Hn ltac:(set_solver) Hq). split; [|exact IH].
    destruct (last (k :: q)) as [p|] eqn:E; [|by apply last_None in E]. rewrite list_lookup_insert_ne; [done|]. intros ->. apply Hjq. by apply last_Some_elem_of in E.
Qed.

Section props.

Context {D : Type} `{AtaLaws D patience}.

Notation ideintr := (ideintr patience).
Notation idestart := (idestart patience).
Notation iderw_start := (iderw_start patience).

Lemma append_walk (i : nat) fuel p r (s : ist D) : linked (qnext s) (p :: r) -> (length r < fuel)%nat ->
  append_queue fuel (Some p) i s = Ok (tt, set_qnext (<[default p (last r) := Some i]> (qnext s)) s).
Proof.
  revert p r. induction fuel as [|f IH]; intros p r [Hp Hr] Hf; [lia|]. cbn [append_queue]. unfold bind at 1. unfold get_qnext at 1. rewrite Hp. cbn [rbind].
  destruct r as [|k r]; simpl.
  - unfold put_qnext. rewrite decide_True by (by eapply lookup_lt_Some). done.
  - simpl in Hf. rewrite (IH k r Hr ltac:(lia)). do 3 f_equal. destruct r as [|j r]; [done|]. rewrite last_cons_cons. by destruct (last (j :: r)) eqn:E; [|apply last_None in E].
Qed.

(** Appending keeps the links. *)
Lemma append_ok (i : nat) fuel q (s : ist D) : idequeue s = head q -> linked (qnext s) q -> NoDup q -> i ∉ q -> qnext s !! i = Some None -> (length q < fuel)%nat ->
  exists s', append_queue fuel None i s = Ok (tt, s') /\ idequeue s' = head (q ++ [i]) /\ linked (qnext s') (q ++ [i]) /\ length (qnext s') = length (qnext s) /\
    ibufs s' = ibufs s /\ havedisk1 s' = havedisk1 s /\ ata s' = ata s.
Proof.
  intros Hh Hl Hn Hi Hq Hf. destruct fuel as [|f]; [lia|]. cbn [append_queue]. unfold bind at 1. unfold gets. rewrite Hh. cbn [rbind].
  pose proof (linked_snoc _ _ _ Hl Hn Hi Hq) as Hs. destruct q as [|p r]; simpl.
  - eexists. split; [done|]. done.
  - simpl in Hf. rewrite (append_walk i f p r s Hl ltac:(lia)). eexists. split; [done|]. simpl. rewrite length_insert. split; [done|]. split; [|done].
    replace (default p (last r)) with (default p (last (p :: r))) by (destruct r as [|k r]; [done|by rewrite last_cons_cons; destruct (last (k :: r)) eqn:E; [|apply last_None in E]]).
    destruct (last (p :: r)) eqn:E; [done|by apply last_None in E].
Qed.

(** ** Starting the drive *)

(** The request of a buffer. *)
Definition phase_of (b : buf) : phase := if flag B_DIRTY b then Writing 1 (b_blockno b) (b_data b) else Reading 1 (b_blockno b).

(** What the driver needs of a buffer to start it. *)
Definition startable (b : buf) : Prop := b_dev b = 1 /\ 0 <= b_blockno b < FSSIZE /\ length (b_data b) = 512%nat.

Lemma lba_bytes n : 0 <= n < FSSIZE -> Z.land n 255 + 256 * Z.land (Z.shiftr n 8) 255 + 65536 * Z.land (Z.shiftr n 16) 255 + 16777216 * Z.land (Z.lor (Z.lor 224 (Z.shiftl (Z.land 1 1) 4)) (Z.land (Z.shiftr n 24) 15)) 15 = n /\
  Z.land (Z.shiftr (Z.lor (Z.lor 224 (Z.shiftl (Z.land 1 1) 4)) (Z.land (Z.shiftr n 24) 15)) 4) 1 = 1.
Proof.
  unfold FSSIZE. intros Hn. rewrite !Z.shiftr_div_pow2 by lia. rewrite (Z.div_small n (2 ^ 16)), (Z.div_small n (2 ^ 24)) by lia.
  change (Z.land (Z.lor (Z.lor 224 (Z.shiftl (Z.land 1 1) 4)) (Z.land 0 15)) 15) with 0. change (Z.land 0 255) with 0.
  split; [|done]. change 255 with (Z.ones 8). rewrite !Z.land_ones by lia. rewrite (Z.mod_small (n / 2 ^ 8)) by (split; [apply Z.div_pos; lia|apply Z.div_lt_upper_bound; lia]).
  pose proof (Z.div_mod n (2 ^ 8) ltac:(lia)). change (2 ^ 8) with 256 in *. lia.
Qed.

Lemma out_Ok p v (s : ist D) : out p v s = Ok (tt, set_ata (outb p v (ata s)) s).
Proof. done. Qed.

Lemma idestart_ok i b (s : ist D) : ibufs s !! i = Some b -> startable b -> at_rest (doing (see (ata s))) ->
  exists d, idestart (Some i) s = Ok (tt, set_ata d s) /\ media (see d) = media (see (ata s)) /\ doing (see d) = phase_of b.
Proof.
  intros Hi (Hdev & Hb & Hlen) Hd. unfold Ide.idestart. unfold bind at 1. unfold ibuf. rewrite Hi. cbn [rbind].
  rewrite (proj2 (Z.leb_gt FSSIZE (b_blockno b))) by lia. change (BSIZE / SECTOR_SIZE) with 1. change (7 <? 1) with false. change (1 =? 1) with true. cbn iota.
  rewrite Z.mul_1_r, i32_small by (unfold i32_range, FSSIZE in *; lia).
  destruct (ata_poll (ata s)) as (r & d0 & Hp & Hs0 & _); [by left|].
  assert (Hw : idewait patience false s = Ok (0, set_ata d0 s)) by (unfold idewait; rewrite Hp; done). rewrite (bind_Ok _ _ _ _ _ Hw).
  rewrite !(bind_Ok _ _ _ _ _ (out_Ok _ _ _)). cbn [set_ata ata]. rewrite Hdev.
  set (d6 := outb 502 _ _). assert (Hv : reg (see d6) 498 = 1 /\ lba_of (reg (see d6)) = b_blockno b /\ drv_of (reg (see d6)) = 1 /\ media (see d6) = media (see (ata s)) /\ at_rest (doing (see d6))).
  { unfold d6. rewrite !ata_reg by lia. rewrite ata_control, Hs0. cbn [reg media doing]. destruct (lba_bytes _ Hb) as [Hlba Hdrv]. unfold lba_of, drv_of, fn_insert. simpl. done. }
  destruct Hv as (Hc & Hlba & Hdrv & Hm & Hidle). unfold phase_of. destruct (flag B_DIRTY b).
  - rewrite (bind_Ok _ _ _ _ _ (out_Ok _ _ _)). eexists. split; [done|]. cbn [set_ata ata].
    assert (Hf : see (outb 503 IDE_CMD_WRITE d6) = View (reg (see d6)) (media (see d6)) (Filling 1 (b_blockno b))) by (rewrite ata_write by done; by rewrite Hlba, Hdrv).
    rewrite (ata_outsl _ 1 (b_blockno b)); [by rewrite Hf|by rewrite Hf|done].
  - rewrite out_Ok. eexists. split; [reflexivity|]. cbn [set_ata ata]. rewrite ata_read by done. by rewrite Hlba, Hdrv.
Qed.

(** ** The machine *)

(** The driver, and by pid each process inside [iderw]: its buffer, and
    whether it sleeps. *)
Record mach := Mach { io : ist D; inside : gmap Z (nat * bool) }.

Definition wake_all (i : nat) (w : gmap Z (nat * bool)) : gmap Z (nat * bool) :=
  (fun '(j, a) => (j, if decide (j = i) then false else a)) <$> w.

(** A request that does not panic. *)
Definition request_ok (bs : list buf) (pid : Z) (i : nat) : Prop :=
  exists b, bs !! i = Some b /\ holdingsleep pid (b_lock b) = true /\ idle_done b = false /\ startable b.

(** The steps; with [e] the commands of the drive may fail. *)
Inductive mstep (e : bool) : mach -> mach -> Prop :=
| m_call m pid i done s' :
    inside m !! pid = None -> request_ok (ibufs (io m)) pid i ->
    (iderw_start pid i ;;; iderw_done i) (io m) = Ok (done, s') ->
    mstep e m (Mach s' (if done : bool then inside m else <[pid := (i, true)]> (inside m)))
| m_intr m w s' :
    ~ at_rest (doing (see (ata (io m)))) -> (e = false -> doing (see (finish (ata (io m)))) <> Failed) ->
    ideintr (set_ata (finish (ata (io m))) (io m)) = Ok (w, s') ->
    mstep e m (Mach s' (match w with Some i => wake_all i (inside m) | None => inside m end))
| m_resume m pid i done s' :
    inside m !! pid = Some (i, false) -> iderw_done i (io m) = Ok (done, s') ->
    mstep e m (Mach s' (if done : bool then delete pid (inside m) else <[pid := (i, true)]> (inside m)))
| m_kill m pid i : inside m !! pid = Some (i, true) -> mstep e m (Mach (io m) (<[pid := (i, false)]> (inside m)))
| m_other m i b : (forall pid a, inside m !! pid <> Some (i, a)) -> mstep e m (Mach (set_ibufs (<[i := b]> (ibufs (io m))) (io m)) (inside m)).

(** The buffer when its request is done, [v] the data. *)
Definition served (v : block) (b : buf) : buf := with_flags (Z.lor (Z.land (b_flags b) (Z.lnot B_DIRTY)) B_VALID) (with_data v b).

(** The memory disk with a queue of requests.  With [e] a request may fail: the
    buffer keeps its data and counts as valid, and a block that was to be
    written may hold anything. *)
Record amach := Amach { a_io : bst; a_q : list (Z * nat) }.

Definition fail_disk (b : buf) (x : block) (s : bst) : bst := if flag B_DIRTY b then set_disk (b_blockno b) x s else s.

Inductive astep (e : bool) : amach -> amach -> Prop :=
| a_call a pid i : request_ok (bufs (a_io a)) pid i -> pid ∉ (a_q a).*1 -> astep e a (Amach (a_io a) (a_q a ++ [(pid, i)]))
| a_serve a pid i q s' : a_q a = (pid, i) :: q -> iderw pid i (a_io a) = Ok (tt, s') -> astep e a (Amach s' q)
| a_fail a pid i q b x : e = true -> a_q a = (pid, i) :: q -> bufs (a_io a) !! i = Some b ->
    astep e a (Amach (set_bufs (<[i := served (b_data b) b]> (bufs (a_io a))) (fail_disk b x (a_io a))) q)
| a_other a i b : i ∉ (a_q a).*2 -> astep e a (Amach (set_bufs (<[i := b]> (bufs (a_io a))) (a_io a)) (a_q a)).

(** How the two are related. *)
Record related (m : mach) (a : amach) : Prop := {
  r_bufs : bufs (a_io a) = ibufs (io m);
  r_disk : forall n, 0 <= n < FSSIZE -> disk (a_io a) !! n = Some (media (see (ata (io m))) 1 n);
  r_head : idequeue (io m) = head (a_q a).*2;
  r_links : linked (qnext (io m)) (a_q a).*2;
  r_nodup : NoDup (a_q a).*2;
  r_len : length (qnext (io m)) = length (ibufs (io m));
  r_disk1 : havedisk1 (io m) = true;
  r_doing : match a_q a with
    | [] => at_rest (doing (see (ata (io m))))
    | (_, i) :: _ => exists b, ibufs (io m) !! i = Some b /\ doing (see (ata (io m))) = phase_of b
    end;
  r_req : forall pid i, (pid, i) ∈ a_q a -> request_ok (ibufs (io m)) pid i /\ exists z, inside m !! pid = Some (i, z);
  r_in : forall pid i z, inside m !! pid = Some (i, z) ->
    exists b, ibufs (io m) !! i = Some b /\ holdingsleep pid (b_lock b) = true /\ ((pid, i) ∈ a_q a \/ (z = false /\ idle_done b = true));
}.

Lemma holding_same pid pid' l : holdingsleep pid l = true -> holdingsleep pid' l = true -> pid = pid'.
Proof. unfold holdingsleep. rewrite !andb_true_iff. lia. Qed.

Lemma iderw_done_ok i b (s : ist D) : ibufs s !! i = Some b -> iderw_done i s = Ok (idle_done b, s).
Proof. intros Hi. unfold iderw_done, bind, ibuf. by rewrite Hi. Qed.

(** The queue has no more entries than there are buffers. *)
Lemma queue_short m a : related m a -> (length (a_q a).*2 <= length (ibufs (io m)))%nat.
Proof.
  intros R. assert (Hle : (length (a_q a).*2 <= length (seq 0 (length (ibufs (io m)))))%nat); [|by rewrite length_seq in Hle].
  apply submseteq_length, NoDup_submseteq; [apply R|]. intros j Hj. apply list_elem_of_fmap in Hj as ([p k] & -> & Hj).
  destruct (r_req _ _ R _ _ Hj) as [(b & Hb & _) _]. apply elem_of_seq. apply lookup_lt_Some in Hb. simpl in *. lia.
Qed.

(** ** Calls *)

(** A call appends the request, starts the drive if it is idle, and sleeps. *)
Lemma call_ok m a pid i : related m a -> inside m !! pid = None -> request_ok (ibufs (io m)) pid i ->
  exists s', (iderw_start pid i ;;; iderw_done i) (io m) = Ok (false, s') /\
    related (Mach s' (<[pid := (i, true)]> (inside m))) (Amach (a_io a) (a_q a ++ [(pid, i)])).
Proof.
  intros R Hout (b & Hi & Hh & Hd & Hst). pose proof (lookup_lt_Some _ _ _ Hi) as Hlt.
  assert (Hnq : i ∉ (a_q a).*2).
  { intros Hin. apply list_elem_of_fmap in Hin as ([pid' j] & -> & Hin). simpl in Hi. destruct (r_req _ _ R _ _ Hin) as [(b' & Hb' & Hh' & _) (z & Hz)].
    rewrite Hi in Hb'. injection Hb' as <-. rewrite (holding_same _ _ _ Hh Hh') in Hout. congruence. }
  unfold bind at 1. unfold Ide.iderw_start. unfold bind at 1. unfold ibuf at 1. rewrite Hi. cbn [rbind]. rewrite (bind_Ok get _ (io m) (io m) (io m) eq_refl).
  rewrite Hh, Hd, (r_disk1 _ _ R), andb_false_r. cbn [negb]. set (s1 := set_qnext (<[i := None]> (qnext (io m))) (io m)).
  rewrite (bind_Ok (put_qnext i None) _ (io m) tt s1) by (unfold put_qnext; by rewrite decide_True by (rewrite (r_len _ _ R); done)).
  destruct (append_ok i (S (length (ibufs (io m)))) (a_q a).*2 s1) as (s2 & Happ & Hhd & Hlk & Hln & Hb2 & Hh2 & Ha2).
  { apply R. } { apply linked_insert; [done|apply R]. } { apply R. } { done. } { unfold s1. simpl. apply list_lookup_insert_eq. by rewrite (r_len _ _ R). }
  { apply Nat.lt_succ_r. by apply queue_short. }
  unfold s1 in Hln, Hb2, Hh2, Ha2. simpl in Hln, Hb2, Hh2, Ha2. rewrite length_insert in Hln. rewrite (bind_Ok _ _ _ _ _ Happ). rewrite (bind_Ok (gets idequeue) _ s2 (idequeue s2) s2 eq_refl). cbn beta. rewrite Hhd.
  assert (Hrest : exists d, (if bool_decide (head ((a_q a).*2 ++ [i]) = Some i) then idestart (Some i) else ret tt) s2 = Ok (tt, set_ata d s2) /\
    media (see d) = media (see (ata (io m))) /\ match a_q a ++ [(pid, i)] with [] => at_rest (doing (see d)) | (_, j) :: _ => exists b, ibufs (io m) !! j = Some b /\ doing (see d) = phase_of b end).
  { pose proof (r_doing _ _ R) as Hdo. rewrite <- Ha2. destruct (a_q a) as [|[p j] q] eqn:Eq; simpl.
    - rewrite bool_decide_eq_true_2 by done. destruct (idestart_ok i b s2) as (d & Hd1 & Hd2 & Hd3); [by rewrite Hb2|done|rewrite Ha2; exact Hdo|]. exists d. eauto 6.
    - rewrite bool_decide_eq_false_2 by (intros [= ->]; set_solver). exists (ata s2). split; [by destruct s2|]. split; [done|]. rewrite Ha2. exact Hdo. }
  destruct Hrest as (d & -> & Hm & Hdo). cbn [rbind]. exists (set_ata d s2). split; [rewrite (iderw_done_ok i b) by (simpl; by rewrite Hb2); by rewrite Hd|].
  split; simpl; rewrite ?fmap_app, ?Hb2, ?Hm, ?Hh2; try apply R; try done.
  - simpl. apply NoDup_app. split; [apply R|]. split; [set_solver|apply NoDup_singleton].
  - rewrite Hln. apply R.
  - intros p j Hin. apply elem_of_app in Hin as [Hin|Hin].
    + destruct (r_req _ _ R _ _ Hin) as [Hr (z & Hz)]. split; [done|]. exists z. rewrite lookup_insert_ne; [done|congruence].
    + apply list_elem_of_singleton in Hin as [= -> ->]. split; [by exists b|]. exists true. by rewrite lookup_insert_eq.
  - intros p j z Hz. apply lookup_insert_Some in Hz as [[<- [= <- <-]]|[Hne Hz]].
    + exists b. split; [done|]. split; [done|]. left. apply elem_of_app. right. left.
    + destruct (r_in _ _ R _ _ _ Hz) as (b' & Hb' & Hh' & Hc). exists b'. split; [done|]. split; [done|]. destruct Hc; [left; apply elem_of_app; by left|by right].
Qed.

(** ** Interrupts *)

Lemma lor_absorb f : Z.lor (Z.land f 2) 2 = 2.
Proof. apply Z.bits_inj'. intros n _. rewrite Z.lor_spec, Z.land_spec. by destruct (Z.testbit f n), (Z.testbit 2 n). Qed.

Lemma done_flags b :
  Z.land (Z.lor (b_flags b) B_VALID) (Z.lnot B_DIRTY) = Z.lor (Z.land (b_flags b) (Z.lnot B_DIRTY)) B_VALID.
Proof. by rewrite Z.land_lor_distr_l. Qed.

Lemma clean_flags b : flag B_DIRTY b = false -> Z.land (b_flags b) (Z.lnot B_DIRTY) = b_flags b.
Proof.
  unfold flag. rewrite negb_false_iff, Z.eqb_eq. intros Hz. apply Z.bits_inj'. intros n Hn. pose proof (f_equal (fun v => Z.testbit v n) Hz) as Hb. simpl in Hb.
  rewrite Z.land_spec, Z.bits_0 in Hb. rewrite Z.land_spec, Z.lnot_spec by done. destruct (Z.testbit (b_flags b) n), (Z.testbit B_DIRTY n); done.
Qed.

Lemma served_done v b : idle_done (served v b) = true.
Proof.
  unfold idle_done, served. simpl. apply Z.eqb_eq. rewrite Z.land_lor_distr_l, <- Z.land_assoc. change (Z.land (Z.lnot B_DIRTY) (Z.lor B_VALID B_DIRTY)) with 2.
  change (Z.land B_VALID (Z.lor B_VALID B_DIRTY)) with 2. apply lor_absorb.
Qed.

Lemma with_data_same b : with_data (b_data b) b = b.
Proof. by destruct b. Qed.

(** What the memory disk does with the request. *)
Lemma memory_disk_serves pid i b (s : bst) old : bufs s !! i = Some b -> holdingsleep pid (b_lock b) = true -> idle_done b = false -> b_dev b = 1 ->
  disk s !! b_blockno b = Some old ->
  exists s', iderw pid i s = Ok (tt, s') /\ bufs s' = <[i := served (if flag B_DIRTY b then b_data b else old) b]> (bufs s) /\
    disk s' = if flag B_DIRTY b then <[b_blockno b := b_data b]> (disk s) else disk s.
Proof.
  intros Hi Hh Hd Hdev Hold. pose proof (lookup_lt_Some _ _ _ Hi) as Hlt. unfold iderw, holding_buf, bind, get_buf. rewrite Hi. simpl. rewrite Hh. simpl. rewrite Hi. simpl.
  fold (idle_done b). rewrite Hd, Hdev. simpl. rewrite Hold. destruct (flag B_DIRTY b) eqn:Ef; simpl; unfold upd_buf; rewrite Hi; simpl; rewrite list_lookup_insert_eq by done; simpl; eexists; (split; [done|]); simpl;
    rewrite list_insert_insert_eq; (split; [|done]).
  - unfold served. by rewrite with_data_same.
  - unfold served. simpl. by rewrite (clean_flags b Ef).
Qed.

(** The first part of the interrupt routine, up to the next request. *)
Definition intr_head (i : nat) : M (ist D) unit :=
  let* q := get_qnext i in
  modify (set_idequeue q) ;;;
  let* b := ibuf i in
  (if negb (flag B_DIRTY b) then
     let* r := idewait patience true in
     if 0 <=? r then
       fun s => let '(v, d) := insl 0x1f0 (BSIZE / 4) (ata s) in upd_ibuf i (with_data v) (set_ata d s)
     else ret tt
   else ret tt) ;;;
  upd_ibuf i (fun b => with_flags (Z.lor (b_flags b) B_VALID) b) ;;;
  upd_ibuf i (fun b => with_flags (Z.land (b_flags b) (Z.lnot B_DIRTY)) b).

Lemma upd_twice i (f g : buf -> buf) b (s : ist D) : ibufs s !! i = Some b ->
  (upd_ibuf i f ;;; upd_ibuf i g) s = Ok (tt, set_ibufs (<[i := g (f b)]> (ibufs s)) s).
Proof.
  intros Hi. unfold bind at 1. unfold upd_ibuf. rewrite Hi. simpl. rewrite list_lookup_insert_eq by (by eapply lookup_lt_Some). by rewrite list_insert_insert_eq.
Qed.

(** The contents with the sector of [b] set to [x], if [b] is to be written. *)
Definition media_with (b : buf) (x : block) (f : Z -> Z -> block) : Z -> Z -> block :=
  if flag B_DIRTY b then fn_insert f 1 (fn_insert (f 1) (b_blockno b) x) else f.

(** A request of [b] that ended, well or not: the data [v] of the buffer and
    the contents [f'] of the disk. *)
Definition ended (ok : bool) (f : Z -> Z -> block) (b : buf) (v : block) (f' : Z -> Z -> block) : Prop :=
  if ok then v = (if flag B_DIRTY b then b_data b else f 1 (b_blockno b)) /\ f' = media_with b (b_data b) f
  else v = b_data b /\ exists x, f' = media_with b x f.

(** What was read, or that nothing could be. *)
Lemma intr_read i b (s1 : ist D) f lba : ibufs s1 !! i = Some b -> (see (ata s1) = View f lba (Sending (lba 1 (b_blockno b))) \/ see (ata s1) = View f lba Failed) ->
  exists v d, (let* r := idewait patience true in
     if 0 <=? r then fun s => let '(v, d) := insl 0x1f0 (BSIZE / 4) (ata s) in upd_ibuf i (with_data v) (set_ata d s) else ret tt) s1 =
      Ok (tt, Ist (<[i := with_data v b]> (ibufs s1)) (qnext s1) (idequeue s1) (havedisk1 s1) d) /\ at_rest (doing (see d)) /\ media (see d) = lba /\
    v = match doing (see (ata s1)) with Failed => b_data b | _ => lba 1 (b_blockno b) end.
Proof.
  intros Hi Hcase. destruct (ata_poll (ata s1)) as (r & d0 & Hp & Hs0 & Herr); [destruct Hcase as [-> | ->]; [right; by eexists|left; by right]|].
  destruct Hcase as [Hc|Hc]; rewrite Hc in Hs0, Herr |- *; simpl in Herr.
  - destruct (ata_insl d0 (lba 1 (b_blockno b))) as (d1 & Hin & Hs1); [by rewrite Hs0|].
    assert (Hw : idewait patience true s1 = Ok (0, set_ata d0 s1)) by (unfold idewait; rewrite Hp; cbn [rbind]; by rewrite Herr).
    rewrite (bind_Ok _ _ _ _ _ Hw). change (0 <=? 0) with true. cbn iota. cbn [set_ata ata]. change (BSIZE / 4) with 128. rewrite Hin. unfold upd_ibuf. simpl. rewrite Hi.
    exists (lba 1 (b_blockno b)), d1. split; [done|]. rewrite Hs1, Hs0. split; [by left|done].
  - assert (Hw : idewait patience true s1 = Ok (-1, set_ata d0 s1)) by (unfold idewait; rewrite Hp; cbn [rbind]; by apply Z.eqb_neq in Herr as ->).
    rewrite (bind_Ok _ _ _ _ _ Hw). change (0 <=? -1) with false. cbn iota. exists (b_data b), d0. rewrite with_data_same, list_insert_id by done. split; [by destruct s1|].
    rewrite Hs0. split; [by right|done].
Qed.

Lemma intr_head_ok i b nxt (s : ist D) : qnext s !! i = Some nxt -> ibufs s !! i = Some b -> doing (see (ata s)) = phase_of b ->
  exists ok v d, intr_head i (set_ata (finish (ata s)) s) = Ok (tt, Ist (<[i := served v b]> (ibufs s)) (qnext s) nxt (havedisk1 s) d) /\
    at_rest (doing (see d)) /\ (ok = false -> doing (see (finish (ata s))) = Failed) /\ ended ok (media (see (ata s))) b v (media (see d)).
Proof.
  intros Hq Hi Hd. unfold intr_head. rewrite (bind_Ok (get_qnext i) _ _ nxt (set_ata (finish (ata s)) s)) by (unfold get_qnext; simpl; by rewrite Hq).
  rewrite (bind_Ok (modify _) _ _ tt (set_idequeue nxt (set_ata (finish (ata s)) s)) eq_refl). set (s1 := set_idequeue _ _).
  rewrite (bind_Ok (ibuf i) _ s1 b s1) by (unfold ibuf; simpl; by rewrite Hi). unfold phase_of in Hd. unfold ended, media_with. destruct (flag B_DIRTY b) eqn:Ef; cbn [negb].
  - rewrite (bind_Ok (ret tt) _ s1 tt s1 eq_refl). rewrite (upd_twice i _ _ b) by done. destruct (ata_finish_write _ _ _ _ Hd) as [Hs|(x & Hs)].
    + exists true, (b_data b), (finish (ata s)). rewrite Hs. split; [unfold served; simpl; by rewrite (done_flags b), with_data_same|]. split; [by left|done].
    + exists false, (b_data b), (finish (ata s)). rewrite Hs. split; [unfold served; simpl; by rewrite (done_flags b), with_data_same|]. split; [by right|]. split; [done|]. split; [done|by exists x].
  - destruct (intr_read i b s1 (reg (see (ata s))) (media (see (ata s))) Hi (ata_finish_read _ _ _ Hd)) as (v & d & Hrun & Hrest & Hm & Hv).
    rewrite (bind_Ok _ _ _ _ _ Hrun), (upd_twice i _ _ (with_data v b)) by (simpl; apply list_lookup_insert_eq; by eapply lookup_lt_Some).
    assert (Hserved : with_flags (Z.land (Z.lor (b_flags b) B_VALID) (Z.lnot B_DIRTY)) (with_flags (Z.lor (b_flags b) B_VALID) (with_data v b)) = served v b)
      by (unfold served; simpl; by rewrite Z.land_lor_distr_l).
    simpl. rewrite list_insert_insert_eq, Hserved. cbn [s1 set_idequeue set_ata ata] in Hv. destruct (ata_finish_read _ _ _ Hd) as [Hs|Hs]; rewrite Hs in Hv |- *; subst v.
    + exists true. eexists _, d. split; [done|]. done.
    + exists false. eexists _, d. split; [done|]. split; [done|]. split; [done|]. split; [done|]. exists []. done.
Qed.

Lemma ideintr_head i (s : ist D) : idequeue s = Some i ->
  ideintr s = (intr_head i ;;; let* q := gets idequeue in (if q then idestart q else ret tt) ;;; ret (Some i)) s.
Proof.
  intros Hq. unfold Ide.ideintr. rewrite (bind_Ok (gets idequeue) _ s (Some i) s) by (unfold gets; by rewrite Hq). unfold intr_head, bind, rbind.
  repeat (case_match; simplify_eq; try done).
Qed.

Lemma wake_all_Some i w pid j z : wake_all i w !! pid = Some (j, z) <-> exists z', w !! pid = Some (j, z') /\ z = if decide (j = i) then false else z'.
Proof.
  unfold wake_all. rewrite lookup_fmap, fmap_Some. split; [intros ([k z'] & Hw & [= -> ->]); eauto|intros (z' & Hw & ->); exists (j, z'); done].
Qed.

(** What the memory disk does when the request has ended the same way. *)
Lemma memory_disk_ends ok m a pid i q b v f' : related m a -> a_q a = (pid, i) :: q -> request_ok (ibufs (io m)) pid i -> ibufs (io m) !! i = Some b ->
  ended ok (media (see (ata (io m)))) b v f' ->
  exists st', (forall e, (ok = false -> e = true) -> astep e a (Amach st' q)) /\ bufs st' = <[i := served v b]> (ibufs (io m)) /\
    forall n, 0 <= n < FSSIZE -> disk st' !! n = Some (f' 1 n).
Proof.
  intros R Eq (b0 & Hi0 & Hh & Hd & Hdev & Hbn & _) Hi He. rewrite Hi in Hi0. injection Hi0 as <-.
  assert (Hwr : forall x (dk : gmap Z block), (forall n, 0 <= n < FSSIZE -> dk !! n = Some (media (see (ata (io m))) 1 n)) -> forall n, 0 <= n < FSSIZE ->
    (if flag B_DIRTY b then <[b_blockno b := x]> dk else dk) !! n = Some (media_with b x (media (see (ata (io m)))) 1 n)).
  { intros x dk Hdk n Hn. unfold media_with. destruct (flag B_DIRTY b); [|by apply Hdk]. unfold fn_insert at 1. change (1 =? 1) with true. cbn iota. unfold fn_insert. destruct (Z.eqb_spec n (b_blockno b)) as [-> |Hne].
    - by rewrite lookup_insert_eq.
    - rewrite lookup_insert_ne by done. by apply Hdk. }
  destruct ok; simpl in He.
  - destruct He as [-> ->]. destruct (memory_disk_serves pid i b (a_io a) (media (see (ata (io m))) 1 (b_blockno b))) as (st' & Hst' & Hbufs & Hdisk); [by rewrite (r_bufs _ _ R)|done|done|done|by apply R|].
    exists st'. split; [intros e _; by eapply a_serve|]. rewrite Hbufs, (r_bufs _ _ R). split; [done|]. intros n Hn. rewrite Hdisk. apply Hwr; [apply R|done].
  - destruct He as [-> (x & ->)]. eexists. split; [intros e He; eapply (a_fail e a pid i q b x); [by apply He|done|by rewrite (r_bufs _ _ R)]|].
    split; [simpl; by rewrite (r_bufs _ _ R)|]. intros n Hn. simpl. rewrite <- (Hwr x (disk (a_io a)) (r_disk _ _ R) n Hn). unfold fail_disk. by destruct (flag B_DIRTY b).
Qed.

(** An interrupt serves the first request as the memory disk would, wakes its
    process and starts the next one. *)
Lemma intr_ok m a pid i q : related m a -> a_q a = (pid, i) :: q ->
  exists s' st', ideintr (set_ata (finish (ata (io m))) (io m)) = Ok (Some i, s') /\
    (forall e, (e = false -> doing (see (finish (ata (io m)))) <> Failed) -> astep e a (Amach st' q)) /\
    related (Mach s' (wake_all i (inside m))) (Amach st' q).
Proof.
  intros R Eq. destruct (r_req _ _ R pid i) as [Hreq _]; [rewrite Eq; left|]. pose proof Hreq as (b & Hi & Hh & Hd & Hst).
  pose proof (r_links _ _ R) as Hlk. pose proof (r_nodup _ _ R) as Hnd. pose proof (r_doing _ _ R) as Hdo. pose proof (r_head _ _ R) as Hhd. rewrite Eq in Hlk, Hnd, Hdo, Hhd. simpl in Hlk, Hnd, Hdo, Hhd.
  destruct Hdo as (b0 & Hb0 & Hdo). rewrite Hi in Hb0. injection Hb0 as <-. destruct Hlk as [Hqi Hlk]. apply NoDup_cons in Hnd as [Hiq Hnd].
  destruct (intr_head_ok i b _ (io m) Hqi Hi Hdo) as (ok & v & d & Hrun & Hidle & Hfail & Hend). set (b' := served v b) in *.
  destruct (memory_disk_ends ok m a pid i q b v _ R Eq Hreq Hi Hend) as (st' & Hst' & Hbufs & Hdisk).
  set (s1 := Ist _ _ _ _ d) in Hrun.
  assert (Hothers : forall j, j ∈ q.*2 -> ibufs s1 !! j = ibufs (io m) !! j) by (intros j Hj; unfold s1; simpl; rewrite list_lookup_insert_ne; [done|intros ->; done]).
  assert (Hnext : exists d', (let* o := gets idequeue in (if o then idestart o else ret tt) ;;; ret (Some i)) s1 = Ok (Some i, set_ata d' s1) /\ media (see d') = media (see d) /\
    match q with [] => at_rest (doing (see d')) | (_, j) :: _ => exists b, ibufs s1 !! j = Some b /\ doing (see d') = phase_of b end).
  { rewrite (bind_Ok (gets idequeue) _ s1 (head q.*2) s1 eq_refl). destruct q as [|[p j] q]; simpl head; cbn iota.
    - exists d. split; [done|]. done.
    - destruct (r_req _ _ R p j) as [(b2 & Hj & _ & _ & Hst2) _]; [rewrite Eq; right; left|]. rewrite <- (Hothers j ltac:(left)) in Hj.
      destruct (idestart_ok j b2 s1 Hj Hst2 Hidle) as (d' & Hrun' & Hm' & Hd'). exists d'. rewrite (bind_Ok _ _ _ _ _ Hrun'). eauto 6. }
  destruct Hnext as (d' & Hrun' & Hm' & Hd').
  exists (set_ata d' s1), st'. split; [rewrite (ideintr_head i) by done; rewrite (bind_Ok _ _ _ _ _ Hrun); exact Hrun'|].
  split; [intros e He; apply Hst'; intros Hok; destruct e; [done|]; by destruct (He eq_refl (Hfail Hok))|].
  split; simpl; try done.
  - intros n Hn. rewrite Hm'. by apply Hdisk.
  - rewrite length_insert. apply R.
  - apply R.
  - intros p j Hin. assert (Hj : j ∈ q.*2) by (apply list_elem_of_fmap; by exists (p, j)). destruct (r_req _ _ R p j) as [(b2 & Hb2 & Hrest) (z & Hz)]; [rewrite Eq; by right|].
    split; [exists b2; split; [by rewrite <- Hb2; apply Hothers|done]|]. assert (j <> i) by (intros ->; done). exists z. apply wake_all_Some. exists z. by rewrite decide_False.
  - intros p j z Hz. apply wake_all_Some in Hz as (z' & Hz & ->). destruct (r_in _ _ R _ _ _ Hz) as (b2 & Hb2 & Hh2 & Hc). destruct (decide (j = i)) as [->|Hne].
    + rewrite Hi in Hb2. injection Hb2 as <-. exists b'. rewrite list_lookup_insert_eq by (by eapply lookup_lt_Some). split; [done|]. split; [done|]. right. split; [done|apply served_done].
    + exists b2. rewrite list_lookup_insert_ne by done. split; [done|]. split; [done|]. destruct Hc as [Hc|Hc]; [|by right]. left. rewrite Eq in Hc. apply elem_of_cons in Hc as [[= -> ->]|Hc]; done.
Qed.

(** ** The simulation *)

Lemma related_step e m m' a : related m a -> mstep e m m' -> exists a', rtc (astep e) a a' /\ related m' a'.
Proof.
  intros R Hs. revert R. destruct Hs as [m pid i done s' Hout Hreq Hrun|m w s' Hbusy Hgood Hrun|m pid i done s' Hin Hrun|m pid i Hin|m i b Hno]; intros R.
  - destruct (call_ok m a pid i R Hout Hreq) as (s1 & Hrun1 & R1). rewrite Hrun in Hrun1. injection Hrun1 as -> <-. eexists. split; [|exact R1]. apply rtc_once. apply a_call; [by rewrite (r_bufs _ _ R)|].
    intros Hp. apply list_elem_of_fmap in Hp as ([p j] & -> & Hp). destruct (r_req _ _ R _ _ Hp) as [_ (z & Hz)]. simpl in Hout. congruence.
  - pose proof (r_doing _ _ R) as Hdo. destruct (a_q a) as [|[pid i] q] eqn:Eq; [done|]. destruct (intr_ok m a pid i q R Eq) as (s1 & st' & Hrun1 & Hmem & R1).
    rewrite Hrun in Hrun1. injection Hrun1 as -> <-. eexists. split; [|exact R1]. apply rtc_once. by apply Hmem.
  - destruct (r_in _ _ R _ _ _ Hin) as (b & Hb & Hh & Hc). rewrite (iderw_done_ok i b _ Hb) in Hrun. injection Hrun as <- <-. exists a. split; [done|].
    destruct (idle_done b) eqn:Ed; (split; try apply R); simpl.
    + intros p j Hp. destruct (r_req _ _ R _ _ Hp) as [Hr (z & Hz)]. split; [done|]. exists z. rewrite lookup_delete_ne; [done|]. intros ->. rewrite Hin in Hz. injection Hz as -> <-.
      destruct Hr as (b2 & Hb2 & _ & Hd2 & _). congruence.
    + intros p j z Hz. apply lookup_delete_Some in Hz as [_ Hz]. by apply (r_in _ _ R).
    + intros p j Hp. destruct (r_req _ _ R _ _ Hp) as [Hr (z & Hz)]. split; [done|]. destruct (decide (p = pid)) as [->|Hne]; [rewrite Hin in Hz; injection Hz as <- _; exists true; by rewrite lookup_insert_eq|exists z; by rewrite lookup_insert_ne].
    + intros p j z Hz. apply lookup_insert_Some in Hz as [[<- [= <- <-]]|[_ Hz]]; [|by apply (r_in _ _ R)]. exists b. split; [done|]. split; [done|]. destruct Hc as [Hc|[_ Hc]]; [by left|congruence].
  - exists a. split; [done|]. split; try apply R; simpl.
    + intros p j Hp. destruct (r_req _ _ R _ _ Hp) as [Hr (z & Hz)]. split; [done|]. destruct (decide (p = pid)) as [->|Hne]; [rewrite Hin in Hz; injection Hz as <- _; exists false; by rewrite lookup_insert_eq|exists z; by rewrite lookup_insert_ne].
    + intros p j z Hz. apply lookup_insert_Some in Hz as [[<- [= <- <-]]|[_ Hz]]; [|by apply (r_in _ _ R)]. destruct (r_in _ _ R _ _ _ Hin) as (b & Hb & Hh & Hc). exists b. split; [done|]. split; [done|]. destruct Hc as [Hc|[Hc _]]; [by left|done].
  - assert (Hiq : i ∉ (a_q a).*2). { intros Hi. apply list_elem_of_fmap in Hi as ([p j] & -> & Hi). destruct (r_req _ _ R _ _ Hi) as [_ (z & Hz)]. by apply (Hno p z). }
    assert (Hsame : forall j, j <> i -> <[i := b]> (ibufs (io m)) !! j = ibufs (io m) !! j) by (intros j Hj; by rewrite list_lookup_insert_ne).
    eexists. split; [apply rtc_once, (a_other e a i b Hiq)|]. split; simpl; try apply R.
    + by rewrite (r_bufs _ _ R).
    + rewrite length_insert. apply R.
    + pose proof (r_doing _ _ R) as Hdo. destruct (a_q a) as [|[p j] q] eqn:Eq; [done|]. rewrite Hsame; [done|]. intros ->. set_solver.
    + intros p j Hp. destruct (r_req _ _ R _ _ Hp) as [(b2 & Hb2 & Hr) Hz]. split; [|done]. exists b2. split; [|done]. rewrite Hsame; [done|]. intros ->. apply Hiq. apply list_elem_of_fmap. by exists (p, i).
    + intros p j z Hz. destruct (r_in _ _ R _ _ _ Hz) as (b2 & Hb2 & Hr). exists b2. split; [|done]. rewrite Hsame; [done|]. intros ->. by apply (Hno p z).
Qed.

End props.

(** The machine before the first request. *)
Definition quiet_mach {D} `{Ata D} (m : mach (D := D)) : Prop :=
  inside m = ∅ /\ idequeue (io m) = None /\ length (qnext (io m)) = length (ibufs (io m)) /\ havedisk1 (io m) = true /\ at_rest (doing (see (ata (io m)))).

Definition same_disk {D} `{Ata D} (m : mach (D := D)) (s : bst) : Prop :=
  bufs s = ibufs (io m) /\ forall n, 0 <= n < FSSIZE -> disk s !! n = Some (media (see (ata (io m))) 1 n).

Lemma related_start {D} `{AtaLaws D patience} (m : mach (D := D)) s : quiet_mach m -> same_disk m s -> related m (Amach s []).
Proof.
  intros (Hin & Hq & Hlen & Hd1 & Hidle) [Hbufs Hdisk].
  split; simpl; try done; [constructor|intros pid i Hp; by apply elem_of_nil in Hp|]. intros pid i z Hz. by rewrite Hin in Hz.
Qed.

(** C35: with a drive that keeps the promises of its
    interface, any interleaving of requests, interrupts and wakeups of any
    number of processes gives the buffers and the disk that the memory disk
    gives when it serves the requests one after the other, in the order in
    which they were made.  If commands may fail ([e] is true), so may the
    requests of the memory disk, and then the driver reads no data: the
    buffer keeps what it held, and is marked valid all the same.  A request is
    never refused or lost: the drive is busy as long as there is one, its
    interrupt ends the first and starts the next, also after a failure, a
    process sleeps only while its request is queued, and it returns only when
    its request has ended. *)
Theorem ide_refines_memory_disk {D} `{AtaLaws D patience} e m0 s0 m :
  quiet_mach m0 -> same_disk m0 s0 -> rtc (mstep (D := D) (patience := patience) e) m0 m ->
  exists a, rtc (astep e) (Amach s0 []) a /\ same_disk m (a_io a) /\
    (forall pid i, inside m !! pid = Some (i, true) -> (pid, i) ∈ a_q a) /\
    (forall pid i s', (pid, i) ∈ a_q a -> iderw_done i (io m) <> Ok (true, s')) /\
    (forall pid i, inside m !! pid = None -> request_ok (ibufs (io m)) pid i ->
       exists s', (iderw_start patience pid i ;;; iderw_done i) (io m) = Ok (false, s')) /\
    (forall pid i q, a_q a = (pid, i) :: q -> ~ at_rest (doing (see (ata (io m)))) /\
       exists s', ideintr patience (set_ata (finish (ata (io m))) (io m)) = Ok (Some i, s')).
Proof.
  intros Hq0 Hs0 Hr. pose proof (related_start m0 s0 Hq0 Hs0) as R0.
  assert (Hsim : exists a, rtc (astep e) (Amach s0 []) a /\ related m a).
  { revert R0. generalize (Amach s0 []). clear -Hr H0. induction Hr as [m|m m1 m2 Hs _ IH]; intros a R0; [by exists a|].
    destruct (related_step e m m1 a R0 Hs) as (a1 & Ha1 & R1). destruct (IH a1 R1) as (a2 & Ha2 & R2). exists a2. split; [by etransitivity|done]. }
  destruct Hsim as (a & Ha & R). exists a. split; [done|]. split; [split; apply R|]. split; [|split; [|split]].
  - intros pid i Hz. destruct (r_in _ _ R _ _ _ Hz) as (b & _ & _ & [Hc|[Hc _]]); done.
  - intros pid i s' Hp. destruct (r_req _ _ R _ _ Hp) as [(b & Hb & _ & Hd & _) _]. rewrite (iderw_done_ok i b _ Hb), Hd. done.
  - intros pid i Hout Hreq. destruct (call_ok m a pid i R Hout Hreq) as (s' & Hrun & _). eauto.
  - intros pid i q Eq. destruct (intr_ok m a pid i q R Eq) as (s' & _ & Hrun & _). split; [|eauto]. pose proof (r_doing _ _ R) as Hdo. rewrite Eq in Hdo.
    destruct Hdo as (b & _ & ->). unfold phase_of. intros [Hc|Hc]; by destruct (flag B_DIRTY b).
Qed.

(** A drive whose sector 13 is bad, and a machine in which one process writes a
    block and another reads the bad one. *)
#[export] Instance demo_ata : Ata view := {|
  inb p d := (match doing d with Failed => Z.lor IDE_DRDY IDE_ERR | _ => IDE_DRDY end, d);
  outb p v d :=
    if (0x1f2 <=? p) && (p <=? 0x1f6) then View (fn_insert (reg d) p v) (media d) (doing d)
    else if p =? 0x1f7 then
      match doing d with
      | Idle | Failed => View (reg d) (media d) (if v =? IDE_CMD_READ then Reading (drv_of (reg d)) (lba_of (reg d)) else Filling (drv_of (reg d)) (lba_of (reg d)))
      | _ => d
      end
    else d;
  outsl p b d := match doing d with Filling drv lba => View (reg d) (media d) (Writing drv lba b) | _ => d end;
  insl p n d := match doing d with Sending b => (b, View (reg d) (media d) Idle) | _ => ([], d) end;
  finish d :=
    match doing d with
    | Reading drv lba => View (reg d) (media d) (if lba =? 13 then Failed else Sending (media d drv lba))
    | Writing drv lba b => View (reg d) (fn_insert (media d) drv (fn_insert (media d drv) lba b)) (if lba =? 13 then Failed else Idle)
    | _ => d
    end;
  see d := d
|}.

#[export] Instance demo_ata_laws : AtaLaws view 1.
Proof.
  split; simpl.
  - intros d _. destruct (doing d); eexists _, d; (split; [reflexivity|done]).
  - intros p v d Hp. by rewrite (proj2 (Z.leb_le 498 p)), (proj2 (Z.leb_le p 502)) by lia.
  - done.
  - intros d [Hd|Hd] _; by rewrite Hd.
  - intros d [Hd|Hd] _; by rewrite Hd.
  - intros d drv lba b Hd _. by rewrite Hd.
  - intros d drv lba Hd. rewrite Hd. destruct (lba =? 13); auto.
  - intros d drv lba b Hd. rewrite Hd. destruct (lba =? 13); eauto.
  - intros d b Hd. rewrite Hd. by eexists.
Qed.

Definition demo_ibufs : list buf := [Buf B_DIRTY 1 5 (Sleeplock 1 7) 1 (replicate 512 9); Buf 0 1 13 (Sleeplock 1 8) 1 (replicate 512 0)].
Definition demo_mach : mach (D := view) := Mach (Ist demo_ibufs [None; None] None true (View (fun _ => 0) (fun _ _ => replicate 512 0) Idle)) ∅.
Definition demo_bst : bst := Bst demo_ibufs [0%nat; 1%nat] (list_to_map ((fun n => (Z.of_nat n, replicate 512 0)) <$> seq 0 (Z.to_nat FSSIZE))) [].

Lemma demo_disk n : 0 <= n < FSSIZE -> disk demo_bst !! n = Some (replicate 512 0).
Proof.
  intros Hn. unfold demo_bst. cbn [disk]. apply elem_of_list_to_map_1.
  - rewrite <- list_fmap_compose. apply NoDup_fmap; [intros x y; simpl; lia|apply NoDup_seq].
  - apply list_elem_of_fmap. exists (Z.to_nat n). split; [by rewrite Z2Nat.id by lia|]. apply elem_of_seq. unfold FSSIZE in *. lia.
Qed.

Lemma demo_same : same_disk demo_mach demo_bst.
Proof. split; [reflexivity|]. intros n Hn. by apply demo_disk. Qed.

Lemma demo_request : request_ok (ibufs (io demo_mach)) 8 1.
Proof. eexists. split; [reflexivity|]. split; [reflexivity|]. split; [reflexivity|]. split; [reflexivity|]. split; [unfold FSSIZE; simpl; lia|reflexivity]. Qed.

Lemma ide_refines_memory_disk_witness : exists m a, rtc (astep true) (Amach demo_bst []) a /\ same_disk m (a_io a) /\ inside m !! 8 = Some (1%nat, false).
Proof.
  assert (Hq : quiet_mach demo_mach) by (repeat split; by left).
  destruct (call_ok (patience := 1) demo_mach (Amach demo_bst []) 8 1 (related_start demo_mach demo_bst Hq demo_same) eq_refl demo_request) as (s1 & Hrun & R1).
  set (m1 := Mach s1 (<[8 := (1%nat, true)]> ∅)). destruct (intr_ok m1 _ 8 1 [] R1 eq_refl) as (s2 & st & Hintr & _).
  set (m2 := Mach s2 (wake_all 1 (inside m1))).
  destruct (ide_refines_memory_disk (patience := 1) true demo_mach demo_bst m2 Hq demo_same) as (a & Ha & Hs & _).
  - apply (rtc_l _ _ m1); [exact (m_call true demo_mach 8 1 false s1 eq_refl demo_request Hrun)|]. apply rtc_once.
    refine (m_intr true m1 (Some 1%nat) s2 _ _ Hintr); [|done]. destruct (r_doing _ _ R1) as (b & _ & Hd). unfold m1. cbn [io] in Hd |- *. rewrite Hd.
    unfold phase_of. intros [Hc|Hc]; by destruct (flag B_DIRTY b).
  - exists m2, a. split; [exact Ha|]. split; [exact Hs|]. unfold m2, m1. cbn [inside]. apply wake_all_Some. exists true. by rewrite lookup_insert_eq.
Defined.
