(* ===== verification/Exec.v ===== *)
(** * exec

    Models [exec.c] with the headers of [elf.h]: the new address space is
    built beside the old one, the program read from its file inside one
    transaction, the arguments pushed on the new stack, and only then the
    process given the new space.  Strings are their characters without the
    terminating zero; an argument vector ends where the list ends. *)

From S2P Require Import Prelude Spinlock Mmu Kalloc Console CString Block Bio Log Fs Vm Sysfile.

(** What [exec] changes of the current process. *)
Record uproc := Uproc {
  u_pgdir : Z;
  u_sz : Z;
  u_eip : Z;                    (* tf->eip *)
  u_esp : Z;                    (* tf->esp *)
  u_name : list Z;
  u_cwd : nat;
  u_kstack : Z
}.

(** The memory, the console output, the file system, the process, and of the
    processor [cr3] and the kernel stack pointer for traps, [ts.esp0]. *)
Record xst := Xst { xk : kst; xout : list Z; xf : fsys; xp : uproc; xregs : Z * Z }.

Definition on_xk {A} (c : M kst A) : M xst A := zoom xk (fun k s => Xst k (xout s) (xf s) (xp s) (xregs s)) c.
Definition on_xv {A} (c : M vst A) : M xst A := zoom (fun s => Vst (xk s) (xout s)) (fun v s => Xst (vk v) (vout v) (xf s) (xp s) (xregs s)) c.
Definition on_xf {A} (c : M fsys A) : M xst A := zoom xf (fun f s => Xst (xk s) (xout s) f (xp s) (xregs s)) c.
Definition on_xkf {A} (c : M (kst * fsys) A) : M xst A := zoom (fun s => (xk s, xf s)) (fun v s => Xst (fst v) (xout s) (snd v) (xp s) (xregs s)) c.
Definition set_xp v s := Xst (xk s) (xout s) (xf s) v (xregs s).
Definition set_xregs v s := Xst (xk s) (xout s) (xf s) (xp s) v.

(** ** Headers *)

Definition ELF_MAGIC : Z := 0x464C457F.
Definition ELF_PROG_LOAD : Z := 1.

(** [struct elfhdr] *)
Definition ELFHDR : Z := 52.
Definition e_magic (b : list Z) : Z := field 0 4 b.
Definition e_entry (b : list Z) : Z := field 24 4 b.
Definition e_phoff (b : list Z) : Z := field 28 4 b.
Definition e_phnum (b : list Z) : Z := field 44 2 b.

(** [struct proghdr] *)
Definition PROGHDR : Z := 32.
Definition ph_type (b : list Z) : Z := field 0 4 b.
Definition ph_off (b : list Z) : Z := field 4 4 b.
Definition ph_vaddr (b : list Z) : Z := field 8 4 b.
Definition ph_filesz (b : list Z) : Z := field 16 4 b.
Definition ph_memsz (b : list Z) : Z := field 20 4 b.

Section code.

Context (me kend kdata : Z) (devsw : Z -> devops).

Notation allocuvm := (allocuvm kend).

(** The segment of the header [ph], if it is to be loaded: the new size, or
    [None] for [goto bad]. *)
Definition load_segment (ph : list Z) (ip : nat) (pgdir sz : Z) : M xst (option Z) :=
  if negb (ph_type ph =? ELF_PROG_LOAD) then ret (Some sz)
  else if ph_memsz ph <? ph_filesz ph then ret None
  else if u32 (ph_vaddr ph + ph_memsz ph) <? ph_vaddr ph then ret None
  else
    let* sz := on_xv (allocuvm pgdir sz (u32 (ph_vaddr ph + ph_memsz ph))) in
    if sz =? 0 then ret None
    else if negb (ph_vaddr ph mod PGSIZE =? 0) then ret None
    else
      let* r := on_xkf (loaduvm me devsw pgdir (ph_vaddr ph) ip (ph_off ph) (ph_filesz ph)) in
      if r <? 0 then ret None else ret (Some sz).

(** The loop that loads the program: [n] headers are left, [off] is where the
    next one is in the file. *)
Fixpoint load_segments (n : nat) (ip : nat) (pgdir off sz : Z) : M xst (option Z) :=
  match n with
  | O => ret (Some sz)
  | S n =>
      let* r := on_xf (readi me devsw ip (u32 off) PROGHDR) in
      if negb (fst r =? PROGHDR) then ret None
      else
        let* sz := load_segment (snd r) ip pgdir sz in
        match sz with
        | None => ret None
        | Some sz => load_segments n ip pgdir (i32 (off + PROGHDR)) sz
        end
  end.

(** The loop over the arguments: the stack pointer and the pointers for
    [ustack]. *)
Fixpoint push_args (argv : list (list Z)) (argc : nat) (pgdir sp : Z) (ptrs : list Z) : M xst (option (Z * list Z)) :=
  match argv with
  | [] => ret (Some (sp, ptrs))
  | s :: argv =>
      if decide (MAXARG <= argc)%nat then ret None
      else
        let sp := Z.land (u32 (sp - (Z.of_nat (length s) + 1))) (Z.lnot 3) in
        let* r := on_xk (copyout pgdir sp (s ++ [0])) in
        if r <? 0 then ret None
        else push_args argv (S argc) pgdir sp (ptrs ++ [sp])
  end.

(** [ustack], from the stack pointer behind the strings. *)
Definition ustack (sp : Z) (ptrs : list Z) : list Z :=
  let argc := Z.of_nat (length ptrs) in
  [0xffffffff; argc; u32 (sp - (argc + 1) * 4)] ++ ptrs ++ [0].

(** The loop over [path] that finds the last element. *)
Fixpoint last_elem (s last : list Z) : list Z :=
  match s with
  | [] => last
  | c :: s => if c =? 47 then last_elem s s else last_elem s last
  end.

(** [switchuvm] for the current process.  Of the task state segment [esp0] is
    modelled; interrupts are as before after [popcli]. *)
Definition switchuvm_ : M xst unit :=
  let* p := gets xp in
  if u_kstack p =? 0 then panic "switchuvm: no kstack"
  else if u_pgdir p =? 0 then panic "switchuvm: no pgdir"
  else
    let* pa := lift (V2P (u_pgdir p)) in
    modify (set_xregs (pa, u32 (u_kstack p + KSTACKSIZE))).

(** The end of [exec]: [bad], [pgdir] 0 if there is none. *)
Definition bad (pgdir : Z) (ip : option nat) : M xst Z :=
  (if pgdir =? 0 then ret tt else on_xk (freevm kend pgdir)) ;;;
  match ip with
  | Some ip => on_xf (iunlockput me ip) ;;; on_xf (on_lo (end_op me)) ;;; ret (-1)
  | None => ret (-1)
  end.

(** From the commit on. *)
Definition commit_image (path : list Z) (pgdir sz entry sp : Z) : M xst Z :=
  let* p := gets xp in
  let* name := lift (KString.safestrcpy (u_name p) 0 (last_elem path path ++ [0]) 0 16) in
  modify (set_xp (Uproc pgdir sz entry sp name (u_cwd p) (u_kstack p))) ;;;
  switchuvm_ ;;;
  on_xk (freevm kend (u_pgdir p)) ;;;
  ret 0.

(** From the stack on. *)
Definition build_stack (path : list Z) (argv : list (list Z)) (pgdir sz entry : Z) : M xst Z :=
  let sz := PGROUNDUP sz in
  let* sz := on_xv (allocuvm pgdir sz (u32 (sz + 2 * PGSIZE))) in
  if sz =? 0 then bad pgdir None
  else
    on_xk (clearpteu pgdir (u32 (sz - 2 * PGSIZE))) ;;;
    let* a := push_args argv 0 pgdir sz [] in
    match a with
    | None => bad pgdir None
    | Some (sp, ptrs) =>
        let sp' := u32 (sp - (3 + Z.of_nat (length ptrs) + 1) * 4) in
        let* r := on_xk (copyout pgdir sp' (mjoin (le_enc 4 <$> ustack sp ptrs))) in
        if r <? 0 then bad pgdir None
        else commit_image path pgdir sz entry sp'
    end.

(** From the lock on the inode on. *)
Definition exec_file (path : list Z) (argv : list (list Z)) (ip : nat) : M xst Z :=
  let* r := on_xf (readi me devsw ip 0 ELFHDR) in
  let elf := snd r in
  if negb (fst r =? ELFHDR) then bad 0 (Some ip)
  else if negb (e_magic elf =? ELF_MAGIC) then bad 0 (Some ip)
  else
    let* pgdir := on_xk (setupkvm kend kdata) in
    if pgdir =? 0 then bad 0 (Some ip)
    else
      let* r := load_segments (Z.to_nat (e_phnum elf)) ip pgdir (i32 (e_phoff elf)) 0 in
      match r with
      | None => bad pgdir (Some ip)
      | Some sz =>
          on_xf (iunlockput me ip) ;;;
          on_xf (on_lo (end_op me)) ;;;
          build_stack path argv pgdir sz (e_entry elf)
      end.

Definition exec (path : list Z) (argv : list (list Z)) : M xst Z :=
  let* p := gets xp in
  on_xf (on_lo begin_op) ;;;
  let* ip := on_xf (namei me devsw (u_cwd p) (path ++ [0]) 0) in
  match ip with
  | None =>
      on_xf (on_lo (end_op me)) ;;;
      on_xv (vprint (codes "exec: fail
")) ;;;
      ret (-1)
  | Some ip =>
      on_xf (ilock me (Some ip)) ;;;
      exec_file path argv ip
  end.

End code.
