(* ===== verification/ExecSpace.v ===== *)
(** * The address space that exec builds

    What [setupkvm], [allocuvm], [clearpteu] and [copyout] do to an address
    space under construction: its user pages are the first ones, taken from
    the pages that were free when the construction began. *)

From S2P Require Import Prelude Spinlock Mmu Kalloc Console Block Fs Vm VmPt VmMap VmKern VmUser VmCopy.

#[local] Opaque kernel_map.

(** The number of pages for [sz] bytes. *)
Definition pages_for (sz : Z) : Z := (sz + PGSIZE - 1) / PGSIZE.

Section space.

Context (kend kdata : Z).

Hypothesis kend_above : KERNBASE < kend.
Hypothesis kdata_page : kdata mod PGSIZE = 0.
Hypothesis kdata_range : KERNLINK < kdata < KERNBASE + PHYSTOP.

(** Page [g] is the guard page, if there is one. *)
Definition page_perm (g w : Z) : Z := if decide (w = g) then PTE_W else Z.lor PTE_W PTE_U.

(** The directory [d] maps [n] user pages, with content [img], and the kernel;
    it was made from the free pages [free0], of which [free] are left. *)
Record space (g : Z) (free0 : list Z) (d n : Z) (img : Z -> Z) (s : kst) (tabs pm : gmap Z Z) (free : list Z) : Prop := {
  sp_vm : vm kend s d tabs pm free;
  sp_size : 0 <= n <= UPAGES;
  sp_user : forall w, 0 <= w < n -> exists a, pm !! w = Some (mkpte (a - KERNBASE) (page_perm g w)) /\ page_ok kend a;
  sp_rest : forall w, ~ (0 <= w < n) -> pm !! w = kernel_pte kdata w;
  sp_dom : forall i, is_Some (tabs !! i) -> i ∈ kernel_dirs ++ user_dirs n;
  sp_count : length (upages pm) = Z.to_nat n;
  sp_perm : owned d tabs pm ++ free ≡ₚ free0;
  sp_bytes : forall x, 0 <= x < n * PGSIZE -> ubyte (pages s) pm x = Some (img x)
}.

(** The directory and what it owns are of the pages [free0], whatever it maps. *)
Definition loose (free0 : list Z) (d : Z) (s : kst) : Prop :=
  exists tabs pm free, vm kend s d tabs pm free /\ owned d tabs pm ++ free ≡ₚ free0.

Lemma space_loose g free0 d n img s tabs pm free : space g free0 d n img s tabs pm free -> loose free0 d s.
Proof. intros S. exists tabs, pm, free. split; apply S. Qed.

Lemma space_img g free0 d n img img' s tabs pm free :
  space g free0 d n img s tabs pm free -> (forall x, 0 <= x < n * PGSIZE -> img' x = img x) -> space g free0 d n img' s tabs pm free.
Proof. intros [] H. constructor; try done. intros x Hx. rewrite H by done. auto. Qed.

(** Enough pages for [n] user pages: with the directory, the kernel's tables,
    and the tables for the pages. *)
Definition space_need (n : Z) : nat := Z.to_nat (67 + n + (n - 1) / 1024).

Lemma space_need_mono n m : 0 <= n <= m -> (space_need n <= space_need m)%nat.
Proof. intros H. unfold space_need. assert ((n - 1) / 1024 <= (m - 1) / 1024) by (apply Z.div_le_mono; lia). lia. Qed.

(** ** setupkvm *)

Lemma space_start s free0 : kmem_rep kend s free0 ->
  exists r s', setupkvm kend kdata s = Ok (r, s') /\ touched free0 s s' /\
    ((r <> 0 /\ exists tabs free, space (-1) free0 r 0 (fun _ => 0) s' tabs (kernel_map kdata) free) \/
     (r = 0 /\ (length free0 < 65)%nat /\ exists free, kmem_rep kend s' free /\ free ≡ₚ free0)).
Proof.
  intros Hk. destruct (setupkvm_ok kend kend_above kdata kdata_page kdata_range s free0 Hk)
    as (r & s' & H & T & [(_ & H0 & tabs & free & V & P & D)|(Hs & H0 & free & K & P)]); exists r, s'; (split; [done|]); (split; [done|]).
  - left. split; [done|]. exists tabs, free. constructor; try done; try (unfold UPAGES; lia).
    + intros w Hw. by rewrite (kernel_map_lookup kdata kdata_page kdata_range).
    + intros i Hi. apply elem_of_app. left. by apply kernel_dirs_elem, D.
    + unfold upages. by rewrite (kernel_map_user kdata kdata_page kdata_range).
  - right. eauto.
Qed.

(** ** allocuvm *)

Lemma space_short g free0 d n img s tabs pm free top :
  space g free0 d n img s tabs pm free -> n <= top -> (length free < grow_need n top)%nat -> (length free0 < space_need top)%nat.
Proof.
  intros S Hn Hg. pose proof (sp_size _ _ _ _ _ _ _ _ _ S) as Hs. pose proof (Permutation_length (sp_perm _ _ _ _ _ _ _ _ _ S)) as HL.
  pose proof (tabs_size tabs _ (dirs_nodup kdata kdata_page n ltac:(lia)) (sp_dom _ _ _ _ _ _ _ _ _ S)) as Ht. rewrite dirs_length in Ht.
  pose proof (sp_count _ _ _ _ _ _ _ _ _ S) as Hc. unfold owned in HL. rewrite length_app in HL. simpl in HL. rewrite length_app, Hc in HL.
  unfold grow_need in Hg. unfold space_need. clear -HL Ht Hg Hs Hn. Z.to_euclidean_division_equations. lia.
Qed.

Lemma user_dirs_mono n m i : n <= m -> i ∈ kernel_dirs ++ user_dirs n -> i ∈ kernel_dirs ++ user_dirs m.
Proof.
  intros Hn. rewrite !elem_of_app. unfold user_dirs. rewrite !elem_of_seqZ. assert ((n - 1) / 1024 <= (m - 1) / 1024) by (apply Z.div_le_mono; lia).
  intros [?|?]; [by left|right; lia].
Qed.

Lemma space_none g free0 d n img s tabs pm free w : space g free0 d n img s tabs pm free -> n <= w < UPAGES -> pm !! w = None.
Proof. intros S Hw. rewrite (sp_rest _ _ _ _ _ _ _ _ _ S) by lia. apply (kernel_pte_user kdata kdata_page kdata_range). lia. Qed.

(** The pages written by [allocuvm] are not those of the user. *)
Lemma ubyte_frame X s s' d tabs pm free x :
  vm kend s d tabs pm free -> touched X s s' -> (forall a, a ∈ upages pm -> a ∉ X) -> x < KERNBASE -> ubyte (pages s') pm x = ubyte (pages s) pm x.
Proof.
  intros V [_ Hf] Hd Hx. unfold ubyte. destruct (pm !! (x / PGSIZE)) as [e|] eqn:E; [|done]. rewrite Hf; [done|]. apply Hd, elem_upages.
  exists (x / PGSIZE), e. split_and!; try done. unfold UPAGES. mmu_mod.
Qed.

Lemma space_grown free0 d n img s tabs pm free top s' tabs' pm' free' :
  space (-1) free0 d n img s tabs pm free -> growing kend d tabs pm free n top top s' tabs' pm' free' -> n <= top <= UPAGES ->
  touched (d :: tables tabs ++ free) s s' -> (forall x, n * PGSIZE <= x -> img x = 0) -> space (-1) free0 d top img s' tabs' pm' free'.
Proof.
  intros S G Hn T Hz. pose proof G as [V Ho Hnew P _ Hdom Hc]. pose proof (sp_size _ _ _ _ _ _ _ _ _ S) as Hsz. constructor.
  - done.
  - lia.
  - intros w Hw. destruct (decide (n <= w)).
    + destruct (Hnew w ltac:(lia)) as (a & Ha & Hok & _). exists a. split; [|done]. rewrite Ha. unfold page_perm. by rewrite decide_False by lia.
    + rewrite Ho by lia. apply (sp_user _ _ _ _ _ _ _ _ _ S). lia.
  - intros w Hw. destruct (decide (n <= w < top)); [pose proof (sp_size _ _ _ _ _ _ _ _ _ S); lia|]. rewrite Ho by lia.
    apply (sp_rest _ _ _ _ _ _ _ _ _ S). lia.
  - intros i Hi. destruct (Hdom i Hi) as [H|H]; [apply (user_dirs_mono n); [lia|]; by apply (sp_dom _ _ _ _ _ _ _ _ _ S)|].
    apply elem_of_app. right. unfold user_dirs. rewrite elem_of_seqZ in *. pose proof (sp_size _ _ _ _ _ _ _ _ _ S).
    pose proof (Z.div_pos n 1024 ltac:(lia) ltac:(done)). lia.
  - rewrite Hc, (sp_count _ _ _ _ _ _ _ _ _ S). pose proof (sp_size _ _ _ _ _ _ _ _ _ S). lia.
  - rewrite P. apply S.
  - intros x Hx. pose proof (sp_vm _ _ _ _ _ _ _ _ _ S) as V0. destruct (decide (n * PGSIZE <= x)) as [Hge|Hlt].
    + rewrite Hz by done. destruct (Hnew (x / PGSIZE)) as (a & Ha & Hok & Hp); [mmu_mod|]. destruct (kva_sub kend a Hok) as (? & ? & Hka).
      unfold ubyte. rewrite Ha, kva_mkpte, Hka, Hp by done. apply zero_bytes. clear -Hx. unfold PAGE_WORDS. mmu_mod.
    + rewrite <- (sp_bytes _ _ _ _ _ _ _ _ _ S) by lia. rewrite <- (ubyte_frame _ s s' d tabs pm free x V0 T).
      * unfold ubyte. rewrite Ho; [done|]. mmu_mod.
      * intros a Ha. by apply (upage_apart kend s d tabs pm free).
      * unfold UPAGES in Hn. mmu_lia.
Qed.

Lemma space_touch g free0 d n img s tabs pm free : space g free0 d n img s tabs pm free -> d :: tables tabs ++ free ⊆ free0.
Proof.
  intros S a Ha. rewrite <- (sp_perm _ _ _ _ _ _ _ _ _ S). unfold owned. rewrite elem_of_cons, elem_of_app in Ha.
  rewrite elem_of_app, elem_of_cons, elem_of_app. tauto.
Qed.

Lemma space_alloc s out free0 d tabs pm free sz newsz img :
  space (-1) free0 d (pages_for sz) img s tabs pm free -> 0 <= sz <= KERNBASE -> 0 <= newsz -> (forall x, pages_for sz * PGSIZE <= x -> img x = 0) ->
  exists r s' out', allocuvm kend d sz newsz (Vst s out) = Ok (r, Vst s' out') /\ touched free0 s s' /\
    ((r = Z.max sz newsz /\ newsz < KERNBASE /\ exists tabs' pm' free', space (-1) free0 d (pages_for r) img s' tabs' pm' free') \/
     (r = 0 /\ loose free0 d s' /\ (KERNBASE <= newsz \/ (length free0 < space_need (pages_for (Z.max sz newsz)))%nat))).
Proof.
  intros Sp Hs Hn Hz. unfold allocuvm. destruct (Z.leb_spec KERNBASE newsz) as [Hk|Hk].
  { exists 0, s, out. split; [done|]. split; [apply touched_refl|]. right. split; [done|]. split; [by eapply space_loose|by left]. }
  destruct (Z.ltb_spec newsz sz) as [Hlt|Hge].
  { exists sz, s, out. split; [done|]. split; [apply touched_refl|]. left. rewrite Z.max_l by lia. split; [done|]. split; [lia|]. by exists tabs, pm, free. }
  rewrite Z.max_r by lia. destruct (pages_of_sz sz) as [Hr0 Hb0]; [lia|]. destruct (pages_of_sz newsz) as [_ Hb1]; [lia|]. fold (pages_for sz) in *.
  fold (pages_for newsz) in *. assert (Hle : pages_for sz <= pages_for newsz) by (apply Z.div_le_mono; [done|lia]). pose proof (sp_vm _ _ _ _ _ _ _ _ _ Sp) as V.
  assert (G0 : growing kend d tabs pm free (pages_for sz) (pages_for newsz) (pages_for sz) s tabs pm free).
  { constructor; try done; [intros w Hw; lia|intros i Hi; by left|]. rewrite Z.sub_diag. simpl. lia. }
  rewrite Hr0. destruct (alloc_loop kend kend_above (S (Z.to_nat ((newsz - pages_for sz * PGSIZE + PGSIZE - 1) / PGSIZE))) (Vst s out) d tabs pm free sz newsz (pages_for sz) tabs pm free G0)
    as (r & [s' out'] & tabs' & free' & H1 & T & Hres); [lia|lia|unfold pages_for in *; lia|intros w Hw; eapply space_none; [exact Sp|unfold pages_for in *; lia]| |].
  { replace (newsz - pages_for sz * PGSIZE + PGSIZE - 1) with (newsz + PGSIZE - 1 + (- pages_for sz) * PGSIZE) by lia. rewrite Z.div_add by done. unfold pages_for. lia. }
  cbn [vk] in *. exists r, s', out'. split; [done|]. split; [exact (touched_mono _ _ _ _ T (space_touch _ _ _ _ _ _ _ _ _ Sp))|].
  destruct Hres as [(-> & pm' & G)|(-> & V' & P & _ & Hshort)].
  - left. split; [done|]. split; [done|]. exists tabs', pm', free'. apply (space_grown _ _ _ _ _ _ _ _ _ _ _ _ _ Sp G); [unfold pages_for in *; lia|done|done].
  - right. split; [done|]. split; [|right; exact (space_short _ _ _ _ _ _ _ _ _ _ Sp Hle Hshort)]. exists tabs', pm, free'. split; [done|]. rewrite P. apply Sp.
Qed.

(** ** Entries *)

Lemma page_bit pa n : pa mod PGSIZE = 0 -> 0 <= n < 12 -> Z.testbit pa n = false.
Proof. intros Hp Hn. replace pa with (pa / PGSIZE * 2 ^ 12) by mmu_mod. apply Z.mul_pow2_bits_low. lia. Qed.

Lemma mkpte_user pa : pa mod PGSIZE = 0 -> user_bit (mkpte pa (Z.lor PTE_W PTE_U)).
Proof.
  intros Hp H. assert (Hb : Z.testbit (Z.land (mkpte pa (Z.lor PTE_W PTE_U)) PTE_U) 2 = true); [|by rewrite H in Hb].
  unfold mkpte. rewrite Z.land_spec, !Z.lor_spec. simpl. by rewrite orb_true_r.
Qed.

Lemma mkpte_kernel pa : pa mod PGSIZE = 0 -> ~ user_bit (mkpte pa PTE_W).
Proof.
  intros Hp H. apply H. apply Z.bits_inj'. intros n Hn. rewrite Z.bits_0, Z.land_spec. destruct (decide (n = 2)) as [-> |Hne].
  - unfold mkpte. rewrite !Z.lor_spec, page_bit by (done || lia). done.
  - change PTE_U with (2 ^ 2). rewrite Z.pow2_bits_false by lia. apply andb_false_r.
Qed.

Lemma mkpte_clear pa : pa mod PGSIZE = 0 -> Z.land (mkpte pa (Z.lor PTE_W PTE_U)) (Z.lnot PTE_U) = mkpte pa PTE_W.
Proof.
  intros Hp. apply Z.bits_inj'. intros n Hn. unfold mkpte. rewrite Z.land_spec, Z.lnot_spec, !Z.lor_spec by done. destruct (decide (n = 2)) as [-> |Hne].
  - rewrite page_bit by (done || lia). done.
  - change PTE_U with (2 ^ 2). rewrite Z.pow2_bits_false by lia. by rewrite orb_false_r, andb_true_r.
Qed.

Lemma page_entry g free0 d n img s tabs pm free w : space g free0 d n img s tabs pm free -> 0 <= w < n ->
  exists e, pm !! w = Some e /\ page_ok kend (kva e) /\ w < UPAGES /\ (user_bit e <-> w <> g) /\ kva e ∈ free0.
Proof.
  intros S Hw. destruct (sp_user _ _ _ _ _ _ _ _ _ S w Hw) as (a & Ha & Hok). pose proof (sp_size _ _ _ _ _ _ _ _ _ S) as Hs.
  destruct (kva_sub kend a Hok) as (Hm & Hr & Hk). eexists. split; [exact Ha|].
  assert (Hkva : kva (mkpte (a - KERNBASE) (page_perm g w)) = a).
  { rewrite kva_mkpte; [lia|done|done|]. unfold page_perm. destruct (decide _); by vm_compute. }
  rewrite Hkva. split; [done|]. split; [lia|]. split.
  - unfold page_perm. destruct (decide (w = g)) as [-> |Hne]; [|split; [done|intros _; by apply mkpte_user]].
    split; [intros H; by apply mkpte_kernel in H|done].
  - rewrite <- (sp_perm _ _ _ _ _ _ _ _ _ S). apply elem_of_app. left. apply elem_owned. right. right. apply elem_upages. eexists w, _. split; [exact Ha|].
    split; [lia|done].
Qed.

(** ** Stores *)

Definition put_bytes (va : Z) (src : list Z) (img : Z -> Z) : Z -> Z :=
  fun x => if decide (va <= x < va + Z.of_nat (length src)) then nth (Z.to_nat (x - va)) src 0 else img x.

(** The user's bytes change and nothing else of the space. *)
Lemma space_change g free0 d n img img' s s' tabs pm free :
  space g free0 d n img s tabs pm free -> vm kend s' d tabs pm free ->
  (forall x, 0 <= x < n * PGSIZE -> ubyte (pages s') pm x = Some (img' x)) -> space g free0 d n img' s' tabs pm free.
Proof. intros [] V H. by constructor. Qed.

Lemma space_store g free0 d n img s tabs pm free w e src :
  space g free0 d n img s tabs pm free -> 0 <= w < n -> pm !! w = Some e -> bytes src -> Z.of_nat (length src) <= PGSIZE ->
  exists s', store_bytes (kva e) src s = Ok (tt, s') /\ touched free0 s s' /\ space g free0 d n (put_bytes (w * PGSIZE) src img) s' tabs pm free.
Proof.
  intros S Hw He Hb Hl. destruct (page_entry _ _ _ _ _ _ _ _ _ w S Hw) as (e' & He' & _ & Hu & _ & Hin). simplify_eq.
  destruct (store_user kend s d tabs pm free w e 0 src (sp_vm _ _ _ _ _ _ _ _ _ S) He Hu Hb ltac:(done) Hl) as (s' & H & V & T & Hx).
  rewrite Z.add_0_r in H. exists s'. split; [done|]. split; [eapply touched_mono; [exact T|]; by intros a ->%list_elem_of_singleton|].
  apply (space_change g free0 d n img _ s); [done|done|]. intros x Hr. pose proof (sp_size _ _ _ _ _ _ _ _ _ S) as Hs. rewrite Hx by (unfold UPAGES in Hs; mmu_lia).
  unfold put_bytes. destruct (decide (x / PGSIZE = w /\ _)) as [Hd|Hd].
  - rewrite decide_True by mmu_mod. replace (x - w * PGSIZE) with (x mod PGSIZE - 0) by mmu_mod. destruct (lookup_lt_is_Some_2 src (Z.to_nat (x mod PGSIZE - 0))) as [c Hc]; [mmu_lia|].
    by rewrite Hc, (nth_lookup_Some _ _ _ _ Hc).
  - rewrite decide_False by mmu_mod. by apply (sp_bytes _ _ _ _ _ _ _ _ _ S).
Qed.

Lemma space_copyout g free0 d n img s tabs pm free va buf :
  let len := Z.of_nat (length buf) in
  space g free0 d n img s tabs pm free -> bytes buf -> 0 <= va -> va + len <= n * PGSIZE ->
  (forall x, va <= x < va + len -> x / PGSIZE <> g) ->
  exists s', copyout d va buf s = Ok (0, s') /\ touched free0 s s' /\ space g free0 d n (put_bytes va buf img) s' tabs pm free.
Proof.
  intros len S Hb Hva Hle Hg. pose proof (sp_size _ _ _ _ _ _ _ _ _ S) as Hs. unfold UPAGES in Hs.
  destruct (copyout_loop_ok kend kend_above (Datatypes.S (Datatypes.S (Z.to_nat (Z.of_nat (length buf) / PGSIZE) + 1))) s d tabs pm free va buf (sp_vm _ _ _ _ _ _ _ _ _ S) Hb Hva)
    as (s' & H & V & T & Hx).
  - mmu_lia.
  - intros x Hr. destruct (page_entry _ _ _ _ _ _ _ _ _ (x / PGSIZE) S) as (e & He & _ & _ & Hu & _); [fold len in Hr; mmu_mod|]. exists e. split; [done|]. apply Hu, Hg. done.
  - fold len. clear -Hva. mmu_mod.
  - exists s'. split; [done|]. split.
    + eapply touched_mono; [exact T|]. intros a Ha. rewrite <- (sp_perm _ _ _ _ _ _ _ _ _ S). apply elem_of_app. left. apply elem_owned. auto.
    + apply (space_change g free0 d n img _ s); [done|done|]. intros x Hr. rewrite Hx by mmu_lia. unfold put_bytes. destruct (decide (va <= x < va + _)) as [Hd|Hd].
      * destruct (lookup_lt_is_Some_2 buf (Z.to_nat (x - va))) as [c Hc]; [lia|]. by rewrite Hc, (nth_lookup_Some _ _ _ _ Hc).
      * by apply (sp_bytes _ _ _ _ _ _ _ _ _ S).
Qed.

(** A copy that starts in a page that is not the user's is refused. *)
Lemma copyout_stop fuel s d tabs pm free va buf w e :
  vm kend s d tabs pm free -> u32_range va -> va / PGSIZE = w -> pm !! w = Some e -> ~ user_bit e -> buf <> [] ->
  copyout_loop (S fuel) d va buf s = Ok (-1, s).
Proof.
  intros V Hva Hp He Hu Hbuf. pose proof (vm_as _ _ _ _ _ _ V) as A.
  destruct (walk_load kend s d tabs pm w e A He) as (ptr & H1 & H2 & H3). cbn [copyout_loop].
  replace (Z.of_nat (length buf) =? 0) with false by (symmetry; apply Z.eqb_neq; destruct buf; [done|simpl; lia]).
  rewrite PGROUNDDOWN_eq by done. rewrite Hp. unfold bind at 1. unfold uva2ka.
  rewrite (bind_Ok _ _ _ _ _ H1), (bind_Ok _ _ _ _ _ H3). destruct (as_pm _ _ _ _ _ A w e He) as (_ & _ & Hpr & _). apply Z.eqb_neq in Hpr as ->.
  assert (Hnu : Z.land e PTE_U = 0) by (destruct (decide (Z.land e PTE_U = 0)); [done|by destruct Hu]). by rewrite Hnu.
Qed.

(** A copy that runs into such a page from the pages below it is refused there;
    what is below has changed. *)
Lemma copyout_into fuel : forall s d tabs pm free g e va buf,
  let len := Z.of_nat (length buf) in
  vm kend s d tabs pm free -> pm !! g = Some e -> ~ user_bit e -> g < UPAGES -> (forall w, 0 <= w < g -> exists e, pm !! w = Some e /\ user_bit e) ->
  bytes buf -> 0 <= va -> va / PGSIZE <= g -> g * PGSIZE < va + len -> buf <> [] -> g - va / PGSIZE < Z.of_nat fuel ->
  exists s', copyout_loop fuel d va buf s = Ok (-1, s') /\ vm kend s' d tabs pm free /\ touched (upages pm) s s'.
Proof.
  induction fuel as [|fuel IH]; intros s d tabs pm free g e va buf len V He Hu Hg Hlow Hb Hva Hle Hlen Hne Hfuel; [lia|].
  assert (Hr : u32_range va) by (unfold UPAGES in Hg; mmu_mod). destruct (decide (va / PGSIZE = g)) as [Hp|Hp].
  { exists s. split; [by eapply copyout_stop|]. split; [done|apply touched_refl]. }
  destruct (Hlow (va / PGSIZE)) as (e1 & He1 & Hu1); [mmu_mod|]. pose proof (vm_as _ _ _ _ _ _ V) as A. set (v := va / PGSIZE) in *.
  assert (Hvu : v < UPAGES) by lia. destruct (as_pm _ _ _ _ _ A v e1 He1) as (_ & _ & _ & Hk). destruct (Hk Hvu) as [Hok _]. cbn [copyout_loop].
  replace (Z.of_nat (length buf) =? 0) with false by (symmetry; apply Z.eqb_neq; destruct buf; [done|simpl; lia]).
  rewrite PGROUNDDOWN_eq by done. fold v. rewrite (bind_Ok _ _ _ _ _ (uva2ka_ok kend kend_above s d tabs pm v e1 A He1 Hvu Hu1)).
  replace (kva e1 =? 0) with false by (symmetry; apply Z.eqb_neq; apply page_ok_pos in Hok; lia).
  replace (va - v * PGSIZE) with (va mod PGSIZE) by (unfold v; mmu_mod). set (o := va mod PGSIZE).
  assert (Ho : 0 <= o < PGSIZE) by (unfold o; mmu_mod). assert (Hnext : v * PGSIZE + PGSIZE = va + (PGSIZE - o)) by (unfold v, o; mmu_mod).
  assert (Hn : PGSIZE - o < len) by mmu_lia. rewrite Z.min_l by (fold len; lia). set (n := PGSIZE - o) in *.
  assert (Htk : Z.of_nat (length (take (Z.to_nat n) buf)) = n) by (rewrite length_take; lia).
  destruct (store_user kend s d tabs pm free v e1 o (take (Z.to_nat n) buf) V He1 Hvu) as (s1 & H1 & V1 & T1 & _); [by apply Forall_take|done|lia|].
  rewrite (bind_Ok _ _ _ _ _ H1). rewrite u32_small by (unfold UPAGES in *; mmu_mod). rewrite Hnext.
  assert (Hdl : Z.of_nat (length (drop (Z.to_nat n) buf)) = len - n) by (rewrite length_drop; lia).
  assert (Hv1 : (va + n) / PGSIZE = v + 1) by (rewrite <- Hnext; mmu_mod).
  destruct (IH s1 d tabs pm free g e (va + n) (drop (Z.to_nat n) buf) V1 He Hu Hg Hlow) as (s2 & H2 & V2 & T2); try (rewrite ?Hdl, ?Hv1; lia); [by apply Forall_drop|intros E; rewrite E in Hdl; simpl in Hdl; lia|].
  exists s2. split; [done|]. split; [done|]. eapply touched_trans; [|exact T2]. eapply touched_mono; [exact T1|].
  intros a Ha%list_elem_of_singleton. subst a. apply elem_upages. eauto.
Qed.

(** A copy to the pages below the guard page that would go on into it. *)
Lemma space_blocked g free0 d n img s tabs pm free va buf :
  let len := Z.of_nat (length buf) in
  space g free0 d n img s tabs pm free -> 0 <= g < n -> bytes buf -> buf <> [] -> 0 <= va -> va / PGSIZE <= g -> g * PGSIZE < va + len ->
  exists s', copyout d va buf s = Ok (-1, s') /\ touched free0 s s' /\ loose free0 d s'.
Proof.
  intros len S Hg Hb Hne Hva Hle Hlen. destruct (page_entry _ _ _ _ _ _ _ _ _ g S Hg) as (e & He & _ & Hlt & Hu & _).
  destruct (copyout_into (Datatypes.S (Datatypes.S (Z.to_nat (Z.of_nat (length buf) / PGSIZE) + 1))) s d tabs pm free g e va buf) as (s' & H & V & T); try done; try apply S.
  - intros Hb1. by apply Hu in Hb1.
  - intros w Hw. destruct (page_entry _ _ _ _ _ _ _ _ _ w S ltac:(lia)) as (e1 & He1 & _ & _ & Hu1 & _). exists e1. split; [done|]. apply Hu1. lia.
  - fold len. clear -Hlen Hva. mmu_mod.
  - exists s'. split; [done|]. split.
    + eapply touched_mono; [exact T|]. intros a Ha. rewrite <- (sp_perm _ _ _ _ _ _ _ _ _ S). apply elem_of_app. left. apply elem_owned. auto.
    + exists tabs, pm, free. split; [done|apply S].
Qed.

(** A copy to the addresses of the devices, at the end of the address space. *)
Lemma space_devices g free0 d n img s tabs pm free va buf :
  space g free0 d n img s tabs pm free -> DEVSPACE <= va < 2 ^ 32 -> buf <> [] -> copyout d va buf s = Ok (-1, s).
Proof.
  intros S Hva Hne. pose proof (sp_size _ _ _ _ _ _ _ _ _ S) as Hs. unfold UPAGES in Hs.
  assert (Hw : pm !! (va / PGSIZE) = Some (mkpte (va / PGSIZE * PGSIZE) PTE_W)).
  { rewrite (sp_rest _ _ _ _ _ _ _ _ _ S) by mmu_mod. unfold kernel_pte. rewrite !decide_False by (unfold KERNLINK in *; mmu_mod). by rewrite decide_True by mmu_mod. }
  apply (copyout_stop _ s d tabs pm free va buf _ _ (sp_vm _ _ _ _ _ _ _ _ _ S) ltac:(unfold u32_range; mmu_lia) eq_refl Hw); [by apply mkpte_kernel; mmu_mod|done].
Qed.

(** ** clearpteu *)

Lemma upages_replace pm w e e' : pm !! w = Some e -> kva e' = kva e -> upages (<[w := e']> pm) ≡ₚ upages pm.
Proof.
  intros He Hk. rewrite <- (insert_id pm w e He) at 2. rewrite <- (insert_delete_eq pm w e'), <- (insert_delete_eq pm w e).
  assert (Hn : delete w pm !! w = None) by apply lookup_delete_eq. unfold upages, user. destruct (decide (w < UPAGES)) as [Hlt|Hge].
  - rewrite !map_filter_insert_True by done. rewrite !map_to_list_insert by (apply map_lookup_filter_None; by left). simpl. by rewrite Hk.
  - rewrite !map_filter_insert_False by done. done.
Qed.

Lemma space_guard free0 d n img s tabs pm free g :
  space (-1) free0 d n img s tabs pm free -> 0 <= g < n ->
  exists s' pm', clearpteu d (g * PGSIZE) s = Ok (tt, s') /\ touched free0 s s' /\ space g free0 d n img s' tabs pm' free.
Proof.
  intros S Hg. destruct (sp_user _ _ _ _ _ _ _ _ _ S g Hg) as (a & He & Hok). unfold page_perm in He. rewrite decide_False in He by lia.
  pose proof (sp_vm _ _ _ _ _ _ _ _ _ S) as V. pose proof V as [Hk A Hsep]. pose proof (sp_size _ _ _ _ _ _ _ _ _ S) as Hs.
  destruct (kva_sub kend a Hok) as (Hm & Hr & Hka). set (e' := mkpte (a - KERNBASE) PTE_W). destruct (mkpte_ok _ PTE_W Hm Hr ltac:(done)) as (Hr' & Hp' & _).
  assert (Hkv : kva e' = a) by (unfold e'; rewrite kva_mkpte by done; done).
  assert (Hkv0 : kva (mkpte (a - KERNBASE) (Z.lor PTE_W PTE_U)) = a) by (rewrite kva_mkpte by done; done).
  pose proof (upages_replace pm g _ e' He ltac:(by rewrite Hkv, Hkv0)) as HU. assert (HO : owned d tabs (<[g := e']> pm) ≡ₚ owned d tabs pm) by (unfold owned; by rewrite HU).
  destruct (table_of kend _ _ _ _ _ _ A He) as (t & Ht & Htok). destruct (as_pm _ _ _ _ _ A g _ He) as (Hv & _ & _ & Hpg). destruct (vpn_va g Hv) as (Hrv & Hd & _).
  destruct (store_pte kend s d tabs pm (<[g := e']> pm) free g t e' A Hv Ht) as (s' & H & V' & T); try done.
  - intros w Hw. by rewrite lookup_insert_ne.
  - by rewrite lookup_insert_eq.
  - intros e. rewrite lookup_insert_eq. intros [= <-]. split; [done|]. split; [done|]. intros Hlt. rewrite Hkv, <- Hkv0. by apply Hpg.
  - rewrite HO. apply A.
  - intros x Hx. apply Hsep. by rewrite <- HO.
  - exists s', (<[g := e']> pm). split.
    + unfold clearpteu. rewrite (bind_Ok _ _ _ _ _ (walk_hit kend s d tabs pm _ t false A Hrv ltac:(by rewrite Hd))). rewrite pte_ptr_nonnull with (kend := kend) by done.
      rewrite (bind_Ok _ _ _ _ _ (load_pte kend s d tabs pm g t A Hv Ht)), He. cbn [default]. unfold id. by rewrite mkpte_clear.
    + assert (Htin : t ∈ free0). { eapply (space_touch _ _ _ _ _ _ _ _ _ S). rewrite elem_of_cons, elem_of_app. right. left. apply elem_tables. eauto. }
      split; [eapply touched_mono; [exact T|]; by intros x ->%list_elem_of_singleton|]. pose proof S as [_ _ Su Sr Sd Sc Sp Sb]. constructor; try done.
      * intros w Hw. destruct (decide (w = g)) as [-> |Hne].
        -- exists a. rewrite lookup_insert_eq. split; [|done]. unfold page_perm. by rewrite decide_True.
        -- rewrite lookup_insert_ne by done. destruct (Su w Hw) as (b & Hb & Hbk). exists b. split; [|done]. rewrite Hb. unfold page_perm. by rewrite !decide_False by lia.
      * intros w Hw. rewrite lookup_insert_ne by lia. auto.
      * by rewrite HU.
      * by rewrite HO.
      * intros x Hx. rewrite <- Sb by done. rewrite <- (ubyte_frame [t] s s' d tabs pm free x V T).
        -- unfold ubyte. destruct (decide (x / PGSIZE = g)) as [-> |Hne]; [by rewrite lookup_insert_eq, He, Hkv, Hkv0|by rewrite lookup_insert_ne].
        -- intros b Hb ->%list_elem_of_singleton. by apply (tab_not_user kend _ _ _ _ _ _ A Ht).
        -- unfold UPAGES in Hs. mmu_lia.
Qed.

End space.
