(* ===== verification/ExecLoad.v ===== *)
(** * Loading a program from its file

    The image a program file describes, as a function of the bytes of the
    file, and the loops of [exec] and [loaduvm] that build it in memory. *)

From S2P Require Import Prelude Spinlock Mmu Kalloc Console Block Bio Log Fs FsTx FsAlloc FsFile FsRw FsPath Vm VmPt VmMap VmKern VmUser VmCopy Sysfile Exec ExecSpace.

#[local] Opaque kernel_map.

(** ** What the file says *)

(** [n] bytes of the file from [off] on. *)
Definition slice (data : list Z) (off n : Z) : list Z := take (Z.to_nat n) (drop (Z.to_nat off) data).

(** What a read of [n] bytes at [off] gives. *)
Definition file_read (data : list Z) (off n : Z) : Z * list Z :=
  if decide (Z.of_nat (length data) < off) then (-1, []) else (Z.min n (Z.of_nat (length data) - off), slice data off n).

(** The segment of the header [ph], put on the image of [sz] bytes; [None] if
    it cannot be loaded. *)
Definition segment (data ph : list Z) (sz : Z) (img : Z -> Z) : option (Z * (Z -> Z)) :=
  let top := ph_vaddr ph + ph_memsz ph in
  if negb (ph_type ph =? ELF_PROG_LOAD) then Some (sz, img)
  else if decide (ph_filesz ph <= ph_memsz ph /\ top < KERNBASE /\ Z.max sz top <> 0 /\ ph_vaddr ph mod PGSIZE = 0 /\
    (ph_filesz ph = 0 \/ ph_off ph + ph_filesz ph <= Z.of_nat (length data)))
  then Some (Z.max sz top, put_bytes (ph_vaddr ph) (slice data (ph_off ph) (ph_filesz ph)) img)
  else None.

(** The image after the [n] program headers at [off]: its size and its bytes. *)
Fixpoint image (data : list Z) (n : nat) (off sz : Z) (img : Z -> Z) : option (Z * (Z -> Z)) :=
  match n with
  | O => Some (sz, img)
  | S n =>
      if decide (Z.of_nat (length data) < u32 off + PROGHDR) then None
      else match segment data (slice data (u32 off) PROGHDR) sz img with
        | Some (sz, img) => image data n (i32 (off + PROGHDR)) sz img
        | None => None
        end
  end.

Lemma segment_size data ph sz img sz' img' : segment data ph sz img = Some (sz', img') -> sz <= sz'.
Proof. unfold segment. destruct (negb _); [intros [= <- _]; lia|]. destruct (decide _); [|done]. intros [= <- _]. lia. Qed.

Lemma image_size data n : forall off sz img sz' img', image data n off sz img = Some (sz', img') -> sz <= sz'.
Proof.
  induction n as [|n IH]; intros off sz img sz' img'; cbn [image]; [intros [= <- _]; lia|]. destruct (decide _); [done|].
  destruct (segment _ _ _ _) as [[sz1 img1]|] eqn:E; [|done]. intros H. apply IH in H. apply segment_size in E. lia.
Qed.

(** ** Bytes put on an image *)

Lemma put_bytes_nil a img x : put_bytes a [] img x = img x.
Proof. unfold put_bytes. rewrite decide_False; [done|]. simpl. lia. Qed.

Lemma put_bytes_app a s1 s2 img x :
  put_bytes (a + Z.of_nat (length s1)) s2 (put_bytes a s1 img) x = put_bytes a (s1 ++ s2) img x.
Proof.
  unfold put_bytes. rewrite length_app. destruct (decide (a + Z.of_nat (length s1) <= x < _)) as [H2|H2].
  - rewrite decide_True by lia. rewrite app_nth2 by lia. f_equal. lia.
  - destruct (decide (a <= x < a + Z.of_nat (length s1))) as [H1|H1].
    + rewrite decide_True by lia. by rewrite app_nth1 by lia.
    + by rewrite decide_False by lia.
Qed.

Lemma slice_length data off n : 0 <= off -> 0 <= n -> off + n <= Z.of_nat (length data) -> Z.of_nat (length (slice data off n)) = n.
Proof. intros. unfold slice. rewrite length_take, length_drop. lia. Qed.

Lemma slice_app data off n m : 0 <= off -> 0 <= n -> 0 <= m -> slice data off (n + m) = slice data off n ++ slice data (off + n) m.
Proof.
  intros. unfold slice. rewrite !Z2Nat.inj_add by lia. rewrite <- drop_drop. rewrite <- (take_drop (Z.to_nat n) (drop (Z.to_nat off) data)) at 1.
  destruct (decide (Z.to_nat n <= length (drop (Z.to_nat off) data))%nat).
  - rewrite take_app_ge by (rewrite length_take; lia). rewrite length_take. do 2 f_equal. lia.
  - rewrite (drop_ge (drop _ data)) by lia. rewrite app_nil_r, take_nil, app_nil_r. rewrite take_take. f_equal. lia.
Qed.

(** ** Parts of the state *)

Lemma on_xk_Ok {A} (c : M kst A) k out f p cr x k' : c k = Ok (x, k') -> on_xk c (Xst k out f p cr) = Ok (x, Xst k' out f p cr).
Proof. intros H. unfold on_xk, zoom. simpl. by rewrite H. Qed.

Lemma on_xv_Ok {A} (c : M vst A) k out f p cr x k' out' :
  c (Vst k out) = Ok (x, Vst k' out') -> on_xv c (Xst k out f p cr) = Ok (x, Xst k' out' f p cr).
Proof. intros H. unfold on_xv, zoom. simpl. by rewrite H. Qed.

Lemma on_xf_Ok {A} (c : M fsys A) k out f p cr x f' : c f = Ok (x, f') -> on_xf c (Xst k out f p cr) = Ok (x, Xst k out f' p cr).
Proof. intros H. unfold on_xf, zoom. simpl. by rewrite H. Qed.

Lemma on_xkf_Ok {A} (c : M (kst * fsys) A) k out f p cr x k' f' :
  c (k, f) = Ok (x, (k', f')) -> on_xkf c (Xst k out f p cr) = Ok (x, Xst k' out f' p cr).
Proof. intros H. unfold on_xkf, zoom. simpl. by rewrite H. Qed.

(** ** Reading the file *)

Section load.

Context (me kend kdata : Z) (devsw : Z -> devops) (sk : superblock) (L : log) (DK : bst) (C : gmap Z block) (ip : nat) (i : inode).

Hypothesis kend_above : KERNBASE < kend.
Hypothesis kdata_page : kdata mod PGSIZE = 0.
Hypothesis kdata_range : KERNLINK < kdata < KERNBASE + PHYSTOP.

Context (Ha : alloc_ok sk C) (Hdev : i_dev i = 1) (Hf : file_ok sk C i) (Ht : i_type i <> T_DEV).

Abbreviation data := (fdata C i).

(** A transaction that has written nothing, with the file's inode in the cache. *)
Definition reading (f : fsys) : Prop := tview me L DK (lo f) C ∅ ∅ /\ icache f !! ip = Some i.

Lemma data_length : Z.of_nat (length data) = i_size i.
Proof. unfold fdata. rewrite length_fmap, length_seqZ. pose proof (f_size _ _ _ Hf). lia. Qed.

Lemma data_bytes : bytes data.
Proof.
  apply Forall_forall. intros v Hv. apply list_elem_of_fmap in Hv as (o & -> & Ho). apply elem_of_seqZ in Ho. pose proof (f_size _ _ _ Hf) as Hs.
  pose proof (Z.div_pos o BSIZE ltac:(lia) ltac:(done)) as Hp. assert (Hlt : o / BSIZE * BSIZE <= o) by (rewrite Z.mul_comm; by apply Z.mul_div_le).
  pose proof (f_full _ _ _ Hf (o / BSIZE) Hp ltac:(lia)) as Hne.
  assert (Hin : in_file (o / BSIZE)) by (unfold in_file; split; [done|]; apply Z.div_lt_upper_bound; [done|lia]).
  destruct (f_owned _ _ _ Hf (fblock C i (o / BSIZE))) as [Hr _]; [split; [done|]; right; eauto|].
  destruct (a_blocks _ _ Ha (fblock C i (o / BSIZE))) as (d & Hd & Hl & Hb); [|].
  { destruct (a_layout _ _ Ha) as [[Hs0 _] _ [Hn0 Hb0] _]. pose proof (Z.div_pos (sb_ninodes sk) IPB Hn0 ltac:(done)). pose proof (Z.div_pos (sb_size sk) BPB Hs0 ltac:(done)).
    unfold datastart in Hr. lia. }
  unfold fbyte. rewrite Hd. cbn [default]. unfold id. destruct (lookup_lt_is_Some_2 d (Z.to_nat (o mod BSIZE))) as [v Hv].
  - rewrite Hl. pose proof (Z.mod_pos_bound o BSIZE ltac:(done)). lia.
  - rewrite (nth_lookup_Some _ _ _ _ Hv). eapply Forall_lookup_1 in Hb; [|exact Hv]. done.
Qed.

Lemma slice_bytes off n : bytes (slice data off n).
Proof. apply Forall_take, Forall_drop, data_bytes. Qed.

Lemma read_file f off n : reading f -> 0 <= off < 2 ^ 32 -> 0 <= n <= PGSIZE ->
  exists l', readi me devsw ip off n f = Ok (file_read data off n, set_lo l' f) /\ reading (set_lo l' f).
Proof.
  intros [T Hi] Ho Hn. pose proof (f_size _ _ _ Hf) as Hs. change (MAXFILE * BSIZE) with 71680 in Hs. unfold file_read. rewrite data_length.
  destruct (decide (i_size i < off)) as [Hlt|Hge].
  - exists (lo f). split; [|by destruct f]. unfold readi. rewrite (bind_Ok _ _ _ _ _ (get_inode_ok _ _ _ Hi)). apply Z.eqb_neq in Ht as ->.
    apply Z.ltb_lt in Hlt as ->. by destruct f.
  - destruct (readi_tx me L DK sk devsw f ip i C ∅ off n T Ha Hi Hdev Hf ltac:(rewrite size_empty; unfold NBUF; lia) Ht ltac:(lia) ltac:(lia) ltac:(mmu_lia)) as (l' & H & T').
    exists l'. split; [done|]. split; [exact T'|exact Hi].
Qed.

(** ** loaduvm *)

(** The file system only has its cache changed. *)
Definition same_files (f f' : fsys) : Prop := exists l, f' = set_lo l f.

Lemma same_trans f1 f2 f3 : same_files f1 f2 -> same_files f2 f3 -> same_files f1 f3.
Proof. intros [l1 ->] [l2 ->]. by exists l2. Qed.

Context (free0 : list Z) (d : Z).

Abbreviation space := (space kend kdata (-1) free0 d).

Lemma on_k_Ok {A} (c : M kst A) k f x k' : c k = Ok (x, k') -> on_k c (k, f) = Ok (x, (k', f)).
Proof. intros H. unfold on_k, zoom. simpl. by rewrite H. Qed.

Lemma on_f_Ok {A} (c : M fsys A) k f x f' : c f = Ok (x, f') -> on_f c (k, f) = Ok (x, (k, f')).
Proof. intros H. unfold on_f, zoom. simpl. by rewrite H. Qed.

(** What one turn of the loop reads. *)
Lemma read_piece off j n m : 0 <= off -> 0 <= j -> 0 < n <= m ->
  let '(c, bs) := file_read data (off + j) n in
  (c = n /\ off + j + n <= Z.of_nat (length data) /\ bs = slice data (off + j) n) \/
  (c <> n /\ Z.of_nat (length data) < off + j + m /\ bytes bs /\ Z.of_nat (length bs) <= n).
Proof.
  intros Ho Hj Hn. unfold file_read. destruct (decide _) as [Hd|Hd].
  - right. split; [lia|]. split; [lia|]. split; [constructor|simpl; lia].
  - destruct (decide (off + j + n <= Z.of_nat (length data))).
    + left. split; [lia|]. auto.
    + right. split; [lia|]. split; [lia|]. split; [apply slice_bytes|]. unfold slice. rewrite length_take. lia.
Qed.

(** A whole page was read at [j], and the rest after it. *)
Lemma piece_done va off j fsz n img img1 img2 r (w : Z) :
  0 <= j -> 0 <= off -> j < fsz -> n = Z.min (fsz - j) PGSIZE -> off + j + n <= Z.of_nat (length data) -> va + j = w * PGSIZE ->
  img1 = put_bytes (w * PGSIZE) (slice data (off + j) n) img ->
  (if decide (fsz <= j + PGSIZE \/ off + fsz <= Z.of_nat (length data))
   then r = 0 /\ forall x, img2 x = put_bytes (va + (j + PGSIZE)) (slice data (off + (j + PGSIZE)) (fsz - (j + PGSIZE))) img1 x else r = -1) ->
  if decide (fsz <= j \/ off + fsz <= Z.of_nat (length data))
  then r = 0 /\ forall x, img2 x = put_bytes (va + j) (slice data (off + j) (fsz - j)) img x else r = -1.
Proof.
  intros Hj Ho Hlt -> Hfit Hw -> Hr. destruct (decide (fsz <= j + PGSIZE)) as [Hlast|Hmore].
  - rewrite decide_True in Hr by auto. rewrite decide_True by lia. destruct Hr as [-> Hr]. split; [done|]. intros x. rewrite Hr.
    unfold slice at 1. replace (Z.to_nat (fsz - (j + PGSIZE))) with 0%nat by lia. rewrite take_0, put_bytes_nil, Hw. by rewrite Z.min_l by lia.
  - destruct (decide (fsz <= j + PGSIZE \/ _)) as [Hd|Hd]; [|by rewrite decide_False by lia]. rewrite decide_True by lia. destruct Hr as [-> Hr]. split; [done|].
    intros x. rewrite Hr. rewrite Z.min_r in * by lia. replace (fsz - j) with (PGSIZE + (fsz - (j + PGSIZE))) by lia. rewrite slice_app by mmu_lia.
    rewrite <- put_bytes_app, slice_length by mmu_lia. rewrite <- Hw. by rewrite !Z.add_assoc.
Qed.

Lemma load_loop fuel : forall np va off fsz img k f tabs pm free j,
  space np img k tabs pm free -> reading f -> va mod PGSIZE = 0 -> 0 <= va -> va + fsz <= np * PGSIZE -> 0 <= off < 2 ^ 32 ->
  0 <= j -> j mod PGSIZE = 0 -> (j = 0 \/ fsz <= j \/ off + j <= Z.of_nat (length data)) -> (0 < fuel)%nat -> fsz <= j + (Z.of_nat fuel - 1) * PGSIZE ->
  exists r k' f' img', loaduvm_loop me devsw fuel d va ip off fsz j (k, f) = Ok (r, (k', f')) /\ touched free0 k k' /\
    same_files f f' /\ reading f' /\ space np img' k' tabs pm free /\
    if decide (fsz <= j \/ off + fsz <= Z.of_nat (length data))
    then r = 0 /\ forall x, img' x = put_bytes (va + j) (slice data (off + j) (fsz - j)) img x else r = -1.
Proof.
  induction fuel as [|fuel IH]; intros np va off fsz img k f tabs pm free j Sp R Hal Hva Hle Ho Hj Hjm Hstart Hpos Hfuel; [lia|].
  cbn [loaduvm_loop]. destruct (Z.leb_spec fsz j) as [Hend|Hlt].
  { exists 0, k, f, img. split; [done|]. split; [apply touched_refl|]. split; [exists (lo f); by destruct f|]. split; [done|]. split; [done|].
    rewrite decide_True by auto. split; [done|]. intros x. unfold slice. replace (Z.to_nat (fsz - j)) with 0%nat by lia. by rewrite take_0, put_bytes_nil. }
  set (w := (va + j) / PGSIZE). pose proof (sp_size _ _ _ _ _ _ _ _ _ _ _ Sp) as Hs. unfold UPAGES in Hs.
  assert (Hw : va + j = w * PGSIZE) by (unfold w; mmu_mod). destruct (page_entry kend kdata _ _ _ _ _ _ _ _ _ w Sp) as (e & He & Hok & _); [unfold w; mmu_mod|].
  destruct (walk_load kend k d tabs pm w e (vm_as _ _ _ _ _ _ (sp_vm _ _ _ _ _ _ _ _ _ _ _ Sp)) He) as (ptr & H1 & H2 & H3).
  rewrite (u32_small (va + j)) by mmu_lia. rewrite Hw. rewrite (bind_Ok _ _ _ _ _ (on_k_Ok _ k f _ _ H1)), H2.
  rewrite (bind_Ok _ _ _ _ _ (on_k_Ok _ k f _ _ H3)). destruct (P2V_kva kend kend_above e Hok) as [Hpv _].
  rewrite (bind_Ok _ _ _ _ _ (lift_Ok _ _ _ Hpv)). set (n := if fsz - j <? PGSIZE then fsz - j else PGSIZE).
  assert (Hn : n = Z.min (fsz - j) PGSIZE) by (unfold n; destruct (Z.ltb_spec (fsz - j) PGSIZE); lia).
  pose proof data_length as Hlen. pose proof (f_size _ _ _ Hf) as Hsz. change (MAXFILE * BSIZE) with 71680 in Hsz.
  rewrite (u32_small (off + j)) by mmu_lia. destruct (read_file f (off + j) n R ltac:(lia) ltac:(mmu_lia)) as (l1 & H4 & R1).
  rewrite (bind_Ok _ _ _ _ _ (on_f_Ok _ k f _ _ H4)). pose proof (read_piece off j n (fsz - j) ltac:(lia) ltac:(lia) ltac:(mmu_lia)) as Hp.
  destruct (file_read data (off + j) n) as [c bs]. cbn [fst snd].
  assert (Hb : bytes bs /\ Z.of_nat (length bs) <= PGSIZE).
  { destruct Hp as [(_ & Hl & ->)|(_ & _ & ? & ?)]; [|lia || (split; [done|lia])]. split; [apply slice_bytes|]. rewrite slice_length; lia. }
  assert (Hst : exists k1 img1, (if 0 <=? c then on_k (store_bytes (kva e) bs) else ret tt) (k, set_lo l1 f) = Ok (tt, (k1, set_lo l1 f)) /\
    touched free0 k k1 /\ space np img1 k1 tabs pm free /\ (c = n -> img1 = put_bytes (w * PGSIZE) bs img)).
  { destruct (Z.leb_spec 0 c).
    - destruct (space_store kend kdata _ _ _ _ _ _ _ _ _ w e bs Sp ltac:(unfold w; mmu_mod) He (proj1 Hb) (proj2 Hb)) as (k1 & H5 & T1 & S1).
      exists k1, (put_bytes (w * PGSIZE) bs img). split; [by apply on_k_Ok|]. auto.
    - exists k, img. split; [done|]. split; [apply touched_refl|]. split; [done|]. lia. }
  destruct Hst as (k1 & img1 & H5 & T1 & S1 & Himg). rewrite (bind_Ok _ _ _ _ _ H5). destruct Hp as [(-> & Hfit & ->)|(Hne & Hshort & _)].
  - rewrite Z.eqb_refl. cbn [negb]. rewrite (u32_small (j + PGSIZE)) by mmu_lia.
    destruct (IH np va off fsz img1 k1 (set_lo l1 f) tabs pm free (j + PGSIZE)) as (r & k2 & f2 & img2 & H6 & T2 & F2 & R2 & S2 & Hr); try done; try mmu_mod.
    exists r, k2, f2, img2. split; [done|]. split; [by eapply touched_trans|]. split; [eapply same_trans; [by exists l1|done]|]. split; [done|]. split; [done|].
    rewrite <- Hw. exact (piece_done va off j fsz n img _ img2 r _ Hj (proj1 Ho) Hlt Hn Hfit Hw (Himg eq_refl) Hr).
  - exists (-1), k1, (set_lo l1 f), img1. apply Z.eqb_neq in Hne as ->. split; [done|]. split; [done|]. split; [by exists l1|]. split; [done|]. split; [done|].
    rewrite decide_False by lia. done.
Qed.

Lemma loaduvm_ok np va off fsz img k f tabs pm free :
  space np img k tabs pm free -> reading f -> va mod PGSIZE = 0 -> 0 <= va -> 0 <= fsz -> va + fsz <= np * PGSIZE -> 0 <= off < 2 ^ 32 ->
  exists r k' f', loaduvm me devsw d va ip off fsz (k, f) = Ok (r, (k', f')) /\ touched free0 k k' /\ same_files f f' /\ reading f' /\
    if decide (fsz = 0 \/ off + fsz <= Z.of_nat (length data))
    then r = 0 /\ space np (put_bytes va (slice data off fsz) img) k' tabs pm free
    else r = -1 /\ loose kend free0 d k'.
Proof.
  intros Sp R Hal Hva Hfs Hle Ho. unfold loaduvm. rewrite Hal. change (0 =? 0) with true. cbn [negb].
  destruct (load_loop (S (Z.to_nat ((fsz + PGSIZE - 1) / PGSIZE))) np va off fsz img k f tabs pm free 0) as (r & k' & f' & img' & H & T & F & R' & S' & Hr);
    try done; try lia; try mmu_mod.
  exists r, k', f'. split; [done|]. split; [done|]. split; [done|]. split; [done|]. destruct (decide (fsz <= 0 \/ _)) as [Hd|Hd].
  - rewrite decide_True by lia. destruct Hr as [-> Hr]. split; [done|]. eapply space_img; [exact S'|]. intros x _. rewrite Hr. by rewrite !Z.add_0_r, Z.sub_0_r.
  - rewrite decide_False by lia. split; [done|]. by eapply space_loose.
Qed.

(** ** The segments *)

Lemma ph_range off : 0 <= off -> off + PROGHDR <= Z.of_nat (length data) ->
  let ph := slice data off PROGHDR in
  u32_range (ph_off ph) /\ u32_range (ph_vaddr ph) /\ u32_range (ph_filesz ph) /\ u32_range (ph_memsz ph).
Proof.
  intros Ho Hl ph. pose proof (slice_length data off PROGHDR Ho ltac:(done) Hl) as Hlen. change PROGHDR with 32 in *. fold ph in Hlen.
  assert (Hr : forall o, (o + 4 <= 32)%nat -> u32_range (field o 4 ph)).
  { intros o H. pose proof (field_range o 4 ph (slice_bytes _ _) ltac:(lia)) as Hf'. exact Hf'. }
  split_and!; apply Hr; lia.
Qed.

Definition zero_above (sz : Z) (img : Z -> Z) : Prop := forall x, pages_for sz * PGSIZE <= x -> img x = 0.

Lemma zero_put sz sz' va src img :
  zero_above sz img -> sz <= sz' -> va + Z.of_nat (length src) <= sz' -> zero_above sz' (put_bytes va src img).
Proof.
  intros Hz Hle Hs x Hx. unfold pages_for in *. unfold put_bytes. rewrite decide_False by mmu_mod. apply Hz. unfold pages_for. mmu_mod.
Qed.

(** The image was built up to this point; or it cannot be, or there is not
    enough memory for it. *)
Definition built (want : option (Z * (Z -> Z))) (k : kst) (r : option Z) : Prop :=
  match r with
  | Some sz => exists img tabs pm free, want = Some (sz, img) /\ 0 <= sz < KERNBASE /\ zero_above sz img /\ space (pages_for sz) img k tabs pm free
  | None => loose kend free0 d k /\
      (want = None \/ exists sz img, want = Some (sz, img) /\ (length free0 < space_need (pages_for sz))%nat)
  end.

Lemma need_mono sz sz' : 0 <= sz <= sz' -> (space_need (pages_for sz) <= space_need (pages_for sz'))%nat.
Proof. intros H. apply space_need_mono. unfold pages_for. mmu_mod. Qed.

Lemma segment_ok ph sz img k out f p cr tabs pm free :
  u32_range (ph_off ph) /\ u32_range (ph_vaddr ph) /\ u32_range (ph_filesz ph) /\ u32_range (ph_memsz ph) ->
  space (pages_for sz) img k tabs pm free -> reading f -> 0 <= sz < KERNBASE -> zero_above sz img ->
  exists r k' out' f', load_segment me kend devsw ph ip d sz (Xst k out f p cr) = Ok (r, Xst k' out' f' p cr) /\
    touched free0 k k' /\ same_files f f' /\ reading f' /\ built (segment data ph sz img) k' r.
Proof.
  intros (Ro & Rv & Rf & Rm) Sp R Hsz Hz. unfold load_segment, segment. assert (Hf0 : same_files f f) by (exists (lo f); by destruct f).
  destruct (negb _); [exists (Some sz), k, out, f; refine (conj eq_refl (conj (touched_refl _ _) (conj Hf0 (conj R _)))); by exists img, tabs, pm, free|].
  assert (Hnone : forall s P, ~ P -> loose kend free0 d s -> forall `{!Decision P} x, built (if decide P then Some x else None) s None).
  { intros s P HP HL ? x. split; [done|]. left. by rewrite decide_False. }
  destruct (Z.ltb_spec (ph_memsz ph) (ph_filesz ph)) as [Hm|Hm].
  { exists None, k, out, f. refine (conj eq_refl (conj (touched_refl _ _) (conj Hf0 (conj R _)))). apply Hnone; [lia|by eapply space_loose]. }
  destruct (Z.ltb_spec (u32 (ph_vaddr ph + ph_memsz ph)) (ph_vaddr ph)) as [Hw|Hw].
  { exists None, k, out, f. refine (conj eq_refl (conj (touched_refl _ _) (conj Hf0 (conj R _)))). apply Hnone; [|by eapply space_loose]. unfold u32 in Hw. mmu_mod. }
  assert (Eu : u32 (ph_vaddr ph + ph_memsz ph) = ph_vaddr ph + ph_memsz ph) by (unfold u32 in *; mmu_mod). rewrite Eu in *. set (top := ph_vaddr ph + ph_memsz ph) in *.
  destruct (space_alloc kend kdata kend_above kdata_page kdata_range k out free0 d tabs pm free sz top img Sp ltac:(lia) ltac:(unfold top, u32_range in *; lia) Hz) as (r & k1 & out1 & H1 & T1 & Hr).
  rewrite (bind_Ok _ _ _ _ _ (on_xv_Ok _ k out f p cr _ _ _ H1)). destruct Hr as [(-> & Htop & tabs1 & pm1 & free1 & S1)|(-> & HL & Hwhy)].
  2:{ exists None, k1, out1, f. refine (conj eq_refl (conj T1 (conj Hf0 (conj R _)))). split; [done|]. destruct (decide _) as [Hd|Hd]; [|by left]. right. eexists _, _. split; [done|]. destruct Hwhy; [lia|done]. }
  destruct (Z.eqb_spec (Z.max sz top) 0) as [H0|H0]; [exists None, k1, out1, f; refine (conj eq_refl (conj T1 (conj Hf0 (conj R _)))); apply Hnone; [lia|by eapply space_loose]|].
  destruct (Z.eqb_spec (ph_vaddr ph mod PGSIZE) 0) as [Hal|Hal]; cbn [negb]; [|exists None, k1, out1, f; refine (conj eq_refl (conj T1 (conj Hf0 (conj R _)))); apply Hnone; [lia|by eapply space_loose]].
  destruct (loaduvm_ok (pages_for (Z.max sz top)) (ph_vaddr ph) (ph_off ph) (ph_filesz ph) img k1 f tabs1 pm1 free1) as (r & k2 & f2 & H2 & T2 & F2 & R2 & Hr);
    try done; try (unfold u32_range, pages_for, top in *; mmu_mod).
  rewrite (bind_Ok _ _ _ _ _ (on_xkf_Ok _ k1 out1 f p cr _ _ _ H2)). pose proof (touched_trans _ _ _ _ T1 T2) as T. destruct (decide (ph_filesz ph = 0 \/ _)) as [Hfit|Hfit].
  - destruct Hr as [-> S2]. exists (Some (Z.max sz top)), k2, out1, f2. refine (conj eq_refl (conj T (conj F2 (conj R2 _)))). rewrite decide_True by (split_and!; done || lia).
    eexists _, tabs1, pm1, free1. split; [done|]. split; [lia|]. split; [|exact S2]. eapply zero_put; [exact Hz|lia|]. unfold slice. rewrite length_take. unfold top in *. lia.
  - destruct Hr as [-> HL]. exists None, k2, out1, f2. refine (conj eq_refl (conj T (conj F2 (conj R2 _)))). apply Hnone; [tauto|done].
Qed.

Lemma segments_ok n : forall off sz img k out f p cr tabs pm free,
  space (pages_for sz) img k tabs pm free -> reading f -> 0 <= sz < KERNBASE -> zero_above sz img ->
  exists r k' out' f', load_segments me kend devsw n ip d off sz (Xst k out f p cr) = Ok (r, Xst k' out' f' p cr) /\
    touched free0 k k' /\ same_files f f' /\ reading f' /\ built (image data n off sz img) k' r.
Proof.
  induction n as [|n IH]; intros off sz img k out f p cr tabs pm free Sp R Hsz Hz; cbn [load_segments image].
  { exists (Some sz), k, out, f. split; [done|]. split; [apply touched_refl|]. split; [exists (lo f); by destruct f|]. split; [done|]. by exists img, tabs, pm, free. }
  pose proof (Z.mod_pos_bound off (2 ^ 32) ltac:(done)) as Hu. fold (u32 off) in Hu. destruct (read_file f (u32 off) PROGHDR R Hu ltac:(by vm_compute)) as (l1 & H1 & R1).
  rewrite (bind_Ok _ _ _ _ _ (on_xf_Ok _ k out f p cr _ _ H1)). pose proof (read_piece (u32 off) 0 PROGHDR PROGHDR ltac:(lia) ltac:(done) ltac:(done)) as Hp.
  rewrite Z.add_0_r in Hp. destruct (file_read _ _ _) as [c bs]. cbn [fst snd]. destruct Hp as [(-> & Hfit & ->)|(Hne & Hshort & _)].
  2:{ apply Z.eqb_neq in Hne as ->. cbn [negb]. rewrite decide_True by done. exists None, k, out, (set_lo l1 f). refine (conj eq_refl (conj (touched_refl _ _) (conj (ex_intro _ l1 eq_refl) (conj R1 _)))).
      split; [by eapply space_loose|by left]. }
  rewrite Z.eqb_refl, decide_False by lia. cbn [negb]. destruct (segment_ok (slice data (u32 off) PROGHDR) sz img k out (set_lo l1 f) p cr tabs pm free) as (r & k2 & out2 & f2 & H2 & T2 & F2 & R2 & Hb);
    try done; [apply ph_range; lia|]. assert (F12 : same_files f f2) by (eapply same_trans; [by exists l1|done]).
  rewrite (bind_Ok _ _ _ _ _ H2). destruct r as [sz2|].
  - destruct Hb as (img2 & tabs2 & pm2 & free2 & Hseg & Hsz2 & Hz2 & S2). destruct (IH (i32 (off + PROGHDR)) sz2 img2 k2 out2 f2 p cr tabs2 pm2 free2) as (r & k3 & out3 & f3 & H3 & T3 & F3 & R3 & Hb); try done.
    exists r, k3, out3, f3. rewrite Hseg. split; [done|]. split; [by eapply touched_trans|]. split; [by eapply same_trans|]. done.
  - exists None, k2, out2, f2. refine (conj eq_refl (conj T2 (conj F12 (conj R2 _)))). destruct Hb as [HL Hwhy]. split; [done|]. destruct Hwhy as [-> |(sz2 & img2 & Hseg & Hs)]; [by left|]. pose proof (segment_size _ _ _ _ _ _ Hseg). rewrite Hseg.
    destruct (image data n _ sz2 img2) as [[sz3 img3]|] eqn:E; [|by left]. right. exists sz3, img3. split; [done|]. apply image_size in E.
    eapply Nat.lt_le_trans; [exact Hs|]. apply need_mono. lia.
Qed.

End load.
