(* ===== verification/ExecStack.v ===== *)
(** * The stack of a new program, and the change of address spaces

    The arguments on the new stack as a function of the argument vector, the
    loop of [exec] that pushes them, and what is left of the two address spaces
    when [exec] commits to the new one or gives it up. *)

From S2P Require Import Prelude Spinlock Mmu Kalloc Console CString Block Bio Log Fs FsFile Vm VmPt VmMap VmKern VmUser VmCopy Sysfile Exec ExecSpace ExecLoad.

#[local] Opaque kernel_map.

(** The strings below [sp], aligned down to words, not below [lo]; with the
    pointers to them. *)
Fixpoint place (argv : list (list Z)) (argc : nat) (lo sp : Z) (ptrs : list Z) (img : Z -> Z) : option (Z * list Z * (Z -> Z)) :=
  match argv with
  | [] => Some (sp, ptrs, img)
  | s :: argv =>
      if decide (MAXARG <= argc)%nat then None
      else
        let sp := (sp - (Z.of_nat (length s) + 1)) / 4 * 4 in
        if decide (sp < lo) then None
        else place argv (S argc) lo sp (ptrs ++ [sp]) (put_bytes sp (s ++ [0]) img)
  end.

(** The stack page below [top]: the strings, below them the frame of [main].
    The stack pointer and the image, [None] if it does not fit. *)
Definition stack (argv : list (list Z)) (top : Z) (img : Z -> Z) : option (Z * (Z -> Z)) :=
  match place argv 0 (top - PGSIZE) top [] img with
  | Some (sp, ptrs, img) =>
      let sp' := sp - (4 + Z.of_nat (length ptrs)) * 4 in
      if decide (sp' < top - PGSIZE) then None else Some (sp', put_bytes sp' (mjoin (le_enc 4 <$> ustack sp ptrs)) img)
  | None => None
  end.

(** An argument of less than 32 megabytes, the size of the device area at the
    end of the address space.  The code does not check the length: it relies on
    [copyout] to find that an argument does not fit the stack page, and where
    a longer one would wrap around to, there is no page table. *)
Definition arg_ok (s : list Z) : Prop := bytes s /\ Z.of_nat (length s) < 2 ^ 25.

Lemma frame_length l : length (mjoin (le_enc 4 <$> l)) = (4 * length l)%nat.
Proof. induction l as [|x l IH]; [done|]. rewrite fmap_cons. change (mjoin (le_enc 4 x :: (le_enc 4 <$> l))) with (le_enc 4 x ++ mjoin (le_enc 4 <$> l)). rewrite length_app, IH, le_enc_length. simpl. lia. Qed.

Lemma frame_bytes l : bytes (mjoin (le_enc 4 <$> l)).
Proof. induction l as [|x l IH]; [constructor|]. rewrite fmap_cons. change (mjoin (le_enc 4 x :: (le_enc 4 <$> l))) with (le_enc 4 x ++ mjoin (le_enc 4 <$> l)). apply Forall_app. split; [apply le_enc_bytes|done]. Qed.

Lemma ustack_length sp ptrs : length (ustack sp ptrs) = (4 + length ptrs)%nat.
Proof. unfold ustack. rewrite !length_app. simpl. lia. Qed.

Section stack.

Context (kend kdata : Z).

Hypothesis kend_above : KERNBASE < kend.
Hypothesis kdata_page : kdata mod PGSIZE = 0.
Hypothesis kdata_range : KERNLINK < kdata < KERNBASE + PHYSTOP.

Context (free0 : list Z) (d g : Z) (tabs pm : gmap Z Z) (free : list Z).

Abbreviation top := ((g + 2) * PGSIZE).
Abbreviation stacked img k := (space kend kdata g free0 d (g + 2) img k tabs pm free).

(** A copy that ends on the stack page goes to it or is refused: it starts in
    the guard page, or runs into it, or has wrapped around. *)
Lemma copy_below img k sp buf :
  stacked img k -> 0 <= g -> - 2 ^ 25 <= sp -> g * PGSIZE < sp + Z.of_nat (length buf) <= top -> bytes buf -> buf <> [] ->
  exists r k', copyout d (u32 sp) buf k = Ok (r, k') /\ touched free0 k k' /\
    if decide (sp < top - PGSIZE) then r = -1 /\ loose kend free0 d k' else r = 0 /\ stacked (put_bytes sp buf img) k'.
Proof.
  intros Sp Hg Hlo Hhi Hb Hne. pose proof (sp_size _ _ _ _ _ _ _ _ _ _ _ Sp) as Hs. unfold UPAGES in Hs. destruct (decide (sp < 0)) as [Hn|Hn].
  - assert (Hu : u32 sp = sp + 2 ^ 32) by (unfold u32; rewrite <- (Z_mod_plus_full sp 1), Z.mul_1_l; apply Z.mod_small; lia).
    exists (-1), k. rewrite Hu, decide_True by mmu_lia. split; [|split; [apply touched_refl|split; [done|by eapply space_loose]]].
    eapply space_devices; [exact kdata_page|exact kdata_range|exact Sp|mmu_lia|done].
  - rewrite u32_small by mmu_lia. destruct (decide (sp < top - PGSIZE)) as [Hd|Hd].
    + destruct (space_blocked kend kdata kend_above g free0 d (g + 2) img k tabs pm free sp buf Sp) as (k' & H & T & L); [lia|done|done|lia|mmu_mod|lia|]. by eauto 6.
    + destruct (space_copyout kend kdata kend_above g free0 d (g + 2) img k tabs pm free sp buf Sp Hb) as (k' & H & T & S'); [mmu_lia|lia| |by eauto 6].
      intros x Hx. mmu_mod.
Qed.

Lemma align_word x : Z.land (u32 x) (Z.lnot 3) = u32 (x / 4 * 4).
Proof.
  change (Z.lnot 3) with (Z.lnot (2 ^ 2 - 1)). rewrite land_lnot_ones by done. change (2 ^ 2) with 4. unfold u32. change (2 ^ 32) with 4294967296. Z.to_euclidean_division_equations. lia.
Qed.

Lemma push_args_ok argv : forall argc sp ptrs img k out f p cr,
  stacked img k -> 0 <= g -> top - PGSIZE <= sp <= top -> Forall arg_ok argv -> length ptrs = argc -> (argc <= MAXARG)%nat ->
  exists r k', push_args argv argc d sp ptrs (Xst k out f p cr) = Ok (r, Xst k' out f p cr) /\ touched free0 k k' /\
    match place argv argc (top - PGSIZE) sp ptrs img with
    | Some (sp', ptrs', img') => r = Some (sp', ptrs') /\ stacked img' k' /\ top - PGSIZE <= sp' <= top /\ (length ptrs' <= MAXARG)%nat
    | None => r = None /\ loose kend free0 d k'
    end.
Proof.
  induction argv as [|s argv IH]; intros argc sp ptrs img k out f p cr Sp Hg Hsp Hargs Hlen Hmax; cbn [push_args place].
  { eexists _, k. split; [done|]. split; [apply touched_refl|]. by rewrite Hlen. }
  apply Forall_cons in Hargs as [[Hb Hl] Hargs]. destruct (decide (MAXARG <= argc)%nat) as [Hm|Hm].
  { exists None, k. split; [done|]. split; [apply touched_refl|]. split; [done|]. by eapply space_loose. }
  rewrite align_word. set (sp1 := _ / 4 * 4). assert (Hr : - 2 ^ 25 <= sp1 /\ sp - 4 <= sp1 + Z.of_nat (length s) + 1 <= sp).
  { unfold sp1. change (2 ^ 25) with 33554432 in *. mmu_mod. }
  destruct (copy_below img k sp1 (s ++ [0]) Sp Hg) as (r & k1 & H1 & T1 & Hc); [lia|rewrite length_app; simpl; mmu_lia|apply Forall_app; split; [done|by repeat constructor]|by destruct s|].
  rewrite (bind_Ok _ _ _ _ _ (on_xk_Ok _ k out f p cr _ _ H1)). destruct (decide (sp1 < _)) as [Hd|Hd]; destruct Hc as [-> Hc].
  - by exists None, k1.
  - rewrite (u32_small sp1) by (pose proof (sp_size _ _ _ _ _ _ _ _ _ _ _ Sp) as Hs; unfold UPAGES in Hs; mmu_lia).
    change (0 <? 0) with false. cbn iota. destruct (IH (S argc) sp1 (ptrs ++ [sp1]) (put_bytes sp1 (s ++ [0]) img) k1 out f p cr) as (r & k2 & H2 & T2 & Hres);
      [done|done|lia|done|rewrite length_app; simpl; lia|lia|].
    exists r, k2. split; [done|]. split; [by eapply touched_trans|done].
Qed.

End stack.

(** ** The two address spaces *)

Section change.

Context (me kend kdata : Z).

Hypothesis kend_above : KERNBASE < kend.
Hypothesis kdata_page : kdata mod PGSIZE = 0.
Hypothesis kdata_range : KERNLINK < kdata < KERNBASE + PHYSTOP.

(** When [exec] began: the memory, the address space of the process, and the
    free pages. *)
Context (k0 : kst) (pg0 : Z) (tabs0 pm0 : gmap Z Z) (free0 : list Z).

Hypothesis V0 : vm kend k0 pg0 tabs0 pm0 free0.

Abbreviation mine := (owned pg0 tabs0 pm0).

(** The process has what it had, with its content; the same pages are free. *)
Definition kept (k : kst) : Prop :=
  touched free0 k0 k /\ exists free, vm kend k pg0 tabs0 pm0 free /\ free ≡ₚ free0.

Lemma kept_intro k free : touched free0 k0 k -> kmem_rep kend k free -> free ≡ₚ free0 -> kept k.
Proof.
  intros T K P. split; [done|]. exists free. split; [|done]. constructor; [done| |].
  - eapply parent_frame; [apply V0| |exact T]. apply V0.
  - intros a Ha. rewrite P. by apply V0.
Qed.

Lemma discard_space k d : touched free0 k0 k -> loose kend free0 d k -> exists k', freevm kend d k = Ok (tt, k') /\ kept k'.
Proof.
  intros T (tabs & pm & free & V & P). destruct (freevm_ok kend kend_above k d tabs pm free V) as (k' & free' & H & K & P' & T').
  exists k'. split; [done|]. apply (kept_intro k' free'); [|done|by rewrite P'].
  eapply touched_trans; [exact T|]. eapply touched_mono; [exact T'|]. intros a Ha. by rewrite <- P.
Qed.

Lemma take_over g d n img k tabs pm free :
  touched free0 k0 k -> space kend kdata g free0 d n img k tabs pm free ->
  exists k' free', freevm kend pg0 k = Ok (tt, k') /\ touched (mine ++ free0) k0 k' /\ space kend kdata g (mine ++ free0) d n img k' tabs pm free'.
Proof.
  intros T Sp. pose proof (sp_vm _ _ _ _ _ _ _ _ _ _ _ Sp) as V. pose proof (sp_perm _ _ _ _ _ _ _ _ _ _ _ Sp) as P.
  assert (Hsub : forall a, a ∈ owned d tabs pm \/ a ∈ free -> a ∈ free0) by (intros a Ha; rewrite <- P; by apply elem_of_app).
  assert (V1 : vm kend k pg0 tabs0 pm0 free).
  { constructor; [apply V|eapply parent_frame; [apply V0|apply V0|exact T]|]. intros a Ha Hf. apply (vm_sep _ _ _ _ _ _ V0 a Ha). auto. }
  destruct (freevm_ok kend kend_above k pg0 tabs0 pm0 free V1) as (k' & free' & H & K & P' & T'). exists k', free'. split; [done|].
  assert (Hd : forall a, a ∈ owned d tabs pm -> a ∉ mine ++ free).
  { intros a Ha [Hm|Hf]%elem_of_app; [apply (vm_sep _ _ _ _ _ _ V0 a Hm); auto|by apply (vm_sep _ _ _ _ _ _ V a Ha)]. }
  split.
  - apply (touched_trans _ _ k).
    + eapply touched_mono; [exact T|]. intros a Ha. apply elem_of_app. by right.
    + eapply touched_mono; [exact T'|]. intros a [Ha|Ha]%elem_of_app; apply elem_of_app; auto.
  - destruct Sp as [_ Hn Hu Hr Hdm Hc _ Hb]. constructor; try done.
    + constructor; [done| |intros a Ha; rewrite P'; auto]. eapply parent_frame; [apply V|exact Hd|exact T'].
    + rewrite P'. rewrite <- P. by rewrite Permutation_app_swap_app.
    + intros x Hx. rewrite <- Hb by done. apply (ubyte_frame kend kdata (mine ++ free) k k' d tabs pm free); [done|done| |unfold UPAGES in Hn; mmu_lia].
      intros a Ha. apply Hd, elem_owned. auto.
Qed.

(** ** From the stack on *)

(** The size, the stack pointer and the image with the stack. *)
Definition finish (argv : list (list Z)) (sz : Z) (img : Z -> Z) : option (Z * Z * (Z -> Z)) :=
  let top := (pages_for sz + 2) * PGSIZE in
  if decide (KERNBASE <= top) then None
  else match stack argv top img with Some (sp, img) => Some (top, sp, img) | None => None end.

(** The process [p] as a new program: the guard page below the stack page, the
    old address space given back. *)
Definition started (path : list Z) (p : uproc) (entry top sp : Z) (img : Z -> Z) (s : xst) : Prop :=
  exists d tabs pm free name, xp s = Uproc d top entry sp name (u_cwd p) (u_kstack p) /\
    KString.safestrcpy (u_name p) 0 (last_elem path path ++ [0]) 0 16 = Ok name /\ cstr name 0 (take 15 (last_elem path path)) /\
    xregs s = (d - KERNBASE, u32 (u_kstack p + KSTACKSIZE)) /\ touched (mine ++ free0) k0 (xk s) /\
    space kend kdata (top / PGSIZE - 2) (mine ++ free0) d (top / PGSIZE) img (xk s) tabs pm free.

Lemma last_elem_ok P path : forall last, Forall P path -> Forall P last -> Forall P (last_elem path last).
Proof. induction path as [|c path IH]; intros last Hp Hl; [done|]. apply Forall_cons in Hp as [_ Hp]. cbn [last_elem]. destruct (c =? 47); auto. Qed.

Lemma commit_image_ok path d entry sp g img k out f p cr tabs pm free :
  touched free0 k0 k -> space kend kdata g free0 d (g + 2) img k tabs pm free -> u_pgdir p = pg0 -> u_kstack p <> 0 -> length (u_name p) = 16%nat ->
  Forall (fun v => 0 < v < 256) path ->
  exists s', commit_image kend path d ((g + 2) * PGSIZE) entry sp (Xst k out f p cr) = Ok (0, s') /\ xf s' = f /\
    started path p entry ((g + 2) * PGSIZE) sp img s'.
Proof.
  intros T Sp Hpg Hks Hname Hpath. unfold commit_image. rewrite (bind_Ok (gets xp) _ (Xst k out f p cr) p (Xst k out f p cr) eq_refl).
  assert (Hc : cstr (last_elem path path ++ [0]) 0 (last_elem path path)) by (split; [by exists []|by apply last_elem_ok]).
  destruct (safestrcpy_loop_ok 15 (u_name p) 0 _ 0 _ Hc) as (name & Hn & Hcn & _); [lia|]. change (KString.safestrcpy_loop 15 ?a ?s ?b ?t) with (KString.safestrcpy a s b t 16) in Hn.
  rewrite (bind_Ok _ _ _ _ _ (lift_Ok _ _ _ Hn)). set (p' := Uproc _ _ _ _ _ _ _).
  rewrite (bind_Ok (modify (set_xp p')) _ (Xst k out f p cr) tt (Xst k out f p' cr) eq_refl).
  pose proof (as_pgdir _ _ _ _ _ (vm_as _ _ _ _ _ _ (sp_vm _ _ _ _ _ _ _ _ _ _ _ Sp))) as Hd. pose proof (page_ok_pos _ _ Hd) as Hdp.
  assert (Hsw : switchuvm_ (Xst k out f p' cr) = Ok (tt, Xst k out f p' (d - KERNBASE, u32 (u_kstack p + KSTACKSIZE)))).
  { unfold switchuvm_. rewrite (bind_Ok (gets xp) _ (Xst k out f p' cr) p' _ eq_refl). cbn [p' u_kstack u_pgdir]. apply Z.eqb_neq in Hks as ->.
    replace (d =? 0) with false by (symmetry; apply Z.eqb_neq; lia). by rewrite (bind_Ok _ _ _ _ _ (V2P_lift kend d _ Hd)). }
  rewrite (bind_Ok _ _ _ _ _ Hsw), Hpg. destruct (take_over g d (g + 2) img k tabs pm free T Sp) as (k' & free' & H & T' & S').
  rewrite (bind_Ok _ _ _ _ _ (on_xk_Ok _ k out f p' _ _ _ H)). eexists. split; [done|]. split; [done|]. exists d, tabs, pm, free', name. cbn [xp xregs xk].
  rewrite Z.div_mul by done. replace (g + 2 - 2) with g by lia. done.
Qed.

(** The outcome of the rest of [exec] for an image: the new program, as the
    image and the arguments make it; or nothing has happened, because they
    make none or because there are not enough free pages for it. *)
Definition ends (path : list Z) (argv : list (list Z)) (p : uproc) (cr : Z * Z) (entry sz : Z) (img : Z -> Z) (r : Z) (s : xst) : Prop :=
  match finish argv sz img with
  | Some (top, sp, img) =>
      (r = 0 /\ started path p entry top sp img s) \/
      (r = -1 /\ kept (xk s) /\ xp s = p /\ xregs s = cr /\ (length free0 < space_need (top / PGSIZE))%nat)
  | None => r = -1 /\ kept (xk s) /\ xp s = p /\ xregs s = cr
  end.

Lemma bad_space d k out f p cr :
  touched free0 k0 k -> loose kend free0 d k ->
  exists k', bad me kend d None (Xst k out f p cr) = Ok (-1, Xst k' out f p cr) /\ kept k'.
Proof.
  intros T HL. destruct (discard_space k d T HL) as (k' & H & K). exists k'. split; [|done]. unfold bad.
  destruct HL as (tabs & pm & free & V & _). pose proof (page_ok_pos _ _ (as_pgdir _ _ _ _ _ (vm_as _ _ _ _ _ _ V))) as Hdp.
  replace (d =? 0) with false by (symmetry; apply Z.eqb_neq; lia). by rewrite (bind_Ok _ _ _ _ _ (on_xk_Ok _ k out f p cr _ _ H)).
Qed.

Lemma build_stack_ok path argv d sz entry img k out f p cr tabs pm free :
  touched free0 k0 k -> space kend kdata (-1) free0 d (pages_for sz) img k tabs pm free -> 0 <= sz < KERNBASE -> zero_above sz img ->
  u_pgdir p = pg0 -> u_kstack p <> 0 -> length (u_name p) = 16%nat -> Forall (fun v => 0 < v < 256) path -> Forall arg_ok argv ->
  exists r s', build_stack me kend path argv d sz entry (Xst k out f p cr) = Ok (r, s') /\ xf s' = f /\ ends path argv p cr entry sz img r s'.
Proof.
  intros T Sp Hsz Hz Hpg Hks Hname Hpath Hargs. unfold build_stack, ends, finish. destruct (pages_of_sz sz ltac:(lia)) as [-> Hp]. fold (pages_for sz) in *. set (g := pages_for sz) in *.
  unfold UPAGES in Hp. rewrite (u32_small (g * PGSIZE + 2 * PGSIZE)) by mmu_lia. replace (g * PGSIZE + 2 * PGSIZE) with ((g + 2) * PGSIZE) by lia.
  assert (Hg : pages_for (g * PGSIZE) = g) by (unfold pages_for; mmu_mod). assert (Htop : pages_for ((g + 2) * PGSIZE) = g + 2) by (unfold pages_for; mmu_mod).
  destruct (space_alloc kend kdata kend_above kdata_page kdata_range k out free0 d tabs pm free (g * PGSIZE) ((g + 2) * PGSIZE) img) as (r & k1 & out1 & H1 & T1 & Hr);
    [by rewrite Hg|mmu_lia|mmu_lia|by rewrite Hg|].
  rewrite (bind_Ok _ _ _ _ _ (on_xv_Ok _ k out f p cr _ _ _ H1)). pose proof (touched_trans _ _ _ _ T T1) as T01. rewrite Z.max_r, Htop in Hr by mmu_lia.
  destruct Hr as [(-> & Hlt & tabs1 & pm1 & free1 & S1)|(-> & HL & Hwhy)].
  2:{ change (0 =? 0) with true. destruct (bad_space d k1 out1 f p cr T01 HL) as (k2 & H2 & K2). exists (-1), (Xst k2 out1 f p cr). split; [done|]. split; [done|].
      destruct (decide _); [done|]. destruct (stack _ _ _) as [[sp img']|]; [|done]. right. rewrite Z.div_mul by done. destruct Hwhy; [lia|done]. }
  rewrite Htop in S1. replace ((g + 2) * PGSIZE =? 0) with false by (symmetry; apply Z.eqb_neq; mmu_lia). rewrite (decide_False (P := KERNBASE <= _)) by lia.
  replace ((g + 2) * PGSIZE - 2 * PGSIZE) with (g * PGSIZE) by lia. rewrite u32_small by mmu_lia.
  destruct (space_guard kend kdata kdata_range free0 d (g + 2) img k1 tabs1 pm1 free1 g S1 ltac:(lia)) as (k2 & pm2 & H2 & T2 & S2).
  rewrite (bind_Ok _ _ _ _ _ (on_xk_Ok _ k1 out1 f p cr _ _ H2)).
  destruct (push_args_ok kend kdata kend_above kdata_page kdata_range free0 d g tabs1 pm2 free1 argv 0 ((g + 2) * PGSIZE) [] img k2 out1 f p cr S2) as (r & k3 & H3 & T3 & Ha);
    [lia|mmu_lia|done|done|lia|]. pose proof (touched_trans _ _ _ _ (touched_trans _ _ _ _ T01 T2) T3) as T03. rewrite (bind_Ok _ _ _ _ _ H3).
  unfold stack. destruct (place _ _ _ _ _ _) as [[[sp ptrs] img3]|] eqn:E; destruct Ha as [-> Ha].
  2:{ destruct (bad_space d k3 out1 f p cr T03 Ha) as (k4 & H4 & K4). by exists (-1), (Xst k4 out1 f p cr). }
  destruct Ha as (S3 & Hsp & Hmax). cbn iota. change (Z.of_nat MAXARG) with 32 in *. assert (Hn : Z.of_nat (length ptrs) <= 32) by (unfold MAXARG in Hmax; lia).
  replace (3 + Z.of_nat (length ptrs) + 1) with (4 + Z.of_nat (length ptrs)) by lia. set (sp' := sp - _).
  destruct (copy_below kend kdata kend_above kdata_page kdata_range free0 d g tabs1 pm2 free1 img3 k3 sp' (mjoin (le_enc 4 <$> ustack sp ptrs)) S3) as (r & k4 & H4 & T4 & Hc);
    [lia|unfold sp'; mmu_lia|rewrite frame_length, ustack_length; unfold sp'; mmu_lia|apply frame_bytes|by unfold ustack|].
  rewrite (bind_Ok _ _ _ _ _ (on_xk_Ok _ k3 out1 f p cr _ _ H4)). pose proof (touched_trans _ _ _ _ T03 T4) as T04.
  destruct (decide (sp' < _)) as [Hd|Hd]; destruct Hc as [-> Hc].
  - destruct (bad_space d k4 out1 f p cr T04 Hc) as (k5 & H5 & K5). by exists (-1), (Xst k5 out1 f p cr).
  - rewrite (u32_small sp') by (unfold sp' in *; mmu_lia). change (0 <? 0) with false. cbn iota. destruct (commit_image_ok path d entry sp' g _ k4 out1 f p cr _ _ _ T04 Hc) as (s' & H5 & F5 & St); try done.
    exists 0, s'. split; [done|]. split; [done|]. by left.
Qed.

End change.
