(* ===== verification/ExecProps.v ===== *)
(** * What exec does

    [exec] as a whole: the file named by the path is read inside one
    transaction and turned into a new address space, or everything is as it
    was. *)

From S2P Require Import Prelude Spinlock Mmu Kalloc Console CString Block Sleeplock Bio Log LogCrash Fs FsTx FsAlloc FsFile FsRw FsInode FsDir FsPath FsProps Vm VmPt VmMap VmKern VmUser VmCopy Sysfile FileWrite Exec ExecSpace ExecLoad ExecStack.

#[local] Opaque kernel_map.

(** The header of a program file. *)
Definition header (data : list Z) : option (list Z) :=
  let h := slice data 0 ELFHDR in
  if decide (Z.of_nat (length data) < ELFHDR) then None else if e_magic h =? ELF_MAGIC then Some h else None.

(** The entry point, the size and the bytes of the program in a file. *)
Definition load_file (data : list Z) : option (Z * Z * (Z -> Z)) :=
  match header data with
  | Some h =>
      match image data (Z.to_nat (e_phnum h)) (i32 (e_phoff h)) 0 (fun _ => 0) with
      | Some (sz, img) => Some (e_entry h, sz, img)
      | None => None
      end
  | None => None
  end.

(** The program with its arguments: the entry point, the size, the stack
    pointer and the bytes. *)
Definition program (data : list Z) (argv : list (list Z)) : option (Z * Z * Z * (Z -> Z)) :=
  match load_file data with
  | Some (entry, sz, img) =>
      match finish argv sz img with
      | Some (top, sp, img) => Some (entry, top, sp, img)
      | None => None
      end
  | None => None
  end.

(** The inode that [path] names, from the current directory [cwd]. *)
Definition target (sk : superblock) (C : gmap Z block) (cwd : Z) (path : list Z) : option Z :=
  walk sk false C (match path with c :: _ => if c =? slash then ROOTINO else cwd | [] => cwd end) (path_elems (S (length (path ++ [0]))) path).

Section exec.

Context (me kend kdata : Z) (devsw : Z -> devops) (sk : superblock).

Hypothesis kend_above : KERNBASE < kend.
Hypothesis kdata_page : kdata mod PGSIZE = 0.
Hypothesis kdata_range : KERNLINK < kdata < KERNBASE + PHYSTOP.

(** ** The transaction *)

Context (f0 : fsys) (C : gmap Z block) (G : Z -> Prop).

Hypothesis Hlay : layout sk.
Hypothesis Hq : quiet me sk (lo f0) C.
Hypothesis Hsb : sb f0 = sk.
Hypothesis Ha : alloc_ok sk C.
Hypothesis HG : closed sk C G.
Hypothesis Hic : ic_ok me sk C None (icache f0).
Hypothesis Htwo : two_free (icache f0).

Abbreviation tview := (tview me (busy (lo f0)) (bio (lo f0))).

(** No operation is outstanding, the disk has the same content outside the
    log, and each inode of the cache the same references. *)
Definition same_fs (f : fsys) : Prop :=
  (exists C', quiet me sk (lo f) C' /\ agree (lg (lo f0)) C' C) /\ sb f = sk /\ ic_ok me sk C None (icache f) /\
  refs_by (icache f0) (icache f) (fun _ => 0).

Lemma leave f : tview (lo f) C ∅ ∅ -> sb f = sk -> ic_ok me sk C None (icache f) -> refs_by (icache f0) (icache f) (fun _ => 0) ->
  exists f', on_lo (end_op me) f = Ok (tt, f') /\ same_fs f'.
Proof.
  intros T Hs Hc Hr. destruct (end_quiet me sk devsw (lo f0) (lo f) C C ∅ Hq Hlay T (logged_refl _ _)) as (l2 & C2 & tr & H & Q & _ & Hag & _).
  { rewrite size_empty. unfold LOGSIZE, MAXOPBLOCKS. lia. }
  exists (set_lo l2 f). split; [by apply on_lo_Ok|]. split; [by exists C2|]. done.
Qed.

(** The file is open for reading. *)
Definition opened (f : fsys) (ip : nat) (i : inode) : Prop :=
  reading me (busy (lo f0)) (bio (lo f0)) C ip i f /\ sb f = sk /\ ic_ok me sk C (Some ip) (icache f) /\ refs_by (icache f0) (icache f) (one_at ip) /\
  0 < i_ref i /\ i_nlink i <> 0.

Lemma opened_same f f' ip i : opened f ip i -> same_files f f' -> reading me (busy (lo f0)) (bio (lo f0)) C ip i f' -> opened f' ip i.
Proof. intros (R & H) [l ->] R'. split; [done|exact H]. Qed.

Lemma close_file f ip i : opened f ip i ->
  exists f1 f', iunlockput me ip f = Ok (tt, f1) /\ on_lo (end_op me) f1 = Ok (tt, f') /\ same_fs f'.
Proof.
  intros ([T Hi] & Hs & Hc & Hr & Hp & Hn). destruct (drop_ref me sk f C (icache f0) ip i Hc Hi Hp Hn Hr) as (ic' & H1 & Hc' & Hr').
  destruct (leave (set_icache ic' f) T Hs Hc' Hr') as (f' & H2 & S2). by exists (set_icache ic' f), f'.
Qed.

Lemma walk_good es : forall n m, G n -> walk sk false C n es = Some m -> G m.
Proof.
  induction es as [|e es IH]; intros n m Hn; cbn [walk]; [by intros [= ->]|]. destruct (Z.eqb_spec (i_type (dnode sk C n)) T_DIR) as [Hd|]; [|done].
  destruct (dir_lookup _ _) as [k|] eqn:E; [|done]. apply dir_lookup_Some in E as [Hk Hk0]. apply IH. by apply (g_entry _ _ _ HG).
Qed.

Context (cwd : nat) (e0 : inode) (path : list Z).

Hypothesis Hcwd : icache f0 !! cwd = Some e0.
Hypothesis Href : 0 < i_ref e0.
Hypothesis Hgood : G (i_inum e0).
Hypothesis Hroot : G ROOTINO.
Hypothesis Hpath : Forall (fun v => 0 < v < 256) path.

Abbreviation found := (target sk C (i_inum e0) path).

Hypothesis Hfile : forall m, found = Some m -> file_ok sk C (dnode sk C m) /\ i_type (dnode sk C m) <> T_DEV.

(** [begin_op] and [namei]. *)
Lemma enter :
  exists f1 f2 r, on_lo begin_op f0 = Ok (tt, f1) /\ namei me devsw cwd (path ++ [0]) 0 f1 = Ok (r, f2) /\ tview (lo f2) C ∅ ∅ /\ sb f2 = sk /\
    ic_ok me sk C None (icache f2) /\ outcome (icache f0) found r (icache f2).
Proof.
  destruct (begin_quiet me sk (lo f0) C Hq) as [H1 T1]. set (l1 := set_lg (busy (lo f0)) (lo f0)) in *. set (f1 := set_lo l1 f0).
  assert (Hc : cstr (path ++ [0]) 0 path) by (split; [by exists []|done]).
  destruct (namex_ok me (busy (lo f0)) (bio (lo f0)) sk devsw false f1 C ∅ G cwd e0 (path ++ [0]) 0 path (replicate DIRSIZ 0)) as (l2 & ic2 & r & name & H2 & T2 & Hic2 & Ho); try done.
  { rewrite size_empty. unfold NBUF. lia. }
  { by repeat constructor. }
  exists f1, (set_icache ic2 (set_lo l2 f1)), r. split; [by apply on_lo_Ok|]. split; [unfold namei; by rewrite (bind_Ok _ _ _ _ _ H2)|]. done.
Qed.

(** [ilock] on what was found. *)
Lemma lock_file f ip m :
  tview (lo f) C ∅ ∅ -> sb f = sk -> ic_ok me sk C None (icache f) -> found = Some m -> outcome (icache f0) (Some m) (Some ip) (icache f) ->
  exists f' i, ilock me (Some ip) f = Ok (tt, f') /\ opened f' ip i /\ i_dev i = 1 /\ fdata C i = fdata C (dnode sk C m) /\ file_ok sk C i /\ i_type i <> T_DEV.
Proof.
  intros T Hs Hc Hm (q & e & [= <-] & Hr & He & En). destruct (Hfile m Hm) as [Hf Ht]. assert (HGm : G m).
  { eapply walk_good; [|exact Hm]. destruct path as [|c cs]; [done|]. by destruct (c =? slash). }
  assert (Hpos : 0 < i_ref e).
  { destruct (lookup_lt_is_Some_2 (icache f0) ip) as [e1 He1]; [rewrite (c_len _ _ _ _ _ Hic), <- (c_len _ _ _ _ _ Hc); by eapply lookup_lt_Some|].
    destruct (Hr ip e1 He1) as (e2 & He2 & Hre & _). rewrite He in He2. simplify_eq. pose proof (c_ref _ _ _ _ _ Hic ip e1 He1). unfold one_at in Hre. rewrite decide_True in Hre by done. lia. }
  destruct (ilock_ok me (busy (lo f0)) (bio (lo f0)) sk f C ∅ ip e T Hs Ha) as (i & l & H1 & T1 & Hc1 & Ei & Er & Ed & _ & Ht1 & Hn1 & Hs1 & Ha1); try done.
  { rewrite size_empty. unfold NBUF. lia. }
  { rewrite En. by apply (g_type _ _ _ HG). }
  rewrite Ei, En in *. exists (set_ip ip i (set_lo l f)), i. split; [done|]. split; [|split_and!; try done; [by apply fdata_copy|by eapply file_ok_copy|by rewrite Ht1]].
  split_and!; try done; [split; [done|by apply (set_ip_here ip e)]| |lia|rewrite Hn1; by apply (g_nlink _ _ _ HG)].
  apply (refs_by_same (icache f0) _ _ ip e); try done; [apply one_at_nonneg|congruence].
Qed.

(** ** The process *)

Context (k0 : kst) (pg0 : Z) (tabs0 pm0 : gmap Z Z) (free0 : list Z) (p : uproc) (cr : Z * Z).

Hypothesis V0 : vm kend k0 pg0 tabs0 pm0 free0.
Hypothesis Hpg : u_pgdir p = pg0.
Hypothesis Hks : u_kstack p <> 0.
Hypothesis Hname : length (u_name p) = 16%nat.

Context (argv : list (list Z)).

Hypothesis Hargs : Forall arg_ok argv.

Abbreviation kept := (kept kend k0 pg0 tabs0 pm0 free0).
Abbreviation started := (started kend kdata k0 pg0 tabs0 pm0 free0 path p).

(** The process, its memory and the free pages are as they were. *)
Definition unchanged (s : xst) : Prop := kept (xk s) /\ xp s = p /\ xregs s = cr.

(** What [exec] did, for the program there is or the lack of one. *)
Definition did (want : option (Z * Z * Z * (Z -> Z))) (r : Z) (s : xst) : Prop :=
  match want with
  | Some (entry, top, sp, img) =>
      (r = 0 /\ started entry top sp img s) \/ (r = -1 /\ unchanged s /\ (length free0 < space_need (top / PGSIZE))%nat)
  | None => r = -1 /\ unchanged s
  end.

Lemma bad_plain k out f ip i : kept k -> opened f ip i ->
  exists s', bad me kend 0 (Some ip) (Xst k out f p cr) = Ok (-1, s') /\ same_fs (xf s') /\ unchanged s'.
Proof.
  intros K O. destruct (close_file f ip i O) as (f1 & f2 & H1 & H2 & S2). exists (Xst k out f2 p cr). unfold bad. change (0 =? 0) with true. cbn iota.
  rewrite (bind_Ok (ret tt) _ (Xst k out f p cr) tt _ eq_refl), (bind_Ok _ _ _ _ _ (on_xf_Ok _ k out f p cr _ _ H1)).
  by rewrite (bind_Ok _ _ _ _ _ (on_xf_Ok _ k out f1 p cr _ _ H2)).
Qed.

Lemma bad_built k out f ip i d : touched free0 k0 k -> loose kend free0 d k -> opened f ip i ->
  exists s', bad me kend d (Some ip) (Xst k out f p cr) = Ok (-1, s') /\ same_fs (xf s') /\ unchanged s'.
Proof.
  intros T HL O. destruct (close_file f ip i O) as (f1 & f2 & H1 & H2 & S2). destruct (discard_space kend kend_above k0 pg0 tabs0 pm0 free0 V0 k d T HL) as (k' & H & K).
  destruct HL as (tabs & pm & free & V & _). pose proof (page_ok_pos _ _ (as_pgdir _ _ _ _ _ (vm_as _ _ _ _ _ _ V))) as Hdp.
  exists (Xst k' out f2 p cr). unfold bad. replace (d =? 0) with false by (symmetry; apply Z.eqb_neq; lia).
  rewrite (bind_Ok _ _ _ _ _ (on_xk_Ok _ k out f p cr _ _ H)), (bind_Ok _ _ _ _ _ (on_xf_Ok _ k' out f p cr _ _ H1)).
  by rewrite (bind_Ok _ _ _ _ _ (on_xf_Ok _ k' out f1 p cr _ _ H2)).
Qed.

Lemma finish_size sz img top sp img' : 0 <= sz -> finish argv sz img = Some (top, sp, img') -> 0 <= pages_for sz <= top / PGSIZE.
Proof.
  intros Hs. unfold finish. destruct (decide _); [done|]. destruct (stack _ _ _) as [[sp1 img1]|]; [|done]. intros [= <- _ _]. rewrite Z.div_mul by done. unfold pages_for. mmu_mod.
Qed.

(** Nothing happened, and either there is no program or not enough memory. *)
Lemma did_nothing want s :
  unchanged s -> (forall entry top sp img, want = Some (entry, top, sp, img) -> (length free0 < space_need (top / PGSIZE))%nat) -> did want (-1) s.
Proof. intros U H. destruct want as [[[[entry top] sp] img]|]; [|done]. right. split; [done|]. split; [done|]. by eapply H. Qed.

Lemma need_ge n : 0 <= n -> (65 <= space_need n)%nat.
Proof. intros Hn. unfold space_need. assert (-1 <= (n - 1) / 1024) by (apply Z.div_le_lower_bound; lia). lia. Qed.

Lemma finish_short sz img (entry entry' top sp : Z) img' :
  0 <= sz -> (length free0 < space_need (pages_for sz))%nat ->
  match finish argv sz img with Some (top, sp, img) => Some (entry, top, sp, img) | None => None end = Some (entry', top, sp, img') ->
  (length free0 < space_need (top / PGSIZE))%nat.
Proof.
  intros Hs Hl H. destruct (finish argv sz img) as [[[t s] j]|] eqn:E; [|done]. simplify_eq. apply finish_size in E; [|done].
  eapply Nat.lt_le_trans; [exact Hl|]. by apply space_need_mono.
Qed.

Lemma load_did out f ip i :
  opened f ip i -> i_dev i = 1 -> file_ok sk C i -> i_type i <> T_DEV ->
  exists r s', exec_file me kend kdata devsw path argv ip (Xst k0 out f p cr) = Ok (r, s') /\ same_fs (xf s') /\ did (program (fdata C i) argv) r s'.
Proof.
  intros O Hdev Hf Ht. pose proof O as (R & _). unfold exec_file, program, load_file, header.
  destruct (read_file me devsw sk _ _ C ip i Ha Hdev Hf Ht f 0 ELFHDR R ltac:(done) ltac:(done)) as (l1 & H1 & R1).
  rewrite (bind_Ok _ _ _ _ _ (on_xf_Ok _ k0 out f p cr _ _ H1)). assert (O1 : opened (set_lo l1 f) ip i) by (eapply opened_same; [exact O|by exists l1|done]).
  assert (K0 : kept k0) by (apply (kept_intro kend k0 pg0 tabs0 pm0 free0 V0 k0 free0); [apply touched_refl|apply V0|done]).
  pose proof (read_piece sk C i Ha Hf 0 0 ELFHDR ELFHDR ltac:(done) ltac:(done) ltac:(done)) as Hp. rewrite Z.add_0_r in Hp.
  destruct (file_read _ _ _) as [c bs]. cbn [fst snd]. destruct Hp as [(-> & Hfit & ->)|(Hne & Hshort & _)].
  2:{ apply Z.eqb_neq in Hne as ->. rewrite decide_True by lia. destruct (bad_plain k0 out _ ip i K0 O1) as (s' & H & F & U). by exists (-1), s'. }
  rewrite Z.eqb_refl, decide_False by lia. set (h := slice _ 0 ELFHDR). cbn [negb].
  destruct (e_magic h =? ELF_MAGIC); cbn [negb]; [|destruct (bad_plain k0 out _ ip i K0 O1) as (s' & H & F & U); by exists (-1), s'].
  destruct (space_start kend kdata kend_above kdata_page kdata_range k0 free0 (vm_mem _ _ _ _ _ _ V0)) as (d & k1 & H2 & T1 & [(Hd & tabs & free & S1)|(-> & Hs & fr & K & P)]).
  2:{ rewrite (bind_Ok _ _ _ _ _ (on_xk_Ok _ k0 out _ p cr _ _ H2)). change (0 =? 0) with true. cbn iota.
      destruct (bad_plain k1 out _ ip i (kept_intro kend k0 pg0 tabs0 pm0 free0 V0 k1 fr T1 K P) O1) as (s' & H & F & U). exists (-1), s'. split; [done|]. split; [done|].
      apply did_nothing; [done|]. intros entry top sp img. destruct (image _ _ _ _ _) as [[sz img1]|] eqn:E; [|done]. apply image_size in E. intros Hfin.
      eapply (finish_short sz img1); [done| |exact Hfin]. eapply Nat.lt_le_trans; [exact Hs|]. apply need_ge; unfold pages_for; mmu_mod. }
  rewrite (bind_Ok _ _ _ _ _ (on_xk_Ok _ k0 out _ p cr _ _ H2)). apply Z.eqb_neq in Hd as ->.
  destruct (segments_ok me kend kdata devsw sk _ _ C ip i kend_above kdata_page kdata_range Ha Hdev Hf Ht free0 d (Z.to_nat (e_phnum h)) (i32 (e_phoff h)) 0 (fun _ => 0)
    k1 out (set_lo l1 f) p cr tabs _ free S1 R1) as (r & k2 & out2 & f2 & H3 & T2 & F2 & R2 & Hb); [done|done|].
  rewrite (bind_Ok _ _ _ _ _ H3). pose proof (touched_trans _ _ _ _ T1 T2) as T02. pose proof (opened_same _ _ _ _ O1 F2 R2) as O2. destruct r as [sz|].
  - destruct Hb as (img & tabs2 & pm2 & free2 & -> & Hsz & Hz & S2). destruct (close_file f2 ip i O2) as (f3 & f4 & H4 & H5 & S4).
    rewrite (bind_Ok _ _ _ _ _ (on_xf_Ok _ k2 out2 f2 p cr _ _ H4)), (bind_Ok _ _ _ _ _ (on_xf_Ok _ k2 out2 f3 p cr _ _ H5)).
    destruct (build_stack_ok me kend kdata kend_above kdata_page kdata_range k0 pg0 tabs0 pm0 free0 V0 path argv d sz (e_entry h) img k2 out2 f4 p cr tabs2 pm2 free2)
      as (r & s' & H6 & F6 & E6); try done.
    exists r, s'. split; [done|]. split; [by rewrite F6|].
    unfold ends in E6. destruct (finish argv sz img) as [[[top sp] img']|]; [|done]. destruct E6 as [?|(? & ? & ? & ? & ?)]; [by left|by right].
  - destruct Hb as [HL Hwhy]. destruct (bad_built k2 out2 f2 ip i d T02 HL O2) as (s' & H & F & U). exists (-1), s'. split; [done|]. split; [done|].
    apply did_nothing; [done|]. intros entry top sp img. destruct Hwhy as [-> |(sz & img1 & E & Hs)]; [done|]. rewrite E.
    apply finish_short; [by eapply image_size|done].
Qed.

(** C36: in a file system in order with no operation outstanding, and if the
    path does not lead to a device and each argument has less than 32 MB,
    [exec] returns.  With a path to a file
    that holds a program the arguments fit, and enough free pages, it returns
    0 and the process has the address space that the file and the arguments
    describe: the bytes of the segments, zeros where the file says nothing,
    the guard page without user access, the strings and [main]'s frame on the
    stack page, the kernel above; the entry point and the stack pointer are
    set, [cr3] and [esp0] loaded, and every page of the old address space is free again.
    Otherwise it returns -1 and the process, its memory, these registers and the free
    pages are what they were.  In each case the transaction has ended, the
    disk is unchanged outside the log, and no inode reference is left over. *)
Theorem exec_replaces_or_keeps out :
  u_cwd p = cwd ->
  exists r s', exec me kend kdata devsw path argv (Xst k0 out f0 p cr) = Ok (r, s') /\ same_fs (xf s') /\
    did (match found with Some m => program (fdata C (dnode sk C m)) argv | None => None end) r s'.
Proof.
  intros Hc. unfold exec. rewrite (bind_Ok (gets xp) _ (Xst k0 out f0 p cr) p _ eq_refl), Hc. destruct enter as (f1 & f2 & r & H1 & H2 & T2 & S2 & Hic2 & Ho).
  rewrite (bind_Ok _ _ _ _ _ (on_xf_Ok _ k0 out f0 p cr _ _ H1)), (bind_Ok _ _ _ _ _ (on_xf_Ok _ k0 out f1 p cr _ _ H2)).
  destruct found as [m|] eqn:Em in Ho |- *.
  - pose proof Ho as (ip & e & -> & _). destruct (lock_file f2 ip m T2 S2 Hic2 Em Ho) as (f3 & i & H3 & O & Hdev & <- & Hf & Ht).
    rewrite (bind_Ok _ _ _ _ _ (on_xf_Ok _ k0 out f2 p cr _ _ H3)). by apply load_did.
  - destruct Ho as [-> Hr]. destruct (leave f2 T2 S2 Hic2 Hr) as (f3 & H3 & S3). rewrite (bind_Ok _ _ _ _ _ (on_xf_Ok _ k0 out f2 p cr _ _ H3)).
    assert (Hv : exists out', vprint (codes "exec: fail
") (Vst k0 out) = Ok (tt, Vst k0 out')) by (eexists; unfold vprint; reflexivity). destruct Hv as [out' Hv].
    rewrite (bind_Ok _ _ _ _ _ (on_xv_Ok _ k0 out f3 p cr _ _ _ Hv)). exists (-1), (Xst k0 out' f3 p cr). split; [done|]. split; [done|]. split; [done|].
    split; [|done]. apply (kept_intro kend k0 pg0 tabs0 pm0 free0 V0 k0 free0); [apply touched_refl|apply V0|done].
Qed.

End exec.
