(* ===== verification/ExecDemo.v ===== *)
(** * Executing a small program

    The program of four bytes on the disk of [FsDemo], started by a process
    whose address space is the kernel alone. *)

From S2P Require Import Prelude Spinlock Mmu Kalloc Console CString Block Sleeplock Bio Log Fs FsTx FsAlloc FsFile FsRw FsInode FsDir FsPath FsDemo Vm VmPt VmMap VmKern VmUser VmCopy VmDemo Sysfile FileWrite FileDemo Exec ExecSpace ExecLoad ExecStack ExecProps.

#[local] Opaque kernel_map.

Definition demo_path : list Z := [98].
Definition demo_argv : list (list Z) := [[98]; [104; 105]].

Lemma demo_target : target demo_sb demo_disk 1 demo_path = Some 3.
Proof.
  unfold target. change (path_elems _ _) with [[98]]. change (match demo_path with [] => _ | _ => _ end) with 1. cbn [walk].
  rewrite (demo_dnode 1) by (by left). rewrite decide_True by done. rewrite demo_root_data. by vm_compute.
Qed.

Lemma demo_prog_data : fdata demo_disk (dnode demo_sb demo_disk 3) = demo_elf.
Proof. rewrite demo_dnode by (right; by right). by vm_compute. Qed.

(** Two strings, the frame of [main] with two arguments below them. *)
Definition demo_seen : list Z :=
  match program demo_elf demo_argv with Some (entry, top, sp, img) => [entry; top; sp; img 0; img 4; img 12260] | None => [] end.

Lemma demo_program : exists img, program demo_elf demo_argv = Some (0, 12288, 12256, img) /\ img 0 = 235 /\ img 4 = 0 /\ img 12260 = 2.
Proof.
  assert (H : demo_seen = [0; 12288; 12256; 235; 0; 2]) by (by vm_compute). unfold demo_seen in H.
  destruct (program demo_elf demo_argv) as [[[[entry top] sp] img]|]; [|done]. injection H as -> -> -> H1 H2 H3. exists img. auto.
Qed.

Definition demo_uproc (pgdir : Z) : uproc := Uproc pgdir 0 0 0 (replicate 16 0) 0 4096.

Lemma exec_replaces_or_keeps_witness :
  exists k pgdir s' pm, exec 3 demo_end demo_data nodev demo_path demo_argv (Xst k [] demo_idle (demo_uproc pgdir) (0, 0)) = Ok (0, s') /\
    u_eip (xp s') = 0 /\ u_esp (xp s') = 12256 /\ ubyte (pages (xk s')) pm 0 = Some 235 /\ ubyte (pages (xk s')) pm 12260 = Some 2.
Proof.
  destruct demo_space as (k & pgdir & tabs & free & V & Hl & _). destruct demo_program as (img & Hp & I0 & _ & I2).
  destruct (exec_replaces_or_keeps 3 demo_end demo_data nodev demo_sb demo_kend demo_data_page demo_data_range demo_idle demo_disk demo_inums
    demo_layout demo_quiet eq_refl demo_alloc demo_closed demo_ic) with (cwd := 0%nat) (e0 := demo_root) (path := demo_path) (k0 := k) (pg0 := pgdir)
    (tabs0 := tabs) (pm0 := kernel_map demo_data) (free0 := free) (p := demo_uproc pgdir) (cr := (0, 0)) (argv := demo_argv) (out := @nil Z) as (r & s' & H & _ & Hd).
  - exists 2%nat, 3%nat, free_inode, free_inode. split_and!; reflexivity || discriminate.
  - reflexivity.
  - simpl. lia.
  - by left.
  - by left.
  - repeat constructor; lia.
  - intros m. change (i_inum demo_root) with 1. rewrite demo_target. intros [= <-]. rewrite demo_dnode by (right; by right). split; [|discriminate].
    apply (one_block_file _ _ _ 8); [reflexivity|discriminate|split; [discriminate|reflexivity]|by apply demo_free|split; discriminate].
  - exact V.
  - reflexivity.
  - discriminate.
  - reflexivity.
  - repeat constructor; simpl; unfold PGSIZE; lia.
  - reflexivity.
  - change (i_inum demo_root) with 1 in Hd. rewrite demo_target, demo_prog_data, Hp in Hd. destruct Hd as [[-> St]|(_ & _ & Hs)].
    + destruct St as (d & tabs' & pm & free' & name & Ex & _ & _ & _ & _ & Sp). exists k, pgdir, s', pm. split; [exact H|]. rewrite Ex. split; [done|]. split; [done|].
      pose proof (sp_bytes _ _ _ _ _ _ _ _ _ _ _ Sp) as Hb. rewrite !Hb by (vm_compute; split; [discriminate|reflexivity]). rewrite I0, I2. split; reflexivity.
    + change (space_need (12288 / PGSIZE)) with 70%nat in Hs. lia.
Defined.
