(* ===== verification/Trap.v ===== *)
(** * Traps and the system calls on processes

    Models [trap] of [trap.c], [syscall] of [syscall.c] and the calls of
    [sysproc.c], on the state of [Proc].  A routine that gives up the processor
    is split there, as in [Proc]; the rest is the definition whose name ends in
    [_back].  The handlers of the other devices and the calls of [sysfile.c],
    which work on other parts of the kernel, are arguments. *)

From S2P Require Import Prelude Spinlock Mmu Kalloc Console CString SkipList Proc Syscall.

Definition T_SYSCALL : Z := 64.
Definition T_IRQ0 : Z := 32.
Definition IRQ_TIMER : Z := 0.
Definition IRQ_KBD : Z := 1.
Definition IRQ_COM1 : Z := 4.
Definition IRQ_IDE : Z := 14.
Definition IRQ_SPURIOUS : Z := 31.
Definition NSYSCALLS : Z := 26.

(** How a call ends: with a value; the process sleeps or has yielded inside
    it; the process is gone. *)
Inductive callend := Done (v : Z) | Blocked | NoReturn.

(** How a trap ends: with the return to what was interrupted; the process has
    given up the processor; the process is gone. *)
Inductive trapend := Return | Switched | Gone.

Definition set_eax (v : Z) (t : trapframe) : trapframe :=
  Trapframe (tf_edi t) (tf_esi t) (tf_ebp t) (tf_oesp t) (tf_ebx t) (tf_edx t) (tf_ecx t) v
    (tf_gs t) (tf_fs t) (tf_es t) (tf_ds t) (tf_trapno t)
    (tf_err t) (tf_eip t) (tf_cs t) (tf_eflags t) (tf_esp t) (tf_ss t).

Section code.

#[local] Remove Hints kalloc_page_alloc : typeclass_instances.

Context (kend : Z) {E : Type} `{!KEnv E}.

Abbreviation MP := (M (pst E)).

(** The addresses of [ticks] and [tickslock]. *)
Context (ticks_at tickslock_at : Z).

(** Device handlers, and the value of [cr2]. *)
Context (ideintr kbdintr uartintr lapiceoi shutdown : MP unit) (rcr2 : Z).

(** The calls of [sysfile.c], by their numbers. *)
Context (filecall : Z -> MP callend).

(** ** sysproc.c *)

(** [argint] for the current process. *)
Definition arg (n : Z) : MP (option Z) :=
  let* i := curproc in
  let* p := get_proc i in
  let* k := gets (fun s => kmem (rq s)) in
  lift (argint (pages k) (Uctx (pgdir p) (sz p) (tf_esp (tf p))) n).

Definition sys_fork : MP callend := let* r := fork kend in ret (Done r).

Definition sys_exit : MP callend := exit kend ;;; ret NoReturn.

Definition sys_wait : MP callend :=
  let* r := wait kend in
  match r with Some v => ret (Done v) | None => ret Blocked end.

Definition sys_kill : MP callend :=
  let* a := arg 0 in
  match a with
  | None => ret (Done (-1))
  | Some pid => let* r := kill kend pid in ret (Done r)
  end.

Definition sys_getpid : MP callend :=
  let* i := curproc in
  let* p := get_proc i in
  ret (Done (pid p)).

Definition sys_sbrk : MP callend :=
  let* a := arg 0 in
  match a with
  | None => ret (Done (-1))
  | Some n =>
      let* i := curproc in
      let* p := get_proc i in
      let* r := growproc n in
      if r <? 0 then ret (Done (-1)) else ret (Done (i32 (sz p)))
  end.

(** The loop of [sys_sleep] from its test on; [tickslock] is held.  [n] is
    converted to unsigned for the comparison. *)
Definition sys_sleep_back (ticks0 n : Z) : MP callend :=
  let* t := gets ticks in
  if u32 (t - ticks0) <? u32 n then
    let* i := curproc in
    let* p := get_proc i in
    if negb (killed p =? 0) then on_lock_at tickslock_at release ;;; ret (Done (-1))
    else sleep_out (ChAddr ticks_at) (LkAt tickslock_at) ;;; ret Blocked
  else on_lock_at tickslock_at release ;;; ret (Done 0).

Definition sys_sleep : MP callend :=
  let* a := arg 0 in
  match a with
  | None => ret (Done (-1))
  | Some n =>
      on_lock_at tickslock_at acquire ;;;
      let* ticks0 := gets ticks in
      sys_sleep_back ticks0 n
  end.

Definition sys_uptime : MP callend :=
  on_lock_at tickslock_at acquire ;;;
  let* xticks := gets ticks in
  on_lock_at tickslock_at release ;;;
  ret (Done (i32 xticks)).

Definition sys_yield : MP callend := yield_out ;;; ret Blocked.

(** The value of [sys_yield] when the process runs again. *)
Definition sys_yield_back : Z := 0.

Definition sys_shutdown : MP callend := shutdown ;;; ret (Done 0).

Definition sys_schedlog : MP callend :=
  let* a := arg 0 in
  match a with
  | None => ret (Done (-1))
  | Some n => schedlog n ;;; ret (Done 0)
  end.

Definition sys_nicefork : MP callend :=
  let* a := arg 0 in
  match a with
  | None => ret (Done (-1))
  | Some nice => let* r := nicefork kend nice in ret (Done r)
  end.

(** ** syscall.c *)

(** The table: every number from 1 to 25 has an entry. *)
Definition syscalls (num : Z) : option (MP callend) :=
  if num =? SYS_fork then Some sys_fork
  else if num =? SYS_exit then Some sys_exit
  else if num =? SYS_wait then Some sys_wait
  else if num =? SYS_kill then Some sys_kill
  else if num =? SYS_getpid then Some sys_getpid
  else if num =? SYS_sbrk then Some sys_sbrk
  else if num =? SYS_sleep then Some sys_sleep
  else if num =? SYS_uptime then Some sys_uptime
  else if num =? SYS_yield then Some sys_yield
  else if num =? SYS_shutdown then Some sys_shutdown
  else if num =? SYS_schedlog then Some sys_schedlog
  else if num =? SYS_nicefork then Some sys_nicefork
  else if (0 <? num) && (num <? NSYSCALLS) then Some (filecall num)
  else None.

(** [curproc->tf->eax = v] *)
Definition put_eax (i : nat) (v : Z) : MP unit := upd_proc i (fun p => with_tf (set_eax (u32 v) (tf p)) p).

Definition syscall : MP callend :=
  let* i := curproc in
  let* p := get_proc i in
  let num := i32 (tf_eax (tf p)) in
  match (if (0 <? num) && (num <? NSYSCALLS) then syscalls num else None) with
  | Some call =>
      let* r := call in
      match r with
      | Done v => put_eax i v ;;; ret (Done v)
      | r => ret r
      end
  | None =>
      cprint "%d %s: unknown sys call %d
" [AInt (pid p); AStr (Some (name_str (pname p))); AInt num] ;;;
      put_eax i (-1) ;;;
      ret (Done (-1))
  end.

(** ** trap.c *)

(** The process is killed and was in user space, where [user] says so. *)
Definition exit_if_killed (user : bool) : MP bool :=
  let* o := myproc in
  match o with
  | None => ret false
  | Some i =>
      let* p := get_proc i in
      if negb (killed p =? 0) && user then exit kend ;;; ret true else ret false
  end.

Definition from_user (t : trapframe) : bool := Z.land (tf_cs t) 3 =? DPL_USER.

(** The end of [trap], also after a [yield] in it. *)
Definition trap_back (t : trapframe) : MP trapend :=
  let* gone := exit_if_killed (from_user t) in
  ret (if gone then Gone else Return).

(** The end of a system call, also after one that blocked. *)
Definition trap_syscall_back : MP trapend :=
  let* i := curproc in
  let* p := get_proc i in
  if negb (killed p =? 0) then exit kend ;;; ret Gone else ret Return.

Definition timer_intr : MP unit :=
  let* m := on_cpu mycpu in
  (if decide (m = 0%nat) then
     on_lock_at tickslock_at acquire ;;;
     modify (fun s => set_ticks (u32 (ticks s + 1)) s) ;;;
     wakeup kend (ChAddr ticks_at) ;;;
     on_lock_at tickslock_at release
   else ret tt) ;;;
  lapiceoi.

Definition unexpected (t : trapframe) : MP unit :=
  let* o := myproc in
  match o with
  | Some i =>
      if Z.land (tf_cs t) 3 =? 0 then
        let* m := on_cpu mycpu in
        cprint "unexpected trap %d from cpu %d eip %x (cr2=0x%x)
" [AInt (tf_trapno t); AInt (Z.of_nat m); AInt (tf_eip t); AInt rcr2] ;;;
        panic "trap"
      else
        let* p := get_proc i in
        let* m := on_cpu mycpu in
        cprint "pid %d %s: trap %d err %d on cpu %d eip 0x%x addr 0x%x--kill proc
" [AInt (pid p); AStr (Some (name_str (pname p))); AInt (tf_trapno t); AInt (tf_err t); AInt (Z.of_nat m); AInt (tf_eip t); AInt rcr2] ;;;
        upd_proc i (with_killed 1)
  | None =>
      let* m := on_cpu mycpu in
      cprint "unexpected trap %d from cpu %d eip %x (cr2=0x%x)
" [AInt (tf_trapno t); AInt (Z.of_nat m); AInt (tf_eip t); AInt rcr2] ;;;
      panic "trap"
  end.

(** The [switch] over the interrupts. *)
Definition interrupt (t : trapframe) : MP unit :=
  let n := tf_trapno t in
  if n =? T_IRQ0 + IRQ_TIMER then timer_intr
  else if n =? T_IRQ0 + IRQ_IDE then ideintr ;;; lapiceoi
  else if n =? T_IRQ0 + IRQ_IDE + 1 then ret tt
  else if n =? T_IRQ0 + IRQ_KBD then kbdintr ;;; lapiceoi
  else if n =? T_IRQ0 + IRQ_COM1 then uartintr ;;; lapiceoi
  else if (n =? T_IRQ0 + 7) || (n =? T_IRQ0 + IRQ_SPURIOUS) then
    let* m := on_cpu mycpu in
    cprint "cpu%d: spurious interrupt at %x:%x
" [AInt (Z.of_nat m); AInt (tf_cs t); AInt (tf_eip t)] ;;;
    lapiceoi
  else unexpected t.

(** The clock tick of the running process: [true] if its quantum is used up. *)
Definition count_tick (t : trapframe) : MP bool :=
  let* o := myproc in
  match o with
  | None => ret false
  | Some i =>
      let* p := get_proc i in
      if is_state RUNNING p && (tf_trapno t =? T_IRQ0 + IRQ_TIMER) then
        upd_proc i (fun p => with_ticks_left (i32 (ticks_left p - 1)) p) ;;;
        let* p := get_proc i in
        ret (ticks_left p =? 0)
      else ret false
  end.

Definition trap (t : trapframe) : MP trapend :=
  if tf_trapno t =? T_SYSCALL then
    let* i := curproc in
    let* p := get_proc i in
    if negb (killed p =? 0) then exit kend ;;; ret Gone
    else
      upd_proc i (with_tf t) ;;;
      let* r := syscall in
      match r with
      | Done _ => trap_syscall_back
      | Blocked => ret Switched
      | NoReturn => ret Gone
      end
  else
    interrupt t ;;;
    let* gone := exit_if_killed (from_user t) in
    if gone then ret Gone
    else
      let* up := count_tick t in
      if up then yield_out ;;; ret Switched else trap_back t.

End code.
