(* ===== verification/TrapProps.v ===== *)
(** * Time slices

    What the clock interrupt does to the running process, over the invariant
    of the scheduler. *)

From S2P Require Import Prelude Spinlock Mmu Kalloc Console CString.
From S2P Require Import SkipList SkipListRep SkipListInsert SkipListInit SkipListDelete RunQueue.
From S2P Require Import Proc ProcBase ProcSched ProcSleep ProcLife ProcProps Syscall Trap.

#[local] Remove Hints kalloc_page_alloc kalloc_page_alloc_laws : typeclass_instances.

Section slices.

Context (kend : Z) {E : Type} `{!KEnv E}.

Implicit Types s : pst E.

Abbreviation MP := (M (pst E)).
Abbreviation inv := (sched_inv kend).

Context (ticks_at tickslock_at : Z).
Context (ideintr kbdintr uartintr lapiceoi shutdown : MP unit) (rcr2 : Z) (filecall : Z -> MP callend).

(** Acknowledging an interrupt is between the processor and its APIC. *)
Hypothesis lapiceoi_ok : forall s, lapiceoi s = Ok (tt, s).

Abbreviation clock := (ChAddr ticks_at).
Abbreviation timer_intr := (timer_intr kend ticks_at tickslock_at lapiceoi).
Abbreviation trap := (trap kend ticks_at tickslock_at ideintr kbdintr uartintr lapiceoi shutdown rcr2 filecall).

(** [tickslock] is free. *)
Definition clock_free s : Prop := exists lk, locks s !! tickslock_at = Some lk /\ locked lk = 0.

(** The processes that are not asleep on the clock are untouched. *)
Definition only_woken s s' : Prop :=
  forall j q, tab s !! j = Some q -> asleep_on clock q = false -> tab s' !! j = Some q.

Definition waiting s : nat := length (sleepers clock (tab s)).

(** Processor [m] counts the time if it is the first. *)
Definition tick_of (m : nat) (t : Z) : Z := if decide (m = 0%nat) then u32 (t + 1) else t.

Lemma timer_intr_ok s l free m o k :
  inv [] s l free -> unheld m 0 o s -> clock_free s -> interruptible (eflags (phw s)) = false -> can_insert (waiting s + k) s free ->
  exists s' l' free', timer_intr s = Ok (tt, s') /\ inv [] s' l' free' /\ unheld m 0 o s' /\ clock_free s' /\ only_woken s s' /\
    ticks s' = tick_of m (ticks s) /\ kpgdir s' = kpgdir s /\ can_insert (waiting s' + k) s' free'.
Proof.
  intros Hi Hu (lk & Hlk & Hfree) Hoff Hcan. pose proof Hu as [Hl Hc]. unfold Trap.timer_intr, tick_of.
  assert (Hm : on_cpu mycpu s = Ok (m, s)) by (apply on_cpu_read; destruct Hc as (c & [Hthis _] & _); by eapply mycpu_ok).
  rewrite (bind_Ok _ _ _ _ _ Hm). destruct (decide (m = 0%nat)) as [H0|H0].
  2:{ rewrite (bind_Ok (ret tt) _ s tt s eq_refl), lapiceoi_ok. exists s, l, free. split; [done|]. split; [done|]. split; [done|].
      split; [by exists lk|]. split; [by intros j q|]. done. }
  destruct (acquire_at (phw s) m 0 o lk Hc ltac:(lia) Hfree) as (h1 & H1 & Hc1). pose proof (lock_at_Ok _ s _ _ _ _ _ Hlk H1) as A1.
  set (s1 := set_locks _ _) in A1. set (s2 := set_ticks (u32 (ticks s1 + 1)) s1).
  assert (Hi2 : inv [] s2 l free).
  { assert (Hi1 : inv [] s1 l free) by (apply inv_locks; apply (inv_hw _ _ _ _ _ _ m 1 o); [done|done|lia]). by destruct Hi1; constructor. }
  destruct (wakeup_ok kend [] clock s2 l free k m 1 o Hi2 Hcan) as (s3 & free3 & H3 & Hw & Hi3 & [Hl3 Hc3] & Hk3 & Hcan3); [by split|lia|].
  destruct Hk3 as (K1 & K2 & K3 & K4 & K5 & K6 & K7 & K8).
  destruct (release_at (phw s3) m 1 o Hc3 ltac:(lia)) as (h4 & H4 & Hc4).
  assert (Hlk3 : locks s3 !! tickslock_at = Some (Spinlock 1 (Some m))) by (rewrite K7; unfold s2, s1; simpl; apply lookup_insert_eq).
  pose proof (lock_at_Ok _ s3 _ _ _ _ _ Hlk3 H4) as A4. set (s4 := set_locks _ _) in A4.
  assert (Hlen : length (tab s) = NPROC) by (apply (t_len _ _ (i_tab _ _ _ _ _ Hi))).
  assert (Hlen3 : length (tab s3) = NPROC) by (apply (t_len _ _ (i_tab _ _ _ _ _ Hi3))).
  exists s4, (insert_all (sleepers clock (tab s)) l), free3. split.
  { erewrite bind_Ok; [apply lapiceoi_ok|]. rewrite (bind_Ok _ _ _ _ _ A1), (bind_Ok (modify (fun s => set_ticks (u32 (ticks s + 1)) s)) _ s1 tt s2 eq_refl), (bind_Ok _ _ _ _ _ H3). exact A4. }
  split; [apply inv_locks; apply (inv_hw _ _ _ _ _ _ m 0 o); [exact Hi3|exact Hc4|lia]|]. split; [by split|].
  split; [exists (Spinlock 0 None); split; [unfold s4; simpl; apply lookup_insert_eq|done]|]. split.
  - intros j q Hq Ha. specialize (Hw j q Hq). by rewrite Ha, andb_false_r in Hw.
  - split; [exact K4|]. split; [exact K6|]. unfold waiting. change (tab s4) with (tab s3). by rewrite (woken_none clock (tab s) (tab s3)).
Qed.

(** ** The process on the processor *)

Lemma exit_if_killed_no s m i p b :
  cpu_is (phw s) m 0 (Some i) -> tab s !! i = Some p -> killed p = 0 ->
  exists h, exit_if_killed kend b s = Ok (false, set_phw h s) /\ cpu_is h m 0 (Some i).
Proof.
  intros Hc Hp Hk. destruct (myproc_at s m 0 (Some i) Hc ltac:(lia)) as (h & H & Hs). exists h. split; [|by apply (cpu_is_sim _ _ _ _ _ Hs)].
  unfold exit_if_killed. rewrite (bind_Ok _ _ _ _ _ H). cbn iota. rewrite (bind_Ok _ _ _ _ _ (get_proc_ok (set_phw h s) i p Hp)). by rewrite Hk.
Qed.

Lemma count_tick_ok s m i p t :
  cpu_is (phw s) m 0 (Some i) -> tab s !! i = Some p -> pstate p = RUNNING -> tf_trapno t = T_IRQ0 + IRQ_TIMER ->
  let p' := with_ticks_left (i32 (ticks_left p - 1)) p in
  exists h, count_tick t s = Ok (ticks_left p' =? 0, set_tab (<[i := p']> (tab s)) (set_phw h s)) /\ cpu_is h m 0 (Some i).
Proof.
  intros Hc Hp Hst Ht p'. destruct (myproc_at s m 0 (Some i) Hc ltac:(lia)) as (h & H & Hs). exists h. split; [|by apply (cpu_is_sim _ _ _ _ _ Hs)].
  unfold count_tick. rewrite (bind_Ok _ _ _ _ _ H). cbn iota. rewrite (bind_Ok _ _ _ _ _ (get_proc_ok (set_phw h s) i p Hp)).
  unfold is_state. rewrite bool_decide_true, Ht by done. cbn [andb]. rewrite Z.eqb_refl, (bind_Ok _ _ _ _ _ (upd_proc_ok (set_phw h s) i p _ Hp)).
  rewrite (bind_Ok _ _ _ _ _ (get_proc_ok (set_tab (<[i := p']> (tab s)) (set_phw h s)) i p' (list_lookup_insert_eq _ _ _ (lookup_lt_Some _ _ _ Hp)))). done.
Qed.

(** Process [i] runs on processor [m] and holds nothing; the run queue has room
    for those who wait for the clock and [k] more. *)
Record runs (k : nat) (m i : nat) (p : proc) s (l : list (Z * Z)) (free : list Z) : Prop := {
  r_inv : inv [] s l free;
  r_cpu : unheld m 0 (Some i) s;
  r_clock : clock_free s;
  r_proc : tab s !! i = Some p;
  r_state : pstate p = RUNNING;
  r_alive : killed p = 0;
  r_room : can_insert (waiting s + k) s free
}.

(** An interrupt: the gate turns interrupts off. *)
Definition gate (t : trapframe) : MP trapend := on_cpu cli ;;; trap t.

Lemma cli_at h m n o : cpu_is h m n o -> exists h', cli h = Ok (tt, h') /\ cpu_is h' m n o /\ interruptible (eflags h') = false.
Proof.
  intros (c & [Ht [Hn He]] & Hc & Ho). eexists. split; [done|]. split; [|apply eflags_off_not_interruptible].
  exists c. split; [|done]. split; [by apply this_cpu_eflags|]. split; [done|]. intros _. apply eflags_off_not_interruptible.
Qed.

Lemma runs_hw k m i p s l free h : runs k m i p s l free -> cpu_is h m 0 (Some i) -> runs k m i p (set_phw h s) l free.
Proof. intros [Hi [Hl _] Hc Hp Hs Hk Hr] Hh. constructor; try done. apply (inv_hw _ _ _ _ _ _ m 0 (Some i)); [done|done|lia]. Qed.

Lemma runs_asleep k m i p s l free : runs k m i p s l free -> asleep_on clock p = false.
Proof. intros R. unfold asleep_on, is_state. by rewrite (r_state _ _ _ _ _ _ _ R). Qed.

(** Up to the count of the ticks. *)
Lemma gate_timer k m i p s l free t :
  runs k m i p s l free -> tf_trapno t = T_IRQ0 + IRQ_TIMER -> 1 <= ticks_left p < 2 ^ 31 ->
  let p' := with_ticks_left (ticks_left p - 1) p in
  exists s' l' free', gate t s = (if ticks_left p =? 1 then yield_out ;;; ret Switched else trap_back kend t) s' /\ runs k m i p' s' l' free' /\
    ticks s' = tick_of m (ticks s) /\ kpgdir s' = kpgdir s.
Proof.
  intros R Ht Hq p'. unfold gate, Trap.trap. destruct (cli_at _ _ _ _ (proj2 (r_cpu _ _ _ _ _ _ _ R))) as (h0 & H0 & Hc0 & Hoff).
  rewrite (bind_Ok _ _ _ _ _ (on_cpu_Ok _ _ _ _ H0)). pose proof (runs_hw _ _ _ _ _ _ _ _ R Hc0) as R0. set (s0 := set_phw h0 s) in *.
  rewrite Ht. change (T_IRQ0 + IRQ_TIMER =? T_SYSCALL) with false. cbn iota. unfold interrupt. rewrite Ht, Z.eqb_refl.
  destruct (timer_intr_ok s0 l free m (Some i) k (r_inv _ _ _ _ _ _ _ R0) (r_cpu _ _ _ _ _ _ _ R0) (r_clock _ _ _ _ _ _ _ R0) Hoff (r_room _ _ _ _ _ _ _ R0))
    as (s1 & l1 & free1 & H1 & Hi1 & Hu1 & Hf1 & Hw1 & Ht1 & Hk1 & Hcan1).
  rewrite (bind_Ok _ _ _ _ _ H1). pose proof (Hw1 i p (r_proc _ _ _ _ _ _ _ R0) (runs_asleep _ _ _ _ _ _ _ R0)) as Hp1.
  assert (R1 : runs k m i p s1 l1 free1) by (constructor; try done; apply R).
  destruct (exit_if_killed_no s1 m i p (from_user t) (proj2 Hu1) Hp1 (r_alive _ _ _ _ _ _ _ R)) as (h2 & H2 & Hc2).
  rewrite (bind_Ok _ _ _ _ _ H2). cbn iota. pose proof (runs_hw _ _ _ _ _ _ _ _ R1 Hc2) as R2. set (s2 := set_phw h2 s1) in *.
  destruct (count_tick_ok s2 m i p t Hc2 Hp1 (r_state _ _ _ _ _ _ _ R) Ht) as (h3 & H3 & Hc3). rewrite i32_small in H3 by (unfold i32_range; lia). fold p' in H3.
  rewrite (bind_Ok _ _ _ _ _ H3). cbn [ticks_left with_ticks_left p']. replace (ticks_left p - 1 =? 0) with (ticks_left p =? 1) by (destruct (Z.eqb_spec (ticks_left p) 1); symmetry; [apply Z.eqb_eq|apply Z.eqb_neq]; lia).
  exists (set_tab (<[i := p']> (tab s2)) (set_phw h3 s2)), l1, free1. split; [done|]. split; [|done]. pose proof (runs_hw _ _ _ _ _ _ _ _ R2 Hc3) as R3.
  constructor; try apply R3.
  - by apply (sched_inv_minor kend [] (set_phw h3 s2) l1 free1 i p p'); [apply R3|exact Hp1|].
  - simpl. by apply list_lookup_insert_eq, (lookup_lt_Some _ _ p).
  - pose proof (sleepers_upd clock (tab s1) i p p' Hp1 eq_refl) as El. pose proof (r_room _ _ _ _ _ _ _ R3) as Hr. unfold waiting in *.
    change (tab (set_tab (<[i := p']> (tab s2)) (set_phw h3 s2))) with (<[i := p']> (tab s1)). rewrite El. exact Hr.
Qed.

Lemma gate_returns k m i p s l free t :
  runs k m i p s l free -> tf_trapno t = T_IRQ0 + IRQ_TIMER -> 1 < ticks_left p < 2 ^ 31 ->
  exists s' l' free', gate t s = Ok (Return, s') /\ runs k m i (with_ticks_left (ticks_left p - 1) p) s' l' free' /\
    ticks s' = tick_of m (ticks s) /\ kpgdir s' = kpgdir s.
Proof.
  intros R Ht Hq. destruct (gate_timer k m i p s l free t R Ht ltac:(lia)) as (s1 & l1 & free1 & H1 & R1 & Ht1 & Hk1).
  replace (ticks_left p =? 1) with false in H1 by (symmetry; apply Z.eqb_neq; lia).
  destruct (exit_if_killed_no s1 m i _ (from_user t) (proj2 (r_cpu _ _ _ _ _ _ _ R1)) (r_proc _ _ _ _ _ _ _ R1) (r_alive _ _ _ _ _ _ _ R1)) as (h & H & Hc).
  exists (set_phw h s1), l1, free1. split; [|split; [by apply runs_hw|done]]. rewrite H1. unfold trap_back. by rewrite (bind_Ok _ _ _ _ _ H).
Qed.

(** [n] clock interrupts one after the other, while the process runs in user
    space in between. *)
Fixpoint run_for (n : nat) (t : trapframe) : MP trapend :=
  match n with
  | O => ret Return
  | S n => let* e := gate t in match e with Return => run_for n t | e => ret e end
  end.

(** The time after [n] of them. *)
Definition time_after (m n : nat) (now : Z) : Z := Nat.iter n (tick_of m) now.

Lemma run_for_ok n : forall k m i p s l free t,
  runs k m i p s l free -> tf_trapno t = T_IRQ0 + IRQ_TIMER -> Z.of_nat n < ticks_left p < 2 ^ 31 ->
  exists s' l' free', (forall j, run_for (n + j) t s = run_for j t s') /\
    runs k m i (with_ticks_left (ticks_left p - Z.of_nat n) p) s' l' free' /\ ticks s' = time_after m n (ticks s) /\ kpgdir s' = kpgdir s.
Proof.
  induction n as [|n IH]; intros k m i p s l free t R Ht Hq.
  { exists s, l, free. split; [done|]. split; [|done]. rewrite Z.sub_0_r. by destruct p. }
  destruct (gate_returns k m i p s l free t R Ht ltac:(lia)) as (s1 & l1 & free1 & H1 & R1 & Ht1 & Hk1).
  destruct (IH k m i _ s1 l1 free1 t R1 Ht) as (s2 & l2 & free2 & H2 & R2 & Ht2 & Hk2); [simpl; lia|].
  exists s2, l2, free2. split; [|split; [|split]].
  - intros j. cbn [Nat.add run_for]. rewrite (bind_Ok _ _ _ _ _ H1). apply H2.
  - replace (ticks_left p - Z.of_nat (S n)) with (ticks_left p - 1 - Z.of_nat n) by lia. exact R2.
  - rewrite Ht2, Ht1. unfold time_after. by rewrite <- Nat.iter_succ_r.
  - congruence.
Qed.

(** C37: a process that stays in user space keeps the processor
    for exactly the ticks of its quantum.  Each clock interrupt before the last
    returns to it, with one tick less; the last one makes it yield, and the
    scheduler queues it with a new deadline, counted from the time it is then.
    Meanwhile the first processor has counted every tick, and those who waited
    for the clock are queued too. *)
Theorem quantum_is_exact m i p s l free t :
  let q := Z.to_nat (ticks_left p) in let now := time_after m q (ticks s) in
  runs 1 m i p s l free -> tf_trapno t = T_IRQ0 + IRQ_TIMER -> 1 <= ticks_left p < 2 ^ 31 -> KERNBASE <= kpgdir s ->
  0 <= deadline_at now (nice_value p) ->
  (forall n, (n < q)%nat -> exists s' l' free', run_for n t s = Ok (Return, s') /\
     runs 1 m i (with_ticks_left (ticks_left p - Z.of_nat n) p) s' l' free' /\ ticks s' = time_after m n (ticks s)) /\
  exists s1 s2 l1 free2 p2, run_for q t s = Ok (Switched, s1) /\ scheduler_back kend (pid p) i s1 = Ok (None, s2) /\
    ticks s2 = now /\ tab s2 !! i = Some p2 /\ pid p2 = pid p /\ pstate p2 = RUNNABLE /\ ticks_left p2 = 0 /\
    virtual_deadline p2 = deadline_at now (nice_value p) /\
    inv [] s2 (insert_entry (pid p, virtual_deadline p2) l1) free2 /\ unheld m 0 None s2.
Proof.
  intros q now R Ht Hq Hk Hd. split.
  - intros n Hn. destruct (run_for_ok n 1 m i p s l free t R Ht ltac:(lia)) as (s' & l' & free' & H & R' & Ht' & _).
    exists s', l', free'. specialize (H O). rewrite Nat.add_0_r in H. by rewrite H.
  - destruct (run_for_ok (q - 1) 1 m i p s l free t R Ht ltac:(lia)) as (s0 & l0 & free0 & H0 & R0 & Ht0 & Hk0).
    destruct (gate_timer 1 m i _ s0 l0 free0 t R0 Ht) as (s1 & l1 & free1 & H1 & R1 & Ht1 & Hk1); [simpl; lia|].
    cbn [ticks_left with_ticks_left] in H1, R1. replace (ticks_left p - Z.of_nat (q - 1) =? 1) with true in H1 by (symmetry; apply Z.eqb_eq; lia).
    set (p1 := with_ticks_left _ _) in R1. destruct (yield_out_ok kend [] s1 l1 free1 m i p1 (r_inv _ _ _ _ _ _ _ R1) (r_cpu _ _ _ _ _ _ _ R1) (r_proc _ _ _ _ _ _ _ R1) (r_state _ _ _ _ _ _ _ R1))
      as (v & s2 & H2 & Htab & Hi2 & Hh2 & (_ & _ & _ & Kt & _ & Kk & _) & Hs2). set (p2 := with_ctx _ _) in Htab.
    assert (Hp2 : tab s2 !! i = Some p2) by (rewrite Htab; by apply list_lookup_insert_eq, (lookup_lt_Some _ _ _ (r_proc _ _ _ _ _ _ _ R1))).
    assert (Hz : ticks_left p2 = 0) by (simpl; lia). assert (Enow : ticks s2 = now).
    { rewrite Kt, Ht1, Ht0. unfold now, time_after. rewrite <- Nat.iter_succ. do 2 f_equal. lia. }
    assert (Hnd : next_deadline s2 p2 = deadline_at now (nice_value p)) by (unfold next_deadline; by rewrite Hz, Enow).
    destruct (scheduler_back_runnable kend [] s2 l1 free1 m i p2 0 Hi2) as (lvl & s3 & free3 & H3 & Htab3 & Hi3 & Hu3 & (_ & _ & _ & K3 & _) & _); try done.
    { apply not_elem_of_nil. }
    { rewrite Kk, Hk1, Hk0. done. }
    { by rewrite Hnd. }
    { pose proof (r_room _ _ _ _ _ _ _ R1) as Hr. apply (can_insert_le _ (waiting s1 + 1)); [|lia]. unfold can_insert in *. by rewrite Hs2. }
    rewrite Hnd in Htab3, Hi3. exists s2, s3, l1, free3, (with_max_level lvl (with_vd (deadline_at now (nice_value p)) p2)). split.
    { replace q with (q - 1 + 1)%nat by lia. rewrite (H0 1%nat). cbn [run_for]. unfold bind at 1. rewrite H1. unfold bind at 1. rewrite H2. done. }
    split; [exact H3|]. split; [congruence|]. split; [rewrite Htab3; by apply list_lookup_insert_eq, (lookup_lt_Some _ _ _ Hp2)|]. done.
Qed.

End slices.

(** ** A machine *)

#[local] Opaque demo_q1 demo_free demo_end demo_sl.

(** Process 2 with three ticks left; process 4 waits for the clock. *)
Definition demo_slice : pst unit := set_locks {[9 := Spinlock 0 None]} (demo_pst RUNNING 3 0 (Some 1%nat)).

Definition demo_timer : trapframe := Trapframe 0 0 0 0 0 0 0 0 0 0 0 0 (T_IRQ0 + IRQ_TIMER) 0 0 27 0 0 35.

Lemma phw_set_locks {E} lk (s : pst E) : phw (set_locks lk s) = phw s.
Proof. done. Qed.

Lemma seed_set_locks {E} lk (s : pst E) : seed (rq (set_locks lk s)) = seed (rq s).
Proof. done. Qed.

Lemma quantum_is_exact_witness :
  exists s1 s2 p2,
    run_for demo_end 77 9 (ret tt) (ret tt) (ret tt) (ret tt) (ret tt) 0 (fun _ => ret NoReturn) 3 demo_timer demo_slice = Ok (Switched, s1) /\
    scheduler_back demo_end 2 1 s1 = Ok (None, s2) /\ tab s2 !! 1%nat = Some p2 /\ virtual_deadline p2 = ticks demo_slice + 3 + 1050.
Proof.
  destruct (quantum_is_exact demo_end 77 9 (ret tt) (ret tt) (ret tt) (ret tt) (ret tt) 0 (fun _ => ret NoReturn) (fun s => eq_refl) 0 1
    (demo_proc RUNNING 2 (Some O) ChNull 3 30) demo_slice [(3, 40)] (demo_free 1993) demo_timer) as [_ H].
  - constructor; try reflexivity.
    + apply inv_locks. apply demo_inv; [by left|lia].
    + split; [reflexivity|]. unfold demo_slice. rewrite phw_set_locks. apply (demo_unheld RUNNING 3 0 (Some 1%nat)). lia.
    + by exists (Spinlock 0 None).
    + apply (can_insert_le _ 3); [unfold can_insert, demo_slice; rewrite seed_set_locks; apply (demo_can_insert RUNNING 3 0 (Some 1%nat))|change (waiting 77 demo_slice) with 1%nat; lia].
  - reflexivity.
  - simpl. lia.
  - discriminate.
  - discriminate.
  - destruct H as (s1 & s2 & l1 & free2 & p2 & H1 & H2 & _ & H3 & _ & _ & _ & H4 & _). exists s1, s2, p2.
    split; [exact H1|]. split; [exact H2|]. split; [exact H3|]. rewrite H4. reflexivity.
Defined.
