(* ===== verification/Mkfs.v ===== *)
(** * [mkfs]

    The program that builds the disk image (mkfs.c).  It runs on the host at
    build time; the image is the file it writes sector by sector.  A failed
    [assert] and [exit(1)] are [Panic]; the messages on the terminal are left
    out.  The host is little-endian, as the target is. *)

From S2P Require Import Prelude Block Sleeplock Log Fs FsDir.

Definition FSSIZE : Z := 2000.
Definition NINODES : Z := 200.

(** [xshort], [xint]: the value whose bytes in memory are those of [x], low
    byte first. *)
Definition xshort (x : Z) : Z := le_dec (le_enc 2 x).
Definition xint (x : Z) : Z := le_dec (le_enc 4 x).

Definition nbitmap : Z := FSSIZE / (BSIZE * 8) + 1.
Definition ninodeblocks : Z := NINODES / IPB + 1.
Definition nlog : Z := LOGSIZE.
Definition nmeta : Z := 2 + nlog + ninodeblocks + nbitmap.
Definition nblocks : Z := FSSIZE - nmeta.

Definition sb : superblock :=
  Superblock (xint FSSIZE) (xint nblocks) (xint NINODES) (xint nlog) (xint 2) (xint (2 + nlog)) (xint (2 + nlog + ninodeblocks)).

(** The globals: the image [fsfd] by sectors, and the two counters. *)
Record mst := Mst { img : gmap Z block; freeinode : Z; freeblock : Z }.

Definition set_img v s := Mst v (freeinode s) (freeblock s).
Definition set_freeinode v s := Mst (img s) v (freeblock s).
Definition set_freeblock v s := Mst (img s) (freeinode s) v.

Definition zeroes : block := replicate (Z.to_nat BSIZE) 0.

(** A file named on the command line: its name, and what [read] returns of it,
    call by call, until 0; [None] when [open] fails. *)
Record arg := Arg { arg_name : list Z; arg_reads : option (list (list Z)) }.

Section mkfs.

(** The sectors the host refuses to write (its disk is full). *)
Context (refuses : Z -> bool).

Definition wsect (sec : Z) (buf : block) : M mst unit :=
  if FSSIZE <? sec then panic "failed: trying to write sector"
  else if refuses sec then panic "write"
  else modify (fun s => set_img (<[sec := buf]> (img s)) s).

Definition rsect (sec : Z) : M mst block :=
  if FSSIZE <? sec then panic "failed: trying to read sector"
  else
    let* m := gets img in
    match m !! sec with Some d => ret d | None => panic "read" end.

(** A [struct dinode] is an [inode] of which only the fields on disk count. *)
Definition dinode0 (inum : Z) : inode :=
  Inode 1 inum 1 (Sleeplock 0 0) 1 0 0 0 0 0 (replicate (Z.to_nat NDIRECT + 1) 0).

Definition winode (inum : Z) (ip : inode) : M mst unit :=
  let bn := IBLOCK inum sb in
  let* buf := rsect bn in
  wsect bn (put_dinode (Z.to_nat (inum mod IPB)) ip buf).

Definition rinode (inum : Z) : M mst inode :=
  let bn := IBLOCK inum sb in
  let* buf := rsect bn in
  ret (load_dinode (Z.to_nat (inum mod IPB)) buf (dinode0 inum)).

Definition ialloc (type : Z) : M mst Z :=
  let* inum := gets freeinode in
  modify (set_freeinode (u32 (inum + 1))) ;;;
  let din := with_size (xint 0) (with_nlink (xshort 1) (with_type (xshort type) (dinode0 inum))) in
  winode inum din ;;;
  ret inum.

(** The loop of [balloc]. *)
Fixpoint mark_loop (n i : nat) (buf : block) : block :=
  match n with
  | O => buf
  | S n' => mark_loop n' (S i) (<[(i / 8)%nat := u8 (Z.lor (nth (i / 8) buf 0) (Z.shiftl 1 (Z.of_nat (i mod 8))))]> buf)
  end.

Definition balloc (used : Z) : M mst unit :=
  if negb (used <? BSIZE * 8) then panic "assert"
  else wsect (sb_bmapstart sb) (mark_loop (Z.to_nat used) 0 zeroes).

(** [xint(freeblock++)] *)
Definition next_block : M mst Z :=
  let* b := gets freeblock in
  modify (set_freeblock (u32 (b + 1))) ;;;
  ret (xint b).

(** The block [fbn] of [din], allocated if need be: the first part of the loop
    of [iappend]. *)
Definition file_block (din : inode) (fbn : Z) : M mst (inode * Z) :=
  if fbn <? NDIRECT then
    let* din :=
      if xint (addr_of din fbn) =? 0 then let* b := next_block in ret (set_addr fbn b din) else ret din in
    ret (din, xint (addr_of din fbn))
  else
    let* din :=
      if xint (addr_of din NDIRECT) =? 0 then let* b := next_block in ret (set_addr NDIRECT b din) else ret din in
    let* indirect := rsect (xint (addr_of din NDIRECT)) in
    let e := (4 * Z.to_nat (fbn - NDIRECT))%nat in
    if get_u32 e indirect =? 0 then
      let* b := next_block in
      let indirect := put_u32 e b indirect in
      wsect (xint (addr_of din NDIRECT)) indirect ;;;
      ret (din, xint (get_u32 e indirect))
    else ret (din, xint (get_u32 e indirect)).

(** The loop of [iappend]; every turn takes a byte of [p] at least. *)
Fixpoint iappend_loop (fuel : nat) (din : inode) (off : Z) (p : list Z) : M mst (inode * Z) :=
  match fuel with
  | O => nofuel
  | S fuel' =>
      let n := Z.of_nat (length p) in
      if n <=? 0 then ret (din, off)
      else
        let fbn := off / BSIZE in
        if negb (fbn <? MAXFILE) then panic "assert"
        else
          let* (din, x) := file_block din fbn in
          let n1 := Z.min n ((fbn + 1) * BSIZE - off) in
          let* buf := rsect x in
          wsect x (splice (Z.to_nat (off - fbn * BSIZE)) (take (Z.to_nat n1) p) buf) ;;;
          iappend_loop fuel' din (u32 (off + n1)) (drop (Z.to_nat n1) p)
  end.

Definition iappend (inum : Z) (p : list Z) : M mst unit :=
  let* din := rinode inum in
  let* (din, off) := iappend_loop (S (length p)) din (xint (i_size din)) p in
  winode inum (with_size (xint off) din).

(** [bzero(&de, sizeof(de)); de.inum = xshort(inum);] and the name, which
    [strcpy] and [strncpy] put at offset 2. *)
Definition dirent0 (inum : Z) : list Z := put_u16 0 (xshort inum) (replicate ENT 0).

Definition strcpy_name (name de : list Z) : list Z := splice 2 (name ++ [0]) de.

Definition strncpy_name (name de : list Z) : list Z :=
  splice 2 (take DIRSIZ name ++ replicate (DIRSIZ - length name) 0) de.

(** [for(i = 0; i < FSSIZE; i++) wsect(i, zeroes);] *)
Fixpoint zero_sectors (n : nat) (i : Z) : M mst unit :=
  match n with O => ret tt | S n' => wsect i zeroes ;;; zero_sectors n' (i + 1) end.

Definition sb_block : block :=
  put_u32 24 (sb_bmapstart sb) (put_u32 20 (sb_inodestart sb) (put_u32 16 (sb_logstart_ sb) (put_u32 12 (sb_nlog_ sb)
    (put_u32 8 (sb_ninodes sb) (put_u32 4 (sb_nblocks sb) (put_u32 0 (sb_size sb) zeroes)))))).

(** [while((cc = read(fd, buf, sizeof(buf))) > 0) iappend(inum, buf, cc);] *)
Fixpoint copy_file (inum : Z) (reads : list (list Z)) : M mst unit :=
  match reads with [] => ret tt | buf :: reads' => iappend inum buf ;;; copy_file inum reads' end.

(** [if(argv[i][0] == '_') ++argv[i];] *)
Definition skip_underscore (name : list Z) : list Z :=
  match name with c :: name' => if c =? 95 then name' else name | [] => name end.

Fixpoint add_files (rootino : Z) (args : list arg) : M mst unit :=
  match args with
  | [] => ret tt
  | a :: args' =>
      if bool_decide (47 ∈ arg_name a) then panic "assert"
      else
        match arg_reads a with
        | None => panic "open"
        | Some reads =>
            let* inum := ialloc T_FILE in
            iappend rootino (strncpy_name (skip_underscore (arg_name a)) (dirent0 inum)) ;;;
            copy_file inum reads ;;;
            add_files rootino args'
        end
  end.

(** [fix size of root inode dir] *)
Definition fix_root (rootino : Z) : M mst unit :=
  let* din := rinode rootino in
  let off := xint (i_size din) in
  let off := u32 ((off / BSIZE + 1) * BSIZE) in
  winode rootino (with_size (xint off) din).

(** [main]: [image] is whether the file [argv[1]] can be opened, if there is
    an [argv[1]]; [args] are the other arguments. *)
Definition main (image : option bool) (args : list arg) : M mst unit :=
  match image with
  | None => panic "Usage: mkfs fs.img files..."
  | Some false => panic "open"
  | Some true =>
      if negb (BSIZE mod Z.of_nat DINODE =? 0) || negb (BSIZE mod DIRENT =? 0) then panic "assert"
      else
        modify (set_freeblock nmeta) ;;;
        zero_sectors (Z.to_nat FSSIZE) 0 ;;;
        wsect 1 sb_block ;;;
        let* rootino := ialloc T_DIR in
        if negb (rootino =? ROOTINO) then panic "assert"
        else
          iappend rootino (strcpy_name [46] (dirent0 rootino)) ;;;
          iappend rootino (strcpy_name [46; 46] (dirent0 rootino)) ;;;
          add_files rootino args ;;;
          fix_root rootino ;;;
          let* used := gets freeblock in
          balloc used
  end.

End mkfs.

(** The image file is created or truncated by [open]. *)
Definition mkfs0 : mst := Mst ∅ 1 0.
