(* ===== verification/MkfsImage.v ===== *)
(** * The image under construction

    While [mkfs] runs, the bitmap on the image is still empty and the blocks
    below [freeblock] are the ones in use.  The image is read as if [balloc]
    had run already; then taking the next block is what the kernel's allocator
    does, and the kernel's notions of a file apply. *)

From S2P Require Import Prelude Block Sleeplock Log Fs FsTx FsAlloc FsFile FsRw FsInode FsDir FsPath Mkfs.

Lemma xint_id x : u32_range x -> xint x = x.
Proof. intros Hx. unfold xint. rewrite le_dec_enc. by apply Z.mod_small. Qed.

Lemma xshort_id x : 0 <= x < 2 ^ 16 -> xshort x = x.
Proof. intros Hx. unfold xshort. rewrite le_dec_enc. by apply Z.mod_small. Qed.

(** ** The layout *)

Lemma mkfs_layout : layout sb.
Proof. constructor; vm_compute; try split; try reflexivity; try discriminate. Qed.

Lemma sb_size_eq : sb_size sb = FSSIZE.
Proof. reflexivity. Qed.

Lemma data_start_eq : datastart sb = nmeta.
Proof. reflexivity. Qed.

Lemma bmap_pos : 0 <= sb_bmapstart sb < nmeta /\ nmeta < FSSIZE /\ sb_inodestart sb < sb_bmapstart sb /\ sb_inodestart sb = 32.
Proof. vm_compute. repeat split; try reflexivity; discriminate. Qed.

Lemma BBLOCK_one b : 0 <= b < FSSIZE -> BBLOCK b sb = sb_bmapstart sb.
Proof.
  intros Hb. rewrite BBLOCK_eq by (apply mkfs_layout || done). rewrite Z.div_small; [lia|]. unfold FSSIZE, BPB, BSIZE in *. lia.
Qed.

Lemma mod_BPB b : 0 <= b < FSSIZE -> b mod BPB = b.
Proof. intros Hb. apply Z.mod_small. unfold FSSIZE, BPB, BSIZE in *. lia. Qed.

(** ** The bitmap that [balloc] writes *)

Definition marks (used : Z) : block := mark_loop (Z.to_nat used) 0 zeroes.

Lemma zeroes_block : is_block zeroes.
Proof. split; [apply length_replicate|]. apply Forall_replicate. lia. Qed.

Lemma balloc_step i buf : is_block buf ->
  <[(i / 8)%nat := u8 (Z.lor (nth (i / 8) buf 0) (Z.shiftl 1 (Z.of_nat (i mod 8))))]> buf = bit_mark i buf.
Proof.
  intros Hb. unfold bit_mark. destruct (decide (i / 8 < length buf)%nat) as [Hlt|Hge].
  - f_equal. unfold u8. apply Z.mod_small. pose proof (bit_mark_block i buf Hb) as [_ H].
    apply (proj1 (Forall_lookup _ _) H (i / 8)%nat). unfold bit_mark. by rewrite list_lookup_insert_eq.
  - by rewrite !list_insert_ge by lia.
Qed.

Lemma balloc_loop_snoc n : forall i buf, is_block buf -> mark_loop (S n) i buf = bit_mark (i + n) (mark_loop n i buf).
Proof.
  induction n as [|n IH]; intros i buf Hb.
  - cbn [mark_loop]. rewrite balloc_step by done. by rewrite Nat.add_0_r.
  - change (mark_loop (S (S n)) i buf) with
      (mark_loop (S n) (S i) (<[(i / 8)%nat := u8 (Z.lor (nth (i / 8) buf 0) (Z.shiftl 1 (Z.of_nat (i mod 8))))]> buf)).
    rewrite balloc_step, IH by (done || by apply bit_mark_block). cbn [mark_loop]. rewrite balloc_step by done.
    by replace (S i + n)%nat with (i + S n)%nat by lia.
Qed.

Lemma marks_next b : 0 <= b -> marks (b + 1) = bit_mark (Z.to_nat b) (marks b).
Proof.
  intros Hb. unfold marks. replace (Z.to_nat (b + 1)) with (S (Z.to_nat b)) by lia. by rewrite balloc_loop_snoc by apply zeroes_block.
Qed.

Lemma marks_block b : is_block (marks b).
Proof.
  unfold marks. induction (Z.to_nat b) as [|n IH]; [apply zeroes_block|].
  rewrite balloc_loop_snoc by apply zeroes_block. by apply bit_mark_block.
Qed.

Lemma marks_bit n j : (n <= 4096)%nat -> bit_free j (mark_loop n 0 zeroes) = negb (j <? n)%nat.
Proof.
  induction n as [|n IH]; intros Hn.
  - rewrite bit_free_testbit. cbn [mark_loop]. unfold zeroes. rewrite nth_lookup.
    assert (E : default 0 (replicate (Z.to_nat BSIZE) 0 !! (j / 8)%nat) = 0).
    { destruct (replicate _ _ !! _) eqn:E; [|done]. by apply lookup_replicate in E as [-> _]. }
    by rewrite E, Z.testbit_0_l.
  - rewrite balloc_loop_snoc by apply zeroes_block. rewrite bit_free_mark.
    + rewrite IH by lia. rewrite Nat.add_0_l. destruct (Nat.ltb_spec j n), (Nat.ltb_spec j (S n)); try lia; simpl; try done;
        first [apply bool_decide_true; lia|apply bool_decide_false; lia].
    + pose proof (marks_block (Z.of_nat n)) as [Hl _]. unfold marks in Hl. rewrite Nat2Z.id in Hl. rewrite Hl.
      apply Nat.Div0.div_lt_upper_bound. unfold BSIZE. lia.
Qed.

(** ** The image with its bitmap *)

Definition virt (s : mst) : gmap Z block := <[sb_bmapstart sb := marks (freeblock s)]> (img s).

(** All sectors are there; the blocks that have not been handed out are zero. *)
Record sectors (s : mst) : Prop := {
  s_all : forall b, 0 <= b < FSSIZE -> exists d, img s !! b = Some d /\ is_block d;
  s_next : nmeta <= freeblock s <= FSSIZE;
  s_rest : forall b, freeblock s <= b < FSSIZE -> img s !! b = Some zeroes
}.

Lemma virt_else s b : b <> sb_bmapstart sb -> virt s !! b = img s !! b.
Proof. intros H. unfold virt. by rewrite lookup_insert_ne. Qed.

Lemma virt_bit s b : sectors s -> 0 <= b < FSSIZE -> free_bit sb (virt s) b = negb (b <? freeblock s).
Proof.
  intros [_ Hn _] Hb. unfold free_bit, virt. rewrite BBLOCK_one, lookup_insert_eq, mod_BPB by done.
  unfold marks. pose proof bmap_pos. rewrite marks_bit by (unfold FSSIZE in *; lia). f_equal.
  destruct (Nat.ltb_spec (Z.to_nat b) (Z.to_nat (freeblock s))), (Z.ltb_spec b (freeblock s)); done || lia.
Qed.

Lemma virt_alloc s : sectors s -> alloc_ok sb (virt s).
Proof.
  intros H. pose proof bmap_pos. constructor; [apply mkfs_layout| |].
  - intros b Hb. rewrite sb_size_eq in Hb. destruct (decide (b = sb_bmapstart sb)) as [-> |Hne].
    + exists (marks (freeblock s)). split; [apply lookup_insert_eq|apply marks_block].
    + rewrite virt_else by done. apply (s_all _ H). lia.
  - intros b Hb. rewrite data_start_eq in Hb. rewrite virt_bit by (done || lia). pose proof (s_next _ H).
    replace (b <? freeblock s) with true by blia. done.
Qed.

(** ** Sectors *)

Section ops.

Context (refuses : Z -> bool) (Haccept : forall sec, 0 <= sec < FSSIZE -> refuses sec = false).

Lemma wsect_ok s sec buf : 0 <= sec < FSSIZE -> wsect refuses sec buf s = Ok (tt, set_img (<[sec := buf]> (img s)) s).
Proof. intros H. unfold wsect. replace (FSSIZE <? sec) with false by blia. by rewrite Haccept. Qed.

Lemma rsect_ok s sec d : 0 <= sec < FSSIZE -> img s !! sec = Some d -> rsect sec s = Ok (d, s).
Proof.
  intros H Hd. unfold rsect. replace (FSSIZE <? sec) with false by blia.
  rewrite (bind_Ok (gets img) _ s (img s) s) by done. by rewrite Hd.
Qed.

Lemma virt_write s sec d : sec <> sb_bmapstart sb -> virt (set_img (<[sec := d]> (img s)) s) = <[sec := d]> (virt s).
Proof. intros H. unfold virt. simpl. by rewrite insert_insert_ne. Qed.

Lemma write_sectors s sec d : sectors s -> is_block d -> 0 <= sec < freeblock s -> sectors (set_img (<[sec := d]> (img s)) s).
Proof.
  intros [H1 H2 H3] Hd Hs. constructor; simpl; [|done|].
  - intros b Hb. destruct (decide (b = sec)) as [-> |Hne]; [exists d; by rewrite lookup_insert_eq|].
    rewrite lookup_insert_ne by done. by apply H1.
  - intros b Hb. rewrite lookup_insert_ne by lia. by apply H3.
Qed.

(** [freeblock++] *)
Definition bumped (s : mst) : mst := set_freeblock (freeblock s + 1) s.

Lemma next_block_ok s : sectors s -> freeblock s < FSSIZE ->
  next_block s = Ok (freeblock s, bumped s) /\ sectors (bumped s) /\ virt (bumped s) = taken sb (virt s) (freeblock s) (marks (freeblock s)).
Proof.
  intros [H1 H2 H3] Hlt. pose proof bmap_pos as Hp. unfold next_block.
  rewrite (bind_Ok (gets freeblock) _ s (freeblock s) s) by done.
  rewrite (u32_small (freeblock s + 1)) by (unfold u32_range, FSSIZE in *; lia).
  rewrite xint_id by (unfold u32_range, FSSIZE in *; lia). split; [done|]. split.
  - constructor; simpl; [done|lia|]. intros b Hb. apply H3. lia.
  - unfold virt, taken. cbn [bumped set_freeblock img freeblock]. rewrite BBLOCK_one, mod_BPB by lia. rewrite insert_insert_eq, marks_next by lia.
    symmetry. apply insert_id. rewrite lookup_insert_ne by lia. by apply H3.
Qed.

End ops.
