(* ===== verification/MkfsAppend.v ===== *)
(** * Appending to a file of the image

    [iappend] adds blocks to a file as the kernel's [bmap] does and puts the
    bytes behind the end of the file. *)

From S2P Require Import Prelude Block Sleeplock Log Fs FsTx FsAlloc FsFile FsRw FsInode FsDir FsPath Mkfs MkfsImage.

(** A block that was not just added is where it was. *)
Lemma grow_same sk C i C' i' b bn :
  file_ok sk C i -> grow sk C i C' i' ->
  (forall x, 0 <= x < sb_size sk -> free_bit sk C' x = free_bit sk C x && bool_decide (x <> b)) ->
  in_file bn -> fblock C' i' bn <> b -> fblock C' i' bn = fblock C i bn.
Proof.
  intros Hf G Hbits Hin Hne. destruct (decide (fblock C i bn = 0)) as [E|E]; [|by apply (g_blocks _ _ _ _ _ G)].
  rewrite E. destruct (decide (fblock C' i' bn = 0)) as [?|Hx]; [done|exfalso].
  pose proof (g_file _ _ _ _ _ G) as Hf'. assert (Ho : owns C' i' (fblock C' i' bn)) by (split; [done|right; eauto]).
  destruct (g_owned _ _ _ _ _ G _ Ho) as [[_ [Hi|(k & Hk & Hi)]]|Hi].
  - apply (f_ind _ _ _ Hf' bn Hin Hx). rewrite (g_ind _ _ _ _ _ G); congruence.
  - assert (Hkb : fblock C' i' k = fblock C i k) by (apply (g_blocks _ _ _ _ _ G); congruence).
    assert (bn = k) as <- by (apply (f_inj _ _ _ Hf'); congruence). congruence.
  - destruct (f_owned _ _ _ Hf' _ Ho) as [Hr Hu]. pose proof (datastart_le sk (a_layout _ _ (g_alloc _ _ _ _ _ G))).
    rewrite Hbits, Hi, bool_decide_true in Hu by (done || lia). done.
Qed.

(** Blocks already in the file stay in it. *)
Lemma grow_owns sk C i C' i' x : grow sk C i C' i' -> owns C i x -> owns C' i' x.
Proof.
  intros G [Hx [Hi|(bn & Hb & Hi)]]; (split; [done|]).
  - left. rewrite (g_ind _ _ _ _ _ G) by congruence. done.
  - right. exists bn. split; [done|]. rewrite (g_blocks _ _ _ _ _ G) by congruence. done.
Qed.

(** Two images of which the second has one more block in use, by [din']. *)
Record took (s : mst) (din : inode) (s' : mst) (din' : inode) : Prop := {
  t_grow : grow sb (virt s) din (virt s') din';
  t_sectors : sectors s';
  t_inode : freeinode s' = freeinode s;
  t_block : freeblock s' = freeblock s + 1;
  t_owns : owns (virt s') din' (freeblock s)
}.

Lemma took_bits s din s' din' x : sectors s -> took s din s' din' -> 0 <= x < FSSIZE ->
  free_bit sb (virt s') x = free_bit sb (virt s) x && bool_decide (x <> freeblock s).
Proof.
  intros Hs T Hx. rewrite !virt_bit by (done || apply T). rewrite (t_block _ _ _ _ T).
  destruct (Z.ltb_spec x (freeblock s + 1)), (Z.ltb_spec x (freeblock s)); try lia; simpl; try done.
  - by rewrite bool_decide_false by lia.
  - by rewrite bool_decide_true by lia.
Qed.

Lemma took_same s din s' din' bn : sectors s -> file_ok sb (virt s) din -> took s din s' din' -> in_file bn ->
  fblock (virt s') din' bn <> freeblock s -> fblock (virt s') din' bn = fblock (virt s) din bn.
Proof.
  intros Hs Hf T Hin Hne. eapply grow_same; [done|apply T| |done|exact Hne]. intros x Hx. by apply (took_bits s din _ din').
Qed.

Lemma used_block s din x : file_ok sb (virt s) din -> owns (virt s) din x -> nmeta <= x < FSSIZE.
Proof. intros Hf Ho. by destruct (f_owned _ _ _ Hf x Ho). Qed.

Lemma used_below s din x : sectors s -> file_ok sb (virt s) din -> owns (virt s) din x -> nmeta <= x < freeblock s.
Proof.
  intros Hs Hf Ho. destruct (f_owned _ _ _ Hf x Ho) as [Hr Hu]. change (datastart sb) with nmeta in Hr. change (sb_size sb) with FSSIZE in Hr.
  pose proof bmap_pos. rewrite virt_bit in Hu by (done || lia). destruct (Z.ltb_spec x (freeblock s)); [lia|done].
Qed.

Lemma addr_u32 s din k : file_ok sb (virt s) din -> 0 <= k <= NDIRECT -> u32_range (addr_of din k).
Proof.
  intros Hf Hk. destruct (decide (addr_of din k = 0)) as [-> |Hne]; [done|]. pose proof bmap_pos.
  assert (Ho : owns (virt s) din (addr_of din k)).
  { split; [done|]. destruct (decide (k = NDIRECT)) as [-> |Hd]; [by left|right]. exists k. split; [apply direct_in_file; lia|].
    unfold fblock. by replace (k <? NDIRECT) with true by blia. }
  apply (used_block s din _ Hf) in Ho. unfold u32_range, FSSIZE in *. lia.
Qed.

Section ops.

Context (refuses : Z -> bool) (Haccept : forall sec, 0 <= sec < FSSIZE -> refuses sec = false).

(** The next block is a free one. *)
Lemma next_free s : sectors s -> freeblock s < FSSIZE ->
  datastart sb <= freeblock s < sb_size sb /\ free_bit sb (virt s) (freeblock s) = true /\
  virt s !! BBLOCK (freeblock s) sb = Some (marks (freeblock s)).
Proof.
  intros Hs Hlt. pose proof (s_next _ Hs) as Hn. pose proof bmap_pos as Hp.
  split; [rewrite data_start_eq, sb_size_eq; lia|].
  rewrite virt_bit, BBLOCK_one by (done || lia). split; [by rewrite Z.ltb_irrefl|]. apply lookup_insert_eq.
Qed.

Lemma take_direct s din k : sectors s -> freeblock s < FSSIZE -> file_ok sb (virt s) din -> 0 <= k < NDIRECT -> addr_of din k = 0 ->
  took s din (bumped s) (set_addr k (freeblock s) din) /\ fblock (virt (bumped s)) (set_addr k (freeblock s) din) k = freeblock s.
Proof.
  intros Hs Hlt Hf Hk H0. destruct (next_block_ok s Hs Hlt) as (_ & Hs' & Hv). pose proof (s_next _ Hs) as Hn. pose proof bmap_pos as Hp.
  destruct (next_free s Hs Hlt) as (N1 & N2 & N3).
  destruct (fill_direct sb (virt s) din _ _ Hf (virt_alloc s Hs) N1 N2 N3 (marks_block _) k Hk H0) as [G E].
  rewrite <- Hv in *. split; [constructor; try done|done]. split; [lia|]. right. exists k. split; [by apply direct_in_file|done].
Qed.

Lemma take_ind s din : sectors s -> freeblock s < FSSIZE -> file_ok sb (virt s) din -> addr_of din NDIRECT = 0 ->
  took s din (bumped s) (set_addr NDIRECT (freeblock s) din).
Proof.
  intros Hs Hlt Hf H0. destruct (next_block_ok s Hs Hlt) as (_ & Hs' & Hv). pose proof (s_next _ Hs) as Hn. pose proof bmap_pos as Hp.
  destruct (next_free s Hs Hlt) as (N1 & N2 & N3).
  pose proof (fill_ind sb (virt s) din _ _ Hf (virt_alloc s Hs) N1 N2 N3 (marks_block _) H0) as G. rewrite <- Hv in G.
  constructor; try done. split; [lia|]. left. rewrite addr_of_set by (apply Hf || done). by rewrite decide_True.
Qed.

Lemma take_entry s din fbn dx : sectors s -> freeblock s < FSSIZE -> file_ok sb (virt s) din -> NDIRECT <= fbn < MAXFILE ->
  addr_of din NDIRECT <> 0 -> img s !! addr_of din NDIRECT = Some dx -> is_block dx -> get_u32 (4 * Z.to_nat (fbn - NDIRECT)) dx = 0 ->
  let s' := set_img (<[addr_of din NDIRECT := put_u32 (4 * Z.to_nat (fbn - NDIRECT)) (freeblock s) dx]> (img (bumped s))) (bumped s) in
  took s din s' din /\ fblock (virt s') din fbn = freeblock s.
Proof.
  intros Hs Hlt Hf Hk Hne Hx Hdx H0 s'. destruct (next_block_ok s Hs Hlt) as (_ & Hs' & Hv). pose proof (s_next _ Hs) as Hn.
  pose proof bmap_pos as Hp. pose proof (entry_offset fbn Hk) as Ho.
  assert (Hown : owns (virt s) din (addr_of din NDIRECT)) by (split; [done|by left]).
  pose proof (used_below s din _ Hs Hf Hown) as Hr.
  assert (Hvx : virt s' = <[addr_of din NDIRECT := put_u32 (4 * Z.to_nat (fbn - NDIRECT)) (freeblock s) dx]>
    (taken sb (virt s) (freeblock s) (marks (freeblock s)))).
  { unfold s'. rewrite virt_write by lia. by rewrite Hv. }
  destruct (next_free s Hs Hlt) as (N1 & N2 & N3). rewrite <- virt_else in Hx by lia.
  destruct (fill_entry sb (virt s) din _ _ Hf (virt_alloc s Hs) N1 N2 N3 (marks_block _) fbn dx Hk Hne Hx Hdx H0) as [G E].
  rewrite <- Hvx in *. split; [constructor; try done|done].
  - apply write_sectors; [done|by apply set_field_block|]. unfold bumped. cbn [set_freeblock freeblock]. lia.
  - split; [lia|]. right. exists fbn. split; [|done]. unfold in_file, NDIRECT in *. lia.
Qed.
(** Some blocks have been added to the file, all of them from [freeblock] on. *)
Record added (s : mst) (din : inode) (s' : mst) (din' : inode) : Prop := {
  ad_grow : grow sb (virt s) din (virt s') din';
  ad_sectors : sectors s';
  ad_inode : freeinode s' = freeinode s;
  ad_block : freeblock s <= freeblock s';
  ad_owns : forall b, freeblock s <= b < freeblock s' -> owns (virt s') din' b
}.

Lemma added_refl s din : sectors s -> file_ok sb (virt s) din -> added s din s din.
Proof. intros Hs Hf. constructor; try done; try lia. apply grow_refl; [done|by apply virt_alloc]. Qed.

Lemma took_added s din s' din' : took s din s' din' -> added s din s' din'.
Proof.
  intros [H1 H2 H3 H4 H5]. constructor; try done; try lia. intros b Hb. by assert (b = freeblock s) as -> by lia.
Qed.

Lemma added_trans s din s1 din1 s2 din2 :
  file_ok sb (virt s) din -> added s din s1 din1 -> added s1 din1 s2 din2 -> added s din s2 din2.
Proof.
  intros Hf [H1 H2 H3 H4 H5] [G1 G2 G3 G4 G5]. constructor; try done; try lia; [by eapply grow_trans|].
  intros b Hb. destruct (Z_lt_dec b (freeblock s1)); [|apply G5; lia]. eapply grow_owns; [done|]. apply H5. lia.
Qed.

(** The two steps of an indirect block: the block itself, then its entry. *)
Lemma have_ind s din : sectors s -> file_ok sb (virt s) din -> freeblock s < FSSIZE \/ addr_of din NDIRECT <> 0 ->
  exists s1 din1,
    (if xint (addr_of din NDIRECT) =? 0 then let* b := next_block in ret (set_addr NDIRECT b din) else ret din)%K s = Ok (din1, s1) /\
    added s din s1 din1 /\ addr_of din1 NDIRECT <> 0 /\ (addr_of din NDIRECT <> 0 -> din1 = din) /\
    freeblock s1 = freeblock s + (if decide (addr_of din NDIRECT = 0) then 1 else 0) /\
    (forall bn, in_file bn -> fblock (virt s1) din1 bn = fblock (virt s) din bn).
Proof.
  intros Hs Hf Hroom. rewrite xint_id by (by apply (addr_u32 s)). destruct (Z.eqb_spec (addr_of din NDIRECT) 0) as [E|E].
  - destruct Hroom as [Hroom|?]; [|done]. destruct (next_block_ok s Hs Hroom) as (H1 & _). pose proof (take_ind s din Hs Hroom Hf E) as T.
    exists (bumped s), (set_addr NDIRECT (freeblock s) din). rewrite (bind_Ok _ _ _ _ _ H1). split; [done|].
    pose proof (s_next _ Hs). pose proof bmap_pos. assert (Ha : addr_of (set_addr NDIRECT (freeblock s) din) NDIRECT = freeblock s).
    { rewrite addr_of_set by (apply Hf || done). by rewrite decide_True. }
    split; [by apply took_added|]. split; [rewrite Ha; lia|]. split; [done|]. rewrite decide_True by done. split; [exact (t_block _ _ _ _ T)|].
    intros bn Hin. apply took_same; try done. intros Heq.
    apply (f_ind _ _ _ (g_file _ _ _ _ _ (t_grow _ _ _ _ T)) bn Hin); rewrite Heq; [lia|done].
  - exists s, din. split; [done|]. split; [by apply added_refl|]. rewrite decide_False by done.
    split; [done|]. split; [done|]. split; [lia|done].
Qed.

(** How many blocks are taken for block [fbn] of the file. *)
Definition fresh (C : gmap Z block) (din : inode) (fbn : Z) : Z :=
  (if decide (fblock C din fbn = 0) then 1 else 0) + (if decide (NDIRECT <= fbn /\ addr_of din NDIRECT = 0) then 1 else 0).

Record blocked (s : mst) (din : inode) (fbn : Z) (s' : mst) (din' : inode) (x : Z) : Prop := {
  b_added : added s din s' din';
  b_at : fblock (virt s') din' fbn = x;
  b_ne : x <> 0;
  b_same : forall bn, in_file bn -> bn <> fbn -> fblock (virt s') din' bn = fblock (virt s) din bn;
  b_ind : addr_of din' NDIRECT <> 0 <-> addr_of din NDIRECT <> 0 \/ NDIRECT <= fbn;
  b_block : freeblock s' = freeblock s + fresh (virt s) din fbn;
  b_old : fblock (virt s) din fbn <> 0 -> din' = din
}.

Lemma direct_block s din fbn : sectors s -> file_ok sb (virt s) din -> 0 <= fbn < NDIRECT -> freeblock s + fresh (virt s) din fbn <= FSSIZE ->
  exists s' din' x, file_block refuses din fbn s = Ok ((din', x), s') /\ blocked s din fbn s' din' x.
Proof.
  intros Hs Hf Hk Hroom. unfold file_block. replace (fbn <? NDIRECT) with true by blia.
  assert (Eb : forall C i, fblock C i fbn = addr_of i fbn) by (intros; unfold fblock; by replace (fbn <? NDIRECT) with true by blia).
  unfold fresh in Hroom. rewrite Eb, (decide_False (P := _ /\ _)) in Hroom by lia. rewrite (xint_id (addr_of din fbn)) by (apply (addr_u32 s); done || lia).
  pose proof (direct_in_file fbn Hk) as Hfin.
  destruct (Z.eqb_spec (addr_of din fbn) 0) as [E|E].
  - rewrite decide_True in Hroom by done. destruct (next_block_ok s Hs ltac:(lia)) as (H1 & _).
    destruct (take_direct s din fbn Hs ltac:(lia) Hf Hk E) as [T Eat]. set (din' := set_addr fbn (freeblock s) din) in *.
    exists (bumped s), din', (freeblock s). pose proof (s_next _ Hs). pose proof bmap_pos.
    rewrite (bind_Ok _ _ s din' (bumped s)) by (by rewrite (bind_Ok _ _ _ _ _ H1)). split.
    { rewrite Eb in Eat. rewrite Eat, xint_id by (unfold u32_range, FSSIZE in *; lia). done. }
    constructor; try done; try lia.
    + by apply took_added.
    + intros bn Hin Hne. apply took_same; try done. intros Heq. apply Hne.
      apply (f_inj _ _ _ (g_file _ _ _ _ _ (t_grow _ _ _ _ T))); try done; try congruence. lia.
    + unfold din'. rewrite addr_of_set by (done || lia || apply Hf). rewrite decide_False by lia. split; [by left|]. intros [?|?]; [done|lia].
    + unfold fresh. rewrite Eb, decide_True, decide_False by (done || lia). rewrite (t_block _ _ _ _ T). lia.
    + rewrite Eb. done.
  - exists s, din, (addr_of din fbn). rewrite (bind_Ok _ _ s din s) by done. split; [by rewrite xint_id by (apply (addr_u32 s); done || lia)|].
    constructor; try done.
    + by apply added_refl.
    + split; [by left|]. intros [?|?]; [done|lia].
    + unfold fresh. rewrite Eb, !decide_False by (done || lia). lia.
Qed.
Lemma ind_fblock C i fbn dx : NDIRECT <= fbn -> addr_of i NDIRECT <> 0 -> C !! addr_of i NDIRECT = Some dx ->
  fblock C i fbn = get_u32 (4 * Z.to_nat (fbn - NDIRECT)) dx.
Proof.
  intros Hk Hne Hx. unfold fblock. replace (fbn <? NDIRECT) with false by blia. apply Z.eqb_neq in Hne as ->. by rewrite Hx.
Qed.

Lemma ind_entry s din fbn : sectors s -> file_ok sb (virt s) din -> NDIRECT <= fbn < MAXFILE -> addr_of din NDIRECT <> 0 ->
  freeblock s + (if decide (fblock (virt s) din fbn = 0) then 1 else 0) <= FSSIZE ->
  let e := (4 * Z.to_nat (fbn - NDIRECT))%nat in
  exists s' x,
    (let* indirect := rsect (xint (addr_of din NDIRECT)) in
     if get_u32 e indirect =? 0 then
       let* b := next_block in
       let indirect := put_u32 e b indirect in
       wsect refuses (xint (addr_of din NDIRECT)) indirect ;;;
       ret (din, xint (get_u32 e indirect))
     else ret (din, xint (get_u32 e indirect)))%K s = Ok ((din, x), s') /\
    added s din s' din /\ fblock (virt s') din fbn = x /\ x <> 0 /\
    freeblock s' = freeblock s + (if decide (fblock (virt s) din fbn = 0) then 1 else 0) /\
    (forall bn, in_file bn -> bn <> fbn -> fblock (virt s') din bn = fblock (virt s) din bn).
Proof.
  intros Hs Hf Hk Hne Hroom e. pose proof (entry_offset fbn Hk) as Hoff. pose proof bmap_pos as Hp. pose proof (s_next _ Hs) as Hn.
  assert (Hown : owns (virt s) din (addr_of din NDIRECT)) by (split; [done|by left]). pose proof (used_below s din _ Hs Hf Hown) as Hr.
  destruct (s_all _ Hs (addr_of din NDIRECT) ltac:(lia)) as (dx & Hx & Hdx).
  assert (Efb : fblock (virt s) din fbn = get_u32 e dx) by (apply ind_fblock; [lia|done|by rewrite virt_else by lia]).
  rewrite (xint_id (addr_of din NDIRECT)) by (by apply (addr_u32 s)).
  rewrite (bind_Ok _ _ _ _ _ (rsect_ok s (addr_of din NDIRECT) dx ltac:(lia) Hx)). rewrite Efb in *.
  destruct (Z.eqb_spec (get_u32 e dx) 0) as [E|E].
  - rewrite decide_True in * by done. destruct (next_block_ok s Hs ltac:(lia)) as (H1 & _). rewrite (bind_Ok _ _ _ _ _ H1).
    destruct (take_entry s din fbn dx Hs ltac:(lia) Hf Hk Hne Hx Hdx E) as [T Eat]. fold e in T, Eat.
    eexists _, (freeblock s). cbv zeta. rewrite (bind_Ok _ _ _ _ _ (wsect_ok refuses Haccept (bumped s) (addr_of din NDIRECT) _ ltac:(lia))).
    rewrite get_put_u32 by first [rewrite (proj1 Hdx); done|unfold u32_range, FSSIZE in *; lia].
    rewrite xint_id by (unfold u32_range, FSSIZE in *; lia).
    split; [done|]. split; [by apply took_added|]. split; [done|]. split; [lia|]. split; [exact (t_block _ _ _ _ T)|].
    intros bn Hin Hd. apply took_same; try done. intros Heq. apply Hd.
    apply (f_inj _ _ _ (g_file _ _ _ _ _ (t_grow _ _ _ _ T))); try congruence; [unfold in_file, NDIRECT in *; lia|].
    rewrite Heq. lia.
  - rewrite decide_False in * by done. exists s, (get_u32 e dx).
    rewrite xint_id by (apply get_u32_range; [apply Hdx|destruct Hdx as [-> _]; done]).
    split; [done|]. split; [by apply added_refl|]. split; [done|]. split; [done|]. split; [lia|done].
Qed.

Lemma indirect_block s din fbn : sectors s -> file_ok sb (virt s) din -> NDIRECT <= fbn < MAXFILE ->
  freeblock s + fresh (virt s) din fbn <= FSSIZE ->
  exists s' din' x, file_block refuses din fbn s = Ok ((din', x), s') /\ blocked s din fbn s' din' x.
Proof.
  intros Hs Hf Hk Hroom. unfold file_block. replace (fbn <? NDIRECT) with false by blia.
  assert (Hin : in_file fbn) by (unfold in_file, NDIRECT in *; lia).
  assert (H0 : addr_of din NDIRECT = 0 -> fblock (virt s) din fbn = 0).
  { intros E. unfold fblock. replace (fbn <? NDIRECT) with false by blia. by rewrite E. }
  unfold fresh in Hroom. destruct (have_ind s din Hs Hf) as (s1 & din1 & H1 & A1 & Hne & Hsame & Hb1 & Hfb1).
  { destruct (decide (addr_of din NDIRECT = 0)) as [E|E]; [left|by right]. rewrite !decide_True in Hroom by (auto; lia). lia. }
  rewrite (bind_Ok _ _ _ _ _ H1). pose proof (g_file _ _ _ _ _ (ad_grow _ _ _ _ A1)) as Hf1.
  assert (Hcost : freeblock s1 + (if decide (fblock (virt s1) din1 fbn = 0) then 1 else 0) = freeblock s + fresh (virt s) din fbn).
  { rewrite Hb1, Hfb1 by done. unfold fresh. repeat destruct (decide _); try lia; tauto || lia. }
  destruct (ind_entry s1 din1 fbn (ad_sectors _ _ _ _ A1) Hf1 Hk Hne) as (s2 & x & H2 & A2 & Eat & Hx & Hb2 & Hfb2).
  { rewrite Hcost. done. }
  exists s2, din1, x. split; [exact H2|]. constructor; try done.
  - by apply (added_trans s din s1 din1).
  - intros bn Hi Hd. by rewrite Hfb2, Hfb1.
  - split; [right; lia|done].
  - lia.
  - intros Hold. apply Hsame. auto.
Qed.

Lemma file_block_ok s din fbn : sectors s -> file_ok sb (virt s) din -> in_file fbn -> freeblock s + fresh (virt s) din fbn <= FSSIZE ->
  exists s' din' x, file_block refuses din fbn s = Ok ((din', x), s') /\ blocked s din fbn s' din' x.
Proof.
  intros Hs Hf [H0 Hlt] Hroom. destruct (Z_lt_dec fbn NDIRECT); [by apply direct_block|]. apply indirect_block; done || lia.
Qed.
(** ** The end of a file *)

(** The blocks that a file of [n] bytes takes. *)
Definition need (n : Z) : Z := (n + (BSIZE - 1)) / BSIZE + (if NDIRECT * BSIZE <? n then 1 else 0).

Lemma need_le a b : a <= b -> need a <= need b.
Proof.
  intros H. unfold need. assert (Hq : (a + (BSIZE - 1)) / BSIZE <= (b + (BSIZE - 1)) / BSIZE) by (apply Z.div_le_mono; [done|lia]).
  destruct (Z.ltb_spec (NDIRECT * BSIZE) a), (Z.ltb_spec (NDIRECT * BSIZE) b); lia.
Qed.

(** The file has exactly the blocks for [off] bytes, and zeroes behind them. *)
Record exact (C : gmap Z block) (i : inode) (off : Z) : Prop := {
  x_blocks : forall bn, in_file bn -> fblock C i bn <> 0 <-> bn * BSIZE < off;
  x_ind : addr_of i NDIRECT <> 0 <-> NDIRECT * BSIZE < off;
  x_tail : forall o, off <= o < MAXFILE * BSIZE -> fblock C i (o / BSIZE) <> 0 -> fbyte C i o = 0
}.

Lemma fresh_need C i off n :
  exact C i off -> 0 <= off < MAXFILE * BSIZE -> 0 < n -> off mod BSIZE + n <= BSIZE ->
  fresh C i (off / BSIZE) = need (off + n) - need off.
Proof.
  intros X Ho Hn Hfit. pose proof (x_blocks _ _ _ X _ (block_in_file off Ho)) as Hb. pose proof (x_ind _ _ _ X) as Hi.
  unfold fresh, need. unfold BSIZE, NDIRECT in *.
  destruct (Z.ltb_spec (12 * 512) (off + n)), (Z.ltb_spec (12 * 512) off); repeat destruct (decide _);
    Z.to_euclidean_division_equations; lia.
Qed.

Record appended (s : mst) (din : inode) (s' : mst) (din' : inode) (off : Z) (l : list Z) : Prop := {
  ap_written : written sb (virt s) din (virt s') din' off l;
  ap_sectors : sectors s';
  ap_exact : exact (virt s') din' (off + Z.of_nat (length l));
  ap_inode : freeinode s' = freeinode s;
  ap_block : freeblock s' = freeblock s + need (off + Z.of_nat (length l)) - need off;
  ap_owns : forall b, freeblock s <= b < freeblock s' -> owns (virt s') din' b;
  ap_keeps : forall x, owns (virt s) din x -> owns (virt s') din' x
}.

Lemma appended_nil s din off : sectors s -> file_ok sb (virt s) din -> exact (virt s) din off -> appended s din s din off [].
Proof.
  intros Hs Hf X. constructor; try done.
  - apply written_nil; [done|by apply virt_alloc].
  - simpl. by rewrite Z.add_0_r.
  - simpl. rewrite Z.add_0_r. lia.
  - intros b Hb. lia.
Qed.

Lemma appended_app s din s1 din1 s2 din2 off l1 l2 :
  0 <= off -> off + Z.of_nat (length (l1 ++ l2)) <= MAXFILE * BSIZE ->
  appended s din s1 din1 off l1 -> appended s1 din1 s2 din2 (off + Z.of_nat (length l1)) l2 -> appended s din s2 din2 off (l1 ++ l2).
Proof.
  intros Ho Hle [H1 H2 H3 H4 H5 H6 H7] [G1 G2 G3 G4 G5 G6 G7].
  assert (E : off + Z.of_nat (length (l1 ++ l2)) = off + Z.of_nat (length l1) + Z.of_nat (length l2)) by (rewrite length_app; lia).
  constructor; rewrite ?E; try done; try congruence.
  - by eapply written_app.
  - lia.
  - intros b Hb. destruct (Z_lt_dec b (freeblock s1)); [apply G7, H6; lia|apply G6; lia].
  - intros x Hx. by apply G7, H7.
Qed.

Lemma exact_blocked s din fbn s' din' x off n :
  blocked s din fbn s' din' x -> exact (virt s) din off -> 0 <= off < MAXFILE * BSIZE -> fbn = off / BSIZE ->
  0 < n -> off mod BSIZE + n <= BSIZE ->
  (forall bn, in_file bn -> fblock (virt s') din' bn <> 0 <-> bn * BSIZE < off + n) /\
  (addr_of din' NDIRECT <> 0 <-> NDIRECT * BSIZE < off + n).
Proof.
  intros B [X1 X2 _] Ho -> Hn Hfit. split.
  - intros bn Hin. destruct (decide (bn = off / BSIZE)) as [-> |Hne].
    + rewrite (b_at _ _ _ _ _ _ B). split; [|intros _; by eapply b_ne]. intros _. unfold BSIZE in *. Z.to_euclidean_division_equations; lia.
    + rewrite (b_same _ _ _ _ _ _ B), X1 by done. unfold BSIZE in *. Z.to_euclidean_division_equations; lia.
  - rewrite (b_ind _ _ _ _ _ _ B), X2. unfold BSIZE, NDIRECT in *. Z.to_euclidean_division_equations; lia.
Qed.
Lemma blocked_data s din fbn s1 din1 x : blocked s din fbn s1 din1 x -> in_file fbn ->
  exists d, virt s1 !! x = Some d /\ is_block d /\ img s1 !! x = Some d /\ nmeta <= x < freeblock s1.
Proof.
  intros B Hin. pose proof (b_added _ _ _ _ _ _ B) as A. pose proof (ad_sectors _ _ _ _ A) as Hs1.
  pose proof (g_file _ _ _ _ _ (ad_grow _ _ _ _ A)) as Hf1. pose proof bmap_pos. pose proof (s_next _ Hs1).
  assert (Ho : owns (virt s1) din1 x) by (split; [by eapply b_ne|right; exists fbn; split; [done|exact (b_at _ _ _ _ _ _ B)]]).
  pose proof (used_below s1 din1 x Hs1 Hf1 Ho). destruct (s_all _ Hs1 x ltac:(lia)) as (d & Hd & Hb). exists d.
  by rewrite virt_else by lia.
Qed.

(** One turn of the loop, from the block number on. *)
Lemma put_block s din fbn s1 din1 x d off l :
  blocked s din fbn s1 din1 x -> sectors s -> file_ok sb (virt s) din -> exact (virt s) din off -> 0 <= off < MAXFILE * BSIZE ->
  fbn = off / BSIZE -> bytes l -> (0 < length l)%nat -> off mod BSIZE + Z.of_nat (length l) <= BSIZE -> img s1 !! x = Some d ->
  appended s din (set_img (<[x := splice (Z.to_nat (off mod BSIZE)) l d]> (img s1)) s1) din1 off l.
Proof.
  intros B Hs Hf X Ho Hfbn Hl Hpos Hfit Hd. assert (Hin : in_file fbn) by (subst; by apply block_in_file).
  pose proof (b_added _ _ _ _ _ _ B) as A. pose proof (ad_grow _ _ _ _ A) as G. pose proof (g_file _ _ _ _ _ G) as Hf1.
  destruct (blocked_data _ _ _ _ _ _ B Hin) as (d' & Hv & Hdb & Hd' & Hx). assert (d' = d) as -> by congruence. pose proof bmap_pos as Hp.
  set (v := splice (Z.to_nat (off mod BSIZE)) l d). pose proof (Z.mod_pos_bound off BSIZE ltac:(done)) as Hm.
  assert (Hvb : is_block v) by (apply splice_block; [done|done|lia]).
  set (s2 := set_img (<[x := v]> (img s1)) s1). assert (E2 : virt s2 = <[x := v]> (virt s1)) by (apply virt_write; lia).
  pose proof (b_at _ _ _ _ _ _ B) as Eat. pose proof (b_ne _ _ _ _ _ _ B) as Hne.
  assert (W : written sb (virt s) din (virt s2) din1 off l).
  { rewrite E2. apply (written_one sb _ _ _ _ fbn); try done; try lia. by apply (b_old _ _ _ _ _ _ B). }
  destruct (data_block_upd sb (virt s1) din1 fbn v Hf1 (g_alloc _ _ _ _ _ G) Hin ltac:(congruence) Hvb) as (_ & _ & _ & Hown).
  rewrite Eat, <- E2 in Hown.
  assert (Efb : forall bn, fblock (virt s2) din1 bn = fblock (virt s1) din1 bn).
  { intros bn. rewrite E2, <- Eat. apply (fblock_data sb); [done|done|congruence]. }
  destruct (exact_blocked s din fbn s1 din1 x off (Z.of_nat (length l)) B X Ho Hfbn ltac:(lia) Hfit) as [X1 X2].
  constructor; try done.
  - apply write_sectors; [exact (ad_sectors _ _ _ _ A)|done|lia].
  - constructor; [intros bn Hb; rewrite Efb; by apply X1|done|].
    intros o Hr Hfb. destruct (decide (fblock (virt s) din (o / BSIZE) = 0)) as [E|E].
    2:{ rewrite (w_out _ _ _ _ _ _ _ W) by (done || lia). apply (x_tail _ _ _ X); [lia|done]. }
    assert (Hob : o / BSIZE = fbn).
    { destruct (decide (o / BSIZE = fbn)) as [?|Hn]; [done|]. rewrite Efb, (b_same _ _ _ _ _ _ B) in Hfb; [done|apply block_in_file; lia|done]. }
    rewrite Hob in E. destruct (g_new _ _ _ _ _ G fbn Hin E) as [?|Hz]; [congruence|]. rewrite Eat in Hz. assert (d = zeroes) by (unfold zeroes; congruence). subst d.
    rewrite (fbyte_in_block _ _ fbn o v); [|lia|done|rewrite Efb, Eat, E2; by rewrite lookup_insert_eq].
    unfold v. rewrite splice_out.
    + unfold zeroes. rewrite nth_lookup. destruct (replicate _ _ !! _) eqn:Er; [|done]. by apply lookup_replicate in Er as [-> _].
    + destruct Hdb as [-> _]. lia.
    + pose proof (Z.div_mod o BSIZE ltac:(done)). pose proof (Z.div_mod off BSIZE ltac:(done)). rewrite Hob in *. subst fbn. lia.
  - exact (ad_inode _ _ _ _ A).
  - simpl. rewrite (b_block _ _ _ _ _ _ B), Hfbn. rewrite (fresh_need _ _ _ (Z.of_nat (length l))) by (done || lia). lia.
  - intros b Hb. apply Hown. by apply (ad_owns _ _ _ _ A).
  - intros y Hy. apply Hown. by eapply grow_owns.
Qed.

Lemma iappend_loop_ok fuel : forall s din off p,
  sectors s -> file_ok sb (virt s) din -> exact (virt s) din off -> 0 <= off -> off + Z.of_nat (length p) <= MAXFILE * BSIZE ->
  bytes p -> freeblock s + need (off + Z.of_nat (length p)) - need off <= FSSIZE -> (length p < fuel)%nat ->
  exists s' din', iappend_loop refuses fuel din off p s = Ok ((din', off + Z.of_nat (length p)), s') /\ appended s din s' din' off p.
Proof.
  induction fuel as [|fuel IH]; intros s din off p Hs Hf X Ho Hle Hp Hroom Hfuel; [lia|]. cbn [iappend_loop].
  destruct p as [|c p']; [exists s, din; split; [simpl; by rewrite Z.add_0_r|by apply appended_nil]|].
  set (p := c :: p') in *. assert (Hpos : (0 < length p)%nat) by (simpl; lia). replace (Z.of_nat (length p) <=? 0) with false by blia.
  assert (Hof : 0 <= off < MAXFILE * BSIZE) by lia. pose proof (block_in_file off Hof) as Hin.
  replace (off / BSIZE <? MAXFILE) with true by (destruct Hin; blia). cbn [negb].
  set (n1 := Z.min (Z.of_nat (length p)) ((off / BSIZE + 1) * BSIZE - off)).
  pose proof (Z.div_mod off BSIZE ltac:(done)) as Hdm. pose proof (Z.mod_pos_bound off BSIZE ltac:(done)) as Hmb.
  assert (Hn1 : 0 < n1 /\ n1 <= Z.of_nat (length p) /\ off mod BSIZE + n1 <= BSIZE) by (unfold n1; lia).
  assert (Hl1 : length (take (Z.to_nat n1) p) = Z.to_nat n1) by (rewrite length_take; lia).
  pose proof (need_le (off + n1) (off + Z.of_nat (length p)) ltac:(lia)) as Hmono.
  destruct (file_block_ok s din (off / BSIZE) Hs Hf Hin) as (s1 & din1 & x & H1 & B).
  { rewrite (fresh_need _ _ off n1) by (done || lia). lia. }
  rewrite (bind_Ok _ _ _ _ _ H1). destruct (blocked_data _ _ _ _ _ _ B Hin) as (d & _ & Hdb & Hd & Hx). pose proof bmap_pos.
  pose proof (s_next _ (ad_sectors _ _ _ _ (b_added _ _ _ _ _ _ B))).
  rewrite (bind_Ok _ _ _ _ _ (rsect_ok s1 x d ltac:(lia) Hd)). replace (off - off / BSIZE * BSIZE) with (off mod BSIZE) by lia.
  rewrite (bind_Ok _ _ _ _ _ (wsect_ok refuses Haccept s1 x _ ltac:(lia))).
  pose proof (put_block s din _ s1 din1 x d off (take (Z.to_nat n1) p) B Hs Hf X Hof eq_refl) as A1.
  set (s2 := set_img _ s1) in *. rewrite Hl1, Z2Nat.id in A1 by lia. specialize (A1 ltac:(by apply Forall_take) ltac:(lia) ltac:(lia) Hd).
  rewrite u32_small by (change (MAXFILE * BSIZE) with 71680 in *; unfold u32_range; lia).
  pose proof (ap_block _ _ _ _ _ _ A1) as Hb2. pose proof (ap_exact _ _ _ _ _ _ A1) as X2. rewrite Hl1, Z2Nat.id in Hb2, X2 by lia.
  assert (Hl2 : off + n1 + Z.of_nat (length (drop (Z.to_nat n1) p)) = off + Z.of_nat (length p)) by (rewrite length_drop; lia).
  destruct (IH s2 din1 (off + n1) (drop (Z.to_nat n1) p)) as (s3 & din3 & H3 & A3); try (rewrite ?Hl2; done || lia).
  - exact (ap_sectors _ _ _ _ _ _ A1).
  - apply (w_file _ _ _ _ _ _ _ (ap_written _ _ _ _ _ _ A1)).
  - by apply Forall_drop.
  - exists s3, din3. rewrite H3, Hl2. split; [done|]. rewrite <- (take_drop (Z.to_nat n1) p).
    apply (appended_app _ _ s2 din1); [lia|by rewrite take_drop|done|]. by rewrite Hl1, Z2Nat.id by lia.
Qed.

End ops.
