(* ===== verification/MkfsFiles.v ===== *)
(** * The files of the image

    What [mkfs] has built so far, file by file: inode [k + 1] holds file [k],
    no two files share a block, and every block handed out is in a file. *)

From S2P Require Import Prelude Block Sleeplock Log Fs FsTx FsAlloc FsFile FsRw FsInode FsDir FsPath Mkfs MkfsImage MkfsAppend.

(** ** What a change elsewhere leaves alone *)

Lemma owns_frame C C' i x : (forall x, owns C i x -> C' !! x = C !! x) -> owns C' i x <-> owns C i x.
Proof.
  intros H. unfold owns. split; intros [? [?|(bn & ? & Hbn)]]; (split; [done|]); [by left|right|by left|right]; exists bn;
    (split; [done|]); [by rewrite <- (fblock_frame C C')|by rewrite (fblock_frame C C')].
Qed.

Lemma exact_frame C C' i off : (forall x, owns C i x -> C' !! x = C !! x) -> 0 <= off -> exact C i off -> exact C' i off.
Proof.
  intros H H0 [X1 X2 X3]. assert (E : forall bn, fblock C' i bn = fblock C i bn) by (intros; by apply fblock_frame).
  constructor; [intros bn Hin; rewrite E; by apply X1|done|]. intros o Ho. rewrite E. intros Hne.
  rewrite (fbyte_frame C C') by (done || apply block_in_file; lia). by apply X3.
Qed.

(** ** Inodes *)

Lemma IBLOCK_range n : 0 <= n < NINODES -> 1 < IBLOCK n sb < sb_bmapstart sb /\ sb_inodestart sb <= IBLOCK n sb.
Proof.
  intros Hn. destruct (IBLOCK_eq sb n mkfs_layout Hn) as [E ?]. split; [done|]. rewrite E.
  pose proof (Z.div_pos n IPB ltac:(lia) ltac:(done)). lia.
Qed.

(** The fields of an inode that are not on disk, as [rinode] has them. *)
Definition plain (n : Z) (i : inode) : Prop :=
  i_dev i = 1 /\ i_inum i = n /\ i_ref i = 1 /\ i_lock i = Sleeplock 0 0 /\ i_valid i = 1.

Lemma plain_eq n i : plain n i ->
  i = Inode 1 n 1 (Sleeplock 0 0) 1 (i_type i) (i_major i) (i_minor i) (i_nlink i) (i_size i) (i_addrs i).
Proof. destruct i as [a b c d e f g h j k l]. unfold plain. simpl. by intros (-> & -> & -> & -> & ->). Qed.

Section ops.

Context (refuses : Z -> bool) (Haccept : forall sec, 0 <= sec < FSSIZE -> refuses sec = false).

Lemma inode_sector s n : sectors s -> 0 <= n < NINODES -> exists d, img s !! IBLOCK n sb = Some d /\ is_block d.
Proof. intros Hs Hn. apply (s_all _ Hs). destruct (IBLOCK_range n Hn). pose proof bmap_pos. lia. Qed.

Lemma rinode_ok s n : sectors s -> 0 <= n < NINODES -> rinode n s = Ok (dnode sb (virt s) n, s).
Proof.
  intros Hs Hn. destruct (IBLOCK_range n Hn). pose proof bmap_pos. destruct (inode_sector s n Hs Hn) as (d & Hd & _).
  unfold rinode. rewrite (bind_Ok _ _ _ _ _ (rsect_ok s (IBLOCK n sb) d ltac:(lia) Hd)).
  unfold dnode. rewrite virt_else, Hd by lia. done.
Qed.

(** The image after [winode]. *)
Record inode_set (s : mst) (n : Z) (i : inode) (s' : mst) : Prop := {
  is_sectors : sectors s';
  is_inode : freeinode s' = freeinode s;
  is_next : freeblock s' = freeblock s;
  is_here : dnode sb (virt s') n = i;
  is_there : forall m, 0 <= m < NINODES -> m <> n -> dnode sb (virt s') m = dnode sb (virt s) m;
  is_else : forall x, x < sb_inodestart sb \/ sb_bmapstart sb <= x -> virt s' !! x = virt s !! x
}.

Lemma same_slot m n : 0 <= m < NINODES -> 0 <= n < NINODES -> m <> n -> IBLOCK m sb = IBLOCK n sb -> Z.to_nat (m mod IPB) <> Z.to_nat (n mod IPB).
Proof.
  intros Hm Hn Hne E E2. destruct (IBLOCK_eq sb m mkfs_layout Hm) as [Em _]. destruct (IBLOCK_eq sb n mkfs_layout Hn) as [En _].
  pose proof (Z.div_mod m IPB ltac:(done)). pose proof (Z.div_mod n IPB ltac:(done)).
  pose proof (Z.mod_pos_bound m IPB ltac:(done)). pose proof (Z.mod_pos_bound n IPB ltac:(done)).
  assert (Hq : m / IPB = n / IPB) by lia. rewrite Hq in *. lia.
Qed.

Lemma winode_ok s n i : sectors s -> 0 <= n < NINODES -> inode_ok i -> plain n i ->
  exists s', winode refuses n i s = Ok (tt, s') /\ inode_set s n i s'.
Proof.
  intros Hs Hn Hi Hp. destruct (IBLOCK_range n Hn) as [Hr Hr']. pose proof bmap_pos as Hb. pose proof (s_next _ Hs) as Hnx.
  destruct (inode_sector s n Hs Hn) as (d & Hd & Hdb). unfold winode.
  rewrite (bind_Ok _ _ _ _ _ (rsect_ok s (IBLOCK n sb) d ltac:(lia) Hd)).
  rewrite (wsect_ok refuses Haccept s (IBLOCK n sb)) by lia. eexists. split; [done|].
  assert (Hfit : (DINODE * Z.to_nat (n mod IPB) + DINODE <= length d)%nat).
  { destruct Hp as (_ & <- & _). by apply (islot_fit i). }
  assert (Hvb : is_block (put_dinode (Z.to_nat (n mod IPB)) i d)) by (by apply put_dinode_block).
  pose proof (virt_write s (IBLOCK n sb) (put_dinode (Z.to_nat (n mod IPB)) i d) ltac:(lia)) as Ev.
  constructor; try done.
  - apply write_sectors; done || lia.
  - unfold dnode. rewrite Ev, lookup_insert_eq. cbv [from_option id]. rewrite load_put_dinode by done.
    symmetry. by apply plain_eq.
  - intros m Hm Hne. unfold dnode. rewrite Ev. destruct (decide (IBLOCK m sb = IBLOCK n sb)) as [E|E].
    + rewrite E, lookup_insert_eq, virt_else, Hd by lia. cbv [from_option id]. apply load_put_other; [done|done|]. by apply same_slot.
    + by rewrite lookup_insert_ne by done.
  - intros x Hx. rewrite Ev. apply lookup_insert_ne. lia.
Qed.
(** ** The files so far *)

(** Inode [n] is a file of type [t] with content [data]. *)
Record made (s : mst) (n t : Z) (data : list Z) : Prop := {
  m_type : i_type (dnode sb (virt s) n) = t;
  m_range : i16_range t;
  m_nlink : i_nlink (dnode sb (virt s) n) = 1;
  m_dev : i_major (dnode sb (virt s) n) = 0 /\ i_minor (dnode sb (virt s) n) = 0;
  m_size : i_size (dnode sb (virt s) n) = Z.of_nat (length data);
  m_file : file_ok sb (virt s) (dnode sb (virt s) n);
  m_exact : exact (virt s) (dnode sb (virt s) n) (Z.of_nat (length data));
  m_data : fdata (virt s) (dnode sb (virt s) n) = data
}.

Definition needs (F : list (Z * list Z)) : Z := foldr (fun f z => need (Z.of_nat (length f.2)) + z) 0 F.

Definition inum_of (k : nat) : Z := Z.of_nat k + 1.

(** The blocks in front of the inodes: the boot block, the superblock, the log. *)
Definition boot (b : Z) : block := if b =? 1 then sb_block else zeroes.

Record built (s : mst) (F : list (Z * list Z)) : Prop := {
  u_sectors : sectors s;
  u_next : freeinode s = inum_of (length F);
  u_max : (length F < Z.to_nat NINODES)%nat;
  u_used : freeblock s = nmeta + needs F;
  u_file : forall k f, F !! k = Some f -> made s (inum_of k) f.1 f.2;
  u_apart : forall k k', (k < length F)%nat -> (k' < length F)%nat -> k <> k' ->
    apart (virt s) (dnode sb (virt s) (inum_of k)) (dnode sb (virt s) (inum_of k'));
  u_owned : forall b, nmeta <= b < freeblock s -> exists k, (k < length F)%nat /\ owns (virt s) (dnode sb (virt s) (inum_of k)) b;
  u_unused : forall n, freeinode s <= n < NINODES -> i_type (dnode sb (virt s) n) = 0;
  u_boot : forall b, 0 <= b < sb_inodestart sb -> img s !! b = Some (boot b)
}.

Lemma needs_insert F k t data data' : F !! k = Some (t, data) ->
  needs (<[k := (t, data')]> F) = needs F - need (Z.of_nat (length data)) + need (Z.of_nat (length data')).
Proof.
  revert k. induction F as [|f F IH]; intros k Hk; [done|]. destruct k as [|k]; simpl in *.
  - simplify_eq. simpl. lia.
  - rewrite IH by done. lia.
Qed.

Lemma needs_snoc F f : needs (F ++ [f]) = needs F + need (Z.of_nat (length f.2)).
Proof. induction F as [|g F IH]; simpl; [lia|]. rewrite IH. lia. Qed.

(** A file is as it was when its inode and its blocks are. *)
Lemma made_frame s s' n t data :
  sectors s -> sectors s' -> freeblock s <= freeblock s' ->
  dnode sb (virt s') n = dnode sb (virt s) n ->
  (forall x, owns (virt s) (dnode sb (virt s) n) x -> virt s' !! x = virt s !! x) ->
  made s n t data ->
  made s' n t data /\ forall x, owns (virt s') (dnode sb (virt s') n) x <-> owns (virt s) (dnode sb (virt s) n) x.
Proof.
  intros Hs Hs' Hle E Hfr [H1 H2 H3 H4 H5 H6 H7 H8]. pose proof bmap_pos. split; [|intros x; rewrite E; by apply owns_frame].
  constructor; rewrite ?E; try done.
  - apply (file_ok_frame sb (virt s)); [done|done|]. intros x Hx. pose proof (used_below s _ x Hs H6 Hx). pose proof (s_next _ Hs).
    rewrite virt_bit by (done || lia). by replace (x <? freeblock s') with true by blia.
  - by apply (exact_frame (virt s)); [|lia|].
  - by rewrite (fdata_frame sb (virt s)).
Qed.

Lemma inum_range (F : list (Z * list Z)) k : (length F < Z.to_nat NINODES)%nat -> (k < length F)%nat -> 0 < inum_of k < NINODES.
Proof. unfold inum_of, NINODES. lia. Qed.

(** ** A new inode *)

Lemma empty_inode t n : 0 <= t < 2 ^ 15 -> let i := with_size (xint 0) (with_nlink (xshort 1) (with_type (xshort t) (dinode0 n))) in
  inode_ok i /\ plain n i /\ i_type i = t /\ forall k, addr_of i k = 0.
Proof.
  intros Ht i. unfold i. simpl. rewrite (xshort_id t), (xshort_id 1), (xint_id 0) by (unfold u32_range; lia).
  split; [|split; [done|split; [done|]]].
  - constructor; simpl; try done; unfold i16_range; try lia. by repeat constructor.
  - intros k. unfold addr_of. simpl i_addrs. rewrite nth_lookup. destruct (_ !! _) eqn:E; [|done].
    by apply (lookup_replicate 13 0) in E as [-> _].
Qed.

Lemma empty_file s i : length (i_addrs i) = Z.to_nat (NDIRECT + 1) -> i_size i = 0 -> (forall k, addr_of i k = 0) ->
  file_ok sb (virt s) i /\ exact (virt s) i 0 /\ fdata (virt s) i = [] /\ forall x, ~ owns (virt s) i x.
Proof.
  intros Hl Hz Ha. assert (Hfb : forall bn, fblock (virt s) i bn = 0).
  { intros bn. unfold fblock. rewrite !Ha. by destruct (bn <? NDIRECT). }
  assert (Hno : forall x, ~ owns (virt s) i x).
  { intros x [Hx [E|(bn & _ & E)]]; [by rewrite Ha in E|by rewrite Hfb in E]. }
  split; [|split; [|split; [unfold fdata; by rewrite Hz|done]]].
  - constructor; try done.
    + rewrite Hz. done.
    + intros x Hx. by apply Hno in Hx.
    + intros bn _. by rewrite Hfb.
    + intros bn bn' _ _. by rewrite Hfb.
    + intros bn Hb Hs. rewrite Hz in Hs. unfold BSIZE in Hs. lia.
  - constructor.
    + intros bn [Hb _]. rewrite Hfb. unfold BSIZE. split; [done|lia].
    + rewrite Ha. split; [done|]. unfold NDIRECT, BSIZE. lia.
    + intros o _. by rewrite Hfb.
Qed.
(** ** One file changes *)

Record changed (s : mst) (F : list (Z * list Z)) (s' : mst) (F' : list (Z * list Z)) (k0 : nat) : Prop := {
  ch_sectors : sectors s';
  ch_next : freeinode s' = inum_of (length F');
  ch_k : (k0 < length F')%nat;
  ch_max : (length F' < Z.to_nat NINODES)%nat;
  ch_more : freeinode s <= freeinode s' /\ freeblock s <= freeblock s';
  ch_used : freeblock s' = nmeta + needs F';
  ch_here : forall f, F' !! k0 = Some f -> made s' (inum_of k0) f.1 f.2;
  ch_there : forall k, k <> k0 -> F' !! k = F !! k;
  ch_dnode : forall m, 0 <= m < NINODES -> m <> inum_of k0 -> dnode sb (virt s') m = dnode sb (virt s) m;
  ch_frame : forall k x, k <> k0 -> (k < length F)%nat -> owns (virt s) (dnode sb (virt s) (inum_of k)) x -> virt s' !! x = virt s !! x;
  ch_owned : forall x, owns (virt s') (dnode sb (virt s') (inum_of k0)) x ->
    (k0 < length F)%nat /\ owns (virt s) (dnode sb (virt s) (inum_of k0)) x \/ freeblock s <= x;
  ch_owns : forall x, (k0 < length F)%nat /\ owns (virt s) (dnode sb (virt s) (inum_of k0)) x \/ freeblock s <= x < freeblock s' ->
    owns (virt s') (dnode sb (virt s') (inum_of k0)) x;
  ch_boot : forall b, 0 <= b < sb_inodestart sb -> img s' !! b = img s !! b
}.

Lemma changed_kept s F s' F' k0 k f : built s F -> changed s F s' F' k0 -> k <> k0 -> F !! k = Some f ->
  made s' (inum_of k) f.1 f.2 /\
  forall x, owns (virt s') (dnode sb (virt s') (inum_of k)) x <-> owns (virt s) (dnode sb (virt s) (inum_of k)) x.
Proof.
  intros U Ch Hk Hf. pose proof (lookup_lt_Some _ _ _ Hf) as Hlt. pose proof (inum_range F k (u_max _ _ U) Hlt).
  apply made_frame; [apply U|apply Ch|apply Ch| | |by apply (u_file _ _ U)].
  - apply (ch_dnode _ _ _ _ _ Ch); [lia|]. unfold inum_of. lia.
  - intros x Hx. by apply (ch_frame _ _ _ _ _ Ch k).
Qed.

Lemma built_used s F k f x : built s F -> F !! k = Some f -> owns (virt s) (dnode sb (virt s) (inum_of k)) x -> nmeta <= x < freeblock s.
Proof. intros U Hf Hx. eapply used_below; [apply U| |exact Hx]. apply (m_file _ _ _ _ (u_file _ _ U k f Hf)). Qed.

Lemma changed_apart s F s' F' k0 k x : built s F -> changed s F s' F' k0 -> (k < length F')%nat -> k <> k0 ->
  owns (virt s') (dnode sb (virt s') (inum_of k)) x -> owns (virt s') (dnode sb (virt s') (inum_of k0)) x -> False.
Proof.
  intros U Ch Hk Hne Hx Hx0. destruct (lookup_lt_is_Some_2 F' k Hk) as [f Hf]. rewrite (ch_there _ _ _ _ _ Ch) in Hf by done.
  apply (changed_kept s F s' F' k0 k f U Ch Hne Hf) in Hx. pose proof (lookup_lt_Some _ _ _ Hf) as Hlt.
  destruct (ch_owned _ _ _ _ _ Ch x Hx0) as [[Hk0 Hx0']|Hge].
  - by apply (u_apart _ _ U k k0 Hlt Hk0 Hne x).
  - pose proof (built_used s F k f x U Hf Hx). lia.
Qed.

Lemma changed_built s F s' F' k0 : built s F -> changed s F s' F' k0 -> built s' F'.
Proof.
  intros U Ch. pose proof (changed_kept s F s' F' k0) as Hkept.
  assert (Hold : forall k, (k < length F')%nat -> k <> k0 -> exists f, F' !! k = Some f /\ F !! k = Some f).
  { intros k Hk Hne. destruct (lookup_lt_is_Some_2 F' k Hk) as [f Hf]. exists f. split; [done|]. by rewrite <- (ch_there _ _ _ _ _ Ch). }
  constructor; try apply Ch.
  - intros k f Hf. destruct (decide (k = k0)) as [-> |Hne]; [by apply (ch_here _ _ _ _ _ Ch)|].
    rewrite (ch_there _ _ _ _ _ Ch) in Hf by done. by apply Hkept.
  - intros k k' Hk Hk' Hne x Hx Hx'. destruct (decide (k = k0)) as [-> |Hn]; [by apply (changed_apart s F s' F' k0 k' x U Ch)|].
    destruct (decide (k' = k0)) as [-> |Hn']; [by apply (changed_apart s F s' F' k0 k x U Ch)|].
    destruct (Hold k Hk Hn) as (f & _ & Hf), (Hold k' Hk' Hn') as (f' & _ & Hf').
    apply (Hkept k f U Ch Hn Hf) in Hx. apply (Hkept k' f' U Ch Hn' Hf') in Hx'.
    apply (u_apart _ _ U k k') with x; try done; by eapply lookup_lt_Some.
  - intros b Hb. destruct (Z_lt_dec b (freeblock s)) as [Hlt|Hge]; [|exists k0; split; [apply Ch|apply (ch_owns _ _ _ _ _ Ch); right; lia]].
    destruct (u_owned _ _ U b ltac:(lia)) as (k & Hk & Ho).
    destruct (decide (k = k0)) as [-> |Hne]; [exists k0; split; [apply Ch|apply (ch_owns _ _ _ _ _ Ch); by left]|].
    destruct (lookup_lt_is_Some_2 F k Hk) as [f Hf]. exists k. split; [|by apply (Hkept k f U Ch Hne Hf)].
    rewrite <- (ch_there _ _ _ _ _ Ch) in Hf by done. by eapply lookup_lt_Some.
  - intros n Hn. pose proof (ch_more _ _ _ _ _ Ch) as [? ?]. pose proof (u_next _ _ U) as Hx. unfold inum_of in Hx.
    rewrite (ch_dnode _ _ _ _ _ Ch); [apply (u_unused _ _ U); lia|lia|].
    pose proof (ch_next _ _ _ _ _ Ch) as Hnx. pose proof (ch_k _ _ _ _ _ Ch). intros ->. unfold inum_of in *. lia.
  - intros b Hb. rewrite (ch_boot _ _ _ _ _ Ch) by done. by apply (u_boot _ _ U).
Qed.
Lemma ialloc_ok s F t : built s F -> 0 < t < 2 ^ 15 -> (S (length F) < Z.to_nat NINODES)%nat ->
  exists s', ialloc refuses t s = Ok (inum_of (length F), s') /\ built s' (F ++ [(t, [])]).
Proof.
  intros U Ht Hmax. pose proof (u_next _ _ U) as Hn. pose proof (u_sectors _ _ U) as Hs. unfold ialloc.
  assert (Hr : 0 <= inum_of (length F) < NINODES) by (unfold inum_of, NINODES in *; lia).
  rewrite (bind_Ok (gets freeinode) _ s (inum_of (length F)) s) by (unfold gets; by rewrite Hn).
  rewrite u32_small by (unfold u32_range, NINODES in *; lia). set (n := inum_of (length F)) in *.
  set (s1 := set_freeinode (n + 1) s). rewrite (bind_Ok (modify _) _ s tt s1) by done.
  destruct (empty_inode t n ltac:(lia)) as (Hok & Hp & Hty & Ha). set (i := with_size _ _) in *. cbv zeta.
  assert (Hs1 : sectors s1) by (destruct Hs; by constructor).
  destruct (winode_ok s1 n i Hs1 Hr Hok Hp) as (s2 & H2 & [I1 I2 I3 I4 I5 I6]). rewrite (bind_Ok _ _ _ _ _ H2).
  exists s2. split; [done|]. apply (changed_built s F s2 _ (length F)); [done|]. change (virt s1) with (virt s) in *.
  assert (Hz : i_size i = 0) by (unfold i; simpl; by rewrite xint_id).
  destruct (empty_file s2 i (n_len _ Hok) Hz Ha) as (E1 & E2 & E3 & E4).
  constructor; rewrite ?I2, ?I3; fold n; rewrite ?I4; simpl freeinode; simpl freeblock; rewrite ?length_app; simpl length; try done; try lia.
  - unfold n, inum_of. lia.
  - rewrite needs_snoc, (u_used _ _ U). change (need (Z.of_nat (length (snd (t, []))))) with 0. lia.
  - intros f Hf. rewrite lookup_app_r, Nat.sub_diag in Hf by lia. simpl in Hf. injection Hf as <-. simpl.
    constructor; fold n; rewrite ?I4; try done; try (unfold i; simpl; by rewrite xshort_id). unfold i16_range. lia.
  - intros k Hk. destruct (decide (k < length F)%nat); [by rewrite lookup_app_l|].
    rewrite !lookup_ge_None_2; rewrite ?length_app; simpl; done || lia.
  - intros k x Hk Hlt Hx. destruct (lookup_lt_is_Some_2 F k Hlt) as [f Hf]. pose proof (built_used s F k f x U Hf Hx).
    pose proof bmap_pos. apply I6. lia.
  - intros x Hx. by apply E4 in Hx.
  - intros b Hb. pose proof bmap_pos. rewrite <- !virt_else by lia. apply I6. lia.
Qed.

Lemma splice_end (l d : list Z) o : o = length d -> splice o l d = d ++ l.
Proof. intros ->. unfold splice. rewrite take_ge, drop_ge by lia. by rewrite app_nil_r. Qed.

Lemma dnode_plain C n : plain n (dnode sb C n).
Proof. done. Qed.

(** The blocks are written, then the inode. *)
Lemma iappend_run s F k t data l : built s F -> F !! k = Some (t, data) -> l <> [] -> bytes l ->
  Z.of_nat (length data + length l) <= MAXFILE * BSIZE ->
  freeblock s + need (Z.of_nat (length data + length l)) - need (Z.of_nat (length data)) <= FSSIZE ->
  exists s1 din s2, iappend refuses (inum_of k) l s = Ok (tt, s2) /\
    appended s (dnode sb (virt s) (inum_of k)) s1 din (Z.of_nat (length data)) l /\
    inode_set s1 (inum_of k) (with_size (Z.of_nat (length data + length l)) din) s2.
Proof.
  intros U Hf Hne Hl Hle Hroom. pose proof (u_file _ _ U k _ Hf) as Hm. simpl in Hm. pose proof (u_sectors _ _ U) as Hs.
  pose proof (inum_range F k (u_max _ _ U) (lookup_lt_Some _ _ _ Hf)) as Hr. set (n := inum_of k) in *. set (i := dnode sb (virt s) n) in *.
  unfold iappend. rewrite (bind_Ok _ _ _ _ _ (rinode_ok s n Hs ltac:(lia))). fold i. pose proof (m_size _ _ _ _ Hm) as Hsz. fold i in Hsz.
  assert (Hu : forall z, 0 <= z <= MAXFILE * BSIZE -> xint z = z).
  { intros z Hz. apply xint_id. change (MAXFILE * BSIZE) with 71680 in Hz. unfold u32_range. lia. }
  rewrite Hsz, Hu by lia.
  destruct (iappend_loop_ok refuses Haccept (S (length l)) s i (Z.of_nat (length data)) l) as (s1 & din & H1 & A); try done; try lia.
  - apply (m_file _ _ _ _ Hm).
  - apply (m_exact _ _ _ _ Hm).
  - by replace (Z.of_nat (length data) + Z.of_nat (length l)) with (Z.of_nat (length data + length l)) by lia.
  - rewrite (bind_Ok _ _ _ _ _ H1). replace (Z.of_nat (length data) + Z.of_nat (length l)) with (Z.of_nat (length data + length l)) by lia.
    rewrite Hu by lia. pose proof (ap_written _ _ _ _ _ _ A) as W. pose proof (w_meta _ _ _ _ _ _ _ W) as Hmeta.
    set (i2 := with_size (Z.of_nat (length data + length l)) din).
    assert (Hf2 : file_ok sb (virt s1) i2).
    { apply (written_file sb (virt s) i _ _ (Z.of_nat (length data)) l); [apply (m_file _ _ _ _ Hm)|done|lia|lia|]. rewrite Hsz. lia. }
    assert (Hok : inode_ok i2).
    { destruct (m_dev _ _ _ _ Hm) as [Hd1 Hd2]. pose proof (m_type _ _ _ _ Hm) as Hd3. pose proof (m_nlink _ _ _ _ Hm) as Hd4.
      fold i in Hd1, Hd2, Hd3, Hd4.
      apply (file_inode_ok sb (virt s1)); [apply (w_alloc _ _ _ _ _ _ _ W)|done|..]; unfold i2; rewrite Hmeta; simpl; fold i.
      - change (i16_range (i_type i)). rewrite Hd3. apply (m_range _ _ _ _ Hm).
      - change (i16_range (i_major i)). by rewrite Hd1.
      - change (i16_range (i_minor i)). by rewrite Hd2.
      - change (i16_range (i_nlink i)). by rewrite Hd4. }
    destruct (winode_ok s1 n i2 (ap_sectors _ _ _ _ _ _ A) ltac:(lia) Hok) as (s2 & H2 & I).
    { unfold i2. rewrite Hmeta. done. }
    exists s1, din, s2. done.
Qed.
(** A file and its blocks when only an inode is written. *)
Lemma set_frame s1 n i s2 j x : inode_set s1 n i s2 -> sectors s1 -> file_ok sb (virt s1) j -> owns (virt s1) j x -> virt s2 !! x = virt s1 !! x.
Proof.
  intros I Hs Hj Hx. pose proof (used_below s1 j x Hs Hj Hx). pose proof bmap_pos. apply (is_else _ _ _ _ I). lia.
Qed.

(** What the write and the size together give. *)
Lemma append_made s n t data l s1 din s2 :
  sectors s -> made s n t data -> appended s (dnode sb (virt s) n) s1 din (Z.of_nat (length data)) l ->
  inode_set s1 n (with_size (Z.of_nat (length data + length l)) din) s2 -> Z.of_nat (length data + length l) <= MAXFILE * BSIZE ->
  made s2 n t (data ++ l) /\ forall x, owns (virt s2) (dnode sb (virt s2) n) x <-> owns (virt s1) din x.
Proof.
  intros Hs Hm A I Hle. pose proof (ap_written _ _ _ _ _ _ A) as W. pose proof (w_meta _ _ _ _ _ _ _ W) as Hmeta.
  pose proof (m_size _ _ _ _ Hm) as Hsz. set (i2 := with_size (Z.of_nat (length data + length l)) din) in *. pose proof (ap_sectors _ _ _ _ _ _ A) as Hs1.
  assert (Hmax : Z.of_nat (length data + length l) = Z.max (i_size (dnode sb (virt s) n)) (Z.of_nat (length data) + Z.of_nat (length l))) by (rewrite Hsz; lia).
  assert (Hf2 : file_ok sb (virt s1) i2).
  { apply (written_file sb (virt s) (dnode sb (virt s) n) _ _ (Z.of_nat (length data)) l); [apply (m_file _ _ _ _ Hm)|done|lia|lia|done]. }
  pose proof (fun x => set_frame s1 n i2 s2 i2 x I Hs1 Hf2) as Hfr. pose proof (is_here _ _ _ _ I) as Eh.
  split; [|intros x; rewrite Eh; by apply (owns_frame (virt s1) (virt s2) i2)].
  assert (Ht : i_type i2 = t /\ i_nlink i2 = 1 /\ i_major i2 = 0 /\ i_minor i2 = 0).
  { unfold i2. rewrite Hmeta. destruct (m_dev _ _ _ _ Hm). split; [apply (m_type _ _ _ _ Hm)|]. split; [apply (m_nlink _ _ _ _ Hm)|done]. }
  destruct Ht as (T1 & T2 & T3 & T4). constructor; rewrite ?Eh; try done.
  - apply (m_range _ _ _ _ Hm).
  - rewrite length_app. done.
  - apply (file_ok_frame sb (virt s1)); [done|done|]. intros x Hx. pose proof (used_below s1 i2 x Hs1 Hf2 Hx). pose proof bmap_pos.
    pose proof (s_next _ Hs1). rewrite (virt_bit s2 x (is_sectors _ _ _ _ I)), (is_next _ _ _ _ I) by lia. by replace (x <? freeblock s1) with true by blia.
  - rewrite length_app. apply (exact_frame (virt s1)); [done|lia|]. pose proof (ap_exact _ _ _ _ _ _ A) as X.
    replace (Z.of_nat (length data) + Z.of_nat (length l)) with (Z.of_nat (length data + length l)) in X by lia. by destruct X.
  - rewrite (fdata_frame sb (virt s1)) by done. unfold i2. rewrite Hmax. rewrite (written_fdata sb (virt s) (dnode sb (virt s) n)) by (done || lia || apply (m_file _ _ _ _ Hm)).
    rewrite (m_data _ _ _ _ Hm). apply splice_end. lia.
Qed.

Lemma iappend_ok s F k t data l : built s F -> F !! k = Some (t, data) -> l <> [] -> bytes l ->
  Z.of_nat (length data + length l) <= MAXFILE * BSIZE ->
  freeblock s + need (Z.of_nat (length data + length l)) - need (Z.of_nat (length data)) <= FSSIZE ->
  exists s', iappend refuses (inum_of k) l s = Ok (tt, s') /\ built s' (<[k := (t, data ++ l)]> F).
Proof.
  intros U Hf Hne Hl Hle Hroom. destruct (iappend_run s F k t data l U Hf Hne Hl Hle Hroom) as (s1 & din & s2 & H2 & A & I).
  exists s2. split; [done|]. apply (changed_built s F s2 _ k); [done|]. pose proof (lookup_lt_Some _ _ _ Hf) as Hk.
  pose proof (u_sectors _ _ U) as Hs. pose proof (u_file _ _ U k _ Hf) as Hm. simpl in Hm. pose proof (inum_range F k (u_max _ _ U) Hk) as Hr.
  destruct (append_made s _ t data l s1 din s2 Hs Hm A I Hle) as [Hm2 Hown]. pose proof (ap_written _ _ _ _ _ _ A) as W. pose proof bmap_pos as Hp.
  pose proof (ap_block _ _ _ _ _ _ A) as Hb. replace (Z.of_nat (length data) + Z.of_nat (length l)) with (Z.of_nat (length data + length l)) in Hb by lia.
  pose proof (is_next _ _ _ _ I) as Hnx. pose proof (s_next _ Hs) as Hsn.
  assert (Hnn : need (Z.of_nat (length data)) <= need (Z.of_nat (length data + length l))) by (apply need_le; lia).
  constructor; rewrite ?length_insert; try done.
  - apply I.
  - rewrite (is_inode _ _ _ _ I), (ap_inode _ _ _ _ _ _ A). apply U.
  - apply U.
  - rewrite (is_inode _ _ _ _ I), (ap_inode _ _ _ _ _ _ A). lia.
  - rewrite (needs_insert F k t data) by done. rewrite length_app, Hnx, Hb, (u_used _ _ U). lia.
  - intros f Hf'. rewrite list_lookup_insert_eq in Hf' by done. by injection Hf' as <-.
  - intros k' Hk'. by rewrite list_lookup_insert_ne.
  - intros m Hmr Hmn. rewrite (is_there _ _ _ _ I) by done. unfold dnode. rewrite (w_fixed _ _ _ _ _ _ _ W); [done|]. by apply IBLOCK_range.
  - intros k' x Hk' Hlt Hx. destruct (lookup_lt_is_Some_2 F k' Hlt) as [f' Hf']. pose proof (built_used s F k' f' x U Hf' Hx) as Hx'.
    rewrite (is_else _ _ _ _ I) by lia. apply (w_else _ _ _ _ _ _ _ W); [rewrite data_start_eq, sb_size_eq; lia| |].
    + rewrite virt_bit by (done || lia). by replace (x <? freeblock s) with true by blia.
    + intros Ho. by apply (u_apart _ _ U k' k Hlt Hk Hk' x).
  - intros x Hx%Hown. destruct (w_owned _ _ _ _ _ _ _ W x Hx) as [Ho|Hfree]; [by left|right].
    pose proof (used_block s1 din x (w_file _ _ _ _ _ _ _ W) Hx). rewrite virt_bit in Hfree by (done || lia). destruct (Z.ltb_spec x (freeblock s)); [done|lia].
  - intros x Hx. apply Hown. destruct Hx as [[_ Hx]|Hx]; [by apply (ap_keeps _ _ _ _ _ _ A)|apply (ap_owns _ _ _ _ _ _ A); lia].
  - intros b Hb'. rewrite <- !virt_else by lia. rewrite (is_else _ _ _ _ I) by lia. apply (w_fixed _ _ _ _ _ _ _ W). lia.
Qed.

End ops.
