(* ===== verification/MkfsMain.v ===== *)
(** * The run of [mkfs]

    The empty image, the root directory, then one file after the other. *)

From S2P Require Import Prelude Block Sleeplock Log Fs FsTx FsAlloc FsFile FsRw FsInode FsDir FsPath Mkfs MkfsImage MkfsAppend MkfsFiles.

Section ops.

Context (refuses : Z -> bool) (Haccept : forall sec, 0 <= sec < FSSIZE -> refuses sec = false).

(** ** The empty image *)

Lemma zero_sectors_ok n : forall i s, 0 <= i -> i + Z.of_nat n <= FSSIZE ->
  exists m, zero_sectors refuses n i s = Ok (tt, set_img m s) /\
    forall b, m !! b = if decide (i <= b < i + Z.of_nat n) then Some zeroes else img s !! b.
Proof.
  induction n as [|n IH]; intros i s Hi Hle; cbn [zero_sectors].
  - exists (img s). split; [by destruct s|]. intros b. by rewrite decide_False by lia.
  - rewrite (bind_Ok _ _ _ _ _ (wsect_ok refuses Haccept s i zeroes ltac:(lia))).
    destruct (IH (i + 1) (set_img (<[i := zeroes]> (img s)) s) ltac:(lia) ltac:(lia)) as (m & H1 & H2). exists m. split; [done|].
    intros b. rewrite H2. simpl. destruct (decide (i + 1 <= b < i + 1 + Z.of_nat n)); [by rewrite decide_True by lia|].
    destruct (decide (b = i)) as [-> |Hne]; [rewrite decide_True by lia; apply lookup_insert_eq|].
    rewrite decide_False by lia. by apply lookup_insert_ne.
Qed.

Lemma zero_type k : di_type k zeroes = 0.
Proof.
  unfold di_type, get_u16, field, zeroes. rewrite drop_replicate, take_replicate, le_dec_zeros. done.
Qed.

Lemma sb_block_block : is_block sb_block.
Proof. unfold sb_block. repeat apply set_field_block; try (unfold BSIZE; lia). apply zeroes_block. Qed.

Lemma empty_image (m : gmap Z block) : (forall b, 0 <= b < FSSIZE -> m !! b = Some zeroes) ->
  built (Mst (<[1 := sb_block]> m) 1 nmeta) [].
Proof.
  intros Hm. pose proof bmap_pos as Hp.
  assert (Hs : sectors (Mst (<[1 := sb_block]> m) 1 nmeta)).
  { constructor; simpl.
    - intros b Hb. destruct (decide (b = 1)) as [-> |Hne]; [exists sb_block; split; [apply lookup_insert_eq|apply sb_block_block]|].
      rewrite lookup_insert_ne by done. exists zeroes. split; [by apply Hm|apply zeroes_block].
    - lia.
    - intros b Hb. rewrite lookup_insert_ne by lia. apply Hm. lia. }
  constructor; cbn [freeinode freeblock img length]; try done.
  - unfold NINODES. lia.
  - simpl. lia.
  - intros b Hb. lia.
  - intros n Hn. destruct (IBLOCK_range n ltac:(lia)) as [Hr Hr']. unfold dnode. rewrite virt_else by lia. simpl.
    rewrite lookup_insert_ne, Hm by lia. simpl. apply zero_type.
  - intros b Hb. unfold boot. destruct (Z.eqb_spec b 1) as [-> |Hne]; [apply lookup_insert_eq|].
    rewrite lookup_insert_ne by done. apply Hm. lia.
Qed.

(** ** The files *)

Definition entry_name (a : arg) : list Z := take DIRSIZ (skip_underscore (arg_name a)).
Definition content (a : arg) : list Z := mjoin (default [] (arg_reads a)).

(** The entries of the root directory. *)
Definition root_entries (args : list arg) : list (list Z) :=
  new_entry ROOTINO [46] :: new_entry ROOTINO [46; 46] :: imap (fun k a => new_entry (Z.of_nat k + 2) (entry_name a)) args.

Definition root_table (args : list arg) : list Z := mjoin (root_entries args).

Definition files_of (args : list arg) : list (Z * list Z) :=
  (T_DIR, root_table args) :: ((fun a => (T_FILE, content a)) <$> args).

(** What [mkfs] can take as an argument: a name without a slash, and a file
    that is not too long; [read] returns up to [BSIZE] bytes at a time. *)
Record arg_ok (a : arg) : Prop := {
  o_name : Forall (fun c => 0 < c < 256) (arg_name a) /\ 47 ∉ arg_name a;
  o_reads : exists reads, arg_reads a = Some reads /\ Forall (fun buf => bytes buf /\ (0 < length buf <= Z.to_nat BSIZE)%nat) reads;
  o_size : Z.of_nat (length (content a)) <= MAXFILE * BSIZE
}.

Lemma root_entries_snoc args a :
  root_entries (args ++ [a]) = root_entries args ++ [new_entry (Z.of_nat (length args) + 2) (entry_name a)].
Proof. unfold root_entries. rewrite imap_app. simpl. by rewrite Nat.add_0_r. Qed.

Lemma root_table_snoc args a : root_table (args ++ [a]) = root_table args ++ new_entry (Z.of_nat (length args) + 2) (entry_name a).
Proof. unfold root_table. rewrite root_entries_snoc, join_app. simpl. by rewrite app_nil_r. Qed.

Lemma entry_name_length a : (length (entry_name a) <= DIRSIZ)%nat.
Proof. unfold entry_name. rewrite length_take. lia. Qed.

Lemma root_entries_length args : Forall (fun e => length e = ENT) (root_entries args).
Proof.
  unfold root_entries. constructor; [done|]. constructor; [done|]. apply Forall_lookup. intros k e He.
  rewrite list_lookup_imap in He. destruct (args !! k) as [a|]; [|done]. simpl in He. injection He as <-.
  apply new_entry_length, entry_name_length.
Qed.

Lemma join_length {A} (es : list (list A)) n : Forall (fun e => length e = n) es -> length (mjoin es) = (n * length es)%nat.
Proof. induction 1 as [|e es He _ IH]; simpl; [lia|]. rewrite length_app, IH, He. lia. Qed.

Lemma root_table_length args : length (root_table args) = (ENT * (2 + length args))%nat.
Proof.
  unfold root_table. rewrite (join_length _ ENT) by apply root_entries_length. unfold root_entries. simpl. by rewrite length_imap.
Qed.

(** The entry that [mkfs] makes. *)
Lemma strncpy_entry inum name : 0 <= inum < 2 ^ 16 -> strncpy_name name (dirent0 inum) = new_entry inum (take DIRSIZ name).
Proof.
  intros Hi. unfold strncpy_name, dirent0, new_entry, padded. rewrite xshort_id by done.
  set (l := take DIRSIZ name ++ replicate (DIRSIZ - length name) 0).
  assert (Hl : length l = 14%nat) by (unfold l; rewrite length_app, length_take, length_replicate; unfold DIRSIZ; lia).
  assert (E : put_u16 0 inum (replicate ENT 0) = le_enc 2 inum ++ replicate 14 0) by reflexivity. rewrite E.
  unfold splice. rewrite Hl, take_app_length' by (by rewrite le_enc_length).
  rewrite drop_ge by (rewrite length_app, le_enc_length, length_replicate; lia). rewrite app_nil_r.
  unfold l. do 2 f_equal. f_equal. rewrite length_take. unfold DIRSIZ. lia.
Qed.

Lemma dot_entry : strcpy_name [46] (dirent0 ROOTINO) = new_entry ROOTINO [46].
Proof. reflexivity. Qed.

Lemma dotdot_entry : strcpy_name [46; 46] (dirent0 ROOTINO) = new_entry ROOTINO [46; 46].
Proof. reflexivity. Qed.
Lemma copy_file_ok reads : forall s F k t data,
  built s F -> F !! k = Some (t, data) -> Forall (fun buf => bytes buf /\ (0 < length buf <= Z.to_nat BSIZE)%nat) reads ->
  Z.of_nat (length (data ++ mjoin reads)) <= MAXFILE * BSIZE ->
  nmeta + needs (<[k := (t, data ++ mjoin reads)]> F) <= FSSIZE ->
  exists s', copy_file refuses (inum_of k) reads s = Ok (tt, s') /\ built s' (<[k := (t, data ++ mjoin reads)]> F).
Proof.
  induction reads as [|buf reads IH]; intros s F k t data U Hf Hr Hle Hroom; cbn [copy_file].
  - exists s. split; [done|]. change (mjoin []) with (@nil Z). rewrite app_nil_r. by rewrite list_insert_id.
  - change (mjoin (buf :: reads)) with (buf ++ mjoin reads) in *. apply Forall_cons in Hr as [[Hb Hl] Hr]. rewrite (needs_insert F k t data) in Hroom by done.
    assert (Hlen : length (data ++ buf ++ mjoin reads) = (length data + length buf + length (mjoin reads))%nat) by (rewrite !length_app; lia).
    rewrite Hlen in Hroom, Hle.
    pose proof (need_le (Z.of_nat (length data + length buf)) (Z.of_nat (length data + length buf + length (mjoin reads))) ltac:(lia)).
    destruct (iappend_ok refuses Haccept s F k t data buf U Hf) as (s1 & H1 & U1); try done.
    + intros ->. simpl in Hl. lia.
    + lia.
    + rewrite (u_used _ _ U). lia.
    + rewrite (bind_Ok _ _ _ _ _ H1). pose proof (lookup_lt_Some _ _ _ Hf) as Hk.
      destruct (IH s1 _ k t (data ++ buf) U1) as (s2 & H2 & U2); try done.
      * by apply list_lookup_insert_eq.
      * rewrite length_app, length_app. lia.
      * rewrite list_insert_insert_eq, (needs_insert F k t data) by done. rewrite !length_app. lia.
      * exists s2. split; [done|]. rewrite list_insert_insert_eq in U2. by rewrite app_assoc.
Qed.

Lemma needs_nonneg F : 0 <= needs F.
Proof.
  induction F as [|f F IH]; simpl; [lia|]. pose proof (need_le 0 (Z.of_nat (length f.2)) ltac:(lia)) as H.
  change (need 0) with 0 in H. lia.
Qed.

Lemma needs_app F G : needs (F ++ G) = needs F + needs G.
Proof. induction F as [|f F IH]; simpl; [lia|]. rewrite IH. lia. Qed.

Lemma files_needs_app l l' : needs (files_of l) <= needs (files_of (l ++ l')) /\
  need (Z.of_nat (length (root_table (l ++ l')))) + needs (tail (files_of l)) <= needs (files_of (l ++ l')).
Proof.
  unfold files_of. rewrite fmap_app. cbn [needs foldr snd tail]. fold (needs ((fun a => (T_FILE, content a)) <$> l)).
  fold (needs (((fun a => (T_FILE, content a)) <$> l) ++ ((fun a => (T_FILE, content a)) <$> l'))). rewrite needs_app.
  pose proof (needs_nonneg ((fun a => (T_FILE, content a)) <$> l')).
  pose proof (need_le (Z.of_nat (length (root_table l))) (Z.of_nat (length (root_table (l ++ l'))))) as Hm.
  rewrite !root_table_length, length_app in *. unfold ENT in *. specialize (Hm ltac:(lia)). lia.
Qed.

Lemma files_of_length l : length (files_of l) = S (length l).
Proof. unfold files_of. simpl. by rewrite length_fmap. Qed.

Lemma new_entry_bytes inum name : bytes name -> bytes (new_entry inum name).
Proof.
  intros Hn. unfold new_entry, padded. apply Forall_app. split; [apply le_enc_bytes|]. apply Forall_app. split; [done|].
  apply Forall_replicate. lia.
Qed.

Lemma entry_name_ok a : arg_ok a -> bytes (entry_name a) /\ Forall (fun v => v <> 0) (entry_name a).
Proof.
  intros Ha. destruct (o_name _ Ha) as [Hn _]. assert (Hs : Forall (fun c => 0 < c < 256) (entry_name a)).
  { apply Forall_take. unfold skip_underscore. destruct (arg_name a) as [|c l]; [done|]. destruct (c =? 95); [by apply Forall_cons in Hn as [_ ?]|done]. }
  split; eapply Forall_impl; try exact Hs; simpl; lia.
Qed.

(** The root directory can hold all the inodes there are. *)
Lemma root_fits n : (n < Z.to_nat NINODES)%nat -> Z.of_nat (ENT * (2 + n)) <= MAXFILE * BSIZE.
Proof. change (MAXFILE * BSIZE) with 71680. unfold ENT, NINODES. lia. Qed.

(** One argument. *)
Lemma add_file_ok s l a : built s (files_of l) -> arg_ok a -> (length l + 2 < Z.to_nat NINODES)%nat ->
  nmeta + needs (files_of (l ++ [a])) <= FSSIZE ->
  exists reads s1 s2 s3, arg_reads a = Some reads /\ ialloc refuses T_FILE s = Ok (Z.of_nat (length l) + 2, s1) /\
    iappend refuses ROOTINO (strncpy_name (skip_underscore (arg_name a)) (dirent0 (Z.of_nat (length l) + 2))) s1 = Ok (tt, s2) /\
    copy_file refuses (Z.of_nat (length l) + 2) reads s2 = Ok (tt, s3) /\ built s3 (files_of (l ++ [a])).
Proof.
  intros U Ha Hmax Hroom. destruct (o_reads _ Ha) as (reads & Er & Hr). exists reads.
  assert (Hc : content a = mjoin reads) by (unfold content; by rewrite Er). pose proof (files_of_length l) as Hlen.
  destruct (ialloc_ok refuses Haccept s (files_of l) T_FILE U ltac:(done)) as (s1 & H1 & U1); [rewrite Hlen; lia|].
  assert (En : inum_of (length (files_of l)) = Z.of_nat (length l) + 2) by (unfold inum_of; rewrite Hlen; lia). rewrite En in H1.
  destruct (files_needs_app l [a]) as [_ Hneed]. cbn [tail files_of] in Hneed.
  rewrite strncpy_entry by (unfold NINODES in *; lia). fold (entry_name a). set (e := new_entry _ _).
  pose proof (new_entry_length (Z.of_nat (length l) + 2) (entry_name a) (entry_name_length a)) as He. fold e in He.
  destruct (iappend_ok refuses Haccept s1 (files_of l ++ [(T_FILE, [])]) 0 T_DIR (root_table l) e U1) as (s2 & H2 & U2); try done.
  - by apply new_entry_bytes, entry_name_ok.
  - rewrite He, root_table_length. pose proof (root_fits (S (length l)) ltac:(lia)). unfold ENT in *. lia.
  - rewrite (u_used _ _ U1), needs_snoc. cbn [snd length]. change (need (Z.of_nat 0)) with 0.
    rewrite root_table_snoc, length_app in Hneed. fold e in Hneed. unfold files_of at 1. cbn [needs foldr snd].
    fold (needs ((fun a => (T_FILE, content a)) <$> l)). lia.
  - assert (EF : <[0%nat := (T_DIR, root_table l ++ e)]> (files_of l ++ [(T_FILE, [])]) =
      (T_DIR, root_table (l ++ [a])) :: (((fun a => (T_FILE, content a)) <$> l) ++ [(T_FILE, [])])) by (by rewrite root_table_snoc).
    rewrite EF in U2.
    assert (EG : forall d, <[S (length l) := (T_FILE, d)]> ((T_DIR, root_table (l ++ [a])) :: (((fun a => (T_FILE, content a)) <$> l) ++ [(T_FILE, [])])) =
      (T_DIR, root_table (l ++ [a])) :: (((fun a => (T_FILE, content a)) <$> l) ++ [(T_FILE, d)])).
    { intros d. simpl. f_equal. rewrite insert_app_r_alt by (rewrite length_fmap; lia). by rewrite length_fmap, Nat.sub_diag. }
    destruct (copy_file_ok reads s2 _ (S (length l)) T_FILE [] U2) as (s3 & H3 & U3); try done.
    + simpl. rewrite lookup_app_r by (rewrite length_fmap; lia). by rewrite length_fmap, Nat.sub_diag.
    + rewrite app_nil_l, <- Hc. apply (o_size _ Ha).
    + rewrite EG, app_nil_l, <- Hc. unfold files_of in Hroom. rewrite fmap_app in Hroom. done.
    + exists s1, s2, s3. rewrite EG, app_nil_l, <- Hc in U3. split; [done|]. split; [done|]. split; [exact H2|].
      replace (inum_of (S (length l))) with (Z.of_nat (length l) + 2) in H3 by (unfold inum_of; lia). split; [done|].
      unfold files_of. by rewrite fmap_app.
Qed.

Lemma add_files_ok rest : forall s l, built s (files_of l) -> Forall arg_ok rest -> (length (l ++ rest) + 1 < Z.to_nat NINODES)%nat ->
  nmeta + needs (files_of (l ++ rest)) <= FSSIZE ->
  exists s', add_files refuses ROOTINO rest s = Ok (tt, s') /\ built s' (files_of (l ++ rest)).
Proof.
  induction rest as [|a rest IH]; intros s l U Ha Hmax Hroom; cbn [add_files]; [exists s; by rewrite app_nil_r|].
  apply Forall_cons in Ha as [Ha Hrest]. rewrite (bool_decide_false (47 ∈ arg_name a)) by apply (o_name _ Ha).
  change (a :: rest) with ([a] ++ rest) in *. rewrite app_assoc in *. destruct (files_needs_app (l ++ [a]) rest) as [Hn _].
  destruct (add_file_ok s l a U Ha) as (reads & s1 & s2 & s3 & Er & H1 & H2 & H3 & U3).
  - rewrite !length_app in Hmax. simpl in Hmax. lia.
  - lia.
  - rewrite Er, (bind_Ok _ _ _ _ _ H1), (bind_Ok _ _ _ _ _ H2), (bind_Ok _ _ _ _ _ H3). by apply IH.
Qed.
(** ** The root directory *)

Lemma start_ok : exists s1 s2 s3 s4,
  zero_sectors refuses (Z.to_nat FSSIZE) 0 (set_freeblock nmeta mkfs0) = Ok (tt, s1) /\
  wsect refuses 1 sb_block s1 = Ok (tt, s2) /\ ialloc refuses T_DIR s2 = Ok (ROOTINO, s3) /\
  iappend refuses ROOTINO (new_entry ROOTINO [46]) s3 = Ok (tt, s4) /\
  exists s5, iappend refuses ROOTINO (new_entry ROOTINO [46; 46]) s4 = Ok (tt, s5) /\ built s5 (files_of []).
Proof.
  destruct (zero_sectors_ok (Z.to_nat FSSIZE) 0 (set_freeblock nmeta mkfs0)) as (m & H1 & Hm); [done|done|].
  pose proof (empty_image m) as U2. eexists _, _. rewrite H1, (wsect_ok refuses Haccept _ 1) by done. simpl.
  specialize (U2 ltac:(intros b Hb; rewrite Hm; apply decide_True; unfold FSSIZE in *; lia)).
  destruct (ialloc_ok refuses Haccept _ [] T_DIR U2 ltac:(done)) as (s3 & H3 & U3); [unfold NINODES; simpl; lia|].
  destruct (iappend_ok refuses Haccept s3 _ 0 T_DIR [] (new_entry ROOTINO [46]) U3) as (s4 & H4 & U4); try done.
  { apply new_entry_bytes. repeat (apply Forall_cons; split; [lia|]). by apply Forall_nil. }
  { rewrite (u_used _ _ U3). done. }
  destruct (iappend_ok refuses Haccept s4 _ 0 T_DIR _ (new_entry ROOTINO [46; 46]) U4 eq_refl) as (s5 & H5 & U5); try done.
  { apply new_entry_bytes. repeat (apply Forall_cons; split; [lia|]). by apply Forall_nil. }
  { rewrite (u_used _ _ U4). done. }
  exists s3, s4. split; [done|]. split; [done|]. split; [exact H3|]. split; [exact H4|]. by exists s5.
Qed.

(** The size that the root directory gets in the end. *)
Definition root_size (n : nat) : Z := (Z.of_nat (ENT * (2 + n)) / BSIZE + 1) * BSIZE.

Lemma fix_root_ok s args : built s (files_of args) ->
  exists s', fix_root refuses ROOTINO s = Ok (tt, s') /\
    inode_set s ROOTINO (with_size (root_size (length args)) (dnode sb (virt s) ROOTINO)) s'.
Proof.
  intros U. pose proof (u_sectors _ _ U) as Hs. pose proof (u_file _ _ U 0 _ eq_refl) as Hm. change (inum_of 0) with ROOTINO in Hm. cbn [fst snd] in Hm.
  pose proof (u_max _ _ U) as Hmax. rewrite files_of_length in Hmax. pose proof (root_fits (length args) ltac:(lia)) as Hfit.
  pose proof (m_size _ _ _ _ Hm) as Hsz. rewrite root_table_length in Hsz. set (i := dnode sb (virt s) ROOTINO) in *.
  change (MAXFILE * BSIZE) with 71680 in Hfit. set (z := Z.of_nat (ENT * (2 + length args))) in *.
  assert (Hz : 0 <= (z / BSIZE + 1) * BSIZE < 2 ^ 32) by (unfold BSIZE; Z.to_euclidean_division_equations; lia).
  unfold fix_root. rewrite (bind_Ok _ _ _ _ _ (rinode_ok s ROOTINO Hs ltac:(done))). fold i. rewrite Hsz. cbv zeta.
  rewrite (xint_id z), (u32_small ((z / BSIZE + 1) * BSIZE)), (xint_id ((z / BSIZE + 1) * BSIZE)) by (unfold u32_range; lia).
  apply (winode_ok refuses Haccept); [done|done| |done].
  destruct (m_dev _ _ _ _ Hm) as [Hd1 Hd2]. pose proof (m_type _ _ _ _ Hm) as Hd3. pose proof (m_nlink _ _ _ _ Hm) as Hd4. fold i in Hd1, Hd2, Hd3, Hd4.
  destruct (file_inode_ok sb (virt s) i (virt_alloc s Hs) (m_file _ _ _ _ Hm)); [by rewrite Hd3|by rewrite Hd1|by rewrite Hd2|by rewrite Hd4|].
  constructor; done.
Qed.

Lemma balloc_ok s : sectors s -> exists s', balloc refuses (freeblock s) s = Ok (tt, s') /\ img s' = virt s.
Proof.
  intros Hs. pose proof (s_next _ Hs). pose proof bmap_pos. unfold balloc.
  replace (freeblock s <? BSIZE * 8) with true by (unfold FSSIZE, BSIZE in *; blia). cbn [negb].
  rewrite (wsect_ok refuses Haccept) by lia. by eexists.
Qed.

(** What can be put on an image: all inodes and all blocks are there. *)
Record args_ok (args : list arg) : Prop := {
  q_args : Forall arg_ok args;
  q_inodes : (length args + 1 < Z.to_nat NINODES)%nat;
  q_blocks : nmeta + needs (files_of args) <= FSSIZE
}.

(** The whole run: the files are built, the size of the root directory is
    changed and the bitmap written. *)
Lemma main_ok args : args_ok args ->
  exists s s1 s2, main refuses (Some true) args mkfs0 = Ok (tt, s2) /\ built s (files_of args) /\
    inode_set s ROOTINO (with_size (root_size (length args)) (dnode sb (virt s) ROOTINO)) s1 /\ img s2 = virt s1.
Proof.
  intros [Ha Hn Hb]. destruct start_ok as (s1 & s2 & s3 & s4 & H1 & H2 & H3 & H4 & s5 & H5 & U5).
  destruct (add_files_ok args s5 [] U5 Ha Hn Hb) as (s6 & H6 & U6). rewrite app_nil_l in U6.
  destruct (fix_root_ok s6 args U6) as (s7 & H7 & I7). destruct (balloc_ok s7 (is_sectors _ _ _ _ I7)) as (s8 & H8 & E8).
  exists s6, s7, s8. split; [|done]. unfold main. change (negb _ || negb _) with false. cbv iota.
  rewrite (bind_Ok (modify (set_freeblock nmeta)) _ mkfs0 tt (set_freeblock nmeta mkfs0)) by done.
  rewrite (bind_Ok _ _ _ _ _ H1), (bind_Ok _ _ _ _ _ H2), (bind_Ok _ _ _ _ _ H3). change (negb (ROOTINO =? ROOTINO)) with false. cbv iota.
  rewrite dot_entry, dotdot_entry.
  rewrite (bind_Ok _ _ _ _ _ H4), (bind_Ok _ _ _ _ _ H5), (bind_Ok _ _ _ _ _ H6), (bind_Ok _ _ _ _ _ H7).
  by rewrite (bind_Ok (gets freeblock) _ s7 (freeblock s7) s7).
Qed.

End ops.
