(* ===== verification/MkfsProps.v ===== *)
(** * What [mkfs] leaves on the disk

    The image is a file system in order, as the kernel expects one, and the
    files named on the command line are in it. *)

From S2P Require Import Prelude Block Sleeplock Log Fs FsTx FsAlloc FsFile FsRw FsInode FsDir FsPath Mkfs MkfsImage MkfsAppend MkfsFiles MkfsMain.

(** ** Directory tables *)

Lemma field_zeros o n m : field o n (replicate m 0) = 0.
Proof. unfold field. rewrite drop_replicate, take_replicate. apply le_dec_zeros. Qed.

Lemma dent_join es : forall pad k e, Forall (fun e => length e = ENT) es -> es !! k = Some e -> dent (mjoin es ++ pad) k = e.
Proof.
  induction es as [|e0 es IH]; intros pad k e Hes Hk; [done|]. apply Forall_cons in Hes as [H0 Hes].
  change (mjoin (e0 :: es)) with (e0 ++ mjoin es). rewrite <- app_assoc. destruct k as [|k].
  - simpl in Hk. injection Hk as ->. unfold dent. rewrite Nat.mul_0_r, drop_0. by apply take_app_length'.
  - rewrite <- (IH pad k e Hes Hk). unfold dent. replace (ENT * S k)%nat with (length e0 + ENT * k)%nat by (rewrite H0; lia).
    by rewrite drop_app_add.
Qed.

Lemma dent_pad data n k : length data = (ENT * entries data)%nat -> (entries data <= k)%nat -> de_inum (dent (data ++ replicate n 0) k) = 0.
Proof.
  intros Hw Hk. unfold de_inum, get_u16, dent. rewrite drop_app_ge by (rewrite Hw; unfold ENT; lia).
  rewrite drop_replicate, take_replicate. apply field_zeros.
Qed.

(** The names of the root directory, in order. *)
Definition root_names (args : list arg) : list (list Z) := [46] :: [46; 46] :: (entry_name <$> args).

Definition root_inum (j : nat) : Z := match j with O | 1%nat => ROOTINO | S (S k) => Z.of_nat k + 2 end.

Lemma root_entries_lookup args j nm : root_names args !! j = Some nm -> root_entries args !! j = Some (new_entry (root_inum j) nm).
Proof.
  destruct j as [|[|k]]; simpl; [congruence|congruence|]. rewrite list_lookup_imap, list_lookup_fmap.
  destruct (args !! k) as [a|]; simpl; congruence.
Qed.

Lemma root_names_length args : length (root_names args) = (2 + length args)%nat.
Proof. unfold root_names. simpl. by rewrite length_fmap. Qed.

Lemma root_name_ok args j nm : Forall arg_ok args -> root_names args !! j = Some nm -> Forall (fun v => v <> 0) nm /\ (length nm <= DIRSIZ)%nat.
Proof.
  intros Ha Hj. destruct j as [|[|k]]; simpl in Hj; [injection Hj as <-; split; [by repeat constructor|unfold DIRSIZ; simpl; lia]..|].
  rewrite list_lookup_fmap in Hj. destruct (args !! k) as [a|] eqn:Ek; [|done]. injection Hj as <-.
  split; [|apply entry_name_length]. apply entry_name_ok. by apply (proj1 (Forall_lookup _ _) Ha k).
Qed.

Section root.

Context (args : list arg) (n : nat) (Ha : Forall arg_ok args) (Hmax : (length args + 1 < Z.to_nat NINODES)%nat).

Let data : list Z := root_table args ++ replicate n 0.

Lemma root_dent j nm : root_names args !! j = Some nm -> dent data j = new_entry (root_inum j) nm.
Proof. intros Hj. apply dent_join; [apply root_entries_length|by apply root_entries_lookup]. Qed.

Lemma root_table_entries : entries (root_table args) = (2 + length args)%nat.
Proof. unfold entries. rewrite root_table_length, Nat.mul_comm. by apply Nat.div_mul. Qed.

Lemma root_inum_range j : (j < 2 + length args)%nat -> 1 <= root_inum j <= 1 + Z.of_nat (length args).
Proof. destruct j as [|[|k]]; simpl; unfold ROOTINO; lia. Qed.

Lemma root_entry_range k : de_inum (dent data k) <> 0 -> 1 <= de_inum (dent data k) <= 1 + Z.of_nat (length args).
Proof.
  intros Hne. destruct (decide (k < 2 + length args)%nat) as [Hk|Hk].
  - destruct (lookup_lt_is_Some_2 (root_names args) k) as [nm Hnm]; [by rewrite root_names_length|].
    pose proof (root_inum_range k Hk). rewrite (root_dent k nm Hnm), new_entry_inum; [done|]. unfold NINODES in Hmax. lia.
  - exfalso. apply Hne. apply dent_pad; [by rewrite root_table_length, root_table_entries|rewrite root_table_entries; lia].
Qed.

Lemma root_hit j nm nm' : root_names args !! j = Some nm -> hit nm' (dent data j) = bool_decide (nm = nm').
Proof.
  intros Hj. destruct (root_name_ok args j nm Ha Hj) as [Hz Hl]. pose proof (lookup_lt_Some _ _ _ Hj) as Hlt. rewrite root_names_length in Hlt.
  pose proof (root_inum_range j Hlt). unfold hit. rewrite (root_dent j nm Hj), new_entry_inum, new_entry_name by (done || unfold NINODES in *; lia).
  replace (root_inum j =? 0) with false by blia. simpl. apply bool_decide_ext. split; congruence.
Qed.

Lemma root_lookup j nm : NoDup (root_names args) -> root_names args !! j = Some nm ->
  dir_lookup data nm = Some j /\ de_inum (dent data j) = root_inum j.
Proof.
  intros Hnd Hj. pose proof (lookup_lt_Some _ _ _ Hj) as Hlt. rewrite root_names_length in Hlt. pose proof (root_inum_range j Hlt). split.
  - apply dir_find_first.
    + split; [lia|]. unfold data, entries. rewrite length_app, root_table_length. apply Nat.div_le_lower_bound; [done|]. unfold ENT in *. lia.
    + rewrite (root_hit j nm nm Hj). by apply bool_decide_true.
    + intros x Hx. destruct (lookup_lt_is_Some_2 (root_names args) x) as [nx Hnx]; [rewrite root_names_length; lia|].
      rewrite (root_hit x nx nm Hnx). apply bool_decide_false. intros ->. pose proof (proj1 (NoDup_alt _) Hnd x j nm Hnx Hj). lia.
  - rewrite (root_dent j nm Hj). apply new_entry_inum. unfold NINODES in *. lia.
Qed.

End root.

(** The file has the blocks that its size asks for and no others, and zeroes
    behind its last byte. *)
Definition sized (C : gmap Z block) (i : inode) : Prop := exact C i (i_size i).

(** ** Rounding a size up *)

Lemma round_up C i len : exact C i len -> file_ok sb C i -> i_size i = len -> len mod BSIZE <> 0 ->
  let z := (len / BSIZE + 1) * BSIZE in z <= MAXFILE * BSIZE ->
  file_ok sb C (with_size z i) /\ exact C (with_size z i) z /\ fdata C (with_size z i) = fdata C i ++ replicate (Z.to_nat (z - len)) 0.
Proof.
  intros X [F1 F2 F3 F4 F5 F6] Hsz Hm z Hz. assert (Hzl : len < z) by (unfold z, BSIZE in *; Z.to_euclidean_division_equations; lia).
  assert (Hblk : forall bn, bn * BSIZE < z -> bn * BSIZE < len) by (unfold z, BSIZE in *; intros bn; Z.to_euclidean_division_equations; lia).
  assert (Hin : forall bn, 0 <= bn -> bn * BSIZE < z -> in_file bn) by (intros bn H0 H1; split; [done|]; unfold BSIZE in *; lia).
  split; [constructor; try done|split].
  - simpl. lia.
  - intros bn H0 H1. simpl in H1. apply (x_blocks _ _ _ X); [by apply Hin|by apply Hblk].
  - constructor.
    + intros bn Hbn. change (fblock C (with_size z i) bn) with (fblock C i bn). rewrite (x_blocks _ _ _ X bn Hbn). split; [lia|apply Hblk].
    + change (addr_of (with_size z i) NDIRECT) with (addr_of i NDIRECT). rewrite (x_ind _ _ _ X). split; [lia|apply Hblk].
    + intros o Ho. apply (x_tail _ _ _ X). lia.
  - apply list_eq. intros k. rewrite fdata_lookup. simpl i_size. change (fbyte C (with_size z i)) with (fbyte C i).
    destruct (decide (Z.of_nat k < len)) as [Hk|Hk].
    + rewrite lookup_app_l by (rewrite fdata_length; lia). rewrite fdata_lookup, !decide_True by lia. done.
    + rewrite lookup_app_r by (rewrite fdata_length; lia). rewrite fdata_length by lia. destruct (decide (Z.of_nat k < z)) as [Hk'|Hk'].
      * rewrite lookup_replicate_2 by lia. f_equal. apply (x_tail _ _ _ X); [lia|].
        apply (x_blocks _ _ _ X); [apply block_in_file; lia|]. apply Hblk. unfold BSIZE. Z.to_euclidean_division_equations; lia.
      * symmetry. apply lookup_ge_None. rewrite length_replicate. lia.
Qed.

(** ** The finished image *)

Section final.

Context (args : list arg) (s s1 : mst) (Hq : args_ok args) (U : built s (files_of args)).
Context (I : inode_set s ROOTINO (with_size (root_size (length args)) (dnode sb (virt s) ROOTINO)) s1).

Lemma final_owns k x : (k < S (length args))%nat ->
  owns (virt s1) (dnode sb (virt s1) (inum_of k)) x <-> owns (virt s) (dnode sb (virt s) (inum_of k)) x.
Proof.
  intros Hk. destruct (lookup_lt_is_Some_2 (files_of args) k) as [f Hf]; [by rewrite files_of_length|].
  pose proof (m_file _ _ _ _ (u_file _ _ U k f Hf)) as Hfo.
  pose proof (owns_frame (virt s) (virt s1) (dnode sb (virt s) (inum_of k)) x (fun x => set_frame s _ _ s1 _ x I (u_sectors _ _ U) Hfo)) as Hown.
  destruct (decide (k = 0)%nat) as [-> |Hne].
  - change (inum_of 0) with ROOTINO in *. rewrite (is_here _ _ _ _ I). done.
  - pose proof (inum_range _ k (u_max _ _ U) (lookup_lt_Some _ _ _ Hf)) as Hr.
    rewrite (is_there _ _ _ _ I); [done|lia|]. unfold inum_of, ROOTINO. lia.
Qed.

Lemma final_file k a : args !! k = Some a -> made s1 (Z.of_nat k + 2) T_FILE (content a).
Proof.
  intros Hk. assert (Hf : files_of args !! S k = Some (T_FILE, content a)) by (simpl; by rewrite list_lookup_fmap, Hk).
  pose proof (u_file _ _ U (S k) _ Hf) as Hm. pose proof (inum_range _ _ (u_max _ _ U) (lookup_lt_Some _ _ _ Hf)) as Hr.
  replace (inum_of (S k)) with (Z.of_nat k + 2) in * by (unfold inum_of; lia).
  apply (made_frame s s1); [apply U|apply I|rewrite (is_next _ _ _ _ I); lia| | |done].
  - apply (is_there _ _ _ _ I); unfold ROOTINO; lia.
  - intros x. apply (set_frame s _ _ s1 _ x I (u_sectors _ _ U)). apply (m_file _ _ _ _ Hm).
Qed.

(** The root directory before its size is changed, on the finished image. *)
Lemma final_root : made s ROOTINO T_DIR (root_table args) /\
  file_ok sb (virt s1) (dnode sb (virt s) ROOTINO) /\
  exact (virt s1) (dnode sb (virt s) ROOTINO) (Z.of_nat (ENT * (2 + length args))) /\
  fdata (virt s1) (dnode sb (virt s) ROOTINO) = root_table args.
Proof.
  pose proof (u_file _ _ U 0 _ eq_refl) as Hm. change (inum_of 0) with ROOTINO in Hm. cbn [fst snd] in Hm. split; [done|].
  pose proof (m_file _ _ _ _ Hm) as Hfo. pose proof (u_sectors _ _ U) as Hs. pose proof (s_next _ Hs). pose proof bmap_pos.
  pose proof (fun x => set_frame s _ _ s1 _ x I Hs Hfo) as Hfr. split; [|split].
  - apply (file_ok_frame sb (virt s)); [done|done|]. intros x Hx. pose proof (used_below s _ x Hs Hfo Hx).
    rewrite (virt_bit s1 x (is_sectors _ _ _ _ I)), (is_next _ _ _ _ I) by lia. by replace (x <? freeblock s) with true by blia.
  - apply (exact_frame (virt s)); [done|lia|]. rewrite <- root_table_length. apply (m_exact _ _ _ _ Hm).
  - rewrite (fdata_frame sb (virt s)) by done. apply (m_data _ _ _ _ Hm).
Qed.

Lemma final_root_file : ((2 + length args) mod 32 <> 0)%nat ->
  dir_ok sb (virt s1) (dnode sb (virt s1) ROOTINO) /\ sized (virt s1) (dnode sb (virt s1) ROOTINO) /\
  exists n, fdata (virt s1) (dnode sb (virt s1) ROOTINO) = root_table args ++ replicate n 0.
Proof.
  intros Hmod. destruct final_root as (Hm & Hfo & X & Hd). rewrite (is_here _ _ _ _ I).
  pose proof (m_size _ _ _ _ Hm) as Hsz. rewrite root_table_length in Hsz. pose proof (q_inodes _ Hq) as Hn.
  destruct (round_up _ _ _ X Hfo Hsz) as (Hf' & Hx' & Hd').
  - pose proof (Nat.div_mod_eq (2 + length args) 32). pose proof (Nat.mod_upper_bound (2 + length args) 32). unfold ENT, BSIZE.
    Z.to_euclidean_division_equations; lia.
  - change (MAXFILE * BSIZE) with 71680. unfold ENT, BSIZE, NINODES in *. Z.to_euclidean_division_equations; lia.
  - fold (root_size (length args)) in Hf', Hx', Hd'. split; [|split; [exact Hx'|rewrite Hd', Hd; by eexists]]. constructor; [done|exact (m_type _ _ _ _ Hm)|].
    simpl. unfold root_size, BSIZE, DIRENT. rewrite Zmult_mod. change (512 mod 16) with 0. by rewrite Z.mul_0_r.
Qed.

End final.

(** A file system in order, with the inodes 1 to [n] in use. *)
Record image_ok (C : gmap Z block) (n : Z) : Prop := {
  im_super : exists d, C !! 1 = Some d /\ is_block d /\ parse_sb d = sb;
  im_log : forall b, sb_logstart_ sb <= b < sb_logstart_ sb + sb_nlog_ sb -> C !! b = Some zeroes;
  im_alloc : alloc_ok sb C;
  im_closed : closed sb C (fun m => 1 <= m <= n);
  im_files : forall m, 1 <= m <= n -> file_ok sb C (dnode sb C m);
  im_sized : forall m, 1 <= m <= n -> sized C (dnode sb C m);
  im_apart : forall m m', 1 <= m <= n -> 1 <= m' <= n -> m <> m' -> apart C (dnode sb C m) (dnode sb C m');
  im_owned : forall b, datastart sb <= b < sb_size sb ->
    free_bit sb C b = false <-> exists m, 1 <= m <= n /\ owns C (dnode sb C m) b;
  im_unused : forall m, n < m < sb_ninodes sb -> i_type (dnode sb C m) = 0
}.

Section image.

Context (args : list arg) (s s1 : mst) (Hq : args_ok args) (U : built s (files_of args)).
Context (I : inode_set s ROOTINO (with_size (root_size (length args)) (dnode sb (virt s) ROOTINO)) s1).
Context (Hmod : ((2 + length args) mod 32 <> 0)%nat).

(** The inodes in use, by their place on the command line. *)
Lemma used_inode m : 1 <= m <= 1 + Z.of_nat (length args) -> m = ROOTINO \/ exists k a, args !! k = Some a /\ m = Z.of_nat k + 2.
Proof.
  intros Hm. destruct (decide (m = 1)) as [-> |Hne]; [by left|right].
  destruct (lookup_lt_is_Some_2 args (Z.to_nat (m - 2))) as [a Ha]; [lia|]. exists (Z.to_nat (m - 2)), a. split; [done|lia].
Qed.

Lemma inum_of_pred m : 1 <= m <= 1 + Z.of_nat (length args) -> inum_of (Z.to_nat (m - 1)) = m /\ (Z.to_nat (m - 1) < S (length args))%nat.
Proof. unfold inum_of. lia. Qed.

Lemma image_files m : 1 <= m <= 1 + Z.of_nat (length args) -> file_ok sb (virt s1) (dnode sb (virt s1) m).
Proof.
  intros Hm. destruct (used_inode m Hm) as [-> |(k & a & Hk & ->)].
  - apply (d_file _ _ _ (proj1 (final_root_file args s s1 Hq U I Hmod))).
  - apply (m_file _ _ _ _ (final_file args s s1 U I k a Hk)).
Qed.

Lemma image_sized m : 1 <= m <= 1 + Z.of_nat (length args) -> sized (virt s1) (dnode sb (virt s1) m).
Proof.
  intros Hm. destruct (used_inode m Hm) as [-> |(k & a & Hk & ->)].
  - apply (proj1 (proj2 (final_root_file args s s1 Hq U I Hmod))).
  - pose proof (final_file args s s1 U I k a Hk) as Hf. unfold sized. rewrite (m_size _ _ _ _ Hf). exact (m_exact _ _ _ _ Hf).
Qed.

Lemma image_closed : closed sb (virt s1) (fun m => 1 <= m <= 1 + Z.of_nat (length args)).
Proof.
  destruct (final_root args s s1 U I) as (Hm & _). destruct (final_root_file args s s1 Hq U I Hmod) as (Hdir & _ & n & Hdata).
  pose proof (q_inodes _ Hq) as Hn. constructor.
  - intros m Hr. change (sb_ninodes sb) with NINODES. unfold NINODES in *. lia.
  - intros m Hr. destruct (used_inode m Hr) as [-> |(k & a & Hk & ->)]; [by rewrite (d_type _ _ _ Hdir)|].
    by rewrite (m_type _ _ _ _ (final_file args s s1 U I k a Hk)).
  - intros m Hr. destruct (used_inode m Hr) as [-> |(k & a & Hk & ->)].
    + rewrite (is_here _ _ _ _ I). change (i_nlink (dnode sb (virt s) ROOTINO) <> 0). by rewrite (m_nlink _ _ _ _ Hm).
    + by rewrite (m_nlink _ _ _ _ (final_file args s s1 U I k a Hk)).
  - intros m Hr Ht. destruct (used_inode m Hr) as [-> |(k & a & Hk & ->)]; [done|].
    by rewrite (m_type _ _ _ _ (final_file args s s1 U I k a Hk)) in Ht.
  - intros m k Hr Ht _. destruct (used_inode m Hr) as [-> |(k' & a & Hk & ->)].
    + rewrite Hdata. apply root_entry_range, Hn.
    + by rewrite (m_type _ _ _ _ (final_file args s s1 U I k' a Hk)) in Ht.
Qed.

Lemma image_owned b : datastart sb <= b < sb_size sb ->
  free_bit sb (virt s1) b = false <-> exists m, 1 <= m <= 1 + Z.of_nat (length args) /\ owns (virt s1) (dnode sb (virt s1) m) b.
Proof.
  rewrite data_start_eq, sb_size_eq. intros Hb. pose proof bmap_pos. rewrite (virt_bit s1 b (is_sectors _ _ _ _ I)) by lia. split.
  - intros Hu. destruct (Z.ltb_spec b (freeblock s1)) as [Hlt|]; [|done]. rewrite (is_next _ _ _ _ I) in Hlt.
    destruct (u_owned _ _ U b ltac:(lia)) as (k & Hk & Ho). rewrite files_of_length in Hk. exists (inum_of k).
    split; [unfold inum_of; lia|]. by apply (final_owns args s s1 U I k).
  - intros (m & Hm & Ho). pose proof (used_below s1 _ b (is_sectors _ _ _ _ I) (image_files m Hm) Ho).
    by replace (b <? freeblock s1) with true by blia.
Qed.

Lemma image_boot b : 0 <= b < sb_inodestart sb -> virt s1 !! b = Some (boot b).
Proof.
  intros Hb. pose proof bmap_pos. rewrite (is_else _ _ _ _ I) by lia. rewrite virt_else by lia. by apply (u_boot _ _ U).
Qed.

Lemma image_is_ok : image_ok (virt s1) (1 + Z.of_nat (length args)).
Proof.
  constructor.
  - exists sb_block. split; [by apply (image_boot 1)|]. split; [apply sb_block_block|]. vm_compute. reflexivity.
  - intros b Hb. change (sb_logstart_ sb) with 2 in Hb. change (sb_nlog_ sb) with 30 in Hb.
    rewrite image_boot by (pose proof bmap_pos; lia). unfold boot. by replace (b =? 1) with false by blia.
  - apply virt_alloc, I.
  - apply image_closed.
  - apply image_files.
  - apply image_sized.
  - intros m m' Hm Hm' Hne x Hx Hx'. destruct (inum_of_pred m Hm) as [E Hk], (inum_of_pred m' Hm') as [E' Hk'].
    rewrite <- E in Hx. rewrite <- E' in Hx'. apply (final_owns args s s1 U I _ x Hk) in Hx. apply (final_owns args s s1 U I _ x Hk') in Hx'.
    apply (u_apart _ _ U (Z.to_nat (m - 1)) (Z.to_nat (m' - 1))) with x; rewrite ?files_of_length; done || lia.
  - apply image_owned.
  - intros m Hm. change (sb_ninodes sb) with NINODES in Hm. rewrite (is_there _ _ _ _ I) by (unfold ROOTINO; lia).
    apply (u_unused _ _ U). rewrite (u_next _ _ U), files_of_length. unfold inum_of. lia.
Qed.

End image.

(** C38: for any files that fit, as many that the entries
    of the root directory do not end at a block's end, [mkfs] ends without an
    error and the image is a file system in order: the superblock says where
    everything is, the log is empty, the directory entries lead to inodes in
    use, every file has exactly the blocks its size asks for and no block is
    in two files, the bitmap marks exactly the blocks that are in some file,
    and the remaining inodes are free. *)
Theorem mkfs_image_is_well_formed refuses args :
  (forall sec, 0 <= sec < FSSIZE -> refuses sec = false) -> args_ok args -> ((2 + length args) mod 32 <> 0)%nat ->
  exists s, main refuses (Some true) args mkfs0 = Ok (tt, s) /\ image_ok (img s) (1 + Z.of_nat (length args)).
Proof.
  intros Hacc Hq Hmod. destruct (main_ok refuses Hacc args Hq) as (s & s1 & s2 & Hrun & U & I & Ei).
  exists s2. split; [done|]. rewrite Ei. by apply (image_is_ok args s).
Qed.

(** C39: if the names of the files, cut to 14 characters and
    without a leading underscore, are different, and the entries of the root
    directory do not end at a block's end, each file named on the command line
    is found from the root directory under its name; it is an ordinary file
    with one link, in the next inode, and its bytes are those that were read. *)
Theorem mkfs_files_read_back refuses args k a :
  (forall sec, 0 <= sec < FSSIZE -> refuses sec = false) -> args_ok args -> ((2 + length args) mod 32 <> 0)%nat ->
  NoDup (root_names args) -> args !! k = Some a ->
  exists s, main refuses (Some true) args mkfs0 = Ok (tt, s) /\
    let i := dnode sb (img s) (Z.of_nat k + 2) in
    walk sb false (img s) ROOTINO [skip_underscore (arg_name a)] = Some (Z.of_nat k + 2) /\
    i_type i = T_FILE /\ i_nlink i = 1 /\ fdata (img s) i = content a.
Proof.
  intros Hacc Hq Hmod Hnd Hk. destruct (main_ok refuses Hacc args Hq) as (s & s1 & s2 & Hrun & U & I & Ei).
  exists s2. split; [done|]. rewrite Ei. pose proof (final_file args s s1 U I k a Hk) as Hm.
  destruct (final_root_file args s s1 Hq U I Hmod) as (Hdir & _ & n & Hdata). split; [|by destruct Hm].
  cbn [walk]. rewrite (d_type _ _ _ Hdir), Hdata. change (T_DIR =? T_DIR) with true. cbv iota. fold (entry_name a).
  destruct (root_lookup args n (q_args _ Hq) (q_inodes _ Hq) (S (S k)) (entry_name a) Hnd) as [-> ->]; [|done].
  simpl. by rewrite list_lookup_fmap, Hk.
Qed.

(** When the entries fill their last block, the size that [mkfs] gives the root
    directory covers one block more than the directory has. *)
Theorem mkfs_full_root_has_a_hole refuses args :
  (forall sec, 0 <= sec < FSSIZE -> refuses sec = false) -> args_ok args -> ((2 + length args) mod 32 = 0)%nat ->
  exists s, main refuses (Some true) args mkfs0 = Ok (tt, s) /\
    let i := dnode sb (img s) ROOTINO in
    fblock (img s) i (i_size i / BSIZE - 1) = 0 /\ ~ file_ok sb (img s) i.
Proof.
  intros Hacc Hq Hmod. destruct (main_ok refuses Hacc args Hq) as (s & s1 & s2 & Hrun & U & I & Ei).
  exists s2. split; [done|]. rewrite Ei. destruct (final_root args s s1 U I) as (Hm & Hfo & X & _). rewrite (is_here _ _ _ _ I).
  set (i := dnode sb (virt s) ROOTINO) in *. intros i'. pose proof (q_inodes _ Hq) as Hn. unfold NINODES in Hn.
  assert (Hsz : i_size i' / BSIZE - 1 = Z.of_nat (ENT * (2 + length args)) / BSIZE).
  { unfold i', root_size. cbn [i_size with_size]. rewrite Z.div_mul by done. lia. }
  assert (Hdm : Z.of_nat (ENT * (2 + length args)) / BSIZE * BSIZE = Z.of_nat (ENT * (2 + length args))).
  { pose proof (Nat.div_mod_eq (2 + length args) 32). unfold ENT, BSIZE. Z.to_euclidean_division_equations; lia. }
  assert (Hin : in_file (Z.of_nat (ENT * (2 + length args)) / BSIZE)).
  { apply block_in_file. change (MAXFILE * BSIZE) with 71680. unfold ENT. lia. }
  assert (H0 : fblock (virt s1) i' (i_size i' / BSIZE - 1) = 0).
  { rewrite Hsz. change (fblock (virt s1) i' ?b) with (fblock (virt s1) i b). destruct (decide (fblock (virt s1) i (Z.of_nat (ENT * (2 + length args)) / BSIZE) = 0)) as [E|E]; [done|].
    apply (x_blocks _ _ _ X) in E; [lia|done]. }
  split; [done|]. intros Hf. apply (f_full _ _ _ Hf (i_size i' / BSIZE - 1)); [rewrite Hsz; apply Z.div_pos; [lia|done]| |done].
  rewrite Hsz, Hdm. unfold i', root_size. cbn [i_size with_size]. unfold BSIZE. Z.to_euclidean_division_equations; lia.
Qed.

(** The inodes end where the bitmap starts: inode 208 would be written over it. *)
Lemma inode_area_end : IBLOCK 207 sb < sb_bmapstart sb /\ IBLOCK 208 sb = sb_bmapstart sb.
Proof. split; reflexivity. Qed.

(** ** An image with two files *)

Definition demo_args : list arg :=
  [Arg [82; 69; 65; 68; 77; 69] (Some [[104; 105]; [10]]); Arg [95; 108; 115] (Some [replicate 512 7; [1; 2; 3]])].

Lemma demo_args_ok : args_ok demo_args.
Proof.
  constructor; [|unfold NINODES; simpl; lia|vm_compute; discriminate].
  repeat (apply Forall_cons; split); [| |by apply Forall_nil].
  - constructor; [|exists [[104; 105]; [10]]; split; [done|]|vm_compute; discriminate].
    + split; [repeat (apply Forall_cons; split; [lia|]); by apply Forall_nil|]. by apply (bool_decide_eq_true_1 _).
    + repeat (apply Forall_cons; split; [split; [repeat (apply Forall_cons; split; [lia|]); by apply Forall_nil|simpl; unfold BSIZE; lia]|]).
      by apply Forall_nil.
  - constructor; [|exists [replicate 512 7; [1; 2; 3]]; split; [done|]|vm_compute; discriminate].
    + split; [repeat (apply Forall_cons; split; [lia|]); by apply Forall_nil|]. by apply (bool_decide_eq_true_1 _).
    + apply Forall_cons. split; [split; [by apply Forall_replicate|rewrite length_replicate; unfold BSIZE; lia]|].
      apply Forall_cons. split; [|by apply Forall_nil]. split; [repeat (apply Forall_cons; split; [lia|]); by apply Forall_nil|simpl; unfold BSIZE; lia].
Qed.

Lemma mkfs_image_is_well_formed_witness :
  exists s, main (fun _ => false) (Some true) demo_args mkfs0 = Ok (tt, s) /\ image_ok (img s) 3.
Proof. exact (mkfs_image_is_well_formed (fun _ => false) demo_args (fun _ _ => eq_refl) demo_args_ok ltac:(discriminate)). Defined.

Lemma demo_names : NoDup (root_names demo_args).
Proof. by apply (bool_decide_eq_true_1 _). Qed.

Lemma mkfs_files_read_back_witness :
  exists s, main (fun _ => false) (Some true) demo_args mkfs0 = Ok (tt, s) /\
    let i := dnode sb (img s) 3 in
    walk sb false (img s) ROOTINO [[108; 115]] = Some 3 /\
    i_type i = T_FILE /\ i_nlink i = 1 /\ fdata (img s) i = replicate 512 7 ++ [1; 2; 3].
Proof.
  exact (mkfs_files_read_back (fun _ => false) demo_args 1 _ (fun _ _ => eq_refl) demo_args_ok ltac:(discriminate) demo_names eq_refl).
Defined.
